(* ===== verification/_CoqProject ===== *)
-Q . S2P
Prelude.v
Bytes.v
GpuTypes.v
MqdState.v
ChannelManager.v
ChannelSema.v
Translator.v
Graph.v
Semaphore.v
FenceId.v
StreamCapture.v
Scheduler.v
Ring.v
Hal.v
SimHw.v
Buddy.v
BuddySafe.v
HalUser.v
Puller.v
PullerProps.v
PullerThread.v
MemPool.v
SimMem.v
KfdBridge.v
HalCalls.v
HalMachine.v
Ioctl.v
Device.v
DeviceProps.v
DeviceQueues.v
DeviceMachine.v
Drm.v
KfdPasid.v
KfdProcess.v
KfdQueue.v
WorkQueue.v
KfdEvents.v
Uvm.v
Pci.v
Topology.v
Iommu.v
IommuGroups.v
SimBridge.v
HalMock.v
Bar0.v
Vfs.v
Modules.v
Plugins.v
Net.v
Storage.v
Chardev.v
KernelCompat.v
Cli.v
