(* ===== verification/Prelude.v ===== *)
(** * UsrLinuxEmu: a verification development

    UsrLinuxEmu runs Linux GPU driver code in user space against a simulated
    GPU.  This library models the program from the plug-in loader down to the
    memory allocator of the simulated device: the simulated hardware and the
    hardware abstraction layer (HAL) of the GPU plug-in, its ioctl drivers, the
    KFD driver, the PCI and IOMMU drivers, the bridge to a timing simulator, and
    the user-space kernel that carries them.  It proves what makes each part
    correct, and states as theorems where the code does something else than its
    comments say.

    ** How the program is put together

    The loader ([Modules], [Plugins]) opens plug-ins in the order of their
    dependencies; each registers device nodes in the file system ([Vfs]).  An
    ioctl on the GPU node reaches the device ([Device]), directly or through the
    DRM table ([Drm]); the device keeps tables of buffer objects, queues and VA
    spaces and works through the table of HAL functions ([HalCalls]), which
    the user-space HAL ([HalUser], [HalMachine]) or the mock ([HalMock])
    implements.  Below the HAL, a client fills a ring or a buffer in device
    memory with GPFIFO entries and rings a doorbell.  The hardware puller
    ([Puller]), a state machine on a thread of its own ([PullerThread]), asks
    the channel manager for the next channel, fetches its entries through the
    HAL, decodes them, waits on or releases semaphores, hands the rest to the
    global scheduler or to the translator that calls the launch callback, and at
    the end of a batch signals the batch's fence.  Graphs, stream captures,
    timeline semaphores, timestamp queries and memory pools are further services
    of the simulation, each a table behind C functions.  Beside the device, the
    KFD driver keeps processes, PASIDs, pinned queue buffers and events
    ([KfdPasid] ... [KfdEvents]); the PCI driver emulates an endpoint found in a
    topology file ([Pci], [Topology]); the IOMMU driver keeps a translation
    table per domain and tells the notifiers of unified memory about unmaps
    ([Iommu], [Uvm]); and a bridge ([SimBridge]) hands accesses to an external
    simulator.

    ** Files, and the code they model (paths below src/)

    Shared
    - [Prelude]: integers of fixed width ([u8] ... [u64], [s32], [s64]), error
      numbers, record update, the state-and-early-return monad [handler], list
      lemmas, tactics.
    - [Bytes]: little-endian integers and blocks of bytes in memory.

    The simulated GPU (plugins/gpu_driver)
    - [GpuTypes]: shared/gpu_types.h; the GPFIFO entry, its opcodes and its
      packed 109-byte image.
    - [MqdState]: sim/hardware/mqd_state.cpp; the four transitions of a queue
      descriptor, over a heap of descriptors.  [Bar0]: sim/bar_sim.cpp, the
      registers laid over those descriptors.
    - [ChannelManager]: sim/hardware/channel_manager.cpp; channel registration,
      batch submission, priority arbitration with its starvation guard, and
      preemption of GREEN channels.
    - [ChannelSema]: sim/scheduler/channel_state.cpp; pending semaphore waits,
      barriers, frozen fences, backup and restore.
    - [Translator]: sim/scheduler/translator/gpfifo_translator.cpp; launch
      parameters and PM4 and AQL packets.
    - [Graph], [StreamCapture]: sim/graph.cpp, sim/stream_capture.cpp.
    - [Semaphore]: sim/semaphore_manager.cpp; [FenceId]: sim/fence_id.cpp and
      sim/pdl.cpp.
    - [Scheduler]: sim/scheduler/global_scheduler.cpp; the ordered multiset of
      work items, priority inheritance, fence ranges per engine.
    - [Ring]: sim/gpu_queue_emu.cpp and sim/hardware/doorbell_emu.h.
    - [SimHw]: sim/hardware/timestamp_query.cpp, interrupt.cpp and
      method_codec.cpp.
    - [Buddy]: libgpu_core/src/buddy.c, executable; [BuddySafe]: its invariant
      and what its calls do.
    - [Puller]: sim/hardware/hardware_puller_emu.cpp over any [HalOps], one
      definition per state of the machine, [runLoop_step] for one iteration of
      [runLoop]; [PullerProps]: indirect buffers, released and blocked entries;
      [PullerThread]: start, stop and the two waits, as a step relation of the
      worker and its clients.
    - [MemPool]: sim/mem_pool.cpp and sim/sim_device_va_allocator.cpp.
    - [SimMem]: sim/page_migration.cpp, page_fault_handler.cpp,
      dma_coherent_pool.cpp and vram_store.cpp.

    The HAL and the GPU drivers (plugins/gpu_driver)
    - [Hal]: the part of hal/gpu_hal.h the simulated hardware calls, as the
      class [HalOps] with its laws [HalLaws].  [HalUser]: hal/hal_user.cpp; its
      memory and interrupts are instances of the two classes.
    - [HalCalls]: the whole function table as the class [GpuHal], one constructor
      of [hal_op] per function pointer, with the laws [GpuHalLaws] the drivers
      rely on.  [HalMachine]: the table hal_user.cpp fills, an instance of both;
      [HalMock]: the table of hal/hal_mock.cpp, an instance of [GpuHal] only.
    - [Ioctl]: shared/gpu_ioctl.h; argument structures, sizes, request codes.
    - [Device]: drv/gpgpu_device.cpp over any [GpuHal], one [handler] per ioctl;
      [DeviceProps], [DeviceQueues]: its invariants over any lawful HAL;
      [DeviceMachine]: the same over [HalMachine], with the puller below.
    - [Drm]: drv/gpu_drm_driver.cpp, the second dispatch table.
    - [KfdBridge]: drv/kfd_sim_bridge.cpp and src/kernel/uvm/mm_shim.cpp.
    - [KfdPasid], [KfdProcess], [KfdQueue], [KfdEvents]: drv/kfd/*.c.  The
      amdgpu functions KFD calls are the interface [AmdgpuVm].
    - [Plugins]: plugin.cpp of every driver.

    PCI, IOMMU, simulator bridge
    - [Pci]: plugins/pci_driver; [Topology]: sim_hardware/src/topology.cpp,
      pcie/host_bridge.cpp, plugins/pci_driver/pci_setup_bus.cpp.
    - [Iommu], [IommuGroups]: plugins/iommu_driver.
    - [SimBridge]: sim_hardware/src/cpptlm, pcie/bypass.cpp, hal/hal_cpptlm.cpp.
      The simulator is the interface [Emulator].

    The user-space kernel (src/kernel)
    - [WorkQueue]: thread/kernel_workqueue.cpp.
    - [Uvm]: uvm/; what a driver's callback does is the interface [Callbacks].
    - [Vfs]: vfs.cpp, service_registry.cpp, drm/render_node.cpp,
      process/isolated_device.cpp.
    - [Modules]: module_loader.cpp, plugin_manager.cpp, module.cpp; the order in
      which a heap gives equal priorities is that of any [HeapPick].
    - [Net]: net/ and plugins/net_driver; [Storage]: block/ and
      plugins/storage_driver.
    - [Chardev]: wait_queue.cpp, poll_watcher.cpp, file_ops.cpp, device/, and the
      sample driver of drivers/.
    - [KernelCompat]: compat/, thread/kernel_thread_base.cpp, the DRM objects of
      drm/, and the inline services of include/linux_compat.
    - [Cli]: config_manager.cpp and tools/cli/main.cpp, and the loading of the
      repository's own plug-ins.

    ** Conventions

    A C++ object is a [Record] with the fields of the class, an operation a
    function from the old state to the result and the new state, and a sequence
    of calls a list folded over the state.  An unsigned integer is a [Z], and
    the wrap-around of each arithmetic operation is written out.  Objects that
    are shared or compared by address live in a map from addresses, 0 or [None]
    being null; an [out] parameter is a [bool] that says whether the pointer is
    non-null, and what is stored through it is part of the result.  Undefined
    behaviour (a freed object or an access outside its object) is [None] where
    the function otherwise answers a value.  Callbacks are recorded as the list
    of calls made, in order.  An operation that holds a mutex is atomic; where
    threads wait or interleave, the critical sections are the steps of a
    relation and a run is any sequence of them ([WorkQueue], [PullerThread],
    [Chardev], [SimBridge], [KernelCompat]).  What the operating system, the C
    library or a vendored library answers is an argument.  Code outside the
    repository is a class with laws, and a concrete instance shows that the laws
    can hold ([page_vm], [code_callbacks], [log_emulator]).

    ** What the theorems show

    - Refinement of an abstract state: PASIDs are a set ([KfdPasid]), IOMMU
      domains finite tables ([Iommu]), device nodes a finite map ([Vfs]),
      sockets with counted buffers mailboxes ([Net]), debug handles an
      append-only list ([SimBridge]).
    - Allocation: the buddy allocator's blocks partition its pool after any
      calls, and its calls do what their contracts say ([BuddySafe]); through
      the HAL, a write into one allocation reads back and touches no other
      ([HalUser]); allocations of all pools are disjoint ([MemPool]), and so are
      DMA buffers ([SimMem]) and the buffer objects of a device over any lawful
      HAL, whatever ioctls are made ([DeviceProps]).
    - Execution: a batch is dispatched in order and its fence signalled exactly
      once, in a number of steps that is proved to suffice ([Puller]); the
      worker thread makes those steps, loses no wake-up and can be stopped
      ([PullerThread]); indirect buffers return where they came from
      ([PullerProps]); entries survive their encoding ([GpuTypes]).
    - Scheduling and order: [ChannelManager] and [Scheduler] pick the most urgent
      and oldest work within the bound of their starvation guards; tasks run
      once, in order ([WorkQueue]), and event pages show what was signalled since
      they were allocated ([KfdEvents]); plug-ins start after what they depend
      on, and a cycle is refused, exactly ([Modules]).
    - Synchronisation: no waiter is lost or woken twice ([Semaphore]), fences
      read as signalled exactly when they were ([FenceId]), rings are FIFOs
      across index wrap ([Ring]), bypass switches drain ([SimBridge]).
    - All or nothing: queue buffers are pinned all or none, unless the error path
      itself is refused a reservation ([KfdQueue]), the GPU
      plug-in comes up whole or leaves nothing behind ([Plugins]), a refused
      topology writes nothing ([Topology]).
    - Dispatch: the scan of the ioctl table is a switch on the parts of the
      request code ([DeviceQueues]); the DRM table answers each request as the
      plain one or differs from it as stated ([Drm]).
    - Round trips: allocation and release ([DeviceProps], [KfdProcess],
      [KfdQueue]), block files ([Storage]), configuration space ([Pci]), the
      topology document ([Topology]).
    - Where the code does something its comments or callers do not expect, a
      theorem or lemma states what it does: entries submitted through an ioctl
      that never reach the puller ([DeviceMachine.pushbuffer_entries_not_fetched]),
      doorbell offsets that cannot be mapped
      ([DeviceQueues.doorbell_offset_unmappable]), the allocator that runs out of
      nodes ([BuddySafe.buddy_nodes_run_out]), wrapped bounds checks
      ([HalUser.mem_guard_exact], [Pci.bar_window_exact]), reference counts that
      unload a plug-in under its dependant ([Modules.unload_under_dependant]),
      and others.

    ** Bounds and fuel

    The main loop is not given fuel: [run_steps n] makes [n] iterations and the
    termination theorem says how many a batch takes.  [coalesce] recurses on the
    orders left, and one level on the length of its free list, since a merge
    takes two blocks off it; [init_order] makes at most 64 doublings, the width
    of the shifted constant; [order_loop] makes the 21 rounds of the code.
    [first_free] looks at each handle of the device's bitmap once, [probe] at
    each of the 65536 PASIDs, [ioasid_search] at each of the 65535 ids.  A bounded
    WAIT_FENCE polls [timeout + 1] times ([wait_fuel]), which its theorem shows
    to be enough; an unbounded one is given the environment's patience, and the
    theorem says what it answers for every patience.  [cap_walk] takes one step
    per capability and one for the end.  The searches of the plug-in graph
    ([detect_cycle], [kahn]) have one unit of fuel more than there are
    candidates; [topo_sort_exact] shows that neither runs out.  A worker is run
    for three steps per task ([worker_fuel]), which drains it.

    Counters that are an [int] in the code wrap at 32 bits in the model (their
    overflow is undefined in C++), and the theorems about them bound the calls:
    the starvation counter of [Scheduler], group ids ([IommuGroups]) and socket
    descriptors ([Net]) count below 2^31.  Sizes of buffer objects, blocks and
    pool allocations are bounded where the allocator rounds them: blocks above
    2^63 bytes wrap to one page, and the theorems of [BuddySafe], [MemPool] and
    [DeviceProps] name the sizes they hold for.
    ** Not modelled

    - Vendored and archived code (external/json, archive directories) and the
      tests.
    - The logger, printing functions and log strings; wall-clock time.
    - The text of JSON documents: the models start from the parsed value.
    - The symbol tables the simulator bridge fills from the dynamic linker
      (resolve_*_symbols); whether they resolve is an argument.
    - The SVM path of drv/kfd/kfd_queue.c, which the build compiles out
      ([CONFIG_HSA_AMD_SVM] is 0).
    - Races on fields the code reads outside its mutexes: the iterations of the
      puller and of the work queue are atomic steps between their waits. *)
From Stdlib Require Export ZArith Lia Bool Sorting.Sorted.
From stdpp Require Export base tactics list gmap fin_maps strings numbers option sorting.

#[global] Open Scope Z_scope.

(** ** Machine-width integers

    A C/C++ unsigned integer of width w is a [Z] reduced modulo [2^w]. *)
Definition u8 (x : Z) : Z := x mod 2 ^ 8.
Definition u16 (x : Z) : Z := x mod 2 ^ 16.
Definition u32 (x : Z) : Z := x mod 2 ^ 32.
Definition u64 (x : Z) : Z := x mod 2 ^ 64.

(** Two's-complement reading of a 32- and of a 64-bit word. *)
Definition s32 (x : Z) : Z :=
  let y := u32 x in if y <? 2 ^ 31 then y else y - 2 ^ 32.
Definition s64 (x : Z) : Z :=
  let y := u64 x in if y <? 2 ^ 63 then y else y - 2 ^ 64.

Definition UINT64_MAX : Z := 2 ^ 64 - 1.
Definition INT64_MAX : Z := 2 ^ 63 - 1.

Abbreviation is_u8 x := (0 <= x < 2 ^ 8).
Abbreviation is_u16 x := (0 <= x < 2 ^ 16).
Abbreviation is_u32 x := (0 <= x < 2 ^ 32).
Abbreviation is_u64 x := (0 <= x < 2 ^ 64).

(** C truth of an integer and the value of a C bool. *)
Definition truthy (x : Z) : bool := negb (x =? 0).

(** ** Linux error numbers (returned negated) *)
Definition ENOENT : Z := 2.
Definition EIO : Z := 5.
Definition E2BIG : Z := 7.
Definition EBADF : Z := 9.
Definition EAGAIN : Z := 11.
Definition ENOMEM : Z := 12.
Definition EACCES : Z := 13.
Definition EFAULT : Z := 14.
Definition EBUSY : Z := 16.
Definition EEXIST : Z := 17.
Definition ENODEV : Z := 19.
Definition EINVAL : Z := 22.
Definition ENOSPC : Z := 28.
Definition ENOSYS : Z := 38.
Definition ELOOP : Z := 40.
Definition EOVERFLOW : Z := 75.
Definition ETIMEDOUT : Z := 110.

(** ** Record update

    [r <| p := v |>] replaces field [p]; [r <| p ::= f |>] applies [f] to
    it.  A record opts in by giving its eta expansion ([Eta]); the setter of a
    field is found by abstracting the field in that expansion. *)
Class Eta (R : Type) := eta_rec : R -> R.
Class FieldUpd {R A : Type} (p : R -> A) := field_upd : (A -> A) -> R -> R.
#[global] Hint Mode FieldUpd + + + : typeclass_instances.

Ltac find_field_upd :=
  match goal with
  | |- @FieldUpd ?R ?A ?p =>
      let h := constr:(ltac:(typeclasses eauto) : Eta R) in
      let body :=
        constr:(fun (f : A -> A) (r : R) =>
          ltac:(let e := eval hnf in (h r) in
                let g := eval pattern (p r) in e in
                match g with ?c _ => let t := eval cbv beta in (c (f (p r))) in exact t end)) in
      exact body
  end.
#[global] Hint Extern 1 (FieldUpd _) => find_field_upd : typeclass_instances.

Declare Scope emu_scope.
Delimit Scope emu_scope with emu.
#[global] Open Scope emu_scope.
#[warnings="-postfix-notation-not-level-1"]
Notation "r <| p ::= f |>" := (field_upd (p := p) f r)
  (at level 12, left associativity, p at next level) : emu_scope.
#[warnings="-postfix-notation-not-level-1"]
Notation "r <| p := v |>" := (field_upd (p := p) (fun _ => v) r)
  (at level 12, left associativity, p at next level) : emu_scope.


(** ** Handlers: state passing with early return

    A C function that reads and writes shared state and may [return] a code
    from the middle of its body. *)
Inductive outcome (R A : Type) :=
| Exit (r : R)
| Go (a : A).
Arguments Exit {R A} r.
Arguments Go {R A} a.

Definition handler (S R A : Type) : Type := S -> outcome R A * S.

#[export] Instance handler_ret S R : MRet (handler S R) :=
  fun A a s => (Go a, s).
#[export] Instance handler_bind S R : MBind (handler S R) :=
  fun A B k m s =>
    match m s with
    | (Exit r, s') => (Exit r, s')
    | (Go a, s') => k a s'
    end.

Section Handlers.
  Context {S R : Type}.
Definition get_st : handler S R S := fun s => (Go s, s).
Definition put_st (s' : S) : handler S R unit := fun _ => (Go tt, s').
Definition modify_st (f : S -> S) : handler S R unit := fun s => (Go tt, f s).
Definition exit_with {A} (r : R) : handler S R A := fun s => (Exit r, s).
  (** [if (!b) return r;] *)
Definition require (b : bool) (r : R) : handler S R unit :=
    if b then mret tt else exit_with r.
  (** [it = find(..); if (it == end()) return r;] *)
Definition require_some {A} (o : option A) (r : R) : handler S R A :=
    match o with Some a => mret a | None => exit_with r end.
  (** The value the function returns and the state it leaves. *)
Definition run_handler (m : handler S R R) (s : S) : R * S :=
    match m s with
    | (Exit r, s') | (Go r, s') => (r, s')
    end.

Lemma handler_ret_bind {A B} (a : A) (k : A -> handler S R B) s :
    (mret a ≫= k) s = k a s.
  Proof. reflexivity. Qed.
Lemma handler_bind_ret {A} (m : handler S R A) s : (m ≫= mret) s = m s.
  Proof. unfold mbind, handler_bind. by destruct (m s) as [[]]. Qed.
Lemma handler_bind_assoc {A B C} (m : handler S R A)
      (f : A -> handler S R B) (g : B -> handler S R C) s :
    ((m ≫= f) ≫= g) s = (m ≫= (fun a => f a ≫= g)) s.
  Proof. unfold mbind, handler_bind. by destruct (m s) as [[]]. Qed.

  (** The handler keeps [I], whichever way it returns. *)
Definition preserves {A} (I : S -> Prop) (m : handler S R A) : Prop :=
    forall s, I s -> I (m s).2.

Lemma preserves_ret {A} I (a : A) : preserves I (mret a).
  Proof. by intros s. Qed.
Lemma preserves_exit {A} I r : preserves I (exit_with (A := A) r).
  Proof. by intros s. Qed.
Lemma preserves_get I : preserves I get_st.
  Proof. by intros s. Qed.
Lemma preserves_modify I f : (forall s, I s -> I (f s)) -> preserves I (modify_st f).
  Proof. intros H s Hs. by apply H. Qed.
Lemma preserves_require I b r : preserves I (require b r).
  Proof. unfold require. destruct b; [apply preserves_ret|apply preserves_exit]. Qed.
Lemma preserves_require_some {A} I (o : option A) r : preserves I (require_some o r).
  Proof. destruct o; [apply preserves_ret|apply preserves_exit]. Qed.
Lemma preserves_bind {A B} I (m : handler S R A) (k : A -> handler S R B) :
    preserves I m -> (forall a, preserves I (k a)) -> preserves I (m ≫= k).
  Proof.
    intros Hm Hk s Hs. specialize (Hm s Hs). unfold mbind, handler_bind.
    destruct (m s) as [[r|a] s']; [done|]. by apply Hk.
  Qed.
Lemma preserves_run I (m : handler S R R) s : preserves I m -> I s -> I (run_handler m s).2.
  Proof. intros Hm Hs. specialize (Hm s Hs). unfold run_handler. by destruct (m s) as [[r|r] s']. Qed.
End Handlers.
Create HintDb handler.
#[export] Hint Resolve preserves_ret preserves_exit preserves_get preserves_require
  preserves_require_some : handler.

(** Reduce [preserves] of a handler to its state changes. *)
Ltac handler_step :=
  match goal with
  | |- preserves _ (_ ≫= _) => apply preserves_bind; [|intros ?]
  | |- preserves _ (match ?x with _ => _ end) => destruct x
  | |- preserves _ (let '_ := ?x in _) => destruct x
  | |- preserves _ _ => solve [eauto with handler]
  end.
Ltac handler_steps := repeat handler_step.

Lemma pair_snd {A B} (x : A * B) a : x.1 = a -> x = (a, x.2).
Proof. by destruct x; simpl; intros ->. Qed.

(** ** Arithmetic *)
Create HintDb emu.

Lemma u8_range x : is_u8 (u8 x).
Proof. apply Z.mod_pos_bound. lia. Qed.
Lemma u16_range x : is_u16 (u16 x).
Proof. apply Z.mod_pos_bound. lia. Qed.
Lemma u32_range x : is_u32 (u32 x).
Proof. apply Z.mod_pos_bound. lia. Qed.
Lemma u64_range x : is_u64 (u64 x).
Proof. apply Z.mod_pos_bound. lia. Qed.
Lemma u8_id x : is_u8 x -> u8 x = x.
Proof. apply Z.mod_small. Qed.
Lemma u16_id x : is_u16 x -> u16 x = x.
Proof. apply Z.mod_small. Qed.
Lemma u32_id x : is_u32 x -> u32 x = x.
Proof. apply Z.mod_small. Qed.
Lemma u64_id x : is_u64 x -> u64 x = x.
Proof. apply Z.mod_small. Qed.
#[export] Hint Resolve u8_range u16_range u32_range u64_range : emu.
#[export] Hint Rewrite u8_id u16_id u32_id u64_id using lia : emu.

Lemma u32_u64 x : u32 (u64 x) = u32 x.
Proof. unfold u32, u64. apply Z.mod_mod_divide. by exists (2 ^ 32). Qed.
#[export] Hint Rewrite u32_u64 : emu.

Lemma list_alter_insert_at {A} (f : A -> A) (i : nat) (l : list A) (x : A) : l !! i = Some x -> alter f i l = <[i := f x]> l.
Proof. revert i. induction l as [|y l IH]; intros [|i] Hx; simplify_eq/=; [done|]. f_equal. by apply IH. Qed.
Lemma s32_id x : 0 <= x < 2 ^ 31 -> s32 x = x.
Proof.
  intros Hx. unfold s32. rewrite u32_id by (split; lia). by case_match; lia.
Qed.
Lemma s32_range x : - 2 ^ 31 <= s32 x < 2 ^ 31.
Proof. unfold s32. pose proof (u32_range x). case_match; lia. Qed.

(** Fields packed at disjoint bit positions add up. *)
Lemma lor_add_shift a b n :
  0 <= n -> 0 <= a < 2 ^ n -> Z.lor a (Z.shiftl b n) = a + b * 2 ^ n.
Proof.
  intros Hn Ha. rewrite <- Z.add_nocarry_lor; [by rewrite Z.shiftl_mul_pow2|].
  apply Z.bits_inj'. intros i Hi. rewrite Z.land_spec, Z.shiftl_spec, Z.bits_0 by done.
  destruct (Z.ltb_spec i n) as [H|H].
  - rewrite (Z.testbit_neg_r b) by lia. apply andb_false_r.
  - by rewrite (proj1 (Z.bounded_iff_bits_nonneg n a Hn ltac:(lia)) ltac:(lia) i H).
Qed.

Lemma land_ones_mod x n : 0 <= n -> Z.land x (2 ^ n - 1) = x mod 2 ^ n.
Proof. intros. rewrite <- Z.land_ones by done. by rewrite Z.ones_equiv, <- Z.sub_1_r. Qed.

Lemma lor_range k a b :
  0 <= k -> 0 <= a < 2 ^ k -> 0 <= b < 2 ^ k -> 0 <= Z.lor a b < 2 ^ k.
Proof.
  intros Hk Ha Hb. assert (H0 : 0 <= Z.lor a b) by (apply Z.lor_nonneg; lia).
  split; [done|]. apply (Z.bounded_iff_bits_nonneg k); [lia..|]. intros i Hi.
  rewrite Z.lor_spec.
  rewrite (proj1 (Z.bounded_iff_bits_nonneg k a ltac:(lia) ltac:(lia)) ltac:(lia) i Hi).
  by rewrite (proj1 (Z.bounded_iff_bits_nonneg k b ltac:(lia) ltac:(lia)) ltac:(lia) i Hi).
Qed.

(** Solve a word-arithmetic side condition. *)
Ltac word := unfold u8, u16, u32, u64 in *; Z.div_mod_to_equations; lia.

(** Case analysis on the first [if]/[match] of the goal, closing dead
    branches. *)
Ltac step_match := case_match; simplify_eq/=; try done.
Ltac crush := repeat step_match; eauto with emu; try lia.

(** ** Lists *)
Section Lists.
  Context {A : Type}.
  Implicit Types l : list A.

  (** Elements of [l] satisfying [p], and the rest, each in order. *)
Definition split_by (p : A -> bool) l : list A * list A :=
    (List.filter p l, List.filter (fun x => negb (p x)) l).

Lemma split_by_perm p l : (split_by p l).1 ++ (split_by p l).2 ≡ₚ l.
  Proof.
    induction l as [|x l IH]; simpl; [done|].
    simpl in IH. destruct (p x); simpl.
    - by rewrite IH.
    - rewrite <- IH at 3. by rewrite Permutation_middle.
  Qed.

Lemma filter_In_iff (p : A -> bool) l x : x ∈ List.filter p l <-> x ∈ l /\ p x = true.
  Proof. rewrite !list_elem_of_In. apply filter_In. Qed.

  (** The longest prefix whose elements satisfy [p], and what follows it. *)
Fixpoint span (p : A -> bool) l : list A * list A :=
    match l with
    | [] => ([], [])
    | x :: l' => if p x then let '(u, v) := span p l' in (x :: u, v) else ([], l)
    end.

Lemma span_app p l : (span p l).1 ++ (span p l).2 = l.
  Proof.
    induction l as [|x l IH]; simpl; [done|].
    destruct (p x); simpl; [|done]. destruct (span p l). simpl in *. by rewrite IH.
  Qed.
Lemma span_fst p l : Forall (fun x => p x = true) (span p l).1.
  Proof.
    induction l as [|x l IH]; simpl; [constructor|].
    destruct (p x) eqn:E; simpl; [|constructor].
    destruct (span p l). constructor; done.
  Qed.
Lemma span_snd p l x : head (span p l).2 = Some x -> p x = false.
  Proof.
    induction l as [|y l IH]; simpl; [done|].
    destruct (p y) eqn:E; simpl; [|congruence].
    destruct (span p l). done.
  Qed.
End Lists.

(** ** Cyclic search among the identifiers 1 .. 0xFFFF *)
(** The identifier [k] steps after [h]. *)
Definition cyc (h : Z) (k : nat) : Z := 1 + (h - 1 + Z.of_nat k) mod 0xFFFF.

Lemma cyc_range h k : 1 <= cyc h k <= 0xFFFF.
Proof. unfold cyc. pose proof (Z.mod_pos_bound (h - 1 + Z.of_nat k) 0xFFFF ltac:(lia)). lia. Qed.
Lemma cyc_0 h : 1 <= h <= 0xFFFF -> cyc h 0 = h.
Proof. unfold cyc. intros. rewrite Z.add_0_r, Z.mod_small by lia. lia. Qed.
Lemma cyc_S h k : 1 <= h <= 0xFFFF -> cyc h (S k) = cyc (if 0xFFFF <? h + 1 then 1 else h + 1) k.
Proof.
  unfold cyc. intros. destruct (Z.ltb_spec 0xFFFF (h + 1)); f_equal.
  - assert (h = 0xFFFF) as -> by lia.
    replace (0xFFFF - 1 + Z.of_nat (S k)) with (1 - 1 + Z.of_nat k + 1 * 0xFFFF) by lia.
    by rewrite Z_mod_plus_full.
  - f_equal. lia.
Qed.
Lemma cyc_surj h p : 1 <= h <= 0xFFFF -> 1 <= p <= 0xFFFF ->
  exists k, (k < Z.to_nat 0xFFFF)%nat /\ p = cyc h k.
Proof.
  unfold cyc. intros. exists (Z.to_nat ((p - h) mod 0xFFFF)).
  pose proof (Z.mod_pos_bound (p - h) 0xFFFF ltac:(lia)). split; [lia|].
  rewrite Z2Nat.id, Zplus_mod_idemp_r by lia. rewrite Z.mod_small; lia.
Qed.
Lemma cyc_inj h i j : (i < Z.to_nat 0xFFFF)%nat -> (j < Z.to_nat 0xFFFF)%nat -> cyc h i = cyc h j -> i = j.
Proof.
  unfold cyc. intros Hi Hj H. set (a := h - 1) in *. clearbody a.
  pose proof (Z_div_mod_eq_full (a + Z.of_nat i) 0xFFFF). pose proof (Z_div_mod_eq_full (a + Z.of_nat j) 0xFFFF). nia.
Qed.
(** The id returned is the first one free at or after the hint, cyclically. *)
Definition first_free_from (h : Z) (l : gset Z) (p : Z) : Prop :=
  exists k, p = cyc h k /\ p ∉ l /\ forall j, (j < k)%nat -> cyc h j ∈ l.
