(* ===== verification/Bytes.v ===== *)
(** * Bytes

    Little-endian integers and blocks of bytes in memory, shared by the
    components that copy structures or registers. *)
From S2P Require Import Prelude.

(** ** Little-endian integers *)
Fixpoint le_bytes (n : nat) (x : Z) : list Z :=
  match n with
  | O => []
  | S n' => x mod 256 :: le_bytes n' (x / 256)
  end.

Fixpoint le_val (bs : list Z) : Z :=
  match bs with
  | [] => 0
  | b :: bs' => b + 256 * le_val bs'
  end.

(** ** Memory: a byte per address *)
Definition peek (p n : Z) (m : Z -> Z) : list Z := (fun i => m (p + i)) <$> seqZ 0 n.
Definition poke (p : Z) (bs : list Z) (m : Z -> Z) : Z -> Z := fun a =>
  if (p <=? a) && (a <? p + Z.of_nat (length bs)) then default 0 (bs !! Z.to_nat (a - p)) else m a.

Lemma length_le_bytes n x : length (le_bytes n x) = n.
Proof. revert x. induction n as [|n IH]; intros x; simpl; [done|]. by rewrite IH. Qed.

Lemma le_bytes_range n x : Forall (fun b => is_u8 b) (le_bytes n x).
Proof.
  revert x. induction n as [|n IH]; intros x; simpl; constructor; [|apply IH].
  apply Z.mod_pos_bound. lia.
Qed.

Lemma le_val_bytes n x : le_val (le_bytes n x) = x mod 2 ^ (8 * Z.of_nat n).
Proof.
  revert x. induction n as [|n IH]; intros x; simpl le_bytes; simpl le_val.
  - by rewrite Z.mod_1_r.
  - rewrite IH. replace (8 * Z.of_nat (S n)) with (8 + 8 * Z.of_nat n) by lia.
    rewrite Z.pow_add_r by lia. change (2 ^ 8) with 256.
    rewrite Z.rem_mul_r; [lia | lia | apply Z.pow_pos_nonneg; lia].
Qed.

Lemma le_bytes_val bs : Forall (fun b => is_u8 b) bs -> le_bytes (length bs) (le_val bs) = bs.
Proof.
  induction 1 as [|b bs Hb Hbs IH]; [done|]. cbn [length le_bytes le_val].
  rewrite (Z.mul_comm 256), Z.mod_add, Z.div_add by lia.
  rewrite Z.mod_small, Z.div_small, Z.add_0_l by lia. by rewrite IH.
Qed.

Lemma le_val_id n x : 0 <= x < 2 ^ (8 * Z.of_nat n) -> le_val (le_bytes n x) = x.
Proof. intros. rewrite le_val_bytes. by apply Z.mod_small. Qed.

Lemma peek_length p n m : 0 <= n -> Z.of_nat (length (peek p n m)) = n.
Proof. intros. unfold peek. rewrite length_fmap, length_seqZ. lia. Qed.

Lemma peek_ext p n m m' : (forall a, p <= a < p + n -> m a = m' a) -> peek p n m = peek p n m'.
Proof.
  intros H. unfold peek. apply list_fmap_ext. intros i x Hx.
  apply lookup_seqZ in Hx as [-> Hi]. apply H. lia.
Qed.

Lemma peek_poke p bs m : peek p (Z.of_nat (length bs)) (poke p bs m) = bs.
Proof.
  apply list_eq. intros i. unfold peek. rewrite list_lookup_fmap.
  destruct (decide (i < length bs)%nat) as [Hi|Hi].
  - destruct (lookup_lt_is_Some_2 bs i Hi) as [x Hx]. rewrite lookup_seqZ_lt by lia. simpl.
    unfold poke. destruct (Z.leb_spec p (p + (0 + Z.of_nat i))); [|lia].
    destruct (Z.ltb_spec (p + (0 + Z.of_nat i)) (p + Z.of_nat (length bs))); [|lia]. simpl.
    replace (Z.to_nat (p + (0 + Z.of_nat i) - p)) with i by lia. by rewrite Hx.
  - rewrite lookup_seqZ_ge by lia. symmetry. apply lookup_ge_None. lia.
Qed.

Lemma peek_poke_disjoint p n q bs m :
  p + n <= q \/ q + Z.of_nat (length bs) <= p -> peek p n (poke q bs m) = peek p n m.
Proof.
  intros Hd. apply peek_ext. intros a Ha. unfold poke.
  destruct (Z.leb_spec q a); [|done]. destruct (Z.ltb_spec a (q + Z.of_nat (length bs))); [lia|done].
Qed.

Lemma peek_1 p m : peek p 1 m = [m p].
Proof. unfold peek. simpl. by rewrite Z.add_0_r. Qed.
Lemma poke_frame p bs m a : ~ (p <= a < p + Z.of_nat (length bs)) -> poke p bs m a = m a.
Proof.
  intros H. unfold poke. destruct (Z.leb_spec p a); [|done].
  by destruct (Z.ltb_spec a (p + Z.of_nat (length bs))); [lia|].
Qed.
Lemma poke_at p bs m i b : bs !! i = Some b -> poke p bs m (p + Z.of_nat i) = b.
Proof.
  intros H. pose proof (lookup_lt_Some _ _ _ H). unfold poke.
  destruct (Z.leb_spec p (p + Z.of_nat i)); [|lia].
  destruct (Z.ltb_spec (p + Z.of_nat i) (p + Z.of_nat (length bs))); [|lia]. simpl.
  replace (Z.to_nat (p + Z.of_nat i - p)) with i by lia. by rewrite H.
Qed.
Lemma poke_head p b bs m : poke p (b :: bs) m p = b.
Proof. pose proof (poke_at p (b :: bs) m 0 b eq_refl) as H. by rewrite Z.add_0_r in H. Qed.
Lemma peek_2 p m : peek p 2 m = [m p; m (p + 1)].
Proof. unfold peek. simpl. by rewrite Z.add_0_r. Qed.
