(* ===== verification/GpuTypes.v ===== *)
(** * Shared GPU data types

    The ABI shared by driver and simulator
    ([plugins/gpu_driver/shared/gpu_types.h] and [mqd.h]): GPFIFO entries,
    opcodes, priorities, context types, and the packed byte layout of an
    entry, which is what the DMA paths copy. *)
From S2P Require Import Prelude Bytes.

(** ** Opcodes and constants *)
Definition GPU_OP_LAUNCH_KERNEL : Z := 256.
Definition GPU_OP_LAUNCH_CPU_TASK : Z := 257.
Definition GPU_OP_MEMCPY : Z := 258.
Definition GPU_OP_MEMSET : Z := 259.
Definition GPU_OP_FENCE : Z := 260.
Definition GPU_OP_SEM_WAIT : Z := 261.
Definition GPU_OP_SEM_RELEASE : Z := 262.
Definition GPU_OP_BARRIER_AND : Z := 263.
Definition GPU_OP_BARRIER_OR : Z := 264.
Definition GPU_OP_IB_JUMP : Z := 265.
Definition GPU_OP_SET_PREDICATE : Z := 266.
Definition GPU_OP_PDL_LAUNCH : Z := 267.

Definition FORMAT_USR_NATIVE : Z := 0.
Definition FORMAT_AQL : Z := 1.
Definition FORMAT_PM4 : Z := 2.

Definition GPU_CHAN_PRI_IDLE : Z := 0.
Definition GPU_CHAN_PRI_LOW : Z := 1.
Definition GPU_CHAN_PRI_NORMAL : Z := 2.
Definition GPU_CHAN_PRI_HIGH : Z := 3.
Definition GPU_CHAN_PRI_REALTIME : Z := 4.

Definition MAX_IB_NEST : Z := 4.
Definition MAX_PDL_NEST : Z := 4.

(** [enum class ContextType] *)
Inductive ContextType := BROWN | GREEN.
#[export] Instance ContextType_eq_dec : EqDecision ContextType.
Proof. solve_decision. Defined.

(** ** GPFIFO entries ([struct gpu_gpfifo_entry]) *)
Record gpu_gpfifo_entry := mk_entry {
  valid : Z;
  priv : Z;
  method : Z;
  subchannel : Z;
  e_reserved : Z;
  format : Z;
  payload : list Z;
  semaphore_va : Z;
  semaphore_value : Z;
  ts_query : Z;
  release : Z;
  e_pad : Z;
  tl_sem_handle : Z;
  tl_signal_value : Z;
  tl_wait_value : Z
}.
#[export] Instance eta_entry : Eta gpu_gpfifo_entry := fun e =>
  mk_entry (valid e) (priv e) (method e) (subchannel e) (e_reserved e)
    (format e) (payload e) (semaphore_va e) (semaphore_value e) (ts_query e)
    (release e) (e_pad e) (tl_sem_handle e) (tl_signal_value e)
    (tl_wait_value e).
#[export] Instance entry_eq_dec : EqDecision gpu_gpfifo_entry.
Proof. solve_decision. Defined.

(** [gpu_gpfifo_entry e{}]: every byte zero. *)
Definition zero_entry : gpu_gpfifo_entry :=
  mk_entry 0 0 0 0 0 0 [0; 0; 0; 0; 0; 0; 0] 0 0 0 0 0 0 0 0.

(** [e.payload[i]] (the code only reads constant indices below 7). *)
Definition payload_at (e : gpu_gpfifo_entry) (i : nat) : Z :=
  default 0 (payload e !! i).

(** Every field fits its declared width. *)
Record entry_ok (e : gpu_gpfifo_entry) : Prop := {
  eo_valid : 0 <= valid e < 2;
  eo_priv : 0 <= priv e < 2;
  eo_method : 0 <= method e < 2 ^ 12;
  eo_subchannel : 0 <= subchannel e < 2 ^ 3;
  eo_reserved : 0 <= e_reserved e < 2 ^ 15;
  eo_format : is_u8 (format e);
  eo_payload_len : length (payload e) = 7%nat;
  eo_payload : Forall (fun x => is_u64 x) (payload e);
  eo_va : is_u64 (semaphore_va e);
  eo_value : is_u32 (semaphore_value e);
  eo_ts : is_u64 (ts_query e);
  eo_release : 0 <= release e < 2;
  eo_pad : 0 <= e_pad e < 2 ^ 31;
  eo_tl_handle : is_u64 (tl_sem_handle e);
  eo_tl_signal : is_u64 (tl_signal_value e);
  eo_tl_wait : is_u64 (tl_wait_value e)
}.

(** [sizeof(gpu_gpfifo_entry)] of the packed struct. *)
Definition sizeof_entry : Z := 109.

(** The bit-fields of the first word, lowest first, and of the word that
    holds [release]. *)
Definition entry_head (e : gpu_gpfifo_entry) : Z :=
  valid e + 2 * (priv e + 2 * (method e + 2 ^ 12 *
    (subchannel e + 2 ^ 3 * e_reserved e))).
Definition entry_tail (e : gpu_gpfifo_entry) : Z := release e + 2 * e_pad e.

(** The object representation of a packed entry, in field order. *)
Definition entry_bytes (e : gpu_gpfifo_entry) : list Z :=
  le_bytes 4 (entry_head e) ++ le_bytes 1 (format e) ++
  mjoin (le_bytes 8 <$> payload e) ++ le_bytes 8 (semaphore_va e) ++
  le_bytes 4 (semaphore_value e) ++ le_bytes 8 (ts_query e) ++
  le_bytes 4 (entry_tail e) ++ le_bytes 8 (tl_sem_handle e) ++
  le_bytes 8 (tl_signal_value e) ++ le_bytes 8 (tl_wait_value e).

(** [n] bytes of [bs] at offset [o], read as an integer. *)
Definition field_at (bs : list Z) (o n : nat) : Z := le_val (take n (drop o bs)).

(** The entry a byte image denotes ([memcpy] into a [gpu_gpfifo_entry]). *)
Definition entry_of_bytes (bs : list Z) : gpu_gpfifo_entry :=
  let h := field_at bs 0 4 in
  let r := field_at bs 81 4 in
  {| valid := h mod 2;
     priv := h / 2 mod 2;
     method := h / 4 mod 2 ^ 12;
     subchannel := h / 2 ^ 14 mod 2 ^ 3;
     e_reserved := h / 2 ^ 17 mod 2 ^ 15;
     format := field_at bs 4 1;
     payload := (fun i => field_at bs (5 + 8 * i) 8) <$> seq 0 7;
     semaphore_va := field_at bs 61 8;
     semaphore_value := field_at bs 69 4;
     ts_query := field_at bs 73 8;
     release := r mod 2;
     e_pad := r / 2 mod 2 ^ 31;
     tl_sem_handle := field_at bs 85 8;
     tl_signal_value := field_at bs 93 8;
     tl_wait_value := field_at bs 101 8 |}.

(** ** Lemmas on byte images *)
(** Reading past a prefix of known length. *)
Lemma field_at_skip pre bs o n :
  field_at (pre ++ bs) (length pre + o) n = field_at bs o n.
Proof. unfold field_at. rewrite <- drop_drop, drop_app_length. done. Qed.
Lemma field_at_here n x rest :
  0 <= x < 2 ^ (8 * Z.of_nat n) -> field_at (le_bytes n x ++ rest) 0 n = x.
Proof.
  intros Hx. unfold field_at. rewrite drop_0.
  rewrite take_app_le by (rewrite length_le_bytes; lia).
  rewrite take_ge by (rewrite length_le_bytes; lia). by apply le_val_id.
Qed.

(** A read at or past the end of the first chunk reads the rest. *)
Lemma field_at_peel m x rest o n :
  (m <= o)%nat -> field_at (le_bytes m x ++ rest) o n = field_at rest (o - m) n.
Proof.
  intros Hm. pose proof (field_at_skip (le_bytes m x) rest (o - m) n) as H.
  rewrite length_le_bytes in H. by replace (m + (o - m))%nat with o in H by lia.
Qed.
Lemma field_at_last n x :
  0 <= x < 2 ^ (8 * Z.of_nat n) -> field_at (le_bytes n x) 0 n = x.
Proof. intros. rewrite <- (app_nil_r (le_bytes n x)). by apply field_at_here. Qed.

#[local] Opaque le_bytes field_at.

Ltac read_field :=
  repeat (rewrite field_at_peel by lia; simpl Nat.sub);
  first [rewrite field_at_here by (simpl; lia) | rewrite field_at_last by (simpl; lia)].

Lemma length_entry_bytes e :
  length (payload e) = 7%nat -> length (entry_bytes e) = Z.to_nat sizeof_entry.
Proof.
  destruct e as [????? ? pl ????????]; simpl. intros Hl.
  do 8 (destruct pl as [|? pl]; simpl in Hl; try lia).
  unfold entry_bytes. cbn [payload fmap list_fmap mjoin list_join].
  repeat first [rewrite length_app | rewrite length_le_bytes]. reflexivity.
Qed.

Lemma entry_head_fields e :
  entry_ok e ->
  is_u32 (entry_head e) /\ entry_head e mod 2 = valid e /\
  entry_head e / 2 mod 2 = priv e /\ entry_head e / 4 mod 2 ^ 12 = method e /\
  entry_head e / 2 ^ 14 mod 2 ^ 3 = subchannel e /\
  entry_head e / 2 ^ 17 mod 2 ^ 15 = e_reserved e.
Proof. intros []. unfold entry_head. repeat split; Z.div_mod_to_equations; lia. Qed.

Lemma entry_tail_fields e :
  entry_ok e ->
  is_u32 (entry_tail e) /\ entry_tail e mod 2 = release e /\
  entry_tail e / 2 mod 2 ^ 31 = e_pad e.
Proof. intros []. unfold entry_tail. repeat split; Z.div_mod_to_equations; lia. Qed.

Lemma entry_decode_encode e :
  entry_ok e -> entry_of_bytes (entry_bytes e) = e.
Proof.
  intros Hok.
  destruct (entry_head_fields e Hok) as (Hh & Hv & Hp & Hm & Hs & Hr).
  destruct (entry_tail_fields e Hok) as (Ht & Hrel & Hpad).
  destruct Hok as [_ _ _ _ _ Hf Hl Hpl Hva Hval Hts _ _ Htl1 Htl2 Htl3].
  unfold entry_bytes. destruct e as [v p m s r f pl va val ts rel pad t1 t2 t3].
  simpl payload in *; simpl in Hf, Hva, Hval, Hts, Htl1, Htl2, Htl3.
  do 8 (destruct pl as [|? pl]; simpl in Hl; try lia); clear Hl.
  rewrite !Forall_cons_iff in Hpl. destruct_and! Hpl.
  cbn [payload fmap list_fmap mjoin list_join]. repeat rewrite <- app_assoc.
  set (hd := entry_head _) in *; set (tl := entry_tail _) in *.
  unfold entry_of_bytes. simpl seq. cbn [fmap list_fmap Nat.mul Nat.add].
  simpl in *. repeat f_equal; try done; read_field; done.
Qed.
(** ** Arrays of entries ([memcpy] of [n] packed entries) *)
Definition entry_size : nat := 109.
Definition encode_entries (es : list gpu_gpfifo_entry) : list Z := mjoin (entry_bytes <$> es).
Fixpoint decode_entries (n : nat) (bs : list Z) : list gpu_gpfifo_entry :=
  match n with
  | O => []
  | S n' => entry_of_bytes (take entry_size bs) :: decode_entries n' (drop entry_size bs)
  end.

Lemma length_encode_entries es :
  Forall entry_ok es -> length (encode_entries es) = (entry_size * length es)%nat.
Proof.
  induction 1 as [|e es He _ IH]; [done|].
  change (encode_entries (e :: es)) with (entry_bytes e ++ encode_entries es).
  rewrite length_app, IH, length_entry_bytes by apply He.
  unfold entry_size, sizeof_entry. simpl length. lia.
Qed.

Lemma decode_encode_entries es rest :
  Forall entry_ok es -> decode_entries (length es) (encode_entries es ++ rest) = es.
Proof.
  induction 1 as [|e es He _ IH]; [done|].
  change (encode_entries (e :: es)) with (entry_bytes e ++ encode_entries es).
  assert (Hl : length (entry_bytes e) = entry_size)
    by (rewrite length_entry_bytes by apply He; reflexivity).
  rewrite <- app_assoc. cbn [length decode_entries].
  rewrite <- Hl, take_app_length, drop_app_length, IH. f_equal.
  by apply entry_decode_encode.
Qed.

(** Copying an array of GPFIFO entries to memory and back is the identity:
    for entries whose fields fit their bit widths the packed image takes 109
    bytes an entry and decoding it, whatever follows in memory, gives the
    entries. This is what every DMA fetch of the puller and every ring-buffer
    read relies on. *)
Theorem entry_bytes_roundtrip es rest :
  Forall entry_ok es ->
  length (encode_entries es) = (109 * length es)%nat /\
  decode_entries (length es) (encode_entries es ++ rest) = es.
Proof. intros H. split; [by apply length_encode_entries | by apply decode_encode_entries]. Qed.
#[global] Transparent le_bytes field_at.

Ltac solve_entry_ok :=
  constructor; simpl; repeat first [done | constructor | lia].

(** An entry with every bit-field and every payload word set. *)
Definition sample_entry : gpu_gpfifo_entry :=
  mk_entry 1 1 GPU_OP_LAUNCH_KERNEL 5 1234 FORMAT_AQL
    [1; 2 ^ 32; 3; 2 ^ 64 - 1; 5; 6; 7] (2 ^ 40) (2 ^ 31) 9 1 77 3 4 5.

Lemma entry_bytes_roundtrip_witness :
  Forall entry_ok [sample_entry; zero_entry] /\
  decode_entries 2 (encode_entries [sample_entry; zero_entry] ++ [7; 7]) =
    [sample_entry; zero_entry].
Proof.
  assert (Hok : Forall entry_ok [sample_entry; zero_entry])
    by (repeat constructor; simpl; repeat first [done | constructor | lia]).
  split; [exact Hok|].
  exact (proj2 (entry_bytes_roundtrip [sample_entry; zero_entry] [7; 7] Hok)).
Defined.
