(* ===== verification/MqdState.v ===== *)
(** * The memory-queue-descriptor state machine

    [plugins/gpu_driver/sim/hardware/mqd_state.cpp] over the [MQD] structure
    of [plugins/gpu_driver/shared/mqd.h].  Each operation takes a nullable
    descriptor pointer, returns 0 or a negated errno and updates the
    descriptor in place. *)
From S2P Require Import Prelude.

Definition MQD_STATE_IDLE : Z := 0.
Definition MQD_STATE_ACTIVE : Z := 1.
Definition MQD_STATE_PREEMPTED : Z := 2.

(** [struct MQD] without its padding bytes. *)
Record MQD := mk_MQD {
  ring_base_va : Z;
  mqd_ring_size : Z;
  wptr : Z;
  rptr : Z;
  mqd_gpfifo_addr : Z;
  entry_count : Z;
  mqd_current_index : Z;
  mqd_priority : Z;
  timeslice_remaining : Z;
  doorbell_id : Z;
  saved_gpfifo_addr : Z;
  saved_index : Z;
  saved_entries : Z;
  ts_queries : list Z;
  cycle_count : Z;
  mqd_state : Z;
  mqd_context_type : Z
}.
#[export] Instance eta_MQD : Eta MQD := fun m =>
  mk_MQD (ring_base_va m) (mqd_ring_size m) (wptr m) (rptr m)
    (mqd_gpfifo_addr m) (entry_count m) (mqd_current_index m) (mqd_priority m)
    (timeslice_remaining m) (doorbell_id m) (saved_gpfifo_addr m)
    (saved_index m) (saved_entries m) (ts_queries m) (cycle_count m)
    (mqd_state m) (mqd_context_type m).
#[export] Instance MQD_eq_dec : EqDecision MQD.
Proof. solve_decision. Defined.

Definition zero_MQD : MQD := mk_MQD 0 0 0 0 0 0 0 0 0 0 0 0 0 [0; 0; 0; 0] 0 0 0.

(** ** Operations *)
Definition mqd_state_activate (mqd : option MQD) : Z * option MQD :=
  match mqd with
  | None => (- EINVAL, None)
  | Some m =>
      if negb (mqd_state m =? MQD_STATE_IDLE) then (- EINVAL, Some m)
      else (0, Some (m <| mqd_state := MQD_STATE_ACTIVE |>))
  end.

Definition mqd_state_deactivate (mqd : option MQD) : Z * option MQD :=
  match mqd with
  | None => (- EINVAL, None)
  | Some m =>
      if mqd_state m =? MQD_STATE_IDLE then (- EINVAL, Some m)
      else (0, Some (m <| mqd_state := MQD_STATE_IDLE |>))
  end.

Definition mqd_state_preempt (mqd : option MQD) : Z * option MQD :=
  match mqd with
  | None => (- EINVAL, None)
  | Some m =>
      if mqd_state m =? MQD_STATE_IDLE then (- EINVAL, Some m)
      else if mqd_state m =? MQD_STATE_PREEMPTED then (0, Some m)
      else (0, Some (m <| saved_gpfifo_addr := mqd_gpfifo_addr m |>
                       <| saved_index := mqd_current_index m |>
                       <| saved_entries := entry_count m |>
                       <| mqd_state := MQD_STATE_PREEMPTED |>))
  end.

Definition mqd_state_resume (mqd : option MQD) : Z * option MQD :=
  match mqd with
  | None => (- EINVAL, None)
  | Some m =>
      if negb (mqd_state m =? MQD_STATE_PREEMPTED) then (- EINVAL, Some m)
      else (0, Some (m <| mqd_gpfifo_addr := saved_gpfifo_addr m |>
                       <| mqd_current_index := saved_index m |>
                       <| entry_count := saved_entries m |>
                       <| mqd_state := MQD_STATE_ACTIVE |>))
  end.

Inductive mqd_event := Activate | Deactivate | Preempt | Resume.

Definition mqd_apply (ev : mqd_event) : option MQD -> Z * option MQD :=
  match ev with
  | Activate => mqd_state_activate
  | Deactivate => mqd_state_deactivate
  | Preempt => mqd_state_preempt
  | Resume => mqd_state_resume
  end.

(** ** The ADR-054 transition table, as a specification *)
Inductive mqd_trans : Z -> mqd_event -> Z -> Prop :=
| tr_activate : mqd_trans MQD_STATE_IDLE Activate MQD_STATE_ACTIVE
| tr_deactivate : mqd_trans MQD_STATE_ACTIVE Deactivate MQD_STATE_IDLE
| tr_preempt : mqd_trans MQD_STATE_ACTIVE Preempt MQD_STATE_PREEMPTED
| tr_preempt_again : mqd_trans MQD_STATE_PREEMPTED Preempt MQD_STATE_PREEMPTED
| tr_resume : mqd_trans MQD_STATE_PREEMPTED Resume MQD_STATE_ACTIVE
| tr_cancel : mqd_trans MQD_STATE_PREEMPTED Deactivate MQD_STATE_IDLE.

Definition mqd_ok (m : MQD) : Prop :=
  mqd_state m = MQD_STATE_IDLE \/ mqd_state m = MQD_STATE_ACTIVE \/
  mqd_state m = MQD_STATE_PREEMPTED.

(** The scheduling context a preemption saves. *)
Definition mqd_ctx (m : MQD) : Z * Z * Z :=
  (mqd_gpfifo_addr m, mqd_current_index m, entry_count m).

(** A run of operations on a live descriptor; failed operations leave it. *)
Fixpoint mqd_run (evs : list mqd_event) (m : MQD) : MQD :=
  match evs with
  | [] => m
  | ev :: evs' => mqd_run evs' (default m (mqd_apply ev (Some m)).2)
  end.

(** ** Properties *)
#[local] Hint Constructors mqd_trans : emu.

Ltac mqd_cases Hm Hs :=
  unfold mqd_state_activate, mqd_state_deactivate, mqd_state_preempt,
    mqd_state_resume; destruct Hm as [Hs | [Hs | Hs]]; rewrite Hs; simpl.

(** The MQD state machine implements the ADR-054 transition table: on a
    live descriptor in a legal state every operation returns 0 and moves along
    a transition of the table, or, when the table has none, returns -EINVAL
    and changes nothing. *)
Theorem mqd_refines_table ev m :
  mqd_ok m ->
  (exists m', mqd_apply ev (Some m) = (0, Some m') /\
     mqd_trans (mqd_state m) ev (mqd_state m')) \/
  (mqd_apply ev (Some m) = (- EINVAL, Some m) /\
     forall s', ~ mqd_trans (mqd_state m) ev s').
Proof.
  intros Hm. destruct ev; simpl; mqd_cases Hm Hs.
  all: first [ right; split; [done | intros s' Htr; inversion Htr; done]
             | left; eexists; split; [done|]; simpl; rewrite ?Hs; constructor ].
Qed.

Lemma mqd_refines_table_witness :
  mqd_ok zero_MQD /\
  ((exists m', mqd_apply Activate (Some zero_MQD) = (0, Some m') /\
     mqd_trans (mqd_state zero_MQD) Activate (mqd_state m')) \/
   (mqd_apply Activate (Some zero_MQD) = (- EINVAL, Some zero_MQD) /\
     forall s', ~ mqd_trans (mqd_state zero_MQD) Activate s')).
Proof.
  assert (H : mqd_ok zero_MQD) by (left; reflexivity).
  split; [exact H | exact (mqd_refines_table Activate zero_MQD H)].
Defined.

Lemma mqd_apply_ok ev m m' r :
  mqd_ok m -> mqd_apply ev (Some m) = (r, Some m') -> mqd_ok m'.
Proof.
  unfold mqd_ok. intros Hm.
  destruct ev; simpl; mqd_cases Hm Hs; intros [= <- <-]; simpl; tauto.
Qed.

Lemma mqd_run_ok evs m : mqd_ok m -> mqd_ok (mqd_run evs m).
Proof.
  revert m. induction evs as [|ev evs IH]; intros m Hm; simpl; [done|].
  apply IH. destruct (mqd_apply ev (Some m)) as [r [m'|]] eqn:E; simpl; [|done].
  by eapply mqd_apply_ok.
Qed.

(** What preemption saves is only ever overwritten by another preemption from
    ACTIVE. *)
Definition saved_ctx (m : MQD) : Z * Z * Z :=
  (saved_gpfifo_addr m, saved_index m, saved_entries m).

(** The driver may rewrite the batch context of a descriptor through the BAR
    while it is preempted. *)
Definition rewrite_ctx (a i n : Z) (m : MQD) : MQD :=
  m <| mqd_gpfifo_addr := a |> <| mqd_current_index := i |> <| entry_count := n |>.

(** Preempting an active queue and resuming it later gives back the batch
    position (GPFIFO address, index, entry count) it had, whatever was written
    over the live context in between and however often the preemption request
    was repeated; the queue is active again. *)
Theorem mqd_preempt_resume m n a i k :
  mqd_state m = MQD_STATE_ACTIVE ->
  let p := rewrite_ctx a i k (mqd_run (replicate (S n) Preempt) m) in
  mqd_state p = MQD_STATE_PREEMPTED /\
  exists m', mqd_state_resume (Some p) = (0, Some m') /\
    mqd_ctx m' = mqd_ctx m /\ mqd_state m' = MQD_STATE_ACTIVE.
Proof.
  intros Hs p.
  assert (Hrun : forall j q, mqd_state q = MQD_STATE_PREEMPTED ->
                 mqd_run (replicate j Preempt) q = q).
  { induction j as [|j IH]; intros q Hq; simpl; [done|].
    unfold mqd_state_preempt. rewrite Hq. simpl. by apply IH. }
  subst p. simpl replicate. cbn [mqd_run mqd_apply].
  unfold mqd_state_preempt. rewrite Hs. simpl. rewrite Hrun by done.
  split; [done|]. unfold mqd_state_resume. simpl. eauto.
Qed.

Lemma mqd_preempt_resume_witness :
  let m := zero_MQD <| mqd_state := MQD_STATE_ACTIVE |>
                    <| mqd_gpfifo_addr := 4096 |> <| entry_count := 8 |>
                    <| mqd_current_index := 3 |> in
  mqd_state m = MQD_STATE_ACTIVE /\
  let p := rewrite_ctx 1 2 3 (mqd_run (replicate 2 Preempt) m) in
  mqd_state p = MQD_STATE_PREEMPTED /\
  exists m', mqd_state_resume (Some p) = (0, Some m') /\
    mqd_ctx m' = mqd_ctx m /\ mqd_state m' = MQD_STATE_ACTIVE.
Proof.
  intros m. assert (H : mqd_state m = MQD_STATE_ACTIVE) by reflexivity.
  split; [exact H | exact (mqd_preempt_resume m 1 1 2 3 H)].
Defined.

(** The header's table lists a PREEMPTED to ACTIVE transition on [activate];
    the code refuses it. *)
Lemma mqd_activate_preempted m :
  mqd_state m = MQD_STATE_PREEMPTED ->
  mqd_state_activate (Some m) = (- EINVAL, Some m).
Proof. intros Hs. unfold mqd_state_activate. by rewrite Hs. Qed.
