(* ===== verification/ChannelManager.v ===== *)
(** * Priority arbitration between channels

    [plugins/gpu_driver/sim/hardware/channel_manager.cpp] (class
    [ChannelManager]): up to 32 channels in three priority queues, a
    starvation counter that forces a LOW dispatch, and the pre-pass that
    preempts a GREEN channel when BROWN work is pending.  Channels are indexed
    by id in a finite map (the fixed array [channels_]); MQD pointers are
    addresses into a separate heap of descriptors shared with the puller. *)
From S2P Require Import Prelude GpuTypes MqdState.

(** ** State *)
Inductive ChannelPrio := CHAN_PRIO_HIGH | CHAN_PRIO_NORMAL | CHAN_PRIO_LOW.
#[export] Instance ChannelPrio_eq_dec : EqDecision ChannelPrio.
Proof. solve_decision. Defined.

Record ChannelState := mk_ChannelState {
  channel_id : Z;
  queue : Z;                       (* GpuQueueEmu* *)
  gpfifo_addr : Z;
  current_index : Z;
  total_entries : Z;
  batch_in_flight : bool;
  pending_fence_id : Z;
  priority : ChannelPrio;
  context_type : ContextType
}.
#[export] Instance eta_ChannelState : Eta ChannelState := fun c =>
  mk_ChannelState (channel_id c) (queue c) (gpfifo_addr c) (current_index c)
    (total_entries c) (batch_in_flight c) (pending_fence_id c) (priority c)
    (context_type c).

Definition MAX_CHANNELS : Z := 32.
Definition kStarvationThreshold : Z := 10.

Record ChannelManager := mk_ChannelManager {
  channels : gmap Z ChannelState;
  registered : gset Z;
  active_count : Z;
  q_high : list Z;
  q_normal : list Z;
  q_low : list Z;
  last_channel : Z;
  starvation_counter : Z;
  mqd_cache : gmap Z Z             (* channel -> MQD*, absent = nullptr *)
}.
#[export] Instance eta_ChannelManager : Eta ChannelManager := fun m =>
  mk_ChannelManager (channels m) (registered m) (active_count m) (q_high m)
    (q_normal m) (q_low m) (last_channel m) (starvation_counter m) (mqd_cache m).

(** A default-constructed slot, after the constructor wrote its id. *)
Definition fresh_channel (i : Z) : ChannelState :=
  mk_ChannelState i 0 0 0 0 false 0 CHAN_PRIO_NORMAL BROWN.
Definition chan (m : ChannelManager) (i : Z) : ChannelState :=
  default (fresh_channel i) (channels m !! i).
Definition set_chan (i : Z) (c : ChannelState) (m : ChannelManager) : ChannelManager :=
  m <| channels := <[i := c]> (channels m) |>.

(** [pri_queues_[p]]: a [std::queue], front first. *)
Definition pri_queue (m : ChannelManager) (p : ChannelPrio) : list Z :=
  match p with
  | CHAN_PRIO_HIGH => q_high m
  | CHAN_PRIO_NORMAL => q_normal m
  | CHAN_PRIO_LOW => q_low m
  end.
Definition set_queue (p : ChannelPrio) (q : list Z) (m : ChannelManager) : ChannelManager :=
  match p with
  | CHAN_PRIO_HIGH => m <| q_high := q |>
  | CHAN_PRIO_NORMAL => m <| q_normal := q |>
  | CHAN_PRIO_LOW => m <| q_low := q |>
  end.
Definition push_queue (p : ChannelPrio) (i : Z) (m : ChannelManager) : ChannelManager :=
  set_queue p (pri_queue m p ++ [i]) m.

Definition init_manager : ChannelManager :=
  mk_ChannelManager ∅ ∅ 0 [] [] [] (MAX_CHANNELS - 1) 0 ∅.

Definition is_registered (m : ChannelManager) (i : Z) : bool :=
  bool_decide (i ∈ registered m).

(** ** Operations *)
Definition registerChannel (id : Z) (prio : ChannelPrio) (q : Z) (ct : ContextType)
    (m : ChannelManager) : Z * ChannelManager :=
  if MAX_CHANNELS <=? id then (- ENOSPC, m)
  else if is_registered m id then (- ENOSPC, m)
  else
    let c := chan m id <| queue := q |> <| batch_in_flight := false |>
               <| current_index := 0 |> <| total_entries := 0 |>
               <| pending_fence_id := 0 |> <| priority := prio |>
               <| context_type := ct |> in
    let m := set_chan id c (m <| registered := {[id]} ∪ registered m |>) in
    let m := push_queue prio id m in
    (0, m <| active_count ::= fun n => n + 1 |>).

Definition setChannelContextType (id : Z) (ct : ContextType)
    (m : ChannelManager) : ChannelManager :=
  if MAX_CHANNELS <=? id then m
  else if is_registered m id then set_chan id (chan m id <| context_type := ct |>) m
  else m.

Definition submitBatch (id addr count fence : Z) (m : ChannelManager) : ChannelManager :=
  if (MAX_CHANNELS <=? id) || negb (is_registered m id) then m
  else
    let c := chan m id <| gpfifo_addr := addr |> <| total_entries := count |>
               <| current_index := 0 |> <| pending_fence_id := fence |> in
    if batch_in_flight c then set_chan id c m
    else push_queue (priority c) id (set_chan id (c <| batch_in_flight := true |>) m).

(** The descriptor a cached pointer denotes, and writing it back. *)
Definition mqd_heap : Type := gmap Z MQD.
Definition load_mqd (mem : mqd_heap) (ptr : option Z) : option MQD :=
  ptr ≫= fun p => mem !! p.
Definition store_mqd (mem : mqd_heap) (ptr : option Z) (v : option MQD) : mqd_heap :=
  match ptr, v with
  | Some p, Some d => <[p := d]> mem
  | _, _ => mem
  end.

Definition in_flight (m : ChannelManager) (i : Z) : bool := batch_in_flight (chan m i).

(** The candidate test of the GREEN pre-pass. *)
Definition brown_pending (m : ChannelManager) (i : Z) : bool :=
  negb (i =? last_channel m) && in_flight m i &&
  bool_decide (context_type (chan m i) = BROWN).

(** A pending BROWN channel of HIGH or NORMAL priority preempts the GREEN
    channel that was dispatched last. *)
Definition preempt_green (mem : mqd_heap) (m : ChannelManager) :
    mqd_heap * ChannelManager :=
  let l := last_channel m in
  if (l <? MAX_CHANNELS) && is_registered m l &&
     bool_decide (context_type (chan m l) = GREEN) && in_flight m l &&
     existsb (brown_pending m) (q_high m ++ q_normal m)
  then
    let ptr := mqd_cache m !! l in
    let mem := store_mqd mem ptr (mqd_state_preempt (load_mqd mem ptr)).2 in
    let m := set_chan l (chan m l <| batch_in_flight := false |>) m in
    (mem, push_queue (priority (chan m l)) l m)
  else (mem, m).

(** Pop the entries at the front whose channel has no batch in flight. *)
Fixpoint drop_idle (m : ChannelManager) (q : list Z) : list Z :=
  match q with
  | [] => []
  | i :: q' => if in_flight m i then q else drop_idle m q'
  end.

(** Starvation guard: at the threshold, pop LOW until a channel in flight is
    found; the counter restarts either way. *)
Definition force_low (m : ChannelManager) : option Z * ChannelManager :=
  if kStarvationThreshold <=? starvation_counter m then
    match drop_idle m (q_low m) with
    | i :: q' => (Some i, m <| q_low := q' |> <| starvation_counter := 0 |>
                            <| last_channel := i |>)
    | [] => (None, m <| q_low := [] |> <| starvation_counter := 0 |>)
    end
  else (None, m).

(** Scan the queues HIGH, NORMAL, LOW; the chosen id stays at the front. *)
Fixpoint scan_queues (ps : list ChannelPrio) (m : ChannelManager) :
    option Z * ChannelManager :=
  match ps with
  | [] => (None, m)
  | p :: ps' =>
      let q := drop_idle m (pri_queue m p) in
      let m := set_queue p q m in
      match q with
      | [] => scan_queues ps' m
      | i :: _ =>
          (Some i,
           m <| last_channel := i |>
             <| starvation_counter ::= fun n =>
                  if decide (p = CHAN_PRIO_LOW) then 0 else n + 1 |>)
      end
  end.

Definition prio_order : list ChannelPrio :=
  [CHAN_PRIO_HIGH; CHAN_PRIO_NORMAL; CHAN_PRIO_LOW].

Definition nextReadyChannel (mem : mqd_heap) (m : ChannelManager) :
    option Z * mqd_heap * ChannelManager :=
  if active_count m =? 0 then (None, mem, m)
  else
    let '(mem, m) := preempt_green mem m in
    match force_low m with
    | (Some i, m) => (Some i, mem, m)
    | (None, m) => let '(r, m) := scan_queues prio_order m in (r, mem, m)
    end.

Definition yieldChannel (id : Z) (m : ChannelManager) : ChannelManager :=
  if (id <? MAX_CHANNELS) && is_registered m id
  then set_chan id (chan m id <| batch_in_flight := false |>) m
  else m.

Definition activeCount (m : ChannelManager) : Z := active_count m.

Definition getMqdForChannel (id : Z) (m : ChannelManager) : option Z :=
  if (MAX_CHANNELS <=? id) || negb (is_registered m id) then None
  else mqd_cache m !! id.

Definition setMqdForChannel (id : Z) (ptr : option Z) (m : ChannelManager) :
    ChannelManager :=
  if (id <? MAX_CHANNELS) && is_registered m id
  then m <| mqd_cache := partial_alter (fun _ => ptr) id (mqd_cache m) |>
  else m.

(** ** Well-formedness *)
Record cm_ok (m : ChannelManager) : Prop := {
  cm_queue_reg : forall p i, i ∈ pri_queue m p -> i ∈ registered m;
  cm_queue_prio : forall p i, i ∈ pri_queue m p -> priority (chan m i) = p;
  cm_reg_bound : forall i, i ∈ registered m -> i < MAX_CHANNELS;
  cm_flight_reg : forall i, in_flight m i = true -> i ∈ registered m;
  cm_count : active_count m = Z.of_nat (size (registered m));
  cm_starvation : 0 <= starvation_counter m <= kStarvationThreshold
}.

Definition prio_rank (p : ChannelPrio) : Z :=
  match p with CHAN_PRIO_HIGH => 0 | CHAN_PRIO_NORMAL => 1 | CHAN_PRIO_LOW => 2 end.

(** ** Frame lemmas *)
Lemma chan_set i j c m :
  chan (set_chan i c m) j = if decide (i = j) then c else chan m j.
Proof.
  unfold chan, set_chan. simpl. rewrite lookup_insert. by case_decide.
Qed.
Lemma chan_set_queue p q m j : chan (set_queue p q m) j = chan m j.
Proof. by destruct p. Qed.
Lemma pri_queue_set_chan i c m p : pri_queue (set_chan i c m) p = pri_queue m p.
Proof. by destruct p. Qed.
Lemma pri_queue_set_queue p p' q m :
  pri_queue (set_queue p q m) p' = if decide (p = p') then q else pri_queue m p'.
Proof. by destruct p, p'. Qed.
Lemma set_queue_frame p q m :
  channels (set_queue p q m) = channels m /\ registered (set_queue p q m) = registered m /\
  active_count (set_queue p q m) = active_count m /\
  last_channel (set_queue p q m) = last_channel m /\
  starvation_counter (set_queue p q m) = starvation_counter m /\
  mqd_cache (set_queue p q m) = mqd_cache m.
Proof. by destruct p. Qed.
Lemma chan_ext m m' i : channels m = channels m' -> chan m i = chan m' i.
Proof. unfold chan. by intros ->. Qed.
Lemma in_flight_ext m m' i : channels m = channels m' -> in_flight m i = in_flight m' i.
Proof. intros H. unfold in_flight. by rewrite (chan_ext m m'). Qed.

Lemma drop_idle_ext m m' q : channels m = channels m' -> drop_idle m q = drop_idle m' q.
Proof.
  intros H. induction q as [|i q IH]; simpl; [done|].
  by rewrite (in_flight_ext m m'), IH.
Qed.
Lemma drop_idle_subset m q i : i ∈ drop_idle m q -> i ∈ q.
Proof.
  induction q as [|j q IH]; simpl; [done|].
  case_match; [done|]. intros. apply list_elem_of_further. auto.
Qed.
Lemma drop_idle_keeps m q i : i ∈ q -> in_flight m i = true -> i ∈ drop_idle m q.
Proof.
  induction q as [|j q IH]; simpl; [done|]. intros Hi Hf.
  case_match; [done|]. apply elem_of_cons in Hi as [->|Hi]; [congruence|auto].
Qed.
Lemma drop_idle_head m q i q' : drop_idle m q = i :: q' -> in_flight m i = true.
Proof. induction q; simpl; [done|]. case_match; naive_solver. Qed.
Lemma drop_idle_nil m q i : drop_idle m q = [] -> i ∈ q -> in_flight m i = false.
Proof.
  intros Hd Hi. destruct (in_flight m i) eqn:E; [|done].
  pose proof (drop_idle_keeps m q i Hi E) as H. rewrite Hd in H. by apply elem_of_nil in H.
Qed.

(** ** The scan *)
Lemma scan_queues_frame ps m r m' :
  scan_queues ps m = (r, m') ->
  channels m' = channels m /\ registered m' = registered m /\
  active_count m' = active_count m /\ mqd_cache m' = mqd_cache m /\
  (forall p i, i ∈ pri_queue m' p -> i ∈ pri_queue m p) /\
  (forall p i, i ∈ pri_queue m p -> in_flight m i = true -> i ∈ pri_queue m' p).
Proof.
  revert m. induction ps as [|p ps IH]; intros m; simpl.
  { intros [= <- <-]. eauto 10. }
  pose proof (set_queue_frame p (drop_idle m (pri_queue m p)) m) as (H1&H2&H3&_&_&H6).
  assert (Hq : forall p' i, i ∈ pri_queue (set_queue p (drop_idle m (pri_queue m p)) m) p' ->
                i ∈ pri_queue m p').
  { intros p' i. rewrite pri_queue_set_queue. case_decide; [|done].
    subst. apply drop_idle_subset. }
  assert (Hk : forall p' i, i ∈ pri_queue m p' -> in_flight m i = true ->
                i ∈ pri_queue (set_queue p (drop_idle m (pri_queue m p)) m) p').
  { intros p' i Hi Hf. rewrite pri_queue_set_queue. case_decide; [|done].
    subst. by apply drop_idle_keeps. }
  destruct (drop_idle m (pri_queue m p)) as [|i q'] eqn:E.
  - intros Hs. destruct (IH _ Hs) as (G1&G2&G3&G4&G5&G6).
    rewrite G1, G2, G3, G4, H1, H2, H3, H6. split_and!; try done; eauto.
    intros p' i Hi Hf. apply G6; [by apply Hk|].
    by rewrite (in_flight_ext _ m).
  - intros [= <- <-]. simpl. split_and!; try done.
Qed.

(** What the scan picks: the first queue, in order, with a channel in flight. *)
Lemma scan_queues_pick ps m r m' :
  scan_queues ps m = (r, m') ->
  match r with
  | Some i =>
      exists pre p post, ps = pre ++ p :: post /\
        i ∈ pri_queue m p /\ head (pri_queue m' p) = Some i /\
        in_flight m i = true /\ last_channel m' = i /\
        starvation_counter m' =
          (if decide (p = CHAN_PRIO_LOW) then 0 else starvation_counter m + 1) /\
        forall p' j, p' ∈ pre -> j ∈ pri_queue m p' -> in_flight m j = false
  | None =>
      last_channel m' = last_channel m /\ starvation_counter m' = starvation_counter m /\
      forall p' j, p' ∈ ps -> j ∈ pri_queue m p' -> in_flight m j = false
  end.
Proof.
  revert m. induction ps as [|p ps IH]; intros m; simpl.
  { intros [= <- <-]. split_and!; try done. intros ??[]%elem_of_nil. }
  pose proof (set_queue_frame p (drop_idle m (pri_queue m p)) m) as (H1&H2&H3&H4&H5&H6).
  destruct (drop_idle m (pri_queue m p)) as [|i q'] eqn:E.
  - intros Hs. specialize (IH _ Hs). simpl in IH.
    assert (Hsub : forall p' j, j ∈ pri_queue m p' ->
        in_flight (set_queue p [] m) j = false -> in_flight m j = false).
    { intros p' j _. by rewrite (in_flight_ext _ m). }
    assert (Hp : forall p' j, j ∈ pri_queue m p' -> p = p' -> in_flight m j = false).
    { intros p' j Hj <-. by eapply drop_idle_nil. }
    destruct r as [i|].
    + destruct IH as (pre & p0 & post & -> & Hi & Hh & Hf & Hl & Hst & Hno).
      exists (p :: pre), p0, post. rewrite pri_queue_set_queue in Hi.
      rewrite (in_flight_ext _ m) in Hf by done.
      destruct (decide (p = p0)) as [->|Hne0]; [by apply elem_of_nil in Hi|].
      rewrite H5 in Hst.
      split_and!; try done.
      intros p' j Hp' Hj. destruct (decide (p = p')) as [->|Hne]; [by eapply Hp|].
      apply elem_of_cons in Hp' as [->|Hp']; [done|].
      apply (Hsub p' j Hj). apply (Hno p'); [done|].
      rewrite pri_queue_set_queue. by rewrite decide_False.
    + destruct IH as (Hl & Hst & Hno). rewrite H4 in Hl. rewrite H5 in Hst.
      split_and!; try done.
      intros p' j Hp' Hj. destruct (decide (p = p')) as [->|Hne]; [by eapply Hp|].
      apply elem_of_cons in Hp' as [->|Hp']; [done|].
      apply (Hsub p' j Hj). apply (Hno p'); [done|].
      rewrite pri_queue_set_queue. by rewrite decide_False.
  - intros [= <- <-]. exists [], p, ps. simpl. rewrite H5.
    split_and!; try done.
    + apply (drop_idle_subset m). rewrite E. apply list_elem_of_here.
    + destruct p; done.
    + by eapply drop_idle_head.
    + intros ??[]%elem_of_nil.
Qed.

(** ** Preservation of well-formedness *)
Lemma cm_ok_init : cm_ok init_manager.
Proof.
  constructor.
  - intros [] i []%elem_of_nil.
  - intros [] i []%elem_of_nil.
  - intros i. simpl. set_solver.
  - intros i. unfold in_flight, chan. simpl. by rewrite lookup_empty.
  - done.
  - simpl. unfold kStarvationThreshold. lia.
Qed.

Lemma set_chan_ok i c m :
  cm_ok m -> priority c = priority (chan m i) ->
  (batch_in_flight c = true -> i ∈ registered m) -> cm_ok (set_chan i c m).
Proof.
  intros [] Hp Hf. constructor; try done.
  - intros p j. rewrite pri_queue_set_chan, chan_set. intros Hj.
    case_decide; subst; [rewrite Hp|]; by apply cm_queue_prio0.
  - intros j. unfold in_flight. rewrite chan_set. case_decide; subst; [done|].
    intros. by apply cm_flight_reg0.
Qed.

Lemma set_queue_ok p q m :
  cm_ok m -> (forall i, i ∈ q -> i ∈ registered m /\ priority (chan m i) = p) ->
  cm_ok (set_queue p q m).
Proof.
  intros [] Hq. destruct (set_queue_frame p q m) as (H1&H2&H3&H4&H5&H6).
  constructor.
  - intros p' i. rewrite pri_queue_set_queue, H2.
    destruct (decide (p = p')) as [<-|]; [intros; by apply Hq|]. apply cm_queue_reg0.
  - intros p' i. rewrite pri_queue_set_queue, chan_set_queue.
    destruct (decide (p = p')) as [<-|]; [intros; by apply Hq|]. apply cm_queue_prio0.
  - by rewrite H2.
  - intros i. rewrite H2, (in_flight_ext _ m) by done. eauto.
  - by rewrite H2, H3.
  - by rewrite H5.
Qed.

Lemma push_queue_ok p i m :
  cm_ok m -> i ∈ registered m -> priority (chan m i) = p -> cm_ok (push_queue p i m).
Proof.
  intros Hok Hr Hp. apply set_queue_ok; [done|]. intros j.
  rewrite elem_of_app, list_elem_of_singleton. intros [Hj| ->]; [|done].
  split; [by eapply cm_queue_reg | by eapply cm_queue_prio].
Qed.
#[local] Hint Resolve set_chan_ok push_queue_ok : emu.

Lemma is_registered_iff m i : is_registered m i = true <-> i ∈ registered m.
Proof. unfold is_registered. apply bool_decide_eq_true. Qed.

(** A slot entering the registered set: no queue mentions it yet. *)
Lemma add_channel_ok id c m :
  cm_ok m -> id < MAX_CHANNELS -> id ∉ registered m -> batch_in_flight c = false ->
  cm_ok (set_chan id c (m <| registered := {[id]} ∪ registered m |>
                          <| active_count ::= fun n => n + 1 |>)).
Proof.
  intros Hok Hb Hn Hc.
  constructor; simpl.
  - intros p i Hi. apply elem_of_union_r. by eapply cm_queue_reg, Hi.
  - intros p i Hi. rewrite chan_set. change (i ∈ pri_queue m p) in Hi.
    destruct (decide (id = i)) as [<-|].
    + exfalso. by apply Hn, (cm_queue_reg m Hok p).
    + by apply (cm_queue_prio m Hok p i).
  - intros i [->%elem_of_singleton|Hi]%elem_of_union; [done|by eapply cm_reg_bound].
  - intros i. unfold in_flight. rewrite chan_set. case_decide; [congruence|].
    intros Hf. apply elem_of_union_r. by eapply cm_flight_reg.
  - rewrite size_union by set_solver. rewrite size_singleton, (cm_count m Hok). lia.
  - apply (cm_starvation m Hok).
Qed.

Lemma registerChannel_ok id prio q ct m :
  cm_ok m -> cm_ok (registerChannel id prio q ct m).2.
Proof.
  intros Hok. unfold registerChannel.
  destruct (Z.leb_spec MAX_CHANNELS id); [done|].
  destruct (is_registered m id) eqn:Hr; [done|].
  cbv zeta. set (c := _ <| context_type := ct |>). simpl.
  assert (Hn : id ∉ registered m) by (rewrite <- is_registered_iff; congruence).
  pose proof (add_channel_ok id c m Hok ltac:(lia) Hn eq_refl) as H1.
  assert (H2 : cm_ok (push_queue prio id (set_chan id c
     (m <| registered := {[id]} ∪ registered m |> <| active_count ::= fun n => n + 1 |>)))).
  { apply push_queue_ok; [done|simpl; set_solver|]. by rewrite chan_set, decide_True. }
  by destruct prio.
Qed.

Lemma setChannelContextType_ok id ct m :
  cm_ok m -> cm_ok (setChannelContextType id ct m).
Proof.
  intros Hok. unfold setChannelContextType. repeat case_match; try done.
  apply set_chan_ok; simpl; try done. intros. by apply is_registered_iff.
Qed.

Lemma submitBatch_ok id addr count fence m :
  cm_ok m -> cm_ok (submitBatch id addr count fence m).
Proof.
  intros Hok. unfold submitBatch. case_match eqn:Hg; [done|].
  apply orb_false_elim in Hg as [_ Hr]. apply negb_false_iff, is_registered_iff in Hr.
  case_match; [by apply set_chan_ok|].
  apply push_queue_ok; [by apply set_chan_ok|done|].
  rewrite chan_set, decide_True by done. done.
Qed.

Lemma yieldChannel_ok id m : cm_ok m -> cm_ok (yieldChannel id m).
Proof.
  intros Hok. unfold yieldChannel. case_match; [|done]. by apply set_chan_ok.
Qed.

Lemma setMqdForChannel_ok id ptr m : cm_ok m -> cm_ok (setMqdForChannel id ptr m).
Proof.
  intros Hok. unfold setMqdForChannel. case_match; [|done]. by destruct Hok; constructor.
Qed.

Lemma preempt_green_ok mem m : cm_ok m -> cm_ok (preempt_green mem m).2.
Proof.
  intros Hok. unfold preempt_green. case_match eqn:Hg; [|done]. simpl.
  rewrite !andb_true_iff in Hg. destruct Hg as [[[[_ Hr] _] _] _].
  apply is_registered_iff in Hr.
  apply push_queue_ok; [by apply set_chan_ok|done|done].
Qed.

Lemma force_low_ok m r m' : cm_ok m -> force_low m = (r, m') -> cm_ok m'.
Proof.
  intros Hok. unfold force_low. case_match; [|by intros [= <- <-]].
  case_match eqn:E; intros [= <- <-].
  - assert (H1 : cm_ok (set_queue CHAN_PRIO_LOW [] m)) by
      (apply set_queue_ok; [done|intros i []%elem_of_nil]).
    by destruct H1; constructor.
  - assert (H1 : cm_ok (set_queue CHAN_PRIO_LOW l m)).
    { apply set_queue_ok; [done|]. intros i Hi.
      assert (Hq : i ∈ pri_queue m CHAN_PRIO_LOW).
      { simpl. apply (drop_idle_subset m). rewrite E. by apply list_elem_of_further. }
      split; [by eapply cm_queue_reg | by eapply cm_queue_prio]. }
    by destruct H1; constructor.
Qed.

Lemma force_low_none m m' :
  force_low m = (None, m') ->
  channels m' = channels m /\ registered m' = registered m /\
  starvation_counter m' < kStarvationThreshold /\
  (starvation_counter m < kStarvationThreshold -> m' = m) /\
  (forall p i, i ∈ pri_queue m' p -> i ∈ pri_queue m p) /\
  (forall p i, i ∈ pri_queue m p -> in_flight m i = true -> i ∈ pri_queue m' p).
Proof.
  unfold force_low. destruct (Z.leb_spec kStarvationThreshold (starvation_counter m)).
  - case_match eqn:E; [|done]. intros [= <-]. simpl. unfold kStarvationThreshold in *.
    split_and!; try done; try lia.
    + intros [] i; simpl; try done. by intros []%elem_of_nil.
    + intros [] i; simpl; try done. intros Hi Hf.
      exfalso. rewrite (drop_idle_nil m (q_low m) i) in Hf; done.
  - intros [= <-]. unfold kStarvationThreshold in *. split_and!; try done; lia.
Qed.

Lemma nextReadyChannel_ok mem m : cm_ok m -> cm_ok (nextReadyChannel mem m).2.
Proof.
  intros Hok. unfold nextReadyChannel. case_match; [done|].
  pose proof (preempt_green_ok mem m Hok) as H1.
  destruct (preempt_green mem m) as [mem' m1]. simpl in H1.
  destruct (force_low m1) as [[i|] m2] eqn:Ef.
  { by eapply force_low_ok. }
  pose proof (force_low_ok _ _ _ H1 Ef) as H2.
  destruct (force_low_none _ _ Ef) as (_ & _ & Hst & _).
  destruct (scan_queues prio_order m2) as [r m3] eqn:Es. cbn [snd].
  destruct (scan_queues_frame _ _ _ _ Es) as (G1&G2&G3&G4&G5&G6).
  pose proof (scan_queues_pick _ _ _ _ Es) as Hpick.
  destruct H2. constructor; rewrite ?G2, ?G3; try done.
  - intros p i Hi. by apply (cm_queue_reg0 p), G5.
  - intros p i Hi. rewrite (chan_ext _ m2) by done. by apply cm_queue_prio0, G5.
  - intros i. rewrite (in_flight_ext _ m2) by done. apply cm_flight_reg0.
  - unfold kStarvationThreshold in *. destruct r as [i|].
    + destruct Hpick as (?&?&?&_&_&_&_&_&Hs&_). rewrite Hs. case_decide; lia.
    + destruct Hpick as (_&Hs&_). rewrite Hs. lia.
Qed.

Lemma cm_ok_reachable_next mem m r mem' m' :
  cm_ok m -> nextReadyChannel mem m = (r, mem', m') -> cm_ok m'.
Proof. intros Hok Hn. pose proof (nextReadyChannel_ok mem m Hok) as H. by rewrite Hn in H. Qed.

(** ** What the GREEN pre-pass touches *)
Definition green_preempted (m : ChannelManager) : bool :=
  (last_channel m <? MAX_CHANNELS) && is_registered m (last_channel m) &&
  bool_decide (context_type (chan m (last_channel m)) = GREEN) &&
  in_flight m (last_channel m) &&
  existsb (brown_pending m) (q_high m ++ q_normal m).

Lemma preempt_green_frame mem m mem' m1 :
  preempt_green mem m = (mem', m1) ->
  registered m1 = registered m /\ active_count m1 = active_count m /\
  starvation_counter m1 = starvation_counter m /\ last_channel m1 = last_channel m /\
  (forall j, priority (chan m1 j) = priority (chan m j)) /\
  (forall j, in_flight m1 j =
     if green_preempted m && (j =? last_channel m) then false else in_flight m j) /\
  (forall p j, j ∈ pri_queue m p -> j ∈ pri_queue m1 p) /\
  (forall p j, j ∈ pri_queue m1 p -> j ∈ pri_queue m p \/ in_flight m1 j = false).
Proof.
  unfold preempt_green. fold (green_preempted m).
  set (g := green_preempted m). clearbody g. destruct g; [|intros [= <- <-]; eauto 12].
  set (l := last_channel m). set (c := field_upd _ _).
  intros [= _ <-].
  set (m0 := set_chan l c m).
  destruct (set_queue_frame (priority (chan m0 l))
    (pri_queue m0 (priority (chan m0 l)) ++ [l]) m0) as (H1&H2&H3&H4&H5&H6).
  assert (Hc : forall j, chan (push_queue (priority (chan m0 l)) l m0) j =
     if decide (l = j) then c else chan m j).
  { intros j. unfold push_queue. rewrite chan_set_queue. unfold m0. by rewrite chan_set. }
  assert (Hf : forall j, in_flight (push_queue (priority (chan m0 l)) l m0) j =
     if true && (j =? l) then false else in_flight m j).
  { intros j. unfold in_flight. rewrite Hc. simpl.
    destruct (Z.eqb_spec j l); case_decide; simplify_eq; done. }
  unfold push_queue in *. rewrite H2, H3, H4, H5. split_and!; try done.
  - intros j. rewrite Hc. case_decide; subst; done.
  - intros p j Hj. rewrite pri_queue_set_queue. unfold m0.
    rewrite !pri_queue_set_chan. case_decide; subst; [apply elem_of_app; by left|done].
  - intros p j. rewrite pri_queue_set_queue. unfold m0.
    rewrite !pri_queue_set_chan. case_decide; subst; [|by left].
    rewrite elem_of_app, list_elem_of_singleton. intros [Hj| ->]; [by left|right].
    rewrite Hf. by rewrite Z.eqb_refl.
Qed.

(** ** Priority order *)
Lemma prio_order_before pre p post q :
  prio_order = pre ++ p :: post -> q ∉ pre -> prio_rank p <= prio_rank q.
Proof.
  unfold prio_order. intros H Hq.
  destruct pre as [|a [|b [|c [|]]]]; simplify_list_eq; destruct q; simpl; try lia;
    by destruct Hq; repeat constructor.
Qed.

(** C30. The arbiter respects priority: whenever the starvation guard is not
    due, the channel it returns has a batch in flight, is at the front of its
    own queue, and no queued channel with work pending has a higher priority;
    when it returns none, no queued channel has work. It never skips work. *)
Theorem next_ready_priority mem m r mem' m' :
  cm_ok m -> starvation_counter m < kStarvationThreshold ->
  nextReadyChannel mem m = (r, mem', m') ->
  match r with
  | Some i =>
      in_flight m' i = true /\ last_channel m' = i /\ i ∈ registered m' /\
      head (pri_queue m' (priority (chan m' i))) = Some i /\
      forall p j, j ∈ pri_queue m p -> in_flight m' j = true ->
        prio_rank (priority (chan m' i)) <= prio_rank p
  | None => forall p j, j ∈ pri_queue m p -> in_flight m' j = false
  end.
Proof.
  intros Hok Hst Hn.
  pose proof (cm_ok_reachable_next _ _ _ _ _ Hok Hn) as Hok'.
  revert Hn. unfold nextReadyChannel. case_match eqn:Ha.
  { intros [= <- <- <-] p j Hj. apply (cm_queue_reg m Hok) in Hj.
    rewrite (cm_count m Hok) in Ha. apply Z.eqb_eq in Ha.
    assert (registered m ≡ ∅) by (apply size_empty_iff; lia). set_solver. }
  destruct (preempt_green mem m) as [mem1 m1] eqn:Eg.
  destruct (preempt_green_frame _ _ _ _ Eg) as (_&_&G3&_&_&_&G7&_).
  destruct (force_low m1) as [[i|] m2] eqn:Ef.
  { exfalso. revert Ef. unfold force_low. rewrite G3.
    destruct (Z.leb_spec kStarvationThreshold (starvation_counter m)); [lia|done]. }
  destruct (force_low_none _ _ Ef) as (_&_&_&H2&_). rewrite G3 in H2.
  rewrite (H2 Hst). clear H2 Ef m2.
  destruct (scan_queues prio_order m1) as [r1 m3] eqn:Es.
  intros [= <- <- <-].
  destruct (scan_queues_frame _ _ _ _ Es) as (F1&_&_&_&F5&_).
  pose proof (scan_queues_pick _ _ _ _ Es) as Hp.
  assert (Hfl : forall j, in_flight m3 j = in_flight m1 j)
    by (intros j; by apply in_flight_ext).
  destruct r1 as [i|].
  - destruct Hp as (pre&p&post&Hpre&Hi&Hh&Hf&Hl&_&Hno).
    assert (Hq : i ∈ pri_queue m3 p) by (destruct (pri_queue m3 p); simplify_eq/=; constructor).
    rewrite (cm_queue_prio m3 Hok' p i Hq).
    split_and!; [by rewrite Hfl|done|by eapply cm_queue_reg|done|].
    intros q j Hj Hfj. rewrite Hfl in Hfj. eapply prio_order_before; [done|].
    intros Hqp. rewrite (Hno q j Hqp (G7 _ _ Hj)) in Hfj. done.
  - destruct Hp as (_&_&Hno). intros p j Hj. rewrite Hfl.
    apply (Hno p); [|by apply G7]. destruct p; repeat constructor.
Qed.

(** ** Runs *)
Inductive cm_op :=
| Register (id : Z) (prio : ChannelPrio) (q : Z) (ct : ContextType)
| SetContext (id : Z) (ct : ContextType)
| Submit (id addr count fence : Z)
| Yield (id : Z)
| SetMqd (id : Z) (ptr : option Z).

Definition apply_op (op : cm_op) (m : ChannelManager) : ChannelManager :=
  match op with
  | Register id prio q ct => (registerChannel id prio q ct m).2
  | SetContext id ct => setChannelContextType id ct m
  | Submit id addr count fence => submitBatch id addr count fence m
  | Yield id => yieldChannel id m
  | SetMqd id ptr => setMqdForChannel id ptr m
  end.

Lemma apply_op_ok op m : cm_ok m -> cm_ok (apply_op op m).
Proof.
  destruct op; simpl; auto using registerChannel_ok, setChannelContextType_ok,
    submitBatch_ok, yieldChannel_ok, setMqdForChannel_ok.
Qed.

Lemma push_queue_counter p i m :
  starvation_counter (push_queue p i m) = starvation_counter m.
Proof. by destruct p. Qed.

Lemma apply_op_counter op m : starvation_counter (apply_op op m) = starvation_counter m.
Proof.
  destruct op; simpl; unfold registerChannel, setChannelContextType, submitBatch,
    yieldChannel, setMqdForChannel; repeat case_match; simpl;
    rewrite ?push_queue_counter; done.
Qed.

(** Successful dispatches, by priority of the channel dispatched, with other
    operations in between, where a LOW channel has work at every dispatch. *)
Inductive dispatches : ChannelManager -> list ChannelPrio -> ChannelManager -> Prop :=
| d_nil m : dispatches m [] m
| d_op op m ps m' : dispatches (apply_op op m) ps m' -> dispatches m ps m'
| d_next mem m i j mem1 m1 ps m' :
    j ∈ q_low m -> nextReadyChannel mem m = (Some i, mem1, m1) ->
    in_flight m1 j = true ->
    dispatches m1 ps m' -> dispatches m (priority (chan m1 i) :: ps) m'.

Lemma next_low_or_count mem m i j mem1 m1 :
  cm_ok m -> j ∈ q_low m -> nextReadyChannel mem m = (Some i, mem1, m1) ->
  in_flight m1 j = true ->
  priority (chan m1 i) = CHAN_PRIO_LOW \/
  (starvation_counter m < kStarvationThreshold /\
   starvation_counter m1 = starvation_counter m + 1).
Proof.
  intros Hok Hj Hn Hf. pose proof (cm_ok_reachable_next _ _ _ _ _ Hok Hn) as Hok'.
  revert Hn. unfold nextReadyChannel. case_match; [done|].
  destruct (preempt_green mem m) as [mem' m0] eqn:Eg.
  pose proof (preempt_green_ok mem m Hok) as Hok0. rewrite Eg in Hok0. simpl in Hok0.
  destruct (preempt_green_frame _ _ _ _ Eg) as (_&_&G3&_&_&_&G7&_).
  pose proof (G7 CHAN_PRIO_LOW _ Hj) as Hj0.
  destruct (force_low m0) as [[k|] m2] eqn:Ef.
  - intros [= <- <- <-]. left. revert Ef. unfold force_low.
    case_match; [|done]. case_match eqn:Ed; [done|]. intros [= <- <-].
    apply (cm_queue_prio m0 Hok0 CHAN_PRIO_LOW), (drop_idle_subset m0).
    change (pri_queue m0 CHAN_PRIO_LOW) with (q_low m0). rewrite Ed. constructor.
  - destruct (force_low_none _ _ Ef) as (F1&_&Fs&Fm&_&F6).
    destruct (scan_queues prio_order m2) as [r m3] eqn:Es. intros [= -> <- <-].
    destruct (scan_queues_frame _ _ _ _ Es) as (S1&_).
    pose proof (scan_queues_pick _ _ _ _ Es) as (pre&p&post&Hpre&Hi&_&_&_&Hc&_).
    destruct (Z.ltb_spec (starvation_counter m0) kStarvationThreshold) as [Hlt|Hge].
    + rewrite (Fm Hlt) in *. rewrite G3 in *. case_decide as Hp; [left|by right].
      subst p. rewrite (chan_ext _ m0) by done. by apply (cm_queue_prio m0 Hok0).
    + exfalso. revert Ef. unfold force_low.
      destruct (Z.leb_spec kStarvationThreshold (starvation_counter m0)); [|lia].
      rewrite (in_flight_ext _ m0) in Hf by (by rewrite S1, F1).
      destruct (drop_idle m0 (q_low m0)) eqn:Ed; [|done].
      by rewrite (drop_idle_nil m0 (q_low m0) j) in Hf.
Qed.

(** C31. Starvation is bounded: while some LOW channel has a queued batch,
    no run, however submissions, registrations and yields are interleaved with
    it, dispatches more than ten channels of higher priority without
    dispatching a LOW one. *)
Theorem low_priority_not_starved m ps m' :
  cm_ok m -> dispatches m ps m' -> CHAN_PRIO_LOW ∉ ps ->
  Z.of_nat (length ps) <= kStarvationThreshold - starvation_counter m.
Proof.
  intros Hok Hd. induction Hd as [m|op m ps m' Hd IH|mem m i j mem1 m1 ps m' Hj Hn Hf Hd IH].
  - pose proof (cm_starvation m Hok). simpl. lia.
  - intros Hno. specialize (IH (apply_op_ok _ _ Hok) Hno).
    by rewrite apply_op_counter in IH.
  - rewrite not_elem_of_cons. intros [Hp Hno].
    specialize (IH (cm_ok_reachable_next _ _ _ _ _ Hok Hn) Hno).
    destruct (next_low_or_count _ _ _ _ _ _ Hok Hj Hn Hf) as [?|[? Hc]]; [done|].
    rewrite Hc in IH. simpl length. lia.
Qed.

(** ** GREEN preemption *)
Inductive cm_step := Do (op : cm_op) | Next.

(** The ids returned by the [Next] steps of a run. *)
Fixpoint cm_exec (steps : list cm_step) (mem : mqd_heap) (m : ChannelManager) :
    list (option Z) :=
  match steps with
  | [] => []
  | Do op :: ss => cm_exec ss mem (apply_op op m)
  | Next :: ss =>
      let '(r, mem, m) := nextReadyChannel mem m in r :: cm_exec ss mem m
  end.

Lemma nextReady_flight mem m r mem1 m1 :
  nextReadyChannel mem m = (r, mem1, m1) ->
  (forall j, in_flight m1 j = true -> in_flight m j = true) /\
  (forall i, r = Some i -> in_flight m1 i = true).
Proof.
  unfold nextReadyChannel. case_match; [by intros [= <- <- <-]|].
  destruct (preempt_green mem m) as [mem' m0] eqn:Eg.
  destruct (preempt_green_frame _ _ _ _ Eg) as (_&_&_&_&_&G6&_).
  assert (H0 : forall j, in_flight m0 j = true -> in_flight m j = true).
  { intros j. rewrite G6. by case_match. }
  destruct (force_low m0) as [[k|] m2] eqn:Ef.
  - intros [= <- <- <-]. revert Ef. unfold force_low. case_match; [|done].
    case_match eqn:Ed; [done|]. intros [= <- <-].
    split; [exact H0|]. intros i [= <-]. by apply (drop_idle_head m0 _ _ _ Ed).
  - destruct (force_low_none _ _ Ef) as (F1&_).
    destruct (scan_queues prio_order m2) as [r' m3] eqn:Es. intros [= <- <- <-].
    destruct (scan_queues_frame _ _ _ _ Es) as (S1&_).
    assert (H3 : forall j, in_flight m3 j = in_flight m0 j)
      by (intros j; apply in_flight_ext; by rewrite S1, F1).
    split; [intros j; rewrite H3; apply H0|]. intros i ->.
    pose proof (scan_queues_pick _ _ _ _ Es) as (?&?&?&_&_&_&Hf&_).
    by rewrite (in_flight_ext _ m2).
Qed.

Definition submits_to (l : Z) (s : cm_step) : bool :=
  match s with Do (Submit id _ _ _) => id =? l | _ => false end.

Lemma chan_push p i m j : chan (push_queue p i m) j = chan m j.
Proof. apply chan_set_queue. Qed.

Lemma apply_op_flight op m l :
  submits_to l (Do op) = false -> in_flight m l = false -> in_flight (apply_op op m) l = false.
Proof.
  unfold in_flight. intros Hs Hf.
  destruct op; simpl in *; unfold registerChannel, setChannelContextType, submitBatch,
    yieldChannel, setMqdForChannel; repeat case_match; simpl; try done;
    try match goal with |- context [chan (?f <| active_count ::= _ |>) _] =>
      change (chan (f <| active_count ::= _ |>) l) with (chan f l) end;
    rewrite ?chan_push, ?chan_set; repeat case_decide; subst; simpl; try done;
    by rewrite Z.eqb_refl in Hs.
Qed.

Lemma not_in_flight_never_next l steps mem m :
  in_flight m l = false -> forallb (fun s => negb (submits_to l s)) steps = true ->
  Some l ∉ cm_exec steps mem m.
Proof.
  revert mem m. induction steps as [|[op|] ss IH]; intros mem m Hf; simpl.
  - intros _ []%elem_of_nil.
  - rewrite andb_true_iff, negb_true_iff. intros [Hs Hss].
    apply IH; [by apply apply_op_flight|done].
  - intros Hss. destruct (nextReadyChannel mem m) as [[r mem1] m1] eqn:En.
    destruct (nextReady_flight _ _ _ _ _ En) as [H1 H2].
    assert (Hf1 : in_flight m1 l = false).
    { destruct (in_flight m1 l) eqn:E; [|done]. rewrite H1 in Hf; done. }
    rewrite not_elem_of_cons. split; [|by apply IH].
    intros Hr. by rewrite (H2 l (eq_sym Hr)) in Hf1.
Qed.

(** What GREEN preemption really does: when BROWN work of HIGH or NORMAL
    priority is pending and the GREEN channel dispatched last is still in
    flight, the next arbitration preempts its queue descriptor and cancels its
    batch. The channel is then never dispatched again, by any sequence of
    operations, until a new batch is submitted to it: being pushed back on its
    queue does not bring the cancelled batch back. *)
Theorem green_preemption_cancels mem m r mem1 m1 steps :
  green_preempted m = true -> nextReadyChannel mem m = (r, mem1, m1) ->
  active_count m <> 0 ->
  let l := last_channel m in
  let ptr := mqd_cache m !! l in
  mem1 = store_mqd mem ptr (mqd_state_preempt (load_mqd mem ptr)).2 /\
  in_flight m l = true /\ in_flight m1 l = false /\ r <> Some l /\
  (forallb (fun s => negb (submits_to l s)) steps = true ->
   Some l ∉ cm_exec steps mem1 m1).
Proof.
  intros Hg Hn Ha l ptr.
  destruct (nextReady_flight _ _ _ _ _ Hn) as [H1 H2].
  assert (Hl : in_flight m l = true).
  { unfold green_preempted in Hg. rewrite !andb_true_iff in Hg. tauto. }
  assert (Hm : mem1 = store_mqd mem ptr (mqd_state_preempt (load_mqd mem ptr)).2 /\
               in_flight m1 l = false).
  { revert Hn. unfold nextReadyChannel. destruct (Z.eqb_spec (active_count m) 0); [done|].
    destruct (preempt_green mem m) as [mem' m0] eqn:Eg.
    destruct (preempt_green_frame _ _ _ _ Eg) as (_&_&_&_&_&G6&_).
    assert (H0 : in_flight m0 l = false) by (rewrite G6, Hg; by rewrite Z.eqb_refl).
    assert (Hmem : mem' = store_mqd mem ptr (mqd_state_preempt (load_mqd mem ptr)).2).
    { revert Eg. unfold preempt_green. fold (green_preempted m). rewrite Hg.
      by intros [= <- _]. }
    destruct (force_low m0) as [[k|] m2] eqn:Ef.
    - intros [= <- <- <-]. split; [done|]. revert Ef. unfold force_low.
      case_match; [|done]. case_match; [done|]. by intros [= <- <-].
    - destruct (force_low_none _ _ Ef) as (F1&_).
      destruct (scan_queues prio_order m2) as [r' m3] eqn:Es. intros [= <- <- <-].
      destruct (scan_queues_frame _ _ _ _ Es) as (S1&_).
      split; [done|]. rewrite (in_flight_ext _ m0); [done|]. by rewrite S1, F1. }
  destruct Hm as [Hm Hf1]. split_and!; try done.
  - intros Hr. by rewrite (H2 _ Hr) in Hf1.
  - by apply not_in_flight_never_next.
Qed.

(** ** Witnesses *)

(** A LOW channel 0, a HIGH channel 1 and a NORMAL GREEN channel 2; all have a
    batch, and the GREEN one was dispatched last. *)
Definition demo_manager : ChannelManager :=
  let m := (registerChannel 0 CHAN_PRIO_LOW 0 BROWN init_manager).2 in
  let m := (registerChannel 1 CHAN_PRIO_HIGH 0 BROWN m).2 in
  let m := (registerChannel 2 CHAN_PRIO_NORMAL 0 GREEN m).2 in
  let m := setMqdForChannel 2 (Some 77) (submitBatch 0 4096 4 9 m) in
  let m := submitBatch 2 4096 4 10 m in
  let m := (nextReadyChannel ∅ m).2 in
  submitBatch 1 8192 2 11 m.
Definition demo_heap : mqd_heap :=
  {[ 77 := zero_MQD <| mqd_state := MQD_STATE_ACTIVE |> ]}.

Lemma demo_manager_ok : cm_ok demo_manager.
Proof.
  unfold demo_manager. cbv zeta.
  apply submitBatch_ok, nextReadyChannel_ok, submitBatch_ok, setMqdForChannel_ok,
    submitBatch_ok.
  repeat apply registerChannel_ok. apply cm_ok_init.
Qed.

Lemma next_ready_priority_witness :
  cm_ok demo_manager /\ starvation_counter demo_manager < kStarvationThreshold /\
  exists mem' m',
    nextReadyChannel demo_heap demo_manager = (Some 1, mem', m') /\
    in_flight m' 1 = true /\ last_channel m' = 1 /\ 1 ∈ registered m' /\
    head (pri_queue m' (priority (chan m' 1))) = Some 1 /\
    forall p j, j ∈ pri_queue demo_manager p -> in_flight m' j = true ->
      prio_rank (priority (chan m' 1)) <= prio_rank p.
Proof.
  assert (Hs : starvation_counter demo_manager < kStarvationThreshold) by (vm_compute; done).
  split; [exact demo_manager_ok|split; [exact Hs|]].
  destruct (nextReadyChannel demo_heap demo_manager) as [[r mem'] m'] eqn:En.
  assert (Hr : r = Some 1).
  { change r with (r, mem', m').1.1. rewrite <- En. vm_compute. reflexivity. }
  subst r. exists mem', m'. split; [reflexivity|].
  exact (next_ready_priority _ _ _ _ _ demo_manager_ok Hs En).
Defined.

Lemma low_priority_not_starved_witness :
  let m1 := (nextReadyChannel ∅ demo_manager).2 in
  let m2 := (nextReadyChannel ∅ m1).2 in
  let ps := [priority (chan m1 1); priority (chan m2 1)] in
  ps = [CHAN_PRIO_HIGH; CHAN_PRIO_HIGH] /\ dispatches demo_manager ps m2 /\
  Z.of_nat (length ps) <= kStarvationThreshold - starvation_counter demo_manager.
Proof.
  intros m1 m2 ps.
  assert (Hps : ps = [CHAN_PRIO_HIGH; CHAN_PRIO_HIGH]) by (vm_compute; reflexivity).
  assert (Hd : dispatches demo_manager ps m2).
  { apply (d_next ∅ demo_manager 1 0 ∅ m1); [vm_compute; repeat constructor|
      vm_compute; reflexivity|vm_compute; reflexivity|].
    apply (d_next ∅ m1 1 0 ∅ m2); [vm_compute; repeat constructor|
      vm_compute; reflexivity|vm_compute; reflexivity|apply d_nil]. }
  split; [exact Hps|split; [exact Hd|]].
  apply (low_priority_not_starved _ _ _ demo_manager_ok Hd).
  rewrite Hps, !not_elem_of_cons. split_and!; [done|done|apply not_elem_of_nil].
Defined.

Lemma green_preemption_cancels_witness :
  green_preempted demo_manager = true /\ last_channel demo_manager = 2 /\
  exists mem1 m1,
    nextReadyChannel demo_heap demo_manager = (Some 1, mem1, m1) /\
    mqd_state <$> (mem1 !! 77) = Some MQD_STATE_PREEMPTED /\
    in_flight demo_manager 2 = true /\ in_flight m1 2 = false /\
    Some 2 ∉ cm_exec [Do (Yield 1); Next; Do (Submit 0 1 1 1); Next] mem1 m1.
Proof.
  assert (Hg : green_preempted demo_manager = true) by (vm_compute; reflexivity).
  assert (Hl : last_channel demo_manager = 2) by (vm_compute; reflexivity).
  assert (Ha : active_count demo_manager <> 0) by (vm_compute; done).
  split; [exact Hg|split; [exact Hl|]].
  destruct (nextReadyChannel demo_heap demo_manager) as [[r mem1] m1] eqn:En.
  assert (Hr : r = Some 1).
  { change r with (r, mem1, m1).1.1. rewrite <- En. vm_compute. reflexivity. }
  subst r. exists mem1, m1. split; [reflexivity|].
  destruct (green_preemption_cancels _ _ _ _ _
    [Do (Yield 1); Next; Do (Submit 0 1 1 1); Next] Hg En Ha) as (H1&H2&H3&_&H4).
  rewrite Hl in *. split_and!; [|exact H2|exact H3|exact (H4 eq_refl)].
  rewrite H1. vm_compute. reflexivity.
Defined.
