(* ===== verification/ChannelSema.v ===== *)
(** * Per-channel semaphore and barrier state

    [plugins/gpu_driver/sim/scheduler/channel_state.{h,cpp}] (class
    [ChannelSemaphoreState]): entries blocked on a semaphore, AND/OR barriers,
    the pending-fence table of preemption, and the backup/restore pair the
    puller uses around a context switch.  Memory callbacks are arguments: a
    reader is the value of each address, a writer's call is returned. *)
From S2P Require Import Prelude GpuTypes.

Record PredicateState := mk_Predicate { pred_enabled : bool; pred_value : Z }.
Definition init_predicate : PredicateState := mk_Predicate true 0.

Record barrier_state := mk_barrier {
  remaining_streams : Z;
  mode_and : bool;
  triggered : bool;
  waiting_entries : list gpu_gpfifo_entry
}.
#[export] Instance eta_barrier : Eta barrier_state := fun b =>
  mk_barrier (remaining_streams b) (mode_and b) (triggered b) (waiting_entries b).
Definition init_barrier : barrier_state := mk_barrier 0 true false [].

Record ChannelSemaphoreState := mk_sema {
  priority_ : Z;
  context_type_ : ContextType;
  pending_entries : list gpu_gpfifo_entry;
  released_entries : list gpu_gpfifo_entry;
  barriers : gmap Z barrier_state;
  barrier_released : list gpu_gpfifo_entry;
  pending_fences : gmap Z Z;
  frozen : bool;
  live_predicate : PredicateState;
  predicate_snapshot : PredicateState
}.
#[export] Instance eta_sema : Eta ChannelSemaphoreState := fun s =>
  mk_sema (priority_ s) (context_type_ s) (pending_entries s) (released_entries s)
    (barriers s) (barrier_released s) (pending_fences s) (frozen s)
    (live_predicate s) (predicate_snapshot s).

Definition init_sema : ChannelSemaphoreState :=
  mk_sema GPU_CHAN_PRI_NORMAL BROWN [] [] ∅ [] ∅ false init_predicate init_predicate.

(** ** Semaphore waits *)
Definition enqueue_pending (e : gpu_gpfifo_entry) (s : ChannelSemaphoreState) :
    ChannelSemaphoreState :=
  s <| pending_entries ::= fun q => q ++ [e] |>.

(** [current_val >= entry.semaphore_value] *)
Definition sem_ready (reader : Z -> Z) (e : gpu_gpfifo_entry) : bool :=
  semaphore_value e <=? reader (semaphore_va e).

(** The loop of [check_pending], with its three accumulators. *)
Fixpoint check_loop (reader : Z -> Z) (q released still : list gpu_gpfifo_entry)
    (any : bool) : list gpu_gpfifo_entry * list gpu_gpfifo_entry * bool :=
  match q with
  | [] => (released, still, any)
  | e :: q' =>
      if sem_ready reader e
      then check_loop reader q' (released ++ [e]) still true
      else check_loop reader q' released (still ++ [e]) any
  end.

Definition check_pending (reader : Z -> Z) (s : ChannelSemaphoreState) :
    bool * ChannelSemaphoreState :=
  let s := s <| released_entries := [] |> in
  match pending_entries s with
  | [] => (false, s)
  | q =>
      let '(released, still, any) := check_loop reader q [] [] false in
      (any, s <| released_entries := released |> <| pending_entries := still |>)
  end.

Definition process_sem_wait (e : gpu_gpfifo_entry) (reader : Z -> Z)
    (s : ChannelSemaphoreState) : bool * ChannelSemaphoreState :=
  if sem_ready reader e then (true, s) else (false, enqueue_pending e s).

(** The write the callback receives. *)
Definition process_sem_release (e : gpu_gpfifo_entry) : Z * Z :=
  (semaphore_va e, semaphore_value e).

(** ** Barriers *)

(** [barriers_[id]] default-constructs a missing entry. *)
Definition barrier_at (id : Z) (s : ChannelSemaphoreState) : barrier_state :=
  default init_barrier (barriers s !! id).
Definition set_barrier (id : Z) (b : barrier_state) (s : ChannelSemaphoreState) :
    ChannelSemaphoreState := s <| barriers := <[id := b]> (barriers s) |>.
Definition add_waiting (e : gpu_gpfifo_entry) (b : barrier_state) : barrier_state :=
  b <| waiting_entries ::= fun l => l ++ [e] |>.

Definition register_barrier_and (id n : Z) (e : gpu_gpfifo_entry)
    (s : ChannelSemaphoreState) : ChannelSemaphoreState :=
  let b := barrier_at id s in
  let b :=
    if (remaining_streams b =? 0) && negb (triggered b)
    then b <| remaining_streams := n |> <| mode_and := true |> <| triggered := false |>
    else b in
  set_barrier id (add_waiting e b) s.

Definition register_barrier_or (id : Z) (e : gpu_gpfifo_entry)
    (s : ChannelSemaphoreState) : ChannelSemaphoreState :=
  let b := barrier_at id s in
  let b :=
    if bool_decide (waiting_entries b = []) && negb (triggered b)
    then b <| mode_and := false |> <| remaining_streams := 0 |> <| triggered := false |>
    else b in
  set_barrier id (add_waiting e b) s.

(** Mark the barrier released and publish its entries. *)
Definition trigger (id : Z) (b : barrier_state) (s : ChannelSemaphoreState) :
    bool * ChannelSemaphoreState :=
  (true, set_barrier id (b <| triggered := true |>) s
           <| barrier_released := waiting_entries b |>).

Definition signal_barrier (id : Z) (s : ChannelSemaphoreState) :
    bool * ChannelSemaphoreState :=
  match barriers s !! id with
  | None => (false, s)
  | Some b =>
      if triggered b then (false, s)
      else if mode_and b then
        let b := if 0 <? remaining_streams b
                 then b <| remaining_streams ::= fun n => n - 1 |> else b in
        if remaining_streams b =? 0 then trigger id b s
        else (false, set_barrier id b s)
      else trigger id b s
  end.

Definition is_barrier_released (id : Z) (s : ChannelSemaphoreState) : bool :=
  match barriers s !! id with None => false | Some b => triggered b end.

Definition barrier_waiting_count (id : Z) (s : ChannelSemaphoreState) : nat :=
  match barriers s !! id with None => 0%nat | Some b => length (waiting_entries b) end.

(** ** Reset, fences, backup *)
Definition clear (s : ChannelSemaphoreState) : ChannelSemaphoreState :=
  s <| pending_entries := [] |> <| released_entries := [] |> <| barriers := ∅ |>
    <| barrier_released := [] |> <| pending_fences := ∅ |> <| frozen := false |>.

Definition bind_pending_fence (fence sem : Z) (s : ChannelSemaphoreState) :
    ChannelSemaphoreState := s <| pending_fences := <[fence := sem]> (pending_fences s) |>.
Definition cleanup_pending_fence (fence : Z) (s : ChannelSemaphoreState) :
    ChannelSemaphoreState := s <| pending_fences := delete fence (pending_fences s) |>.
Definition freeze_pending_fences (s : ChannelSemaphoreState) : ChannelSemaphoreState :=
  s <| frozen := true |>.
Definition rebind_pending_fences (s : ChannelSemaphoreState) : ChannelSemaphoreState :=
  s <| frozen := false |>.
Definition is_fence_frozen (fence : Z) (s : ChannelSemaphoreState) : bool :=
  if negb (frozen s) then false else bool_decide (is_Some (pending_fences s !! fence)).

Definition backup (s : ChannelSemaphoreState) : ChannelSemaphoreState :=
  init_sema <| pending_entries := pending_entries s |>
    <| released_entries := released_entries s |> <| barriers := barriers s |>
    <| barrier_released := barrier_released s |>
    <| pending_fences := pending_fences s |> <| frozen := frozen s |>.

(** [restore] swaps five containers with the (nominally constant) saved state
    and copies [frozen]; both objects after the call. *)
Definition restore (s saved : ChannelSemaphoreState) :
    ChannelSemaphoreState * ChannelSemaphoreState :=
  (s <| pending_entries := pending_entries saved |>
     <| released_entries := released_entries saved |> <| barriers := barriers saved |>
     <| barrier_released := barrier_released saved |>
     <| pending_fences := pending_fences saved |> <| frozen := frozen saved |>,
   saved <| pending_entries := pending_entries s |>
     <| released_entries := released_entries s |> <| barriers := barriers s |>
     <| barrier_released := barrier_released s |>
     <| pending_fences := pending_fences s |>).

Definition save_predicate (s : ChannelSemaphoreState) : ChannelSemaphoreState :=
  s <| predicate_snapshot := live_predicate s |>.
Definition restore_predicate (s : ChannelSemaphoreState) : ChannelSemaphoreState :=
  s <| predicate_snapshot := live_predicate s |> <| live_predicate := predicate_snapshot s |>.

(** ** Properties *)

(** The loop is a stable partition. *)
Lemma check_loop_spec reader q r k any :
  check_loop reader q r k any =
    (r ++ (split_by (sem_ready reader) q).1, k ++ (split_by (sem_ready reader) q).2,
     any || existsb (sem_ready reader) q).
Proof.
  revert r k any. induction q as [|e q IH]; intros r k any; simpl.
  { by rewrite !app_nil_r, orb_false_r. }
  destruct (sem_ready reader e); rewrite IH; simpl; rewrite <- ?app_assoc; simpl.
  - by rewrite orb_true_r.
  - done.
Qed.

Lemma check_pending_split reader s :
  check_pending reader s =
    (existsb (sem_ready reader) (pending_entries s),
     s <| released_entries := (split_by (sem_ready reader) (pending_entries s)).1 |>
       <| pending_entries := (split_by (sem_ready reader) (pending_entries s)).2 |>).
Proof.
  destruct s as [pr ct pe re bs br pf fr lp ps]. destruct pe as [|e q]; [done|].
  unfold check_pending. cbn -[check_loop split_by existsb]. by rewrite check_loop_spec.
Qed.

(** Re-checking blocked semaphore waits is exact: the entries released
    and the entries kept are together the entries that were pending, each part
    in its original order; every released entry's condition holds in memory,
    no kept entry's does; the result says whether anything was released, and
    nothing but these two lists changes. *)
Theorem check_pending_exact reader s :
  let '(any, s') := check_pending reader s in
  released_entries s' ++ pending_entries s' ≡ₚ pending_entries s /\
  sublist (released_entries s') (pending_entries s) /\
  sublist (pending_entries s') (pending_entries s) /\
  (forall e, e ∈ released_entries s' -> semaphore_value e <= reader (semaphore_va e)) /\
  (forall e, e ∈ pending_entries s' -> reader (semaphore_va e) < semaphore_value e) /\
  (any = true <-> released_entries s' <> []) /\
  s' = s <| released_entries := released_entries s' |>
         <| pending_entries := pending_entries s' |>.
Proof.
  rewrite check_pending_split. simpl.
  assert (Hsub : forall (p : gpu_gpfifo_entry -> bool) l, sublist (List.filter p l) l).
  { intros p l. induction l as [|x l IH]; simpl; [constructor|].
    case_match; by constructor. }
  split_and!; auto.
  - apply (split_by_perm (sem_ready reader)).
  - intros e He%filter_In_iff. unfold sem_ready in He. lia.
  - intros e He%filter_In_iff. unfold sem_ready in He. lia.
  - induction (pending_entries s) as [|e q IH]; simpl; [done|].
    destruct (sem_ready reader e); simpl; [done|apply IH].
Qed.

(** [n] signals of a barrier, with their results. *)
Fixpoint signal_times (n : nat) (id : Z) (s : ChannelSemaphoreState) :
    list bool * ChannelSemaphoreState :=
  match n with
  | O => ([], s)
  | S n' =>
      let '(r, s) := signal_barrier id s in
      let '(rs, s) := signal_times n' id s in (r :: rs, s)
  end.

Definition register_all_and (id n : Z) (es : list gpu_gpfifo_entry)
    (s : ChannelSemaphoreState) : ChannelSemaphoreState :=
  foldl (fun s e => register_barrier_and id n e s) s es.

Lemma register_all_and_spec id n es s b :
  barriers s !! id = Some b -> remaining_streams b = n -> 0 < n -> triggered b = false ->
  register_all_and id n es s =
    set_barrier id (b <| waiting_entries ::= fun l => l ++ es |>) s.
Proof.
  intros Hb Hn Hpos Ht. revert s b Hb Hn Ht.
  induction es as [|e es IH]; intros s b Hb Hn Ht; simpl.
  - unfold set_barrier. destruct b, s; unfold field_upd; simpl in *.
    rewrite app_nil_r. by rewrite insert_id.
  - unfold register_all_and in *.
    assert (Hr : register_barrier_and id n e s = set_barrier id (add_waiting e b) s).
    { unfold register_barrier_and, barrier_at. rewrite Hb. simpl.
      destruct (Z.eqb_spec (remaining_streams b) 0); [lia|done]. }
    rewrite Hr. rewrite (IH _ (add_waiting e b)).
    + unfold set_barrier, add_waiting, field_upd. simpl.
      rewrite insert_insert_eq, <- app_assoc. done.
    + simpl. by rewrite lookup_insert_eq.
    + done.
    + done.
Qed.

(** An armed AND barrier: what each signal does. *)
Lemma signal_and_step id s b :
  barriers s !! id = Some b -> mode_and b = true -> triggered b = false ->
  0 < remaining_streams b ->
  let b' := b <| remaining_streams ::= fun n => n - 1 |> in
  signal_barrier id s =
    if remaining_streams b =? 1 then trigger id b' s else (false, set_barrier id b' s).
Proof.
  intros Hb Hm Ht Hr b'. unfold signal_barrier. rewrite Hb, Ht, Hm.
  destruct (Z.ltb_spec 0 (remaining_streams b)); [|lia]. simpl.
  destruct (Z.eqb_spec (remaining_streams b) 1), (Z.eqb_spec (remaining_streams b - 1) 0);
    try lia; done.
Qed.

Lemma signal_times_released n id s b :
  barriers s !! id = Some b -> triggered b = true ->
  signal_times n id s = (replicate n false, s).
Proof.
  intros Hb Ht. induction n as [|n IH]; simpl; [done|].
  unfold signal_barrier. by rewrite Hb, Ht, IH.
Qed.

Lemma signal_times_app a b id s :
  signal_times (a + b) id s =
    let '(r1, s1) := signal_times a id s in
    let '(r2, s2) := signal_times b id s1 in (r1 ++ r2, s2).
Proof.
  revert s. induction a as [|a IH]; intros s; simpl.
  { by destruct (signal_times b id s). }
  destruct (signal_barrier id s) as [r s1]. rewrite IH.
  destruct (signal_times a id s1), (signal_times b id _). done.
Qed.

(** Signals before the last one only count down. *)
Lemma signal_times_counting k id s b :
  barriers s !! id = Some b -> mode_and b = true -> triggered b = false ->
  Z.of_nat k < remaining_streams b ->
  signal_times k id s =
    (replicate k false,
     set_barrier id (b <| remaining_streams ::= fun n => n - Z.of_nat k |>) s).
Proof.
  revert s b. induction k as [|k IH]; intros s b Hb Hm Ht Hk.
  - simpl. f_equal. unfold set_barrier. destruct b, s; unfold field_upd; simpl in *.
    rewrite Z.sub_0_r. by rewrite insert_id.
  - cbn [signal_times replicate]. rewrite (signal_and_step _ _ _ Hb Hm Ht) by lia.
    destruct (Z.eqb_spec (remaining_streams b) 1); [lia|].
    rewrite (IH _ (b <| remaining_streams ::= fun n => n - 1 |>)); simpl;
      [|by rewrite lookup_insert_eq|done|done|lia].
    assert (Heq : b <| remaining_streams ::= fun n => n - 1 |>
                    <| remaining_streams ::= fun n => n - Z.of_nat k |>
                  = b <| remaining_streams ::= fun n => n - Z.of_nat (S k) |>).
    { unfold field_upd. cbn -[Z.of_nat]. f_equal. lia. }
    rewrite Heq. unfold set_barrier, field_upd. simpl. by rewrite insert_insert_eq.
Qed.

Definition armed_and (n : Z) (es : list gpu_gpfifo_entry) : barrier_state :=
  mk_barrier n true false es.

Lemma register_fresh_and id n e es s :
  barriers s !! id = None -> 0 < n ->
  register_all_and id n (e :: es) s = set_barrier id (armed_and n (e :: es)) s.
Proof.
  intros Hnone Hn. unfold register_all_and. simpl.
  assert (H1 : register_barrier_and id n e s = set_barrier id (armed_and n [e]) s).
  { unfold register_barrier_and, barrier_at. by rewrite Hnone. }
  rewrite H1. change (foldl _ ?x es) with (register_all_and id n es x).
  rewrite (register_all_and_spec id n es _ (armed_and n [e])); try done.
  - unfold set_barrier, field_upd. simpl. by rewrite insert_insert_eq.
  - simpl. by rewrite lookup_insert_eq.
Qed.

(** An AND barrier registered on a fresh id for [n + 1] streams opens on
    exactly the [n + 1]-st signal: the first [n] report false and leave it
    closed, the next one reports true, and every later one false; once open it
    stays open, and it has published its waiting entries in registration
    order. No other barrier is affected. *)
Theorem barrier_and_opens_on_nth s id n e es j :
  barriers s !! id = None ->
  let s0 := register_all_and id (Z.of_nat (S n)) (e :: es) s in
  let before := signal_times n id s0 in
  let after := signal_times (S n + j) id s0 in
  before.1 = replicate n false /\ is_barrier_released id before.2 = false /\
  after.1 = replicate n false ++ true :: replicate j false /\
  is_barrier_released id after.2 = true /\ barrier_released after.2 = e :: es /\
  forall id', id' <> id -> barriers after.2 !! id' = barriers s !! id'.
Proof.
  intros Hnone s0 before after.
  assert (Hs0 : barriers s0 !! id = Some (armed_and (Z.of_nat (S n)) (e :: es))).
  { unfold s0. rewrite register_fresh_and by (done || lia). simpl. by rewrite lookup_insert_eq. }
  assert (Hb : before = (replicate n false, set_barrier id (armed_and 1 (e :: es)) s0)).
  { unfold before. rewrite (signal_times_counting n id s0 _ Hs0); cbn -[Z.of_nat]; try done; [|lia].
    f_equal. f_equal. unfold armed_and, field_upd. cbn -[Z.of_nat]. f_equal. lia. }
  assert (Ha : after = (replicate n false ++ true :: replicate j false,
     (trigger id (armed_and 0 (e :: es)) (set_barrier id (armed_and 1 (e :: es)) s0)).2)).
  { unfold after. replace (S n + j)%nat with (n + (1 + j))%nat by lia.
    rewrite signal_times_app. fold before. rewrite Hb. cbn [signal_times Nat.add].
    rewrite (signal_and_step id _ (armed_and 1 (e :: es))); try done;
      [|simpl; by rewrite lookup_insert_eq].
    unfold trigger. simpl.
    rewrite (signal_times_released j id _ (mk_barrier 0 true true (e :: es)));
      [done|simpl; by rewrite lookup_insert_eq|done]. }
  rewrite Hb, Ha. unfold is_barrier_released. simpl. rewrite !lookup_insert_eq.
  split_and!; try done. intros id' Hid. rewrite !lookup_insert_ne by done.
  unfold s0. rewrite register_fresh_and by (done || lia). simpl.
  by rewrite lookup_insert_ne.
Qed.

Lemma barrier_and_opens_on_nth_witness :
  barriers init_sema !! 7 = None /\
  let s0 := register_all_and 7 3 [sample_entry; zero_entry] init_sema in
  (signal_times 2 7 s0).1 = [false; false] /\
  (signal_times 5 7 s0).1 = [false; false; true; false; false] /\
  barrier_released (signal_times 5 7 s0).2 = [sample_entry; zero_entry].
Proof.
  assert (H : barriers init_sema !! 7 = None) by reflexivity.
  split; [exact H|].
  destruct (barrier_and_opens_on_nth init_sema 7 2 sample_entry [zero_entry] 2 H)
    as (H1&_&H2&_&H3&_).
  split; [exact H1|split; [exact H2|exact H3]].
Defined.

(** An OR barrier opens on its first signal. *)
Lemma barrier_or_opens_first s id e :
  barriers s !! id = None ->
  let s0 := register_barrier_or id e s in
  (signal_barrier id s0).1 = true /\
  is_barrier_released id (signal_barrier id s0).2 = true /\
  barrier_released (signal_barrier id s0).2 = [e].
Proof.
  intros Hnone. unfold register_barrier_or, barrier_at. rewrite Hnone. simpl.
  unfold signal_barrier, is_barrier_released. simpl. rewrite lookup_insert_eq. simpl.
  rewrite lookup_insert_eq. done.
Qed.

(** The six fields a backup carries. *)
Definition sema_content (s : ChannelSemaphoreState) :=
  (pending_entries s, released_entries s, barriers s, barrier_released s,
   pending_fences s, frozen s).

(** Restoring a backup reinstates exactly the blocked entries, barriers,
    pending fences and frozen flag of the moment it was taken, whatever happened
    to the state in between, and leaves priority, context type and predicates of
    the running channel alone. The restore consumes the backup: it is left with
    the state that was replaced, so a second restore from it does not give the
    first state again. *)
Theorem restore_backup s s' :
  let '(s1, b1) := restore s' (backup s) in
  sema_content s1 = sema_content s /\
  (priority_ s1, context_type_ s1, live_predicate s1, predicate_snapshot s1) =
    (priority_ s', context_type_ s', live_predicate s', predicate_snapshot s') /\
  let '(s2, _) := restore s1 b1 in
  (pending_entries s2, barriers s2, pending_fences s2) =
    (pending_entries s', barriers s', pending_fences s').
Proof. done. Qed.

(** [clear] also drops the frozen flag and the fence table: freezing the
    fences just before clearing the state protects nothing. *)
Lemma freeze_then_clear fence s :
  is_fence_frozen fence (clear (freeze_pending_fences s)) = false.
Proof. done. Qed.
