(* ===== verification/Translator.v ===== *)
(** * GPFIFO entry to launch-parameter translation

    [plugins/gpu_driver/sim/scheduler/translator/gpfifo_translator.{h,cpp}]
    (class [GpfifoToLaunchParamsTranslator]).  The two callbacks are observed
    as the list of calls made to them, in order. *)
From S2P Require Import Prelude GpuTypes.

(** Calls to [launch_cb_] and [signal_hook_]. *)
Inductive tr_event :=
| LaunchCall (kernel_name : string) (gx gy gz bx by_ bz shared_mem : Z)
| SignalCall (handle value : Z).

Definition kMaxSubchannels : Z := 8.

Record Translator := mk_Translator {
  launch_cb : bool;                (* launch callback installed *)
  signal_hook : bool;              (* completion hook installed *)
  kernel_names : gmap Z string;
  pm4_next_addr : list Z
}.
#[export] Instance eta_Translator : Eta Translator := fun t =>
  mk_Translator (launch_cb t) (signal_hook t) (kernel_names t) (pm4_next_addr t).
Definition init_translator : Translator :=
  mk_Translator false false ∅ (replicate 8 0).

Definition setLaunchCallback (t : Translator) : Translator := t <| launch_cb := true |>.
Definition registerKernel (idx : Z) (name : string) (t : Translator) : Translator :=
  t <| kernel_names := <[idx := name]> (kernel_names t) |>.

Definition unpackDimX (packed : Z) : Z := Z.land packed 65535.
Definition unpackDimY (packed : Z) : Z := Z.land (Z.shiftr packed 16) 255.
Definition unpackDimZ (packed : Z) : Z := Z.land (Z.shiftr packed 24) 255.

(** PM4 header word: INC flag, method address, subchannel, data count. *)
Definition unpackPm4Header (header : Z) : Z * Z * Z * bool :=
  (Z.land (Z.shiftr header 1) 32767, Z.land (Z.shiftr header 16) 15,
   Z.land (Z.shiftr header 20) 15, truthy (Z.land header 1)).

Definition kernel_name_of (t : Translator) (e : gpu_gpfifo_entry) : string :=
  default "unknown"%string (kernel_names t !! u32 (payload_at e 0)).

Definition launch_event (t : Translator) (e : gpu_gpfifo_entry) (shared : Z) : list tr_event :=
  if launch_cb t then
    [LaunchCall (kernel_name_of t e)
       (unpackDimX (payload_at e 1)) (unpackDimY (payload_at e 1)) (unpackDimZ (payload_at e 1))
       (unpackDimX (payload_at e 2)) (unpackDimY (payload_at e 2)) (unpackDimZ (payload_at e 2))
       shared]
  else [].

Definition translateUsrNative (e : gpu_gpfifo_entry) (t : Translator) :
    bool * list tr_event * Translator := (true, launch_event t e 0, t).

Definition parseAqlPacket (e : gpu_gpfifo_entry) (t : Translator) :
    bool * list tr_event * Translator :=
  let sig := payload_at e 4 in
  (true,
   launch_event t e (u32 (payload_at e 3)) ++
   (if truthy sig && signal_hook t then [SignalCall sig 1] else []), t).

Definition parsePm4Packet (e : gpu_gpfifo_entry) (t : Translator) :
    bool * list tr_event * Translator :=
  if payload_at e 0 =? 0 then (false, [], t)
  else
    let '(method_addr, subch, count, inc) := unpackPm4Header (u32 (payload_at e 0)) in
    if kMaxSubchannels <=? subch then (false, [], t)
    else if 6 <? count then (false, [], t)
    else
      let current := default 0 (pm4_next_addr t !! Z.to_nat subch) in
      let addr := if inc && truthy current then current else method_addr in
      let calls :=
        if launch_cb t then
          (fun i : nat => LaunchCall "pm4_method" subch (u32 (addr + Z.of_nat i))
              (u32 (payload_at e (1 + i))) 0 0 0 0) <$> seq 0 (Z.to_nat count)
        else [] in
      let next := if inc then u32 (addr + count) else 0 in
      (true, calls, t <| pm4_next_addr := <[Z.to_nat subch := next]> (pm4_next_addr t) |>).

Definition translate (e : gpu_gpfifo_entry) (t : Translator) :
    bool * list tr_event * Translator :=
  if valid e =? 0 then (false, [], t)
  else if format e =? FORMAT_USR_NATIVE then translateUsrNative e t
  else if format e =? FORMAT_AQL then parseAqlPacket e t
  else if format e =? FORMAT_PM4 then parsePm4Packet e t
  else (false, [], t).

(** ** Properties *)
Lemma unpackDim_mod p :
  unpackDimX p = p mod 2 ^ 16 /\ unpackDimY p = p / 2 ^ 16 mod 2 ^ 8 /\
  unpackDimZ p = p / 2 ^ 24 mod 2 ^ 8.
Proof.
  unfold unpackDimX, unpackDimY, unpackDimZ.
  change 65535 with (2 ^ 16 - 1). change 255 with (2 ^ 8 - 1).
  rewrite !land_ones_mod, !Z.shiftr_div_pow2 by lia. done.
Qed.

(** The fields of a PM4 header do not overlap: distinct bit ranges. *)
Definition pm4_header (addr subch count : Z) (inc : bool) : Z :=
  Z.b2z inc + 2 * addr + 2 ^ 16 * subch + 2 ^ 20 * count.

Lemma unpackPm4Header_spec addr subch count inc :
  0 <= addr < 2 ^ 15 -> 0 <= subch < 16 -> 0 <= count < 16 ->
  unpackPm4Header (pm4_header addr subch count inc) = (addr, subch, count, inc).
Proof.
  intros Ha Hs Hc. unfold unpackPm4Header.
  set (h := pm4_header addr subch count inc).
  assert (Hb : 0 <= Z.b2z inc < 2) by (destruct inc; simpl; lia).
  assert (H1 : Z.land h 1 = Z.b2z inc).
  { change 1 with (2 ^ 1 - 1) at 1. rewrite land_ones_mod by lia.
    unfold h, pm4_header. Z.div_mod_to_equations. lia. }
  rewrite H1. change 32767 with (2 ^ 15 - 1). change 15 with (2 ^ 4 - 1).
  rewrite !land_ones_mod, !Z.shiftr_div_pow2 by lia. unfold h, pm4_header, truthy.
  repeat f_equal; [Z.div_mod_to_equations; lia..|by destruct inc].
Qed.

(** A PM4 entry that carries [words] in INC or non-INC mode. *)
Definition pm4_entry (addr subch : Z) (inc : bool) (words : list Z) : gpu_gpfifo_entry :=
  zero_entry <| valid := 1 |> <| format := FORMAT_PM4 |>
    <| payload := take 7 (pm4_header addr subch (Z.of_nat (length words)) inc ::
                          words ++ replicate 6 0) |>.

Definition method_calls (subch addr : Z) (words : list Z) : list tr_event :=
  imap (fun i w => LaunchCall "pm4_method" subch (u32 (addr + Z.of_nat i)) (u32 w) 0 0 0 0)
    words.

Lemma payload_at_pm4 addr subch inc words i :
  (length words <= 6)%nat -> (i < length words)%nat ->
  payload_at (pm4_entry addr subch inc words) (S i) = default 0 (words !! i).
Proof.
  intros Hl Hi. unfold payload_at, pm4_entry. simpl.
  rewrite lookup_take_lt by lia. by rewrite lookup_app_l.
Qed.

Lemma parsePm4_spec addr subch inc words t :
  0 < addr < 2 ^ 15 -> 0 <= subch < 8 -> (length words <= 6)%nat -> launch_cb t = true ->
  translate (pm4_entry addr subch inc words) t =
    let current := default 0 (pm4_next_addr t !! Z.to_nat subch) in
    let a := if inc && truthy current then current else addr in
    (true, method_calls subch a words,
     t <| pm4_next_addr := <[Z.to_nat subch :=
        if inc then u32 (a + Z.of_nat (length words)) else 0]> (pm4_next_addr t) |>).
Proof.
  intros Ha Hs Hw Hcb.
  set (n := Z.of_nat (length words)).
  assert (Hn : 0 <= n <= 6) by (unfold n; lia).
  assert (Hb : 0 <= Z.b2z inc < 2) by (destruct inc; simpl; lia).
  assert (Hh : payload_at (pm4_entry addr subch inc words) 0 = pm4_header addr subch n inc)
    by done.
  assert (Hr : 0 < pm4_header addr subch n inc < 2 ^ 32) by (clearbody n; clear Hh; unfold pm4_header; lia).
  unfold translate. simpl format. simpl valid. simpl.
  unfold parsePm4Packet. rewrite Hh, u32_id by lia.
  destruct (Z.eqb_spec (pm4_header addr subch n inc) 0); [lia|].
  rewrite unpackPm4Header_spec by lia.
  unfold kMaxSubchannels. destruct (Z.leb_spec 8 subch); [lia|].
  destruct (Z.ltb_spec 6 n); [lia|]. rewrite Hcb. cbv zeta.
  f_equal. f_equal. unfold method_calls, n. rewrite Nat2Z.id.
  apply list_eq. intros i. rewrite list_lookup_fmap, list_lookup_imap.
  destruct (decide (i < length words)%nat) as [Hi|Hi].
  - rewrite lookup_seq_lt by done. simpl. rewrite payload_at_pm4 by done.
    by destruct (lookup_lt_is_Some_2 words i Hi) as [w ->].
  - rewrite lookup_seq_ge by lia. by rewrite (lookup_ge_None_2 words) by lia.
Qed.

(** The callbacks made by a sequence of entries. *)
Fixpoint translate_all (es : list gpu_gpfifo_entry) (t : Translator) :
    list tr_event * Translator :=
  match es with
  | [] => ([], t)
  | e :: es' =>
      let '(_, evs, t) := translate e t in
      let '(evs', t) := translate_all es' t in (evs ++ evs', t)
  end.

Lemma method_calls_app subch a w1 w2 :
  method_calls subch a (w1 ++ w2) =
    method_calls subch a w1 ++ method_calls subch (a + Z.of_nat (length w1)) w2.
Proof.
  unfold method_calls. rewrite imap_app. f_equal. apply imap_ext. intros i w _. simpl.
  do 2 f_equal. lia.
Qed.

(** INC-mode PM4 packets continue where the previous packet of the same
    subchannel stopped: however a block of method words is cut into packets of
    at most six words, and whatever addresses the continuation headers carry,
    the launch callback sees the same method calls as for one contiguous
    block. *)
Theorem pm4_inc_continues subch a w ws t :
  0 <= subch < 8 -> 0 < a < 2 ^ 15 -> launch_cb t = true ->
  pm4_next_addr t !! Z.to_nat subch = Some 0 ->
  (length w <= 6)%nat ->
  Forall (fun p => 0 < p.1 < 2 ^ 15 /\ (length p.2 <= 6)%nat) ws ->
  a + Z.of_nat (length w + length (mjoin (snd <$> ws))) < 2 ^ 32 ->
  (translate_all (pm4_entry a subch true w ::
     ((fun p => pm4_entry p.1 subch true p.2) <$> ws)) t).1 =
  method_calls subch a (w ++ mjoin (snd <$> ws)).
Proof.
  intros Hs Ha Hcb Hn Hw Hws Hb. simpl.
  rewrite parsePm4_spec by done. rewrite Hn. simpl.
  rewrite method_calls_app.
  set (t1 := _ <| pm4_next_addr := _ |>).
  assert (Hgen : forall ws c t, launch_cb t = true ->
     0 < c -> c + Z.of_nat (length (mjoin (snd <$> ws))) < 2 ^ 32 ->
     pm4_next_addr t !! Z.to_nat subch = Some c ->
     Forall (fun p => 0 < p.1 < 2 ^ 15 /\ (length p.2 <= 6)%nat) ws ->
     (translate_all ((fun p => pm4_entry p.1 subch true p.2) <$> ws) t).1 =
       method_calls subch c (mjoin (snd <$> ws))).
  { clear -Hs. induction ws as [|[b w] ws IH]; intros c t Hcb Hc Hb Hn Hws; simpl; [done|].
    inversion Hws as [|?? [Hb1 Hb2] Hws']; subst. simpl in Hb1, Hb2.
    change (mjoin (snd <$> (b, w) :: ws)) with (w ++ mjoin (snd <$> ws)) in Hb.
    rewrite length_app in Hb. rewrite parsePm4_spec by done. rewrite Hn. simpl.
    unfold truthy. destruct (Z.eqb_spec c 0); [lia|]. simpl.
    rewrite method_calls_app. rewrite u32_id by lia.
    specialize (IH (c + Z.of_nat (length w)) (t <| pm4_next_addr := <[Z.to_nat subch :=
        c + Z.of_nat (length w)]> (pm4_next_addr t) |>)).
    destruct (translate_all _ _) as [evs t2]. simpl in IH |- *. rewrite IH; try done; try lia.
    apply list_lookup_insert_eq. by eapply lookup_lt_Some. }
  specialize (Hgen ws (a + Z.of_nat (length w)) t1).
  destruct (translate_all _ _) as [evs t2]. simpl in Hgen |- *. rewrite Hgen; try done; try lia.
  unfold t1, field_upd. simpl. rewrite u32_id by lia.
  apply list_lookup_insert_eq. by eapply lookup_lt_Some.
Qed.

Lemma pm4_inc_continues_witness :
  let t := setLaunchCallback init_translator in
  (translate_all [pm4_entry 256 3 true [1; 2; 3]; pm4_entry 9 3 true [4; 5]] t).1 =
  method_calls 3 256 [1; 2; 3; 4; 5].
Proof.
  intros t.
  apply (pm4_inc_continues 3 256 [1; 2; 3] [(9, [4; 5])] t); simpl; try done; try lia.
  repeat constructor; simpl; lia.
Defined.
