(* ===== verification/Graph.v ===== *)
(** * CUDA graphs: recording, precompilation, launch lookup

    [plugins/gpu_driver/sim/graph.cpp].  The file's tables, handle counters
    and byte heap are one state record; an [extern "C"] function takes the
    state and returns its result code, its output (where it has one) and the
    new state.  Output pointers are passed as "is it non-null". *)
From S2P Require Import Prelude GpuTypes Translator.

(** [struct NodeMetadata]: a tagged union of the two node kinds. *)
Inductive NodeMetadata :=
| KernelNode (kernel_index grid_x grid_y grid_z block_x block_y block_z kernargs_bo_handle : Z)
| MemcpyNode (src_va dst_va size is_h2d : Z).

Record ExecEntry := mk_ExecEntry {
  source_graph : Z;
  kernel_addrs : list Z;
  precompiled_entries : list gpu_gpfifo_entry;
  gpfifo_gpu_addr : Z;
  entry_count : Z
}.

Record graph_state := mk_graph_state {
  graph_table : gmap Z (list NodeMetadata);
  exec_table : gmap Z ExecEntry;
  next_graph_handle : Z;
  next_exec_handle : Z;
  sim_heap : list Z
}.
#[export] Instance eta_graph_state : Eta graph_state := fun s =>
  mk_graph_state (graph_table s) (exec_table s) (next_graph_handle s)
    (next_exec_handle s) (sim_heap s).
Definition init_graph : graph_state := mk_graph_state ∅ ∅ 1 1 [].

Definition SIM_HEAP_BASE : Z := 536870912.       (* 0x20000000 *)
Definition KERNARGS_VA_BASE : Z := 805306368.    (* 0x30000000 *)
Definition KERNEL_VA_BASE : Z := 1073741824.     (* 0x40000000 *)
Definition VA_STRIDE : Z := 4096.

(** [sim_gpfifo_alloc] followed by the [memcpy] of its only caller: the heap
    grows by [bytes], whose address is returned. *)
Definition sim_gpfifo_alloc (bytes : list Z) (s : graph_state) : Z * graph_state :=
  (u64 (SIM_HEAP_BASE + Z.of_nat (length (sim_heap s))),
   s <| sim_heap ::= fun h => h ++ bytes |>).

Definition pack_grid_dim (x y z : Z) : Z :=
  Z.lor (Z.lor x (Z.shiftl y 16)) (Z.shiftl z 24).
Definition pack_block_dim (x y z : Z) : Z :=
  Z.lor (Z.lor x (Z.shiftl y 8)) (Z.shiftl z 16).

Definition resolve_kernargs_va (bo_handle : Z) : Z :=
  if bo_handle =? 0 then 0 else u64 (KERNARGS_VA_BASE + bo_handle * VA_STRIDE).
Definition resolve_kernel_va (kernel_index : Z) : Z :=
  u64 (KERNEL_VA_BASE + kernel_index * VA_STRIDE).

Definition node_entry (n : NodeMetadata) : gpu_gpfifo_entry :=
  match n with
  | KernelNode ki gx gy gz bx by_ bz ka =>
      zero_entry <| valid := 1 |> <| method := GPU_OP_LAUNCH_KERNEL |>
        <| payload := [resolve_kernel_va ki; pack_grid_dim gx gy gz; pack_block_dim bx by_ bz;
                       resolve_kernargs_va ka; 0; 0; 0] |>
  | MemcpyNode src dst size h2d =>
      zero_entry <| valid := 1 |> <| method := GPU_OP_MEMCPY |>
        <| payload := [src; dst; size; u64 h2d; 0; 0; 0] |>
  end.
Definition graph_to_gpfifo (nodes : list NodeMetadata) : list gpu_gpfifo_entry :=
  node_entry <$> nodes.

Definition validate_kernargs (nodes : list NodeMetadata) : bool :=
  forallb (fun n => match n with
                    | KernelNode _ _ _ _ _ _ _ ka => truthy ka
                    | MemcpyNode _ _ _ _ => true
                    end) nodes.

Definition sim_graph_create (out : bool) (s : graph_state) : Z * Z * graph_state :=
  if negb out then (- EINVAL, 0, s)
  else
    let h := next_graph_handle s in
    (0, h, s <| next_graph_handle := u64 (h + 1) |> <| graph_table ::= <[h := []]> |>).

Definition sim_graph_destroy (g : Z) (s : graph_state) : Z * graph_state :=
  match graph_table s !! g with
  | None => (- EINVAL, s)
  | Some _ =>
      (0, s <| graph_table ::= delete g |>
            <| exec_table ::= filter (fun kv => source_graph kv.2 <> g) |>)
  end.

Definition add_node (g : Z) (n : NodeMetadata) (s : graph_state) : Z * graph_state :=
  match graph_table s !! g with
  | None => (- EINVAL, s)
  | Some nodes => (0, s <| graph_table ::= <[g := nodes ++ [n]]> |>)
  end.

Definition sim_graph_add_kernel_node (g ki gx gy gz bx by_ bz : Z) (kernargs : option Z)
    (s : graph_state) : Z * graph_state :=
  add_node g (KernelNode ki gx gy gz bx by_ bz (default 0 kernargs)) s.
Definition sim_graph_add_memcpy_node (g src dst size h2d : Z) (s : graph_state) :
    Z * graph_state := add_node g (MemcpyNode src dst size h2d) s.

Definition kernel_addrs_of (nodes : list NodeMetadata) : list Z :=
  omap (fun n => match n with
                 | KernelNode ki _ _ _ _ _ _ _ => Some (resolve_kernel_va ki)
                 | MemcpyNode _ _ _ _ => None
                 end) nodes.

Definition sim_graph_instantiate (g : Z) (out : bool) (s : graph_state) :
    Z * Z * graph_state :=
  if negb out then (- EINVAL, 0, s)
  else match graph_table s !! g with
  | None => (- EINVAL, 0, s)
  | Some nodes =>
      if negb (validate_kernargs nodes) then (- EINVAL, 0, s)
      else
        let es := graph_to_gpfifo nodes in
        let count := u32 (Z.of_nat (length es)) in
        let '(addr, s) :=
          if 0 <? count then sim_gpfifo_alloc (encode_entries es) s else (0, s) in
        let eh := next_exec_handle s in
        (0, eh, s <| next_exec_handle := u64 (eh + 1) |>
                  <| exec_table ::= <[eh := mk_ExecEntry g (kernel_addrs_of nodes) es addr count]> |>)
  end.

Definition sim_graph_launch (eh : Z) (stream_id : Z) (out : bool) (s : graph_state) :
    Z * option (Z * Z) :=
  if negb out then (- EINVAL, None)
  else match exec_table s !! eh with
  | None => (- EINVAL, None)
  | Some x => (0, Some (gpfifo_gpu_addr x, entry_count x))
  end.

Definition sim_graph_destroy_exec (eh : Z) (s : graph_state) : Z * graph_state :=
  match exec_table s !! eh with
  | None => (- EINVAL, s)
  | Some _ => (0, s <| exec_table ::= delete eh |>)
  end.

Definition sim_graph_reset_for_test (s : graph_state) : graph_state := init_graph.

(** ** Packed dimensions *)
Lemma pack_grid_dim_sum x y z :
  0 <= x < 2 ^ 16 -> 0 <= y < 2 ^ 8 -> pack_grid_dim x y z = x + y * 2 ^ 16 + z * 2 ^ 24.
Proof. intros Hx Hy. unfold pack_grid_dim. rewrite (lor_add_shift x), lor_add_shift by lia. done. Qed.
Lemma pack_block_dim_sum x y z :
  0 <= x < 2 ^ 8 -> 0 <= y < 2 ^ 8 -> pack_block_dim x y z = x + y * 2 ^ 8 + z * 2 ^ 16.
Proof. intros Hx Hy. unfold pack_block_dim. rewrite (lor_add_shift x), lor_add_shift by lia. done. Qed.

(** What the launch callback sees when a recorded kernel node is
    executed.  The grid dimensions arrive as recorded.  The block dimensions
    do not: the node packs them 8 bits apart and the translator unpacks them at
    bits 0, 16 and 24, so a block (x, y, z) is launched as (x + 256 y, z, 0);
    and the kernel is looked up under the low word of its placeholder address,
    not under the recorded kernel index. *)
Theorem graph_kernel_launch_dims ki gx gy gz bx by_ bz ka t :
  0 <= gx < 2 ^ 16 -> 0 <= gy < 2 ^ 8 -> 0 <= gz < 2 ^ 8 ->
  0 <= bx < 2 ^ 8 -> 0 <= by_ < 2 ^ 8 -> 0 <= bz < 2 ^ 8 ->
  launch_cb t = true ->
  translate (node_entry (KernelNode ki gx gy gz bx by_ bz ka)) t =
    (true,
     [LaunchCall (default "unknown"%string
                    (kernel_names t !! u32 (KERNEL_VA_BASE + ki * VA_STRIDE)))
        gx gy gz (bx + 256 * by_) bz 0 0], t).
Proof.
  intros Hgx Hgy Hgz Hbx Hby Hbz Hcb. unfold translate. simpl valid. simpl format. simpl.
  unfold translateUsrNative, launch_event. rewrite Hcb. f_equal. f_equal.
  unfold kernel_name_of, payload_at. simpl. unfold resolve_kernel_va.
  rewrite pack_grid_dim_sum, pack_block_dim_sum by lia.
  pose proof (unpackDim_mod (gx + gy * 2 ^ 16 + gz * 2 ^ 24)) as (-> & -> & ->).
  pose proof (unpackDim_mod (bx + by_ * 2 ^ 8 + bz * 2 ^ 16)) as (-> & -> & ->).
  rewrite u32_u64.
  do 2 f_equal; Z.div_mod_to_equations; lia.
Qed.

Lemma graph_kernel_launch_dims_witness :
  translate (node_entry (KernelNode 7 4 2 1 16 4 2 9)) (setLaunchCallback init_translator) =
    (true, [LaunchCall "unknown" 4 2 1 1040 2 0 0], setLaunchCallback init_translator).
Proof.
  apply (graph_kernel_launch_dims 7 4 2 1 16 4 2 9 (setLaunchCallback init_translator)); try lia.
  reflexivity.
Defined.

(** ** Sequences of graph calls *)
Inductive graph_op :=
| OpCreate
| OpKernel (g ki gx gy gz bx by_ bz : Z) (ka : option Z)
| OpMemcpy (g src dst size h2d : Z)
| OpInstantiate (g : Z)
| OpLaunch (eh stream : Z)
| OpDestroyExec (eh : Z)
| OpDestroy (g : Z).

Definition graph_apply (op : graph_op) (s : graph_state) : graph_state :=
  match op with
  | OpCreate => (sim_graph_create true s).2
  | OpKernel g ki gx gy gz bx by_ bz ka =>
      (sim_graph_add_kernel_node g ki gx gy gz bx by_ bz ka s).2
  | OpMemcpy g src dst size h2d => (sim_graph_add_memcpy_node g src dst size h2d s).2
  | OpInstantiate g => (sim_graph_instantiate g true s).2
  | OpLaunch _ _ => s
  | OpDestroyExec eh => (sim_graph_destroy_exec eh s).2
  | OpDestroy g => (sim_graph_destroy g s).2
  end.
Definition graph_run (ops : list graph_op) (s : graph_state) : graph_state :=
  fold_left (fun s op => graph_apply op s) ops s.

(** The call destroys neither executable [eh] nor its source graph [g]. *)
Definition keeps (g eh : Z) (op : graph_op) : Prop :=
  match op with
  | OpDestroyExec eh' => eh' <> eh
  | OpDestroy g' => g' <> g
  | _ => True
  end.

(** Every field of a node has its declared width. *)
Definition node_ok (n : NodeMetadata) : Prop :=
  match n with
  | KernelNode ki gx gy gz bx by_ bz ka =>
      is_u32 ki /\ is_u32 gx /\ is_u32 gy /\ is_u32 gz /\
      is_u32 bx /\ is_u32 by_ /\ is_u32 bz /\ is_u64 ka
  | MemcpyNode src dst size h2d => is_u64 src /\ is_u64 dst /\ is_u64 size
  end.

(** What the DMA engine reads: [n] entries at device address [addr]. *)
Definition fetch_entries (heap : list Z) (addr : Z) (n : nat) : list gpu_gpfifo_entry :=
  decode_entries n (drop (Z.to_nat (addr - SIM_HEAP_BASE)) heap).

(** Executable [eh] of graph [g] has [es] in the heap at its address. *)
Definition exec_image (s : graph_state) (g eh : Z) (es : list gpu_gpfifo_entry) : Prop :=
  exists x pre post,
    exec_table s !! eh = Some x /\ source_graph x = g /\
    entry_count x = Z.of_nat (length es) /\
    (es <> [] -> sim_heap s = pre ++ encode_entries es ++ post /\
                 gpfifo_gpu_addr x = SIM_HEAP_BASE + Z.of_nat (length pre)).

Lemma pack_range a b n : is_u64 a -> is_u32 b -> 0 <= n <= 32 -> is_u64 (Z.lor a (Z.shiftl b n)).
Proof.
  intros Ha Hb Hn. apply lor_range; [lia|done|]. rewrite Z.shiftl_mul_pow2 by lia.
  assert (0 < 2 ^ n <= 2 ^ 32) by (split; [apply Z.pow_pos_nonneg; lia | apply Z.pow_le_mono_r; lia]).
  nia.
Qed.

Lemma node_entry_ok n : node_ok n -> entry_ok (node_entry n).
Proof.
  destruct n as [ki gx gy gz bx by_ bz ka|src dst size h2d]; simpl; intros H; destruct_and! H;
    constructor; simpl; try done; try lia.
  - repeat constructor; try lia; try apply u64_range.
    1-4: apply pack_range; [apply pack_range; lia | lia..].
    all: unfold resolve_kernargs_va; case_match; [lia | apply u64_range].
  - repeat constructor; try lia; apply u64_range.
Qed.

Lemma exec_image_keeps op s g eh es :
  exec_image s g eh es -> keeps g eh op -> eh <> next_exec_handle s ->
  exec_image (graph_apply op s) g eh es.
Proof.
  intros (x & pre & post & Hx & Hg & Hc & Hh) Hk Hn.
  destruct op as [|g' ki gx gy gz bx by_ bz ka|g' src dst size h2d|g'|eh' st|eh'|g']; simpl in *.
  - by exists x, pre, post.
  - unfold sim_graph_add_kernel_node, add_node. case_match; by exists x, pre, post.
  - unfold sim_graph_add_memcpy_node, add_node. case_match; by exists x, pre, post.
  - unfold sim_graph_instantiate. simpl. destruct (graph_table s !! g') as [nodes|];
      [|by exists x, pre, post].
    destruct (negb _); [by exists x, pre, post|].
    destruct (0 <? _); unfold sim_gpfifo_alloc; cbn -[encode_entries graph_to_gpfifo].
    + exists x, pre, (post ++ encode_entries (graph_to_gpfifo nodes)).
      cbn -[encode_entries graph_to_gpfifo]. rewrite lookup_insert_ne by congruence.
      do 3 (split; [done|]). intros Hne. destruct (Hh Hne) as [-> Ha].
      by rewrite <- !app_assoc.
    + exists x, pre, post. cbn -[encode_entries]. by rewrite lookup_insert_ne by congruence.
  - by exists x, pre, post.
  - unfold sim_graph_destroy_exec. case_match; [|by exists x, pre, post].
    exists x, pre, post. simpl. by rewrite lookup_delete_ne.
  - unfold sim_graph_destroy. case_match; [|by exists x, pre, post].
    exists x, pre, post. simpl. split; [|done].
    rewrite map_lookup_filter_Some. simpl. split; congruence.
Qed.

Lemma next_exec_step op s :
  0 <= next_exec_handle s -> next_exec_handle s + 1 < 2 ^ 64 ->
  next_exec_handle s <= next_exec_handle (graph_apply op s) <= next_exec_handle s + 1.
Proof.
  intros H0 H1. destruct op; simpl;
    unfold sim_graph_add_kernel_node, sim_graph_add_memcpy_node, add_node, sim_graph_instantiate,
      sim_graph_destroy_exec, sim_graph_destroy, sim_gpfifo_alloc; simpl;
    repeat case_match; simplify_eq/=; try lia; rewrite u64_id by lia; lia.
Qed.

Lemma exec_image_run ops s g eh es :
  exec_image s g eh es -> Forall (keeps g eh) ops -> 0 <= eh < next_exec_handle s ->
  next_exec_handle s + Z.of_nat (length ops) < 2 ^ 64 ->
  exec_image (graph_run ops s) g eh es.
Proof.
  revert s. induction ops as [|op ops IH]; intros s Hi Hk Hlt Hb; [done|].
  inversion Hk; subst. cbn [length] in Hb. cbn [graph_run fold_left]. 
  pose proof (next_exec_step op s ltac:(lia) ltac:(lia)).
  apply IH; [apply exec_image_keeps; try done; lia | done | lia | lia].
Qed.

(** An image serves launches and fetches. *)
Lemma exec_image_launch s g eh es st :
  exec_image s g eh es -> Forall entry_ok es ->
  exists addr, sim_graph_launch eh st true s = (0, Some (addr, Z.of_nat (length es))) /\
    fetch_entries (sim_heap s) addr (length es) = es.
Proof.
  intros (x & pre & post & Hx & Hg & Hc & Hh) Hes. exists (gpfifo_gpu_addr x).
  unfold sim_graph_launch. simpl. rewrite Hx, Hc. split; [done|].
  unfold fetch_entries. destruct es as [|e es]; [done|].
  destruct Hh as [-> ->]; [done|].
  replace (Z.to_nat _) with (length pre) by lia.
  rewrite drop_app_length. by apply decode_encode_entries.
Qed.

Lemma instantiate_image s s1 g eh nodes :
  sim_graph_instantiate g true s = (0, eh, s1) -> graph_table s !! g = Some nodes ->
  Z.of_nat (length nodes) < 2 ^ 32 ->
  SIM_HEAP_BASE + Z.of_nat (length (sim_heap s)) < 2 ^ 64 ->
  eh = next_exec_handle s /\ next_exec_handle s1 = u64 (eh + 1) /\
  exec_image s1 g eh (graph_to_gpfifo nodes).
Proof.
  intros Hi Hn Hl Hb. unfold sim_graph_instantiate in Hi. rewrite Hn in Hi.
  cbn -[encode_entries graph_to_gpfifo] in Hi.
  destruct (negb _); [simplify_eq|].
  assert (Hlen : length (graph_to_gpfifo nodes) = length nodes) by apply length_fmap.
  rewrite Hlen, u32_id in Hi by lia.
  destruct (Z.ltb_spec 0 (Z.of_nat (length nodes))) as [Hp|Hp];
    unfold sim_gpfifo_alloc in Hi; cbn -[encode_entries graph_to_gpfifo] in Hi;
    simplify_eq; cbn -[encode_entries graph_to_gpfifo]; split; try done; split; try done;
    unfold exec_image; cbn -[encode_entries graph_to_gpfifo].
  - eexists _, (sim_heap s), []. rewrite lookup_insert_eq.
    split; [done|]. cbn -[encode_entries graph_to_gpfifo]. rewrite Hlen, app_nil_r.
    rewrite u64_id by (unfold SIM_HEAP_BASE in *; lia). done.
  - eexists _, [], []. rewrite lookup_insert_eq. split; [done|].
    cbn -[encode_entries graph_to_gpfifo]. rewrite Hlen. split; [done|]. split; [done|].
    destruct nodes; [done|simpl in Hp; lia].
Qed.

(** Instantiation precompiles a snapshot: whatever graph calls follow,
    short of destroying the executable or its source graph, a launch finds the
    executable, and the entries read at the address it returns are the
    translation of the nodes recorded at instantiation time: later node
    additions and later instantiations do not touch them. *)
Theorem graph_launch_image s s1 g eh nodes ops stream :
  graph_table s !! g = Some nodes -> Forall node_ok nodes ->
  Z.of_nat (length nodes) < 2 ^ 32 ->
  SIM_HEAP_BASE + Z.of_nat (length (sim_heap s)) < 2 ^ 64 ->
  0 <= next_exec_handle s -> next_exec_handle s + 1 + Z.of_nat (length ops) < 2 ^ 64 ->
  sim_graph_instantiate g true s = (0, eh, s1) -> Forall (keeps g eh) ops ->
  exists addr,
    sim_graph_launch eh stream true (graph_run ops s1) =
      (0, Some (addr, Z.of_nat (length nodes))) /\
    fetch_entries (sim_heap (graph_run ops s1)) addr (length nodes) = graph_to_gpfifo nodes.
Proof.
  intros Hn Hok Hl Hb H0 Hops Hi Hk.
  destruct (instantiate_image _ _ _ _ _ Hi Hn Hl Hb) as (-> & Hnext & Him).
  rewrite u64_id in Hnext by lia.
  apply (exec_image_run ops) in Him; [|done|lia|lia].
  assert (Hes : Forall entry_ok (graph_to_gpfifo nodes))
    by (apply Forall_fmap; eapply Forall_impl; [exact Hok | apply node_entry_ok]).
  destruct (exec_image_launch _ _ _ _ stream Him Hes) as (addr & H1 & H2).
  unfold graph_to_gpfifo in H1, H2. rewrite length_fmap in H1, H2. by exists addr.
Qed.

Definition demo_graph : graph_state :=
  graph_run [OpCreate; OpKernel 1 7 4 2 1 16 4 2 (Some 9); OpMemcpy 1 4096 8192 64 (-1)] init_graph.
Definition demo_nodes : list NodeMetadata :=
  [KernelNode 7 4 2 1 16 4 2 9; MemcpyNode 4096 8192 64 (-1)].

Definition demo_ops : list graph_op :=
  [OpKernel 1 8 1 1 1 1 1 1 (Some 3); OpInstantiate 1; OpDestroyExec 2].

Lemma graph_launch_image_witness :
  let s1 := (sim_graph_instantiate 1 true demo_graph).2 in
  exists addr,
    sim_graph_launch 1 0 true (graph_run demo_ops s1) =
      (0, Some (addr, Z.of_nat (length demo_nodes))) /\
    fetch_entries (sim_heap (graph_run demo_ops s1)) addr (length demo_nodes) =
      graph_to_gpfifo demo_nodes.
Proof.
  apply (graph_launch_image demo_graph _ 1).
  - by vm_compute.
  - repeat constructor; simpl; lia.
  - by vm_compute.
  - by vm_compute.
  - by vm_compute.
  - by vm_compute.
  - by vm_compute.
  - repeat constructor; simpl; lia.
Defined.
