(* ===== verification/Semaphore.v ===== *)
(** * Timeline semaphores

    [plugins/gpu_driver/sim/semaphore_manager.{h,cpp}].  A callback is an
    identifier ([None] for an empty [std::function]); an operation returns, with
    its result, the calls it makes, in order, each with the value passed.  The
    calls are made after the mutex is released and before the operation
    returns. *)
From S2P Require Import Prelude.

Record SemWaiter := mk_SemWaiter {
  expected : Z;
  callback : option Z;
  user_data : Z
}.
Record Semaphore := mk_Semaphore {
  sem_value : Z;
  waiters : list SemWaiter;
  destroyed : bool
}.
#[export] Instance eta_Semaphore : Eta Semaphore := fun s =>
  mk_Semaphore (sem_value s) (waiters s) (destroyed s).
Definition init_Semaphore : Semaphore := mk_Semaphore 0 [] false.

Record SemaphoreManager := mk_SemaphoreManager {
  next_handle : Z;
  semaphores : gmap Z Semaphore
}.
#[export] Instance eta_SemaphoreManager : Eta SemaphoreManager := fun m =>
  mk_SemaphoreManager (next_handle m) (semaphores m).
Definition init_SemaphoreManager : SemaphoreManager := mk_SemaphoreManager 1 ∅.

(** A call [callback(arg)]. *)
Abbreviation call := (Z * Z)%type.

(** [if (w.callback) w.callback(arg)] *)
Definition call_waiter (arg : SemWaiter -> Z) (w : SemWaiter) : list call :=
  match callback w with Some c => [(c, arg w)] | None => [] end.
Definition call_waiters (arg : SemWaiter -> Z) (ws : list SemWaiter) : list call :=
  mjoin (call_waiter arg <$> ws).

(** [semaphores_.find(handle)], refused when destroyed. *)
Definition live (m : SemaphoreManager) (h : Z) : option Semaphore :=
  match semaphores m !! h with
  | Some s => if destroyed s then None else Some s
  | None => None
  end.
Definition put_sem (h : Z) (s : Semaphore) (m : SemaphoreManager) : SemaphoreManager :=
  m <| semaphores ::= <[h := s]> |>.

Definition create (initial : Z) (m : SemaphoreManager) : Z * SemaphoreManager :=
  let h := next_handle m in
  let sem := default init_Semaphore (semaphores m !! h) in
  (h, put_sem h (sem <| sem_value := initial |>) (m <| next_handle := u64 (h + 1) |>)).

Definition ready (value : Z) (w : SemWaiter) : bool := expected w <=? value.

Definition signal (h value : Z) (m : SemaphoreManager) : Z * list call * SemaphoreManager :=
  match live m h with
  | None => (- EINVAL, [], m)
  | Some sem =>
      if value <=? sem_value sem then (- EINVAL, [], m)
      else
        let '(woken, rest) := span (ready value) (waiters sem) in
        (0, call_waiters (fun _ => value) woken,
         put_sem h (sem <| sem_value := value |> <| waiters := rest |>) m)
  end.

Definition wait (h exp : Z) (cb : option Z) (ud : Z) (m : SemaphoreManager) :
    Z * list call * SemaphoreManager :=
  match live m h with
  | None => (- EINVAL, [], m)
  | Some sem =>
      if exp <=? sem_value sem
      then (0, call_waiter (fun _ => sem_value sem) (mk_SemWaiter exp cb ud), m)
      else (0, [], put_sem h (sem <| waiters ::= fun q => q ++ [mk_SemWaiter exp cb ud] |>) m)
  end.

Definition query (h : Z) (m : SemaphoreManager) : Z :=
  match live m h with Some sem => sem_value sem | None => UINT64_MAX end.

Definition destroy (h : Z) (m : SemaphoreManager) : Z * list call * SemaphoreManager :=
  match live m h with
  | None => (- EINVAL, [], m)
  | Some sem =>
      (0, call_waiters user_data (waiters sem),
       put_sem h (sem <| destroyed := true |> <| waiters := [] |>) m)
  end.

(** The destructor: every remaining waiter, in handle order, is called with 0. *)
Definition destroy_manager (m : SemaphoreManager) : list call :=
  mjoin ((fun h => match semaphores m !! h with
                   | Some sem => call_waiters (fun _ => 0) (waiters sem)
                   | None => []
                   end) <$> seqZ 1 (next_handle m - 1)).

(** ** Sequences of operations *)
Inductive sem_op :=
| SCreate (initial : Z)
| SSignal (h value : Z)
| SWait (h exp cb ud : Z)
| SDestroy (h : Z).

Definition sem_step (op : sem_op) (m : SemaphoreManager) : Z * list call * SemaphoreManager :=
  match op with
  | SCreate v => let '(h, m) := create v m in (h, [], m)
  | SSignal h v => signal h v m
  | SWait h e cb ud => wait h e (Some cb) ud m
  | SDestroy h => destroy h m
  end.

(** The callbacks accepted and the calls made by a sequence of operations. *)
Fixpoint sem_run (ops : list sem_op) (m : SemaphoreManager) :
    list Z * list call * SemaphoreManager :=
  match ops with
  | [] => ([], [], m)
  | op :: ops' =>
      let '(r, calls, m) := sem_step op m in
      let '(acc, calls', m) := sem_run ops' m in
      (match op with SWait _ _ cb _ => if r =? 0 then cb :: acc else acc | _ => acc end,
       calls ++ calls', m)
  end.

(** Callbacks still queued, whatever the semaphore. *)
Definition queued (s : Semaphore) : list Z := omap callback (waiters s).
Definition pending (m : SemaphoreManager) : list Z :=
  mjoin (queued <$> (map_to_list (semaphores m)).*2).

(** ** Invariant: handles are fresh and no queue is headed by a waiter whose
    value has been reached. *)
Record sem_ok (m : SemaphoreManager) : Prop := {
  so_fresh : forall h, next_handle m <= h -> semaphores m !! h = None;
  so_head : forall h s w, semaphores m !! h = Some s -> head (waiters s) = Some w ->
            sem_value s < expected w
}.

Lemma live_Some m h s : live m h = Some s <-> semaphores m !! h = Some s /\ destroyed s = false.
Proof.
  unfold live. destruct (semaphores m !! h) as [s'|]; [|by split; [|intros []]].
  destruct (destroyed s') eqn:E; split; [done|intros []; congruence|intros; by simplify_eq|].
  by intros [? ?].
Qed.

Lemma sem_ok_init : sem_ok init_SemaphoreManager.
Proof. by split. Qed.

Lemma put_sem_ok h s m :
  sem_ok m -> h < next_handle m ->
  (forall w, head (waiters s) = Some w -> sem_value s < expected w) ->
  sem_ok (put_sem h s m).
Proof.
  intros [Hf Hh] Hlt Hs. split; cbn.
  - intros h' Hh'. rewrite lookup_insert_ne by lia. by apply Hf.
  - intros h' s' w Hl. destruct (decide (h = h')) as [->|Hne].
    + rewrite lookup_insert_eq in Hl. simplify_eq. apply Hs.
    + rewrite lookup_insert_ne in Hl by done. by apply (Hh h').
Qed.

Lemma live_fresh m h s : sem_ok m -> live m h = Some s -> h < next_handle m.
Proof.
  intros Hok Hl. apply live_Some in Hl as [Hl _].
  destruct (Z.lt_ge_cases h (next_handle m)) as [|Hge]; [done|].
  by rewrite (so_fresh m Hok h Hge) in Hl.
Qed.

(** Fewer than 2^64 handles are ever created. *)
Definition room (m : SemaphoreManager) (ops : list sem_op) : Prop :=
  0 <= next_handle m /\ next_handle m + Z.of_nat (length ops) < 2 ^ 64.

Lemma sem_step_ok op m r calls m' :
  sem_ok m -> 0 <= next_handle m -> next_handle m + 1 < 2 ^ 64 ->
  sem_step op m = (r, calls, m') ->
  sem_ok m' /\ next_handle m <= next_handle m' <= next_handle m + 1.
Proof.
  intros Hok H0 Hn Hs. destruct op as [v|h v|h e cb ud|h]; simpl in Hs.
  - simplify_eq. split; [|cbn; rewrite u64_id by lia; lia].
    rewrite (so_fresh m Hok) by lia. destruct Hok as [Hf Hh]. split; cbn.
    + intros h Hlt. rewrite u64_id in Hlt by lia.
      rewrite lookup_insert_ne by lia. apply Hf. lia.
    + intros h s w Hl. destruct (decide (next_handle m = h)) as [<-|Hne].
      * rewrite lookup_insert_eq in Hl. by simplify_eq.
      * rewrite lookup_insert_ne in Hl by done. by apply (Hh h).
  - unfold signal in Hs. destruct (live m h) as [s|] eqn:Hl; [|simplify_eq; split; [done|lia]].
    destruct (Z.leb_spec v (sem_value s)); [simplify_eq; split; [done|lia]|].
    destruct (span _ _) as [u q] eqn:Hsp. simplify_eq. split; [|simpl; lia].
    apply put_sem_ok; [done|by eapply live_fresh|]. simpl. intros w Hw.
    pose proof (span_snd (ready v) (waiters s) w) as Hx. rewrite Hsp in Hx.
    specialize (Hx Hw). unfold ready in Hx. lia.
  - unfold wait in Hs. destruct (live m h) as [s|] eqn:Hl; [|simplify_eq; split; [done|lia]].
    destruct (Z.leb_spec e (sem_value s)); simplify_eq; split; try done; simpl; try lia.
    apply put_sem_ok; [done|by eapply live_fresh|]. simpl. intros w Hw.
    apply live_Some in Hl as [Hl _]. pose proof (so_head m Hok h s w Hl) as Hx.
    destruct (waiters s) as [|w0 q]; simpl in *; simplify_eq; simpl; [lia|by apply Hx].
  - unfold destroy in Hs. destruct (live m h) as [s|] eqn:Hl; simplify_eq; split; try done; simpl; try lia.
    apply put_sem_ok; [done|by eapply live_fresh|done].
Qed.

(** ** Conservation of waiters *)
Lemma mjoin_queued_perm (l l' : list Semaphore) :
  l ≡ₚ l' -> mjoin (queued <$> l) ≡ₚ mjoin (queued <$> l').
Proof.
  induction 1; simpl; try done.
  - by apply Permutation_app_head.
  - rewrite !app_assoc. by apply Permutation_app_tail, Permutation_app_comm.
  - by etrans.
Qed.

Lemma pending_put m h s' :
  exists rest,
    (forall s, semaphores m !! h = Some s -> pending m ≡ₚ queued s ++ rest) /\
    (semaphores m !! h = None -> pending m ≡ₚ rest) /\
    pending (put_sem h s' m) ≡ₚ queued s' ++ rest.
Proof.
  exists (mjoin (queued <$> (map_to_list (delete h (semaphores m))).*2)).
  split_and!.
  - intros s Hl. unfold pending. rewrite <- (insert_delete_id (semaphores m) h s Hl) at 1.
    etrans; [apply mjoin_queued_perm, fmap_Permutation, map_to_list_insert, lookup_delete_eq|].
    done.
  - intros Hl. unfold pending. by rewrite delete_id.
  - unfold pending, put_sem. cbn. rewrite <- insert_delete_eq.
    etrans; [apply mjoin_queued_perm, fmap_Permutation, map_to_list_insert, lookup_delete_eq|].
    done.
Qed.

Lemma call_waiters_queued arg ws : (call_waiters arg ws).*1 = omap callback ws.
Proof.
  induction ws as [|w ws IH]; [done|].
  change (call_waiters arg (w :: ws)) with (call_waiter arg w ++ call_waiters arg ws).
  rewrite fmap_app, IH. unfold call_waiter. simpl. by destruct (callback w).
Qed.

Definition accepted (op : sem_op) (r : Z) : list Z :=
  match op with SWait _ _ cb _ => if r =? 0 then [cb] else [] | _ => [] end.

Lemma sem_step_conserves op m r calls m' :
  sem_ok m -> sem_step op m = (r, calls, m') ->
  pending m' ++ calls.*1 ≡ₚ accepted op r ++ pending m.
Proof.
  intros Hok Hs. destruct op as [v|h v|h e cb ud|h]; simpl in Hs.
  - simplify_eq. simpl. rewrite app_nil_r, (so_fresh m Hok) by lia. unfold create.
    set (m1 := m <| next_handle := _ |>).
    destruct (pending_put m1 (next_handle m) (init_Semaphore <| sem_value := v |>))
      as (rest & _ & Hn & ->).
    change (rest ≡ₚ pending m1). symmetry. apply Hn. apply (so_fresh m Hok). lia.
  - unfold signal in Hs. destruct (live m h) as [s|] eqn:Hl; [|simplify_eq; by rewrite app_nil_r].
    destruct (v <=? sem_value s); [simplify_eq; by rewrite app_nil_r|].
    apply live_Some in Hl as [Hl _].
    destruct (span _ _) as [u q] eqn:Hsp. simplify_eq. simpl.
    destruct (pending_put m h (s <| sem_value := v |> <| waiters := q |>))
      as (rest & Hp & _ & ->). rewrite (Hp s Hl), call_waiters_queued. unfold queued at 2.
    pose proof (span_app (ready v) (waiters s)) as Hx. rewrite Hsp in Hx. rewrite <- Hx.
    simpl. rewrite omap_app. rewrite Permutation_app_comm, app_assoc. done.
  - unfold wait in Hs. destruct (live m h) as [s|] eqn:Hl; [|simplify_eq; by rewrite app_nil_r].
    destruct (e <=? sem_value s); simplify_eq; simpl; [by rewrite Permutation_app_comm|].
    apply live_Some in Hl as [Hl _].
    destruct (pending_put m h (s <| waiters ::= (fun q => q ++ [mk_SemWaiter e (Some cb) ud]) |>))
      as (rest & Hp & _ & ->). rewrite (Hp s Hl), app_nil_r. unfold queued. simpl.
    rewrite omap_app. simpl. rewrite <- app_assoc. simpl. by rewrite Permutation_middle.
  - unfold destroy in Hs. destruct (live m h) as [s|] eqn:Hl; [|simplify_eq; by rewrite app_nil_r].
    apply live_Some in Hl as [Hl _]. simplify_eq. simpl.
    destruct (pending_put m h (s <| destroyed := true |> <| waiters := [] |>))
      as (rest & Hp & _ & ->). rewrite (Hp s Hl), call_waiters_queued. unfold queued.
    simpl. by rewrite Permutation_app_comm.
Qed.

Lemma sem_run_invariant ops m acc calls m' :
  sem_ok m -> room m ops -> sem_run ops m = (acc, calls, m') ->
  sem_ok m' /\ pending m' ++ calls.*1 ≡ₚ acc ++ pending m.
Proof.
  revert m acc calls m'. induction ops as [|op ops IH]; intros m acc calls m' Hok Hroom Hr.
  { simpl in Hr. simplify_eq. by rewrite app_nil_r. }
  simpl in Hr. destruct (sem_step op m) as [[r c1] m1] eqn:Hs.
  destruct (sem_run ops m1) as [[acc1 c2] m2] eqn:Hr1. simplify_eq.
  destruct Hroom as [H0 Hb]. cbn [length] in Hb.
  destruct (sem_step_ok op m r c1 m1 Hok ltac:(lia) ltac:(lia) Hs) as [Hok1 Hnx].
  destruct (IH m1 acc1 c2 m' Hok1 ltac:(split; lia) Hr1) as [Hok2 Hp2].
  split; [done|]. rewrite fmap_app.
  pose proof (sem_step_conserves op m r c1 m1 Hok Hs) as Hp1.
  replace (match op with SWait _ _ cb _ => if r =? 0 then cb :: acc1 else acc1 | _ => acc1 end)
    with (accepted op r ++ acc1) by (destruct op; simpl; try done; by destruct (r =? 0)).
  rewrite (Permutation_app_comm c1.*1), app_assoc, Hp2, <- app_assoc, Hp1, app_assoc.
  by rewrite (Permutation_app_comm acc1), <- app_assoc.
Qed.

(** No waiter is lost and none is woken twice: after any sequence of
    creations, signals, waits and destructions the callbacks still queued
    together with the callbacks called are exactly the callbacks that were
    accepted (with multiplicity), and no queue is headed by a waiter whose
    threshold the semaphore has reached. *)
Theorem sem_waiters_conserved ops acc calls m' :
  1 + Z.of_nat (length ops) < 2 ^ 64 ->
  sem_run ops init_SemaphoreManager = (acc, calls, m') ->
  pending m' ++ calls.*1 ≡ₚ acc /\
  (forall h s w, semaphores m' !! h = Some s -> head (waiters s) = Some w ->
     sem_value s < expected w).
Proof.
  intros Hb Hr.
  destruct (sem_run_invariant ops init_SemaphoreManager acc calls m') as [Hok Hp];
    [apply sem_ok_init | split; simpl; lia | done |].
  split; [|apply (so_head m' Hok)]. rewrite Hp. unfold pending. simpl. by rewrite app_nil_r.
Qed.

Lemma sem_waiters_conserved_witness :
  let r := sem_run [SCreate 0; SWait 1 2 70 0; SWait 1 5 71 0; SSignal 1 3; SWait 1 1 72 0]
             init_SemaphoreManager in
  pending r.2 ++ r.1.2.*1 ≡ₚ r.1.1 /\
  (forall h s w, semaphores r.2 !! h = Some s -> head (waiters s) = Some w ->
     sem_value s < expected w).
Proof.
  intros r. apply (sem_waiters_conserved
    [SCreate 0; SWait 1 2 70 0; SWait 1 5 71 0; SSignal 1 3; SWait 1 1 72 0] r.1.1 r.1.2 r.2);
    by vm_compute.
Defined.

(** A waiter behind a higher threshold stays queued although its own value has
    been reached: the wake-up loop stops at the first waiter that is not ready. *)
Lemma sem_head_of_line_blocking :
  let r := sem_run [SCreate 0; SWait 1 10 70 0; SWait 1 2 71 0; SSignal 1 5]
             init_SemaphoreManager in
  r.1.2 = [] /\ pending r.2 = [70; 71] /\ query 1 r.2 = 5.
Proof. by vm_compute. Qed.

(** The value of a semaphore that stays live never decreases. *)
Lemma sem_step_monotone op m r calls m' h s :
  sem_ok m -> live m h = Some s -> sem_step op m = (r, calls, m') ->
  live m' h = None \/ exists s', live m' h = Some s' /\ sem_value s <= sem_value s'.
Proof.
  intros Hok Hl Hs. pose proof (live_fresh m h s Hok Hl) as Hlt.
  pose proof Hl as Hl'. apply live_Some in Hl' as [Hm Hd].
  assert (Hput : forall h' s' (m0 : SemaphoreManager), semaphores m0 = semaphores m ->
     (h' = h -> sem_value s <= sem_value s' \/ destroyed s' = true) ->
     live (put_sem h' s' m0) h = None \/
     exists s'', live (put_sem h' s' m0) h = Some s'' /\ sem_value s <= sem_value s'').
  { intros h' s' m0 Hm0 Hv. unfold live, put_sem. cbn. rewrite Hm0.
    destruct (decide (h' = h)) as [->|Hne].
    - rewrite lookup_insert_eq. destruct (destroyed s') eqn:E; [by left|right].
      destruct (Hv eq_refl) as [|]; [by exists s'|congruence].
    - rewrite lookup_insert_ne by done. rewrite Hm, Hd. right. by exists s. }
  assert (Hsame : live m h = None \/ exists s', live m h = Some s' /\ sem_value s <= sem_value s')
    by (right; by exists s).
  destruct op as [v|h' v|h' e cb ud|h']; simpl in Hs.
  - simplify_eq. apply Hput; [done|lia].
  - unfold signal in Hs. destruct (live m h') as [s'|] eqn:Hl'; [|by simplify_eq].
    destruct (Z.leb_spec v (sem_value s')); [by simplify_eq|].
    destruct (span _ _). simplify_eq. apply Hput; [done|]. intros ->. left.
    simplify_eq. simpl. lia.
  - unfold wait in Hs. destruct (live m h') as [s'|] eqn:Hl'; [|by simplify_eq].
    destruct (e <=? sem_value s'); simplify_eq; [done|]. apply Hput; [done|].
    intros ->. left. by simplify_eq.
  - unfold destroy in Hs. destruct (live m h') as [s'|] eqn:Hl'; [|by simplify_eq].
    simplify_eq. apply Hput; [done|]. intros ->. by right.
Qed.
