(* ===== verification/FenceId.v ===== *)
(** * Fence ids, the fence-to-semaphore bridge, and device-side launches

    [plugins/gpu_driver/sim/fence_id.cpp] and [sim/pdl.cpp].  The file-level
    counter, table and the global [g_fence_sem_mgr] are one state record. *)
From S2P Require Import Prelude Semaphore.

Definition SIM_FENCE_ID_BASE : Z := 2 ^ 32.
Definition SIM_FENCE_ID_MAX : Z := INT64_MAX.

Record fence_state := mk_fence_state {
  next_sim_fence_id : Z;
  sim_fence_table : gmap Z bool;
  g_fence_sem_mgr : option SemaphoreManager
}.
#[export] Instance eta_fence_state : Eta fence_state := fun s =>
  mk_fence_state (next_sim_fence_id s) (sim_fence_table s) (g_fence_sem_mgr s).
Definition init_fence (mgr : option SemaphoreManager) : fence_state :=
  mk_fence_state SIM_FENCE_ID_BASE ∅ mgr.

Definition fence_in_range (f : Z) : bool :=
  negb ((f <? SIM_FENCE_ID_BASE) || (SIM_FENCE_ID_MAX <? f)).

Definition sim_fence_id_alloc (s : fence_state) : Z * fence_state :=
  let id := next_sim_fence_id s in
  (s64 id, s <| next_sim_fence_id := u64 (id + 1) |> <| sim_fence_table ::= <[id := false]> |>).

Definition sim_fence_id_check (f : Z) (out : bool) (s : fence_state) : Z * option bool :=
  if negb out then (- EINVAL, None)
  else if negb (fence_in_range f) then (- EINVAL, None)
  else match sim_fence_table s !! f with
       | None => (0, Some false)
       | Some b => (0, Some b)
       end.

(** Returns the callbacks the bridged semaphore signal makes. *)
Definition sim_fence_id_signal (f : Z) (s : fence_state) : list (Z * Z) * fence_state :=
  let '(calls, s) :=
    match g_fence_sem_mgr s with
    | Some mgr => let '(_, calls, mgr) := signal f 1 mgr in
                  (calls, s <| g_fence_sem_mgr := Some mgr |>)
    | None => ([], s)
    end in
  if negb (fence_in_range f) then (calls, s)
  else (calls, s <| sim_fence_table ::= <[f := true]> |>).

Definition sim_fence_id_reset_for_test (s : fence_state) : fence_state :=
  s <| sim_fence_table := ∅ |> <| next_sim_fence_id := SIM_FENCE_ID_BASE |>.

(** ** [PdlLauncher::launch] *)
Definition pdl_launch (grid_x block_x : Z) (out : bool) (signal_handle : Z) (s : fence_state) :
    Z * option Z * Z * fence_state :=
  if (grid_x =? 0) || (block_x =? 0) then (- EINVAL, None, signal_handle, s)
  else if negb out then (- EINVAL, None, signal_handle, s)
  else match g_fence_sem_mgr s with
  | None => let h := u64 (signal_handle + 1) in (0, Some h, h, s)
  | Some mgr =>
      let '(h, mgr) := create 0 mgr in
      let s := s <| g_fence_sem_mgr := Some mgr |> in
      if h =? 0 then (- ENOMEM, None, signal_handle, s) else (0, Some h, h, s)
  end.

(** ** Sequences of fence operations *)
Inductive fence_op := FAlloc | FSignal (f : Z).
Definition fence_apply (op : fence_op) (s : fence_state) : fence_state :=
  match op with
  | FAlloc => (sim_fence_id_alloc s).2
  | FSignal f => (sim_fence_id_signal f s).2
  end.
Definition fence_run (ops : list fence_op) (s : fence_state) : fence_state :=
  fold_left (fun s op => fence_apply op s) ops s.
(** The sequence signals [f]. *)
Definition signals (f : Z) (ops : list fence_op) : bool :=
  existsb (fun op => match op with FSignal f' => f' =? f | FAlloc => false end) ops.
(** The ids a sequence allocates, in order. *)
Fixpoint fence_ids (ops : list fence_op) (s : fence_state) : list Z :=
  match ops with
  | [] => []
  | FAlloc :: ops' =>
      (sim_fence_id_alloc s).1 :: fence_ids ops' (fence_apply FAlloc s)
  | op :: ops' => fence_ids ops' (fence_apply op s)
  end.

Lemma signal_table f s :
  sim_fence_table (sim_fence_id_signal f s).2 =
    if fence_in_range f then <[f := true]> (sim_fence_table s) else sim_fence_table s.
Proof.
  unfold sim_fence_id_signal. destruct (g_fence_sem_mgr s) as [mgr|].
  - destruct (signal f 1 mgr) as [[r c] m]. by destruct (fence_in_range f).
  - by destruct (fence_in_range f).
Qed.
Lemma signal_next f s : next_sim_fence_id (sim_fence_id_signal f s).2 = next_sim_fence_id s.
Proof.
  unfold sim_fence_id_signal. destruct (g_fence_sem_mgr s) as [mgr|].
  - destruct (signal f 1 mgr) as [[r c] m]. by destruct (fence_in_range f).
  - by destruct (fence_in_range f).
Qed.

(** Room for [n] more allocations below [SIM_FENCE_ID_MAX]. *)
Definition fence_room (n : nat) (s : fence_state) : Prop :=
  SIM_FENCE_ID_BASE <= next_sim_fence_id s /\
  next_sim_fence_id s + Z.of_nat n <= SIM_FENCE_ID_MAX.

Lemma fence_apply_next op s :
  fence_room 1 s ->
  next_sim_fence_id s <= next_sim_fence_id (fence_apply op s) <= next_sim_fence_id s + 1.
Proof.
  intros [Hlo Hhi]. unfold SIM_FENCE_ID_BASE, SIM_FENCE_ID_MAX, INT64_MAX in *.
  destruct op as [|f]; [|simpl; rewrite signal_next; lia].
  cbn. rewrite u64_id by lia. lia.
Qed.

(** The status of an id below the counter after one more operation. *)
Lemma fence_apply_status op s f b :
  fence_room 1 s -> SIM_FENCE_ID_BASE <= f < next_sim_fence_id s ->
  sim_fence_table s !! f = Some b ->
  sim_fence_table (fence_apply op s) !! f = Some (b || signals f [op]).
Proof.
  intros [Hlo Hhi] Hf Hb. destruct op as [|f']; simpl.
  - rewrite orb_false_r, lookup_insert_ne by lia. done.
  - rewrite signal_table, orb_false_r. destruct (Z.eqb_spec f' f) as [->|Hne].
    + assert (fence_in_range f = true) as ->.
      { unfold fence_in_range. rewrite negb_true_iff, orb_false_iff. lia. }
      by rewrite lookup_insert_eq, orb_true_r.
    + rewrite orb_false_r. destruct (fence_in_range f'); [|done].
      by rewrite lookup_insert_ne.
Qed.

Lemma fence_run_status ops s f b :
  fence_room (length ops) s -> SIM_FENCE_ID_BASE <= f < next_sim_fence_id s ->
  sim_fence_table s !! f = Some b ->
  sim_fence_table (fence_run ops s) !! f = Some (b || signals f ops).
Proof.
  revert s b. induction ops as [|op ops IH]; intros s b [Hlo Hhi] Hf Hb.
  { simpl. by rewrite orb_false_r. }
  cbn [length] in Hhi. assert (H1 : fence_room 1 s) by (split; lia).
  pose proof (fence_apply_next op s H1).
  cbn [fence_run fold_left].
  change (fold_left _ ops ?x) with (fence_run ops x).
  rewrite (IH _ (b || signals f [op])); [| split; lia | lia | by apply fence_apply_status].
  f_equal. cbn [signals existsb]. by rewrite orb_false_r, orb_assoc.
Qed.

Lemma fence_ids_range ops s :
  fence_room (length ops) s -> Forall (fun i => next_sim_fence_id s <= i < 2 ^ 63) (fence_ids ops s).
Proof.
  revert s. induction ops as [|op ops IH]; intros s [Hlo Hhi]; [constructor|].
  cbn [length] in Hhi. assert (H1 : fence_room 1 s) by (split; lia).
  pose proof (fence_apply_next op s H1) as Hn.
  assert (Hr : fence_room (length ops) (fence_apply op s)) by (split; lia).
  specialize (IH _ Hr).
  unfold SIM_FENCE_ID_BASE, SIM_FENCE_ID_MAX, INT64_MAX in *.
  destruct op as [|f]; simpl.
  - constructor.
    + unfold s64. rewrite u64_id by lia. destruct (Z.ltb_spec (next_sim_fence_id s) (2 ^ 63)); lia.
    + eapply Forall_impl; [exact IH|]. simpl in *. intros; lia.
  - eapply Forall_impl; [exact IH|]. simpl in *. intros; lia.
Qed.

Lemma fence_ids_sorted ops s :
  fence_room (length ops) s -> StronglySorted Z.lt (fence_ids ops s).
Proof.
  revert s. induction ops as [|op ops IH]; intros s [Hlo Hhi]; [constructor|].
  cbn [length] in Hhi. assert (H1 : fence_room 1 s) by (split; lia).
  pose proof (fence_apply_next op s H1) as Hn.
  assert (Hr : fence_room (length ops) (fence_apply op s)) by (split; lia).
  specialize (IH _ Hr).
  destruct op as [|f]; simpl; [|exact IH]. constructor; [exact IH|].
  pose proof (fence_ids_range ops _ Hr) as Hf.
  unfold SIM_FENCE_ID_BASE, SIM_FENCE_ID_MAX, INT64_MAX in *.
  eapply Forall_impl; [exact Hf|]. intros i Hi. cbn in Hi.
  rewrite u64_id in Hi by lia. unfold s64. rewrite u64_id by lia.
  destruct (Z.ltb_spec (next_sim_fence_id s) (2 ^ 63)); lia.
Qed.

(** Fence ids are allocated in strictly increasing order inside
    [SIM_FENCE_ID_BASE, SIM_FENCE_ID_MAX], and a fence reads as signalled
    exactly when it has been signalled since its allocation: no operation on
    another fence, no later allocation and no second signal changes that. *)
Theorem fence_check_exact pre ops s :
  fence_room (length pre + 1 + length ops) s ->
  let s1 := fence_run pre s in
  let '(f, s2) := sim_fence_id_alloc s1 in
  StronglySorted Z.lt (fence_ids (pre ++ FAlloc :: ops) s) /\
  SIM_FENCE_ID_BASE <= f <= SIM_FENCE_ID_MAX /\
  sim_fence_id_check f true (fence_run ops s2) = (0, Some (signals f ops)).
Proof.
  intros Hroom s1.
  assert (Hrun : forall ops s, fence_room (length ops) s ->
    next_sim_fence_id s <= next_sim_fence_id (fence_run ops s) <=
      next_sim_fence_id s + Z.of_nat (length ops)).
  { clear. induction ops as [|op ops IH]; intros s [Hlo Hhi]; [simpl; lia|].
    cbn [length] in Hhi |- *. assert (H1 : fence_room 1 s) by (split; lia).
    pose proof (fence_apply_next op s H1). cbn [fence_run fold_left].
    change (fold_left _ ops ?x) with (fence_run ops x).
    specialize (IH (fence_apply op s) ltac:(split; lia)). lia. }
  destruct Hroom as [Hlo Hhi].
  pose proof (Hrun pre s ltac:(split; lia)) as Hn. fold s1 in Hn.
  assert (Hb : SIM_FENCE_ID_BASE <= next_sim_fence_id s1) by lia.
  assert (H63 : 0 <= next_sim_fence_id s1 < 2 ^ 63)
    by (unfold SIM_FENCE_ID_BASE, SIM_FENCE_ID_MAX, INT64_MAX in *; lia).
  unfold sim_fence_id_alloc. rewrite u64_id by lia.
  assert (s64 (next_sim_fence_id s1) = next_sim_fence_id s1) as ->.
  { unfold s64. rewrite u64_id by lia. destruct (Z.ltb_spec (next_sim_fence_id s1) (2 ^ 63)); lia. }
  split; [|split].
  - apply fence_ids_sorted. rewrite length_app. cbn [length]. split; lia.
  - lia.
  - unfold sim_fence_id_check. cbn [negb].
    assert (fence_in_range (next_sim_fence_id s1) = true) as ->.
    { unfold fence_in_range. rewrite negb_true_iff, orb_false_iff. lia. }
    cbn [negb]. rewrite (fence_run_status ops _ _ false); [done|..]; cbn.
    + split; cbn; lia.
    + lia.
    + apply lookup_insert_eq.
Qed.

Lemma fence_check_exact_witness :
  let s1 := fence_run [FAlloc; FSignal (2 ^ 32)] (init_fence None) in
  let '(f, s2) := sim_fence_id_alloc s1 in
  StronglySorted Z.lt (fence_ids ([FAlloc; FSignal (2 ^ 32)] ++ FAlloc :: [FSignal f]) (init_fence None)) /\
  SIM_FENCE_ID_BASE <= f <= SIM_FENCE_ID_MAX /\
  sim_fence_id_check f true (fence_run [FSignal f] s2) = (0, Some (signals f [FSignal f])).
Proof.
  apply (fence_check_exact [FAlloc; FSignal (2 ^ 32)] [FSignal (2 ^ 32 + 1)] (init_fence None)).
  by vm_compute.
Defined.

(** The bridge never reaches a semaphore: fence ids start at 2^32, handles
    at 1, so until 2^32 semaphores exist the bridged signal is refused. *)
Lemma fence_bridge_never_signals f s mgr :
  SIM_FENCE_ID_BASE <= f -> g_fence_sem_mgr s = Some mgr -> sem_ok mgr ->
  next_handle mgr <= SIM_FENCE_ID_BASE ->
  (sim_fence_id_signal f s).1 = [] /\ g_fence_sem_mgr (sim_fence_id_signal f s).2 = Some mgr.
Proof.
  intros Hf Hm Hok Hn. unfold sim_fence_id_signal. rewrite Hm.
  assert (signal f 1 mgr = (- EINVAL, [], mgr)) as ->.
  { unfold signal, live. by rewrite (so_fresh mgr Hok) by lia. }
  by destruct (fence_in_range f).
Qed.
