(* ===== verification/StreamCapture.v ===== *)
(** * Stream capture

    [plugins/gpu_driver/sim/stream_capture.cpp]: the per-stream capture state
    machine and its graph-handle counter. *)
From S2P Require Import Prelude.

Inductive sim_stream_capture_status_t :=
| SIM_STREAM_CAPTURE_NONE
| SIM_STREAM_CAPTURE_ACTIVE
| SIM_STREAM_CAPTURE_INVALID.
#[export] Instance capture_status_eq_dec : EqDecision sim_stream_capture_status_t.
Proof. solve_decision. Defined.

Record capture_state := mk_capture_state {
  stream_capture_table : gmap Z sim_stream_capture_status_t;
  cap_next_graph_handle : Z
}.
#[export] Instance eta_capture_state : Eta capture_state := fun s =>
  mk_capture_state (stream_capture_table s) (cap_next_graph_handle s).
Definition init_capture : capture_state := mk_capture_state ∅ 1.

Definition SIM_CAPTURE_MODE_GLOBAL : Z := 0.
Definition is_valid_mode (mode : Z) : bool := mode =? SIM_CAPTURE_MODE_GLOBAL.

Definition capture_of (id : Z) (s : capture_state) : sim_stream_capture_status_t :=
  default SIM_STREAM_CAPTURE_NONE (stream_capture_table s !! id).
Definition set_capture (id : Z) (st : sim_stream_capture_status_t) (s : capture_state) :
    capture_state := s <| stream_capture_table ::= <[id := st]> |>.

(** [operator[]] creates the entry of an unknown stream. *)
Definition sim_stream_capture_begin (id mode : Z) (s : capture_state) : Z * capture_state :=
  if negb (is_valid_mode mode) then (- EINVAL, s)
  else match capture_of id s with
  | SIM_STREAM_CAPTURE_NONE => (0, set_capture id SIM_STREAM_CAPTURE_ACTIVE s)
  | SIM_STREAM_CAPTURE_ACTIVE => (- EINVAL, set_capture id SIM_STREAM_CAPTURE_INVALID s)
  | SIM_STREAM_CAPTURE_INVALID => (- EINVAL, s)
  end.

Definition sim_stream_capture_end (id : Z) (out : bool) (s : capture_state) :
    Z * option Z * capture_state :=
  if negb out then (- EINVAL, None, s)
  else match stream_capture_table s !! id with
  | Some SIM_STREAM_CAPTURE_ACTIVE =>
      let h := cap_next_graph_handle s in
      (0, Some h, set_capture id SIM_STREAM_CAPTURE_NONE
                    (s <| cap_next_graph_handle := u64 (h + 1) |>))
  | _ => (- EINVAL, None, s)
  end.

Definition sim_stream_capture_status (id : Z) (out : bool) (s : capture_state) :
    Z * option sim_stream_capture_status_t :=
  if negb out then (- EINVAL, None) else (0, Some (capture_of id s)).

Definition sim_stream_capture_reset_for_test (s : capture_state) : capture_state :=
  init_capture.

(** ** Traces *)
Inductive cap_op := CBegin (id mode : Z) | CEnd (id : Z).
Definition cap_step (op : cap_op) (s : capture_state) : Z * capture_state :=
  match op with
  | CBegin id mode => sim_stream_capture_begin id mode s
  | CEnd id => let '(r, _, s) := sim_stream_capture_end id true s in (r, s)
  end.
Definition cap_id (op : cap_op) : Z := match op with CBegin id _ | CEnd id => id end.

(** The results of a sequence of calls. *)
Fixpoint cap_run (ops : list cap_op) (s : capture_state) : list Z * capture_state :=
  match ops with
  | [] => ([], s)
  | op :: ops' =>
      let '(r, s) := cap_step op s in
      let '(rs, s) := cap_run ops' s in (r :: rs, s)
  end.

(** The state machine of one stream, alone. *)
Definition cap_abs (op : cap_op) (st : sim_stream_capture_status_t) :
    Z * sim_stream_capture_status_t :=
  match op, st with
  | CBegin _ mode, _ =>
      if is_valid_mode mode then
        match st with
        | SIM_STREAM_CAPTURE_NONE => (0, SIM_STREAM_CAPTURE_ACTIVE)
        | _ => (- EINVAL, SIM_STREAM_CAPTURE_INVALID)
        end
      else (- EINVAL, st)
  | CEnd _, SIM_STREAM_CAPTURE_ACTIVE => (0, SIM_STREAM_CAPTURE_NONE)
  | CEnd _, _ => (- EINVAL, st)
  end.
Fixpoint cap_abs_run (ops : list cap_op) (st : sim_stream_capture_status_t) :
    list Z * sim_stream_capture_status_t :=
  match ops with
  | [] => ([], st)
  | op :: ops' =>
      let '(r, st) := cap_abs op st in
      let '(rs, st) := cap_abs_run ops' st in (r :: rs, st)
  end.

Lemma cap_step_abs op s :
  cap_abs op (capture_of (cap_id op) s) =
    ((cap_step op s).1, capture_of (cap_id op) (cap_step op s).2).
Proof.
  unfold capture_of. destruct op as [id mode|id]; simpl.
  - unfold sim_stream_capture_begin, capture_of. destruct (is_valid_mode mode); [|done].
    simpl. destruct (stream_capture_table s !! id) as [[]|] eqn:E; simpl;
      rewrite ?lookup_insert_eq, ?E; done.
  - unfold sim_stream_capture_end. simpl.
    destruct (stream_capture_table s !! id) as [[]|] eqn:E; simpl;
      rewrite ?lookup_insert_eq, ?E; done.
Qed.

Lemma cap_step_other op s id :
  id <> cap_id op -> capture_of id (cap_step op s).2 = capture_of id s.
Proof.
  intros Hne. unfold capture_of. destruct op as [id' mode|id']; simpl in *.
  - unfold sim_stream_capture_begin. destruct (is_valid_mode mode); [|done]. simpl.
    destruct (capture_of id' s); simpl; by rewrite ?lookup_insert_ne.
  - unfold sim_stream_capture_end. simpl.
    destruct (stream_capture_table s !! id') as [[]|]; simpl; by rewrite ?lookup_insert_ne.
Qed.

(** The results of the calls on stream [id] in a trace. *)
Definition results_of (id : Z) (ops : list cap_op) (rs : list Z) : list Z :=
  omap (fun p : cap_op * Z => if cap_id p.1 =? id then Some p.2 else None) (zip ops rs).
Definition ops_of (id : Z) (ops : list cap_op) : list cap_op :=
  List.filter (fun op => cap_id op =? id) ops.

Lemma results_of_cons id op ops r rs :
  results_of id (op :: ops) (r :: rs) =
    if cap_id op =? id then r :: results_of id ops rs else results_of id ops rs.
Proof. unfold results_of. simpl. by destruct (cap_id op =? id). Qed.
#[local] Opaque results_of.

(** Streams do not interfere: in any interleaving of capture calls, the
    results a stream sees and the status it ends in are those of its own
    three-state machine run on its own calls. *)
Theorem capture_streams_independent id ops s :
  let '(rs, s') := cap_run ops s in
  cap_abs_run (ops_of id ops) (capture_of id s) = (results_of id ops rs, capture_of id s').
Proof.
  revert s. induction ops as [|op ops IH]; intros s; [done|]. simpl.
  destruct (cap_step op s) as [r s1] eqn:Hs.
  specialize (IH s1). destruct (cap_run ops s1) as [rs s2]. rewrite results_of_cons.
  pose proof (cap_step_abs op s) as Ha. rewrite Hs in Ha. simpl in Ha.
  destruct (Z.eqb_spec (cap_id op) id) as [<-|Hne]; simpl.
  - by rewrite Ha, IH.
  - pose proof (cap_step_other op s id ltac:(done)) as Ho. rewrite Hs in Ho. simpl in Ho.
    by rewrite <- Ho, IH.
Qed.

(** After a double begin the stream stays INVALID: every later call fails. *)
Lemma capture_invalid_sticky ops :
  cap_abs_run ops SIM_STREAM_CAPTURE_INVALID =
    (replicate (length ops) (- EINVAL), SIM_STREAM_CAPTURE_INVALID).
Proof.
  induction ops as [|op ops IH]; [done|].
  simpl. destruct op as [id mode|id]; simpl; [destruct (is_valid_mode mode)|]; by rewrite IH.
Qed.

(** A double begin is fatal for the stream: once [begin] has been called
    while capturing, no later call on that stream ever succeeds, whatever the
    other streams do, and its status stays INVALID. *)
Theorem capture_double_begin_fatal id ops s :
  capture_of id s = SIM_STREAM_CAPTURE_ACTIVE ->
  let '(r, s1) := sim_stream_capture_begin id SIM_CAPTURE_MODE_GLOBAL s in
  let '(rs, s2) := cap_run ops s1 in
  r = - EINVAL /\
  results_of id ops rs = replicate (length (ops_of id ops)) (- EINVAL) /\
  sim_stream_capture_status id true s2 = (0, Some SIM_STREAM_CAPTURE_INVALID).
Proof.
  intros Ha. unfold sim_stream_capture_begin. simpl. rewrite Ha.
  set (s1 := set_capture _ _ _).
  assert (Hgen : forall ops s, capture_of id s = SIM_STREAM_CAPTURE_INVALID ->
    results_of id ops (cap_run ops s).1 = replicate (length (ops_of id ops)) (- EINVAL) /\
    capture_of id (cap_run ops s).2 = SIM_STREAM_CAPTURE_INVALID).
  { clear. induction ops as [|op ops IH]; intros s Hs; [done|]. simpl.
    destruct (cap_step op s) as [r s1] eqn:E.
    assert (Hr : capture_of id s1 = SIM_STREAM_CAPTURE_INVALID /\
                 (cap_id op = id -> r = - EINVAL)).
    { destruct (decide (cap_id op = id)) as [<-|Hne].
      - pose proof (cap_step_abs op s) as Hb. rewrite E, Hs in Hb.
        destruct op as [i m|i]; simpl in *; [destruct (is_valid_mode m)|]; by simplify_eq/=.
      - pose proof (cap_step_other op s id ltac:(done)) as Ho. rewrite E in Ho. simpl in Ho.
        split; [congruence|done]. }
    destruct Hr as [Hs1 Hr]. specialize (IH s1 Hs1).
    destruct (cap_run ops s1) as [rs s2]. simpl in IH |- *. destruct IH as [IH1 IH2].
    rewrite results_of_cons. destruct (Z.eqb_spec (cap_id op) id); simpl; [|done].
    by rewrite IH1, Hr. }
  specialize (Hgen ops s1). destruct (cap_run ops s1) as [rs s2].
  destruct Hgen as [H1 H2].
  { unfold s1, capture_of. simpl. by rewrite lookup_insert_eq. }
  unfold sim_stream_capture_status. simpl in *. by rewrite H2.
Qed.

Lemma capture_double_begin_fatal_witness :
  let s := (cap_run [CBegin 3 0] init_capture).2 in
  let '(r, s1) := sim_stream_capture_begin 3 SIM_CAPTURE_MODE_GLOBAL s in
  let '(rs, s2) := cap_run [CEnd 3; CBegin 4 0; CBegin 3 0; CEnd 4] s1 in
  r = - EINVAL /\
  results_of 3 [CEnd 3; CBegin 4 0; CBegin 3 0; CEnd 4] rs =
    replicate (length (ops_of 3 [CEnd 3; CBegin 4 0; CBegin 3 0; CEnd 4])) (- EINVAL) /\
  sim_stream_capture_status 3 true s2 = (0, Some SIM_STREAM_CAPTURE_INVALID).
Proof.
  intros s. apply (capture_double_begin_fatal 3 [CEnd 3; CBegin 4 0; CBegin 3 0; CEnd 4] s).
  by vm_compute.
Defined.
