(* ===== verification/Scheduler.v ===== *)
(** * Global scheduler

    [plugins/gpu_driver/sim/scheduler/global_scheduler.{h,cpp}].  The
    [std::multiset] is the list of its elements in iteration order. *)
From S2P Require Import Prelude GpuTypes Translator FenceId.

(** [enum class EngineType] *)
Inductive EngineType := COMPUTE | COPY | FIRMWARE.
#[export] Instance EngineType_eq_dec : EqDecision EngineType.
Proof. solve_decision. Defined.
Definition engine_index (e : EngineType) : Z :=
  match e with COMPUTE => 0 | COPY => 1 | FIRMWARE => 2 end.

(** [user_data] is always null. *)
Record WorkItem := mk_WorkItem {
  w_entry : gpu_gpfifo_entry;
  w_engine : EngineType;
  w_priority : Z;
  w_original_priority : Z;
  w_channel_id : Z;
  w_sequence_id : Z
}.
#[export] Instance eta_WorkItem : Eta WorkItem := fun w =>
  mk_WorkItem (w_entry w) (w_engine w) (w_priority w) (w_original_priority w)
    (w_channel_id w) (w_sequence_id w).

(** [CompareByPriority] *)
Definition before (a b : WorkItem) : bool :=
  if w_priority a =? w_priority b then w_sequence_id a <? w_sequence_id b
  else w_priority b <? w_priority a.

(** [starvation_cycle_counter_] is an [int]: it counts modulo 2^32, as compiled
    code does (the overflow is undefined in C++); the theorems stay below 2^31. *)
Record GlobalScheduler := mk_GlobalScheduler {
  translator : Translator;
  dispatch_fn : bool;
  queue : list WorkItem;
  sequence_counter : Z;
  starvation_cycle_counter : Z;
  inherited_priorities : gmap Z Z;
  engine_pullers : gmap Z Z;
  engine_fence_counters : gmap Z Z
}.
#[export] Instance eta_GlobalScheduler : Eta GlobalScheduler := fun s =>
  mk_GlobalScheduler (translator s) (dispatch_fn s) (queue s) (sequence_counter s)
    (starvation_cycle_counter s) (inherited_priorities s) (engine_pullers s)
    (engine_fence_counters s).
Definition init_scheduler : GlobalScheduler :=
  mk_GlobalScheduler init_translator false [] 0 0 ∅ ∅ ∅.

Definition kStarvationThreshold : Z := 10.

(** [multiset::insert]: at the upper end of the equal range. *)
Fixpoint ms_insert (w : WorkItem) (q : list WorkItem) : list WorkItem :=
  match q with
  | [] => [w]
  | x :: q' => if before w x then w :: q else x :: ms_insert w q'
  end.

Definition setDispatchCallback (s : GlobalScheduler) : GlobalScheduler :=
  s <| dispatch_fn := true |>.

(** The priority an item gets: the channel's inherited one when higher. *)
Definition effective_priority (s : GlobalScheduler) (priority channel : Z) : Z :=
  match inherited_priorities s !! channel with
  | Some p => if priority <? p then p else priority
  | None => priority
  end.

Definition enqueue_with_priority (e : gpu_gpfifo_entry) (eng : EngineType)
    (priority channel : Z) (s : GlobalScheduler) : list tr_event * GlobalScheduler :=
  let '(_, evs, t) := translate e (translator s) in
  let item := mk_WorkItem e eng (effective_priority s priority channel) priority channel
                (sequence_counter s) in
  (evs, s <| translator := t |> <| sequence_counter ::= fun n => u64 (n + 1) |>
          <| queue ::= ms_insert item |>).

Definition enqueue (e : gpu_gpfifo_entry) (eng : EngineType) (s : GlobalScheduler) :
    list tr_event * GlobalScheduler :=
  enqueue_with_priority e eng GPU_CHAN_PRI_NORMAL (-1) s.

Definition should_force_low_priority (w : WorkItem) : bool :=
  w_priority w <=? GPU_CHAN_PRI_NORMAL.

(** The scan for the candidate with the least sequence id: its position. *)
Fixpoint oldest_low (i : nat) (best : option (nat * WorkItem)) (q : list WorkItem) :
    option (nat * WorkItem) :=
  match q with
  | [] => best
  | x :: q' =>
      let best :=
        if should_force_low_priority x then
          match best with
          | None => Some (i, x)
          | Some (j, b) => if w_sequence_id x <? w_sequence_id b then Some (i, x) else Some (j, b)
          end
        else best in
      oldest_low (S i) best q'
  end.
Definition extract_oldest_low_or_normal (s : GlobalScheduler) :
    option WorkItem * GlobalScheduler :=
  match oldest_low 0 None (queue s) with
  | Some (i, w) => (Some w, s <| queue ::= delete i |>)
  | None => (None, s)
  end.

(** [queue_.begin()] of the non-forced path. *)
Definition dequeue_front (s : GlobalScheduler) : option WorkItem * GlobalScheduler :=
  match queue s with
  | [] => (None, s)
  | w :: q =>
      (Some w, s <| queue := q |>
                 <| starvation_cycle_counter ::=
                      fun c => if w_priority w <=? GPU_CHAN_PRI_NORMAL then 0 else s32 (c + 1) |>)
  end.

Definition dequeue (s : GlobalScheduler) : option WorkItem * GlobalScheduler :=
  match queue s with
  | [] => (None, s)
  | _ :: _ =>
      if kStarvationThreshold <=? starvation_cycle_counter s then
        match extract_oldest_low_or_normal s with
        | (Some w, s') =>
            if w_sequence_id w =? UINT64_MAX then dequeue_front s'
            else (Some w, s' <| starvation_cycle_counter := 0 |>)
        | (None, s') => dequeue_front s'
        end
      else dequeue_front s
  end.

Definition queueSize (s : GlobalScheduler) : Z := Z.of_nat (length (queue s)).

Definition flush (s : GlobalScheduler) : GlobalScheduler :=
  s <| queue := [] |> <| starvation_cycle_counter := 0 |> <| inherited_priorities := ∅ |>.

Definition selectEngine (e : gpu_gpfifo_entry) : EngineType :=
  if (method e =? GPU_OP_LAUNCH_KERNEL) || (method e =? GPU_OP_LAUNCH_CPU_TASK) then COMPUTE
  else if (method e =? GPU_OP_MEMCPY) || (method e =? GPU_OP_MEMSET) || (method e =? GPU_OP_FENCE)
  then COPY
  else COMPUTE.

(** Erase the items satisfying [p], then insert them updated by [f], in
    iteration order. *)
Definition reinsert (p : WorkItem -> bool) (f : WorkItem -> WorkItem) (q : list WorkItem) :
    list WorkItem :=
  let '(hit, keep) := split_by p q in
  fold_left (fun q w => ms_insert (f w) q) hit keep.

Definition boost_priority (channel boosted : Z) (s : GlobalScheduler) : GlobalScheduler :=
  s <| inherited_priorities ::= <[channel := boosted]> |>
    <| queue ::= reinsert (fun w => (w_channel_id w =? channel) && (w_priority w <? boosted))
                   (fun w => w <| w_priority := boosted |>) |>.

Definition restore_queue (channel : Z) : list WorkItem -> list WorkItem :=
  reinsert
    (fun w => (w_channel_id w =? channel) && negb (w_priority w =? w_original_priority w))
    (fun w => w <| w_priority := w_original_priority w |>).
Definition restore_priority (channel : Z) (s : GlobalScheduler) : GlobalScheduler :=
  s <| inherited_priorities ::= delete channel |> <| queue ::= restore_queue channel |>.

Definition has_inherited_priority (channel : Z) (s : GlobalScheduler) : bool :=
  bool_decide (is_Some (inherited_priorities s !! channel)).

Definition registerPullerForEngine (e : EngineType) (puller : Z) (s : GlobalScheduler) :
    GlobalScheduler := s <| engine_pullers ::= <[engine_index e := puller]> |>.
Definition getPullerForEngine (e : EngineType) (s : GlobalScheduler) : option Z :=
  engine_pullers s !! engine_index e.

Definition engine_fence_base (e : EngineType) : Z :=
  SIM_FENCE_ID_BASE + engine_index e * (SIM_FENCE_ID_MAX / 3).
Definition allocFenceId (e : EngineType) (s : GlobalScheduler) : Z * GlobalScheduler :=
  let n := default 0 (engine_fence_counters s !! engine_index e) in
  (u64 (engine_fence_base e + n),
   s <| engine_fence_counters ::= <[engine_index e := u64 (n + 1)]> |>).

(** ** The queue order *)
Definition ordered : list WorkItem -> Prop := StronglySorted (fun a b => before a b = true).
Definition seqs (q : list WorkItem) : list Z := w_sequence_id <$> q.

Lemma before_true a b :
  before a b = true <->
    w_priority b < w_priority a \/
    (w_priority a = w_priority b /\ w_sequence_id a < w_sequence_id b).
Proof. unfold before. destruct (Z.eqb_spec (w_priority a) (w_priority b)); lia. Qed.
#[export] Instance before_trans : Transitive (fun a b => before a b = true).
Proof. intros a b c. rewrite !before_true. lia. Qed.
#[export] Instance before_anti : AntiSymm (=) (fun a b => before a b = true).
Proof. intros a b. rewrite !before_true. lia. Qed.
Lemma before_total a b :
  w_sequence_id a <> w_sequence_id b -> before a b = false -> before b a = true.
Proof. intros Hne. rewrite <- not_true_iff_false, !before_true. lia. Qed.

Lemma ms_insert_perm w q : ms_insert w q ≡ₚ w :: q.
Proof.
  induction q as [|x q IH]; simpl; [done|]. destruct (before w x); [done|].
  rewrite IH. apply Permutation_swap.
Qed.

Lemma ms_insert_ordered w q :
  ordered q -> w_sequence_id w ∉ seqs q -> ordered (ms_insert w q).
Proof.
  induction 1 as [|x q Hq IH Hx]; intros Hn; simpl; [by repeat constructor|].
  unfold seqs in Hn. rewrite fmap_cons, not_elem_of_cons in Hn. destruct Hn as [Hne Hn].
  destruct (before w x) eqn:E.
  - constructor; [by constructor|]. constructor; [done|].
    eapply Forall_impl; [exact Hx|]. intros y Hy. by apply (before_trans w x y).
  - constructor; [by apply IH|]. rewrite ms_insert_perm. constructor; [|done].
    by apply before_total.
Qed.

Record sched_ok (s : GlobalScheduler) : Prop := {
  sk_ordered : ordered (queue s);
  sk_unique : NoDup (seqs (queue s));
  sk_bound : Forall (fun w => 0 <= w_sequence_id w < sequence_counter s) (queue s);
  sk_counter : 0 <= sequence_counter s <= UINT64_MAX;
  sk_starve : 0 <= starvation_cycle_counter s < 2 ^ 31
}.
(** Room for [n] more calls in the two counters. *)
Definition sched_room (n : nat) (s : GlobalScheduler) : Prop :=
  sequence_counter s + Z.of_nat n <= UINT64_MAX /\ starvation_cycle_counter s + Z.of_nat n < 2 ^ 31.

Lemma sched_ok_init : sched_ok init_scheduler.
Proof. split; simpl; try constructor; unfold UINT64_MAX; lia. Qed.

Lemma seqs_perm q q' : q ≡ₚ q' -> seqs q ≡ₚ seqs q'.
Proof. apply fmap_Permutation. Qed.

(** Any reordering that keeps the sequence ids of a well-formed queue can be
    re-sorted in exactly one way. *)
Lemma ordered_unique q q' : ordered q -> ordered q' -> q ≡ₚ q' -> q = q'.
Proof. intros H1 H2 Hp. by eapply (StronglySorted_unique _). Qed.

Lemma fold_insert_spec f hit q :
  (forall w, w_sequence_id (f w) = w_sequence_id w) ->
  NoDup (seqs (hit ++ q)) -> ordered q ->
  ordered (fold_left (fun q w => ms_insert (f w) q) hit q) /\
  fold_left (fun q w => ms_insert (f w) q) hit q ≡ₚ (f <$> hit) ++ q.
Proof.
  intros Hf. revert q. induction hit as [|w hit IH]; intros q Hn Hq; simpl; [done|].
  simpl in Hn. apply NoDup_cons in Hn as [Hw Hn]. unfold seqs in Hw, Hn.
  rewrite fmap_app in Hw, Hn. rewrite not_elem_of_app in Hw.
  destruct (IH (ms_insert (f w) q)) as [H1 H2].
  - unfold seqs. rewrite fmap_app, (fmap_Permutation _ _ _ (ms_insert_perm (f w) q)).
    cbn. rewrite Hf, <- Permutation_middle. apply NoDup_cons.
    by rewrite not_elem_of_app.
  - apply ms_insert_ordered; [done|]. rewrite Hf. apply Hw.
  - split; [done|]. rewrite H2, ms_insert_perm. by rewrite <- Permutation_middle.
Qed.

Lemma split_by_ordered p q : ordered q -> ordered (split_by p q).2.
Proof.
  induction 1 as [|x q Hq IH Hx]; simpl; [constructor|].
  destruct (negb (p x)); [|done]. constructor; [done|].
  rewrite Forall_forall in Hx |- *. intros y Hy. apply filter_In_iff in Hy as [Hy _].
  by apply Hx.
Qed.

Lemma reinsert_spec p f q :
  (forall w, w_sequence_id (f w) = w_sequence_id w) -> ordered q -> NoDup (seqs q) ->
  ordered (reinsert p f q) /\
  reinsert p f q ≡ₚ (fun w => if p w then f w else w) <$> q.
Proof.
  intros Hf Hq Hn. unfold reinsert.
  pose proof (split_by_perm p q) as Hp. pose proof (split_by_ordered p q Hq) as Ho.
  unfold split_by in *. simpl in *.
  destruct (fold_insert_spec f (List.filter p q) (List.filter (fun x => negb (p x)) q)) as [H1 H2];
    [done|by rewrite (seqs_perm _ _ Hp)|done|].
  split; [done|]. rewrite H2. clear. induction q as [|x q IH]; simpl; [done|].
  destruct (p x); simpl; rewrite <- IH; [done|]. by rewrite Permutation_middle.
Qed.

Lemma reinsert_ok p f s s' :
  (forall w, w_sequence_id (f w) = w_sequence_id w) -> sched_ok s ->
  queue s' = reinsert p f (queue s) -> sequence_counter s' = sequence_counter s ->
  starvation_cycle_counter s' = starvation_cycle_counter s -> sched_ok s'.
Proof.
  intros Hf [Ho Hn Hb Hc Hst] Hq Hsc Hsv. destruct (reinsert_spec p f (queue s) Hf Ho Hn) as [H1 H2].
  split; rewrite ?Hq, ?Hsc, ?Hsv; try done.
  - rewrite (seqs_perm _ _ H2). unfold seqs. rewrite <- list_fmap_compose.
    rewrite (list_fmap_ext _ w_sequence_id); [done|]. intros i w _. simpl.
    destruct (p w); rewrite ?Hf; done.
  - rewrite H2, Forall_fmap. eapply Forall_impl; [exact Hb|]. intros w Hw. simpl.
    destruct (p w); rewrite ?Hf; done.
Qed.

Lemma boost_ok ch p s : sched_ok s -> sched_ok (boost_priority ch p s).
Proof. intros H. eapply reinsert_ok; [|exact H|reflexivity..]. done. Qed.
Lemma restore_ok ch s : sched_ok s -> sched_ok (restore_priority ch s).
Proof. intros H. eapply reinsert_ok; [|exact H|reflexivity..]. done. Qed.

Lemma enqueue_ok e eng p ch s :
  sched_ok s -> sequence_counter s < UINT64_MAX ->
  sched_ok (enqueue_with_priority e eng p ch s).2.
Proof.
  intros [Ho Hn Hb Hc Hst] Hlt. unfold enqueue_with_priority.
  destruct (translate e (translator s)) as [[b evs] t].
  assert (Hu : u64 (sequence_counter s + 1) = sequence_counter s + 1)
    by (apply u64_id; unfold UINT64_MAX in *; lia).
  set (w := mk_WorkItem _ _ _ _ _ _).
  assert (Hw : w_sequence_id w ∉ seqs (queue s)).
  { unfold seqs. rewrite list_elem_of_fmap. intros (x & Hx & Hin).
    rewrite Forall_forall in Hb. specialize (Hb x Hin). simpl in Hx. lia. }
  split; cbn -[u64]; rewrite ?Hu.
  - by apply ms_insert_ordered.
  - rewrite (seqs_perm _ _ (ms_insert_perm w _)). by apply NoDup_cons.
  - rewrite ms_insert_perm. constructor; [simpl; lia|].
    eapply Forall_impl; [exact Hb|]. simpl. lia.
  - unfold UINT64_MAX in *. lia.
  - done.
Qed.

(** ** Dequeue *)
Lemma oldest_low_spec i best q :
  (forall j b, best = Some (j, b) -> should_force_low_priority b = true) ->
  match oldest_low i best q with
  | None => best = None /\ Forall (fun x => should_force_low_priority x = false) q
  | Some (j, w) =>
      should_force_low_priority w = true /\
      (best = Some (j, w) \/ ((i <= j)%nat /\ q !! (j - i)%nat = Some w)) /\
      (forall jb b, best = Some (jb, b) -> w_sequence_id w <= w_sequence_id b) /\
      Forall (fun x => should_force_low_priority x = true ->
                       w_sequence_id w <= w_sequence_id x) q
  end.
Proof.
  revert i best. induction q as [|x q IH]; intros i best Hb; simpl.
  - destruct best as [[j w]|]; [|done]. split; [by eapply Hb|]. split; [by left|].
    split; [intros; by simplify_eq|constructor].
  - set (best' := if should_force_low_priority x then _ else best).
    assert (Hx : forall j b, best' = Some (j, b) -> should_force_low_priority b = true).
    { intros j b. unfold best'. destruct (should_force_low_priority x) eqn:E; [|apply Hb].
      destruct best as [[j0 b0]|]; [|by intros; simplify_eq].
      destruct (_ <? _); intros; simplify_eq; [done|by eapply Hb]. }
    specialize (IH (S i) best' Hx). destruct (oldest_low (S i) best' q) as [[j w]|].
    + destruct IH as (Hw & Hsel & Hle & Hall). split; [done|].
      assert (Hbb : forall jb b, best = Some (jb, b) -> w_sequence_id w <= w_sequence_id b).
      { intros jb b ->. unfold best' in Hle. destruct (should_force_low_priority x); [|by eapply Hle].
        destruct (Z.ltb_spec (w_sequence_id x) (w_sequence_id b)).
        - specialize (Hle i x eq_refl). lia.
        - by eapply Hle. }
      assert (Hxx : should_force_low_priority x = true -> w_sequence_id w <= w_sequence_id x).
      { intros E. unfold best' in Hle. rewrite E in Hle. destruct best as [[j0 b0]|].
        - destruct (Z.ltb_spec (w_sequence_id x) (w_sequence_id b0)); [by eapply Hle|].
          specialize (Hle j0 b0 eq_refl). lia.
        - by eapply Hle. }
      split; [|split; [done|by constructor]].
      destruct Hsel as [Hsel|[Hij Hq]].
      * unfold best' in Hsel. destruct (should_force_low_priority x); [|by left].
        destruct best as [[j0 b0]|]; [destruct (_ <? _)|]; simplify_eq; try by left.
        all: right; split; [lia|]; by rewrite Nat.sub_diag.
      * right. split; [lia|]. replace (j - i)%nat with (S (j - S i)) by lia. done.
    + destruct IH as [IH1 IH2]. unfold best' in IH1.
      destruct (should_force_low_priority x) eqn:E.
      * destruct best as [[j0 b0]|]; [destruct (_ <? _)|]; done.
      * split; [done|]. by constructor.
Qed.

(** The item [dequeue] must pick when [n] items above NORMAL priority have been
    served in a row: the oldest of the low ones when they have waited long
    enough, else the most urgent, oldest first. *)
Definition must_pick (n : Z) (s : GlobalScheduler) (w : WorkItem) : Prop :=
  w ∈ queue s /\
  if (kStarvationThreshold <=? n) &&
     existsb should_force_low_priority (queue s)
  then should_force_low_priority w = true /\
       Forall (fun x => should_force_low_priority x = true ->
                        w_sequence_id w <= w_sequence_id x) (queue s)
  else Forall (fun x => x = w \/ before w x = true) (queue s).

Lemma existsb_false_Forall (p : WorkItem -> bool) q :
  existsb p q = false <-> Forall (fun x => p x = false) q.
Proof.
  induction q as [|x q IH]; simpl; [by split|].
  rewrite orb_false_iff, IH. split; [intros []; by constructor|by inversion 1].
Qed.

Lemma dequeue_front_spec s w s' :
  sched_ok s -> dequeue_front s = (Some w, s') ->
  queue s = w :: queue s' /\ Forall (fun x => before w x = true) (queue s') /\
  starvation_cycle_counter s' =
    (if should_force_low_priority w then 0 else s32 (starvation_cycle_counter s + 1)) /\
  sequence_counter s' = sequence_counter s.
Proof.
  intros [Ho _ _ _ _] Hd. unfold dequeue_front in Hd.
  destruct (queue s) as [|x q] eqn:E; simplify_eq. inversion Ho; subst. simpl. done.
Qed.

Lemma sched_ok_remove s s' w :
  sched_ok s -> ordered (queue s') -> queue s ≡ₚ w :: queue s' ->
  sequence_counter s' = sequence_counter s -> 0 <= starvation_cycle_counter s' < 2 ^ 31 -> sched_ok s'.
Proof.
  intros [Ho Hn Hb Hc _] Hso Hp Hsc Hst. rewrite (seqs_perm _ _ Hp) in Hn. rewrite Hp in Hb.
  inversion Hn; inversion Hb; subst. split; rewrite ?Hsc; done.
Qed.

Lemma ordered_delete i q : ordered q -> ordered (delete i q).
Proof.
  intros H. revert i. induction H as [|x q Hq IH Hx]; intros [|i]; simpl; try constructor; try done.
  - apply IH.
  - rewrite Forall_forall in Hx |- *. intros y Hy. apply Hx.
    by eapply list_elem_of_delete_inv.
Qed.

Lemma dequeue_spec s w s' :
  sched_ok s -> starvation_cycle_counter s + 1 < 2 ^ 31 -> dequeue s = (Some w, s') ->
  must_pick (starvation_cycle_counter s) s w /\ queue s ≡ₚ w :: queue s' /\ sched_ok s' /\
  starvation_cycle_counter s' =
    (if should_force_low_priority w then 0 else starvation_cycle_counter s + 1).
Proof.
  intros Hok Hroom Hd. unfold dequeue in Hd. destruct (queue s) as [|x q] eqn:E; [done|].
  assert (Hfront : (kStarvationThreshold <=? starvation_cycle_counter s) &&
      existsb should_force_low_priority (queue s) = false -> dequeue_front s = (Some w, s') ->
      must_pick (starvation_cycle_counter s) s w /\ queue s ≡ₚ w :: queue s' /\ sched_ok s' /\
      starvation_cycle_counter s' =
        (if should_force_low_priority w then 0 else starvation_cycle_counter s + 1)).
  { intros Hc Hf. destruct (dequeue_front_spec s w s' Hok Hf) as (Hq & Hall & Hcnt & Hseq).
    pose proof (sk_starve s Hok). rewrite s32_id in Hcnt by lia.
    unfold must_pick. rewrite Hc, Hq. split; [split; [set_solver|]|split; [done|split; [|done]]].
    - constructor; [by left|]. eapply Forall_impl; [exact Hall|]. by right.
    - eapply sched_ok_remove; [exact Hok| |by rewrite Hq|done|].
      2: { rewrite Hcnt. destruct (should_force_low_priority w); lia. }
      pose proof (sk_ordered s Hok) as Ho. rewrite Hq in Ho. by inversion Ho. }
  rewrite <- E in *.
  destruct (kStarvationThreshold <=? starvation_cycle_counter s) eqn:Ht; [|by apply Hfront].
  unfold extract_oldest_low_or_normal in Hd.
  pose proof (oldest_low_spec 0 None (queue s) ltac:(done)) as Hs.
  destruct (oldest_low 0 None (queue s)) as [[i w0]|].
  - destruct Hs as (Hlow & [|[_ Hi]] & _ & Hall); [done|]. rewrite Nat.sub_0_r in Hi.
    pose proof (list_elem_of_lookup_2 _ _ _ Hi) as Hin.
    assert ((w_sequence_id w0 =? UINT64_MAX) = false) as Hne.
    { pose proof (sk_bound s Hok) as Hb. rewrite Forall_forall in Hb. specialize (Hb w0 Hin).
      pose proof (sk_counter s Hok). lia. }
    rewrite Hne in Hd. simplify_eq. unfold must_pick. rewrite Ht.
    assert (existsb should_force_low_priority (queue s) = true) as ->.
    { rewrite existsb_exists. exists w. by rewrite <- list_elem_of_In. }
    simpl. rewrite Hlow. split; [done|]. split; [by apply delete_Permutation|]. split; [|done].
    eapply sched_ok_remove; [exact Hok| |by apply delete_Permutation|done|simpl; lia].
    simpl. by apply ordered_delete, sk_ordered.
  - destruct Hs as [_ Hs]. apply Hfront; [|done]. by rewrite (proj2 (existsb_false_Forall _ _) Hs).
Qed.

(** ** Traces *)
Inductive sched_op :=
| Enq (e : gpu_gpfifo_entry) (eng : EngineType) (priority channel : Z)
| Deq
| Boost (channel priority : Z)
| Unboost (channel : Z)
| Flush.

(** What a trace serves: the item of each successful dequeue, and [None] for each
    flush; and how many items above NORMAL priority it served in a row at its
    end, since the last item of NORMAL priority or less or the last flush. *)
Fixpoint sched_log (ops : list sched_op) (s : GlobalScheduler) : list (option WorkItem) :=
  match ops with
  | [] => []
  | Enq e eng p ch :: ops' => sched_log ops' (enqueue_with_priority e eng p ch s).2
  | Deq :: ops' =>
      match dequeue s with
      | (Some w, s') => Some w :: sched_log ops' s'
      | (None, s') => sched_log ops' s'
      end
  | Boost ch p :: ops' => sched_log ops' (boost_priority ch p s)
  | Unboost ch :: ops' => sched_log ops' (restore_priority ch s)
  | Flush :: ops' => None :: sched_log ops' (flush s)
  end.
Definition is_high (w : WorkItem) : bool := GPU_CHAN_PRI_NORMAL <? w_priority w.
Definition high_streak (n : Z) (log : list (option WorkItem)) : Z :=
  fold_left (fun n x => match x with Some w => if is_high w then n + 1 else 0 | None => 0 end) log n.

(** The items dequeued by a trace, in order, and the final state. *)
Fixpoint sched_run (ops : list sched_op) (s : GlobalScheduler) :
    list WorkItem * GlobalScheduler :=
  match ops with
  | [] => ([], s)
  | Enq e eng p ch :: ops' => sched_run ops' (enqueue_with_priority e eng p ch s).2
  | Deq :: ops' =>
      match dequeue s with
      | (Some w, s') => let '(out, s'') := sched_run ops' s' in (w :: out, s'')
      | (None, s') => sched_run ops' s'
      end
  | Boost ch p :: ops' => sched_run ops' (boost_priority ch p s)
  | Unboost ch :: ops' => sched_run ops' (restore_priority ch s)
  | Flush :: ops' => sched_run ops' (flush s)
  end.

Lemma sequence_counter_enqueue e eng p ch s :
  sequence_counter (enqueue_with_priority e eng p ch s).2 = u64 (sequence_counter s + 1).
Proof. unfold enqueue_with_priority. by destruct (translate e (translator s)) as [[]]. Qed.

Lemma sequence_counter_dequeue s : sequence_counter (dequeue s).2 = sequence_counter s.
Proof.
  assert (Hf : forall s, sequence_counter (dequeue_front s).2 = sequence_counter s)
    by (intros s0; unfold dequeue_front; by destruct (queue s0)).
  unfold dequeue. destruct (queue s); [done|]. destruct (_ <=? _); [|apply Hf].
  unfold extract_oldest_low_or_normal. destruct (oldest_low _ _ _) as [[i w0]|]; [|apply Hf].
  destruct (_ =? _); [by rewrite Hf|done].
Qed.

Lemma dequeue_none s s' : sched_ok s -> dequeue s = (None, s') -> queue s = [] /\ s' = s.
Proof.
  intros Hok Hd. unfold dequeue in Hd. destruct (queue s) as [|x q] eqn:E; [by simplify_eq|].
  exfalso. assert (Hf : dequeue_front s <> (None, s')).
  { unfold dequeue_front. by rewrite E. }
  destruct (_ <=? _); [|done]. unfold extract_oldest_low_or_normal in Hd.
  pose proof (oldest_low_spec 0 None (queue s) ltac:(done)) as Hs.
  destruct (oldest_low 0 None (queue s)) as [[i w0]|]; [|done].
  destruct Hs as (_ & [|[_ Hi]] & _); [done|].
  pose proof (sk_bound s Hok) as Hb. rewrite Forall_forall in Hb.
  specialize (Hb w0 (list_elem_of_lookup_2 _ _ _ Hi)). pose proof (sk_counter s Hok).
  destruct (Z.eqb_spec (w_sequence_id w0) UINT64_MAX); [lia|done].
Qed.

(** One call keeps the invariant and uses up the room for one call. *)
Lemma room_less m n s : (m <= n)%nat -> sched_room n s -> sched_room m s.
Proof. unfold sched_room. lia. Qed.
Lemma room_enqueue n e eng p ch s : sched_ok s -> sched_room (S n) s ->
  sched_ok (enqueue_with_priority e eng p ch s).2 /\ sched_room n (enqueue_with_priority e eng p ch s).2 /\
  starvation_cycle_counter (enqueue_with_priority e eng p ch s).2 = starvation_cycle_counter s.
Proof.
  intros Hok [H1 H2]. pose proof (sk_counter s Hok) as Hc.
  assert (Hst : starvation_cycle_counter (enqueue_with_priority e eng p ch s).2 = starvation_cycle_counter s).
  { unfold enqueue_with_priority. by destruct (translate e (translator s)) as [[]]. }
  split; [apply enqueue_ok; [done|lia]|]. split; [|done]. unfold sched_room. rewrite Hst, sequence_counter_enqueue.
  unfold UINT64_MAX in *. rewrite u64_id by lia. lia.
Qed.
Lemma room_dequeue n s w s' : sched_ok s -> sched_room (S n) s -> dequeue s = (Some w, s') ->
  must_pick (starvation_cycle_counter s) s w /\ queue s ≡ₚ w :: queue s' /\ sched_ok s' /\ sched_room n s' /\
  starvation_cycle_counter s' = (if is_high w then starvation_cycle_counter s + 1 else 0).
Proof.
  intros Hok [H1 H2] E. destruct (dequeue_spec s w s' Hok ltac:(lia) E) as (P1 & P2 & P3 & P4).
  pose proof (sequence_counter_dequeue s) as Hs. rewrite E in Hs. simpl in Hs.
  split; [done|]. split; [done|]. split; [done|]. pose proof (sk_starve s Hok).
  assert (starvation_cycle_counter s' = (if is_high w then starvation_cycle_counter s + 1 else 0)) as P5.
  { rewrite P4. unfold should_force_low_priority, is_high. rewrite Z.leb_antisym. by destruct (_ <? _). }
  split; [|done]. unfold sched_room. rewrite P5. destruct (is_high w); lia.
Qed.
Lemma room_flush n s : sched_ok s -> sched_room (S n) s -> sched_ok (flush s) /\ sched_room n (flush s).
Proof.
  intros Hok [H1 H2]. pose proof (sk_counter s Hok). pose proof (sk_starve s Hok).
  split; [split; simpl; try constructor; lia|unfold sched_room; simpl; lia].
Qed.
Lemma room_boost n ch p s : sched_room n s -> sched_room n (boost_priority ch p s).
Proof. done. Qed.
Lemma room_restore n ch s : sched_room n s -> sched_room n (restore_priority ch s).
Proof. done. Qed.

(** The invariant, the room left, and the counter as the streak of the log. *)
Lemma sched_run_spec ops n s :
  sched_ok s -> sched_room (length ops + n) s ->
  sched_ok (sched_run ops s).2 /\ sched_room n (sched_run ops s).2 /\
  starvation_cycle_counter (sched_run ops s).2 = high_streak (starvation_cycle_counter s) (sched_log ops s).
Proof.
  revert s. induction ops as [|op ops IH]; intros s Hok Hr; [done|]. cbn [length Nat.add] in Hr.
  destruct op as [e eng p ch| |ch p|ch|]; cbn [sched_run sched_log].
  - destruct (room_enqueue _ e eng p ch s Hok Hr) as (H1 & H2 & H3). rewrite <- H3. by apply IH.
  - destruct (dequeue s) as [[w|] s'] eqn:E.
    + destruct (room_dequeue _ s w s' Hok Hr E) as (_ & _ & H1 & H2 & H3).
      specialize (IH s' H1 H2). unfold high_streak in *. cbn [fold_left]. rewrite <- H3. by destruct (sched_run ops s').
    + destruct (dequeue_none s s' Hok E) as [_ ->]. apply IH; [done|]. eapply room_less; [|exact Hr]. lia.
  - eapply room_less in Hr; [|apply Nat.le_succ_diag_r]. by apply (IH (boost_priority ch p s)); [apply boost_ok|].
  - eapply room_less in Hr; [|apply Nat.le_succ_diag_r]. by apply (IH (restore_priority ch s)); [apply restore_ok|].
  - destruct (room_flush _ s Hok Hr) as [H1 H2]. by apply (IH (flush s)).
Qed.
Lemma sched_room_init n : Z.of_nat n < 2 ^ 31 -> sched_room n init_scheduler.
Proof. unfold sched_room, UINT64_MAX. simpl. lia. Qed.

(** C11. The scheduler refines its specification: after any trace of fewer than
    2^31 enqueues, dequeues, boosts, restores and flushes, [dequeue] fails only on
    an empty queue and otherwise removes exactly the item it must pick: the most
    urgent one, oldest first; but once ten items above NORMAL priority have been
    served in a row, since the last item of NORMAL priority or less or the last
    flush, the oldest item of NORMAL priority or less, if there is one. *)
Theorem sched_dequeue_order ops s :
  Z.of_nat (length ops) < 2 ^ 31 - 1 -> s = (sched_run ops init_scheduler).2 ->
  match dequeue s with
  | (Some w, s') => must_pick (high_streak 0 (sched_log ops init_scheduler)) s w /\ queue s ≡ₚ w :: queue s'
  | (None, s') => queue s = [] /\ s' = s
  end.
Proof.
  intros Hb ->. destruct (sched_run_spec ops 1 init_scheduler sched_ok_init) as (Hok & Hr & Hst).
  { apply sched_room_init. lia. }
  simpl in Hst. rewrite <- Hst. set (s := (sched_run ops init_scheduler).2) in *.
  destruct (dequeue s) as [[w|] s'] eqn:E.
  - by destruct (room_dequeue 0 s w s' Hok Hr E) as (? & ? & _).
  - by apply dequeue_none.
Qed.

Definition demo_enq (p ch : Z) : sched_op := Enq zero_entry COMPUTE p ch.
Lemma sched_dequeue_order_witness :
  let s := (sched_run [demo_enq 2 0; demo_enq 3 1; demo_enq 2 1; Boost 0 4] init_scheduler).2 in
  match dequeue s with
  | (Some w, s') => must_pick 0 s w /\ queue s ≡ₚ w :: queue s'
  | (None, s') => queue s = [] /\ s' = s
  end.
Proof.
  intros s.
  apply (sched_dequeue_order [demo_enq 2 0; demo_enq 3 1; demo_enq 2 1; Boost 0 4] s).
  - by vm_compute.
  - reflexivity.
Defined.

(** ** Starvation *)
Definition is_enq_deq (op : sched_op) : Prop :=
  match op with Enq _ _ _ _ | Deq => True | _ => False end.

Lemma enqueue_queue e eng p ch s :
  exists w, queue (enqueue_with_priority e eng p ch s).2 ≡ₚ w :: queue s /\
    w_priority w = effective_priority s p ch /\
    starvation_cycle_counter (enqueue_with_priority e eng p ch s).2 = starvation_cycle_counter s.
Proof.
  unfold enqueue_with_priority. destruct (translate e (translator s)) as [[b evs] t]. cbn.
  eexists. split; [apply ms_insert_perm|done].
Qed.

Lemma high_run_bounded ops s w out s' :
  sched_ok s -> sched_room (length ops) s ->
  Forall is_enq_deq ops -> w ∈ queue s -> should_force_low_priority w = true ->
  sched_run ops s = (out, s') ->
  Forall (fun x => is_high x = true) out ->
  Z.of_nat (length out) <= Z.max 0 (kStarvationThreshold - starvation_cycle_counter s).
Proof.
  revert s out s'. induction ops as [|op ops IH]; intros s out s' Hok Hb Hops Hin Hlow Hr Hout.
  { simpl in Hr. simplify_eq. simpl. lia. }
  inversion Hops as [|?? Hop Hops']; subst. cbn [length] in Hb.
  destruct op as [e eng p ch| |ch p|ch|]; try done; cbn [sched_run] in Hr.
  - destruct (enqueue_queue e eng p ch s) as (x & Hp & _ & <-).
    destruct (room_enqueue _ e eng p ch s Hok Hb) as (H1 & H2 & _).
    apply (IH (enqueue_with_priority e eng p ch s).2 out s'); try done. rewrite Hp. by right.
  - destruct (dequeue s) as [[x|] s1] eqn:E.
    + destruct (room_dequeue _ s x s1 Hok Hb E) as ([_ Hpick] & Hp & Hok1 & Hr1' & Hcnt).
      destruct (sched_run ops s1) as [out1 s2] eqn:Hr1. simplify_eq.
      inversion Hout as [|?? Hx Hout1]; subst. rewrite Hx in Hcnt.
      assert (Hxl : should_force_low_priority x = false) by (unfold should_force_low_priority, is_high in *; lia).
      assert (Hw1 : w ∈ queue s1).
      { rewrite Hp in Hin. apply elem_of_cons in Hin as [->|]; [congruence|done]. }
      specialize (IH s1 out1 s' Hok1 Hr1' Hops' Hw1 Hlow Hr1 Hout1).
      destruct (Z.leb_spec kStarvationThreshold (starvation_cycle_counter s)) as [Hge|Hlt].
      * exfalso. assert (existsb should_force_low_priority (queue s) = true) as Hex.
        { rewrite existsb_exists. exists w. by rewrite <- list_elem_of_In. }
        rewrite Hex in Hpick. simpl in Hpick. destruct Hpick. congruence.
      * cbn [length]. lia.
    + destruct (dequeue_none s s1 Hok E) as [Hq _]. rewrite Hq in Hin. by apply not_elem_of_nil in Hin.
Qed.

(** Bounded unfairness: while an item of NORMAL priority or less waits,
    at most [kStarvationThreshold] more urgent items are dequeued before an
    item of NORMAL priority or less is, however many arrive meanwhile. *)
Theorem normal_work_not_starved pre ops s w out s' :
  Z.of_nat (length pre + length ops) < 2 ^ 31 ->
  s = (sched_run pre init_scheduler).2 ->
  Forall is_enq_deq ops -> w ∈ queue s -> w_priority w <= GPU_CHAN_PRI_NORMAL ->
  sched_run ops s = (out, s') ->
  Forall (fun x => GPU_CHAN_PRI_NORMAL < w_priority x) out ->
  Z.of_nat (length out) <= kStarvationThreshold.
Proof.
  intros Hb -> Hops Hin Hlow Hr Hout.
  destruct (sched_run_spec pre (length ops) init_scheduler sched_ok_init) as (Hok & Hroom & _).
  { by apply sched_room_init. }
  pose proof (sk_starve _ Hok).
  pose proof (high_run_bounded ops _ w out s' Hok Hroom Hops Hin) as Hbound.
  specialize (Hbound ltac:(unfold should_force_low_priority; lia) Hr).
  unfold kStarvationThreshold in *. enough (Z.of_nat (length out) <= Z.max 0 (10 - 0)) by lia.
  etrans; [apply Hbound|lia]. eapply Forall_impl; [exact Hout|].
  intros x Hx. by apply Z.ltb_lt.
Qed.

Lemma normal_work_not_starved_witness :
  let s := (sched_run [demo_enq 2 0; demo_enq 3 1; demo_enq 4 1; demo_enq 3 2] init_scheduler).2 in
  let r := sched_run [Deq; demo_enq 4 5; Deq; Deq] s in
  Z.of_nat (length r.1) <= kStarvationThreshold.
Proof.
  intros s r.
  apply (normal_work_not_starved [demo_enq 2 0; demo_enq 3 1; demo_enq 4 1; demo_enq 3 2]
    [Deq; demo_enq 4 5; Deq; Deq] s (mk_WorkItem zero_entry COMPUTE 2 2 0 0) r.1 r.2).
  - by vm_compute.
  - reflexivity.
  - repeat constructor.
  - apply (list_elem_of_lookup_2 _ 3). by vm_compute.
  - by vm_compute.
  - by vm_compute.
  - vm_compute. repeat constructor.
Defined.

(** [n] rounds of one NORMAL arrival and one dequeue. *)
Fixpoint normal_rounds (n : nat) (e : gpu_gpfifo_entry) (ch : Z) : list sched_op :=
  match n with
  | O => []
  | S n' => Enq e COMPUTE GPU_CHAN_PRI_NORMAL ch :: Deq :: normal_rounds n' e ch
  end.

Lemma normal_rounds_starve n e ch s w :
  inherited_priorities s = ∅ -> queue s = [w] -> w_priority w = GPU_CHAN_PRI_LOW ->
  starvation_cycle_counter s = 0 ->
  let '(out, s') := sched_run (normal_rounds n e ch) s in
  length out = n /\ Forall (fun x => w_priority x = GPU_CHAN_PRI_NORMAL) out /\ queue s' = [w].
Proof.
  revert s. induction n as [|n IH]; intros s Hi Hq Hw Hc; [done|].
  cbn [normal_rounds sched_run].
  assert (Hs : exists x s2, dequeue (enqueue_with_priority e COMPUTE GPU_CHAN_PRI_NORMAL ch s).2 =
      (Some x, s2) /\ w_priority x = GPU_CHAN_PRI_NORMAL /\ queue s2 = [w] /\
      inherited_priorities s2 = ∅ /\ starvation_cycle_counter s2 = 0).
  { unfold enqueue_with_priority, effective_priority. rewrite Hi, lookup_empty.
    destruct (translate e (translator s)) as [[b evs] t]. simpl. unfold dequeue. simpl.
    rewrite Hq. simpl. unfold before. simpl. rewrite Hw. simpl. rewrite Hc. simpl.
    unfold dequeue_front. simpl. rewrite Hq. simpl. unfold before. simpl. rewrite Hw. simpl.
    eexists _, _. split; [reflexivity|]. unfold field_upd. simpl. by rewrite ?Hi. }
  destruct Hs as (x & s2 & -> & Hx & Hq2 & Hi2 & Hc2).
  specialize (IH s2 Hi2 Hq2 Hw Hc2). destruct (sched_run (normal_rounds n e ch) s2) as [out s3].
  destruct IH as (H1 & H2 & H3). split; [simpl; by rewrite H1|]. split; [by constructor|done].
Qed.

(** The starvation guard does not cover LOW work: it is reset by every
    NORMAL item served, so a LOW item is passed over by any number of NORMAL
    items that keep arriving. *)
Theorem low_starves_behind_normal n e_low e ch_low ch :
  let s := (enqueue_with_priority e_low COMPUTE GPU_CHAN_PRI_LOW ch_low init_scheduler).2 in
  let '(out, s') := sched_run (normal_rounds n e ch) s in
  length out = n /\ Forall (fun x => w_priority x = GPU_CHAN_PRI_NORMAL) out /\
  exists w, queue s' = [w] /\ w_priority w = GPU_CHAN_PRI_LOW.
Proof.
  intros s.
  assert (Hs : exists w, inherited_priorities s = ∅ /\ queue s = [w] /\
      w_priority w = GPU_CHAN_PRI_LOW /\ starvation_cycle_counter s = 0).
  { unfold s, enqueue_with_priority. destruct (translate _ _) as [[b evs] t].
    simpl. by eexists. }
  destruct Hs as (w & Hi & Hq & Hw & Hc).
  pose proof (normal_rounds_starve n e ch s w Hi Hq Hw Hc) as H.
  destruct (sched_run (normal_rounds n e ch) s) as [out s'].
  destruct H as (H1 & H2 & H3). split; [done|]. split; [done|]. by exists w.
Qed.

(** ** Priority inheritance *)
Definition unboost (ch : Z) (w : WorkItem) : WorkItem :=
  if w_channel_id w =? ch then w <| w_priority := w_original_priority w |> else w.

Fixpoint enq_run (l : list (gpu_gpfifo_entry * EngineType * Z * Z)) (s : GlobalScheduler) :
    list tr_event * GlobalScheduler :=
  match l with
  | [] => ([], s)
  | (e, eng, p, ch) :: l' =>
      let '(ev, s) := enqueue_with_priority e eng p ch s in
      let '(ev', s) := enq_run l' s in (ev ++ ev', s)
  end.

(** Two schedulers that agree up to the boost of channel [ch]. *)
Record boosted_of (ch : Z) (b s : GlobalScheduler) : Prop := {
  bo_queue : unboost ch <$> queue b ≡ₚ queue s;
  bo_inh : delete ch (inherited_priorities b) = inherited_priorities s;
  bo_none : inherited_priorities s !! ch = None;
  bo_rest : translator b = translator s /\ dispatch_fn b = dispatch_fn s /\
    sequence_counter b = sequence_counter s /\
    starvation_cycle_counter b = starvation_cycle_counter s /\
    engine_pullers b = engine_pullers s /\ engine_fence_counters b = engine_fence_counters s
}.

Lemma WorkItem_eta w : w <| w_priority := w_priority w |> = w.
Proof. by destruct w. Qed.

Lemma unboost_self ch w : w_priority w = w_original_priority w -> unboost ch w = w.
Proof. intros H. unfold unboost. destruct (_ =? _); [|done]. rewrite <- H. apply WorkItem_eta. Qed.

Lemma boost_boosted ch p s :
  sched_ok s -> inherited_priorities s !! ch = None ->
  Forall (fun w => w_channel_id w = ch -> w_priority w = w_original_priority w) (queue s) ->
  boosted_of ch (boost_priority ch p s) s.
Proof.
  intros Hok Hn Hall. split; simpl; try done.
  - destruct (reinsert_spec (fun w => (w_channel_id w =? ch) && (w_priority w <? p))
      (fun w => w <| w_priority := p |>) (queue s)) as [_ Hp];
      [done|apply sk_ordered; done|apply sk_unique; done|].
    rewrite (fmap_Permutation _ _ _ Hp), <- list_fmap_compose.
    rewrite <- (list_fmap_id (queue s)) at 2. apply Permutation_refl', list_fmap_ext.
    intros i w Hw. rewrite Forall_forall in Hall.
    specialize (Hall w (list_elem_of_lookup_2 _ _ _ Hw)). simpl.
    destruct (Z.eqb_spec (w_channel_id w) ch) as [E|E]; simpl.
    + specialize (Hall E). destruct (w_priority w <? p); [|by apply unboost_self].
      unfold unboost. simpl. rewrite (proj2 (Z.eqb_eq _ _) E). unfold field_upd. simpl.
      destruct w; simpl in *; by subst.
    + unfold unboost. destruct (Z.eqb_spec (w_channel_id w) ch); done.
  - by rewrite delete_insert_id.
Qed.

Lemma enqueue_boosted ch b s e eng p c :
  boosted_of ch b s ->
  boosted_of ch (enqueue_with_priority e eng p c b).2 (enqueue_with_priority e eng p c s).2 /\
  (enqueue_with_priority e eng p c b).1 = (enqueue_with_priority e eng p c s).1.
Proof.
  intros [Hq Hi Hn (Ht & Hd & Hs & Hst & Hp & Hf)]. unfold enqueue_with_priority.
  rewrite Ht, Hs. destruct (translate e (translator s)) as [[r evs] t]. split; [|done].
  split; simpl; [|done|done|by rewrite Hs].
  rewrite (fmap_Permutation _ _ _ (ms_insert_perm _ _)), ms_insert_perm, fmap_cons, Hq.
  f_equiv. unfold unboost. simpl. destruct (Z.eqb_spec c ch) as [->|Hne]; simpl.
  - unfold field_upd, effective_priority. simpl. by rewrite Hn.
  - unfold effective_priority. rewrite <- Hi. by rewrite lookup_delete_ne.
Qed.

Lemma enq_run_boosted ch l b s :
  boosted_of ch b s ->
  boosted_of ch (enq_run l b).2 (enq_run l s).2 /\ (enq_run l b).1 = (enq_run l s).1.
Proof.
  revert b s. induction l as [|[[[e eng] p] c] l IH]; intros b s H; [done|]. simpl.
  destruct (enqueue_boosted ch b s e eng p c H) as [H1 H2].
  destruct (enqueue_with_priority e eng p c b) as [ev1 b1].
  destruct (enqueue_with_priority e eng p c s) as [ev2 s2]. simpl in *. subst ev2.
  destruct (IH b1 s2 H1) as [H3 H4].
  destruct (enq_run l b1), (enq_run l s2). simpl in *. by subst.
Qed.

Lemma enq_run_ok l s :
  sched_ok s -> sequence_counter s + Z.of_nat (length l) <= UINT64_MAX -> sched_ok (enq_run l s).2.
Proof.
  revert s. induction l as [|[[[e eng] p] c] l IH]; intros s Hok Hb; [done|]. simpl.
  cbn [length] in Hb. pose proof (sk_counter s Hok).
  pose proof (enqueue_ok e eng p c s Hok ltac:(lia)) as H1.
  pose proof (sequence_counter_enqueue e eng p c s) as H2.
  rewrite u64_id in H2 by (unfold UINT64_MAX in *; lia).
  destruct (enqueue_with_priority e eng p c s) as [ev s1]. simpl in *.
  specialize (IH s1 H1 ltac:(lia)). by destruct (enq_run l s1).
Qed.

Lemma restore_boosted ch b s :
  sched_ok b -> sched_ok s -> boosted_of ch b s -> restore_priority ch b = s.
Proof.
  intros Hb Hs [Hq Hi Hn (Ht & Hd & Hsc & Hst & Hp & Hf)].
  destruct (reinsert_spec
      (fun w => (w_channel_id w =? ch) && negb (w_priority w =? w_original_priority w))
      (fun w => w <| w_priority := w_original_priority w |>) (queue b)) as [Ho Hr];
    [done|by apply sk_ordered|by apply sk_unique|].
  assert (Hqs : restore_queue ch (queue b) = queue s).
  { apply ordered_unique; [done|by apply sk_ordered|]. unfold restore_queue.
    rewrite Hr, <- Hq.
    apply Permutation_refl', list_fmap_ext. intros i w _. unfold unboost.
    destruct (w_channel_id w =? ch); simpl; [|done].
    destruct (Z.eqb_spec (w_priority w) (w_original_priority w)) as [E|E]; simpl; [|done].
    rewrite <- E. by rewrite WorkItem_eta. }
  unfold restore_priority. unfold field_upd. simpl. rewrite Hqs, Hi, Ht, Hd, Hsc, Hst, Hp, Hf.
  by destruct s.
Qed.

(** Priority inheritance leaves no trace: boosting a channel, letting any
    work of any channels arrive, and restoring the channel gives the state
    (queue order included) and the launch events that the same arrivals give
    without the boost. *)
Theorem boost_restore_roundtrip ch p l ops s :
  s = (sched_run ops init_scheduler).2 ->
  Z.of_nat (length ops + length l) < 2 ^ 31 ->
  inherited_priorities s !! ch = None ->
  Forall (fun w => w_channel_id w = ch -> w_priority w = w_original_priority w) (queue s) ->
  let '(evs, s') := enq_run l (boost_priority ch p s) in
  (evs, restore_priority ch s') = enq_run l s.
Proof.
  intros Hs Hb Hn Hall.
  destruct (sched_run_spec ops (length l) init_scheduler sched_ok_init) as (Hok & [Hsc _] & _).
  { by apply sched_room_init. }
  rewrite <- Hs in Hok, Hsc.
  pose proof (boost_boosted ch p s Hok Hn Hall) as H0.
  destruct (enq_run_boosted ch l _ _ H0) as [H1 H2].
  pose proof (enq_run_ok l _ (boost_ok ch p s Hok) ltac:(simpl; lia)) as H3.
  pose proof (enq_run_ok l s Hok ltac:(lia)) as H4.
  destruct (enq_run l (boost_priority ch p s)) as [ev1 b1], (enq_run l s) as [ev2 s2].
  simpl in *. subst ev2. by rewrite (restore_boosted ch b1 s2).
Qed.

Lemma boost_restore_roundtrip_witness :
  let s := (sched_run [demo_enq 2 0; demo_enq 3 1; demo_enq 2 7] init_scheduler).2 in
  let '(evs, s') := enq_run [(zero_entry, COPY, 1, 7); (zero_entry, COMPUTE, 3, 0)]
                      (boost_priority 7 4 s) in
  (evs, restore_priority 7 s') = enq_run [(zero_entry, COPY, 1, 7); (zero_entry, COMPUTE, 3, 0)] s.
Proof.
  intros s.
  apply (boost_restore_roundtrip 7 4 [(zero_entry, COPY, 1, 7); (zero_entry, COMPUTE, 3, 0)]
    [demo_enq 2 0; demo_enq 3 1; demo_enq 2 7] s).
  - reflexivity.
  - by vm_compute.
  - by vm_compute.
  - vm_compute. repeat constructor.
Defined.

(** ** Fence ids *)
Fixpoint alloc_run (engs : list EngineType) (s : GlobalScheduler) : list Z :=
  match engs with
  | [] => []
  | e :: engs' => let '(f, s) := allocFenceId e s in f :: alloc_run engs' s
  end.
Definition fence_count (e : EngineType) (s : GlobalScheduler) : Z :=
  default 0 (engine_fence_counters s !! engine_index e).

Lemma engine_index_inj e e' : engine_index e = engine_index e' -> e = e'.
Proof. by destruct e, e'. Qed.

Lemma alloc_run_range engs s f :
  (forall e, 0 <= fence_count e s /\ fence_count e s + Z.of_nat (length engs) <= SIM_FENCE_ID_MAX / 3) ->
  f ∈ alloc_run engs s ->
  exists e, engine_fence_base e + fence_count e s <= f <
            engine_fence_base e + SIM_FENCE_ID_MAX / 3.
Proof.
  revert s. induction engs as [|e engs IH]; intros s Hc Hin; [by apply not_elem_of_nil in Hin|].
  simpl in Hin. cbn [length] in Hc. pose proof (Hc e) as He. unfold fence_count in He.
  apply elem_of_cons in Hin as [->|Hin].
  - exists e. unfold fence_count. rewrite u64_id; [lia|].
    unfold engine_fence_base, SIM_FENCE_ID_BASE.
    change (SIM_FENCE_ID_MAX / 3) with 3074457345618258602 in *. destruct e; simpl in *; lia.
  - set (s1 := s <| engine_fence_counters ::= _ |>) in *.
    assert (Hc1 : forall e', fence_count e' s1 =
       if decide (e' = e) then fence_count e s + 1 else fence_count e' s).
    { intros e'. unfold fence_count, s1. simpl. rewrite u64_id by
        (change (SIM_FENCE_ID_MAX / 3) with 3074457345618258602 in *; lia).
      destruct (decide (e' = e)) as [->|Hne]; [by rewrite lookup_insert_eq|].
      rewrite lookup_insert_ne; [done|]. intros Hx. by apply engine_index_inj in Hx. }
    destruct (IH s1) as (e1 & H1).
    + intros e'. rewrite Hc1. pose proof (Hc e'). destruct (decide (e' = e)) as [->|]; lia.
    + done.
    + exists e1. rewrite Hc1 in H1. destruct (decide (e1 = e)) as [->|]; lia.
Qed.

Lemma fence_count_alloc e e' s n :
  0 <= fence_count e s -> fence_count e s + 1 + Z.of_nat n <= SIM_FENCE_ID_MAX / 3 ->
  fence_count e' (allocFenceId e s).2 =
    if decide (e' = e) then fence_count e s + 1 else fence_count e' s.
Proof.
  intros H0 H1. change (SIM_FENCE_ID_MAX / 3) with 3074457345618258602 in H1.
  unfold fence_count, allocFenceId in *. simpl. rewrite u64_id by lia.
  destruct (decide (e' = e)) as [->|Hne]; [by rewrite lookup_insert_eq|].
  rewrite lookup_insert_ne; [done|]. intros Hx. by apply engine_index_inj in Hx.
Qed.

(** Per-engine fence ids never collide: as long as no engine has used up
    its third of the id space, the ids handed out to any interleaving of
    engines are distinct, lie in their engine's third, and are at least
    [SIM_FENCE_ID_BASE]. *)
Theorem engine_fences_distinct engs s :
  (forall e, 0 <= fence_count e s /\
             fence_count e s + Z.of_nat (length engs) <= SIM_FENCE_ID_MAX / 3) ->
  NoDup (alloc_run engs s) /\
  Forall2 (fun e f => engine_fence_base e <= f < engine_fence_base e + SIM_FENCE_ID_MAX / 3)
    engs (alloc_run engs s).
Proof.
  revert s. induction engs as [|e engs IH]; intros s Hc; [by repeat constructor|].
  cbn [length] in Hc.
  assert (Hc1 : forall e', fence_count e' (allocFenceId e s).2 =
       if decide (e' = e) then fence_count e s + 1 else fence_count e' s).
  { intros e'. pose proof (Hc e). apply (fence_count_alloc e e' s (length engs)); lia. }
  assert (Hr : forall e', 0 <= fence_count e' (allocFenceId e s).2 /\
     fence_count e' (allocFenceId e s).2 + Z.of_nat (length engs) <= SIM_FENCE_ID_MAX / 3).
  { intros e'. rewrite Hc1. pose proof (Hc e'). destruct (decide (e' = e)) as [->|]; lia. }
  destruct (IH _ Hr) as [Hn Hf].
  assert (Hb : (allocFenceId e s).1 = engine_fence_base e + fence_count e s).
  { unfold allocFenceId, fence_count. simpl. apply u64_id. pose proof (Hc e) as He.
    unfold fence_count, engine_fence_base, SIM_FENCE_ID_BASE in *.
    change (SIM_FENCE_ID_MAX / 3) with 3074457345618258602 in *. destruct e; simpl in *; lia. }
  pose proof (Hc e) as He.
  change (alloc_run (e :: engs) s) with
    ((allocFenceId e s).1 :: alloc_run engs (allocFenceId e s).2). rewrite Hb.
  split; constructor; try done; [|lia]. intros Hin.
  destruct (alloc_run_range engs _ _ Hr Hin) as (e1 & H1). rewrite Hc1 in H1.
  destruct (decide (e1 = e)) as [->|Hne]; [lia|].
  unfold engine_fence_base in H1. change (SIM_FENCE_ID_MAX / 3) with 3074457345618258602 in *.
  pose proof (Hc e1). destruct e, e1; simpl in *; done || lia.
Qed.

Lemma engine_fences_distinct_witness :
  NoDup (alloc_run [COMPUTE; COPY; COMPUTE; FIRMWARE] init_scheduler) /\
  Forall2 (fun e f => engine_fence_base e <= f < engine_fence_base e + SIM_FENCE_ID_MAX / 3)
    [COMPUTE; COPY; COMPUTE; FIRMWARE]
    (alloc_run [COMPUTE; COPY; COMPUTE; FIRMWARE] init_scheduler).
Proof. apply engine_fences_distinct. intros e. by destruct e; vm_compute. Defined.

(** The COMPUTE third starts where [sim_fence_id_alloc] starts: the two
    allocators hand out the same first id. *)
Lemma compute_fence_collides mgr :
  (allocFenceId COMPUTE init_scheduler).1 = (sim_fence_id_alloc (init_fence mgr)).1.
Proof. reflexivity. Qed.
