(* ===== verification/Ring.v ===== *)
(** * User-mode queues and doorbells

    [plugins/gpu_driver/sim/gpu_queue_emu.{h,cpp}], the shared-memory header of
    [shared/gpu_queue.h], and [sim/hardware/doorbell_emu.h].  The producer is a
    user-space client; its protocol (write the slot, then advance
    [write_idx]) is the one the header comment of [gpu_ring_header] states. *)
From S2P Require Import Prelude GpuTypes.

Definition GPU_MAX_RING_ENTRIES : Z := 1024.
Definition sizeof_ring_header : Z := 56.

(** [struct gpu_ring_header] and the entry array that follows it. *)
Record gpu_ring_header := mk_ring {
  write_idx : Z;
  read_idx : Z;
  capacity : Z;
  ring_flags : Z;
  fence_value : Z;
  entries : list gpu_gpfifo_entry
}.
#[export] Instance eta_ring : Eta gpu_ring_header := fun r =>
  mk_ring (write_idx r) (read_idx r) (capacity r) (ring_flags r) (fence_value r) (entries r).

Record GpuQueueEmu := mk_GpuQueueEmu {
  queue_id : Z;
  queue_type : Z;
  q_priority : Z;
  ring_size : Z;
  ring_header : option gpu_ring_header;
  doorbell_cb : bool;
  q_puller : bool
}.
#[export] Instance eta_GpuQueueEmu : Eta GpuQueueEmu := fun q =>
  mk_GpuQueueEmu (queue_id q) (queue_type q) (q_priority q) (ring_size q) (ring_header q)
    (doorbell_cb q) (q_puller q).

Definition new_queue (id type priority size : Z) : GpuQueueEmu :=
  mk_GpuQueueEmu id type priority (if 0 <? size then size else GPU_MAX_RING_ENTRIES)
    None false false.

(** [shm]: the entries the attached memory holds ([None] for a null address);
    they are not cleared. *)
Definition attachSharedMemory (shm : option (list gpu_gpfifo_entry)) (size : Z)
    (q : GpuQueueEmu) : Z * GpuQueueEmu :=
  match shm with
  | None => (- EFAULT, q)
  | Some es =>
      if size <? sizeof_ring_header + ring_size q * sizeof_entry then (- EINVAL, q)
      else (0, q <| ring_header := Some (mk_ring 0 0 (ring_size q) 0 0 es) |>)
  end.

Definition dequeue (q : GpuQueueEmu) : option gpu_gpfifo_entry * GpuQueueEmu :=
  match ring_header q with
  | None => (None, q)
  | Some r =>
      if read_idx r =? write_idx r then (None, q)
      else
        let idx := read_idx r mod ring_size q in
        (Some (default zero_entry (entries r !! Z.to_nat idx)),
         q <| ring_header := Some (r <| read_idx := u32 (read_idx r + 1) |>) |>)
  end.

Definition hasPending (q : GpuQueueEmu) : bool :=
  match ring_header q with
  | None => false
  | Some r => negb (write_idx r =? read_idx r)
  end.
Definition pendingCount (q : GpuQueueEmu) : Z :=
  match ring_header q with
  | None => 0
  | Some r => u32 (write_idx r - read_idx r)
  end.

Definition setDoorbellCallback (q : GpuQueueEmu) : GpuQueueEmu := q <| doorbell_cb := true |>.
Definition setPuller (q : GpuQueueEmu) : GpuQueueEmu := q <| q_puller := true |>.
(** Whether the callback is invoked, and with which queue id. *)
Definition ringDoorbell (q : GpuQueueEmu) : option Z :=
  if doorbell_cb q then Some (queue_id q) else None.
(** [submit]: refused without a puller, else forwarded to its [submitBatch]. *)
Definition queue_submit (addr count fence : Z) (q : GpuQueueEmu) : Z * option (Z * Z * Z) :=
  if negb (q_puller q) then (- ENODEV, None) else (0, Some (addr, count, fence)).

(** ** [DoorbellEmu] *)
Definition MAX_QUEUES : Z := 1024.
Record DoorbellEmu := mk_DoorbellEmu {
  counts : gmap Z Z;
  db_pending : gset Z;
  db_callback : bool
}.
#[export] Instance eta_DoorbellEmu : Eta DoorbellEmu := fun d =>
  mk_DoorbellEmu (counts d) (db_pending d) (db_callback d).
Definition init_doorbell : DoorbellEmu := mk_DoorbellEmu ∅ ∅ false.

(** Returns whether the callback is invoked. *)
Definition db_write (id : Z) (d : DoorbellEmu) : bool * DoorbellEmu :=
  if MAX_QUEUES <=? id then (false, d)
  else
    (db_callback d,
     d <| counts ::= <[id := u64 (default 0 (counts d !! id) + 1)]> |>
       <| db_pending ::= fun p => {[id]} ∪ p |>).
Definition db_poll (id : Z) (d : DoorbellEmu) : bool :=
  if MAX_QUEUES <=? id then false else bool_decide (id ∈ db_pending d).
Definition db_acknowledge (id : Z) (d : DoorbellEmu) : DoorbellEmu :=
  if id <? MAX_QUEUES then d <| db_pending ::= fun p => p ∖ {[id]} |> else d.
Definition db_setCallback (d : DoorbellEmu) : DoorbellEmu := d <| db_callback := true |>.
Definition getRingCount (id : Z) (d : DoorbellEmu) : Z :=
  if MAX_QUEUES <=? id then 0 else default 0 (counts d !! id).

(** ** The ring as a FIFO *)

(** The client publishes an entry: slot first, index second, and only when the
    ring is not full. *)
Definition produce (e : gpu_gpfifo_entry) (q : GpuQueueEmu) : GpuQueueEmu :=
  match ring_header q with
  | None => q
  | Some r =>
      if pendingCount q <? ring_size q then
        q <| ring_header := Some
          (r <| entries ::= <[Z.to_nat (write_idx r mod ring_size q) := e]> |>
             <| write_idx := u32 (write_idx r + 1) |>) |>
      else q
  end.

Inductive ring_op := Produce (e : gpu_gpfifo_entry) | Consume.
(** Entries accepted and entries delivered by a trace, each in order. *)
Fixpoint ring_run (ops : list ring_op) (q : GpuQueueEmu) :
    list gpu_gpfifo_entry * list gpu_gpfifo_entry * GpuQueueEmu :=
  match ops with
  | [] => ([], [], q)
  | Produce e :: ops' =>
      let full := ring_size q <=? pendingCount q in
      let '(inn, out, q) := ring_run ops' (produce e q) in
      (if full then inn else e :: inn, out, q)
  | Consume :: ops' =>
      match dequeue q with
      | (Some e, q) => let '(inn, out, q) := ring_run ops' q in (inn, e :: out, q)
      | (None, q) => ring_run ops' q
      end
  end.

(** What the ring holds, oldest first. *)
Definition ring_contents (q : GpuQueueEmu) (r : gpu_ring_header) : list gpu_gpfifo_entry :=
  (fun i => default zero_entry
     (entries r !! Z.to_nat (u32 (read_idx r + Z.of_nat i) mod ring_size q))) <$>
  seq 0 (Z.to_nat (u32 (write_idx r - read_idx r))).

(** The capacity divides the index space, the slots exist, and at most
    [ring_size] entries are pending. *)
Record ring_ok (q : GpuQueueEmu) (r : gpu_ring_header) : Prop := {
  ro_header : ring_header q = Some r;
  ro_size : 0 < ring_size q < 2 ^ 32;
  ro_divides : (ring_size q | 2 ^ 32);
  ro_slots : (Z.to_nat (ring_size q) <= length (entries r))%nat;
  ro_write : is_u32 (write_idx r);
  ro_read : is_u32 (read_idx r);
  ro_pending : u32 (write_idx r - read_idx r) <= ring_size q
}.

(** With a capacity that divides 2^32 the slot of a wrapped index is the slot
    of the unwrapped one. *)
Lemma slot_unwrap n x : 0 < n -> (n | 2 ^ 32) -> u32 x mod n = x mod n.
Proof. intros Hn Hd. unfold u32. by apply Z.mod_mod_divide. Qed.

Lemma contents_length q r : length (ring_contents q r) = Z.to_nat (u32 (write_idx r - read_idx r)).
Proof. unfold ring_contents. by rewrite length_fmap, length_seq. Qed.

Lemma contents_lookup q r i :
  (i < Z.to_nat (u32 (write_idx r - read_idx r)))%nat ->
  ring_contents q r !! i =
    Some (default zero_entry (entries r !! Z.to_nat (u32 (read_idx r + Z.of_nat i) mod ring_size q))).
Proof.
  intros Hi. unfold ring_contents. rewrite list_lookup_fmap, lookup_seq_lt by done. done.
Qed.

Lemma dequeue_contents q r :
  ring_ok q r ->
  match ring_contents q r with
  | [] => dequeue q = (None, q)
  | e :: es => exists r', dequeue q = (Some e, q <| ring_header := Some r' |>) /\
      ring_ok (q <| ring_header := Some r' |>) r' /\
      ring_contents (q <| ring_header := Some r' |>) r' = es
  end.
Proof.
  intros [Hh Hs Hd Hsl Hw Hr Hp]. unfold dequeue. rewrite Hh.
  set (n := u32 (write_idx r - read_idx r)) in *.
  assert (Hn : 0 <= n) by apply u32_range.
  destruct (Z.eqb_spec (read_idx r) (write_idx r)) as [Heq|Hne].
  - assert (n = 0) as Hz by (unfold n; rewrite Heq, Z.sub_diag; done).
    assert (length (ring_contents q r) = 0%nat) by (rewrite contents_length; fold n; lia).
    by destruct (ring_contents q r).
  - assert (Hpos : 0 < n).
    { assert (n <> 0) by (unfold n; word). lia. }
    pose proof (contents_lookup q r 0) as H0. fold n in H0. specialize (H0 ltac:(lia)).
    destruct (ring_contents q r) as [|e es] eqn:Ec; [done|]. simpl in H0. injection H0 as ->.
    rewrite Z.add_0_r, (u32_id (read_idx r)) by done.
    eexists. split; [reflexivity|].
    assert (Hn1 : u32 (write_idx r - u32 (read_idx r + 1)) = n - 1) by (unfold n in *; word).
    assert (Hok' : ring_ok (q <| ring_header := Some (r <| read_idx := u32 (read_idx r + 1) |>) |>)
              (r <| read_idx := u32 (read_idx r + 1) |>)).
    { split; simpl; try done; [apply u32_range|rewrite Hn1; lia]. }
    split; [done|].
    apply list_eq. intros i. 
    assert (Hes : es !! i = ring_contents q r !! S i) by (by rewrite Ec). rewrite Hes.
    destruct (decide (i < Z.to_nat (n - 1))%nat) as [Hi|Hi].
    + rewrite contents_lookup by (simpl; rewrite Hn1; lia).
      rewrite contents_lookup by (fold n; lia). simpl. do 4 f_equal. f_equal. word.
    + rewrite !lookup_ge_None_2; [done|rewrite contents_length; fold n; lia|].
      rewrite contents_length. simpl. rewrite Hn1. lia.
Qed.

Lemma produce_contents q r e :
  ring_ok q r -> pendingCount q < ring_size q ->
  exists r', produce e q = q <| ring_header := Some r' |> /\
    ring_ok (q <| ring_header := Some r' |>) r' /\
    ring_contents (q <| ring_header := Some r' |>) r' = ring_contents q r ++ [e].
Proof.
  intros [Hh Hs Hd Hsl Hw Hr Hp] Hroom. unfold produce. rewrite Hh.
  destruct (Z.ltb_spec (pendingCount q) (ring_size q)) as [_|]; [|lia].
  unfold pendingCount in Hroom. rewrite Hh in Hroom.
  set (n := u32 (write_idx r - read_idx r)) in *.
  assert (Hn : 0 <= n) by apply u32_range.
  eexists. split; [reflexivity|]. set (r' := r <| entries ::= _ |> <| write_idx := _ |>).
  assert (Hn1 : u32 (u32 (write_idx r + 1) - read_idx r) = n + 1) by (unfold n in *; word).
  assert (Hlt : (Z.to_nat (write_idx r mod ring_size q) < length (entries r))%nat).
  { pose proof (Z.mod_pos_bound (write_idx r) (ring_size q) ltac:(lia)). lia. }
  assert (Hok' : ring_ok (q <| ring_header := Some r' |>) r').
  { split; simpl; try done; [by rewrite length_insert|apply u32_range|rewrite Hn1; lia]. }
  split; [done|].
  assert (Hidx : forall i, Z.of_nat i < n ->
     Z.to_nat (u32 (read_idx r + Z.of_nat i) mod ring_size q) <>
     Z.to_nat (write_idx r mod ring_size q)).
  { intros i Hi. rewrite slot_unwrap by (done || lia).
    assert (Hwr : write_idx r mod ring_size q = (read_idx r + n) mod ring_size q).
    { rewrite <- (slot_unwrap _ (read_idx r + n)) by (done || lia). f_equal. unfold n in *. word. }
    rewrite Hwr. intros Hc.
    apply Z2Nat.inj in Hc; [|apply Z.mod_pos_bound; lia..].
    pose proof (Z.div_mod (read_idx r + Z.of_nat i) (ring_size q) ltac:(lia)) as H1.
    pose proof (Z.div_mod (read_idx r + n) (ring_size q) ltac:(lia)) as H2.
    rewrite Hc in H1.
    assert (ring_size q * ((read_idx r + n) / ring_size q - (read_idx r + Z.of_nat i) / ring_size q)
            = n - Z.of_nat i) as H3 by lia.
    clearbody n. revert H3. generalize ((read_idx r + n) / ring_size q - (read_idx r + Z.of_nat i) / ring_size q).
    intros k H3. clear -Hi Hroom H3 Hs. destruct (Z.le_gt_cases k 0); nia. }
  apply list_eq. intros i. destruct (decide (i < Z.to_nat n)%nat) as [Hi|Hi].
  - rewrite contents_lookup by (simpl; rewrite Hn1; lia).
    rewrite lookup_app_l by (rewrite contents_length; fold n; lia).
    rewrite contents_lookup by (fold n; lia). simpl.
    rewrite list_lookup_insert_ne; [done|]. intros Hc. apply (Hidx i); [lia|done].
  - destruct (decide (i = Z.to_nat n)) as [->|Hne].
    + rewrite contents_lookup by (simpl; rewrite Hn1; lia).
      rewrite lookup_app_r by (rewrite contents_length; fold n; lia).
      rewrite contents_length. fold n. rewrite Nat.sub_diag. simpl. rewrite Z2Nat.id by lia.
      assert (u32 (read_idx r + n) = write_idx r) as -> by (unfold n in *; word).
      by rewrite list_lookup_insert_eq.
    + rewrite !lookup_ge_None_2; [done| |].
      * rewrite length_app, contents_length. fold n. simpl. lia.
      * rewrite contents_length. simpl. rewrite Hn1. lia.
Qed.

Lemma attach_ok q es size q' :
  attachSharedMemory (Some es) size q = (0, q') -> 0 < ring_size q < 2 ^ 32 ->
  (ring_size q | 2 ^ 32) -> (Z.to_nat (ring_size q) <= length es)%nat ->
  exists r, ring_ok q' r /\ ring_contents q' r = [].
Proof.
  intros Ha Hs Hd Hl. unfold attachSharedMemory in Ha.
  destruct (size <? _); simplify_eq.
  exists (mk_ring 0 0 (ring_size q) 0 0 es). split; [|done].
  split; simpl; try done. change (u32 (0 - 0)) with 0. lia.
Qed.

Lemma ring_run_fifo ops q r inn out q' :
  ring_ok q r -> ring_run ops q = (inn, out, q') ->
  exists r', ring_ok q' r' /\ ring_contents q r ++ inn = out ++ ring_contents q' r'.
Proof.
  revert q r inn out q'. induction ops as [|op ops IH]; intros q r inn out q' Hok Hr.
  { simpl in Hr. simplify_eq. exists r. by rewrite app_nil_r. }
  destruct op as [e|]; cbn [ring_run] in Hr.
  - destruct (Z.leb_spec (ring_size q) (pendingCount q)) as [Hfull|Hroom].
    + assert (produce e q = q) as Hp.
      { unfold produce. rewrite (ro_header q r Hok).
        destruct (Z.ltb_spec (pendingCount q) (ring_size q)); [lia|done]. }
      rewrite Hp in Hr. destruct (ring_run ops q) as [[inn1 out1] q1] eqn:E. simplify_eq.
      by eapply IH.
    + destruct (produce_contents q r e Hok Hroom) as (r1 & Hp & Hok1 & Hc); rewrite Hp in Hr.
      destruct (ring_run ops _) as [[inn1 out1] q1] eqn:E. simplify_eq.
      destruct (IH _ r1 _ _ _ Hok1 E) as (r2 & Hok2 & Hc2). exists r2. split; [done|].
      rewrite <- Hc2, Hc, <- app_assoc. done.
  - pose proof (dequeue_contents q r Hok) as Hd.
    destruct (ring_contents q r) as [|e es] eqn:Ec.
    + rewrite Hd in Hr. destruct (IH q r _ _ _ Hok Hr) as (r2 & Hok2 & Hc2).
      exists r2. by rewrite Ec in Hc2.
    + destruct Hd as (r1 & Hd & Hok1 & Hc). rewrite Hd in Hr.
      destruct (ring_run ops _) as [[inn1 out1] q1] eqn:E. injection Hr as <- <- <-.
      destruct (IH _ r1 _ _ _ Hok1 E) as (r2 & Hok2 & Hc2). exists r2. split; [done|].
      rewrite <- Hc, <- app_comm_cons. rewrite <- app_comm_cons. f_equal. done.
Qed.

(** C26. The ring is a FIFO across index wrap-around: when its capacity divides
    2^32 (every power of two, the default 1024 included), then in any
    interleaving of a client that publishes entries while the ring is not full
    and of the puller's [dequeue], from any position of the 32-bit indices,
    the entries delivered followed by those still in the ring are the entries
    that were in the ring followed by those accepted. *)
Theorem ring_fifo ops q r inn out q' :
  ring_ok q r -> ring_run ops q = (inn, out, q') ->
  exists r', ring_ok q' r' /\ Z.of_nat (length (ring_contents q' r')) = pendingCount q' /\
    ring_contents q r ++ inn = out ++ ring_contents q' r'.
Proof.
  intros Hok Hr. destruct (ring_run_fifo ops q r inn out q' Hok Hr) as (r' & Hok' & Hc).
  exists r'. split; [done|]. split; [|done].
  rewrite contents_length. unfold pendingCount. rewrite (ro_header q' r' Hok').
  pose proof (u32_range (write_idx r' - read_idx r')). lia.
Qed.

Definition tagged (n : Z) : gpu_gpfifo_entry := zero_entry <| valid := 1 |> <| ts_query := n |>.
(** A ring of [n] slots whose indices are about to wrap. *)
Definition wrapping_queue (n : Z) : GpuQueueEmu :=
  new_queue 1 0 0 n <| ring_header :=
    Some (mk_ring UINT64_MAX UINT64_MAX n 0 0 (replicate (Z.to_nat n) zero_entry)
            <| write_idx := 2 ^ 32 - 1 |> <| read_idx := 2 ^ 32 - 1 |>) |>.

Lemma ring_fifo_witness :
  let q := wrapping_queue 4 in
  let '(inn, out, q') := ring_run [Produce (tagged 1); Produce (tagged 2); Consume;
                                   Produce (tagged 3); Consume] q in
  exists r0 r', ring_ok q' r' /\ Z.of_nat (length (ring_contents q' r')) = pendingCount q' /\
    ring_contents q r0 ++ inn = out ++ ring_contents q' r'.
Proof.
  intros q.
  destruct (ring_run [Produce (tagged 1); Produce (tagged 2); Consume;
                      Produce (tagged 3); Consume] q) as [[inn out] q'] eqn:E.
  eexists. eapply (ring_fifo [Produce (tagged 1); Produce (tagged 2); Consume;
                      Produce (tagged 3); Consume] q _ inn out q'); [|exact E].
  split; try reflexivity; try (vm_compute; split; done); try (vm_compute; done).
  by exists (2 ^ 30).
Defined.

(** The divisibility is needed: a ring of three slots loses an entry when the
    indices wrap (slots 2^32 - 1 and 0 are both slot 0). *)
Lemma ring_loses_entry_at_wrap :
  (ring_run [Produce (tagged 1); Produce (tagged 2); Consume; Consume] (wrapping_queue 3)).1 =
    ([tagged 1; tagged 2], [tagged 2; tagged 2]).
Proof. by vm_compute. Qed.
