(* ===== verification/Hal.v ===== *)
(** * The hardware abstraction layer, as seen by its clients

    The part of [struct gpu_hal_ops] ([plugins/gpu_driver/hal/gpu_hal.h]) that
    the simulated hardware calls through function pointers, as an interface
    over an abstract device state; and the laws its clients rely on.
    [HalUser.v] gives the implementation and proves the laws. *)
From S2P Require Import Prelude Bytes GpuTypes.

Definition HAL_HEAP_BASE : Z := 4294967296.   (* 0x100000000 *)
Definition HAL_HEAP_SIZE : Z := 268435456.    (* 256 MiB *)

(** [mem_read] into a local buffer returns the bytes read, [mem_write] takes
    the bytes of a local buffer; [copy_out] and [copy_in] are the same two
    functions called with a client address as host pointer. *)
Class HalOps (H : Type) := {
  mem_read : Z -> Z -> H -> Z * list Z;
  mem_write : Z -> list Z -> H -> Z * H;
  copy_out : Z -> Z -> Z -> H -> Z * H;
  copy_in : Z -> Z -> Z -> H -> Z * H;
  interrupt_raise : Z -> H -> H
}.

(** Addresses whose accesses of the given size stay inside device memory. *)
Definition in_heap (a n : Z) : Prop :=
  HAL_HEAP_BASE <= a /\ 0 <= n /\ a + n <= HAL_HEAP_BASE + HAL_HEAP_SIZE.
Definition byte_list (bs : list Z) : Prop := Forall (fun b => is_u8 b) bs.

Class HalLaws (H : Type) `{HalOps H} := {
  hal_read_ok : forall a n h, in_heap a n ->
    exists bs, mem_read a n h = (0, bs) /\ Z.of_nat (length bs) = n;
  hal_write_ok : forall a bs h, in_heap a (Z.of_nat (length bs)) -> byte_list bs ->
    exists h', mem_write a bs h = (0, h') /\
      mem_read a (Z.of_nat (length bs)) h' = (0, bs) /\
      (forall a' n', in_heap a' n' -> a' + n' <= a \/ a + Z.of_nat (length bs) <= a' ->
         mem_read a' n' h' = mem_read a' n' h);
  hal_interrupt_read : forall v a n h, mem_read a n (interrupt_raise v h) = mem_read a n h
}.

(** [u32 val = 0; mem_read(addr, &val, 4)]: 0 when the read fails. *)
Definition read_u32 {H} `{HalOps H} (a : Z) (h : H) : Z :=
  match mem_read a 4 h with
  | (r, bs) => if r =? 0 then le_val bs else 0
  end.
Definition write_u32 {H} `{HalOps H} (a v : Z) (h : H) : H := (mem_write a (le_bytes 4 v) h).2.

Lemma write_u32_read {H} {HO : HalOps H} {HL : HalLaws H} a v h :
  in_heap a 4 -> is_u32 v -> read_u32 a (write_u32 a v h) = v.
Proof.
  intros Ha Hv. unfold read_u32, write_u32.
  destruct (hal_write_ok a (le_bytes 4 v) h) as (h' & Hw & Hr & _).
  - by rewrite length_le_bytes.
  - apply le_bytes_range.
  - rewrite Hw. simpl. rewrite length_le_bytes in Hr. change (Z.of_nat 4) with 4 in Hr.
    rewrite Hr. by apply (le_val_id 4 v).
Qed.
