(* ===== verification/SimHw.v ===== *)
(** * Small hardware blocks

    Timestamp queries ([plugins/gpu_driver/sim/hardware/timestamp_query.cpp]),
    interrupt vectors ([sim/hardware/interrupt.cpp]) and the method packet
    codec ([sim/hardware/method_codec.cpp]). *)
From S2P Require Import Prelude.

(** ** Timestamp queries *)
Record TimestampQueryEntry := mk_tsq {
  tsq_recorded : bool;
  tsq_entry_index : Z;
  tsq_tick : Z
}.
Definition init_tsq : TimestampQueryEntry := mk_tsq false 0 0.
(** The handle table; a slot is [None] when free. *)
Abbreviation query_table := (list (option TimestampQueryEntry)).

Fixpoint first_free (t : query_table) : option nat :=
  match t with
  | [] => None
  | None :: _ => Some 0%nat
  | Some _ :: t' => S <$> first_free t'
  end.
Definition alloc_slot (e : TimestampQueryEntry) (t : query_table) : Z * query_table :=
  match first_free t with
  | Some i => (Z.of_nat i + 1, <[i := Some e]> t)
  | None => (Z.of_nat (length t) + 1, t ++ [Some e])
  end.
Definition lookup_slot (handle : Z) (t : query_table) : option TimestampQueryEntry :=
  if handle =? 0 then None else t !! Z.to_nat (handle - 1) ≫= id.
Definition free_slot (handle : Z) (t : query_table) : query_table :=
  if handle =? 0 then t else <[Z.to_nat (handle - 1) := None]> t.

Definition sim_timestamp_query_create (t : query_table) : Z * query_table :=
  alloc_slot init_tsq t.
Definition sim_timestamp_query_record (q idx tick : Z) (t : query_table) : query_table :=
  match lookup_slot q t with
  | None => t
  | Some _ => <[Z.to_nat (q - 1) := Some (mk_tsq true idx tick)]> t
  end.
(** The tick is returned as an [int]. *)
Definition sim_timestamp_query_resolve (q : Z) (t : query_table) : Z :=
  match lookup_slot q t with
  | None => - EINVAL
  | Some e => if negb (tsq_recorded e) then - EAGAIN else s32 (tsq_tick e)
  end.
Definition sim_timestamp_query_destroy (q : Z) (t : query_table) : query_table := free_slot q t.

Inductive tsq_op :=
| TCreate
| TRecord (q idx tick : Z)
| TDestroy (q : Z).
Definition tsq_apply (op : tsq_op) (t : query_table) : query_table :=
  match op with
  | TCreate => (sim_timestamp_query_create t).2
  | TRecord q i k => sim_timestamp_query_record q i k t
  | TDestroy q => sim_timestamp_query_destroy q t
  end.
Definition tsq_run (ops : list tsq_op) (t : query_table) : query_table :=
  fold_left (fun t op => tsq_apply op t) ops t.
(** The operation does not name handle [q]. *)
Definition spares (q : Z) (op : tsq_op) : Prop :=
  match op with
  | TCreate => True
  | TRecord q' _ _ | TDestroy q' => q' <> q /\ 0 <= q'
  end.

Lemma first_free_Some t i : first_free t = Some i -> t !! i = Some None.
Proof.
  revert i. induction t as [|[e|] t IH]; intros i H; simpl in H; simplify_eq; [|done].
  destruct (first_free t) as [j|]; simpl in H; simplify_eq. by apply IH.
Qed.
Lemma first_free_None t i : first_free t = None -> t !! i <> Some None.
Proof.
  revert i. induction t as [|[e|] t IH]; intros [|i] H; simpl in H; simplify_eq; try done.
  destruct (first_free t) eqn:E; [done|]. by apply IH.
Qed.

Lemma alloc_slot_spec e t :
  let '(h, t') := alloc_slot e t in
  1 <= h /\ lookup_slot h t = None /\ lookup_slot h t' = Some e /\
  (forall q, 0 <= q -> q <> h -> lookup_slot q t' = lookup_slot q t).
Proof.
  unfold alloc_slot, lookup_slot. destruct (first_free t) as [i|] eqn:E.
  - apply first_free_Some in E as Hi. split; [lia|].
    destruct (Z.eqb_spec (Z.of_nat i + 1) 0); [lia|].
    replace (Z.to_nat (Z.of_nat i + 1 - 1)) with i by lia. rewrite Hi.
    rewrite list_lookup_insert_eq by (by eapply lookup_lt_Some). split; [done|]. split; [done|].
    intros q Hq Hne. destruct (Z.eqb_spec q 0); [done|]. by rewrite list_lookup_insert_ne by lia.
  - split; [lia|]. destruct (Z.eqb_spec (Z.of_nat (length t) + 1) 0); [lia|].
    replace (Z.to_nat (Z.of_nat (length t) + 1 - 1)) with (length t) by lia.
    rewrite lookup_ge_None_2 by lia. rewrite lookup_app_r, Nat.sub_diag by lia.
    split; [done|]. split; [done|]. intros q Hq Hne. destruct (Z.eqb_spec q 0); [done|].
    destruct (decide (Z.to_nat (q - 1) < length t)%nat) as [Hl|Hl]; [by rewrite lookup_app_l|].
    rewrite (lookup_ge_None_2 t) by lia. by rewrite lookup_ge_None_2 by (rewrite length_app; simpl; lia).
Qed.

Lemma tsq_apply_spares op t q e :
  0 <= q -> lookup_slot q t = Some e -> spares q op -> lookup_slot q (tsq_apply op t) = Some e.
Proof.
  intros Hq Hl Hs. destruct op as [|q' i k|q']; simpl in *.
  - pose proof (alloc_slot_spec init_tsq t) as Ha. unfold sim_timestamp_query_create.
    destruct (alloc_slot init_tsq t) as [h t']. destruct Ha as (_ & Hn & _ & Ho). simpl.
    rewrite Ho; [done|done|]. intros ->. congruence.
  - unfold sim_timestamp_query_record. destruct (lookup_slot q' t) eqn:E; [|done].
    unfold lookup_slot in *. destruct (Z.eqb_spec q 0); [done|].
    destruct (Z.eqb_spec q' 0); [done|]. rewrite list_lookup_insert_ne by lia. done.
  - unfold sim_timestamp_query_destroy, free_slot. destruct (Z.eqb_spec q' 0); [done|].
    unfold lookup_slot in *. destruct (Z.eqb_spec q 0); [done|].
    by rewrite list_lookup_insert_ne by lia.
Qed.

(** A timestamp query keeps what was recorded in it: from its creation the
    query reads as not recorded, after [record] it resolves to the recorded
    tick (as a 32-bit int), and no creation, recording or destruction of other
    queries in between changes that; after destruction it reads as invalid, and
    destroying it again changes nothing. *)
Theorem tsq_lifecycle t q t0 ops ops' idx tick :
  sim_timestamp_query_create t = (q, t0) -> Forall (spares q) ops -> Forall (spares q) ops' ->
  let t1 := tsq_run ops t0 in
  let t2 := tsq_run ops' (sim_timestamp_query_record q idx tick t1) in
  let t3 := sim_timestamp_query_destroy q t2 in
  sim_timestamp_query_resolve q t1 = - EAGAIN /\
  sim_timestamp_query_resolve q t2 = s32 tick /\
  sim_timestamp_query_resolve q t3 = - EINVAL /\
  sim_timestamp_query_destroy q t3 = t3.
Proof.
  intros Hc Hops Hops'. pose proof (alloc_slot_spec init_tsq t) as Ha.
  unfold sim_timestamp_query_create in Hc. rewrite Hc in Ha. destruct Ha as (Hq & _ & H0 & _).
  assert (Hrun : forall ops t e, lookup_slot q t = Some e -> Forall (spares q) ops ->
    lookup_slot q (tsq_run ops t) = Some e).
  { clear -Hq. induction ops as [|op ops IH]; intros t e Hl Hs; [done|].
    inversion Hs; subst. apply IH; [|done]. apply tsq_apply_spares; [lia|done..]. }
  intros t1 t2 t3. pose proof (Hrun ops t0 _ H0 Hops) as H1. fold t1 in H1.
  assert (H2 : lookup_slot q t2 = Some (mk_tsq true idx tick)).
  { apply Hrun; [|done]. unfold sim_timestamp_query_record. rewrite H1.
    unfold lookup_slot in *. destruct (Z.eqb_spec q 0); [done|].
    destruct (t1 !! Z.to_nat (q - 1)) eqn:E; [|done].
    by rewrite list_lookup_insert_eq by (by eapply lookup_lt_Some). }
  assert (Hlt : (Z.to_nat (q - 1) < length t2)%nat).
  { unfold lookup_slot in H2. destruct (Z.eqb_spec q 0); [done|].
    destruct (t2 !! Z.to_nat (q - 1)) eqn:E; [|done]. by eapply lookup_lt_Some. }
  unfold sim_timestamp_query_resolve. rewrite H1, H2. simpl.
  unfold t3, sim_timestamp_query_destroy, free_slot, lookup_slot.
  destruct (Z.eqb_spec q 0); [lia|]. rewrite list_lookup_insert_eq by done.
  repeat split. by rewrite list_insert_insert_eq.
Qed.

Lemma tsq_lifecycle_witness :
  let t := [Some init_tsq; None] in
  let t0 := (sim_timestamp_query_create t).2 in
  let t1 := tsq_run [TCreate; TRecord 1 0 5] t0 in
  let t2 := tsq_run [TDestroy 1] (sim_timestamp_query_record 2 7 99 t1) in
  let t3 := sim_timestamp_query_destroy 2 t2 in
  sim_timestamp_query_resolve 2 t1 = - EAGAIN /\
  sim_timestamp_query_resolve 2 t2 = s32 99 /\
  sim_timestamp_query_resolve 2 t3 = - EINVAL /\
  sim_timestamp_query_destroy 2 t3 = t3.
Proof.
  intros t t0. apply (tsq_lifecycle t 2 t0 [TCreate; TRecord 1 0 5] [TDestroy 1] 7 99).
  - reflexivity.
  - repeat constructor; simpl; lia.
  - repeat constructor; simpl; lia.
Defined.

(** A tick of 2^32 - 22 resolves to the error code [-EINVAL]. *)
Lemma tsq_tick_truncated :
  let '(q, t) := sim_timestamp_query_create [] in
  sim_timestamp_query_resolve q (sim_timestamp_query_record q 0 (2 ^ 32 - 22) t) = - EINVAL.
Proof. reflexivity. Qed.

(** ** Interrupt vectors: handlers, and the work queue of pending calls *)
Definition kNumVectors : Z := 4.
Record interrupt_state := mk_interrupts {
  g_handlers : gmap Z Z;
  g_interrupt_wq : list (Z * Z)
}.
#[export] Instance eta_interrupts : Eta interrupt_state := fun s =>
  mk_interrupts (g_handlers s) (g_interrupt_wq s).
(** [handler] is [None] for a null pointer. *)
Definition interrupt_register (vector : Z) (handler : option Z) (s : interrupt_state) :
    Z * interrupt_state :=
  if kNumVectors <=? vector then (- EINVAL, s)
  else (0, s <| g_handlers ::= partial_alter (fun _ => handler) vector |>).
Definition interrupt_raise_ex (vector data : Z) (s : interrupt_state) : interrupt_state :=
  if kNumVectors <=? vector then s
  else match g_handlers s !! vector with
  | None => s
  | Some h => s <| g_interrupt_wq ::= fun q => q ++ [(h, data)] |>
  end.

(** ** Method packets *)
Record gpu_method_packet := mk_packet { method_addr : Z; engine : Z; data_count : Z }.

Definition method_codec_encode (p : gpu_method_packet) (data : option (list Z)) : list Z :=
  u32 (Z.lor (Z.lor (Z.shiftl (method_addr p) 16) (Z.shiftl (engine p) 8)) (data_count p)) ::
  ((fun i => match data with Some d => default 0 (d !! i) | None => 0 end) <$>
     seq 0 (Z.to_nat (data_count p))).
Definition method_codec_decode (buf : list Z) : gpu_method_packet :=
  match buf with
  | [] => mk_packet 0 0 0
  | h :: _ => mk_packet (Z.land (Z.shiftr h 16) 65535) (Z.land (Z.shiftr h 8) 255) (Z.land h 255)
  end.
Record packet_ok (p : gpu_method_packet) : Prop := {
  pk_addr : is_u16 (method_addr p);
  pk_engine : is_u8 (engine p);
  pk_count : is_u8 (data_count p)
}.

Lemma packet_header p :
  packet_ok p ->
  Z.lor (Z.lor (Z.shiftl (method_addr p) 16) (Z.shiftl (engine p) 8)) (data_count p) =
    data_count p + engine p * 2 ^ 8 + method_addr p * 2 ^ 16.
Proof.
  intros [Ha He Hc]. rewrite (Z.lor_comm (Z.shiftl (method_addr p) 16)).
  rewrite lor_add_shift by (rewrite ?Z.shiftl_mul_pow2; lia).
  rewrite Z.shiftl_mul_pow2 by lia.
  replace (engine p * 2 ^ 8 + method_addr p * 2 ^ 16)
    with (Z.shiftl (engine p + method_addr p * 2 ^ 8) 8) by (rewrite Z.shiftl_mul_pow2 by lia; lia).
  rewrite Z.lor_comm, lor_add_shift by lia. lia.
Qed.

(** The method packet codec is lossless on headers: decoding an encoded
    packet gives its address, engine and count back, and the encoding has one
    word per data item after the header, missing data being zero-filled. *)
Theorem method_codec_roundtrip p data :
  packet_ok p ->
  method_codec_decode (method_codec_encode p data) = p /\
  length (method_codec_encode p data) = S (Z.to_nat (data_count p)) /\
  (forall i d, (i < Z.to_nat (data_count p))%nat -> data = Some d ->
     method_codec_encode p data !! S i = Some (default 0 (d !! i))).
Proof.
  intros Hok. split; [|split].
  - unfold method_codec_encode, method_codec_decode. rewrite packet_header by done.
    destruct Hok as [Ha He Hc]. destruct p as [a e c]. simpl in *. rewrite u32_id by lia.
    change 65535 with (2 ^ 16 - 1). change 255 with (2 ^ 8 - 1).
    rewrite !land_ones_mod, !Z.shiftr_div_pow2 by lia. f_equal; Z.div_mod_to_equations; lia.
  - unfold method_codec_encode. cbn [length]. by rewrite length_fmap, length_seq.
  - intros i d Hi ->. unfold method_codec_encode. simpl lookup.
    by rewrite list_lookup_fmap, lookup_seq_lt.
Qed.

Lemma method_codec_roundtrip_witness :
  let p := mk_packet 267 1 2 in
  method_codec_decode (method_codec_encode p (Some [7; 8])) = p /\
  length (method_codec_encode p (Some [7; 8])) = S (Z.to_nat (data_count p)) /\
  (forall i d, (i < Z.to_nat (data_count p))%nat -> Some [7; 8] = Some d ->
     method_codec_encode p (Some [7; 8]) !! S i = Some (default 0 (d !! i))).
Proof. intros p. apply method_codec_roundtrip. split; simpl; lia. Defined.
