(* ===== verification/Buddy.v ===== *)
(** * The buddy allocator

    [libgpu_core/src/buddy.c] over [libgpu_core/include/gpu_buddy.h].

    A free list is the list of the addresses of its blocks, head first.  The
    list nodes come from a fixed pool that only grows ([pool_free] is empty),
    so a node is never shared or reused and its identity carries nothing beyond
    its address; what remains of the pool is the count of nodes used. *)
From S2P Require Import Prelude.

Definition GPU_BUDDY_MIN_BLOCK_SIZE : Z := 4096.
Definition GPU_BUDDY_MAX_ORDER : Z := 21.
Definition GPU_BUDDY_MAX_RECORDS : Z := 4096.
Definition BLOCK_POOL_SIZE : Z := GPU_BUDDY_MAX_RECORDS + GPU_BUDDY_MAX_ORDER + 1.

Record gpu_buddy_record := mk_record {
  r_addr : Z;
  r_size : Z;
  r_order : Z;
  r_used : bool
}.
#[export] Instance eta_record : Eta gpu_buddy_record := fun r =>
  mk_record (r_addr r) (r_size r) (r_order r) (r_used r).

Record gpu_buddy := mk_buddy {
  base_addr : Z;
  pool_size : Z;
  max_order : Z;
  free_lists : gmap Z (list Z);
  block_pool_used : Z;
  records : list gpu_buddy_record;
  record_count : Z
}.
#[export] Instance eta_buddy : Eta gpu_buddy := fun b =>
  mk_buddy (base_addr b) (pool_size b) (max_order b) (free_lists b) (block_pool_used b)
    (records b) (record_count b).

Definition unused_record : gpu_buddy_record := mk_record 0 0 0 false.
Definition init_records : list gpu_buddy_record :=
  replicate (Z.to_nat GPU_BUDDY_MAX_RECORDS) unused_record.

(** ** Arithmetic helpers *)
Definition smear (n x : Z) : Z := Z.lor x (Z.shiftr x n).
Definition round_up_pow2 (size : Z) : Z :=
  if size =? 0 then GPU_BUDDY_MIN_BLOCK_SIZE
  else u64 (smear 32 (smear 16 (smear 8 (smear 4 (smear 2 (smear 1 (size - 1)))))) + 1).

(** The loop of [order_for_size], at most [GPU_BUDDY_MAX_ORDER] rounds. *)
Fixpoint order_loop (fuel : nat) (block_size size order : Z) : Z :=
  match fuel with
  | O => order
  | S n => if block_size <? size then order_loop n (u64 (block_size * 2)) size (order + 1)
           else order
  end.
Definition order_for_size (size : Z) : Z :=
  order_loop (Z.to_nat GPU_BUDDY_MAX_ORDER) GPU_BUDDY_MIN_BLOCK_SIZE size 0.

Definition block_bytes (order : Z) : Z := u64 (Z.shiftl GPU_BUDDY_MIN_BLOCK_SIZE order).
Definition buddy_addr (base addr block_size : Z) : Z :=
  u64 (base + Z.lxor (u64 (addr - base)) block_size).
Definition are_adjacent (a b block_size : Z) : bool :=
  (u64 (a + block_size) =? b) || (u64 (b + block_size) =? a).

(** ** Block pool and free lists *)
(** Whether a node was available. *)
Definition pool_alloc (b : gpu_buddy) : bool * gpu_buddy :=
  if BLOCK_POOL_SIZE <=? block_pool_used b then (false, b)
  else (true, b <| block_pool_used ::= fun n => n + 1 |>).

Definition flist (b : gpu_buddy) (o : Z) : list Z := default [] (free_lists b !! o).
Definition set_flist (o : Z) (l : list Z) (b : gpu_buddy) : gpu_buddy :=
  b <| free_lists ::= <[o := l]> |>.

Definition free_list_insert (addr order : Z) (b : gpu_buddy) : gpu_buddy :=
  if max_order b <? order then b else set_flist order (addr :: flist b order) b.

Fixpoint remove_first (a : Z) (l : list Z) : list Z :=
  match l with
  | [] => []
  | x :: l' => if x =? a then l' else x :: remove_first a l'
  end.
Definition free_list_remove_block (addr order : Z) (b : gpu_buddy) : gpu_buddy :=
  if max_order b <? order then b else set_flist order (remove_first addr (flist b order)) b.

Definition free_list_pop (order : Z) (b : gpu_buddy) : option Z * gpu_buddy :=
  if max_order b <? order then (None, b)
  else match flist b order with
       | [] => (None, b)
       | a :: l => (Some a, set_flist order l b)
       end.

Definition find_buddy_in_list (addr order : Z) (b : gpu_buddy) : bool :=
  existsb (fun a => a =? addr) (flist b order).

(** Take a node for a block at [addr] and insert it; the block is lost when
    the pool is exhausted. *)
Definition insert_new (addr order : Z) (b : gpu_buddy) : gpu_buddy :=
  match pool_alloc b with
  | (true, b) => free_list_insert addr order b
  | (false, b) => b
  end.

(** ** Records *)
Fixpoint add_in (r : gpu_buddy_record) (i : Z) (l : list gpu_buddy_record) :
    option (Z * list gpu_buddy_record) :=
  match l with
  | [] => None
  | x :: l' =>
      if r_used x then
        match add_in r (i + 1) l' with Some (j, l'') => Some (j, x :: l'') | None => None end
      else Some (i, r :: l')
  end.
Definition add_record (addr size order : Z) (b : gpu_buddy) : Z * gpu_buddy :=
  match add_in (mk_record addr size order true) 0 (records b) with
  | Some (i, l) =>
      (0, b <| records := l |> <| record_count ::= fun c => if c <=? i then i + 1 else c |>)
  | None => (-1, b)
  end.

Fixpoint find_in (addr : Z) (l : list gpu_buddy_record) : option gpu_buddy_record :=
  match l with
  | [] => None
  | x :: l' => if r_used x && (r_addr x =? addr) then Some x else find_in addr l'
  end.
Definition find_record (addr : Z) (b : gpu_buddy) : option gpu_buddy_record :=
  find_in addr (records b).

Fixpoint remove_in (addr : Z) (l : list gpu_buddy_record) : list gpu_buddy_record :=
  match l with
  | [] => []
  | x :: l' => if r_used x && (r_addr x =? addr) then (x <| r_used := false |>) :: l'
               else x :: remove_in addr l'
  end.
Fixpoint shrink (n : nat) (l : list gpu_buddy_record) : nat :=
  match n with
  | O => O
  | S m => match l !! m with
           | Some r => if r_used r then n else shrink m l
           | None => shrink m l
           end
  end.
Definition remove_record (addr : Z) (b : gpu_buddy) : gpu_buddy :=
  match find_in addr (records b) with
  | None => b
  | Some _ =>
      let l := remove_in addr (records b) in
      b <| records := l |> <| record_count ::= fun c => Z.of_nat (shrink (Z.to_nat c) l) |>
  end.

(** ** Coalescing *)
(** The scan of one level: the first block whose buddy is in the list too. *)
Fixpoint find_pair (b : gpu_buddy) (order : Z) (l : list Z) : option (Z * Z) :=
  match l with
  | [] => None
  | a :: l' =>
      let bs := block_bytes order in
      let ba := buddy_addr (base_addr b) a bs in
      if find_buddy_in_list ba order b && are_adjacent a ba bs then Some (a, ba)
      else find_pair b order l'
  end.

(** One level with [fuel] merges ahead of it; [up] coalesces the next level.
    After a merge the scan restarts at the head of the list. *)
Fixpoint coalesce_level (up : gpu_buddy -> gpu_buddy) (fuel : nat) (order : Z) (b : gpu_buddy) :
    gpu_buddy :=
  match fuel with
  | O => b
  | S n =>
      match find_pair b order (flist b order) with
      | None => b
      | Some (a, ba) =>
          let b := free_list_remove_block ba order (free_list_remove_block a order b) in
          coalesce_level up n order (up (insert_new (if a <? ba then a else ba) (order + 1) b))
      end
  end.

(** [levels] = [max_order - order]; a merge takes two blocks off the list, so
    its length bounds the number of merges. *)
Fixpoint coalesce (levels : nat) (order : Z) (b : gpu_buddy) : gpu_buddy :=
  match levels with
  | O => b
  | S n => coalesce_level (coalesce n (order + 1)) (length (flist b order)) order b
  end.

(** ** The interface *)
(** [max_order]: least order whose block covers [size], found with at most 64
    doublings (the shift of the code is defined up to there). *)
Fixpoint init_order (fuel : nat) (size order : Z) : Z :=
  match fuel with
  | O => order
  | S n => if block_bytes order <? size then init_order n size (order + 1) else order
  end.

Definition gpu_buddy_init (base size : Z) : gpu_buddy :=
  let o := init_order 64 size 0 in
  let o := if GPU_BUDDY_MAX_ORDER <? o then GPU_BUDDY_MAX_ORDER else o in
  insert_new base o (mk_buddy base size o ∅ 0 init_records 0).

(** First order from [o] on, within [n] orders, with a free block. *)
Fixpoint find_order (n : nat) (o : Z) (b : gpu_buddy) : option Z :=
  match n with
  | O => None
  | S m => match flist b o with [] => find_order m (o + 1) b | _ :: _ => Some o end
  end.

(** Split from [order + n] down to [order]: the state and the order reached. *)
Fixpoint split_down (n : nat) (order : Z) (b : gpu_buddy) : gpu_buddy * Z :=
  match n with
  | O => (b, order)
  | S m =>
      let t := order + Z.of_nat n in
      match free_list_pop t b with
      | (None, b) => (b, t)
      | (Some a, b) =>
          let h := block_bytes t / 2 in
          let '(gl, b) := pool_alloc b in
          let '(gr, b) := pool_alloc b in
          let b := if gl then free_list_insert a (t - 1) b else b in
          let b := if gr then free_list_insert (u64 (a + h)) (t - 1) b else b in
          split_down m order b
      end
  end.

Definition gpu_buddy_alloc (size : Z) (b : gpu_buddy) : Z * option Z * gpu_buddy :=
  if size =? 0 then (-1, None, b)
  else
    let aligned := round_up_pow2 size in
    let aligned := if aligned <? GPU_BUDDY_MIN_BLOCK_SIZE then GPU_BUDDY_MIN_BLOCK_SIZE
                   else aligned in
    let order := order_for_size aligned in
    match find_order (Z.to_nat (max_order b - order + 1)) order b with
    | None => (-1, None, b)
    | Some t =>
        let '(b, t) := split_down (Z.to_nat (t - order)) order b in
        match free_list_pop t b with
        | (None, b) => (-1, None, b)
        | (Some addr, b) =>
            match add_record addr aligned t b with
            | (0, b) => (0, Some addr, b)
            | (_, b) => (-1, None, insert_new addr t b)
            end
        end
    end.

Definition gpu_buddy_free (addr : Z) (b : gpu_buddy) : Z * gpu_buddy :=
  match find_record addr b with
  | None => (-1, b)
  | Some r =>
      let o := r_order r in
      let b := insert_new addr o (remove_record addr b) in
      (0, coalesce (Z.to_nat (max_order b - o)) o b)
  end.

Definition gpu_buddy_reset (b : gpu_buddy) : gpu_buddy :=
  insert_new (base_addr b) (max_order b)
    (b <| free_lists := ∅ |> <| block_pool_used := 0 |> <| record_count := 0 |>
       <| records := init_records |>).

Definition gpu_buddy_free_size (b : gpu_buddy) : Z :=
  fold_left (fun t o => fold_left (fun t _ => u64 (t + block_bytes o)) (flist b o) t)
    (seqZ 0 (max_order b + 1)) 0.

Definition gpu_buddy_allocated_count (b : gpu_buddy) : Z :=
  Z.of_nat (length (List.filter r_used (records b))).

#[global] Opaque init_records.

(** ** Concrete runs *)
Fixpoint alloc_free_cycles (n : nat) (size : Z) (b : gpu_buddy) : gpu_buddy :=
  match n with
  | O => b
  | S m => match gpu_buddy_alloc size b with
           | (_, Some a, b) => alloc_free_cycles m size (gpu_buddy_free a b).2
           | (_, None, b) => b
           end
  end.
