(* ===== verification/BuddySafe.v ===== *)
(** * Safety of the buddy allocator

    Free and allocated blocks are pairwise disjoint, naturally aligned and
    inside the pool, and no byte is lost until the node pool runs out; what
    allocation and release do to the set of allocated blocks. *)
From S2P Require Import Prelude Buddy.

(** Size of a block of order [o], and the blocks as (address, order) pairs. *)
Definition sz (o : Z) : Z := GPU_BUDDY_MIN_BLOCK_SIZE * 2 ^ o.
Abbreviation block := (Z * Z)%type.
Implicit Types x y : block.

Definition disj x y : Prop := x.1 + sz x.2 <= y.1 \/ y.1 + sz y.2 <= x.1.
Fixpoint pairwise (l : list block) : Prop :=
  match l with [] => True | x :: l' => Forall (disj x) l' /\ pairwise l' end.
Definition in_pool (B M : Z) x : Prop :=
  0 <= x.2 <= M /\ B <= x.1 /\ x.1 + sz x.2 <= B + sz M /\ (sz x.2 | x.1 - B).
Fixpoint total (l : list block) : Z :=
  match l with [] => 0 | x :: l' => sz x.2 + total l' end.

Definition good (B M : Z) (l : list block) : Prop := pairwise l /\ Forall (in_pool B M) l.

Lemma sz_pos o : 0 <= o -> 0 < sz o.
Proof. intros. unfold sz, GPU_BUDDY_MIN_BLOCK_SIZE. pose proof (Z.pow_pos_nonneg 2 o). lia. Qed.
Lemma sz_succ o : 0 <= o -> sz (o + 1) = 2 * sz o.
Proof. intros. unfold sz. rewrite Z.pow_add_r by lia. lia. Qed.

Lemma disj_sym x y : disj x y -> disj y x.
Proof. unfold disj. lia. Qed.

Lemma good_perm B M l l' : l ≡ₚ l' -> good B M l -> good B M l'.
Proof.
  intros Hp [H1 H2]. split; [|by rewrite <- Hp]. clear H2. induction Hp as [|x l l' Hp IH|x y l|]; simpl in *.
  - done.
  - destruct H1 as [H1 H2]. split; [by rewrite <- Hp|by apply IH].
  - destruct H1 as (H1 & H2 & H3). inversion H1; subst. split; [|done].
    constructor; [by apply disj_sym|done].
  - auto.
Qed.
Lemma total_perm l l' : l ≡ₚ l' -> total l = total l'.
Proof. induction 1; simpl; lia. Qed.
Lemma total_app l l' : total (l ++ l') = total l + total l'.
Proof. induction l; simpl; lia. Qed.
Lemma good_tail B M x l : good B M (x :: l) -> good B M l.
Proof. intros [[_ H1] H2]. inversion H2. by split. Qed.

Lemma sz_divide o o' : 0 <= o <= o' -> (sz o | sz o').
Proof.
  intros. unfold sz. exists (2 ^ (o' - o)).
  replace o' with (o' - o + o) at 1 by lia. rewrite Z.pow_add_r by lia. lia.
Qed.

Lemma good_split B M a t l :
  0 < t -> good B M ((a, t) :: l) ->
  good B M ((a, t - 1) :: (a + sz (t - 1), t - 1) :: l).
Proof.
  intros Ht [[Hd Hp] Hin]. inversion Hin as [|?? Ha Hl]; subst. destruct Ha as (Ho & Hb & He & Hdv).
  simpl in *. assert (Hs : sz t = 2 * sz (t - 1)) by (rewrite <- sz_succ by lia; f_equal; lia).
  pose proof (sz_pos (t - 1) ltac:(lia)).
  assert (Hdv' : (sz (t - 1) | a - B)) by (etrans; [apply (sz_divide (t - 1) t); lia|done]).
  assert (Hsub : forall c y, (c = a \/ c = a + sz (t - 1)) -> disj (a, t) y -> disj (c, t - 1) y).
  { intros c y Hc Hy. unfold disj in *. simpl in *. lia. }
  split; simpl.
  - split; [constructor|split; [|done]].
    + left. simpl. lia.
    + eapply Forall_impl; [exact Hd|]. intros y. apply Hsub. by left.
    + eapply Forall_impl; [exact Hd|]. intros y. apply Hsub. by right.
  - constructor; [|constructor; [|done]].
    + split; simpl; [lia|]. split; [lia|]. split; [lia|done].
    + split; simpl; [lia|]. split; [lia|]. split; [lia|].
      replace (a + sz (t - 1) - B) with (a - B + sz (t - 1)) by lia.
      apply Z.divide_add_r; [done|apply Z.divide_refl].
Qed.

(** Flipping the bit of the block size in a block-aligned offset. *)
Lemma lxor_flip k n :
  0 <= n -> 0 <= k ->
  Z.lxor (k * 2 ^ n) (2 ^ n) = if Z.even k then (k + 1) * 2 ^ n else (k - 1) * 2 ^ n.
Proof.
  intros Hn Hk. rewrite <- (Z.mul_1_l (2 ^ n)) at 2.
  rewrite <- !Z.shiftl_mul_pow2 by done.
  assert (H2 : forall j, Z.land (2 * j) 1 = 0).
  { intros j. pose proof (land_ones_mod (2 * j) 1 ltac:(lia)) as Hm.
    change (2 ^ 1 - 1) with 1 in Hm. rewrite Hm, Z.mul_comm, Z.mod_mul; done. }
  rewrite <- Z.shiftl_lxor. destruct (Z.even k) eqn:E.
  - apply Z.even_spec in E as [j ->]. by rewrite <- Z.add_nocarry_lxor by apply H2.
  - rewrite <- Z.negb_odd in E. apply negb_false_iff, Z.odd_spec in E as [j ->].
    replace (2 * j + 1 - 1) with (2 * j) by lia. f_equal.
    rewrite (Z.add_nocarry_lxor (2 * j) 1) by apply H2.
    by rewrite Z.lxor_assoc, Z.lxor_nilpotent, Z.lxor_0_r.
Qed.

Lemma sz_pow o : 0 <= o -> sz o = 2 ^ (o + 12).
Proof. intros. unfold sz, GPU_BUDDY_MIN_BLOCK_SIZE. rewrite Z.pow_add_r by lia. lia. Qed.

Lemma sz_mono o o' : 0 <= o <= o' -> sz o <= sz o'.
Proof. intros. rewrite !sz_pow by lia. apply Z.pow_le_mono_r; lia. Qed.

Lemma block_bytes_sz o : 0 <= o <= 21 -> block_bytes o = sz o.
Proof.
  intros Ho. unfold block_bytes. rewrite Z.shiftl_mul_pow2 by lia. fold (sz o).
  apply u64_id. pose proof (sz_pos o ltac:(lia)). pose proof (sz_mono o 21 ltac:(lia)).
  change (sz 21) with 8589934592 in *. lia.
Qed.

(** Geometry of a pool of [M] orders at [B]. *)
Definition geo (B M : Z) : Prop := 0 <= B /\ 0 <= M <= 21 /\ B + sz M < 2 ^ 64.

Lemma buddy_addr_cases B M a o :
  geo B M -> in_pool B M (a, o) ->
  exists k, 0 <= k /\ a - B = k * sz o /\
    buddy_addr B a (block_bytes o) =
      if Z.even k then u64 (a + sz o) else a - sz o.
Proof.
  intros (HB & HM & Hw) (Ho & Hb & He & [k Hk]). simpl in *. exists k.
  pose proof (sz_pos o ltac:(lia)). assert (0 <= k) by nia. split; [done|]. split; [done|].
  unfold buddy_addr. rewrite block_bytes_sz by lia.
  rewrite (u64_id (a - B)) by lia. rewrite Hk, sz_pow, lxor_flip by lia. rewrite <- sz_pow by lia.
  destruct (Z.even k) eqn:E; [f_equal; nia|].
  assert (1 <= k) by (destruct (Z.eq_dec k 0) as [->|]; [done|lia]).
  assert (sz o <= k * sz o) by nia.
  replace (B + (k - 1) * sz o) with (a - sz o) by (rewrite Z.mul_sub_distr_r; lia).
  apply u64_id. lia.
Qed.

Lemma good_merge B M a o l :
  geo B M -> o < M ->
  let ba := buddy_addr B a (block_bytes o) in
  good B M ((a, o) :: (ba, o) :: l) ->
  good B M ((if a <? ba then a else ba, o + 1) :: l).
Proof.
  intros Hg Ho ba [[Hd1 [Hd2 Hp]] Hin]. inversion Hin as [|?? Ha Hin2]; subst.
  inversion Hin2 as [|?? Hba Hl]; subst.
  destruct (buddy_addr_cases B M a o Hg Ha) as (k & Hk & Hak & Hbuddy). fold ba in Hbuddy.
  destruct Hg as (HB & HM & Hw).
  destruct Ha as (Hoa & Hb & He & Hdv). destruct Hba as (_ & Hb2 & He2 & Hdv2). simpl in *.
  pose proof (sz_pos o ltac:(lia)). pose proof (sz_succ o ltac:(lia)) as Hs.
  inversion Hd1 as [|?? Hab Hd1']; subst.
  assert (Hcase : exists c j, (if a <? ba then a else ba) = c /\ c - B = j * sz (o + 1) /\
            ((c = a /\ ba = a + sz o) \/ (c = ba /\ a = ba + sz o))).
  { destruct (Z.even k) eqn:E.
    - rewrite u64_id in Hbuddy by lia. apply Z.even_spec in E as [j ->].
      exists a, j. rewrite Hbuddy. destruct (Z.ltb_spec a (a + sz o)); [|lia]. split; [done|].
      split; [rewrite Hs; lia|]. by left.
    - rewrite <- Z.negb_odd in E. apply negb_false_iff, Z.odd_spec in E as [j ->].
      exists ba, j. destruct (Z.ltb_spec a ba); [lia|]. split; [done|]. split; [rewrite Hs; lia|].
      right. lia. }
  destruct Hcase as (c & j & -> & Hcj & Hc). split; simpl.
  - split; [|done]. rewrite Forall_forall in Hd1', Hd2, Hl |- *. intros y Hy.
    specialize (Hd1' y Hy). specialize (Hd2 y Hy). destruct (Hl y Hy) as [Hyo _].
    pose proof (sz_pos y.2 ltac:(lia)). unfold disj in *. simpl in *. lia.
  - constructor; [|done]. split; simpl; [lia|]. split; [lia|]. split; [lia|]. by exists j.
Qed.

Lemma good_nil B M : good B M [].
Proof. by split. Qed.
Lemma good_initial B M : geo B M -> good B M [(B, M)].
Proof.
  intros (HB & HM & Hw). split; simpl; [by repeat constructor|]. constructor; [|done].
  split; simpl; [lia|]. split; [lia|]. split; [lia|]. rewrite Z.sub_diag. apply Z.divide_0_r.
Qed.

(** ** Free blocks and allocated blocks of a state *)
Definition blocks_at (b : gpu_buddy) (o : Z) : list block := (fun a => (a, o)) <$> flist b o.
Definition free_blocks (b : gpu_buddy) : list block := mjoin (blocks_at b <$> seqZ 0 22).
Definition live_in (l : list gpu_buddy_record) : list block :=
  omap (fun r => if r_used r then Some (r_addr r, r_order r) else None) l.
Definition live (b : gpu_buddy) : list block := live_in (records b).

Lemma flist_set o o' l b : flist (set_flist o l b) o' = if decide (o = o') then l else flist b o'.
Proof.
  unfold flist, set_flist. simpl. destruct (decide (o = o')) as [->|];
    [by rewrite lookup_insert_eq|by rewrite lookup_insert_ne].
Qed.

Lemma free_blocks_at b o :
  0 <= o < 22 -> exists rest, free_blocks b ≡ₚ blocks_at b o ++ rest /\
    forall l, free_blocks (set_flist o l b) ≡ₚ ((fun a => (a, o)) <$> l) ++ rest.
Proof.
  intros Ho. exists (mjoin (blocks_at b <$> (seqZ 0 o ++ seqZ (o + 1) (21 - o)))).
  assert (Hseq : seqZ 0 22 = seqZ 0 o ++ o :: seqZ (o + 1) (21 - o)).
  { replace 22 with (o + (22 - o)) by lia. rewrite seqZ_app by lia. f_equal.
    rewrite seqZ_cons by lia. replace (0 + o) with o by lia.
    replace (Z.succ o) with (o + 1) by lia. replace (Z.pred (22 - o)) with (21 - o) by lia. done. }
  unfold free_blocks. rewrite Hseq. rewrite !fmap_app, fmap_cons, !join_app. simpl.
  split; [apply Permutation_app_swap_app|].
  intros l. rewrite fmap_app, fmap_cons, join_app. simpl.
  assert (Hother : forall L : list Z, o ∉ L -> blocks_at (set_flist o l b) <$> L = blocks_at b <$> L).
  { intros L HL. apply list_fmap_ext. intros i x Hx. unfold blocks_at. rewrite flist_set.
    destruct (decide (o = x)) as [->|]; [|done]. exfalso. apply HL. by eapply list_elem_of_lookup_2. }
  rewrite !Hother by (rewrite elem_of_seqZ; lia).
  unfold blocks_at at 2. rewrite flist_set, decide_True by done.
  apply Permutation_app_swap_app.
Qed.

Lemma remove_first_perm a l : a ∈ l -> l ≡ₚ a :: remove_first a l.
Proof.
  induction l as [|x l IH]; intros Hin; [by apply not_elem_of_nil in Hin|]. simpl.
  destruct (Z.eqb_spec x a) as [->|Hne]; [done|].
  apply elem_of_cons in Hin as [->|Hin]; [done|]. rewrite (IH Hin) at 1. apply Permutation_swap.
Qed.

(** The invariant, with a list [ex] of blocks taken off the free lists and a
    set [R] of records. *)
Record inv (B M : Z) (R : list gpu_buddy_record) (ex : list block) (b : gpu_buddy) : Prop := {
  iv_base : base_addr b = B;
  iv_max : max_order b = M;
  iv_records : records b = R;
  iv_geo : geo B M;
  iv_good : good B M (ex ++ free_blocks b ++ live_in R);
  iv_total : total (ex ++ free_blocks b ++ live_in R) <= sz M;
  iv_full : block_pool_used b < BLOCK_POOL_SIZE ->
    total (ex ++ free_blocks b ++ live_in R) = sz M
}.

Lemma inv_move B M R R' ex ex' b b' :
  inv B M R ex b -> base_addr b' = base_addr b -> max_order b' = max_order b ->
  records b' = R' -> block_pool_used b' = block_pool_used b ->
  ex' ++ free_blocks b' ++ live_in R' ≡ₚ ex ++ free_blocks b ++ live_in R ->
  inv B M R' ex' b'.
Proof.
  intros [] Hb Hm Hr Hu Hp. split; try congruence; try done.
  - eapply good_perm; [symmetry; exact Hp|done].
  - by rewrite (total_perm _ _ Hp).
  - rewrite (total_perm _ _ Hp), Hu. done.
Qed.

Lemma insert_inv B M R a o ex b :
  inv B M R ((a, o) :: ex) b -> inv B M R ex (free_list_insert a o b).
Proof.
  intros Hi. pose proof (iv_good _ _ _ _ _ Hi) as [_ Hin]. inversion Hin as [|?? Ha _]; subst.
  destruct Ha as (Ho & _). simpl in Ho. pose proof (iv_geo _ _ _ _ _ Hi) as (_ & HM & _).
  unfold free_list_insert. rewrite (iv_max _ _ _ _ _ Hi). destruct (Z.ltb_spec M o); [lia|].
  eapply inv_move; [exact Hi|done|done|apply (iv_records _ _ _ _ _ Hi)|done|].
  destruct (free_blocks_at b o ltac:(lia)) as (rest & H1 & H2).
  rewrite H2, H1. cbn. by rewrite <- !Permutation_middle.
Qed.

Lemma inv_perm B M R ex ex' b : ex ≡ₚ ex' -> inv B M R ex b -> inv B M R ex' b.
Proof.
  intros Hp Hi. eapply inv_move; [exact Hi|done|done|apply (iv_records _ _ _ _ _ Hi)|done|].
  by rewrite Hp.
Qed.

Lemma insert_new_inv B M R a o ex b :
  inv B M R ((a, o) :: ex) b -> inv B M R ex (insert_new a o b).
Proof.
  intros Hi. unfold insert_new, pool_alloc.
  destruct (Z.leb_spec BLOCK_POOL_SIZE (block_pool_used b)) as [Hfull|Hroom].
  - destruct Hi as [Hb Hm Hr Hg Hgood Ht Hf]. split; try done; simpl in *.
    + by eapply good_tail.
    + destruct Hgood as [_ Hin]. inversion Hin as [|?? Ha _]; subst. destruct Ha as (Ho & _).
      simpl in Ho. pose proof (sz_pos o ltac:(lia)). lia.
    + lia.
  - apply insert_inv. destruct Hi as [Hb Hm Hr Hg Hgood Ht Hf]. split; try done. intros _. by apply Hf.
Qed.

Lemma pop_inv B M R o a ex b b' :
  inv B M R ex b -> 0 <= o -> free_list_pop o b = (Some a, b') ->
  inv B M R ((a, o) :: ex) b' /\ o <= M.
Proof.
  intros Hi Ho Hpop. pose proof (iv_geo _ _ _ _ _ Hi) as (_ & HM & _).
  unfold free_list_pop in Hpop. rewrite (iv_max _ _ _ _ _ Hi) in Hpop.
  destruct (Z.ltb_spec M o); [done|]. destruct (flist b o) as [|x l] eqn:E; simplify_eq.
  split; [|done]. eapply inv_move; [exact Hi|done|done|apply (iv_records _ _ _ _ _ Hi)|done|].
  destruct (free_blocks_at b o ltac:(lia)) as (rest & H1 & H2).
  rewrite H2, H1. unfold blocks_at. rewrite E. cbn. by rewrite <- !Permutation_middle.
Qed.
Lemma pop_none o b b' : free_list_pop o b = (None, b') -> b' = b.
Proof. unfold free_list_pop. destruct (_ <? _); [by intros; simplify_eq|]. by destruct (flist b o); intros; simplify_eq. Qed.

Lemma remove_block_inv B M R o a ex b :
  inv B M R ex b -> 0 <= o <= M -> a ∈ flist b o ->
  inv B M R ((a, o) :: ex) (free_list_remove_block a o b).
Proof.
  intros Hi Ho Hin. pose proof (iv_geo _ _ _ _ _ Hi) as (_ & HM & _).
  unfold free_list_remove_block. rewrite (iv_max _ _ _ _ _ Hi).
  destruct (Z.ltb_spec M o); [lia|].
  eapply inv_move; [exact Hi|done|done|apply (iv_records _ _ _ _ _ Hi)|done|].
  destruct (free_blocks_at b o ltac:(lia)) as (rest & H1 & H2).
  rewrite H2, H1. unfold blocks_at. rewrite (remove_first_perm a (flist b o) Hin) at 2. cbn.
  by rewrite <- !Permutation_middle.
Qed.

Lemma split_inv B M R a t ex b :
  0 < t -> inv B M R ((a, t) :: ex) b ->
  inv B M R ((a, t - 1) :: (u64 (a + block_bytes t / 2), t - 1) :: ex) b.
Proof.
  intros Ht Hi. destruct Hi as [Hb Hm Hr Hg Hgood Htot Hf].
  assert (Hin : in_pool B M (a, t)) by (destruct Hgood as [_ Hin]; by inversion Hin).
  destruct Hin as (Ho & H1 & H2 & _). simpl in *. destruct Hg as (HB & HM & Hw) eqn:Eg.
  assert (Hs : sz t = 2 * sz (t - 1)) by (rewrite <- sz_succ by lia; f_equal; lia).
  pose proof (sz_pos (t - 1) ltac:(lia)).
  assert (Hh : u64 (a + block_bytes t / 2) = a + sz (t - 1)).
  { rewrite block_bytes_sz by lia. rewrite Hs, Z.mul_comm, Z.div_mul by lia. apply u64_id. lia. }
  rewrite Hh. split; try done; simpl in *.
  - by apply good_split.
  - lia.
  - intros Hl. specialize (Hf Hl). lia.
Qed.

Lemma merge_inv B M R a o ex b :
  o < M -> let ba := buddy_addr B a (block_bytes o) in
  inv B M R ((ba, o) :: (a, o) :: ex) b ->
  inv B M R ((if a <? ba then a else ba, o + 1) :: ex) b.
Proof.
  intros Ho ba Hi. apply (inv_perm _ _ _ _ ((a, o) :: (ba, o) :: ex)) in Hi; [|apply Permutation_swap].
  destruct Hi as [Hb Hm Hr Hg Hgood Htot Hf].
  assert (H0 : 0 <= o) by (destruct Hgood as [_ Hin]; inversion Hin as [|?? Ha _]; subst; apply Ha).
  pose proof (sz_succ o H0) as Hs. split; try done; simpl in *.
  - by apply good_merge.
  - lia.
  - intros Hl. specialize (Hf Hl). lia.
Qed.

Lemma insert_pair b a c o :
  (let '(gl, b1) := pool_alloc b in
   let '(gr, b2) := pool_alloc b1 in
   let b3 := if gl then free_list_insert a o b2 else b2 in
   if gr then free_list_insert c o b3 else b3) = insert_new c o (insert_new a o b).
Proof.
  destruct b as [B0 P M0 F U R C].
  unfold insert_new, pool_alloc, free_list_insert, set_flist, flist, field_upd. simpl.
  destruct (BLOCK_POOL_SIZE <=? U) eqn:E0; simpl.
  - rewrite E0. done.
  - destruct (M0 <? o) eqn:E; simpl;
      destruct (BLOCK_POOL_SIZE <=? U + 1) eqn:E1; simpl; rewrite ?E, ?E1; simpl; rewrite ?E; done.
Qed.

Lemma split_down_S m order b :
  split_down (S m) order b =
    let t := order + Z.of_nat (S m) in
    match free_list_pop t b with
    | (None, b) => (b, t)
    | (Some a, b) =>
        split_down m order (insert_new (u64 (a + block_bytes t / 2)) (t - 1) (insert_new a (t - 1) b))
    end.
Proof.
  cbn [split_down]. cbv zeta. destruct (free_list_pop _ b) as [[a|] b1]; [|done].
  rewrite <- insert_pair. destruct (pool_alloc b1) as [gl b2]. by destruct (pool_alloc b2).
Qed.

Lemma insert_new_records a o b : records (insert_new a o b) = records b.
Proof.
  unfold insert_new, pool_alloc, free_list_insert. destruct (_ <=? _); [done|]. by destruct (_ <? _).
Qed.
Lemma split_down_records n order b : records (split_down n order b).1 = records b.
Proof.
  revert b. induction n as [|m IH]; intros b; [done|]. rewrite split_down_S. cbv zeta.
  unfold free_list_pop. destruct (_ <? _); [done|]. destruct (flist b _); [done|].
  by rewrite IH, !insert_new_records.
Qed.

Lemma split_down_inv B M R n order b b' t :
  0 <= order -> inv B M R [] b -> split_down n order b = (b', t) ->
  inv B M R [] b' /\ order <= t /\ (t = order \/ flist b' t = [] \/ M < t).
Proof.
  intros Ho. revert b. induction n as [|m IH]; intros b Hi Hs.
  { simpl in Hs. simplify_eq. split; [done|]. split; [lia|by left]. }
  rewrite split_down_S in Hs. cbv zeta in Hs. set (tt := order + Z.of_nat (S m)) in *.
  assert (Htt : 0 < tt) by (unfold tt; lia).
  destruct (free_list_pop tt b) as [[a|] b1] eqn:Hpop.
    destruct (pop_inv _ _ _ tt a _ _ _ Hi ltac:(lia) Hpop) as [Hi1 HM].
    pose proof (split_inv _ _ _ _ _ _ _ Htt Hi1) as Hi2.
    apply (IH _ ltac:(by apply insert_new_inv, insert_new_inv) Hs).
  - apply pop_none in Hpop as Heq. injection Hs as <- <-. subst b1. split; [done|].
    split; [unfold tt; lia|]. right. unfold free_list_pop in Hpop.
    rewrite (iv_max _ _ _ _ _ Hi) in Hpop.
    destruct (Z.ltb_spec M tt); [by right|]. left. by destruct (flist b tt).
Qed.

(** ** Records *)
Lemma add_in_live r i l j l' :
  r_used r = true -> add_in r i l = Some (j, l') ->
  live_in l' ≡ₚ (r_addr r, r_order r) :: live_in l.
Proof.
  intros Hu. revert i j l'. induction l as [|x l IH]; intros i j l' Ha; simpl in Ha; [done|].
  destruct (r_used x) eqn:E.
  - destruct (add_in r (i + 1) l) as [[j1 l1]|] eqn:E1; simplify_eq.
    unfold live_in. simpl. rewrite E. fold (live_in l). fold (live_in l1).
    rewrite (IH _ _ _ E1). apply Permutation_swap.
  - simplify_eq. unfold live_in. simpl. by rewrite Hu, E.
Qed.

Lemma find_in_live addr l r :
  find_in addr l = Some r ->
  r_addr r = addr /\ live_in l ≡ₚ (addr, r_order r) :: live_in (remove_in addr l).
Proof.
  induction l as [|x l IH]; intros Hf; simpl in Hf; [done|]. simpl remove_in.
  destruct (r_used x) eqn:E; simpl in *.
  - destruct (Z.eqb_spec (r_addr x) addr) as [<-|Hne].
    + simplify_eq. split; [done|]. unfold live_in. simpl. by rewrite E.
    + destruct (IH Hf) as [H1 H2]. split; [done|]. unfold live_in. simpl. rewrite E.
      fold (live_in l). fold (live_in (remove_in addr l)). rewrite H2. apply Permutation_swap.
  - destruct (IH Hf) as [H1 H2]. split; [done|]. unfold live_in. simpl. rewrite E. exact H2.
Qed.

Lemma find_in_none addr l : find_in addr l = None -> addr ∉ (live_in l).*1.
Proof.
  induction l as [|x l IH]; intros Hf Hin; simpl in *; [by apply not_elem_of_nil in Hin|].
  unfold live_in in Hin. simpl in Hin. destruct (r_used x); simpl in *; [|by apply IH].
  destruct (Z.eqb_spec (r_addr x) addr); [done|].
  apply elem_of_cons in Hin as [->|Hin]; [done|]. by apply IH.
Qed.

(** ** Coalescing *)
Lemma find_pair_spec b o l a ba :
  0 <= o <= 21 -> find_pair b o l = Some (a, ba) ->
  a ∈ l /\ ba = buddy_addr (base_addr b) a (block_bytes o) /\ ba ∈ flist b o /\ a <> ba.
Proof.
  intros Ho. induction l as [|x l IH]; intros Hf; simpl in Hf; [done|].
  destruct (find_buddy_in_list _ o b && are_adjacent x _ _) eqn:E.
  - simplify_eq. apply andb_true_iff in E as [E1 E2]. split; [by left|]. split; [done|].
    unfold find_buddy_in_list in E1. rewrite existsb_exists in E1.
    destruct E1 as (y & Hy & Hyz). rewrite <- list_elem_of_In in Hy.
    apply Z.eqb_eq in Hyz. subst y. split; [done|]. intros Heq. revert E2.
    unfold are_adjacent. rewrite <- !Heq, orb_diag, Z.eqb_eq. unfold u64. rewrite block_bytes_sz by done.
    intros He. pose proof (sz_pos o ltac:(lia)). pose proof (sz_mono o 21 ltac:(lia)).
    change (sz 21) with 8589934592 in *. pose proof (Z.div_mod (a + sz o) (2 ^ 64) ltac:(lia)). lia.
  - destruct (IH Hf) as (H1 & H2). split; [by right|done].
Qed.

Lemma remove_first_other a c l : a <> c -> c ∈ l -> c ∈ remove_first a l.
Proof.
  intros Hne. induction l as [|x l IH]; simpl; [done|]. rewrite elem_of_cons.
  intros [->|Hin]; destruct (Z.eqb_spec x a); set_solver.
Qed.

Lemma merge_step_inv B M R o ex b a ba :
  inv B M R ex b -> 0 <= o < M -> find_pair b o (flist b o) = Some (a, ba) ->
  inv B M R ex (insert_new (if a <? ba then a else ba) (o + 1)
    (free_list_remove_block ba o (free_list_remove_block a o b))).
Proof.
  intros Hi Ho Hf. pose proof (iv_geo _ _ _ _ _ Hi) as (_ & HM & _).
  apply find_pair_spec in Hf as (H1 & -> & H2 & Hne); [|lia].
  rewrite (iv_base _ _ _ _ _ Hi) in *. apply insert_new_inv. apply (merge_inv B M R a o ex); [lia|].
  apply remove_block_inv; [by apply remove_block_inv; [done|lia|]|lia|].
  unfold free_list_remove_block. rewrite (iv_max _ _ _ _ _ Hi).
  destruct (Z.ltb_spec M o); [lia|]. rewrite flist_set, decide_True by done.
  by apply remove_first_other.
Qed.

Lemma coalesce_level_inv B M R o up n :
  (forall ex b, inv B M R ex b -> inv B M R ex (up b)) -> 0 <= o < M ->
  forall ex b, inv B M R ex b -> inv B M R ex (coalesce_level up n o b).
Proof.
  intros Hup Ho. induction n as [|n IH]; intros ex b Hi; simpl; [done|].
  destruct (find_pair b o (flist b o)) as [[a ba]|] eqn:E; [|done].
  by apply IH, Hup, merge_step_inv.
Qed.

Lemma coalesce_inv B M R n o :
  0 <= o -> o + Z.of_nat n <= M ->
  forall ex b, inv B M R ex b -> inv B M R ex (coalesce n o b).
Proof.
  revert o. induction n as [|n IH]; intros o Ho Hn ex b Hi; simpl; [done|].
  apply coalesce_level_inv; [|lia|done]. intros. apply IH; [lia|lia|done].
Qed.

(** ** Rounding *)
(** [y] has a bit set exactly where [x] has one within the next [n] places. *)
Definition smeared (n : Z) (x y : Z) : Prop :=
  forall i, 0 <= i -> Z.testbit y i = true <-> exists j, 0 <= j < n /\ Z.testbit x (i + j) = true.

Lemma smeared_1 (x : Z) : smeared 1 x x.
Proof.
  intros i Hi. split; [intros H; exists 0; by rewrite Z.add_0_r|].
  intros (j & Hj & H). assert (j = 0) as -> by lia. by rewrite Z.add_0_r in H.
Qed.
Lemma smeared_double n (x y : Z) : 0 < n -> smeared n x y -> smeared (n + n) x (smear n y).
Proof.
  intros Hn H i Hi. unfold smear. rewrite Z.lor_spec, Z.shiftr_spec, orb_true_iff by done.
  rewrite (H i Hi), (H (i + n) ltac:(lia)). split.
  - intros [(j & Hj & E)|(j & Hj & E)]; [exists j; split; [lia|done]|].
    exists (n + j). rewrite Z.add_assoc. split; [lia|done].
  - intros (j & Hj & E). destruct (Z.lt_ge_cases j n) as [|Hge]; [left; exists j; split; [lia|done]|].
    right. exists (j - n). split; [lia|]. by replace (i + n + (j - n)) with (i + j) by lia.
Qed.

Lemma smeared_ones (x y : Z) : 0 < x < 2 ^ 64 -> smeared 64 x y -> 0 <= y -> y = Z.ones (Z.log2 x + 1).
Proof.
  intros Hx Hs Hy. pose proof (Z.log2_nonneg x).
  assert (Z.log2 x < 64) by (apply Z.log2_lt_pow2; lia).
  apply Z.bits_inj'. intros i Hi. apply eq_true_iff_eq. rewrite (Hs i Hi).
  rewrite Z.testbit_ones_nonneg, Z.ltb_lt by lia. split.
  - intros (j & Hj & E). destruct (Z.le_gt_cases (i + j) (Z.log2 x)); [lia|].
    rewrite Z.bits_above_log2 in E by lia. done.
  - intros Hlt. exists (Z.log2 x - i). replace (i + (Z.log2 x - i)) with (Z.log2 x) by lia.
    rewrite Z.bit_log2 by lia. split; [lia|done].
Qed.

Lemma round_up_pow2_log s : 0 < s <= 2 ^ 63 -> round_up_pow2 s = 2 ^ Z.log2_up s.
Proof.
  intros Hs. unfold round_up_pow2. destruct (Z.eqb_spec s 0); [lia|].
  destruct (Z.eq_dec s 1) as [->|H1]; [by vm_compute|].
  assert (Hx : 0 < s - 1 < 2 ^ 64) by lia.
  pose proof (smeared_double 32 _ _ ltac:(lia) (smeared_double 16 _ _ ltac:(lia)
    (smeared_double 8 _ _ ltac:(lia) (smeared_double 4 _ _ ltac:(lia)
    (smeared_double 2 _ _ ltac:(lia) (smeared_double 1 _ _ ltac:(lia) (smeared_1 (s - 1)))))))) as H.
  assert (Hnn : forall m v, 0 <= v -> 0 <= smear m v).
  { intros m v Hv. unfold smear. apply Z.lor_nonneg. by rewrite Z.shiftr_nonneg. }
  rewrite (smeared_ones _ _ Hx H) by (do 6 apply Hnn; lia).
  rewrite Z.ones_equiv, Z.log2_up_eqn by lia.
  replace (Z.pred s) with (s - 1) by lia. rewrite <- (Z.add_1_r (Z.log2 (s - 1))).
  replace (Z.pred (2 ^ (Z.log2 (s - 1) + 1)) + 1) with (2 ^ (Z.log2 (s - 1) + 1)) by lia.
  apply u64_id.
  assert (Z.log2 (s - 1) < 63) by (apply Z.log2_lt_pow2; lia).
  pose proof (Z.log2_nonneg (s - 1)). split; [apply Z.pow_nonneg; lia|].
  apply Z.pow_lt_mono_r; lia.
Qed.

(** Above [2^63] the last addition wraps to 0. *)
Lemma round_up_pow2_wraps s : 2 ^ 63 < s < 2 ^ 64 -> round_up_pow2 s = 0.
Proof.
  intros Hs. unfold round_up_pow2. destruct (Z.eqb_spec s 0); [lia|].
  assert (Hx : 0 < s - 1 < 2 ^ 64) by lia.
  pose proof (smeared_double 32 _ _ ltac:(lia) (smeared_double 16 _ _ ltac:(lia)
    (smeared_double 8 _ _ ltac:(lia) (smeared_double 4 _ _ ltac:(lia)
    (smeared_double 2 _ _ ltac:(lia) (smeared_double 1 _ _ ltac:(lia) (smeared_1 (s - 1)))))))) as H.
  assert (Hnn : forall m v, 0 <= v -> 0 <= smear m v).
  { intros m v Hv. unfold smear. apply Z.lor_nonneg. by rewrite Z.shiftr_nonneg. }
  rewrite (smeared_ones _ _ Hx H) by (do 6 apply Hnn; lia).
  assert (Z.log2 (s - 1) = 63) as -> by (apply Z.log2_unique; lia). by vm_compute.
Qed.

Lemma order_loop_spec fuel o k :
  0 <= o -> 0 <= k -> o + Z.of_nat fuel <= 21 ->
  order_loop fuel (sz o) (sz k) o = Z.max o (Z.min k (o + Z.of_nat fuel)).
Proof.
  revert o. induction fuel as [|n IH]; intros o Ho Hk Hb; cbn [order_loop]; [lia|].
  destruct (Z.ltb_spec (sz o) (sz k)) as [Hlt|Hge].
  - assert (o < k) by (rewrite !sz_pow in Hlt by lia; apply Z.pow_lt_mono_r_iff in Hlt; lia).
    rewrite Z.mul_comm, <- sz_succ by lia. pose proof (sz_pos (o + 1) ltac:(lia)).
    pose proof (sz_mono (o + 1) 21 ltac:(lia)) as Hm. change (sz 21) with 8589934592 in Hm.
    rewrite (u64_id (sz (o + 1))) by lia. rewrite IH by lia. lia.
  - assert (k <= o) by (rewrite !sz_pow in Hge by lia; apply Z.pow_le_mono_r_iff in Hge; lia). lia.
Qed.

(** The order a request is served at. *)
Definition order_of (size : Z) : Z := Z.min 21 (Z.max 0 (Z.log2_up size - 12)).

Lemma order_for_aligned size :
  0 < size <= 2 ^ 63 ->
  let a := round_up_pow2 size in
  order_for_size (if a <? GPU_BUDDY_MIN_BLOCK_SIZE then GPU_BUDDY_MIN_BLOCK_SIZE else a) =
  order_of size.
Proof.
  intros Hs a. unfold a. rewrite round_up_pow2_log by done. pose proof (Z.log2_up_nonneg size).
  change GPU_BUDDY_MIN_BLOCK_SIZE with (2 ^ 12).
  assert (E : (if 2 ^ Z.log2_up size <? 2 ^ 12 then 2 ^ 12 else 2 ^ Z.log2_up size) =
              sz (Z.max 0 (Z.log2_up size - 12))).
  { rewrite sz_pow by lia. destruct (Z.ltb_spec (2 ^ Z.log2_up size) (2 ^ 12)) as [Hl|Hl].
    - apply Z.pow_lt_mono_r_iff in Hl; [|lia|lia]. f_equal. lia.
    - apply Z.pow_le_mono_r_iff in Hl; [|lia|lia]. f_equal. lia. }
  rewrite E. unfold order_for_size. change GPU_BUDDY_MIN_BLOCK_SIZE with (sz 0).
  rewrite order_loop_spec; [|lia|lia|by vm_compute]. unfold order_of.
  change (Z.of_nat (Z.to_nat GPU_BUDDY_MAX_ORDER)) with 21. lia.
Qed.

(** For any 64-bit request: sizes above [2^63] are taken for one page. *)
Definition served_order (size : Z) : Z := if 2 ^ 63 <? size then 0 else order_of size.

Lemma served_order_small size : size <= 2 ^ 63 -> served_order size = order_of size.
Proof. intros Hs. unfold served_order. destruct (Z.ltb_spec (2 ^ 63) size); [lia|done]. Qed.
Lemma served_order_range size : 0 <= served_order size <= 21.
Proof. unfold served_order, order_of. destruct (_ <? _); lia. Qed.
Lemma order_for_served size :
  0 < size < 2 ^ 64 ->
  let a := round_up_pow2 size in
  order_for_size (if a <? GPU_BUDDY_MIN_BLOCK_SIZE then GPU_BUDDY_MIN_BLOCK_SIZE else a) =
  served_order size.
Proof.
  intros Hs a. unfold a, served_order. destruct (Z.ltb_spec (2 ^ 63) size).
  - rewrite round_up_pow2_wraps by lia. by vm_compute.
  - apply order_for_aligned; lia.
Qed.

Lemma order_of_covers size : 0 < size <= sz 21 -> size <= sz (order_of size).
Proof.
  intros Hs. unfold order_of. pose proof (Z.log2_up_nonneg size).
  destruct (Z.eq_dec size 1) as [->|]; [by vm_compute|].
  pose proof (Z.log2_up_spec size ltac:(lia)) as [_ Hup].
  pose proof (Z.log2_up_le_mono _ _ (proj2 Hs)) as H33. change (Z.log2_up (sz 21)) with 33 in H33.
  etrans; [exact Hup|]. rewrite sz_pow by lia. apply Z.pow_le_mono_r; lia.
Qed.

(** ** Allocation and release *)
Lemma find_order_spec n o b t : 0 <= o -> find_order n o b = Some t -> o <= t /\ flist b t <> [].
Proof.
  revert o. induction n as [|n IH]; intros o Ho Hf; simpl in Hf; [done|].
  destruct (flist b o) eqn:E.
  - destruct (IH (o + 1) ltac:(lia) Hf). split; [lia|done].
  - simplify_eq. split; [lia|]. by rewrite E.
Qed.

Lemma free_list_pop_some o b a b' :
  free_list_pop o b = (Some a, b') -> flist b o <> [] /\ o <= max_order b.
Proof.
  unfold free_list_pop. destruct (Z.ltb_spec (max_order b) o); [done|].
  destruct (flist b o); intros; simplify_eq. done.
Qed.

(** Move a block off the lists into a record, or back. *)
Lemma inv_records B M R R' a o ex b :
  inv B M R ((a, o) :: ex) b -> live_in R' ≡ₚ (a, o) :: live_in R ->
  forall b', records b' = R' -> base_addr b' = base_addr b -> max_order b' = max_order b ->
  free_lists b' = free_lists b -> block_pool_used b' = block_pool_used b -> inv B M R' ex b'.
Proof.
  intros Hi Hl b' Hr Hb Hm Hf Hu.
  assert (Hfb : free_blocks b' = free_blocks b).
  { unfold free_blocks, blocks_at, flist. by rewrite Hf. }
  eapply inv_move; [exact Hi|done|done|done|done|]. rewrite Hfb, Hl.
  by rewrite <- !Permutation_middle.
Qed.

Lemma add_in_index r i l j l' : add_in r i l = Some (j, l') -> i <= j.
Proof.
  revert i j l'. induction l as [|x l IH]; intros i j l' Ha; simpl in Ha; [done|].
  destruct (r_used x); [|by simplify_eq].
  destruct (add_in r (i + 1) l) as [[j1 l1]|] eqn:E; simplify_eq. apply IH in E. lia.
Qed.

Lemma alloc_inv_any B M size b :
  inv B M (records b) [] b -> 0 < size < 2 ^ 64 ->
  match gpu_buddy_alloc size b with
  | (r, Some a, b') => r = 0 /\ inv B M (records b') [] b' /\
      live b' ≡ₚ (a, served_order size) :: live b
  | (r, None, b') => r = -1 /\ inv B M (records b') [] b' /\ live b' = live b
  end.
Proof.
  intros Hi Hs. unfold gpu_buddy_alloc. destruct (Z.eqb_spec size 0); [lia|]. cbv zeta.
  rewrite order_for_served by lia. set (al := if _ <? _ then _ else _).
  assert (Ho : 0 <= served_order size) by apply served_order_range.
  destruct (find_order _ _ b) as [t|] eqn:Ef; [|done].
  apply find_order_spec in Ef as [Hot _]; [|done].
  destruct (split_down _ (served_order size) b) as [b1 t1] eqn:Es.
  destruct (split_down_inv _ _ _ _ _ _ _ _ Ho Hi Es) as (Hi1 & Ht1 & Hc).
  destruct (free_list_pop t1 b1) as [[a|] b2] eqn:Ep.
  - destruct (free_list_pop_some _ _ _ _ Ep) as [Hne HM].
    rewrite (iv_max _ _ _ _ _ Hi1) in HM.
    assert (t1 = served_order size) as -> by (destruct Hc as [?|[?|?]]; [done|done|lia]).
    destruct (pop_inv _ _ _ (served_order size) a _ _ _ Hi1 ltac:(lia) Ep) as [Hi2 _].
    pose proof (iv_records _ _ _ _ _ Hi2) as Hr2. unfold add_record.
    destruct (add_in _ 0 (records b2)) as [[j l']|] eqn:Ea.
    + pose proof (add_in_live (mk_record a al (served_order size) true) _ _ _ _ eq_refl Ea) as Hl. simpl in Hl. split; [done|].
      rewrite Hr2 in Hl. split; [|done].
      by apply (inv_records _ _ _ _ _ _ _ _ Hi2 Hl).
    + split; [done|]. apply insert_new_inv in Hi2. unfold live.
      by rewrite (iv_records _ _ _ _ _ Hi2).
  - apply pop_none in Ep as ->. split; [done|]. unfold live. by rewrite (iv_records _ _ _ _ _ Hi1).
Qed.

Lemma alloc_inv B M size b :
  inv B M (records b) [] b -> 0 < size <= 2 ^ 63 ->
  match gpu_buddy_alloc size b with
  | (r, Some a, b') => r = 0 /\ inv B M (records b') [] b' /\
      live b' ≡ₚ (a, order_of size) :: live b
  | (r, None, b') => r = -1 /\ inv B M (records b') [] b' /\ live b' = live b
  end.
Proof.
  intros Hi Hs. rewrite <- (served_order_small size) by lia. apply alloc_inv_any; [done|lia].
Qed.

Lemma free_inv B M addr b :
  inv B M (records b) [] b ->
  match find_record addr b with
  | Some r => exists b', gpu_buddy_free addr b = (0, b') /\ inv B M (records b') [] b' /\
      live b ≡ₚ (addr, r_order r) :: live b'
  | None => gpu_buddy_free addr b = (-1, b) /\ addr ∉ (live b).*1
  end.
Proof.
  intros Hi. unfold gpu_buddy_free, find_record. destruct (find_in addr (records b)) as [r|] eqn:E.
  2: split; [done|by apply find_in_none].
  destruct (find_in_live _ _ _ E) as [Hr Hl]. eexists. split; [done|].
  set (b1 := remove_record addr b).
  assert (Hi1 : inv B M (records b1) [(addr, r_order r)] b1).
  { unfold b1, remove_record. rewrite E. eapply inv_move; [exact Hi|done..|]. simpl. rewrite Hl.
    by rewrite <- !Permutation_middle. }
  assert (Hb1 : live_in (records b1) = live_in (remove_in addr (records b))).
  { unfold b1, remove_record. by rewrite E. }
  assert (Hor : 0 <= r_order r <= M).
  { destruct (iv_good _ _ _ _ _ Hi1) as [_ Hin]. inversion Hin as [|?? Ha _]; subst. apply Ha. }
  apply insert_new_inv in Hi1 as Hi2. rewrite (iv_max _ _ _ _ _ Hi2).
  eapply (coalesce_inv _ _ _ (Z.to_nat (M - r_order r)) (r_order r)) in Hi2; [|lia|lia].
  pose proof (iv_records _ _ _ _ _ Hi2) as Hr2. unfold live. rewrite Hr2. split; [done|].
  by rewrite Hl, Hb1.
Qed.

(** ** Initial states *)
Lemma live_in_unused n : live_in (replicate n unused_record) = [].
Proof. induction n; [done|]. simpl. exact IHn. Qed.
#[local] Transparent init_records.
Lemma live_in_init : live_in init_records = [].
Proof. apply live_in_unused. Qed.
Lemma find_in_unused n a : find_in a (replicate n unused_record) = None.
Proof. by induction n. Qed.
Lemma find_in_init a : find_in a init_records = None.
Proof. apply find_in_unused. Qed.
#[local] Opaque init_records.

Lemma fresh_inv B M b :
  geo B M -> base_addr b = B -> max_order b = M -> records b = init_records ->
  free_lists b = ∅ -> block_pool_used b = 0 ->
  inv B M (records (insert_new B M b)) [] (insert_new B M b) /\ live (insert_new B M b) = [].
Proof.
  intros Hg Hb Hm Hr Hf Hu.
  assert (Hi : inv B M init_records [(B, M)] b).
  { assert (Hfb : free_blocks b = []).
    { unfold free_blocks, blocks_at, flist. rewrite Hf. reflexivity. }
    split; try done; rewrite Hfb, live_in_init; simpl; [by apply good_initial|lia|lia]. }
  apply insert_new_inv in Hi. pose proof (iv_records _ _ _ _ _ Hi) as Hr'.
  unfold live. rewrite Hr'. split; [done|apply live_in_init].
Qed.

Lemma init_order_spec fuel o M :
  0 <= o <= M -> M <= 21 -> M - o <= Z.of_nat fuel -> init_order fuel (sz M) o = M.
Proof.
  revert o. induction fuel as [|n IH]; intros o Ho HM Hf; simpl; [lia|].
  rewrite block_bytes_sz by lia. destruct (Z.ltb_spec (sz o) (sz M)) as [Hl|Hl].
  - rewrite !sz_pow in Hl by lia. apply Z.pow_lt_mono_r_iff in Hl; [|lia|lia]. apply IH; lia.
  - rewrite !sz_pow in Hl by lia. apply Z.pow_le_mono_r_iff in Hl; [|lia|lia]. lia.
Qed.

(** The order of the pool that [gpu_buddy_init] builds for [size] bytes. *)
Definition pool_order (size : Z) : Z :=
  let o := init_order 64 size 0 in if GPU_BUDDY_MAX_ORDER <? o then GPU_BUDDY_MAX_ORDER else o.

Lemma pool_order_sz M : 0 <= M <= 21 -> pool_order (sz M) = M.
Proof.
  intros HM. unfold pool_order, GPU_BUDDY_MAX_ORDER. rewrite (init_order_spec 64 0 M) by lia.
  destruct (Z.ltb_spec 21 M); lia.
Qed.

(** It is the order a request for as many bytes is served at. *)
Lemma pool_order_request size : 0 < size <= 2 ^ 34 -> pool_order size = order_of size.
Proof.
  intros Hs. set (k := Z.max 0 (Z.log2_up size - 12)). pose proof (Z.log2_up_nonneg size).
  pose proof (Z.log2_up_le_mono _ _ (proj2 Hs)) as H34. rewrite Z.log2_up_pow2 in H34 by lia.
  assert (Hlo : forall o, 0 <= o < k -> sz o < size).
  { intros o Ho. rewrite sz_pow by lia. destruct (Z.eq_dec size 1) as [->|]; [unfold k in Ho; change (Z.log2_up 1) with 0 in Ho; lia|].
    pose proof (Z.log2_up_spec size ltac:(lia)) as [Hl _]. eapply Z.le_lt_trans; [|exact Hl].
    apply Z.pow_le_mono_r; unfold k in Ho; lia. }
  assert (Hhi : size <= sz k).
  { rewrite sz_pow by lia. destruct (Z.eq_dec size 1) as [->|]; [by vm_compute|].
    pose proof (Z.log2_up_spec size ltac:(lia)) as [_ Hu]. etrans; [exact Hu|].
    apply Z.pow_le_mono_r; unfold k; lia. }
  assert (Hk : 0 <= k <= 22) by (unfold k; lia).
  assert (Hrun : forall fuel o, 0 <= o <= k -> k - o < Z.of_nat fuel -> init_order fuel size o = k).
  { induction fuel as [|n IH]; intros o Ho Hf; [lia|]. cbn [init_order].
    assert (Hb : block_bytes o = sz o).
    { unfold block_bytes. rewrite Z.shiftl_mul_pow2 by lia. fold (sz o). apply u64_id.
      pose proof (sz_pos o ltac:(lia)). pose proof (sz_mono o 22 ltac:(lia)).
      change (sz 22) with 17179869184 in *. lia. }
    rewrite Hb. destruct (Z.ltb_spec (sz o) size) as [Hl|Hl].
    - assert (o <> k) by (intros ->; lia). apply IH; lia.
    - destruct (Z.eq_dec o k) as [|Hne]; [done|]. specialize (Hlo o ltac:(lia)). lia. }
  unfold pool_order, GPU_BUDDY_MAX_ORDER. rewrite (Hrun 64%nat 0) by lia. unfold order_of. fold k.
  destruct (Z.ltb_spec 21 k); lia.
Qed.

Lemma init_inv B size :
  geo B (pool_order size) ->
  let b := gpu_buddy_init B size in inv B (pool_order size) (records b) [] b /\ live b = [].
Proof. intros Hg b. by apply fresh_inv. Qed.

Lemma reset_inv B M R b :
  inv B M R [] b -> let b' := gpu_buddy_reset b in inv B M (records b') [] b' /\ live b' = [].
Proof.
  intros Hi b'. unfold b', gpu_buddy_reset. rewrite (iv_base _ _ _ _ _ Hi), (iv_max _ _ _ _ _ Hi).
  apply fresh_inv; try done; [apply (iv_geo _ _ _ _ _ Hi)|apply (iv_base _ _ _ _ _ Hi)|
    apply (iv_max _ _ _ _ _ Hi)].
Qed.

Lemma pairwise_elem l x y : pairwise l -> x ∈ l -> y ∈ l -> x <> y -> disj x y.
Proof.
  induction l as [|z l IH]; intros Hp Hx Hy Hne; [by apply not_elem_of_nil in Hx|].
  destruct Hp as [Hz Hp]. rewrite Forall_forall in Hz.
  apply elem_of_cons in Hx as [->|Hx], Hy as [->|Hy]; [done|by apply Hz|by apply disj_sym, Hz|by apply IH].
Qed.

(** ** Sequences of calls *)
Inductive buddy_op := OAlloc (size : Z) | OFree (addr : Z) | OReset.
Definition op_ok (op : buddy_op) : Prop :=
  match op with OAlloc size => is_u64 size | _ => True end.
Definition buddy_run (b : gpu_buddy) (op : buddy_op) : gpu_buddy :=
  match op with
  | OAlloc size => (gpu_buddy_alloc size b).2
  | OFree addr => (gpu_buddy_free addr b).2
  | OReset => gpu_buddy_reset b
  end.

Lemma op_inv B M b op :
  op_ok op -> inv B M (records b) [] b ->
  inv B M (records (buddy_run b op)) [] (buddy_run b op).
Proof.
  intros Hok Hi. destruct op as [size|addr|]; simpl in *.
  - destruct (Z.eq_dec size 0) as [->|]; [done|].
    pose proof (alloc_inv_any _ _ size _ Hi ltac:(lia)) as H.
    destruct (gpu_buddy_alloc size b) as [[r [a|]] b']; apply H.
  - pose proof (free_inv _ _ addr _ Hi) as H. destruct (find_record addr b) as [r|].
    + destruct H as (b' & -> & H & _). exact H.
    + by destruct H as [-> _].
  - by apply (reset_inv _ _ (records b)).
Qed.

Lemma run_inv B M ops b :
  Forall op_ok ops -> inv B M (records b) [] b ->
  let b' := fold_left buddy_run ops b in inv B M (records b') [] b'.
Proof.
  revert b. induction ops as [|op ops IH]; intros b Hok Hi; simpl; [done|].
  inversion Hok; subst. by apply IH; [|apply op_inv].
Qed.

(** The states an allocator of order [M] at [B] can be in. *)
Definition reachable (B M : Z) (b : gpu_buddy) : Prop :=
  geo B M /\ exists size ops, pool_order size = M /\ Forall op_ok ops /\
    b = fold_left buddy_run ops (gpu_buddy_init B size).

Lemma reachable_inv B M b : reachable B M b -> inv B M (records b) [] b.
Proof. intros (Hg & size & ops & <- & Hok & ->). apply run_inv; [done|]. by apply init_inv. Qed.

Lemma reachable_step B M b op : op_ok op -> reachable B M b -> reachable B M (buddy_run b op).
Proof.
  intros Hok (Hg & size & ops & HM & Hops & ->). split; [done|]. exists size, (ops ++ [op]).
  split; [done|]. split.
  - apply Forall_app. by repeat constructor.
  - by rewrite fold_left_app.
Qed.
Lemma reachable_init B size : geo B (pool_order size) -> reachable B (pool_order size) (gpu_buddy_init B size).
Proof. intros Hg. split; [done|]. by exists size, []. Qed.

(** Blocks in use are no larger than the pool. *)
Lemma live_order B M b x : reachable B M b -> x ∈ live b -> 0 <= x.2 <= M.
Proof.
  intros Hr Hx. pose proof (reachable_inv _ _ _ Hr) as [_ _ _ _ [_ Hp] _ _]. simpl in Hp.
  rewrite Forall_app, !Forall_forall in Hp. destruct Hp as [_ Hp]. apply (Hp x Hx).
Qed.

(** With nodes left, splitting reaches the order asked for. *)
Lemma insert_new_room a o b :
  block_pool_used b < BLOCK_POOL_SIZE -> o <= max_order b ->
  let b' := insert_new a o b in
  flist b' o = a :: flist b o /\ max_order b' = max_order b /\
  block_pool_used b' = block_pool_used b + 1.
Proof.
  intros Hu Ho b'. unfold b', insert_new, pool_alloc.
  destruct (Z.leb_spec BLOCK_POOL_SIZE (block_pool_used b)); [lia|].
  unfold free_list_insert. simpl. destruct (Z.ltb_spec (max_order b) o); [lia|].
  rewrite flist_set, decide_True by done. done.
Qed.

Lemma split_down_reach n o b :
  0 <= o -> o + Z.of_nat n <= max_order b -> flist b (o + Z.of_nat n) <> [] ->
  block_pool_used b + 2 * Z.of_nat n <= BLOCK_POOL_SIZE ->
  exists b', split_down n o b = (b', o) /\ flist b' o <> [] /\ max_order b' = max_order b.
Proof.
  intros Ho. revert b. induction n as [|m IH]; intros b Hm Hne Hu.
  { exists b. rewrite Nat2Z.inj_0, Z.add_0_r in Hne. done. }
  rewrite split_down_S. cbv zeta. set (t := o + Z.of_nat (S m)) in *. unfold free_list_pop.
  destruct (Z.ltb_spec (max_order b) t); [lia|]. destruct (flist b t) as [|a l]; [done|].
  set (b1 := set_flist t l b).
  destruct (insert_new_room a (t - 1) b1 ltac:(simpl; lia) ltac:(simpl; lia)) as (_ & Hm1 & Hu1).
  destruct (insert_new_room (u64 (a + block_bytes t / 2)) (t - 1) (insert_new a (t - 1) b1)
    ltac:(rewrite Hu1; simpl; lia) ltac:(rewrite Hm1; simpl; lia)) as (Hf2 & Hm2 & Hu2).
  destruct (IH (insert_new (u64 (a + block_bytes t / 2)) (t - 1) (insert_new a (t - 1) b1)))
    as (b' & H1 & H2 & H3).
  - rewrite Hm2, Hm1. simpl. lia.
  - replace (o + Z.of_nat m) with (t - 1) by lia. by rewrite Hf2.
  - rewrite Hu2, Hu1. simpl. lia.
  - exists b'. split; [done|]. split; [done|]. by rewrite H3, Hm2, Hm1.
Qed.

Lemma find_order_complete n o b t :
  o <= t < o + Z.of_nat n -> flist b t <> [] ->
  exists t', find_order n o b = Some t' /\ o <= t' <= t /\ flist b t' <> [].
Proof.
  revert o. induction n as [|n IH]; intros o Ht Hne; [lia|]. simpl.
  destruct (flist b o) eqn:E.
  - assert (o <> t) by (by intros ->). destruct (IH (o + 1) ltac:(lia) Hne) as (t' & ? & ? & ?).
    exists t'. split; [done|]. split; [lia|done].
  - exists o. rewrite E. split; [done|]. split; [lia|done].
Qed.

Lemma add_in_room r i l : Exists (fun q : gpu_buddy_record => r_used q = false) l -> add_in r i l <> None.
Proof.
  intros H. revert i. induction H as [q l Hx|q l H IH]; intros i; simpl.
  - by rewrite Hx.
  - destruct (r_used q); [|done]. specialize (IH (i + 1)). by destruct (add_in r (i + 1) l) as [[]|].
Qed.

Lemma alloc_complete size t b :
  0 < size < 2 ^ 64 -> served_order size <= t <= max_order b -> flist b t <> [] ->
  block_pool_used b + 2 * 21 <= BLOCK_POOL_SIZE -> max_order b <= 21 ->
  Exists (fun r => r_used r = false) (records b) ->
  exists a b', gpu_buddy_alloc size b = (0, Some a, b').
Proof.
  intros Hs Ht Hne Hu Hm Hr. unfold gpu_buddy_alloc. destruct (Z.eqb_spec size 0); [lia|]. cbv zeta.
  rewrite order_for_served by lia. assert (Ho : 0 <= served_order size) by apply served_order_range.
  destruct (find_order_complete (Z.to_nat (max_order b - served_order size + 1)) (served_order size) b t
    ltac:(lia) Hne) as (t' & -> & Ht' & Hne').
  destruct (split_down_reach (Z.to_nat (t' - served_order size)) (served_order size) b) as (b1 & E & H1 & H2);
    [done|lia| |lia|]; [by replace (served_order size + _) with t' by lia|].
  rewrite E. unfold free_list_pop. rewrite H2. destruct (Z.ltb_spec (max_order b) (served_order size)); [lia|].
  destruct (flist b1 (served_order size)) as [|a l]; [done|]. unfold add_record.
  assert (Hrec : records (set_flist (served_order size) l b1) = records b).
  { pose proof (split_down_records (Z.to_nat (t' - served_order size)) (served_order size) b) as Hsr.
    rewrite E in Hsr. exact Hsr. }
  rewrite Hrec. destruct (add_in _ 0 (records b)) as [[j l']|] eqn:Ea; [|by apply add_in_room in Ea].
  eauto.
Qed.

(** A call takes nodes and gives none back. *)
Lemma insert_new_used a o b : block_pool_used b <= block_pool_used (insert_new a o b).
Proof.
  unfold insert_new, pool_alloc. destruct (Z.leb_spec BLOCK_POOL_SIZE (block_pool_used b)); [lia|].
  unfold free_list_insert. case_match; simpl; lia.
Qed.
Lemma pop_used o b : block_pool_used (free_list_pop o b).2 = block_pool_used b.
Proof. unfold free_list_pop. case_match; [done|]. by case_match. Qed.
Lemma split_down_used n o b : block_pool_used b <= block_pool_used (split_down n o b).1.
Proof.
  revert b. induction n as [|n IH]; intros b; [simpl; lia|]. rewrite split_down_S. cbv zeta.
  pose proof (pop_used (o + Z.of_nat (S n)) b) as Hp.
  destruct (free_list_pop _ b) as [[a|] b1]; simpl in Hp; [|simpl; lia].
  etrans; [|apply IH]. etrans; [|apply insert_new_used]. etrans; [|apply insert_new_used]. lia.
Qed.
Lemma alloc_used size b : block_pool_used b <= block_pool_used (gpu_buddy_alloc size b).2.
Proof.
  unfold gpu_buddy_alloc. case_match; [simpl; lia|]. cbv zeta. case_match; [|simpl; lia].
  pose proof (split_down_used (Z.to_nat (z - order_for_size
    (if round_up_pow2 size <? GPU_BUDDY_MIN_BLOCK_SIZE then GPU_BUDDY_MIN_BLOCK_SIZE else round_up_pow2 size)))
    (order_for_size (if round_up_pow2 size <? GPU_BUDDY_MIN_BLOCK_SIZE then GPU_BUDDY_MIN_BLOCK_SIZE else round_up_pow2 size)) b) as Hs.
  destruct (split_down _ _ b) as [b1 t]. simpl in Hs.
  pose proof (pop_used t b1) as Hp. destruct (free_list_pop t b1) as [[a|] b2]; simpl in Hp; [|simpl; lia].
  unfold add_record. destruct (add_in _ _ _) as [[j l]|]; simpl; [lia|].
  pose proof (insert_new_used a t b2). lia.
Qed.

(** The order is the least one whose block covers the request. *)
Lemma order_of_least size k : 0 < size -> 0 <= k -> size <= sz k -> order_of size <= k.
Proof.
  intros Hs Hk Hc. unfold order_of. rewrite sz_pow in Hc by lia.
  pose proof (Z.log2_up_le_mono _ _ Hc) as Hl. rewrite Z.log2_up_pow2 in Hl by lia. lia.
Qed.

Lemma served_order_fits size : 0 < size < 2 ^ 64 -> size <= sz 21 ->
  size <= sz (served_order size) /\ forall k, 0 <= k -> size <= sz k -> served_order size <= k.
Proof.
  intros Hs Hc. pose proof (sz_pow 21 ltac:(lia)) as H21. change (2 ^ (21 + 12)) with (2 ^ 33) in H21.
  rewrite served_order_small by lia. split; [apply order_of_covers; lia|].
  intros k Hk Hk'. apply order_of_least; lia.
Qed.
Lemma served_order_oversize size : sz 21 < size -> served_order size = if size <=? 2 ^ 63 then 21 else 0.
Proof.
  intros Hs. unfold served_order. rewrite Z.leb_antisym. destruct (Z.ltb_spec (2 ^ 63) size); [done|]. simpl.
  unfold order_of. pose proof (sz_pow 21 ltac:(lia)) as H21. change (21 + 12) with 33 in H21.
  pose proof (Z.log2_up_le_mono (2 ^ 33) size ltac:(lia)) as Hl. rewrite Z.log2_up_pow2 in Hl by lia. lia.
Qed.
(** A block below the greatest order covers its request, if that did not wrap. *)
Lemma served_order_covers size : 0 < size <= 2 ^ 63 -> served_order size < 21 -> size <= sz (served_order size).
Proof.
  intros Hs Ho. rewrite served_order_small in * by lia. apply order_of_covers. split; [lia|].
  destruct (Z.le_gt_cases size (sz 21)) as [|Hl]; [done|].
  pose proof (served_order_oversize size Hl) as H. rewrite served_order_small in H by lia.
  destruct (Z.leb_spec size (2 ^ 63)); lia.
Qed.
Lemma order_of_tight size : 0 < size <= sz 21 -> sz (order_of size) < 2 * size \/ order_of size = 0.
Proof.
  intros Hs. unfold order_of. destruct (Z.le_gt_cases (Z.log2_up size) 12) as [|Hl]; [right; lia|left].
  assert (1 < size).
  { destruct (Z.eq_dec size 1) as [->|]; [change (Z.log2_up 1) with 0 in Hl|]; lia. }
  pose proof (Z.log2_up_spec size ltac:(lia)) as [Hlo _].
  pose proof (Z.log2_up_le_mono _ _ (proj2 Hs)) as H33. change (Z.log2_up (sz 21)) with 33 in H33.
  set (k := Z.log2_up size) in *. rewrite sz_pow by lia.
  assert (Z.min 21 (Z.max 0 (k - 12)) + 12 = Z.succ (Z.pred k)) as -> by lia.
  rewrite Z.pow_succ_r by lia. lia.
Qed.

(** With no block large enough nothing is touched. *)
Lemma find_order_none n o b : (forall t, o <= t < o + Z.of_nat n -> flist b t = []) -> find_order n o b = None.
Proof.
  revert o. induction n as [|n IH]; intros o Hf; [done|]. simpl. rewrite (Hf o) by lia. apply IH.
  intros t Ht. apply Hf. lia.
Qed.
Lemma alloc_none size b : 0 < size < 2 ^ 64 ->
  (forall t, served_order size <= t <= max_order b -> flist b t = []) -> gpu_buddy_alloc size b = (-1, None, b).
Proof.
  intros Hs Hf. unfold gpu_buddy_alloc. destruct (Z.eqb_spec size 0); [lia|]. cbv zeta.
  rewrite order_for_served by lia. rewrite find_order_none; [done|]. intros t Ht. apply Hf. lia.
Qed.

(** A failing call loses no free memory while nodes remain. *)
Lemma alloc_fail_total B M size b r b' : inv B M (records b) [] b -> 0 < size < 2 ^ 64 ->
  gpu_buddy_alloc size b = (r, None, b') -> block_pool_used b' < BLOCK_POOL_SIZE ->
  total (free_blocks b') = total (free_blocks b).
Proof.
  intros Hi Hs E Hu. pose proof (alloc_inv_any _ _ _ _ Hi Hs) as H. rewrite E in H. destruct H as (_ & Hi' & Hl).
  pose proof (alloc_used size b) as Hm. rewrite E in Hm. simpl in Hm.
  pose proof (iv_full _ _ _ _ _ Hi' Hu) as H1. pose proof (iv_full _ _ _ _ _ Hi ltac:(lia)) as H2.
  simpl in H1, H2. fold (live b') in H1. fold (live b) in H2. rewrite Hl in H1.
  rewrite !total_app in H1, H2. lia.
Qed.


(** C15. What [gpu_buddy_alloc] does with any 64-bit size: it serves a request of
    at most 8 GiB with a block of the least order that covers it (a larger one up
    to [2^63] with one of order 21, and beyond that with a page), which is
    disjoint from the allocated blocks, and only adds that block to them;
    otherwise it returns -1 and the allocated blocks stay as they are.  With no
    free block of a sufficient order the allocator is not touched; another
    failure loses no free memory while block nodes remain, and happens only with
    no record free or fewer than 42 nodes left. *)
Theorem buddy_alloc_spec B M b size :
  reachable B M b -> 0 < size < 2 ^ 64 ->
  (size <= sz 21 -> size <= sz (served_order size) /\
     forall k, 0 <= k -> size <= sz k -> served_order size <= k) /\
  (sz 21 < size -> served_order size = if size <=? 2 ^ 63 then 21 else 0) /\
  match gpu_buddy_alloc size b with
  | (r, Some a, b') => r = 0 /\ live b' ≡ₚ (a, served_order size) :: live b /\
      Forall (disj (a, served_order size)) (live b)
  | (r, None, b') => r = -1 /\ live b' = live b /\
      ((forall t, served_order size <= t <= M -> flist b t = []) -> b' = b) /\
      (block_pool_used b' < BLOCK_POOL_SIZE -> total (free_blocks b') = total (free_blocks b)) /\
      ((exists t, served_order size <= t <= M /\ flist b t <> []) ->
       Exists (fun r => r_used r = false) (records b) ->
       BLOCK_POOL_SIZE < block_pool_used b + 42)
  end.
Proof.
  intros Hr Hs. split; [by apply served_order_fits|]. split; [by apply served_order_oversize|].
  pose proof (reachable_inv _ _ _ Hr) as Hi. pose proof (alloc_inv_any _ _ _ _ Hi Hs) as H.
  pose proof (alloc_fail_total B M size b) as Hf. pose proof (alloc_none size b Hs) as Hn.
  pose proof (iv_max _ _ _ _ _ Hi) as HM. pose proof (iv_geo _ _ _ _ _ Hi) as (_ & HM21 & _).
  destruct (gpu_buddy_alloc size b) as [[r [a|]] b'] eqn:E.
  - destruct H as (-> & Hi' & Hl). split; [done|]. split; [done|].
    pose proof (iv_good _ _ _ _ _ Hi') as Hg. simpl in Hg. fold (live b') in Hg.
    apply (good_perm _ _ _ ((a, served_order size) :: live b ++ free_blocks b')) in Hg.
    2: by rewrite Hl, Permutation_app_comm.
    destruct Hg as [[Hd _] _]. by apply Forall_app in Hd as [? _].
  - destruct H as (-> & Hi' & Hl). split; [done|]. split; [done|]. split; [|split].
    + rewrite <- HM. intros Ht. by injection (Hn Ht).
    + intros Hu. by apply (Hf _ _ Hi Hs eq_refl).
    + intros (t & Ht & Hne) Hrec.
      destruct (Z.lt_ge_cases BLOCK_POOL_SIZE (block_pool_used b + 42)) as [|Hroom]; [done|exfalso].
      destruct (alloc_complete size t b) as (a & b2 & E2); try done; lia || congruence.
Qed.

(** What [gpu_buddy_free] does: the release of an allocated address succeeds
    and takes exactly that block off the allocated ones; any other address is
    refused and nothing changes. *)
Theorem buddy_free_spec B M b addr :
  reachable B M b ->
  (addr ∉ (live b).*1 -> gpu_buddy_free addr b = (-1, b)) /\
  (addr ∈ (live b).*1 -> exists o b', gpu_buddy_free addr b = (0, b') /\
     live b ≡ₚ (addr, o) :: live b').
Proof.
  intros Hr. pose proof (free_inv _ _ addr _ (reachable_inv _ _ _ Hr)) as H.
  destruct (find_record addr b) as [r|].
  - destruct H as (b' & H1 & _ & H2). split; [|by eauto]. intros Hn. exfalso. apply Hn.
    rewrite H2. left.
  - destruct H as [H1 H2]. by split.
Qed.

(** The block nodes are never given back ([pool_free] does nothing), so an
    allocator with no live allocation stops serving requests: 84 cycles of
    allocating and releasing one page on the 256 MiB device heap use them up. *)
Theorem buddy_nodes_run_out :
  let b := alloc_free_cycles 84 4096 (gpu_buddy_init 4294967296 268435456) in
  (gpu_buddy_alloc 4096 b).1 = (-1, None) /\ gpu_buddy_allocated_count b = 0 /\
  gpu_buddy_free_size b = 268435456.
Proof. vm_compute. done. Qed.

(** That state loses its only free block to the next request. *)
Lemma failed_alloc_loses_block :
  let b := alloc_free_cycles 84 4096 (gpu_buddy_init 4294967296 268435456) in
  gpu_buddy_free_size b = 268435456 /\ gpu_buddy_free_size (gpu_buddy_alloc 4096 b).2 = 0.
Proof. vm_compute. done. Qed.

(** A request of more than [2^63] bytes is granted one page; and one of 16 GiB
    is granted a pool of 8 GiB. *)
Lemma oversized_request_granted :
  (gpu_buddy_alloc (2 ^ 63 + 1) (gpu_buddy_init 4294967296 268435456)).1 = (0, Some 4563398656) /\
  records (gpu_buddy_alloc (2 ^ 63 + 1) (gpu_buddy_init 4294967296 268435456)).2 !! 0%nat =
    Some (mk_record 4563398656 4096 0 true) /\
  (gpu_buddy_alloc (2 ^ 34) (gpu_buddy_init 4294967296 (sz 21))).1 = (0, Some 4294967296).
Proof. vm_compute. done. Qed.

Lemma reachable_example : reachable 4294967296 16
  (fold_left buddy_run [OAlloc 5000; OAlloc 4096; OFree 4294967296] (gpu_buddy_init 4294967296 (sz 16))).
Proof.
  split; [by repeat split; vm_compute|]. eexists _, _. split; [|split; [|done]]; [by vm_compute|].
  by repeat constructor.
Defined.


Lemma buddy_alloc_spec_witness :
  let b := gpu_buddy_init 4294967296 (sz 16) in
  reachable 4294967296 16 b /\
  match gpu_buddy_alloc 5000 b with
  | (r, Some a, b') => r = 0 /\ live b' ≡ₚ (a, 1) :: live b
  | (r, None, _) => False
  end.
Proof.
  assert (Hr : reachable 4294967296 16 (gpu_buddy_init 4294967296 (sz 16))).
  { split; [by repeat split; vm_compute|]. exists (sz 16), []. split; [by vm_compute|done]. }
  split; [done|]. pose proof (buddy_alloc_spec _ _ _ 5000 Hr ltac:(by vm_compute)) as (_ & _ & H).
  destruct (gpu_buddy_alloc 5000 _) as [[r [a|]] b'] eqn:E; [|by vm_compute in E].
  split; apply H.
Defined.

Lemma buddy_free_spec_witness :
  exists b, reachable 4294967296 16 b /\ gpu_buddy_free 1 b = (-1, b).
Proof.
  eexists. split; [exact reachable_example|]. apply (buddy_free_spec 4294967296 16).
  - apply reachable_example.
  - vm_compute. intros H. repeat (apply elem_of_cons in H as [H|H]; [done|]).
    by apply not_elem_of_nil in H.
Defined.
