(* ===== verification/HalUser.v ===== *)
(** * The user-space HAL

    [plugins/gpu_driver/hal/hal_user.cpp] over [hal_user.h]: registers, device
    memory and its allocator, fences, interrupts, IOMMU mappings, events,
    semaphores, green contexts, kernel images, adapters and the doorbell hook.
    Each operation is atomic (it runs under its mutex).

    Host memory is a total map from addresses to bytes; the device heap is the
    [HAL_HEAP_SIZE] bytes at [heap].  Pointer arithmetic is relative to [heap]
    with the 64-bit offset read as signed, so that an offset that wrapped
    around designates the bytes before the heap, as it does in the code.
    Calls to function pointers are recorded in order. *)
From S2P Require Import Prelude Bytes Hal Semaphore FenceId Buddy BuddySafe.

Definition HAL_REGS_COUNT : Z := 256.
Definition HAL_MAX_FENCES : Z := 128.
Definition MAX_KERNEL_IMAGE_SIZE : Z := 64 * 1024 * 1024.

(** Calls out of the HAL. *)
Inductive hal_call :=
| CallInterrupt (handler user_data : Z)
| CallDoorbell (cb cb_ctx queue_id : Z)
| CallSemWaiter (c : Semaphore.call).

Record hal_user_context := mk_hal_user {
  regs : list Z;
  ram : Z -> Z;
  heap : Z;
  hu_buddy : gpu_buddy;
  buddy_initialized : bool;
  fence_signaled : list bool;
  doorbell_count : Z;
  hu_interrupt_count : Z;
  interrupt_handlers : list (option Z);
  interrupt_handler_data : list Z;
  doorbell_ring_cb : option (Z * Z);
  iommu_mappings : gmap Z Z;
  event_signaled : list bool;
  hu_sem_mgr : option SemaphoreManager;
  green_context_handles : gmap Z Z;
  next_green_context_handle : Z;
  adapter_info : option Z;
  next_adapter_handle : Z;
  adapter_handles : gset Z;
  hal_calls : list hal_call
}.
#[export] Instance eta_hal_user : Eta hal_user_context := fun h =>
  mk_hal_user (regs h) (ram h) (heap h) (hu_buddy h) (buddy_initialized h) (fence_signaled h)
    (doorbell_count h) (hu_interrupt_count h) (interrupt_handlers h) (interrupt_handler_data h)
    (doorbell_ring_cb h) (iommu_mappings h) (event_signaled h) (hu_sem_mgr h)
    (green_context_handles h) (next_green_context_handle h) (adapter_info h)
    (next_adapter_handle h) (adapter_handles h) (hal_calls h).

Definition zero_buddy : gpu_buddy := mk_buddy 0 0 0 ∅ 0 init_records 0.

(** [memory] holds what [malloc] returned the heap over. *)
Definition hal_user_init (memory : Z -> Z) (heap_ptr : Z) (mgr : option SemaphoreManager) :
    hal_user_context :=
  mk_hal_user (replicate 256 0) memory heap_ptr zero_buddy false (replicate 128 false) 0 0
    (replicate 4 None) (replicate 4 0) None ∅ (replicate 256 false) mgr ∅ 1 None 1 ∅ [].

Definition emit (c : hal_call) (h : hal_user_context) : hal_user_context :=
  h <| hal_calls ::= fun l => l ++ [c] |>.

(** ** Registers *)
Definition user_reg_read (offset : Z) (h : hal_user_context) : Z * Z :=
  if HAL_REGS_COUNT * 8 <=? offset then (- EINVAL, 0)
  else (0, default 0 (regs h !! Z.to_nat (offset / 8))).
Definition user_reg_write (offset val : Z) (h : hal_user_context) : Z * hal_user_context :=
  if HAL_REGS_COUNT * 8 <=? offset then (- EINVAL, h)
  else (0, h <| regs ::= <[Z.to_nat (offset / 8) := val]> |>).

(** ** Device memory *)
Definition heap_off (dev_addr : Z) : Z := u64 (dev_addr - HAL_HEAP_BASE).
Definition heap_addr (dev_addr : Z) (h : hal_user_context) : Z := heap h + s64 (heap_off dev_addr).
Definition mem_guard (dev_addr size : Z) : bool := HAL_HEAP_SIZE <? u64 (heap_off dev_addr + size).

(** Into a local buffer, which keeps its contents when the call fails. *)
Definition user_mem_read (dev_addr size : Z) (h : hal_user_context) : Z * list Z :=
  if mem_guard dev_addr size then (- EINVAL, [])
  else (0, peek (heap_addr dev_addr h) size (ram h)).
Definition user_mem_write (dev_addr : Z) (bs : list Z) (h : hal_user_context) :
    Z * hal_user_context :=
  if mem_guard dev_addr (Z.of_nat (length bs)) then (- EINVAL, h)
  else (0, h <| ram ::= poke (heap_addr dev_addr h) bs |>).

(** With a host pointer, which may be null and may point into the heap. *)
Definition user_mem_read_to (dev_addr host_buf size : Z) (h : hal_user_context) :
    Z * hal_user_context :=
  if mem_guard dev_addr size || (host_buf =? 0) then (- EINVAL, h)
  else (0, h <| ram ::= poke host_buf (peek (heap_addr dev_addr h) size (ram h)) |>).
Definition user_mem_write_from (dev_addr host_buf size : Z) (h : hal_user_context) :
    Z * hal_user_context :=
  if mem_guard dev_addr size || (host_buf =? 0) then (- EINVAL, h)
  else (0, h <| ram ::= poke (heap_addr dev_addr h) (peek host_buf size (ram h)) |>).

Definition user_mem_alloc (size : Z) (h : hal_user_context) : Z * option Z * hal_user_context :=
  let h := if buddy_initialized h then h
           else h <| hu_buddy := gpu_buddy_init HAL_HEAP_BASE HAL_HEAP_SIZE |>
                  <| buddy_initialized := true |> in
  let '(ret, addr, b) := gpu_buddy_alloc size (hu_buddy h) in
  (ret, addr, h <| hu_buddy := b |>).
Definition user_mem_free (dev_addr : Z) (h : hal_user_context) : Z * hal_user_context :=
  let '(ret, b) := gpu_buddy_free dev_addr (hu_buddy h) in (ret, h <| hu_buddy := b |>).

(** ** Fences *)
Fixpoint first_unsignaled (l : list bool) : option nat :=
  match l with
  | [] => None
  | false :: _ => Some 0%nat
  | true :: l' => S <$> first_unsignaled l'
  end.
Definition user_fence_create (h : hal_user_context) : Z * option Z * hal_user_context :=
  match hu_sem_mgr h with
  | Some m =>
      let '(k, m) := Semaphore.create 0 m in
      let h := h <| hu_sem_mgr := Some m |> in
      if k =? 0 then (- ENOMEM, None, h) else (0, Some k, h)
  | None =>
      match first_unsignaled (fence_signaled h) with
      | Some i => (0, Some (Z.of_nat i), h <| fence_signaled ::= <[i := true]> |>)
      | None => (- ENOMEM, None, h)
      end
  end.
Definition user_fence_read (fence_id : Z) (h : hal_user_context) : Z * option Z :=
  match hu_sem_mgr h with
  | Some m => let v := Semaphore.query fence_id m in
      if v =? UINT64_MAX then (- EINVAL, None) else (0, Some (if 0 <? v then 1 else 0))
  | None =>
      if HAL_MAX_FENCES <=? fence_id then (- EINVAL, None)
      else (0, Some (if default false (fence_signaled h !! Z.to_nat fence_id) then 1 else 0))
  end.

(** ** Doorbell and interrupts *)
Definition user_doorbell_ring (queue_id : Z) (h : hal_user_context) : hal_user_context :=
  let h := h <| doorbell_count ::= fun n => u64 (n + 1) |> in
  match doorbell_ring_cb h with
  | Some (cb, ctx) => emit (CallDoorbell cb ctx queue_id) h
  | None => h
  end.
Definition count_interrupt (h : hal_user_context) : hal_user_context :=
  h <| hu_interrupt_count ::= fun n => u64 (n + 1) |>.
Definition call_handler (vector data : Z) (h : hal_user_context) : hal_user_context :=
  match interrupt_handlers h !! Z.to_nat vector with
  | Some (Some f) => emit (CallInterrupt f data) h
  | _ => h
  end.
Definition user_interrupt_raise (vector : Z) (h : hal_user_context) : hal_user_context :=
  let h := count_interrupt h in
  if 4 <=? vector then h else call_handler vector 0 h.
Definition user_interrupt_register (vector : Z) (handler : option Z) (h : hal_user_context) :
    Z * hal_user_context :=
  if 4 <=? vector then (- EINVAL, h)
  else (0, count_interrupt (h <| interrupt_handlers ::= <[Z.to_nat vector := handler]> |>
                              <| interrupt_handler_data ::= <[Z.to_nat vector := 0]> |>)).
Definition user_interrupt_raise_ex (vector user_data : Z) (h : hal_user_context) :
    hal_user_context :=
  if 4 <=? vector then h
  else call_handler vector user_data
         (count_interrupt (h <| interrupt_handler_data ::= <[Z.to_nat vector := user_data]> |>)).

(** ** IOMMU mappings *)
Definition user_iommu_map (va size : Z) (h : hal_user_context) : Z * hal_user_context :=
  if size =? 0 then (- EINVAL, h)
  else match iommu_mappings h !! va with
       | Some _ => (- EEXIST, h)
       | None => (0, h <| iommu_mappings ::= <[va := size]> |>)
       end.
Definition user_iommu_unmap (va size : Z) (h : hal_user_context) : Z * hal_user_context :=
  match iommu_mappings h !! va with
  | None => (- ENOENT, h)
  | Some n => if negb (size =? 0) && negb (n =? size) then (- EINVAL, h)
              else (0, h <| iommu_mappings ::= delete va |>)
  end.

(** ** Events *)
Definition user_event_signal (event_id events : Z) (h : hal_user_context) : Z * hal_user_context :=
  if 256 <=? event_id then (- EINVAL, h)
  else if events =? 0 then (- EINVAL, h)
  else (0, h <| event_signaled ::= <[Z.to_nat event_id := true]> |>).
(** The code the wait returns in a state in which nothing else happens any
    more; [None] when it blocks for ever. *)
Definition user_event_wait (event_id timeout_us : Z) (h : hal_user_context) : option Z :=
  if 256 <=? event_id then Some (- EINVAL)
  else let signaled := default false (event_signaled h !! Z.to_nat event_id) in
       if signaled then Some 0
       else if timeout_us =? UINT64_MAX then None else Some (- ETIMEDOUT).
Definition user_event_notify (event_id : Z) (h : hal_user_context) : Z * hal_user_context :=
  if 256 <=? event_id then (- EINVAL, h)
  else (0, h <| event_signaled ::= <[Z.to_nat event_id := true]> |>).

(** ** Semaphores
    [closure] is the function object made of the client's callback and its
    user data. *)
Definition with_sem {A} (fail : A) (f : SemaphoreManager -> A * list Semaphore.call * SemaphoreManager)
    (h : hal_user_context) : A * hal_user_context :=
  match hu_sem_mgr h with
  | None => (fail, h)
  | Some m => let '(r, calls, m) := f m in
      (r, h <| hu_sem_mgr := Some m |> <| hal_calls ::= fun l => l ++ (CallSemWaiter <$> calls) |>)
  end.
Definition hal_sem_create (init : Z) : hal_user_context -> (Z * option Z) * hal_user_context :=
  with_sem (- ENODEV, None) (fun m =>
    let '(k, m) := Semaphore.create init m in
    (if k =? 0 then (- ENOMEM, None) else (0, Some k), [], m)).
Definition hal_sem_signal (handle value : Z) : hal_user_context -> Z * hal_user_context :=
  with_sem (- ENODEV) (Semaphore.signal handle value).
Definition hal_sem_wait (handle expected closure user_data : Z) :
    hal_user_context -> Z * hal_user_context :=
  with_sem (- ENODEV) (Semaphore.wait handle expected (Some closure) user_data).
Definition hal_sem_query (handle : Z) : hal_user_context -> (Z * option Z) * hal_user_context :=
  with_sem (- ENODEV, None) (fun m =>
    let v := Semaphore.query handle m in
    (if v =? UINT64_MAX then (- EINVAL, None) else (0, Some v), [], m)).
Definition hal_sem_destroy (handle : Z) : hal_user_context -> Z * hal_user_context :=
  with_sem (- ENODEV) (Semaphore.destroy handle).
Definition hal_pdl_signal_completion (handle value : Z) : hal_user_context -> Z * hal_user_context :=
  with_sem (- ENODEV) (Semaphore.signal handle value).

(** ** Green contexts *)
Definition hal_green_context_create (tsg_id : Z) (out : bool) (h : hal_user_context) :
    Z * option Z * hal_user_context :=
  if negb out then (- EINVAL, None, h)
  else let k := next_green_context_handle h in
       (0, Some k, h <| next_green_context_handle := u64 (k + 1) |>
                     <| green_context_handles ::= <[k := tsg_id]> |>).
(** [GreenContext::destroy] of a live context returns 0. *)
Definition hal_green_context_destroy (handle : Z) (h : hal_user_context) : Z * hal_user_context :=
  match green_context_handles h !! handle with
  | None => (- EINVAL, h)
  | Some _ => (0, h <| green_context_handles ::= delete handle |>)
  end.

(** ** Kernel images *)
Definition user_kernel_module_load (image_ptr image_size : Z) (h : hal_user_context) :
    Z * option Z * hal_user_context :=
  if (image_size =? 0) || (MAX_KERNEL_IMAGE_SIZE <? image_size) then (- EINVAL, None, h)
  else if image_ptr =? 0 then (- EFAULT, None, h)
  else match user_mem_alloc image_size h with
       | (rc, None, h) => (rc, None, h)
       | (rc, Some vram_addr, h) =>
           if negb (rc =? 0) then (rc, None, h)
           else let '(rc, h) := user_mem_write_from vram_addr image_ptr image_size h in
                if negb (rc =? 0) then (rc, None, (user_mem_free vram_addr h).2)
                else (0, Some vram_addr, h)
       end.
(** The result, and what is stored in the status field of the arguments. *)
Definition user_kernel_module_execute (h : hal_user_context) : (Z * option Z) * hal_user_context :=
  ((- ENOSYS, Some (- ENOSYS)), h).
Definition user_kernel_module_unload (h : hal_user_context) : (Z * option Z) * hal_user_context :=
  ((- ENOSYS, Some (- ENOSYS)), h).

(** ** Adapters *)
Definition adapter_get_info (out : bool) (h : hal_user_context) : Z * option Z :=
  if negb out then (- EINVAL, None)
  else match adapter_info h with None => (- ENODEV, None) | Some i => (0, Some i) end.
Definition adapter_open (out : bool) (h : hal_user_context) : Z * option Z * hal_user_context :=
  if negb out then (- EINVAL, None, h)
  else let k := next_adapter_handle h in
       let n := u64 (k + 1) in
       let '(k, n) := if k =? 0 then (n, u64 (n + 1)) else (k, n) in
       (0, Some k, h <| next_adapter_handle := n |> <| adapter_handles ::= fun s => {[k]} ∪ s |>).
Definition adapter_close (handle : Z) (h : hal_user_context) : Z * hal_user_context :=
  if decide (handle ∈ adapter_handles h)
  then (0, h <| adapter_handles ::= fun s => s ∖ {[handle]} |>)
  else (- EINVAL, h).

(** ** The doorbell hook: set once *)
Definition hal_user_set_doorbell_cb (cb cb_ctx : Z) (h : hal_user_context) : Z * hal_user_context :=
  match doorbell_ring_cb h with
  | Some _ => (- EBUSY, h)
  | None => (0, h <| doorbell_ring_cb := if cb =? 0 then None else Some (cb, cb_ctx) |>)
  end.

(** ** The interface the simulated hardware uses *)
#[export] Instance hal_user_ops : HalOps hal_user_context := {
  mem_read := user_mem_read;
  mem_write := user_mem_write;
  copy_out := user_mem_read_to;
  copy_in := user_mem_write_from;
  interrupt_raise := user_interrupt_raise
}.

(** ** Memory lemmas *)
Lemma mem_guard_in_heap a n : in_heap a n -> mem_guard a n = false /\ s64 (heap_off a) = a - HAL_HEAP_BASE.
Proof.
  unfold in_heap, mem_guard, heap_off, s64, HAL_HEAP_BASE, HAL_HEAP_SIZE. intros (H1 & H2 & H3).
  rewrite (u64_id (a - 4294967296)) by lia. rewrite (u64_id (a - 4294967296)) by lia.
  rewrite u64_id by lia. split; [apply Z.ltb_ge; lia|].
  destruct (Z.ltb_spec (a - 4294967296) (2 ^ 63)); lia.
Qed.

Lemma read_in_heap a n h :
  in_heap a n -> user_mem_read a n h = (0, peek (heap h + (a - HAL_HEAP_BASE)) n (ram h)).
Proof.
  intros Hin. destruct (mem_guard_in_heap a n Hin) as [Hg Ho]. unfold user_mem_read, heap_addr.
  by rewrite Hg, Ho.
Qed.
Lemma write_in_heap a bs h :
  in_heap a (Z.of_nat (length bs)) ->
  user_mem_write a bs h = (0, h <| ram ::= poke (heap h + (a - HAL_HEAP_BASE)) bs |>).
Proof.
  intros Hin. destruct (mem_guard_in_heap _ _ Hin) as [Hg Ho]. unfold user_mem_write, heap_addr.
  by rewrite Hg, Ho.
Qed.

#[export] Instance hal_user_laws : HalLaws hal_user_context.
Proof.
  split; simpl.
  - intros a n h Hin. rewrite read_in_heap by done. eexists. split; [done|].
    apply peek_length. apply Hin.
  - intros a bs h Hin _. rewrite write_in_heap by done. eexists. split; [done|]. split.
    + rewrite read_in_heap by done. simpl. by rewrite peek_poke.
    + intros a' n' Hin' Hd. rewrite !read_in_heap by done. simpl.
      rewrite peek_poke_disjoint by lia. done.
  - intros v a n h. unfold user_interrupt_raise, call_handler, count_interrupt, emit.
    destruct (4 <=? v); [done|]. simpl. by destruct (interrupt_handlers h !! Z.to_nat v) as [[f|]|].
Qed.

(** ** Allocated device memory *)
Definition allocs (h : hal_user_context) : list block :=
  if buddy_initialized h then BuddySafe.live (hu_buddy h) else [].
Definition hal_mem_ok (h : hal_user_context) : Prop :=
  if buddy_initialized h then reachable HAL_HEAP_BASE 16 (hu_buddy h) else hu_buddy h = zero_buddy.

Lemma heap_geo : geo HAL_HEAP_BASE 16.
Proof. by repeat split; vm_compute. Qed.
Lemma heap_size_sz : HAL_HEAP_SIZE = sz 16.
Proof. reflexivity. Qed.

Lemma block_in_heap h x : hal_mem_ok h -> x ∈ allocs h -> in_heap x.1 (sz x.2).
Proof.
  unfold hal_mem_ok, allocs. destruct (buddy_initialized h); [|by intros _ ?%not_elem_of_nil].
  intros Hr Hin. pose proof (reachable_inv _ _ _ Hr) as [_ _ _ _ [_ Hp] _ _]. simpl in Hp.
  rewrite Forall_app, !Forall_forall in Hp. destruct Hp as [_ Hp].
  destruct (Hp x Hin) as (Ho & H1 & H2 & _). pose proof (sz_pos x.2 ltac:(lia)).
  unfold in_heap. rewrite heap_size_sz. lia.
Qed.

Lemma block_size_pos h x : hal_mem_ok h -> x ∈ allocs h -> 0 < sz x.2.
Proof.
  unfold hal_mem_ok, allocs. destruct (buddy_initialized h); [|by intros _ ?%not_elem_of_nil].
  intros Hr Hin. pose proof (reachable_inv _ _ _ Hr) as [_ _ _ _ [_ Hp] _ _]. simpl in Hp.
  rewrite Forall_app, !Forall_forall in Hp. destruct Hp as [_ Hp].
  destruct (Hp x Hin) as (Ho & _). apply sz_pos. lia.
Qed.

Lemma allocs_disjoint h x y rest :
  hal_mem_ok h -> allocs h ≡ₚ x :: y :: rest -> disj x y.
Proof.
  unfold hal_mem_ok, allocs. destruct (buddy_initialized h).
  2: { intros _ Hp. by apply Permutation_nil_cons in Hp. }
  intros Hr Hl. pose proof (reachable_inv _ _ _ Hr) as [_ _ _ _ Hg _ _]. simpl in Hg.
  fold (BuddySafe.live (hu_buddy h)) in Hg.
  apply (good_perm _ _ _ (x :: y :: rest ++ free_blocks (hu_buddy h))) in Hg.
  2: by rewrite Hl, Permutation_app_comm.
  destruct Hg as [[Hd _] _]. by inversion Hd.
Qed.

Lemma ready_init h :
  hal_mem_ok h ->
  let h1 := if buddy_initialized h then h
            else h <| hu_buddy := gpu_buddy_init HAL_HEAP_BASE HAL_HEAP_SIZE |>
                   <| buddy_initialized := true |> in
  buddy_initialized h1 = true /\ reachable HAL_HEAP_BASE 16 (hu_buddy h1) /\
  BuddySafe.live (hu_buddy h1) = allocs h /\ ram h1 = ram h /\ heap h1 = heap h.
Proof.
  unfold hal_mem_ok, allocs. destruct (buddy_initialized h) eqn:E; intros Hr.
  - by rewrite E.
  - simpl. rewrite heap_size_sz. split; [done|]. split; [apply (reachable_init HAL_HEAP_BASE (sz 16)), heap_geo|].
    split; [apply (init_inv HAL_HEAP_BASE (sz 16)), heap_geo|done].
Qed.

Lemma mem_alloc_spec h size :
  hal_mem_ok h -> 0 < size < 2 ^ 64 ->
  match user_mem_alloc size h with
  | (r, Some a, h') => r = 0 /\ hal_mem_ok h' /\ allocs h' ≡ₚ (a, served_order size) :: allocs h /\
      (size <= 2 ^ 63 -> size <= sz (served_order size) /\ in_heap a size) /\ ram h' = ram h /\ heap h' = heap h
  | (r, None, h') => r = -1 /\ hal_mem_ok h' /\ allocs h' = allocs h /\
      ram h' = ram h /\ heap h' = heap h
  end.
Proof.
  intros Hok Hs. unfold user_mem_alloc. destruct (ready_init h Hok) as (Hi & Hr & Hl & Hm & Hh).
  set (h1 := if buddy_initialized h then _ else _) in *.
  pose proof (alloc_inv_any _ _ _ _ (reachable_inv _ _ _ Hr) Hs) as H.
  pose proof (reachable_step _ _ _ (OAlloc size) ltac:(simpl; lia) Hr) as Hr'. simpl in Hr'.
  destruct (gpu_buddy_alloc size (hu_buddy h1)) as [[r [a|]] b]; simpl in Hr'.
  - destruct H as (-> & _ & Hl'). unfold hal_mem_ok, allocs at 1. simpl. rewrite Hi, <- Hl.
    assert (Hin : (a, served_order size) ∈ BuddySafe.live b) by (rewrite Hl'; left).
    assert (Hblk : in_heap a (sz (served_order size))).
    { apply (block_in_heap (h1 <| hu_buddy := b |>) (a, served_order size)).
      - unfold hal_mem_ok. simpl. by rewrite Hi.
      - unfold allocs. simpl. by rewrite Hi. }
    split; [done|]. split; [done|]. split; [done|]. split; [|done]. intros H63.
    pose proof (live_order _ _ _ _ Hr' Hin) as Ho. simpl in Ho.
    pose proof (served_order_covers size ltac:(lia) ltac:(lia)). unfold in_heap in *. lia.
  - destruct H as (-> & _ & Hl'). unfold hal_mem_ok, allocs at 1. simpl. by rewrite Hi, Hl', Hl.
Qed.

Lemma mem_free_ok h a :
  hal_mem_ok h -> hal_mem_ok (user_mem_free a h).2 /\ ram (user_mem_free a h).2 = ram h /\
  heap (user_mem_free a h).2 = heap h.
Proof.
  unfold hal_mem_ok, user_mem_free. intros Hok.
  pose proof (fun Hr => reachable_step HAL_HEAP_BASE 16 (hu_buddy h) (OFree a) I Hr) as Hst.
  simpl in Hst. destruct (buddy_initialized h) eqn:E.
  - specialize (Hst Hok). destruct (gpu_buddy_free a (hu_buddy h)) as [r b]. simpl in *. by rewrite E.
  - rewrite Hok. assert (Hz : gpu_buddy_free a zero_buddy = (-1, zero_buddy)).
    { unfold gpu_buddy_free, find_record, zero_buddy. simpl. by rewrite find_in_init. }
    rewrite Hz. simpl. by rewrite E.
Qed.

(** Sequences of device-memory calls. *)
Inductive hal_mem_op := MAlloc (size : Z) | MFree (addr : Z) | MWrite (addr : Z) (bs : list Z)
  | MLoad (image_ptr image_size : Z).
Definition mop_ok (op : hal_mem_op) : Prop :=
  match op with MAlloc size => is_u64 size | MLoad _ size => 0 <= size | _ => True end.
Definition hal_mem_run (h : hal_user_context) (op : hal_mem_op) : hal_user_context :=
  match op with
  | MAlloc size => (user_mem_alloc size h).2
  | MFree addr => (user_mem_free addr h).2
  | MWrite addr bs => (user_mem_write addr bs h).2
  | MLoad p n => (user_kernel_module_load p n h).2
  end.

Lemma alloc_zero h : hal_mem_ok h ->
  exists h', user_mem_alloc 0 h = (-1, None, h') /\ hal_mem_ok h'.
Proof.
  intros Hok. unfold user_mem_alloc. destruct (ready_init h Hok) as (Hi & Hr & _).
  set (h1 := if buddy_initialized h then _ else _) in *. simpl. eexists. split; [done|].
  unfold hal_mem_ok. simpl. by rewrite Hi.
Qed.

Lemma alloc_zero_live h : hal_mem_ok h ->
  let '(r, o, h') := user_mem_alloc 0 h in
  r = -1 /\ o = None /\ hal_mem_ok h' /\ allocs h' = allocs h.
Proof.
  intros Hok. unfold user_mem_alloc. destruct (ready_init h Hok) as (Hi & Hr & Hl & _).
  set (h1 := if buddy_initialized h then _ else _) in *. simpl.
  unfold hal_mem_ok, allocs at 1. simpl. by rewrite Hi, Hl.
Qed.

(** Releasing an allocated address takes its block off the allocated ones. *)
Lemma mem_free_live h a :
  hal_mem_ok h -> a ∈ (allocs h).*1 ->
  exists o, allocs h ≡ₚ (a, o) :: allocs (user_mem_free a h).2 /\
    (user_mem_free a h).1 = 0 /\ hal_mem_ok (user_mem_free a h).2.
Proof.
  intros Hok. pose proof (mem_free_ok h a Hok) as (Hok' & _). revert Hok Hok'.
  unfold user_mem_free, hal_mem_ok, allocs.
  destruct (buddy_initialized h) eqn:E; [|by intros _ _ ?%not_elem_of_nil].
  intros Hr Hok' Ha. pose proof (free_inv _ _ a _ (reachable_inv _ _ _ Hr)) as H.
  destruct (find_record a (hu_buddy h)) as [r|]; [|by destruct H].
  destruct H as (b' & Hf & _ & Hl). rewrite Hf in *. simpl in *. rewrite E in *. by exists (r_order r).
Qed.

Lemma load_spec h p n :
  hal_mem_ok h -> 0 <= n ->
  match user_kernel_module_load p n h with
  | (r, Some a, h') => r = 0 /\ 0 < n <= MAX_KERNEL_IMAGE_SIZE /\ p <> 0 /\ hal_mem_ok h' /\
      allocs h' ≡ₚ (a, order_of n) :: allocs h /\
      user_mem_read a n h' = (0, peek p n (ram h)) /\ heap h' = heap h
  | (r, None, h') => r < 0 /\ hal_mem_ok h' /\ allocs h' = allocs h /\ ram h' = ram h
  end.
Proof.
  intros Hok Hn. unfold user_kernel_module_load.
  destruct (Z.eqb_spec n 0) as [->|Hn0]; [done|]. simpl.
  destruct (Z.ltb_spec MAX_KERNEL_IMAGE_SIZE n) as [|Hmax]; [done|].
  destruct (Z.eqb_spec p 0) as [|Hp]; [done|].
  assert (Hs : 0 < n <= sz 21).
  { unfold MAX_KERNEL_IMAGE_SIZE in Hmax. change (sz 21) with 8589934592. lia. }
  assert (H63 : n <= 2 ^ 63) by (change (sz 21) with (2 ^ 33) in Hs; lia).
  pose proof (mem_alloc_spec h n Hok ltac:(lia)) as H. rewrite (served_order_small n H63) in H.
  destruct (user_mem_alloc n h) as [[r [a|]] h1].
  - destruct H as (-> & Hok1 & Hl & Hin & Hram & Hheap). destruct (Hin H63) as [_ Hin']. clear Hin. rename Hin' into Hin. simpl. unfold user_mem_write_from.
    destruct (mem_guard_in_heap a n Hin) as [-> Ho]. destruct (Z.eqb_spec p 0); [done|]. simpl.
    split; [done|]. split; [lia|]. split; [done|]. split; [done|]. split; [done|].
    rewrite read_in_heap by done. unfold heap_addr. rewrite Ho, Hram. simpl.
    rewrite <- (peek_length p n (ram h)) at 1 by lia. by rewrite peek_poke.
  - by destruct H as (-> & ? & ? & ? & ?).
Qed.

Lemma hal_mem_step h op : mop_ok op -> hal_mem_ok h -> hal_mem_ok (hal_mem_run h op).
Proof.
  intros Hop Hok. destruct op as [size|addr|addr bs|p n]; simpl in *.
  - destruct (Z.eq_dec size 0) as [->|]; [by destruct (alloc_zero h Hok) as (h' & -> & ?)|].
    pose proof (mem_alloc_spec h size Hok ltac:(lia)) as H.
    destruct (user_mem_alloc size h) as [[r [a|]] h1]; apply H.
  - by apply mem_free_ok.
  - unfold user_mem_write. by destruct (mem_guard _ _).
  - pose proof (load_spec h p n Hok Hop) as H.
    destruct (user_kernel_module_load p n h) as [[r [a|]] h1]; apply H.
Qed.

(** The states of the HAL reached by such calls. *)
Definition hal_reachable (h : hal_user_context) : Prop :=
  exists memory heap_ptr mgr ops, Forall mop_ok ops /\
    h = fold_left hal_mem_run ops (hal_user_init memory heap_ptr mgr).

Lemma hal_reachable_ok h : hal_reachable h -> hal_mem_ok h.
Proof.
  intros (memory & hp & mgr & ops & Hops & ->).
  assert (H0 : hal_mem_ok (hal_user_init memory hp mgr)) by done.
  revert H0. generalize (hal_user_init memory hp mgr). induction Hops; intros h Hok; simpl; [done|].
  apply IHHops. by apply hal_mem_step.
Qed.

(** C4. Allocations do not interfere: after any sequence of allocations,
    releases, writes and image loads, a write that stays inside one allocated
    block succeeds, is read back exactly, and changes no byte of any other
    allocated block. *)
Theorem hal_allocations_isolated h x y rest a bs :
  hal_reachable h -> allocs h ≡ₚ x :: y :: rest ->
  x.1 <= a -> a + Z.of_nat (length bs) <= x.1 + sz x.2 ->
  exists h', user_mem_write a bs h = (0, h') /\
    user_mem_read a (Z.of_nat (length bs)) h' = (0, bs) /\
    user_mem_read y.1 (sz y.2) h' = user_mem_read y.1 (sz y.2) h /\ allocs h' = allocs h.
Proof.
  intros Hr Hl H1 H2. pose proof (hal_reachable_ok _ Hr) as Hok.
  pose proof (allocs_disjoint _ _ _ _ Hok Hl) as Hd.
  assert (Hx : in_heap x.1 (sz x.2)) by (apply (block_in_heap h); [done|rewrite Hl; left]).
  assert (Hy : in_heap y.1 (sz y.2)) by (apply (block_in_heap h); [done|rewrite Hl; right; left]).
  assert (Ha : in_heap a (Z.of_nat (length bs))) by (unfold in_heap in *; lia).
  rewrite write_in_heap by done. eexists. split; [done|]. split; [|split; [|done]].
  - rewrite read_in_heap by done. simpl. by rewrite peek_poke.
  - rewrite !read_in_heap by done. simpl. unfold disj in Hd.
    rewrite peek_poke_disjoint by lia. done.
Qed.

(** Loading a kernel image: on success a fresh block that covers the image
    is allocated and holds exactly the bytes at the image pointer; on any
    failure the code is negative and neither memory nor the set of allocated
    blocks has changed (in particular the roll-back path is never needed). *)
Theorem kernel_module_load_spec h p n :
  hal_reachable h -> 0 <= n ->
  match user_kernel_module_load p n h with
  | (r, Some a, h') => r = 0 /\ 0 < n <= MAX_KERNEL_IMAGE_SIZE /\ p <> 0 /\
      allocs h' ≡ₚ (a, order_of n) :: allocs h /\ n <= sz (order_of n) /\
      user_mem_read a n h' = (0, peek p n (ram h))
  | (r, None, h') => r < 0 /\ allocs h' = allocs h /\ ram h' = ram h
  end.
Proof.
  intros Hr Hn. pose proof (load_spec h p n (hal_reachable_ok _ Hr) Hn) as H.
  destruct (user_kernel_module_load p n h) as [[r [a|]] h1].
  - destruct H as (? & Hb & ? & _ & ? & ? & _). split; [done|]. split; [done|]. split; [done|].
    split; [done|]. split; [|done]. apply order_of_covers.
    unfold MAX_KERNEL_IMAGE_SIZE in Hb. change (sz 21) with 8589934592. lia.
  - by destruct H as (? & _ & ? & ?).
Qed.

(** Which accesses the bounds check lets through: those inside device
    memory, and, because the check adds a wrapped offset and the size in 64
    bits, also those that begin below device memory and end in it, and those
    of a size near 2^64. *)
Theorem mem_guard_exact a n :
  is_u64 a -> is_u64 n ->
  mem_guard a n = false <->
    in_heap a n \/
    (a < HAL_HEAP_BASE /\ HAL_HEAP_BASE <= a + n <= HAL_HEAP_BASE + HAL_HEAP_SIZE) \/
    (HAL_HEAP_BASE <= a /\ 2 ^ 64 <= a - HAL_HEAP_BASE + n <= 2 ^ 64 + HAL_HEAP_SIZE).
Proof.
  intros Ha Hn. unfold mem_guard, heap_off, in_heap, HAL_HEAP_BASE, HAL_HEAP_SIZE.
  rewrite Z.ltb_ge. unfold u64. Z.div_mod_to_equations. lia.
Qed.

(** The register file has one 64-bit register per 8 bytes of offset: a write
    is seen at every offset of its 8-byte group, so the GPFIFO PUT and GET
    registers of gpu_regs.h (offsets 0 and 4) are one register, and the MMU
    registers (0x1000 on) do not exist. *)
Theorem reg_write_read o o' v h :
  0 <= o -> 0 <= o' -> Z.of_nat (length (regs h)) = HAL_REGS_COUNT ->
  user_reg_read o' (user_reg_write o v h).2 =
    if HAL_REGS_COUNT * 8 <=? o' then (- EINVAL, 0)
    else if (o <? HAL_REGS_COUNT * 8) && (o / 8 =? o' / 8) then (0, v)
    else user_reg_read o' h.
Proof.
  intros Ho Ho' Hl. unfold user_reg_read, user_reg_write, HAL_REGS_COUNT in *.
  destruct (Z.leb_spec (256 * 8) o'); [done|].
  destruct (Z.leb_spec (256 * 8) o); destruct (Z.ltb_spec o (256 * 8)); try lia; simpl.
  - destruct (Z.leb_spec (256 * 8) o'); [lia|done].
  - destruct (Z.leb_spec (256 * 8) o'); [lia|]. f_equal.
    pose proof (Z.div_pos o 8). pose proof (Z.div_pos o' 8).
    destruct (Z.eqb_spec (o / 8) (o' / 8)) as [->|Hne].
    + rewrite list_lookup_insert_eq; [done|]. apply Nat2Z.inj_lt. rewrite Hl.
      Z.div_mod_to_equations. lia.
    + rewrite list_lookup_insert_ne; [done|]. lia.
Qed.

(** The legacy fence path: the first 128 creations return the ids 0 to 127,
    every later one fails, and a fence reads as signalled from the moment it is
    created. *)
Lemma first_unsignaled_prefix n l :
  first_unsignaled (replicate n true ++ l) = (Nat.add n) <$> first_unsignaled l.
Proof. induction n as [|n IH]; simpl; [by destruct (first_unsignaled l)|]. rewrite IH. by destruct (first_unsignaled l). Qed.

Lemma legacy_fences_born_signaled n h :
  hu_sem_mgr h = None -> (n <= 128)%nat ->
  fence_signaled h = replicate n true ++ replicate (128 - n) false ->
  match user_fence_create h with
  | (r, Some f, h') => r = 0 /\ f = Z.of_nat n /\ (n < 128)%nat /\
      fence_signaled h' = replicate (S n) true ++ replicate (128 - S n) false /\
      user_fence_read f h' = (0, Some 1)
  | (r, None, h') => r = - ENOMEM /\ n = 128%nat /\ h' = h
  end.
Proof.
  intros Hm Hn Hf. unfold user_fence_create. rewrite Hm, Hf, first_unsignaled_prefix.
  destruct (decide (n = 128%nat)) as [->|Hne]; [done|].
  replace (128 - n)%nat with (S (127 - n)) in * by lia. simpl in *. rewrite Nat.add_0_r.
  assert (Hins : <[n:=true]> (replicate n true ++ false :: replicate (127 - n) false) =
                 true :: replicate n true ++ replicate (127 - n) false).
  { rewrite insert_app_r_alt by (rewrite length_replicate; lia). rewrite length_replicate, Nat.sub_diag.
    simpl. generalize (replicate (127 - n) false). clear. intros l. induction n as [|k IHk]; simpl; [done|]. by rewrite IHk. }
  split; [done|]. split; [done|]. split; [lia|]. rewrite Hf. simpl.
  split; [exact Hins|]. unfold user_fence_read. simpl. rewrite Hm, Hf. simpl.
  unfold HAL_MAX_FENCES. destruct (Z.leb_spec 128 (Z.of_nat n)); [lia|].
  rewrite Nat2Z.id, list_lookup_insert_eq; [done|].
  rewrite length_app, length_cons, !length_replicate. lia.
Qed.

(** ** Witnesses *)
Definition demo_hal : hal_user_context :=
  fold_left hal_mem_run [MAlloc 5000; MAlloc 4096; MWrite (4563390464) [1; 2; 3]]
    (hal_user_init (fun _ => 0) 1048576 None).
Lemma demo_hal_reachable : hal_reachable demo_hal.
Proof.
  exists (fun _ => 0), 1048576, None. eexists. split; [|reflexivity].
  repeat constructor; simpl; by vm_compute.
Defined.

Lemma hal_allocations_isolated_witness :
  exists h', user_mem_write (4563390464) [7; 8] demo_hal = (0, h') /\
    user_mem_read (4563390464) 2 h' = (0, [7; 8]).
Proof.
  destruct (hal_allocations_isolated demo_hal (4563390464, 0) (4563394560, 1) []
    (4563390464) [7; 8] demo_hal_reachable) as (h' & H1 & H2 & _).
  - vm_compute. apply Permutation_swap.
  - by vm_compute.
  - by vm_compute.
  - by exists h'.
Defined.

Lemma kernel_module_load_spec_witness :
  match user_kernel_module_load 64 3 demo_hal with
  | (r, Some a, h') => r = 0 /\ user_mem_read a 3 h' = (0, [0; 0; 0])
  | _ => False
  end.
Proof.
  pose proof (kernel_module_load_spec demo_hal 64 3 demo_hal_reachable ltac:(lia)) as H.
  assert (E1 : is_Some (user_kernel_module_load 64 3 demo_hal).1.2) by (vm_compute; by eexists).
  destruct (user_kernel_module_load 64 3 demo_hal) as [[r [a|]] h'] eqn:E.
  - destruct H as (H1 & _ & _ & _ & _ & H2). split; [exact H1|]. rewrite H2. reflexivity.
  - by destruct E1.
Defined.

Lemma mem_guard_exact_witness : mem_guard (HAL_HEAP_BASE - 8) 16 = false.
Proof.
  apply (mem_guard_exact (HAL_HEAP_BASE - 8) 16); [by vm_compute|by vm_compute|].
  right. left. split; vm_compute; [done|]. split; discriminate.
Defined.

Lemma reg_write_read_witness :
  user_reg_read 0 (user_reg_write 4 7 (hal_user_init (fun _ => 0) 1048576 None)).2 = (0, 7).
Proof. exact (reg_write_read 4 0 7 (hal_user_init (fun _ => 0) 1048576 None) ltac:(lia) ltac:(lia) eq_refl). Defined.
