(* ===== verification/Puller.v ===== *)
(** * The hardware puller

    [plugins/gpu_driver/sim/hardware/hardware_puller_emu.{h,cpp}]: the state
    machine that fetches GPFIFO entries and drives them through decode,
    schedule, dispatch and completion.  One iteration of [runLoop] is one step.
    The objects the puller holds pointers to (HAL, doorbell, scheduler, channel
    manager, queues, fence table, semaphore managers) are components of the
    state [Sim]; a null pointer is [None]. *)
From S2P Require Import Prelude GpuTypes MqdState ChannelManager ChannelSema Translator Semaphore FenceId Scheduler Ring SimHw Hal.

Inductive State :=
| IDLE | CHANNEL_SWITCH | FETCH | DECODE | SCHEDULE | DISPATCH | SEMAPHORE | COMPLETE.
#[export] Instance State_eq_dec : EqDecision State.
Proof. solve_decision. Defined.

Record IbJumpFrame := mk_frame {
  saved_gpfifo_addr : Z;
  saved_index : Z;
  saved_total : Z;
  saved_fence_id : Z
}.

(** The members of [HardwarePullerEmu]. *)
Record Puller := mk_Puller {
  state : State;
  current_gpfifo_addr : Z;
  current_index : Z;
  total_entries : Z;
  pending_fence_id : Z;
  active_queues : list Z;            (* queue ids, ascending: keys of a std::map *)
  current_queue_id : Z;
  current_entry : gpu_gpfifo_entry;
  interrupt_count : Z;
  doorbell_pending : bool;
  waiting_semaphore_va : Z;
  waiting_semaphore_value : Z;
  semaphore_signaled : bool;
  current_channel_id : Z;
  preempt_pending : bool;
  preempt_target_channel_id : Z;
  sema_state_backup : ChannelSemaphoreState;
  sema_state : ChannelSemaphoreState;
  jump_stack : list IbJumpFrame;     (* MAX_IB_NEST frames *)
  jump_depth : Z;
  is_in_jump : bool;
  jump_target_addr : Z;
  jump_target_size : Z;
  jump_continue : bool;
  predicate : PredicateState;
  pdl_nest_counter : Z;
  last_pdl_error : Z;
  sim_puller_handle : Z
}.
#[export] Instance eta_Puller : Eta Puller := fun p =>
  mk_Puller (state p) (current_gpfifo_addr p) (current_index p) (total_entries p)
    (pending_fence_id p) (active_queues p) (current_queue_id p) (current_entry p)
    (interrupt_count p) (doorbell_pending p) (waiting_semaphore_va p)
    (waiting_semaphore_value p) (semaphore_signaled p) (current_channel_id p)
    (preempt_pending p) (preempt_target_channel_id p) (sema_state_backup p) (sema_state p)
    (jump_stack p) (jump_depth p) (is_in_jump p) (jump_target_addr p) (jump_target_size p)
    (jump_continue p) (predicate p) (pdl_nest_counter p) (last_pdl_error p)
    (sim_puller_handle p).

Definition init_puller : Puller :=
  mk_Puller IDLE 0 0 0 0 [] 0 zero_entry 0 false 0 0 false 0 false 0 init_sema init_sema
    (replicate 4 (mk_frame 0 0 0 0)) 0 false 0 0 false init_predicate 0 0 0.

(** The simulation the puller runs in. *)
Record Sim (H : Type) := mk_Sim {
  pl : Puller;
  hal : H;
  doorbell : DoorbellEmu;
  queues : gmap Z GpuQueueEmu;
  scheduler : option GlobalScheduler;
  channel_mgr : option ChannelManager;
  mqds : mqd_heap;
  sem_mgr : option SemaphoreManager;
  fences : fence_state;
  tsq : query_table;
  g_sim_tick : Z;
  launches : list tr_event;          (* launch callbacks made so far *)
  sem_calls : list (Z * Z)           (* waiter callbacks made so far *)
}.
Arguments mk_Sim {H}. Arguments pl {H}. Arguments hal {H}. Arguments doorbell {H}.
Arguments queues {H}. Arguments scheduler {H}. Arguments channel_mgr {H}.
Arguments mqds {H}. Arguments sem_mgr {H}. Arguments fences {H}. Arguments tsq {H}.
Arguments g_sim_tick {H}. Arguments launches {H}. Arguments sem_calls {H}.
#[export] Instance eta_Sim H : Eta (Sim H) := fun s =>
  mk_Sim (pl s) (hal s) (doorbell s) (queues s) (scheduler s) (channel_mgr s) (mqds s)
    (sem_mgr s) (fences s) (tsq s) (g_sim_tick s) (launches s) (sem_calls s).

(** ** Operations on the puller alone *)
Definition transitionTo (next : State) (p : Puller) : Puller := p <| state := next |>.

Definition onDoorbell (p : Puller) : Puller := p <| doorbell_pending := true |>.

Definition triggerPreempt (target : Z) (p : Puller) : Puller :=
  p <| preempt_target_channel_id := target |> <| preempt_pending := true |>.

Definition signalSemaphore (addr value : Z) (p : Puller) : Puller :=
  if (addr =? waiting_semaphore_va p) && (waiting_semaphore_value p <=? value)
  then p <| semaphore_signaled := true |> else p.

Definition setSimPuller (h : Z) (p : Puller) : Z * Puller := (0, p <| sim_puller_handle := h |>).

Definition applyPredicateOp (op operand : Z) (p : Puller) : Puller :=
  let set v := p <| predicate := mk_Predicate (truthy v) v |> in
  let v := pred_value (predicate p) in
  if op =? 0 then set operand
  else if op =? 1 then set (Z.land v operand)
  else if op =? 2 then set (Z.lor v operand)
  else if op =? 3 then set (Z.lxor v operand)
  else p.

(** Returns whether the skip callback runs. *)
Definition processEntryForTest (e : gpu_gpfifo_entry) (p : Puller) : bool * Puller :=
  if negb (pred_enabled (predicate p)) && negb (method e =? GPU_OP_SET_PREDICATE) then (true, p)
  else if method e =? GPU_OP_SET_PREDICATE then
    (false, applyPredicateOp (Z.land (payload_at e 0) 255) (Z.shiftr (payload_at e 0) 8) p)
  else (false, p).

Definition pdlNestDecrement (p : Puller) : Puller :=
  if 0 <? pdl_nest_counter p then p <| pdl_nest_counter ::= fun n => n - 1 |> else p.

(** [submitBatch] without a channel manager: the batch replaces the current
    one. *)
Definition submit_direct (addr count fence : Z) (p : Puller) : Puller :=
  p <| current_gpfifo_addr := addr |> <| current_index := 0 |>
    <| total_entries := count |> <| waiting_semaphore_va := 0 |>
    <| semaphore_signaled := false |> <| pending_fence_id := fence |>.

Definition completeIbJump (p : Puller) : Z * Puller :=
  if negb (is_in_jump p) || (jump_depth p =? 0) then (- EINVAL, p)
  else
    let p := p <| jump_depth ::= fun d => d - 1 |> in
    let p :=
      if jump_continue p then
        match jump_stack p !! Z.to_nat (jump_depth p) with
        | Some f => p <| current_gpfifo_addr := saved_gpfifo_addr f |>
                      <| current_index := saved_index f |> <| total_entries := saved_total f |>
                      <| pending_fence_id := saved_fence_id f |>
        | None => p
        end
      else p in
    if jump_depth p =? 0 then
      (0, p <| is_in_jump := false |> <| jump_target_addr := 0 |> <| jump_target_size := 0 |>
            <| jump_continue := false |>)
    else
      (0, p <| jump_target_addr := current_gpfifo_addr p |>
            <| jump_target_size := total_entries p |> <| jump_continue := false |>).

Definition savedFetchPc (p : Puller) : Z :=
  if jump_depth p =? 0 then 0
  else match jump_stack p !! Z.to_nat (jump_depth p - 1) with
       | Some f => saved_gpfifo_addr f
       | None => 0
       end.

Section Steps.
Context {H : Type} `{HalOps H}.
Implicit Types s : Sim H.

Definition upd (f : Puller -> Puller) (s : Sim H) : Sim H := s <| pl ::= f |>.
Definition goto (next : State) : Sim H -> Sim H := upd (transitionTo next).

(** ** Queues *)
Definition registerQueue (q : option Z) (s : Sim H) : Sim H :=
  match q with
  | None => s
  | Some id =>
      s <| pl ::= fun p => p <| active_queues ::=
             fun l => merge_sort Z.le (id :: List.filter (fun x => negb (x =? id)) l) |> |>
        <| queues ::= alter setDoorbellCallback id |>
  end.
Definition unregisterQueue (id : Z) : Sim H -> Sim H :=
  upd (fun p => p <| active_queues ::= List.filter (fun x => negb (x =? id)) |>).

(** The first registered queue, in id order, that yields an entry. *)
Fixpoint scan (ids : list Z) (s : Sim H) : option (Z * gpu_gpfifo_entry) * Sim H :=
  match ids with
  | [] => (None, s)
  | id :: ids' =>
      match queues s !! id with
      | Some q =>
          if hasPending q then
            match Ring.dequeue q with
            | (Some e, q') => (Some (id, e), s <| queues ::= <[id := q']> |>)
            | (None, _) => scan ids' s
            end
          else scan ids' s
      | None => scan ids' s
      end
  end.
Definition scanQueues (s : Sim H) : option (Z * gpu_gpfifo_entry) * Sim H :=
  scan (active_queues (pl s)) s.

Definition anyDoorbellPending (s : Sim H) : bool :=
  existsb (fun id => db_poll id (doorbell s)) (active_queues (pl s)).

(** ** Fetch.  A failed [mem_read] leaves the uninitialised local buffer:
    [garbage]. *)
Definition entry_address (p : Puller) : Z :=
  u64 (current_gpfifo_addr p + current_index p * sizeof_entry).
Definition fetchEntry (garbage : gpu_gpfifo_entry) (s : Sim H) : option gpu_gpfifo_entry :=
  if total_entries (pl s) <=? current_index (pl s) then None
  else match mem_read (entry_address (pl s)) sizeof_entry (hal s) with
       | (r, bs) => Some (if r =? 0 then entry_of_bytes bs else garbage)
       end.

(** ** Submission *)
Definition submitBatch (addr count fence : Z) (s : Sim H) : Sim H :=
  match channel_mgr s with
  | Some m =>
      s <| channel_mgr := Some (ChannelManager.submitBatch (current_channel_id (pl s))
                                  addr count fence m) |>
        <| pl ::= fun p => p <| doorbell_pending := true |> |>
  | None => upd (submit_direct addr count fence) s
  end.

(** ** Semaphores and barriers *)
Definition sim_pdl_launch (kernel kernargs grid block sig_handle sig_value : Z) (s : Sim H) :
    Z * Sim H :=
  if MAX_PDL_NEST <=? pdl_nest_counter (pl s) then (- E2BIG, s)
  else if kernel =? 0 then (- EFAULT, s)
  else
    let e := current_entry (pl s) in
    let child := e <| method := GPU_OP_LAUNCH_KERNEL |> <| valid := 1 |>
      <| payload ::= fun pl => <[0%nat := kernel]> (<[1%nat := kernargs]>
           (<[2%nat := Z.lor (Z.shiftl grid 32) block]> pl)) |> in
    let sig := e <| method := GPU_OP_SEM_RELEASE |> <| semaphore_va := sig_handle |>
                 <| semaphore_value := u32 sig_value |> in
    let s := match scheduler s with
             | None => s
             | Some sch =>
                 let '(ev1, sch) := enqueue_with_priority child COMPUTE GPU_CHAN_PRI_LOW
                                      (current_channel_id (pl s)) sch in
                 let '(ev2, sch) := enqueue_with_priority sig FIRMWARE GPU_CHAN_PRI_LOW
                                      (current_channel_id (pl s)) sch in
                 s <| scheduler := Some sch |> <| launches ::= fun l => l ++ ev1 ++ ev2 |>
             end in
    (0, upd (fun p => p <| pdl_nest_counter ::= fun n => n + 1 |>) s).

Definition processSemOp (s : Sim H) : bool * Sim H :=
  let e := current_entry (pl s) in
  if method e =? GPU_OP_SEM_WAIT then
    let '(b, ss) := process_sem_wait e (fun a => read_u32 a (hal s)) (sema_state (pl s)) in
    (b, upd (fun p => p <| sema_state := ss |>) s)
  else if method e =? GPU_OP_SEM_RELEASE then (true, s)
  else if method e =? GPU_OP_BARRIER_AND then
    (false, upd (fun p => p <| sema_state ::=
              register_barrier_and (semaphore_va e) (s32 (semaphore_value e)) e |>) s)
  else if method e =? GPU_OP_BARRIER_OR then
    (false, upd (fun p => p <| sema_state ::= register_barrier_or (semaphore_va e) e |>) s)
  else if method e =? GPU_OP_PDL_LAUNCH then
    if pdl_nest_counter (pl s) =? 0 then (true, upd (fun p => p <| last_pdl_error := - EACCES |>) s)
    else
      let '(rc, s) := sim_pdl_launch (payload_at e 0) (payload_at e 1)
        (u32 (Z.shiftr (payload_at e 2) 32)) (u32 (payload_at e 2))
        (semaphore_va e) (semaphore_value e) s in
      (true, if negb (rc =? 0) then upd (fun p => p <| last_pdl_error := rc |>) s else s)
  else (true, s).

Definition processSemRelease (s : Sim H) : Sim H :=
  let e := current_entry (pl s) in
  if (method e =? GPU_OP_SEM_RELEASE) || truthy (release e) then
    let '(a, v) := process_sem_release e in s <| hal ::= write_u32 a v |>
  else s.

Definition recheckPendingSema (s : Sim H) : Sim H :=
  let '(_, ss) := check_pending (fun a => read_u32 a (hal s)) (sema_state (pl s)) in
  upd (fun p => p <| sema_state := ss |>) s.

Definition releaseSemaphore (s : Sim H) : Sim H :=
  let e := current_entry (pl s) in
  upd (signalSemaphore (semaphore_va e) (semaphore_value e))
    (s <| hal ::= write_u32 (semaphore_va e) (semaphore_value e) |>).

(** [Some true] when the wait is over; [None] while [cv_.wait] blocks. *)
Definition waitSemaphore (s : Sim H) : option bool * Sim H :=
  let e := current_entry (pl s) in
  let s := upd (fun p => p <| waiting_semaphore_va := semaphore_va e |>
                  <| waiting_semaphore_value := semaphore_value e |>
                  <| semaphore_signaled := false |>) s in
  if semaphore_value e <=? read_u32 (semaphore_va e) (hal s)
  then (Some true, upd (fun p => p <| semaphore_signaled := true |>
                          <| waiting_semaphore_va := 0 |>) s)
  else (None, s).

Definition handleComplete (s : Sim H) : Sim H :=
  let e := current_entry (pl s) in
  let s := if truthy (release e) then
             s <| hal ::= interrupt_raise 0 |>
               <| pl ::= fun p => p <| interrupt_count ::= fun n => n + 1 |> |>
           else s in
  let last := total_entries (pl s) <=? u64 (current_index (pl s) + 1) in
  let f := pending_fence_id (pl s) in
  let s := if truthy f && last && negb (is_fence_frozen f (sema_state (pl s))) then
             s <| fences ::= fun fs => (sim_fence_id_signal f fs).2 |>
               <| pl ::= fun p => p <| pending_fence_id := 0 |> |>
           else s in
  match sem_mgr s with
  | Some m =>
      if truthy (tl_sem_handle e) && truthy (tl_signal_value e) && last then
        let '(_, calls, m) := signal (tl_sem_handle e) (tl_signal_value e) m in
        s <| sem_mgr := Some m |> <| sem_calls ::= fun l => l ++ calls |>
      else s
  | None => s
  end.

(** ** Indirect buffers *)
Definition processIbJump (e : gpu_gpfifo_entry) (s : Sim H) : Z * Sim H :=
  let target := payload_at e 0 in
  if negb ((mem_read target 4 (hal s)).1 =? 0) then (- EFAULT, s)
  else if MAX_IB_NEST <=? jump_depth (pl s) then (- E2BIG, s)
  else
    (0, upd (fun p =>
       let frame := mk_frame (current_gpfifo_addr p) (current_index p) (total_entries p)
                      (pending_fence_id p) in
       p <| jump_stack ::= <[Z.to_nat (jump_depth p) := frame]> |>
         <| jump_depth ::= fun d => d + 1 |> <| is_in_jump := true |>
         <| jump_target_addr := target |> <| jump_target_size := payload_at e 2 |>
         <| jump_continue := truthy (payload_at e 1) |>
         <| current_gpfifo_addr := target |> <| current_index := 0 |>
         <| total_entries := payload_at e 2 |>) s).

(** ** The main loop *)
Definition load_batch (c : ChannelState) (p : Puller) : Puller :=
  p <| current_gpfifo_addr := gpfifo_addr c |> <| current_index := 0 |>
    <| total_entries := ChannelManager.total_entries c |>
    <| pending_fence_id := ChannelManager.pending_fence_id c |>.

(** The channel the manager hands out becomes the current batch; a preempted
    one is resumed from its MQD. *)
Definition switch_to (ch : Z) (s : Sim H) : Sim H :=
  match channel_mgr s with
  | None => s
  | Some m =>
      let c := chan m ch in
      let s := upd (fun p => p <| current_channel_id := ch |>) s in
      let ptr := getMqdForChannel ch m in
      match load_mqd (mqds s) ptr with
      | Some d =>
          if mqd_state d =? MQD_STATE_PREEMPTED then
            let d := default d (mqd_state_resume (Some d)).2 in
            let '(ss, saved) := restore (sema_state (pl s)) (sema_state_backup (pl s)) in
            s <| mqds ::= fun mem => store_mqd mem ptr (Some d) |>
              <| pl ::= fun p => p <| current_gpfifo_addr := mqd_gpfifo_addr d |>
                   <| current_index := mqd_current_index d |>
                   <| total_entries := MqdState.entry_count d |>
                   <| pending_fence_id := ChannelManager.pending_fence_id c |>
                   <| sema_state := rebind_pending_fences ss |>
                   <| sema_state_backup := saved |> |>
          else upd (load_batch c) s
      | None => upd (load_batch c) s
      end
  end.

Definition next_ready (s : Sim H) : option Z * Sim H :=
  match channel_mgr s with
  | None => (None, s)
  | Some m =>
      let '(r, mem, m) := nextReadyChannel (mqds s) m in
      (r, s <| channel_mgr := Some m |> <| mqds := mem |>)
  end.

Definition step_channel_switch (s : Sim H) : Sim H :=
  match next_ready s with
  | (Some ch, s) => goto FETCH (switch_to ch s)
  | (None, s) =>
      match scanQueues s with
      | (Some (qid, e), s) =>
          goto DECODE (upd (fun p => p <| current_queue_id := qid |> <| current_entry := e |>) s)
      | (None, s) =>
          let was := doorbell_pending (pl s) in
          let s := upd (fun p => p <| doorbell_pending := false |>) s in
          if was || db_poll 0 (doorbell s)
          then goto FETCH (s <| doorbell ::= db_acknowledge 0 |>)
          else goto IDLE s
      end
  end.

Definition step_fetch (garbage : gpu_gpfifo_entry) (s : Sim H) : Sim H :=
  match fetchEntry garbage s with
  | None => goto IDLE s
  | Some e => goto DECODE (upd (fun p => p <| current_entry := e |>) s)
  end.

Definition yield_current (s : Sim H) : Sim H :=
  match channel_mgr s with
  | Some m => s <| channel_mgr := Some (yieldChannel (current_channel_id (pl s)) m) |>
  | None => s
  end.
Definition advance : Sim H -> Sim H := upd (fun p => p <| current_index ::= fun i => u64 (i + 1) |>).
Definition batch_done (s : Sim H) : bool := total_entries (pl s) <=? current_index (pl s).

Definition is_sem_op (e : gpu_gpfifo_entry) : bool :=
  (method e =? GPU_OP_SEM_WAIT) || (method e =? GPU_OP_BARRIER_AND) ||
  (method e =? GPU_OP_BARRIER_OR).

Definition step_decode (s : Sim H) : Sim H :=
  let e := current_entry (pl s) in
  if is_sem_op e then
    match processSemOp s with
    | (false, s) =>
        let s := advance s in
        if batch_done s then goto CHANNEL_SWITCH (yield_current s) else goto FETCH s
    | (true, s) => goto SCHEDULE s
    end
  else goto (if truthy (release e) then SEMAPHORE else SCHEDULE) s.

(** The MEMCPY branch of DISPATCH: through the HAL, in the direction given by
    the source address; a failure cancels the completion fence. *)
Definition dispatch_memcpy (src dst size : Z) (s : Sim H) : Sim H :=
  let '(ret, h) :=
    if (0 <? size) && (size <=? HAL_HEAP_SIZE) then
      if (HAL_HEAP_BASE <=? src) && (src <? HAL_HEAP_BASE + HAL_HEAP_SIZE)
      then copy_out src dst size (hal s)
      else copy_in dst src size (hal s)
    else (-1, hal s) in
  let s := s <| hal := h |> in
  if negb (ret =? 0) then upd (fun p => p <| pending_fence_id := 0 |>) s else s.

Definition translateLaunch (e : gpu_gpfifo_entry) (s : Sim H) : Sim H :=
  match scheduler s with
  | None => s
  | Some sch =>
      let '(_, evs, t) := translate e (translator sch) in
      s <| scheduler := Some (sch <| translator := t |>) |> <| launches ::= fun l => l ++ evs |>
  end.
Definition schedule_entry (e : gpu_gpfifo_entry) (s : Sim H) : Sim H :=
  match scheduler s with
  | None => s
  | Some sch =>
      let '(evs, sch) := Scheduler.enqueue e (selectEngine e) sch in
      s <| scheduler := Some sch |> <| launches ::= fun l => l ++ evs |>
  end.

Definition step_dispatch (s : Sim H) : Sim H :=
  let e := current_entry (pl s) in
  let tick := u64 (g_sim_tick s + 1) in
  let s := s <| g_sim_tick := tick |> in
  let s := if truthy (ts_query e)
           then s <| tsq ::= sim_timestamp_query_record (ts_query e) (current_index (pl s)) tick |>
           else s in
  if method e =? GPU_OP_MEMCPY
  then goto COMPLETE (dispatch_memcpy (payload_at e 0) (payload_at e 1) (payload_at e 2) s)
  else if (method e =? GPU_OP_LAUNCH_KERNEL) && bool_decide (is_Some (scheduler s))
  then goto COMPLETE (translateLaunch e s)
  else goto COMPLETE (schedule_entry e s).

(** The result is [None] while the thread blocks in [waitSemaphore]. *)
Definition step_semaphore (s : Sim H) : option (Sim H) :=
  if truthy (release (current_entry (pl s))) then Some (goto COMPLETE (releaseSemaphore s))
  else match waitSemaphore s with
       | (Some true, s) => Some (goto DISPATCH s)
       | (Some false, s) => Some (goto IDLE s)
       | (None, _) => None
       end.

(** The preemption checkpoint at a batch boundary. *)
Definition preempt_switch (s : Sim H) : Sim H :=
  let s := upd (fun p => p <| preempt_pending := false |>) s in
  let s :=
    match channel_mgr s with
    | None => s
    | Some m =>
        let ptr := getMqdForChannel (current_channel_id (pl s)) m in
        let s := match load_mqd (mqds s) ptr with
                 | Some d => s <| mqds ::= fun mem => store_mqd mem ptr (mqd_state_preempt (Some d)).2 |>
                 | None => s
                 end in
        upd (fun p => p <| sema_state_backup := backup (sema_state p) |>
                        <| sema_state ::= freeze_pending_fences |>) s
    end in
  let s := upd (fun p => p <| current_channel_id := preempt_target_channel_id p |>) s in
  let s := match next_ready s with
           | (Some ch, s) =>
               match channel_mgr s with
               | Some m => upd (load_batch (chan m ch)) s
               | None => s
               end
           | (None, s) => s
           end in
  goto FETCH (upd (fun p => p <| sema_state ::= clear |>) s).

Definition step_complete (s : Sim H) : Sim H :=
  let s := advance (handleComplete (processSemRelease s)) in
  if batch_done s then
    let s := yield_current s in
    if preempt_pending (pl s) && negb (is_in_jump (pl s)) then preempt_switch s
    else goto CHANNEL_SWITCH s
  else goto FETCH s.

(** One iteration of [runLoop]; [None] while the thread waits. *)
Definition runLoop_step (garbage : gpu_gpfifo_entry) (s : Sim H) : option (Sim H) :=
  match state (pl s) with
  | IDLE =>
      if doorbell_pending (pl s) || db_poll 0 (doorbell s) then Some (goto CHANNEL_SWITCH s)
      else None
  | CHANNEL_SWITCH => Some (step_channel_switch s)
  | FETCH => Some (step_fetch garbage s)
  | DECODE => Some (step_decode s)
  | SCHEDULE => Some (goto DISPATCH s)
  | DISPATCH => Some (step_dispatch s)
  | SEMAPHORE => step_semaphore s
  | COMPLETE => Some (step_complete s)
  end.
Fixpoint run_steps (n : nat) (garbage : gpu_gpfifo_entry) (s : Sim H) : option (Sim H) :=
  match n with
  | O => Some s
  | S n' => runLoop_step garbage s ≫= run_steps n' garbage
  end.
End Steps.

(** ** A batch of plain entries *)
Section Batch.
Context {D : Type} {HO : HalOps D} {HL : HalLaws D}.
Implicit Types s : Sim D.

(** An entry that touches no semaphore, barrier, query or memory. *)
Record plain (e : gpu_gpfifo_entry) : Prop := {
  pn_ok : entry_ok e;
  pn_method : method e <> GPU_OP_SEM_WAIT /\ method e <> GPU_OP_BARRIER_AND /\
    method e <> GPU_OP_BARRIER_OR /\ method e <> GPU_OP_MEMCPY /\ method e <> GPU_OP_SEM_RELEASE;
  pn_release : release e = 0;
  pn_query : ts_query e = 0;
  pn_timeline : tl_sem_handle e = 0
}.

(** What dispatching a plain entry does to the scheduler and to the list of
    launch callbacks. *)
Definition dispatch_out (o : option GlobalScheduler * list tr_event) (e : gpu_gpfifo_entry) :
    option GlobalScheduler * list tr_event :=
  match o.1 with
  | None => o
  | Some sch =>
      if method e =? GPU_OP_LAUNCH_KERNEL then
        let '(_, evs, t) := translate e (translator sch) in
        (Some (sch <| translator := t |>), o.2 ++ evs)
      else
        let '(evs, sch) := Scheduler.enqueue e (selectEngine e) sch in (Some sch, o.2 ++ evs)
  end.

(** The entry at the fetch position is [e]. *)
Definition next_entry (s : Sim D) (e : gpu_gpfifo_entry) : Prop :=
  mem_read (entry_address (pl s)) sizeof_entry (hal s) = (0, entry_bytes e).

(** What a plain entry leaves alone, and what it advances. *)
Record after_entry (s s' : Sim D) (e : gpu_gpfifo_entry) (last : bool) : Prop := {
  ae_state : state (pl s') = if last then CHANNEL_SWITCH else FETCH;
  ae_addr : current_gpfifo_addr (pl s') = current_gpfifo_addr (pl s);
  ae_index : current_index (pl s') = current_index (pl s) + 1;
  ae_total : total_entries (pl s') = total_entries (pl s);
  ae_preempt : preempt_pending (pl s') = preempt_pending (pl s);
  ae_sema : sema_state (pl s') = sema_state (pl s);
  ae_hal : hal s' = hal s;
  ae_tick : g_sim_tick s' = u64 (g_sim_tick s + 1);
  ae_out : (scheduler s', launches s') = dispatch_out (scheduler s, launches s) e;
  ae_fence : let f := pending_fence_id (pl s) in
    if last && truthy f && negb (is_fence_frozen f (sema_state (pl s)))
    then fences s' = (sim_fence_id_signal f (fences s)).2 /\ pending_fence_id (pl s') = 0
    else fences s' = fences s /\ pending_fence_id (pl s') = f;
  ae_chan : channel_mgr s' = if last then channel_mgr (yield_current s) else channel_mgr s
}.

Lemma plain_not_sem e : plain e -> is_sem_op e = false.
Proof.
  intros [_ (H1 & H2 & H3 & _) _ _ _]. unfold is_sem_op.
  rewrite !orb_false_iff, !Z.eqb_neq. done.
Qed.

Lemma plain_dispatch s e :
  plain e -> current_entry (pl s) = e ->
  exists sch l, step_dispatch s =
    goto COMPLETE (s <| g_sim_tick := u64 (g_sim_tick s + 1) |> <| scheduler := sch |>
                     <| launches := l |>) /\
    (sch, l) = dispatch_out (scheduler s, launches s) e.
Proof.
  intros [_ (_ & _ & _ & Hm & _) _ Hq _] He. unfold step_dispatch. rewrite He, Hq.
  change (truthy 0) with false. cbn [negb].
  destruct (Z.eqb_spec (method e) GPU_OP_MEMCPY); [done|].
  unfold dispatch_out, translateLaunch, schedule_entry. simpl.
  destruct (scheduler s) as [sch|] eqn:Es; simpl.
  - destruct (method e =? GPU_OP_LAUNCH_KERNEL); simpl.
    + destruct (translate e (translator sch)) as [[b evs] t]. by eexists _, _.
    + destruct (Scheduler.enqueue e (selectEngine e) sch) as [evs sch']. by eexists _, _.
  - exists None, (launches s). rewrite andb_false_r. split; [|done].
    f_equal. destruct s. simpl in *. by subst.
Qed.

Lemma handleComplete_plain u e :
  plain e -> current_entry (pl u) = e ->
  handleComplete u =
    let f := pending_fence_id (pl u) in
    if truthy f && (total_entries (pl u) <=? u64 (current_index (pl u) + 1)) &&
       negb (is_fence_frozen f (sema_state (pl u)))
    then u <| fences ::= fun fs => (sim_fence_id_signal f fs).2 |>
           <| pl ::= fun p => p <| pending_fence_id := 0 |> |>
    else u.
Proof.
  intros [_ _ Hrel _ Htl] He. unfold handleComplete. rewrite He, Hrel, Htl.
  change (truthy 0) with false. cbn [andb].
  set (c := truthy (pending_fence_id (pl u)) && _ && _). destruct c.
  - by destruct (sem_mgr _).
  - by destruct (sem_mgr u).
Qed.

Lemma processSemRelease_plain u e :
  plain e -> current_entry (pl u) = e -> processSemRelease u = u.
Proof.
  intros [_ (_ & _ & _ & _ & Hr) Hrel _ _] He. unfold processSemRelease. rewrite He, Hrel.
  destruct (Z.eqb_spec (method e) GPU_OP_SEM_RELEASE); done.
Qed.

Lemma plain_complete s u e :
  plain e -> current_entry (pl u) = e -> 0 <= current_index (pl u) < total_entries (pl u) ->
  total_entries (pl u) < 2 ^ 64 -> preempt_pending (pl u) = false ->
  let last := total_entries (pl u) =? current_index (pl u) + 1 in
  let s' := step_complete u in
  state (pl s') = (if last then CHANNEL_SWITCH else FETCH) /\
  current_gpfifo_addr (pl s') = current_gpfifo_addr (pl u) /\
  current_index (pl s') = current_index (pl u) + 1 /\
  total_entries (pl s') = total_entries (pl u) /\
  preempt_pending (pl s') = false /\ sema_state (pl s') = sema_state (pl u) /\
  hal s' = hal u /\ g_sim_tick s' = g_sim_tick u /\
  scheduler s' = scheduler u /\ launches s' = launches u /\
  (let f := pending_fence_id (pl u) in
   if last && truthy f && negb (is_fence_frozen f (sema_state (pl u)))
   then fences s' = (sim_fence_id_signal f (fences u)).2 /\ pending_fence_id (pl s') = 0
   else fences s' = fences u /\ pending_fence_id (pl s') = f) /\
  channel_mgr s' = (if last then channel_mgr (yield_current u) else channel_mgr u).
Proof.
  intros Hp He Hi Ht Hpre. unfold step_complete.
  rewrite (processSemRelease_plain u e), (handleComplete_plain u e) by done.
  assert (Hl : (total_entries (pl u) <=? u64 (current_index (pl u) + 1)) =
               (total_entries (pl u) =? current_index (pl u) + 1)).
  { rewrite u64_id by lia. destruct (Z.eqb_spec (total_entries (pl u)) (current_index (pl u) + 1));
    [apply Z.leb_le | apply Z.leb_gt]; lia. }
  assert (Hu : u64 (current_index (pl u) + 1) = current_index (pl u) + 1) by (apply u64_id; lia).
  cbv zeta. rewrite Hl. set (last := total_entries (pl u) =? current_index (pl u) + 1) in *.
  set (fz := is_fence_frozen _ _). set (tf := truthy (pending_fence_id (pl u))).
  destruct tf, last, fz; cbn [andb negb];
    unfold batch_done, advance, upd, yield_current; cbn -[u64]; rewrite Hl; cbn -[u64];
    rewrite ?Hpre; cbn -[u64]; rewrite ?Hu; try done;
    destruct (channel_mgr u) as [m|]; cbn -[u64]; rewrite ?Hpre; cbn -[u64]; rewrite ?Hu; done.
Qed.

Lemma plain_entry g s e :
  plain e -> state (pl s) = FETCH -> next_entry s e ->
  0 <= current_index (pl s) < total_entries (pl s) -> total_entries (pl s) < 2 ^ 64 ->
  preempt_pending (pl s) = false ->
  exists s', run_steps 5 g s = Some s' /\
    after_entry s s' e (total_entries (pl s) =? current_index (pl s) + 1) /\
    (forall k, (k < 5)%nat -> exists sk, run_steps k g s = Some sk /\ fences sk = fences s).
Proof.
  intros Hp Hst Hn Hi Ht Hpre.
  set (s1 := goto DECODE (upd (fun p => p <| current_entry := e |>) s)).
  assert (H1 : runLoop_step g s = Some s1).
  { unfold runLoop_step. rewrite Hst. unfold step_fetch, fetchEntry.
    destruct (Z.leb_spec (total_entries (pl s)) (current_index (pl s))); [lia|].
    unfold next_entry in Hn. rewrite Hn. simpl.
    by rewrite entry_decode_encode by apply Hp. }
  set (s2 := goto SCHEDULE s1).
  assert (H2 : runLoop_step g s1 = Some s2).
  { unfold runLoop_step, s1, s2. cbn. unfold step_decode. cbn.
    rewrite plain_not_sem by done. by rewrite (pn_release e Hp). }
  set (s3 := goto DISPATCH s2).
  assert (H3 : runLoop_step g s2 = Some s3) by done.
  destruct (plain_dispatch s3 e Hp eq_refl) as (sch & l & Hd & Hout).
  set (s4 := goto COMPLETE (s3 <| g_sim_tick := u64 (g_sim_tick s3 + 1) |> <| scheduler := sch |>
                     <| launches := l |>)) in *.
  assert (H4 : runLoop_step g s3 = Some s4) by (unfold runLoop_step; cbn; by rewrite Hd).
  assert (H5 : runLoop_step g s4 = Some (step_complete s4)) by done.
  exists (step_complete s4). split; [|split].
  - cbn [run_steps]. rewrite H1. cbn [mbind option_bind]. rewrite H2. cbn [mbind option_bind].
    rewrite H3. cbn [mbind option_bind]. rewrite H4. cbn [mbind option_bind]. by rewrite H5.
  - destruct (plain_complete s s4 e Hp eq_refl Hi Ht Hpre)
      as (Ha & Hb & Hc & Hd' & He & Hf & Hg & Hh & Hi' & Hj & Hk & Hm).
    split; try done.
    + by rewrite He, Hpre.
    + rewrite Hi', Hj. exact Hout.
    + rewrite Hm. change (total_entries (pl s4)) with (total_entries (pl s)).
      change (current_index (pl s4)) with (current_index (pl s)).
      destruct (total_entries (pl s) =? current_index (pl s) + 1); [|done].
      unfold yield_current. change (channel_mgr s4) with (channel_mgr s).
      by destruct (channel_mgr s).
  - intros k Hk. do 5 (destruct k as [|k]; [cbn [run_steps]; rewrite ?H1; cbn [mbind option_bind];
      rewrite ?H2; cbn [mbind option_bind]; rewrite ?H3; cbn [mbind option_bind]; rewrite ?H4;
      cbn [mbind option_bind]; by eexists|]). lia.
Qed.

Lemma run_steps_app m n g s s1 :
  run_steps m g s = Some s1 -> run_steps (m + n) g s = run_steps n g s1.
Proof.
  revert s. induction m as [|m IH]; intros s Hs; simpl in *; [by simplify_eq|].
  destruct (runLoop_step g s) as [s2|]; [|done]. simpl in *. by apply IH.
Qed.

(** The entries [es] lie in device memory from address [a] on. *)
Definition resident (a : Z) (es : list gpu_gpfifo_entry) (h : D) : Prop :=
  forall i e, es !! i = Some e ->
    mem_read (u64 (a + Z.of_nat i * sizeof_entry)) sizeof_entry h = (0, entry_bytes e).

Lemma batch_run g es s i :
  Forall plain es -> es <> [] -> state (pl s) = FETCH -> current_index (pl s) = i ->
  (forall k e, es !! k = Some e ->
     mem_read (u64 (current_gpfifo_addr (pl s) + (i + Z.of_nat k) * sizeof_entry)) sizeof_entry
       (hal s) = (0, entry_bytes e)) ->
  0 <= i -> total_entries (pl s) = i + Z.of_nat (length es) -> total_entries (pl s) < 2 ^ 64 ->
  preempt_pending (pl s) = false ->
  exists s', run_steps (5 * length es) g s = Some s' /\
    state (pl s') = CHANNEL_SWITCH /\ hal s' = hal s /\
    (scheduler s', launches s') = fold_left dispatch_out es (scheduler s, launches s) /\
    (let f := pending_fence_id (pl s) in
     if truthy f && negb (is_fence_frozen f (sema_state (pl s)))
     then fences s' = (sim_fence_id_signal f (fences s)).2 /\ pending_fence_id (pl s') = 0
     else fences s' = fences s /\ pending_fence_id (pl s') = f) /\
    (forall k, (k < 5 * length es)%nat ->
       exists sk, run_steps k g s = Some sk /\ fences sk = fences s).
Proof.
  revert s i. induction es as [|e es IH]; intros s i Hes Hne Hst Hidx Hmem Hi Htot Ht Hpre; [done|].
  inversion Hes as [|?? Hp Hes']; subst. cbn [length] in Htot.
  assert (Hn : next_entry s e).
  { unfold next_entry, entry_address. pose proof (Hmem 0%nat e eq_refl) as H0.
    by rewrite Z.add_0_r in H0. }
  destruct (plain_entry g s e Hp Hst Hn ltac:(lia) Ht Hpre) as (s1 & Hrun & Hae & Hfen).
  destruct Hae as [A1 A2 A3 A4 A5 A6 A7 A8 A9 A10 A11].
  replace (5 * length (e :: es))%nat with (5 + 5 * length es)%nat by (cbn [length]; lia).
  rewrite (run_steps_app 5 _ g s s1 Hrun).
  destruct (decide (es = [])) as [->|Hes0].
  - cbn [length] in Htot. rewrite Htot in A1, A10. cbn [length Nat.mul] in *.
    rewrite Z.eqb_refl in A1, A10. cbn [andb] in A10. exists s1. cbn [run_steps fold_left].
    split; [done|]. split; [done|]. split; [done|]. split; [done|]. split; [done|].
    intros k Hk. apply Hfen. lia.
  - assert (Hnz : (length es <> 0)%nat) by (by destruct es).
    destruct (Z.eqb_spec (total_entries (pl s)) (current_index (pl s) + 1)); [lia|].
    cbn [andb] in A10. destruct A10 as [A10 A12].
    destruct (IH s1 (current_index (pl s1))) as (s' & H1 & H2 & H3 & H4 & H5 & H6); try done.
    + intros k e' Hk. rewrite A2, A7, A3.
      replace (current_index (pl s) + 1 + Z.of_nat k) with (current_index (pl s) + Z.of_nat (S k)) by lia.
      by apply Hmem.
    + lia.
    + rewrite A4, A3. lia.
    + by rewrite A4.
    + by rewrite A5.
    + exists s'. split; [done|]. split; [done|]. split; [by rewrite H3|].
      split; [by rewrite H4, A9|]. rewrite A12, A6, A10 in H5. split; [done|].
      intros k Hk. destruct (decide (k < 5)%nat) as [Hlt|Hge]; [by apply Hfen|].
      replace k with (5 + (k - 5))%nat by lia. rewrite (run_steps_app 5 _ g s s1 Hrun).
      destruct (H6 (k - 5)%nat ltac:(lia)) as (sk & Hsk & Hf). exists sk. by rewrite Hf, A10.
Qed.

(** C1. A batch runs to completion and signals its fence exactly once, at the
    end: from the fetch state at the head of a batch of [n > 0] plain entries
    resident in device memory, [5 n] iterations of the main loop bring the
    puller back to channel switching; the entries have been dispatched in
    order (launch callbacks included) and device memory is untouched; the
    fence table is unchanged after every earlier iteration, and at the end
    the batch's fence (if it has one and it is not frozen) has been
    signalled and forgotten. *)
Theorem puller_batch_completes g es s :
  Forall plain es -> es <> [] -> state (pl s) = FETCH -> current_index (pl s) = 0 ->
  resident (current_gpfifo_addr (pl s)) es (hal s) ->
  total_entries (pl s) = Z.of_nat (length es) -> total_entries (pl s) < 2 ^ 64 ->
  preempt_pending (pl s) = false ->
  exists s', run_steps (5 * length es) g s = Some s' /\
    state (pl s') = CHANNEL_SWITCH /\ hal s' = hal s /\
    (scheduler s', launches s') = fold_left dispatch_out es (scheduler s, launches s) /\
    (let f := pending_fence_id (pl s) in
     if truthy f && negb (is_fence_frozen f (sema_state (pl s)))
     then fences s' = (sim_fence_id_signal f (fences s)).2 /\ pending_fence_id (pl s') = 0
     else fences s' = fences s /\ pending_fence_id (pl s') = f) /\
    (forall k, (k < 5 * length es)%nat ->
       exists sk, run_steps k g s = Some sk /\ fences sk = fences s).
Proof.
  intros Hes Hne Hst Hi Hmem Htot Ht Hpre.
  apply (batch_run g es s 0); try done; try lia.
Qed.
End Batch.

(** A batch of two launches in the memory of the user-space HAL. *)
From S2P Require Import HalUser.

Definition demo_launch (k : Z) : gpu_gpfifo_entry :=
  zero_entry <| valid := 1 |> <| method := GPU_OP_LAUNCH_KERNEL |> <| payload := [k; 0; 0; 0; 0; 0; 0] |>.
Definition demo_batch : list gpu_gpfifo_entry := [demo_launch 3; demo_launch 4].
Definition demo_sim : Sim hal_user_context :=
  mk_Sim (init_puller <| state := FETCH |> <| total_entries := 2 |>
            <| current_gpfifo_addr := HAL_HEAP_BASE |> <| pending_fence_id := SIM_FENCE_ID_BASE |>)
    (user_mem_write HAL_HEAP_BASE (encode_entries demo_batch)
       (hal_user_init (fun _ => 0) 1048576 None)).2
    init_doorbell ∅ (Some init_scheduler) None ∅ None
    (sim_fence_id_alloc (init_fence None)).2 [] 0 [] [].

Lemma demo_plain k : is_u64 k -> plain (demo_launch k).
Proof. intros Hk. repeat split; try apply list.Forall_cons; repeat split; simpl; try done; try lia; repeat (constructor; try lia). Qed.

Lemma puller_batch_completes_witness :
  exists s', run_steps 10 zero_entry demo_sim = Some s' /\ state (pl s') = CHANNEL_SWITCH /\
    pending_fence_id (pl s') = 0.
Proof.
  destruct (puller_batch_completes zero_entry demo_batch demo_sim) as (s' & H1 & H2 & _ & _ & H3 & _).
  - constructor; [apply demo_plain; lia|constructor; [apply demo_plain; lia|constructor]].
  - done.
  - done.
  - done.
  - intros i e Hi. destruct i as [|[|i]]; [| |done]; simpl in Hi; injection Hi as <-; by vm_compute.
  - done.
  - done.
  - done.
  - exists s'. split; [exact H1|]. split; [exact H2|]. apply H3.
Defined.
