(* ===== verification/PullerProps.v ===== *)
(** * Puller: indirect buffers, released and blocked entries

    Properties of [Puller.v] beyond the plain batch: what a jump into an
    indirect buffer saves and restores, and what happens to entries that carry
    a semaphore release or block on a semaphore. *)
From S2P Require Import Prelude GpuTypes MqdState ChannelManager ChannelSema Translator Semaphore FenceId Scheduler Ring SimHw Hal HalUser Puller.

Section Props.
Context {D : Type} {HO : HalOps D} {HL : HalLaws D}.
Implicit Types s : Sim D.
Implicit Types p : Puller.

(** The members that only the jump functions write. *)
Definition jump_part p : list IbJumpFrame * Z * bool * Z * Z * bool :=
  (jump_stack p, jump_depth p, is_in_jump p, jump_target_addr p, jump_target_size p, jump_continue p).
(** Where the puller is in its batch. *)
Definition position p : Z * Z * Z * Z :=
  (current_gpfifo_addr p, current_index p, total_entries p, pending_fence_id p).

Lemma upd_jump f s : (forall p, jump_part (f p) = jump_part p) -> jump_part (pl (upd f s)) = jump_part (pl s).
Proof. intros H. apply H. Qed.
Lemma goto_jump st s : jump_part (pl (goto st s)) = jump_part (pl s).
Proof. done. Qed.
Lemma advance_jump s : jump_part (pl (advance s)) = jump_part (pl s).
Proof. done. Qed.
Lemma yield_jump s : pl (yield_current s) = pl s.
Proof. unfold yield_current. by destruct (channel_mgr s). Qed.
Lemma scan_jump ids s : pl (scan ids s).2 = pl s.
Proof.
  induction ids as [|id ids IH]; simpl; [done|]. destruct (queues s !! id) as [q|]; [|done].
  destruct (hasPending q); [|done]. by destruct (Ring.dequeue q) as [[e|] q'].
Qed.
Lemma next_ready_jump s : pl (next_ready s).2 = pl s.
Proof.
  unfold next_ready. destruct (channel_mgr s) as [m|]; [|done].
  by destruct (nextReadyChannel (mqds s) m) as [[r mem] m'].
Qed.
Lemma switch_to_jump ch s : jump_part (pl (switch_to ch s)) = jump_part (pl s).
Proof.
  unfold switch_to. destruct (channel_mgr s) as [m|]; [|done]. cbv zeta.
  destruct (load_mqd _ _) as [d|]; [|done]. destruct (_ =? _); [|done].
  by destruct (restore _ _).
Qed.
Lemma schedule_jump e s : pl (schedule_entry e s) = pl s.
Proof.
  unfold schedule_entry. destruct (scheduler s); [|done]. by destruct (Scheduler.enqueue _ _ _).
Qed.
Lemma translate_jump e s : pl (translateLaunch e s) = pl s.
Proof.
  unfold translateLaunch. destruct (scheduler s); [|done]. by destruct (translate _ _) as [[b evs] t].
Qed.
Lemma memcpy_jump a b c s : jump_part (pl (dispatch_memcpy a b c s)) = jump_part (pl s).
Proof.
  unfold dispatch_memcpy. match goal with |- context [let '(_, _) := ?x in _] => destruct x as [r h] end. by destruct (negb (r =? 0)).
Qed.
Lemma pdl_jump a b c d e f s : jump_part (pl (sim_pdl_launch a b c d e f s).2) = jump_part (pl s).
Proof.
  unfold sim_pdl_launch. destruct (_ <=? _); [done|]. destruct (_ =? _); [done|]. simpl.
  destruct (scheduler s); [|done]. destruct (enqueue_with_priority _ _ _ _ _) as [e1 s1].
  by destruct (enqueue_with_priority _ _ _ _ _) as [e2 s2].
Qed.
Lemma sem_op_jump s : jump_part (pl (processSemOp s).2) = jump_part (pl s).
Proof.
  unfold processSemOp. cbv zeta.
  destruct (_ =? GPU_OP_SEM_WAIT); [by destruct (process_sem_wait _ _ _)|].
  destruct (_ =? GPU_OP_SEM_RELEASE); [done|]. destruct (_ =? GPU_OP_BARRIER_AND); [done|].
  destruct (_ =? GPU_OP_BARRIER_OR); [done|]. destruct (_ =? GPU_OP_PDL_LAUNCH); [|done].
  destruct (_ =? 0); [done|].
  match goal with |- context [sim_pdl_launch ?a ?b ?c ?d ?e ?f s] =>
    pose proof (pdl_jump a b c d e f s) as Hp; destruct (sim_pdl_launch a b c d e f s) as [rc s1] end.
  simpl in *. by destruct (negb (rc =? 0)).
Qed.
Lemma complete_jump s : jump_part (pl (handleComplete (processSemRelease s))) = jump_part (pl s).
Proof.
  assert (Hr : pl (processSemRelease s) = pl s).
  { unfold processSemRelease. destruct (_ || _); [|done]. by destruct (process_sem_release _). }
  rewrite <- Hr. generalize (processSemRelease s). clear. intros s. unfold handleComplete. cbv zeta.
  match goal with |- context [if truthy (release ?e) then ?a else ?b] =>
    assert (Ha : jump_part (pl (if truthy (release e) then a else b)) = jump_part (pl s))
      by (by destruct (truthy (release e))); rewrite <- Ha; generalize (if truthy (release e) then a else b) end.
  intros s1. destruct (truthy _ && _ && _); simpl.
  all: destruct (sem_mgr s1); [|done]; destruct (_ && _); [|done];
    by destruct (signal _ _ _) as [[r calls] m].
Qed.
Lemma preempt_jump s : jump_part (pl (preempt_switch s)) = jump_part (pl s).
Proof.
  unfold preempt_switch. cbv zeta. unfold goto, upd. simpl.
  match goal with |- context [next_ready ?t] =>
    assert (Ht : jump_part (pl t) = jump_part (pl s)); [|pose proof (next_ready_jump t) as Hn; revert Hn Ht;
      destruct (next_ready t) as [[ch|] s1]; simpl; intros Hn Ht] end.
  - simpl. destruct (channel_mgr s) as [m|]; [|done]. simpl. by destruct (load_mqd _ _).
  - destruct (channel_mgr s1); unfold jump_part, transitionTo in *; simpl in *; rewrite Hn; exact Ht.
  - unfold jump_part, transitionTo in *. simpl in *. by rewrite Hn.
Qed.

Lemma step_jump g s s' : runLoop_step g s = Some s' -> jump_part (pl s') = jump_part (pl s).
Proof.
  unfold runLoop_step. destruct (state (pl s)); intros H.
  - destruct (_ || _); by simplify_eq.
  - injection H as <-. unfold step_channel_switch. pose proof (next_ready_jump s) as Hn.
    destruct (next_ready s) as [[ch|] s1]; simpl in Hn.
    + rewrite goto_jump, switch_to_jump. by rewrite Hn.
    + unfold scanQueues. pose proof (scan_jump (active_queues (pl s1)) s1) as Hs.
      destruct (scan _ s1) as [[[q e]|] s2]; simpl in Hs; rewrite <- Hn, <- Hs; [done|]. cbv zeta.
      by destruct (doorbell_pending (pl s2) || db_poll 0 _).
  - injection H as <-. unfold step_fetch. by destruct (fetchEntry g s).
  - injection H as <-. unfold step_decode. cbv zeta. destruct (is_sem_op _); [|done].
    pose proof (sem_op_jump s) as Hs. destruct (processSemOp s) as [[|] s1]; simpl in Hs; [done|].
    rewrite <- Hs. destruct (batch_done _); rewrite goto_jump; [rewrite yield_jump|]; done.
  - by simplify_eq.
  - injection H as <-. unfold step_dispatch. cbv zeta.
    destruct (truthy (ts_query _));
      (destruct (method _ =? GPU_OP_MEMCPY); [by rewrite goto_jump, memcpy_jump|]);
      destruct (_ && _); rewrite goto_jump; by rewrite ?translate_jump, ?schedule_jump.
  - unfold step_semaphore in H. destruct (truthy _); [injection H as <-|].
    + rewrite goto_jump. unfold releaseSemaphore, signalSemaphore. cbv zeta. simpl.
      by destruct (_ && _).
    + unfold waitSemaphore in H. cbv zeta in H. destruct (_ <=? _); by simplify_eq.
  - injection H as <-. unfold step_complete. cbv zeta. rewrite <- (complete_jump s).
    change (jump_part (pl (handleComplete (processSemRelease s)))) with
      (jump_part (pl (advance (handleComplete (processSemRelease s))))).
    generalize (advance (handleComplete (processSemRelease s))). intros s1.
    destruct (batch_done s1); [|done].
    destruct (_ && _); [rewrite preempt_jump|rewrite goto_jump]; by rewrite yield_jump.
Qed.

Lemma run_jump n g s s' : run_steps n g s = Some s' -> jump_part (pl s') = jump_part (pl s).
Proof.
  revert s. induction n as [|n IH]; intros s Hr; simpl in Hr; [by simplify_eq|].
  destruct (runLoop_step g s) as [s1|] eqn:E; [|done]. simpl in Hr.
  by rewrite (IH _ Hr), (step_jump _ _ _ E).
Qed.

(** What [completeIbJump] looks at. *)
Lemma complete_jump_spec p f d :
  jump_depth p = d + 1 -> 0 <= d -> is_in_jump p = true -> jump_stack p !! Z.to_nat d = Some f ->
  exists p', completeIbJump p = (0, p') /\ jump_depth p' = d /\ jump_stack p' = jump_stack p /\
    is_in_jump p' = (0 <? d) /\ jump_continue p' = false /\
    position p' = if jump_continue p
                  then (saved_gpfifo_addr f, saved_index f, saved_total f, saved_fence_id f)
                  else position p.
Proof.
  intros Hd H0 Hin Hf. unfold completeIbJump. rewrite Hin. simpl.
  destruct (Z.eqb_spec (jump_depth p) 0); [lia|]. simpl.
  replace (jump_depth p - 1) with d by lia. rewrite Hf.
  destruct (jump_continue p) eqn:Ec; simpl; replace (jump_depth p - 1) with d by lia;
    destruct (Z.eqb_spec d 0), (Z.ltb_spec 0 d); try lia; eexists; (split; [done|]); simpl;
    rewrite ?Hin; repeat split; lia || done.
Qed.

Lemma process_jump_spec e s :
  (mem_read (payload_at e 0) 4 (hal s)).1 = 0 -> 0 <= jump_depth (pl s) < MAX_IB_NEST ->
  length (jump_stack (pl s)) = 4%nat ->
  exists s', processIbJump e s = (0, s') /\
    jump_depth (pl s') = jump_depth (pl s) + 1 /\ is_in_jump (pl s') = true /\
    jump_continue (pl s') = truthy (payload_at e 1) /\
    jump_stack (pl s') = <[Z.to_nat (jump_depth (pl s)) :=
      mk_frame (current_gpfifo_addr (pl s)) (current_index (pl s)) (total_entries (pl s))
        (pending_fence_id (pl s))]> (jump_stack (pl s)) /\
    position (pl s') = (payload_at e 0, 0, payload_at e 2, pending_fence_id (pl s)) /\ hal s' = hal s.
Proof.
  intros Hm Hd Hl. unfold processIbJump. rewrite Hm. simpl.
  destruct (Z.leb_spec MAX_IB_NEST (jump_depth (pl s))); [lia|]. eexists. split; [done|]. done.
Qed.

Lemma process_jump_inv e s s1 :
  processIbJump e s = (0, s1) -> (mem_read (payload_at e 0) 4 (hal s)).1 = 0 /\ jump_depth (pl s) < MAX_IB_NEST.
Proof.
  unfold processIbJump. destruct (Z.eqb_spec (mem_read (payload_at e 0) 4 (hal s)).1 0); simpl; [|done].
  destruct (Z.leb_spec MAX_IB_NEST (jump_depth (pl s))); done.
Qed.

(** A jump into an indirect buffer resumes: a jump with the continue flag,
    any run of the main loop inside the buffer, and the completion of the jump
    bring the puller back to the entry, batch and fence it jumped from, at the
    nesting depth it had. *)
Theorem ib_jump_resumes e s s1 n g s2 :
  processIbJump e s = (0, s1) -> truthy (payload_at e 1) = true ->
  0 <= jump_depth (pl s) -> length (jump_stack (pl s)) = 4%nat ->
  run_steps n g s1 = Some s2 ->
  exists p, completeIbJump (pl s2) = (0, p) /\ position p = position (pl s) /\
    jump_depth p = jump_depth (pl s) /\ is_in_jump p = (0 <? jump_depth (pl s)).
Proof.
  intros Hj Hc Hd Hl Hr. destruct (process_jump_inv _ _ _ Hj) as [Hm Hd4].
  destruct (process_jump_spec e s Hm ltac:(lia) Hl) as (s1' & Hj' & H1 & H2 & H3 & H4 & _).
  rewrite Hj in Hj'. injection Hj' as <-. apply run_jump in Hr. unfold jump_part in Hr.
  injection Hr as R1 R2 R3 _ _ R6.
  destruct (complete_jump_spec (pl s2) (mk_frame (current_gpfifo_addr (pl s)) (current_index (pl s))
    (total_entries (pl s)) (pending_fence_id (pl s))) (jump_depth (pl s)))
    as (p & Hp & P1 & _ & P2 & _ & P3); [congruence|done|congruence| |].
  - rewrite R1, H4. apply list_lookup_insert_eq. unfold MAX_IB_NEST in Hd4. lia.
  - exists p. split; [done|]. rewrite P3, R6, H3, Hc. done.
Qed.

(** Nesting loses the outer continue flag: after a jump inside a jump, both
    with the continue flag set, the inner completion returns into the outer
    buffer, but the outer completion does not return to the batch that jumped:
    the puller stays in the outer buffer. *)
Theorem ib_outer_continue_lost e1 e2 s s1 s2 :
  processIbJump e1 s = (0, s1) -> processIbJump e2 s1 = (0, s2) ->
  truthy (payload_at e2 1) = true -> 0 <= jump_depth (pl s) -> length (jump_stack (pl s)) = 4%nat ->
  exists p3 p4, completeIbJump (pl s2) = (0, p3) /\ position p3 = position (pl s1) /\
    completeIbJump p3 = (0, p4) /\ position p4 = (payload_at e1 0, 0, payload_at e1 2, pending_fence_id (pl s)) /\
    jump_depth p4 = jump_depth (pl s).
Proof.
  intros Hj1 Hj2 Hc Hd Hl. destruct (process_jump_inv _ _ _ Hj1) as [Hm1 Hd1].
  destruct (process_jump_spec e1 s Hm1 ltac:(lia) Hl) as (s1' & Hj' & A1 & A2 & A3 & A4 & A5 & _).
  rewrite Hj1 in Hj'. injection Hj' as <-. destruct (process_jump_inv _ _ _ Hj2) as [Hm2 Hd2].
  assert (Hl1 : length (jump_stack (pl s1)) = 4%nat) by (by rewrite A4, length_insert).
  destruct (process_jump_spec e2 s1 Hm2 ltac:(lia) Hl1) as (s2' & Hj' & B1 & B2 & B3 & B4 & _ & _).
  rewrite Hj2 in Hj'. injection Hj' as <-.
  destruct (complete_jump_spec (pl s2) (mk_frame (current_gpfifo_addr (pl s1)) (current_index (pl s1))
    (total_entries (pl s1)) (pending_fence_id (pl s1))) (jump_depth (pl s1)))
    as (p3 & Hp3 & C1 & C2 & C3 & C4 & C5); [lia|lia|done| |].
  { rewrite B4. apply list_lookup_insert_eq. unfold MAX_IB_NEST in Hd2. lia. }
  rewrite B3, Hc in C5.
  destruct (complete_jump_spec p3 (mk_frame (current_gpfifo_addr (pl s)) (current_index (pl s))
    (total_entries (pl s)) (pending_fence_id (pl s))) (jump_depth (pl s)))
    as (p4 & Hp4 & E1 & _ & _ & _ & E5); [lia|done| | |].
  { rewrite C3. apply Z.ltb_lt. lia. }
  { rewrite C2, B4, list_lookup_insert_ne by lia. rewrite A4.
    apply list_lookup_insert_eq. unfold MAX_IB_NEST in Hd1. lia. }
  rewrite C4 in E5. exists p3, p4. split; [done|]. split; [exact C5|]. split; [done|].
  split; [|done]. rewrite E5, C5. exact A5.
Qed.

Lemma fetch_step g s e :
  entry_ok e -> state (pl s) = FETCH -> next_entry s e ->
  current_index (pl s) < total_entries (pl s) ->
  runLoop_step g s = Some (goto DECODE (upd (fun p => p <| current_entry := e |>) s)).
Proof.
  intros He Hst Hn Hi. unfold runLoop_step. rewrite Hst. unfold step_fetch, fetchEntry.
  destruct (Z.leb_spec (total_entries (pl s)) (current_index (pl s))); [lia|].
  unfold next_entry in Hn. rewrite Hn. simpl. by rewrite entry_decode_encode.
Qed.

(** Completion of an entry with the release bit. *)
Lemma complete_release e s :
  current_entry (pl s) = e -> release e = 1 -> preempt_pending (pl s) = false ->
  let s' := step_complete s in
  scheduler s' = scheduler s /\ launches s' = launches s /\ g_sim_tick s' = g_sim_tick s /\
  hal s' = interrupt_raise 0 (write_u32 (semaphore_va e) (semaphore_value e) (hal s)) /\
  interrupt_count (pl s') = interrupt_count (pl s) + 1 /\
  current_index (pl s') = u64 (current_index (pl s) + 1).
Proof.
  intros He Hrel Hpre. unfold step_complete, processSemRelease, handleComplete. cbv zeta.
  rewrite He, Hrel. change (truthy 1) with true. rewrite orb_true_r. cbn -[u64]. rewrite He, Hrel.
  change (truthy 1) with true. cbn -[u64].
  destruct (truthy (pending_fence_id (pl s)) && _ && _); cbn -[u64];
    destruct (sem_mgr s) as [m|]; cbn -[u64]; try (destruct (_ && _ && _); cbn -[u64];
    try destruct (signal _ _ _) as [[r calls] m']; cbn -[u64]);
    unfold batch_done, yield_current; cbn -[u64]; destruct (_ <=? _); cbn -[u64];
    destruct (channel_mgr s); cbn -[u64]; rewrite ?Hpre; done.
Qed.

(** An entry with the release bit set is never dispatched: it goes from
    decode straight to the semaphore state, so that its semaphore gets its
    value and an interrupt is raised, but neither the scheduler nor the launch
    callbacks see it, whatever its method. *)
Theorem release_entry_not_dispatched g s e :
  entry_ok e -> release e = 1 -> is_sem_op e = false -> in_heap (semaphore_va e) 4 ->
  state (pl s) = FETCH -> next_entry s e -> current_index (pl s) < total_entries (pl s) ->
  preempt_pending (pl s) = false ->
  exists s', run_steps 4 g s = Some s' /\ scheduler s' = scheduler s /\ launches s' = launches s /\
    g_sim_tick s' = g_sim_tick s /\ read_u32 (semaphore_va e) (hal s') = semaphore_value e /\
    interrupt_count (pl s') = interrupt_count (pl s) + 1 /\
    current_index (pl s') = u64 (current_index (pl s) + 1).
Proof.
  intros He Hrel Hsem Hva Hst Hn Hi Hpre.
  set (s1 := goto DECODE (upd (fun p => p <| current_entry := e |>) s)).
  pose proof (fetch_step g s e He Hst Hn Hi) as H1. fold s1 in H1.
  set (s2 := goto SEMAPHORE s1).
  assert (H2 : runLoop_step g s1 = Some s2).
  { unfold runLoop_step, s1, s2. cbn. unfold step_decode. cbn. by rewrite Hsem, Hrel. }
  set (s3 := goto COMPLETE (releaseSemaphore s2)).
  assert (H3 : runLoop_step g s2 = Some s3).
  { unfold runLoop_step, s2, s1. cbn. unfold step_semaphore. cbn. by rewrite Hrel. }
  assert (Hs3 : current_entry (pl s3) = e /\ preempt_pending (pl s3) = false /\
    current_index (pl s3) = current_index (pl s) /\ scheduler s3 = scheduler s /\
    launches s3 = launches s /\ g_sim_tick s3 = g_sim_tick s /\
    interrupt_count (pl s3) = interrupt_count (pl s)).
  { unfold s3, releaseSemaphore, signalSemaphore. cbv zeta. cbn. destruct (_ && _); done. }
  destruct Hs3 as (E1 & E2 & E3 & E4 & E5 & E6 & E7).
  exists (step_complete s3). split.
  { cbn [run_steps]. rewrite H1. cbn [mbind option_bind]. rewrite H2. cbn [mbind option_bind].
    rewrite H3. done. }
  rewrite <- E3, <- E4, <- E5, <- E6, <- E7. clearbody s3. clear H3. clear E3 E4 E5 E6 E7.
  destruct (complete_release e s3 E1 Hrel E2) as (F1 & F2 & F3 & F4 & F5 & F6).
  do 3 (split; [done|]). split; [|done]. rewrite F4. unfold read_u32. rewrite hal_interrupt_read.
  apply (write_u32_read (semaphore_va e) (semaphore_value e) (hal s3)); [done|apply He].
Qed.

(** A semaphore wait that blocks as the last entry of its batch ends the
    batch without signalling its fence: the puller goes on to the next
    channel. *)
Theorem blocked_last_entry_drops_fence g s e :
  entry_ok e -> method e = GPU_OP_SEM_WAIT -> read_u32 (semaphore_va e) (hal s) < semaphore_value e ->
  state (pl s) = FETCH -> next_entry s e ->
  0 <= current_index (pl s) -> total_entries (pl s) = current_index (pl s) + 1 ->
  total_entries (pl s) < 2 ^ 64 ->
  exists s', run_steps 2 g s = Some s' /\ state (pl s') = CHANNEL_SWITCH /\ fences s' = fences s /\
    pending_entries (sema_state (pl s')) = pending_entries (sema_state (pl s)) ++ [e] /\
    channel_mgr s' = channel_mgr (yield_current s).
Proof.
  intros He Hm Hv Hst Hn Hi Htot Ht.
  set (s1 := goto DECODE (upd (fun p => p <| current_entry := e |>) s)).
  pose proof (fetch_step g s e He Hst Hn ltac:(lia)) as H1. fold s1 in H1.
  exists (step_decode s1). split.
  { cbn [run_steps]. rewrite H1. done. }
  unfold step_decode, s1. cbn. unfold is_sem_op. rewrite Hm. cbn. unfold processSemOp. cbn.
  rewrite Hm. cbn. unfold process_sem_wait, sem_ready. cbn.
  destruct (Z.leb_spec (semaphore_value e) (read_u32 (semaphore_va e) (hal s))); [lia|]. cbn.
  unfold batch_done. cbn. rewrite u64_id by lia. destruct (Z.leb_spec (total_entries (pl s)) (current_index (pl s) + 1)); [|lia].
  unfold yield_current. cbn. by destruct (channel_mgr s).
Qed.
End Props.

(** ** Witnesses, on the memory of the user-space HAL *)
Definition demo_jump (target continue size : Z) : gpu_gpfifo_entry :=
  zero_entry <| method := GPU_OP_IB_JUMP |> <| payload := [target; continue; size; 0; 0; 0; 0] |>.
Definition at_entry (e : gpu_gpfifo_entry) : Sim hal_user_context :=
  demo_sim <| hal := (user_mem_write HAL_HEAP_BASE (entry_bytes e)
                        (hal_user_init (fun _ => 0) 1048576 None)).2 |>
           <| pl ::= fun p => p <| total_entries := 1 |> |>.
Definition demo_release : gpu_gpfifo_entry :=
  demo_launch 3 <| release := 1 |> <| semaphore_va := HAL_HEAP_BASE + 4096 |> <| semaphore_value := 9 |>.
Definition demo_wait : gpu_gpfifo_entry :=
  zero_entry <| method := GPU_OP_SEM_WAIT |> <| semaphore_va := HAL_HEAP_BASE + 4096 |>
             <| semaphore_value := 9 |>.

Lemma demo_release_ok : entry_ok demo_release.
Proof. split; simpl; unfold HAL_HEAP_BASE; try lia; try done; repeat (constructor; try lia). Qed.
Lemma demo_wait_ok : entry_ok demo_wait.
Proof. split; simpl; unfold HAL_HEAP_BASE; try lia; try done; repeat (constructor; try lia). Qed.

Lemma ib_jump_resumes_witness :
  exists s2 p, run_steps 3 zero_entry (processIbJump (demo_jump HAL_HEAP_BASE 1 2) demo_sim).2 = Some s2 /\
    completeIbJump (pl s2) = (0, p) /\ position p = position (pl demo_sim).
Proof.
  assert (Hs : bool_decide (is_Some
    (run_steps 3 zero_entry (processIbJump (demo_jump HAL_HEAP_BASE 1 2) demo_sim).2)) = true)
    by (by vm_compute).
  apply bool_decide_eq_true_1 in Hs as [s2 Hs2].
  destruct (ib_jump_resumes (demo_jump HAL_HEAP_BASE 1 2) demo_sim
    (processIbJump (demo_jump HAL_HEAP_BASE 1 2) demo_sim).2 3 zero_entry s2) as (p & H1 & H2 & _).
  - apply pair_snd. by vm_compute.
  - reflexivity.
  - done.
  - done.
  - exact Hs2.
  - exists s2, p. split; [exact Hs2|]. split; [exact H1|exact H2].
Defined.

Lemma ib_outer_continue_lost_witness :
  exists p3 p4,
    completeIbJump (pl (processIbJump (demo_jump HAL_HEAP_BASE 1 5)
      (processIbJump (demo_jump (HAL_HEAP_BASE + 4096) 1 7) demo_sim).2).2) = (0, p3) /\
    completeIbJump p3 = (0, p4) /\ position p4 = (HAL_HEAP_BASE + 4096, 0, 7, SIM_FENCE_ID_BASE).
Proof.
  destruct (ib_outer_continue_lost (demo_jump (HAL_HEAP_BASE + 4096) 1 7) (demo_jump HAL_HEAP_BASE 1 5)
    demo_sim (processIbJump (demo_jump (HAL_HEAP_BASE + 4096) 1 7) demo_sim).2
    (processIbJump (demo_jump HAL_HEAP_BASE 1 5)
      (processIbJump (demo_jump (HAL_HEAP_BASE + 4096) 1 7) demo_sim).2).2)
    as (p3 & p4 & H1 & _ & H2 & H3 & _).
  - apply pair_snd. by vm_compute.
  - apply pair_snd. by vm_compute.
  - reflexivity.
  - done.
  - done.
  - exists p3, p4. split; [exact H1|]. split; [exact H2|exact H3].
Defined.

Lemma release_entry_not_dispatched_witness :
  exists s', run_steps 4 zero_entry (at_entry demo_release) = Some s' /\ launches s' = [] /\
    read_u32 (HAL_HEAP_BASE + 4096) (hal s') = 9.
Proof.
  destruct (release_entry_not_dispatched zero_entry (at_entry demo_release) demo_release demo_release_ok)
    as (s' & H1 & _ & H2 & _ & H3 & _).
  - reflexivity.
  - reflexivity.
  - by vm_compute.
  - done.
  - unfold next_entry. by vm_compute.
  - done.
  - done.
  - exists s'. split; [exact H1|]. split; [exact H2|exact H3].
Defined.

Lemma blocked_last_entry_drops_fence_witness :
  exists s', run_steps 2 zero_entry (at_entry demo_wait) = Some s' /\ state (pl s') = CHANNEL_SWITCH /\
    fences s' = fences (at_entry demo_wait).
Proof.
  destruct (blocked_last_entry_drops_fence zero_entry (at_entry demo_wait) demo_wait demo_wait_ok)
    as (s' & H1 & H2 & H3 & _).
  - reflexivity.
  - by vm_compute.
  - done.
  - unfold next_entry. by vm_compute.
  - done.
  - done.
  - done.
  - exists s'. split; [exact H1|]. split; [exact H2|exact H3].
Defined.
