(* ===== verification/PullerThread.v ===== *)
(** * The thread of the hardware puller

    [start], [stop], [onDoorbell] and the two waits of [runLoop] in
    [plugins/gpu_driver/sim/hardware/hardware_puller_emu.cpp], around the
    iterations of [Puller].  The worker's steps and the clients' calls interleave.

    A wait on the condition variable takes the mutex and tests its predicate
    ([Awake]); when it is false, the worker still holds the mutex until it falls
    asleep ([Tested]), and sleeps until a notification ([Asleep]), after which it
    tests again.  Everything a client does under the mutex is one step, possible
    only while the worker does not hold it; what a client does outside the mutex
    is a step of its own.  So [onDoorbell] is two steps: the store of
    [doorbell_pending_], and the notification; [pt_calls] are the calls in
    progress. *)
From S2P Require Import Prelude GpuTypes Hal ChannelManager ChannelSema Ring FenceId Puller.

Inductive wait_at := Awake | Tested | Asleep.
Inductive thread_at :=
| NoWorker
| LoopTop                       (* about to test [running_] *)
| AtWait (w : wait_at)          (* in the wait of [runLoop] *)
| Chosen (st : State)           (* behind it, with [local_state] *)
| InSemWait (w : wait_at)       (* in [waitSemaphore] *)
| HasLeft.                      (* [runLoop] has returned *)

(** A doorbell call in progress: before its store, or before its notification. *)
Inductive bell_at := BeforeStore | BeforeNotify.

Record PullerThread (H : Type) := PT_ {
  pt_sim : Sim H;
  pt_running : bool;
  pt_worker : thread_at;
  pt_joinable : bool;
  pt_calls : list bell_at
}.
Arguments PT_ {H}. Arguments pt_sim {H}. Arguments pt_running {H}. Arguments pt_worker {H}.
Arguments pt_joinable {H}. Arguments pt_calls {H}.
#[export] Instance eta_PullerThread H : Eta (PullerThread H) := fun t =>
  PT_ (pt_sim t) (pt_running t) (pt_worker t) (pt_joinable t) (pt_calls t).

Section Thread.
Context {H : Type} `{HalOps H} (garbage : gpu_gpfifo_entry).
Implicit Types (s : Sim H) (t : PullerThread H).

(** ** The worker *)
Definition is_idle (st : State) : bool := match st with IDLE => true | _ => false end.
(** The predicate of the wait in [runLoop], the flag apart. *)
Definition has_work s : bool :=
  negb (is_idle (state (pl s))) || doorbell_pending (pl s) || db_poll 0 (doorbell s).
(** The predicate of [waitSemaphore], the flag apart. *)
Definition sem_reached s : bool :=
  semaphore_signaled (pl s) || (waiting_semaphore_value (pl s) <=? read_u32 (waiting_semaphore_va (pl s)) (hal s)).
(** The end of [waitSemaphore] and the transition after it. *)
Definition leave_sem_wait (signaled : bool) s : Sim H :=
  goto (if signaled then DISPATCH else IDLE)
    (upd (fun p => p <| semaphore_signaled := signaled |> <| waiting_semaphore_va := 0 |>) s).

Definition at_top_with s t : PullerThread H := t <| pt_sim := s |> <| pt_worker := LoopTop |>.
(** The body of the loop after the wait; [waitSemaphore] takes the mutex and
    tests its predicate for the first time. *)
Definition iteration (local_state : State) t : PullerThread H :=
  let s := pt_sim t in
  match local_state with
  | IDLE => at_top_with (goto CHANNEL_SWITCH s) t
  | CHANNEL_SWITCH => at_top_with (step_channel_switch s) t
  | FETCH => at_top_with (step_fetch garbage s) t
  | DECODE => at_top_with (step_decode s) t
  | SCHEDULE => at_top_with (goto DISPATCH s) t
  | DISPATCH => at_top_with (step_dispatch s) t
  | COMPLETE => at_top_with (step_complete s) t
  | SEMAPHORE =>
      if truthy (release (current_entry (pl s))) then at_top_with (goto COMPLETE (releaseSemaphore s)) t
      else match waitSemaphore s with
           | (Some r, s) => at_top_with (goto (if r then DISPATCH else IDLE) s) t
           | (None, s) =>
               if pt_running t then t <| pt_sim := s |> <| pt_worker := InSemWait Tested |>
               else at_top_with (leave_sem_wait false s) t
           end
  end.
(** [None]: no thread, or one that sleeps or has ended. *)
Definition puller_worker_step t : option (PullerThread H) :=
  match pt_worker t with
  | LoopTop => Some (t <| pt_worker := if pt_running t then AtWait Awake else HasLeft |>)
  | AtWait Awake =>
      if negb (pt_running t) then Some (t <| pt_worker := HasLeft |>)
      else if has_work (pt_sim t) then Some (t <| pt_worker := Chosen (state (pl (pt_sim t))) |>)
      else Some (t <| pt_worker := AtWait Tested |>)
  | AtWait Tested => Some (t <| pt_worker := AtWait Asleep |>)
  | Chosen st => Some (iteration st t)
  | InSemWait Awake =>
      if sem_reached (pt_sim t) then Some (at_top_with (leave_sem_wait true (pt_sim t)) t)
      else if negb (pt_running t) then Some (at_top_with (leave_sem_wait false (pt_sim t)) t)
      else Some (t <| pt_worker := InSemWait Tested |>)
  | InSemWait Tested => Some (t <| pt_worker := InSemWait Asleep |>)
  | _ => None
  end.

(** ** The clients *)
(** The mutex between two steps: only a worker that is about to sleep holds it. *)
Definition mutex_free t : bool :=
  match pt_worker t with AtWait Tested | InSemWait Tested => false | _ => true end.
Definition locked (f : PullerThread H -> PullerThread H) t : option (PullerThread H) :=
  if mutex_free t then Some (f t) else None.
(** [notify_one] and [notify_all]: there is one waiter. *)
Definition notify t : PullerThread H :=
  t <| pt_worker ::= fun w => match w with AtWait Asleep => AtWait Awake | InSemWait Asleep => InSemWait Awake | w => w end |>.

(** A thread object that is still joinable is assigned to: the process ends. *)
Definition puller_start t : option (PullerThread H) :=
  if negb (mutex_free t) then None
  else if pt_running t then Some t
  else if pt_joinable t then None
  else Some (t <| pt_running := true |> <| pt_worker := LoopTop |> <| pt_joinable := true |>).
(** [stop] is a critical section and a join; the join goes on when the thread
    has ended. *)
Definition puller_stop_signal t : option (PullerThread H) :=
  locked (fun t => if pt_running t then notify (t <| pt_running := false |>) else t) t.
Definition puller_stop_join t : option (PullerThread H) :=
  match pt_worker t with
  | HasLeft => Some (t <| pt_worker := NoWorker |> <| pt_joinable := false |>)
  | _ => None
  end.

(** [onDoorbell], called by a queue or by [DoorbellEmu::write]. *)
Definition bell_enter t : PullerThread H := t <| pt_calls ::= fun l => l ++ [BeforeStore] |>.
Definition bell_step (i : nat) t : option (PullerThread H) :=
  match pt_calls t !! i with
  | Some BeforeStore => Some (t <| pt_sim ::= upd onDoorbell |> <| pt_calls ::= <[i := BeforeNotify]> |>)
  | Some BeforeNotify => locked (fun t => notify (t <| pt_calls ::= delete i |>)) t
  | None => None
  end.
(** The constructor has installed the callback of the doorbells. *)
Definition ring_call (id : Z) t : PullerThread H :=
  let t' := t <| pt_sim ::= fun s => s <| doorbell ::= fun d => (db_write id d).2 |> |> in
  if MAX_QUEUES <=? id then t' else bell_enter t'.
Definition signal_call (addr value : Z) t : PullerThread H :=
  let p := pl (pt_sim t) in
  let t' := t <| pt_sim ::= upd (signalSemaphore addr value) |> in
  if (addr =? waiting_semaphore_va p) && (waiting_semaphore_value p <=? value) then notify t' else t'.
(** With a channel manager the batch is queued there, under the manager's own
    mutex, and then the store and the notification are made as in [onDoorbell]. *)
Definition submit_call (addr count fence : Z) t : option (PullerThread H) :=
  match channel_mgr (pt_sim t) with
  | Some m => Some (bell_enter (t <| pt_sim ::= fun s => s <| channel_mgr :=
      Some (ChannelManager.submitBatch (current_channel_id (pl s)) addr count fence m) |> |>))
  | None => locked (fun t => t <| pt_sim ::= upd (submit_direct addr count fence) |>) t
  end.

Inductive thread_event :=
| EvWorker
| EvRing (id : Z)              (* a doorbell is written *)
| EvDoorbell                   (* a registered queue calls [onDoorbell] *)
| EvBell (i : nat)             (* the next step of a call in progress *)
| EvSignal (addr value : Z)
| EvSubmit (addr count fence : Z)
| EvMemWrite (addr value : Z)
| EvSpurious                   (* a wake-up without notification *)
| EvStart
| EvStopSignal
| EvStopJoin.
(** [None]: the event cannot happen in this state, or ends the process. *)
Definition thread_step (e : thread_event) t : option (PullerThread H) :=
  match e with
  | EvWorker => puller_worker_step t
  | EvRing id => Some (ring_call id t)
  | EvDoorbell => Some (bell_enter t)
  | EvBell i => bell_step i t
  | EvSignal a v => locked (signal_call a v) t
  | EvSubmit a n f => submit_call a n f t
  | EvMemWrite a v => Some (t <| pt_sim ::= fun s => s <| hal ::= write_u32 a v |> |>)
  | EvSpurious => Some (notify t)
  | EvStart => puller_start t
  | EvStopSignal => puller_stop_signal t
  | EvStopJoin => puller_stop_join t
  end.
Fixpoint thread_run (es : list thread_event) t : option (PullerThread H) :=
  match es with [] => Some t | e :: es => thread_step e t ≫= thread_run es end.

Fixpoint worker_run (n : nat) t : option (PullerThread H) :=
  match n with O => Some t | S n => puller_worker_step t ≫= worker_run n end.

(** ** The worker runs the machine *)
Definition at_top t s : Prop := pt_worker t = LoopTop /\ pt_sim t = s /\ pt_running t = true.

Lemma worker_enters t : pt_worker t = LoopTop -> pt_running t = true ->
  puller_worker_step t = Some (t <| pt_worker := AtWait Awake |>).
Proof. intros Hw Hr. unfold puller_worker_step. by rewrite Hw, Hr. Qed.

(** The machine moves only when the predicate of the wait holds. *)
Lemma step_has_work s s' : runLoop_step garbage s = Some s' -> has_work s = true.
Proof. unfold runLoop_step, has_work. destruct (state (pl s)); simpl; [by destruct (_ || _)|done..]. Qed.

(** An iteration of the loop is a step of the machine. *)
Lemma iteration_step t s' :
  runLoop_step garbage (pt_sim t) = Some s' -> iteration (state (pl (pt_sim t))) t = at_top_with s' t.
Proof.
  intros Hstep. unfold iteration. unfold runLoop_step in *. destruct (state (pl (pt_sim t))); try by simplify_eq.
  - destruct (_ || _); by simplify_eq.
  - unfold step_semaphore in Hstep. destruct (truthy _); [by simplify_eq|].
    destruct (waitSemaphore (pt_sim t)) as [[[]|] s1]; by simplify_eq.
Qed.

(** Three steps of the worker are one iteration of the main loop. *)
Lemma worker_iterates t s s' :
  at_top t s -> runLoop_step garbage s = Some s' -> exists t', worker_run 3 t = Some t' /\ at_top t' s'.
Proof.
  intros (Hw & <- & Hr) Hstep. cbn [worker_run]. rewrite (worker_enters t Hw Hr). cbn [mbind option_bind].
  unfold puller_worker_step at 1. cbn. rewrite Hr, (step_has_work _ _ Hstep). cbn.
  set (u := t <| pt_worker := AtWait Awake |> <| pt_worker := Chosen (state (pl (pt_sim t))) |>).
  pose proof (iteration_step u s' Hstep) as Hi. change (pt_sim u) with (pt_sim t) in Hi. rewrite Hi.
  eexists. split; [done|]. by repeat split.
Qed.

Lemma worker_run_app m n t t1 : worker_run m t = Some t1 -> worker_run (m + n) t = worker_run n t1.
Proof.
  revert t. induction m as [|m IH]; intros t; cbn [worker_run Nat.add]; [by intros [= <-]|].
  destruct (puller_worker_step t) as [u|]; [|done]. cbn [mbind option_bind]. apply IH.
Qed.

(** The thread implements the machine. *)
Lemma worker_runs n t s s' :
  at_top t s -> run_steps n garbage s = Some s' -> exists t', worker_run (3 * n) t = Some t' /\ at_top t' s'.
Proof.
  revert t s. induction n as [|n IH]; intros t s Ht Hrun; cbn [run_steps] in Hrun.
  - simplify_eq. by exists t.
  - destruct (runLoop_step garbage s) as [s1|] eqn:E1; [|done]. cbn [mbind option_bind] in Hrun.
    destruct (worker_iterates t s s1 Ht E1) as (t1 & Hr1 & Ht1). destruct (IH t1 s1 Ht1 Hrun) as (t2 & Hr2 & Ht2).
    exists t2. split; [|done]. replace (3 * S n)%nat with (3 + 3 * n)%nat by lia. by rewrite (worker_run_app _ _ _ _ Hr1).
Qed.

(** ** The invariant of the thread *)
Definition worker_ends (w : thread_at) : bool := match w with NoWorker | HasLeft => true | _ => false end.
Definition about_to_wait (w : thread_at) : bool := match w with AtWait Tested | AtWait Asleep => true | _ => false end.
Definition about_to_sem_wait (w : thread_at) : bool := match w with InSemWait Tested | InSemWait Asleep => true | _ => false end.
Record thread_inv t : Prop := {
  ti_running : pt_running t = true -> worker_ends (pt_worker t) = false;
  ti_wait : about_to_wait (pt_worker t) = true ->
    pt_running t = true /\ (has_work (pt_sim t) = true -> pt_calls t <> []);
  ti_sem : about_to_sem_wait (pt_worker t) = true ->
    pt_running t = true /\ semaphore_signaled (pl (pt_sim t)) = false;
  ti_join : pt_joinable t = false <-> pt_worker t = NoWorker
}.

(** Case analysis on the place of the worker. *)
Ltac at_worker t := destruct (pt_worker t) as [| |[]|?|[]|] eqn:?.
Ltac inv_solve := split; simpl; repeat match goal with E : pt_worker _ = _ |- _ => rewrite ?E; clear E end; simpl; naive_solver.

Lemma at_top_inv t s : thread_inv t -> worker_ends (pt_worker t) = false -> thread_inv (at_top_with s t).
Proof. intros [Hr Hw Hs Hj] He. split; simpl; [done|done|done|]. rewrite Hj. by destruct (pt_worker t). Qed.

Lemma wait_semaphore_signaled s s1 : waitSemaphore s = (None, s1) -> semaphore_signaled (pl s1) = false.
Proof. unfold waitSemaphore. cbv zeta. destruct (_ <=? _); intros [=]. by subst s1. Qed.

Lemma iteration_inv st t : thread_inv t -> worker_ends (pt_worker t) = false -> thread_inv (iteration st t).
Proof.
  intros Ht He. unfold iteration. destruct st; try by apply at_top_inv.
  destruct (truthy _); [by apply at_top_inv|]. destruct (waitSemaphore (pt_sim t)) as [[r|] s1] eqn:E; [by apply at_top_inv|].
  apply wait_semaphore_signaled in E. destruct (pt_running t) eqn:Er; [|by apply at_top_inv].
  destruct Ht as [Hr Hw Hs Hj]. split; simpl; [done|done|done|]. rewrite Hj. by destruct (pt_worker t).
Qed.

Lemma worker_step_inv t t' : thread_inv t -> puller_worker_step t = Some t' -> thread_inv t'.
Proof.
  intros Ht Hstep. pose proof Ht as [Hr Hw Hs Hj]. unfold puller_worker_step in Hstep. at_worker t; try done.
  - injection Hstep as <-. destruct (pt_running t) eqn:E; inv_solve.
  - destruct (pt_running t) eqn:E; simpl in Hstep; [|injection Hstep as <-; inv_solve].
    destruct (has_work (pt_sim t)) eqn:Ewk; injection Hstep as <-; inv_solve.
  - injection Hstep as <-. inv_solve.
  - injection Hstep as <-. apply iteration_inv; [done|]. by rewrite Heqt0.
  - destruct (sem_reached (pt_sim t)) eqn:Esr; [injection Hstep as <-; apply at_top_inv; [done|by rewrite Heqt0]|].
    apply orb_false_iff in Esr as [Esr _].
    destruct (pt_running t) eqn:E; simpl in Hstep; injection Hstep as <-;
      [inv_solve|apply at_top_inv; [done|by rewrite Heqt0]].
  - injection Hstep as <-. inv_solve.
Qed.

(** A change of the simulation that leaves a sleeping worker nothing to do. *)
Lemma sim_inv t f : thread_inv t ->
  (has_work (f (pt_sim t)) = true -> has_work (pt_sim t) = true) ->
  (semaphore_signaled (pl (pt_sim t)) = false -> semaphore_signaled (pl (f (pt_sim t))) = false) ->
  thread_inv (t <| pt_sim ::= f |>).
Proof. intros [Hr Hw Hs Hj] Hf Hg. split; simpl; naive_solver. Qed.
(** A doorbell call in progress accounts for new work. *)
Lemma sim_calls_inv t f g : thread_inv t -> g (pt_calls t) <> [] ->
  (semaphore_signaled (pl (pt_sim t)) = false -> semaphore_signaled (pl (f (pt_sim t))) = false) ->
  thread_inv (t <| pt_sim ::= f |> <| pt_calls ::= g |>).
Proof. intros [Hr Hw Hs Hj] Hc Hg. split; simpl; naive_solver. Qed.
(** A notification under the mutex accounts for any change made there. *)
Lemma notified_inv t f g : thread_inv t -> mutex_free t = true -> thread_inv (notify (t <| pt_sim ::= f |> <| pt_calls ::= g |>)).
Proof. intros [Hr Hw Hs Hj] Hm. unfold mutex_free in Hm. unfold notify. at_worker t; try done; inv_solve. Qed.
Lemma locked_some f t t' : locked f t = Some t' -> mutex_free t = true /\ t' = f t.
Proof. unfold locked. destruct (mutex_free t); [|done]. by intros [= <-]. Qed.
Lemma notify_inv t : thread_inv t -> thread_inv (notify t).
Proof. intros [Hr Hw Hs Hj]. unfold notify. at_worker t; inv_solve. Qed.

Lemma bell_enter_inv t : thread_inv t -> thread_inv (bell_enter t).
Proof. intros Ht. apply (sim_calls_inv t id (fun l => l ++ [BeforeStore])); [done| |done]. by destruct (pt_calls t). Qed.
Lemma bell_step_inv i t t' : thread_inv t -> bell_step i t = Some t' -> thread_inv t'.
Proof.
  intros Ht. unfold bell_step. destruct (pt_calls t !! i) as [[]|] eqn:E; [| |done].
  - intros [= <-]. apply sim_calls_inv; [done| |done]. intros Hn. apply (f_equal length) in Hn.
    rewrite length_insert in Hn. apply lookup_lt_Some in E. simpl in Hn. lia.
  - intros [Hm ->]%locked_some. by apply (notified_inv t id).
Qed.
Lemma ring_call_inv id t : thread_inv t -> thread_inv (ring_call id t).
Proof.
  intros Ht. unfold ring_call. destruct (MAX_QUEUES <=? id) eqn:E.
  - apply sim_inv; [done| |done]. unfold has_work, db_write. simpl. by rewrite E.
  - apply (sim_calls_inv t (fun s => s <| doorbell ::= fun d => (db_write id d).2 |>) (fun l => l ++ [BeforeStore]));
      [done| |done]. by destruct (pt_calls t).
Qed.
Lemma signal_call_inv a v t : thread_inv t -> mutex_free t = true -> thread_inv (signal_call a v t).
Proof.
  intros Ht Hm. unfold signal_call. destruct (_ && _) eqn:E; [by apply (notified_inv t _ id)|].
  apply sim_inv; [done| |]; unfold has_work, signalSemaphore, upd; simpl; by rewrite E.
Qed.
Lemma submit_call_inv a n f t t' : thread_inv t -> submit_call a n f t = Some t' -> thread_inv t'.
Proof.
  intros Ht. unfold submit_call. destruct (channel_mgr (pt_sim t)); [intros [= <-]; by apply bell_enter_inv, sim_inv|].
  intros [Hm ->]%locked_some. by apply sim_inv.
Qed.
Lemma stop_signal_inv t t' : thread_inv t -> puller_stop_signal t = Some t' -> thread_inv t'.
Proof.
  intros [Hr Hw Hs Hj] [Hm ->]%locked_some. unfold mutex_free in Hm.
  destruct (pt_running t) eqn:E; [|by split; rewrite ?E]. specialize (Hr eq_refl). unfold notify.
  at_worker t; try done; inv_solve.
Qed.

Lemma thread_step_inv e t t' : thread_inv t -> thread_step e t = Some t' -> thread_inv t'.
Proof.
  intros Ht. destruct e as [|id| |i|a v|a n f|a v| | | |]; simpl.
  - by apply worker_step_inv.
  - intros [= <-]. by apply ring_call_inv.
  - intros [= <-]. by apply bell_enter_inv.
  - by apply bell_step_inv.
  - intros [Hm ->]%locked_some. by apply signal_call_inv.
  - by apply submit_call_inv.
  - intros [= <-]. by apply sim_inv.
  - intros [= <-]. by apply notify_inv.
  - destruct Ht as [Hr Hw Hs Hj]. unfold puller_start. destruct (mutex_free t); [|done]. simpl.
    destruct (pt_running t) eqn:E; [intros [= <-]; split; rewrite ?E; naive_solver|].
    destruct (pt_joinable t); [done|]. intros [= <-]. split; simpl; naive_solver.
  - by apply stop_signal_inv.
  - destruct Ht as [Hr Hw Hs Hj]. unfold puller_stop_join. at_worker t; try done. intros [= <-].
    split; simpl; naive_solver.
Qed.

Definition new_thread s : PullerThread H := PT_ s false NoWorker false [].
Lemma new_thread_inv s : thread_inv (new_thread s).
Proof. split; simpl; naive_solver. Qed.
Lemma thread_run_inv es t t' : thread_inv t -> thread_run es t = Some t' -> thread_inv t'.
Proof.
  revert t. induction es as [|e es IH]; intros t Ht; simpl; [by intros [= <-]|].
  destruct (thread_step e t) as [u|] eqn:E; [|done]. simpl. apply IH. by eapply thread_step_inv.
Qed.

(** Any call in progress can run to its end and wakes a sleeping worker. *)
Lemma call_wakes t i : pt_worker t = AtWait Asleep -> (i < length (pt_calls t))%nat ->
  exists n t', (n <= 2)%nat /\ thread_run (replicate n (EvBell i)) t = Some t' /\ pt_worker t' = AtWait Awake.
Proof.
  intros Hw Hi. assert (Hm : mutex_free t = true) by (unfold mutex_free; by rewrite Hw).
  destruct (lookup_lt_is_Some_2 _ _ Hi) as [[] Hc].
  - exists 2%nat. simpl. unfold bell_step. rewrite Hc. cbn.
    rewrite list_lookup_insert_eq by done. unfold locked, mutex_free. cbn. rewrite Hw. cbn. eexists. split; [lia|]. split; [done|].
    cbn. by rewrite Hw.
  - exists 1%nat. simpl. unfold bell_step. rewrite Hc. unfold locked. rewrite Hm. cbn. eexists. split; [lia|]. split; [done|].
    cbn. by rewrite Hw.
Qed.


(** ** Stopping *)
Definition stop_rank t : nat :=
  match pt_worker t with InSemWait _ | Chosen _ => 2 | LoopTop | AtWait _ => 1 | _ => 0 end.
(** A worker that has been asked to stop: it does not sleep, nor holds the mutex. *)
Definition stopping t : Prop :=
  pt_running t = false /\ match pt_worker t with AtWait Awake | InSemWait Awake | LoopTop | Chosen _ | HasLeft => True | _ => False end.

Lemma stop_signal_stopping t t' : thread_inv t -> pt_running t = true -> puller_stop_signal t = Some t' ->
  stopping t' /\ (stop_rank t' <= 2)%nat.
Proof.
  intros [Hr _ _ _] E [Hm ->]%locked_some. rewrite E. specialize (Hr E). unfold mutex_free in Hm. unfold stopping, stop_rank, notify.
  at_worker t; simpl in *; try done; rewrite ?Heqt0; simpl; (split; [done|lia]).
Qed.
Lemma notify_stopping t : stopping t -> stopping (notify t) /\ stop_rank (notify t) = stop_rank t.
Proof. intros [Hr Hw]. unfold stopping, stop_rank, notify. simpl. by at_worker t. Qed.
Lemma notified_stopping t t' : pt_running t' = pt_running t -> pt_worker t' = pt_worker t -> stopping t ->
  stopping (notify t') /\ stop_rank (notify t') = stop_rank t.
Proof.
  intros E1 E2 [Hr Hw]. destruct (notify_stopping t') as [H1 H2]; [unfold stopping; by rewrite E1, E2|].
  split; [done|]. rewrite H2. unfold stop_rank. by rewrite E2.
Qed.
Lemma same_stopping t t' : pt_running t' = pt_running t -> pt_worker t' = pt_worker t -> stopping t ->
  stopping t' /\ stop_rank t' = stop_rank t.
Proof. intros E1 E2 [Hr Hw]. unfold stopping, stop_rank. by rewrite E1, E2. Qed.

Lemma iteration_stopping st t : pt_running t = false -> pt_running (iteration st t) = false /\ pt_worker (iteration st t) = LoopTop.
Proof.
  intros Hr. unfold iteration. destruct st; try done. destruct (truthy _); [done|].
  destruct (waitSemaphore (pt_sim t)) as [[r|] s1]; [done|]. by rewrite Hr.
Qed.
Lemma stopping_worker t t' : stopping t -> puller_worker_step t = Some t' -> stopping t' /\ stop_rank t = S (stop_rank t').
Proof.
  intros [Hr Hw] Hstep. unfold puller_worker_step in Hstep. rewrite Hr in Hstep. unfold stopping, stop_rank.
  at_worker t; try done; simpl in Hstep; try by simplify_eq.
  - injection Hstep as <-. destruct (iteration_stopping st t Hr) as [-> ->]. done.
  - destruct (sem_reached (pt_sim t)); by simplify_eq.
Qed.
Lemma stopping_progress t : stopping t ->
  mutex_free t = true /\ ((exists t', puller_worker_step t = Some t') \/ stop_rank t = 0%nat /\ is_Some (puller_stop_join t)).
Proof.
  intros [Hr Hw]. unfold puller_worker_step, stop_rank, puller_stop_join, mutex_free. rewrite Hr. at_worker t; try done; simpl; (split; [done|]); eauto.
  left. destruct (sem_reached (pt_sim t)); eauto.
Qed.

Definition is_worker (e : thread_event) : bool := match e with EvWorker => true | _ => false end.
(** Anything but the life cycle of the thread. *)
Definition no_restart (e : thread_event) : bool := match e with EvStart | EvStopSignal | EvStopJoin => false | _ => true end.
Definition worker_count (es : list thread_event) : nat := length (filter (fun e => is_worker e) es).

Lemma stopping_client e t t' : stopping t -> no_restart e = true -> is_worker e = false -> thread_step e t = Some t' ->
  stopping t' /\ stop_rank t' = stop_rank t.
Proof.
  intros Ht Hn Hw. destruct e as [|id| |i|a v|a n f|a v| | | |]; try done; simpl.
  - intros [= <-]. apply same_stopping; [| |done]; unfold ring_call; by destruct (_ <=? _).
  - intros [= <-]. by apply same_stopping.
  - unfold bell_step. destruct (pt_calls t !! i) as [[]|]; [| |done].
    + intros [= <-]. by apply same_stopping.
    + intros [_ ->]%locked_some. by apply notified_stopping.
  - intros [_ ->]%locked_some. unfold signal_call.
    destruct (_ && _); [by apply notified_stopping|by apply same_stopping].
  - unfold submit_call. destruct (channel_mgr _); [intros [= <-]; by apply same_stopping|].
    intros [_ ->]%locked_some. by apply same_stopping.
  - intros [= <-]. by apply same_stopping.
  - intros [= <-]. by apply notify_stopping.
Qed.

Lemma stopping_run es t t' : stopping t -> forallb no_restart es = true -> thread_run es t = Some t' ->
  stopping t' /\ (stop_rank t' + worker_count es = stop_rank t)%nat.
Proof.
  revert t. induction es as [|e es IH]; intros t Ht He Hrun.
  - simpl in Hrun. simplify_eq. split; [done|]. cbn. lia.
  - cbn [forallb] in He. apply andb_prop in He as [He1 He2]. cbn [thread_run] in Hrun.
    destruct (thread_step e t) as [u|] eqn:Eu; [|done]. cbn [mbind option_bind] in Hrun.
    unfold worker_count in *. destruct (is_worker e) eqn:Ew.
    + destruct e; try done. destruct (stopping_worker t u Ht Eu) as (Hu & Hk). destruct (IH u Hu He2 Hrun) as (H1 & H2).
      split; [done|]. rewrite filter_cons_True by done. cbn [length]. lia.
    + destruct (stopping_client e t u Ht He1 Ew Eu) as (Hu & Hk). destruct (IH _ Hu He2 Hrun) as (H1 & H2).
      split; [done|]. rewrite filter_cons_False by (by rewrite Ew; intros []). lia.
Qed.

(** C6. [stop] returns: once it has cleared the flag, in its critical section,
    the worker never sleeps again and is never blocked until it has ended; it
    ends in at most two of its own steps whatever the clients do meanwhile, and
    then the join goes on. *)
Theorem stop_terminates es t t0 t' :
  thread_inv t -> pt_running t = true -> puller_stop_signal t = Some t0 ->
  forallb no_restart es = true -> thread_run es t0 = Some t' ->
  (worker_count es <= 2)%nat /\
  ((exists u, puller_worker_step t' = Some u) \/ pt_worker t' = HasLeft /\ is_Some (puller_stop_join t')).
Proof.
  intros Ht Hr Hsig He Hrun. destruct (stop_signal_stopping t t0 Ht Hr Hsig) as (Hst & Hle).
  destruct (stopping_run es _ t' Hst He Hrun) as (Hst' & Heq). split; [lia|].
  destruct (stopping_progress t' Hst') as [_ [?|(Hz & Hj)]]; [by left|right]. split; [|done].
  unfold puller_stop_join in Hj. by destruct (pt_worker t'), Hj.
Qed.

(** A [start] before the join of an earlier [stop] assigns to a thread object
    that is still joinable, which ends the process. *)
Lemma start_during_stop t t' : thread_inv t -> pt_running t = true -> puller_stop_signal t = Some t' -> puller_start t' = None.
Proof.
  intros [Hr _ _ Hj] E [_ ->]%locked_some. specialize (Hr E). rewrite E. unfold puller_start. simpl.
  destruct (pt_joinable t); [by destruct (mutex_free _)|]. by rewrite (proj1 Hj eq_refl) in Hr.
Qed.

(** A value written to memory does not wake a worker that waits for it: only
    [signalSemaphore], a doorbell and [stop] notify. *)
Lemma memory_write_does_not_wake a v t t' : pt_worker t = InSemWait Asleep ->
  thread_step (EvMemWrite a v) t = Some t' -> puller_worker_step t' = None.
Proof. intros Hw [= <-]. unfold puller_worker_step. simpl. by rewrite Hw. Qed.

(** Without a channel manager a submission leaves the worker asleep. *)
Lemma submit_does_not_wake a n f t t' : channel_mgr (pt_sim t) = None -> pt_worker t = AtWait Asleep ->
  submit_call a n f t = Some t' -> puller_worker_step t' = None /\ pt_calls t' = pt_calls t.
Proof.
  intros Hm Hw. unfold submit_call. rewrite Hm. intros [_ ->]%locked_some. unfold puller_worker_step. simpl. by rewrite Hw.
Qed.
End Thread.

(** A puller of the user-space HAL, idle and without work. *)
From S2P Require Import HalUser.
Definition idle_sim : Sim hal_user_context := demo_sim <| pl ::= transitionTo IDLE |>.
(** The batch is submitted, and a doorbell rung while the worker is about to
    sleep: its store comes before the worker sleeps, its notification after. *)
Definition demo_events : list thread_event :=
  [EvStart; EvSubmit HAL_HEAP_BASE 2 SIM_FENCE_ID_BASE; EvWorker; EvWorker; EvRing 0; EvBell 0; EvWorker].

(** The notification wakes the worker, which runs the batch of two launches,
    signals its fence and goes to sleep again. *)
Definition worker_view (t : PullerThread hal_user_context) :=
  (pt_worker t, state (pl (pt_sim t)), (sim_fence_id_check SIM_FENCE_ID_BASE true (fences (pt_sim t))).2).
Example doorbell_runs_batch :
  worker_view <$> thread_run zero_entry (demo_events ++ EvBell 0 :: replicate 41 EvWorker) (new_thread idle_sim) =
    Some (AtWait Asleep, IDLE, Some true).
Proof. vm_compute. reflexivity. Qed.


(** The worker asleep in its wait is stopped. *)
Definition sleeping_thread : PullerThread hal_user_context := PT_ idle_sim true (AtWait Asleep) true [].
Lemma stop_terminates_witness : exists t0 t,
  puller_stop_signal sleeping_thread = Some t0 /\
  thread_run zero_entry [EvSpurious; EvWorker] t0 = Some t /\
  pt_worker t = HasLeft /\ is_Some (puller_stop_join t).
Proof.
  exists (sleeping_thread <| pt_running := false |> <| pt_worker := AtWait Awake |>),
    (sleeping_thread <| pt_running := false |> <| pt_worker := HasLeft |>). split; [reflexivity|]. split; [reflexivity|].
  destruct (stop_terminates zero_entry [EvSpurious; EvWorker] sleeping_thread
    (sleeping_thread <| pt_running := false |> <| pt_worker := AtWait Awake |>)
    (sleeping_thread <| pt_running := false |> <| pt_worker := HasLeft |>)) as (_ & [[u Hu]|Hl]); try reflexivity.
  - by split.
  - done.
  - exact Hl.
Defined.
