(* ===== verification/MemPool.v ===== *)
(** * Memory pools and the device address space

    [plugins/gpu_driver/sim/mem_pool.cpp] and [sim/sim_device_va_allocator.cpp]:
    every pool owns a range of the device address space, taken from one buddy
    allocator, and hands out blocks of it with a buddy allocator of its own.
    The state is the device allocator ([None] before its lazy initialisation),
    the pool table and the fence table.  What [mmap] and [pipe2] answer is an
    argument of the operations that call them. *)
From S2P Require Import Prelude Bytes GpuTypes FenceId Buddy BuddySafe.

Definition SIM_DEVICE_VA_BASE : Z := 94557999988736.  (* 0x560000000000 *)
Definition SIM_DEVICE_VA_SIZE : Z := 17179869184.     (* 16 GiB *)

Definition SIM_POOL_ERR_OK : Z := 0.
Definition SIM_POOL_ERR_INVALID_HANDLE : Z := -1.
Definition SIM_POOL_ERR_NOSPC : Z := -2.
Definition SIM_POOL_ERR_INVAL : Z := -3.
Definition SIM_POOL_ERR_NOT_SUPPORTED : Z := -4.
Definition SIM_MEM_POOL_ATTR_RELEASE_THRESHOLD : Z := 1.
Definition SIM_MEM_POOL_ATTR_REUSE_FOLLOW_EVENT_DEPENDENCIES : Z := 2.

(** The [props] argument of create. *)
Record pool_props := mk_props { pp_va_space_handle : Z; pp_size : Z; pp_flags : Z }.

Record PoolTableEntry := mk_pool {
  props : pool_props;
  va_base : Z;
  va_limit : Z;
  allocated : gmap Z Z;             (* VA -> size *)
  release_threshold : Z;
  follow_event_deps : Z;
  mmap_size : Z;
  pool_buddy_ : gpu_buddy
}.
#[export] Instance eta_pool : Eta PoolTableEntry := fun p =>
  mk_pool (props p) (va_base p) (va_limit p) (allocated p) (release_threshold p)
    (follow_event_deps p) (mmap_size p) (pool_buddy_ p).

Record mempool_state := mk_mempool {
  device_buddy_ : option gpu_buddy;
  pool_table_ : gmap Z PoolTableEntry;
  next_pool_handle_ : Z;
  mp_fences : fence_state
}.
#[export] Instance eta_mempool : Eta mempool_state := fun s =>
  mk_mempool (device_buddy_ s) (pool_table_ s) (next_pool_handle_ s) (mp_fences s).
Definition init_mempool (fences : fence_state) : mempool_state := mk_mempool None ∅ 1 fences.

Definition PAGE_MASK : Z := UINT64_MAX - 4095.
Definition align_up_4k (x : Z) : Z := Z.land (u64 (x + 4095)) PAGE_MASK.

(** ** The device address space *)
Definition device_buddy (s : mempool_state) : gpu_buddy :=
  default (gpu_buddy_init SIM_DEVICE_VA_BASE SIM_DEVICE_VA_SIZE) (device_buddy_ s).
Definition sim_device_va_alloc (size : Z) (s : mempool_state) : Z * option Z * mempool_state :=
  if size =? 0 then (- EINVAL, None, s)
  else if SIM_DEVICE_VA_SIZE <? size then (- ENOMEM, None, s)
  else let '(rc, addr, b) := gpu_buddy_alloc size (device_buddy s) in
       (rc, addr, s <| device_buddy_ := Some b |>).
Definition sim_device_va_free (base : Z) (s : mempool_state) : Z * mempool_state :=
  match device_buddy_ s with
  | None => (- EINVAL, s)
  | Some b => let '(rc, b) := gpu_buddy_free base b in (rc, s <| device_buddy_ := Some b |>)
  end.
Definition sim_device_va_reset_for_test (s : mempool_state) : mempool_state :=
  s <| device_buddy_ ::= fmap gpu_buddy_reset |>.

(** ** Pools *)
Definition new_pool (p : pool_props) (base size : Z) : PoolTableEntry :=
  mk_pool p base (u64 (base + pp_size p)) ∅ 0 0 size (gpu_buddy_init base size).

(** The handle and the range, or the error; [mmap_ok]: the mapping of the
    range succeeds.  Handles count up from 1, so the table has no entry at the
    new one. *)
Definition sim_mem_pool_create (p : pool_props) (out mmap_ok : bool) (s : mempool_state) :
    Z * option (Z * Z * Z) * mempool_state :=
  if negb out then (SIM_POOL_ERR_INVAL, None, s)
  else if pp_size p =? 0 then (SIM_POOL_ERR_INVAL, None, s)
  else
    let size := align_up_4k (pp_size p) in
    match sim_device_va_alloc size s with
    | (0, Some base, s) =>
        if negb mmap_ok then (SIM_POOL_ERR_NOSPC, None, (sim_device_va_free base s).2)
        else
          let h := next_pool_handle_ s in
          (SIM_POOL_ERR_OK, Some (h, base, u64 (base + pp_size p)),
           s <| next_pool_handle_ := u64 (h + 1) |>
             <| pool_table_ ::= <[h := new_pool p base size]> |>)
    | (_, _, s) => (SIM_POOL_ERR_NOSPC, None, s)
    end.

Definition sim_mem_pool_destroy (h : Z) (s : mempool_state) : Z * mempool_state :=
  match pool_table_ s !! h with
  | None => (SIM_POOL_ERR_INVALID_HANDLE, s)
  | Some p => (SIM_POOL_ERR_OK,
      (sim_device_va_free (va_base p) s).2 <| pool_table_ ::= delete h |>)
  end.

Definition put_pool (h : Z) (p : PoolTableEntry) (s : mempool_state) : mempool_state :=
  s <| pool_table_ ::= <[h := p]> |>.

Definition sim_mem_pool_alloc (h size : Z) (out : bool) (s : mempool_state) :
    Z * option Z * mempool_state :=
  if negb out then (SIM_POOL_ERR_INVAL, None, s)
  else match pool_table_ s !! h with
       | None => (SIM_POOL_ERR_INVALID_HANDLE, None, s)
       | Some p =>
           if size =? 0 then (SIM_POOL_ERR_INVAL, None, s)
           else
             let aligned := align_up_4k size in
             match gpu_buddy_alloc aligned (pool_buddy_ p) with
             | (0, Some addr, b) =>
                 (SIM_POOL_ERR_OK, Some addr,
                  put_pool h (p <| pool_buddy_ := b |> <| allocated ::= <[addr := aligned]> |>) s)
             | (_, _, b) => (SIM_POOL_ERR_NOSPC, None, put_pool h (p <| pool_buddy_ := b |>) s)
             end
       end.

(** A fresh fence, signalled at once: its id, or [-ENOMEM]. *)
Definition signaled_fence (s : mempool_state) : Z * mempool_state :=
  let '(f, fs) := sim_fence_id_alloc (mp_fences s) in
  if f <? 0 then (- ENOMEM, s <| mp_fences := fs |>)
  else (f, s <| mp_fences := (sim_fence_id_signal f fs).2 |>).

Definition sim_mem_pool_alloc_async (h size stream_id : Z) (out : bool) (s : mempool_state) :
    Z * option Z * mempool_state :=
  match sim_mem_pool_alloc h size out s with
  | (rc, va, s) =>
      if negb (rc =? SIM_POOL_ERR_OK) then (rc, va, s)
      else let '(f, s) := signaled_fence s in (f, va, s)
  end.

(** The pools in handle order; the first whose range holds [va]. *)
Definition pool_handles (s : mempool_state) : list Z :=
  merge_sort Z.le (elements (dom (pool_table_ s))).
Definition in_range (va : Z) (s : mempool_state) (h : Z) : bool :=
  match pool_table_ s !! h with
  | Some p => negb ((va <? va_base p) || (va_limit p <=? va))
  | None => false
  end.
Definition sim_mem_pool_free_async (va stream_id : Z) (s : mempool_state) : Z * mempool_state :=
  match List.find (in_range va s) (pool_handles s) with
  | None => (SIM_POOL_ERR_INVALID_HANDLE, s)
  | Some h =>
      match pool_table_ s !! h with
      | None => (SIM_POOL_ERR_INVALID_HANDLE, s)
      | Some p =>
          match allocated p !! va with
          | None => (SIM_POOL_ERR_INVALID_HANDLE, s)
          | Some _ =>
              signaled_fence (put_pool h
                (p <| pool_buddy_ ::= fun b => (gpu_buddy_free va b).2 |>
                   <| allocated ::= delete va |>) s)
          end
      end
  end.

(** Attribute values are byte buffers. *)
Definition sim_mem_pool_set_attr (h attr : Z) (value : option (list Z)) (s : mempool_state) :
    Z * mempool_state :=
  match value with
  | None => (SIM_POOL_ERR_INVAL, s)
  | Some bs =>
      let n := Z.of_nat (length bs) in
      if (n =? 0) || (32 <? n) then (SIM_POOL_ERR_INVAL, s)
      else match pool_table_ s !! h with
           | None => (SIM_POOL_ERR_INVALID_HANDLE, s)
           | Some p =>
               if attr =? SIM_MEM_POOL_ATTR_RELEASE_THRESHOLD then
                 if negb (n =? 8) then (SIM_POOL_ERR_INVAL, s)
                 else (SIM_POOL_ERR_OK, put_pool h (p <| release_threshold := le_val bs |>) s)
               else if attr =? SIM_MEM_POOL_ATTR_REUSE_FOLLOW_EVENT_DEPENDENCIES then
                 if negb (n =? 4) then (SIM_POOL_ERR_INVAL, s)
                 else (SIM_POOL_ERR_OK, put_pool h (p <| follow_event_deps := le_val bs |>) s)
               else (SIM_POOL_ERR_NOT_SUPPORTED, s)
           end
  end.
Definition sim_mem_pool_get_attr (h attr : Z) (out : bool) (n : Z) (s : mempool_state) :
    Z * option (list Z) :=
  if negb out || (n =? 0) || (32 <? n) then (SIM_POOL_ERR_INVAL, None)
  else match pool_table_ s !! h with
       | None => (SIM_POOL_ERR_INVALID_HANDLE, None)
       | Some p =>
           if attr =? SIM_MEM_POOL_ATTR_RELEASE_THRESHOLD then
             if negb (n =? 8) then (SIM_POOL_ERR_INVAL, None)
             else (SIM_POOL_ERR_OK, Some (le_bytes 8 (release_threshold p)))
           else if attr =? SIM_MEM_POOL_ATTR_REUSE_FOLLOW_EVENT_DEPENDENCIES then
             if negb (n =? 4) then (SIM_POOL_ERR_INVAL, None)
             else (SIM_POOL_ERR_OK, Some (le_bytes 4 (follow_event_deps p)))
           else (SIM_POOL_ERR_NOT_SUPPORTED, None)
       end.

Definition sim_mem_pool_trim (h min_bytes : Z) (s : mempool_state) : Z :=
  match pool_table_ s !! h with None => SIM_POOL_ERR_INVALID_HANDLE | Some _ => SIM_POOL_ERR_OK end.

Definition sim_mem_pool_reset_for_test (s : mempool_state) : mempool_state :=
  sim_device_va_reset_for_test (s <| pool_table_ := ∅ |> <| next_pool_handle_ := 1 |>).

(** [pipe] is the read end [pipe2] made, or its error; the pipe carries the
    pool's handle. *)
Definition sim_mem_pool_export_shareable (h handle_type flags : Z) (out : bool) (pipe : Z)
    (s : mempool_state) : Z * option (Z * Z) :=
  if negb out then (SIM_POOL_ERR_INVAL, None)
  else if negb (flags =? 0) then (SIM_POOL_ERR_INVAL, None)
  else if negb (handle_type =? 1) then (SIM_POOL_ERR_INVAL, None)
  else match pool_table_ s !! h with
       | None => (SIM_POOL_ERR_INVALID_HANDLE, None)
       | Some _ => if pipe <? 0 then (pipe, None) else (SIM_POOL_ERR_OK, Some (pipe, h))
       end.

(** ** Lemmas *)
Lemma land_page_mask x : is_u64 x -> Z.land x PAGE_MASK = x / 4096 * 4096.
Proof.
  intros Hx. change 4096 with (2 ^ 12). rewrite <- Z.shiftr_div_pow2, <- Z.shiftl_mul_pow2 by lia.
  change PAGE_MASK with (Z.shiftl (Z.ones 52) 12). apply Z.bits_inj'. intros i Hi.
  rewrite Z.land_spec, !Z.shiftl_spec by lia. destruct (Z.lt_ge_cases i 12).
  - rewrite !(Z.testbit_neg_r _ (i - 12)) by lia. apply andb_false_r.
  - rewrite Z.shiftr_spec by lia. replace (i - 12 + 12) with i by lia.
    destruct (Z.lt_ge_cases i 64).
    + rewrite Z.ones_spec_low by lia. apply andb_true_r.
    + rewrite Z.ones_spec_high by lia. rewrite andb_false_r. symmetry.
      apply (proj1 (Z.bounded_iff_bits_nonneg 64 x ltac:(lia) ltac:(lia)) ltac:(lia) i). lia.
Qed.

Lemma align_up_range x : is_u64 (align_up_4k x).
Proof.
  unfold align_up_4k. pose proof (u64_range (x + 4095)). rewrite land_page_mask by done.
  Z.div_mod_to_equations. lia.
Qed.
Lemma align_up_spec x : 0 <= x <= 2 ^ 63 -> align_up_4k x = (x + 4095) / 4096 * 4096.
Proof. intros Hx. unfold align_up_4k. rewrite u64_id by lia. apply land_page_mask. lia. Qed.
Abbreviation buddy_live := BuddySafe.live (only parsing).

Lemma buddy_disjoint B M b x y :
  reachable B M b -> x ∈ buddy_live b -> y ∈ buddy_live b -> x <> y -> disj x y.
Proof.
  intros Hr Hx Hy Hne. pose proof (reachable_inv _ _ _ Hr) as [_ _ _ _ [Hp _] _ _].
  simpl in Hp. fold (buddy_live b) in Hp. eapply pairwise_elem; [exact Hp| | |done];
    apply elem_of_app; by right.
Qed.
Lemma buddy_in_pool B M b x : reachable B M b -> x ∈ buddy_live b -> in_pool B M x.
Proof.
  intros Hr Hx. pose proof (reachable_inv _ _ _ Hr) as [_ _ _ _ [_ Hp] _ _].
  simpl in Hp. fold (buddy_live b) in Hp. rewrite Forall_forall in Hp. apply Hp.
  apply elem_of_app. by right.
Qed.
(** Blocks at one address are one block. *)
Lemma buddy_same_addr B M b a o o' :
  reachable B M b -> (a, o) ∈ buddy_live b -> (a, o') ∈ buddy_live b -> o = o'.
Proof.
  intros Hr H1 H2. destruct (Z.eq_dec o o') as [|Hne]; [done|exfalso].
  destruct (buddy_in_pool _ _ _ _ Hr H1) as ([Ho _] & _), (buddy_in_pool _ _ _ _ Hr H2) as ([Ho' _] & _).
  assert (Hd : disj (a, o) (a, o')) by (apply (buddy_disjoint B M b); congruence).
  simpl in *. pose proof (sz_pos o Ho). pose proof (sz_pos o' Ho'). unfold disj in Hd. simpl in Hd. lia.
Qed.
(** ... and they occur once. *)
Lemma buddy_fresh B M b b' a o :
  reachable B M b' -> buddy_live b' ≡ₚ (a, o) :: buddy_live b -> a ∉ (buddy_live b).*1.
Proof.
  intros Hr Hl Hin. apply list_elem_of_fmap in Hin as ([a' o'] & -> & Hin). simpl in *.
  pose proof (reachable_inv _ _ _ Hr) as [_ _ _ _ Hg _ _]. simpl in Hg. fold (buddy_live b') in Hg.
  apply (good_perm _ _ _ ((a', o) :: buddy_live b ++ free_blocks b')) in Hg.
  2: by rewrite Hl, Permutation_app_comm.
  destruct Hg as [[Hd _] Hp]. rewrite Forall_forall in Hd, Hp.
  assert (Hin' : (a', o') ∈ buddy_live b ++ free_blocks b') by (apply elem_of_app; by left).
  specialize (Hd _ Hin'). destruct (Hp (a', o) ltac:(left)) as ([Ho _] & _).
  destruct (Hp (a', o') ltac:(by right)) as ([Ho' _] & _). simpl in *.
  pose proof (sz_pos o Ho). pose proof (sz_pos o' Ho'). unfold disj in Hd. simpl in Hd. lia.
Qed.

(** What a pool guarantees, given the blocks [dev] of the device allocator. *)
Record pool_ok (dev : list block) (p : PoolTableEntry) : Prop := {
  po_buddy : reachable (va_base p) (order_of (mmap_size p)) (pool_buddy_ p);
  po_block : (va_base p, order_of (mmap_size p)) ∈ dev;
  po_allocated : forall va, is_Some (allocated p !! va) <-> va ∈ (buddy_live (pool_buddy_ p)).*1;
  po_size : forall va n, allocated p !! va = Some n ->
    exists o, (va, o) ∈ buddy_live (pool_buddy_ p) /\ 0 <= n /\ (n <= sz 21 -> n <= sz o)
}.

Record mp_ok (s : mempool_state) : Prop := {
  mo_device : reachable SIM_DEVICE_VA_BASE 21 (device_buddy s);
  mo_pools : forall h p, pool_table_ s !! h = Some p -> pool_ok (buddy_live (device_buddy s)) p;
  mo_distinct : forall h h' p p', pool_table_ s !! h = Some p -> pool_table_ s !! h' = Some p' ->
    h <> h' -> va_base p <> va_base p'
}.

Lemma device_geo : geo SIM_DEVICE_VA_BASE 21.
Proof. by repeat split; vm_compute. Qed.

Lemma mp_ok_init f : mp_ok (init_mempool f).
Proof.
  split; [|intros h p Hp; by (simpl in Hp; rewrite lookup_empty in Hp)|intros h h' p p' Hp; by (simpl in Hp; rewrite lookup_empty in Hp)].
  unfold device_buddy. simpl. change 21 with (pool_order SIM_DEVICE_VA_SIZE).
  apply reachable_init. apply device_geo.
Qed.

Lemma new_pool_ok dev p base size :
  0 < size <= 2 ^ 34 -> geo base (order_of size) -> (base, order_of size) ∈ dev ->
  pool_ok dev (new_pool p base size).
Proof.
  intros Hs Hg Hin. pose proof (pool_order_request size Hs) as Ho.
  pose proof (init_inv base size ltac:(by rewrite Ho)) as [_ Hl].
  split; simpl; [|done| |].
  - rewrite <- Ho. apply reachable_init. by rewrite Ho.
  - intros va. rewrite Hl, lookup_empty. simpl. split; [by intros []|by intros ?%not_elem_of_nil].
  - intros va n Hn. by rewrite lookup_empty in Hn.
Qed.

Lemma pool_ok_dev dev dev' p :
  pool_ok dev p -> (va_base p, order_of (mmap_size p)) ∈ dev' -> pool_ok dev' p.
Proof. intros [] ?. by split. Qed.

(** A block of the device allocator gives a pool its geometry. *)
Lemma device_block_geo s a o :
  mp_ok s -> (a, o) ∈ buddy_live (device_buddy s) -> geo a o.
Proof.
  intros Hok Hin. destruct (buddy_in_pool _ _ _ _ (mo_device s Hok) Hin) as (Ho & H1 & H2 & _).
  simpl in *. destruct device_geo as (H3 & _ & H4). repeat split; try lia; simpl.
Qed.

(** The device allocator keeps its invariant; the blocks it hands out are new. *)
Lemma device_alloc_spec s size :
  mp_ok s -> 0 <= size ->
  match sim_device_va_alloc size s with
  | (rc, Some a, s') => rc = 0 /\ 0 < size <= 2 ^ 34 /\
      reachable SIM_DEVICE_VA_BASE 21 (device_buddy s') /\
      buddy_live (device_buddy s') ≡ₚ (a, order_of size) :: buddy_live (device_buddy s) /\
      pool_table_ s' = pool_table_ s /\ next_pool_handle_ s' = next_pool_handle_ s /\
      mp_fences s' = mp_fences s
  | (rc, None, s') => rc <> 0 /\ mp_ok s' /\ pool_table_ s' = pool_table_ s /\
      mp_fences s' = mp_fences s
  end.
Proof.
  intros Hok Hs. unfold sim_device_va_alloc. destruct (Z.eqb_spec size 0) as [|Hn0]; [done|].
  destruct (Z.ltb_spec SIM_DEVICE_VA_SIZE size) as [|Hmax]; [done|].
  unfold SIM_DEVICE_VA_SIZE in Hmax. pose proof (mo_device s Hok) as Hr.
  pose proof (alloc_inv _ _ size _ (reachable_inv _ _ _ Hr) ltac:(lia)) as H.
  pose proof (reachable_step _ _ _ (OAlloc size) ltac:(simpl; lia) Hr) as Hr'. simpl in Hr'.
  destruct (gpu_buddy_alloc size (device_buddy s)) as [[rc [a|]] b]; simpl in Hr'.
  - destruct H as (-> & _ & Hl). split; [done|]. split; [lia|]. done.
  - destruct H as (-> & _ & Hl). split; [done|]. split; [|done]. split; [done| |apply (mo_distinct s Hok)].
    intros h p Hp. change (device_buddy (s <| device_buddy_ := Some b |>)) with b. rewrite Hl.
    by apply (mo_pools s Hok h).
Qed.

Lemma device_free_spec s a :
  reachable SIM_DEVICE_VA_BASE 21 (device_buddy s) ->
  let s' := (sim_device_va_free a s).2 in
  reachable SIM_DEVICE_VA_BASE 21 (device_buddy s') /\ pool_table_ s' = pool_table_ s /\
  next_pool_handle_ s' = next_pool_handle_ s /\ mp_fences s' = mp_fences s /\
  forall x, x.1 <> a -> x ∈ buddy_live (device_buddy s) -> x ∈ buddy_live (device_buddy s').
Proof.
  intros Hr. unfold sim_device_va_free. destruct (device_buddy_ s) as [b|] eqn:E; [|done].
  assert (Hb : device_buddy s = b) by (unfold device_buddy; by rewrite E). rewrite Hb in *.
  pose proof (free_inv _ _ a _ (reachable_inv _ _ _ Hr)) as H.
  pose proof (reachable_step _ _ _ (OFree a) I Hr) as Hr'. simpl in Hr'.
  destruct (gpu_buddy_free a b) as [rc b'] eqn:Ef. simpl in *.
  change (device_buddy (s <| device_buddy_ := Some b' |>)) with b'. do 4 (split; [done|]).
  intros [c o] Hc Hin. destruct (find_record a b) as [r|].
  - destruct H as (b2 & E2 & _ & Hl). simplify_eq. rewrite Hl in Hin.
    apply elem_of_cons in Hin as [Hin|]; [|done]. injection Hin as -> ->. done.
  - destruct H as [E2 _]. by simplify_eq.
Qed.

(** A change of the device blocks and the pool table. *)
Lemma mp_ok_sub s s' :
  mp_ok s -> reachable SIM_DEVICE_VA_BASE 21 (device_buddy s') ->
  (forall h p, pool_table_ s' !! h = Some p -> pool_table_ s !! h = Some p /\
     (va_base p, order_of (mmap_size p)) ∈ buddy_live (device_buddy s')) -> mp_ok s'.
Proof.
  intros Hok Hr Hsub. split; [done| |].
  - intros h p Hp. destruct (Hsub h p Hp) as [H1 H2]. eapply pool_ok_dev; [|done].
    by apply (mo_pools s Hok h).
  - intros h h' p p' Hp Hp' Hne. apply (mo_distinct s Hok h h' p p'); [apply Hsub, Hp|apply Hsub, Hp'|done].
Qed.

Lemma create_ok s p out mmap_ok : mp_ok s -> mp_ok (sim_mem_pool_create p out mmap_ok s).2.
Proof.
  intros Hok. unfold sim_mem_pool_create. destruct out; [|done]. simpl.
  destruct (pp_size p =? 0); [done|]. set (size := align_up_4k (pp_size p)).
  pose proof (device_alloc_spec s size Hok ltac:(apply align_up_range)) as H.
  destruct (sim_device_va_alloc size s) as [[rc [a|]] s1]; [|destruct H as (_ & H & _); by destruct rc].
  destruct H as (-> & Hs & Hr & Hl & Ht & _ & _).
  assert (Hfresh : forall h q, pool_table_ s !! h = Some q -> va_base q <> a /\
            (va_base q, order_of (mmap_size q)) ∈ buddy_live (device_buddy s)).
  { intros h q Hq. pose proof (po_block _ _ (mo_pools s Hok h q Hq)) as Hin. split; [|done].
    intros <-. eapply buddy_fresh; [exact Hr|exact Hl|]. apply list_elem_of_fmap. by exists (va_base q, order_of (mmap_size q)). }
  destruct mmap_ok; simpl.
  - split; simpl.
    + exact Hr.
    + intros h q. change (device_buddy (_ <| pool_table_ ::= _ |>)) with (device_buddy s1).
      rewrite Ht. destruct (decide (h = next_pool_handle_ s1)) as [->|Hne].
      * rewrite lookup_insert_eq. intros [= <-]. apply new_pool_ok; [done| |rewrite Hl; left].
        destruct (buddy_in_pool _ _ _ (a, order_of size) Hr ltac:(rewrite Hl; left)) as (Ho & H1 & H2 & _).
        simpl in *. destruct device_geo as (H3 & _ & H4). repeat split; simpl; lia.
      * rewrite lookup_insert_ne by done. intros Hq. eapply pool_ok_dev; [by apply (mo_pools s Hok h)|].
        rewrite Hl. right. by destruct (Hfresh h q Hq).
    + rewrite Ht. intros h h' q q' Hq Hq' Hne.
      destruct (decide (h = next_pool_handle_ s1)) as [->|H1], (decide (h' = next_pool_handle_ s1)) as [->|H2]; [done| | |].
      * rewrite lookup_insert_eq in Hq. rewrite lookup_insert_ne in Hq' by done. simplify_eq. simpl.
        intros E. by destruct (Hfresh _ _ Hq').
      * rewrite lookup_insert_eq in Hq'. rewrite lookup_insert_ne in Hq by done. simplify_eq. simpl.
        by destruct (Hfresh _ _ Hq).
      * rewrite lookup_insert_ne in Hq, Hq' by done. by apply (mo_distinct s Hok h h').
  - destruct (device_free_spec s1 a Hr) as (R1 & R2 & _ & _ & R3). eapply mp_ok_sub; [exact Hok|done|].
    rewrite R2, Ht. intros h q Hq. split; [done|]. destruct (Hfresh h q Hq) as [Hne Hin].
    apply R3; [done|]. rewrite Hl. by right.
Qed.

Lemma destroy_ok s h : mp_ok s -> mp_ok (sim_mem_pool_destroy h s).2.
Proof.
  intros Hok. unfold sim_mem_pool_destroy. destruct (pool_table_ s !! h) as [p|] eqn:E; [|done]. simpl.
  destruct (device_free_spec s (va_base p) (mo_device s Hok)) as (R1 & R2 & _ & _ & R3).
  eapply mp_ok_sub; [exact Hok|done|]. simpl. rewrite R2. intros h' q Hq.
  apply lookup_delete_Some in Hq as [Hne Hq]. split; [done|].
  apply R3; [by apply (mo_distinct s Hok h' h q p)|]. apply (mo_pools s Hok h' q Hq).
Qed.

(** Replacing a pool by one with the same range. *)
Lemma put_pool_ok s h p p' :
  mp_ok s -> pool_table_ s !! h = Some p -> va_base p' = va_base p ->
  pool_ok (buddy_live (device_buddy s)) p' -> mp_ok (put_pool h p' s).
Proof.
  intros Hok Hp Hb Hp'. split; simpl; [apply (mo_device s Hok)| |].
  - intros h' q Hq. change (device_buddy (put_pool h p' s)) with (device_buddy s).
    apply lookup_insert_Some in Hq as [[-> <-]|[_ Hq]]; [done|]. by apply (mo_pools s Hok h').
  - intros h1 h2 q1 q2 Hq1 Hq2 Hne.
    apply lookup_insert_Some in Hq1 as [[<- <-]|[_ Hq1]], Hq2 as [[<- <-]|[_ Hq2]]; [done| | |].
    + rewrite Hb. by apply (mo_distinct s Hok h h2).
    + rewrite Hb. by apply (mo_distinct s Hok h1 h).
    + by apply (mo_distinct s Hok h1 h2).
Qed.

Lemma pool_alloc_ok dev p n :
  pool_ok dev p -> is_u64 n ->
  match gpu_buddy_alloc n (pool_buddy_ p) with
  | (rc, Some a, b) => rc = 0 /\ allocated p !! a = None /\
      pool_ok dev (p <| pool_buddy_ := b |> <| allocated ::= <[a := n]> |>)
  | (rc, None, b) => rc = -1 /\ pool_ok dev (p <| pool_buddy_ := b |>)
  end.
Proof.
  intros [Hr Hb Ha Hs] Hn. destruct (Z.eq_dec n 0) as [->|Hn0]; [by split|].
  pose proof (alloc_inv_any _ _ n _ (reachable_inv _ _ _ Hr) ltac:(lia)) as H.
  pose proof (reachable_step _ _ _ (OAlloc n) ltac:(simpl; lia) Hr) as Hr'. simpl in Hr'.
  destruct (gpu_buddy_alloc n (pool_buddy_ p)) as [[rc [a|]] b]; simpl in Hr'.
  - destruct H as (-> & _ & Hl). pose proof (buddy_fresh _ _ _ _ _ _ Hr' Hl) as Hf.
    assert (Hna : allocated p !! a = None).
    { apply eq_None_not_Some. intros Hsome. by apply Hf, Ha. }
    split; [done|]. split; [done|]. split; simpl; [done|done| |].
    + intros va. rewrite Hl. cbn [fmap list_fmap fst]. rewrite elem_of_cons, <- Ha, lookup_insert_is_Some'.
      split; (intros [?|?]; [by left|by right]).
    + intros va m Hm. apply lookup_insert_Some in Hm as [[<- <-]|[Hne Hm]].
      * exists (served_order n). rewrite Hl. split; [left|]. split; [lia|].
        intros Hc. by apply served_order_fits; [lia|].
      * destruct (Hs va m Hm) as (o & Ho & Hle). exists o. rewrite Hl. split; [by right|done].
  - destruct H as (-> & _ & Hl). split; [done|]. split; simpl; [done|done| |]; by rewrite ?Hl.
Qed.

Lemma pool_free_ok dev p va :
  pool_ok dev p -> is_Some (allocated p !! va) ->
  pool_ok dev (p <| pool_buddy_ ::= fun b => (gpu_buddy_free va b).2 |> <| allocated ::= delete va |>).
Proof.
  intros [Hr Hb Ha Hs] Hva. pose proof (free_inv _ _ va _ (reachable_inv _ _ _ Hr)) as H.
  pose proof (reachable_step _ _ _ (OFree va) I Hr) as Hr'. simpl in Hr'.
  destruct (find_record va (pool_buddy_ p)) as [r|].
  2: { destruct H as [_ H]. exfalso. by apply H, Ha. }
  destruct H as (b' & E & _ & Hl). rewrite E in Hr'. simpl in Hr'.
  pose proof (buddy_fresh _ _ _ _ _ _ Hr Hl) as Hf.
  split; simpl; [by rewrite E|done| |]; rewrite E; simpl.
  - intros a. rewrite lookup_delete_is_Some, Ha, Hl. cbn [fmap list_fmap fst]. rewrite elem_of_cons.
    split; [intros [? [?|?]]; congruence|]. intros Hin. split; [|by right]. by intros <-.
  - intros a n Hn. apply lookup_delete_Some in Hn as [Hne Hn]. destruct (Hs a n Hn) as (o & Ho & Hle).
    exists o. split; [|done]. rewrite Hl in Ho. apply elem_of_cons in Ho as [Ho|]; [|done]. by simplify_eq.
Qed.

Lemma mp_ok_fences s f : mp_ok s -> mp_ok (s <| mp_fences := f |>).
Proof. intros [H1 H2 H3]. by split. Qed.
Lemma signaled_fence_ok s : mp_ok s -> mp_ok (signaled_fence s).2.
Proof.
  intros Hok. unfold signaled_fence. destruct (sim_fence_id_alloc (mp_fences s)) as [f fs].
  destruct (f <? 0); by apply mp_ok_fences.
Qed.

Lemma alloc_ok s h n out :
  mp_ok s -> mp_ok (sim_mem_pool_alloc h n out s).2.
Proof.
  intros Hok. unfold sim_mem_pool_alloc. destruct out; [|done]. simpl.
  destruct (pool_table_ s !! h) as [p|] eqn:E; [|done]. destruct (Z.eqb_spec n 0); [done|].
  pose proof (pool_alloc_ok _ p (align_up_4k n) (mo_pools s Hok h p E) (align_up_range n)) as H.
  destruct (gpu_buddy_alloc (align_up_4k n) (pool_buddy_ p)) as [[rc [a|]] b].
  - destruct H as (-> & _ & H). simpl. by eapply put_pool_ok.
  - destruct H as (-> & H). simpl. by eapply put_pool_ok.
Qed.

Lemma free_async_ok s va stream : mp_ok s -> mp_ok (sim_mem_pool_free_async va stream s).2.
Proof.
  intros Hok. unfold sim_mem_pool_free_async. destruct (List.find _ _) as [h|]; [|done].
  destruct (pool_table_ s !! h) as [p|] eqn:E; [|done].
  destruct (allocated p !! va) eqn:Ea; [|done]. apply signaled_fence_ok.
  eapply put_pool_ok; [done|exact E|done|]. apply pool_free_ok; [by apply (mo_pools s Hok h)|by eexists].
Qed.

Lemma set_attr_ok s h attr v : mp_ok s -> mp_ok (sim_mem_pool_set_attr h attr v s).2.
Proof.
  intros Hok. unfold sim_mem_pool_set_attr. destruct v as [bs|]; [|done]. cbv zeta.
  destruct (_ || _); [done|]. destruct (pool_table_ s !! h) as [p|] eqn:E; [|done].
  destruct (mo_pools s Hok h p E) as [H1 H2 H3 H4].
  repeat (destruct (_ =? _); simpl; try done); eapply put_pool_ok; try done; by split.
Qed.

(** ** Sequences of pool calls *)
Inductive mp_op :=
| PCreate (p : pool_props) (mmap_ok : bool)
| PDestroy (h : Z)
| PAlloc (h size : Z)
| PAllocAsync (h size stream : Z)
| PFree (va stream : Z)
| PSetAttr (h attr : Z) (v : option (list Z)).
Definition mp_run (s : mempool_state) (op : mp_op) : mempool_state :=
  match op with
  | PCreate p ok => (sim_mem_pool_create p true ok s).2
  | PDestroy h => (sim_mem_pool_destroy h s).2
  | PAlloc h n => (sim_mem_pool_alloc h n true s).2
  | PAllocAsync h n st => (sim_mem_pool_alloc_async h n st true s).2
  | PFree va st => (sim_mem_pool_free_async va st s).2
  | PSetAttr h a v => (sim_mem_pool_set_attr h a v s).2
  end.

Lemma mp_step_ok s op : mp_ok s -> mp_ok (mp_run s op).
Proof.
  intros Hok. destruct op; simpl in *.
  - by apply create_ok.
  - by apply destroy_ok.
  - by apply alloc_ok.
  - unfold sim_mem_pool_alloc_async. pose proof (alloc_ok s h size true Hok) as H.
    destruct (sim_mem_pool_alloc h size true s) as [[rc va] s1]. simpl in H.
    destruct (negb _); [done|]. pose proof (signaled_fence_ok s1 H) as H1.
    by destruct (signaled_fence s1).
  - by apply free_async_ok.
  - by apply set_attr_ok.
Qed.
Lemma mp_run_ok ops s : mp_ok s -> mp_ok (fold_left mp_run ops s).
Proof. revert s. induction ops as [|op ops IH]; intros s Hok; simpl; [done|]. by apply IH, mp_step_ok. Qed.

(** C20. Address ranges never overlap: after any sequence of pool creations,
    destructions, allocations of any sizes, releases and attribute changes, two
    different live allocations, of one pool or of two, whose recorded sizes are
    at most 8 GiB each occupy disjoint address ranges inside the device address
    space.  (A larger size is recorded for a smaller block:
    [huge_pool_alloc_overlaps].) *)
Theorem pool_allocations_disjoint ops f h va n h' va' n' p p' :
  let s := fold_left mp_run ops (init_mempool f) in
  pool_table_ s !! h = Some p -> allocated p !! va = Some n ->
  pool_table_ s !! h' = Some p' -> allocated p' !! va' = Some n' -> (h, va) <> (h', va') ->
  n <= sz 21 -> n' <= sz 21 ->
  (va + n <= va' \/ va' + n' <= va) /\
  SIM_DEVICE_VA_BASE <= va /\ va + n <= SIM_DEVICE_VA_BASE + SIM_DEVICE_VA_SIZE.
Proof.
  intros s Hp Hva Hp' Hva' Hne Hc Hc'. pose proof (mp_run_ok ops _ (mp_ok_init f)) as Hok. fold s in Hok.
  destruct (mo_pools s Hok h p Hp) as [Hr Hb _ Hs]. destruct (mo_pools s Hok h' p' Hp') as [Hr' Hb' _ Hs'].
  destruct (Hs va n Hva) as (o & Ho & Hn0 & Hn). destruct (Hs' va' n' Hva') as (o' & Ho' & Hn0' & Hn').
  specialize (Hn Hc). specialize (Hn' Hc').
  destruct (buddy_in_pool _ _ _ _ Hr Ho) as (_ & H1 & H2 & _).
  destruct (buddy_in_pool _ _ _ _ Hr' Ho') as (_ & H1' & H2' & _).
  destruct (buddy_in_pool _ _ _ _ (mo_device s Hok) Hb) as (_ & B1 & B2 & _). simpl in *.
  change (sz 21) with 8589934592 in B2. unfold SIM_DEVICE_VA_SIZE.
  split; [|lia]. destruct (decide (h = h')) as [<-|Hh].
  - rewrite Hp in Hp'. injection Hp' as <-.
    pose proof (buddy_disjoint _ _ _ _ _ Hr Ho Ho' ltac:(congruence)) as Hd. unfold disj in Hd. simpl in Hd. lia.
  - pose proof (mo_distinct s Hok h h' p p' Hp Hp' Hh) as Hbase.
    pose proof (buddy_disjoint _ _ _ _ _ (mo_device s Hok) Hb Hb' ltac:(congruence)) as Hd.
    unfold disj in Hd. simpl in Hd. lia.
Qed.

(** A pool whose size is not a power of two hands out blocks past its end
    first, which [sim_mem_pool_free_async] then does not find. *)
Definition odd_pool (f : fence_state) : mempool_state :=
  mp_run (init_mempool f) (PCreate (mk_props 0 12288 0) true).
Lemma odd_pool_block_lost f :
  let '(rc, va, s) := sim_mem_pool_alloc 1 4096 true (odd_pool f) in
  rc = SIM_POOL_ERR_OK /\ is_Some va /\ va_limit <$> pool_table_ s !! 1 = va /\
  (sim_mem_pool_free_async (default 0 va) 0 s).1 = SIM_POOL_ERR_INVALID_HANDLE.
Proof. vm_compute. repeat split. by eexists. Qed.

(** A request of 2^63+4096 bytes is granted one page and recorded with its size,
    over the page allocated before. *)
Definition huge_pool_ops : list mp_op :=
  [PCreate (mk_props 0 16384 0) true; PAlloc 1 4096; PAlloc 1 (2 ^ 63 + 4096)].
Lemma huge_pool_alloc_overlaps :
  (fun p => (allocated p !! (va_base p + 12288), allocated p !! (va_base p + 8192))) <$>
    pool_table_ (fold_left mp_run huge_pool_ops (init_mempool (init_fence None))) !! 1 =
  Some (Some 4096, Some (2 ^ 63 + 4096)).
Proof. vm_compute. reflexivity. Qed.

Lemma put_pool_allocated s h p p' :
  pool_table_ s !! h = Some p -> allocated p' = allocated p ->
  forall h', allocated <$> pool_table_ (put_pool h p' s) !! h' = allocated <$> pool_table_ s !! h'.
Proof.
  intros Hp Ha h'. simpl. destruct (decide (h = h')) as [<-|]; [|by rewrite lookup_insert_ne].
  rewrite lookup_insert_eq, Hp. simpl. by rewrite Ha.
Qed.
Lemma get_attr_put s h p p' h' attr n :
  pool_table_ s !! h = Some p ->
  (h' = h -> (attr = 1 -> release_threshold p' = release_threshold p) /\
             (attr = 2 -> follow_event_deps p' = follow_event_deps p)) ->
  sim_mem_pool_get_attr h' attr true n (put_pool h p' s) = sim_mem_pool_get_attr h' attr true n s.
Proof.
  intros Hp Heq. unfold sim_mem_pool_get_attr, SIM_MEM_POOL_ATTR_RELEASE_THRESHOLD,
    SIM_MEM_POOL_ATTR_REUSE_FOLLOW_EVENT_DEPENDENCIES. destruct (_ || _); [done|]. simpl.
  destruct (decide (h = h')) as [<-|]; [|by rewrite lookup_insert_ne].
  rewrite lookup_insert_eq, Hp. destruct (Heq eq_refl) as [H1 H2].
  destruct (Z.eqb_spec attr 1) as [->|]; [by rewrite H1|].
  destruct (Z.eqb_spec attr 2) as [->|]; [by rewrite H2|done].
Qed.

(** Attributes are stored and read back byte for byte, per pool and per
    attribute; nothing else of any pool changes. *)
Theorem pool_attr_roundtrip h attr bs s s' :
  sim_mem_pool_set_attr h attr (Some bs) s = (SIM_POOL_ERR_OK, s') -> Forall (fun b => is_u8 b) bs ->
  sim_mem_pool_get_attr h attr true (Z.of_nat (length bs)) s' = (SIM_POOL_ERR_OK, Some bs) /\
  (forall h' attr' n, (h', attr') <> (h, attr) ->
     sim_mem_pool_get_attr h' attr' true n s' = sim_mem_pool_get_attr h' attr' true n s) /\
  (forall h', allocated <$> pool_table_ s' !! h' = allocated <$> pool_table_ s !! h').
Proof.
  intros Hset Hbs. unfold sim_mem_pool_set_attr in Hset. cbv zeta in Hset.
  destruct ((Z.of_nat (length bs) =? 0) || _) eqn:En; [done|].
  destruct (pool_table_ s !! h) as [p|] eqn:Ep; [|done].
  assert (Hle : forall k, Z.of_nat (length bs) = Z.of_nat k -> le_bytes k (le_val bs) = bs).
  { intros k Hk. apply Nat2Z.inj in Hk. subst k. by apply le_bytes_val. }
  assert (Hframe : forall p', s' = put_pool h p' s -> allocated p' = allocated p ->
    (attr <> 1 -> release_threshold p' = release_threshold p) ->
    (attr <> 2 -> follow_event_deps p' = follow_event_deps p) ->
    (forall h' attr' n, (h', attr') <> (h, attr) ->
       sim_mem_pool_get_attr h' attr' true n s' = sim_mem_pool_get_attr h' attr' true n s) /\
    (forall h', allocated <$> pool_table_ s' !! h' = allocated <$> pool_table_ s !! h')).
  { intros p' -> H0 H1 H2. split; [|by apply (put_pool_allocated s h p)].
    intros h' attr' n Hne. apply (get_attr_put s h p); [done|]. intros ->.
    split; intros ->; [apply H1|apply H2]; congruence. }
  unfold SIM_MEM_POOL_ATTR_RELEASE_THRESHOLD, SIM_MEM_POOL_ATTR_REUSE_FOLLOW_EVENT_DEPENDENCIES in Hset.
  destruct (Z.eqb_spec attr 1) as [->|H1]; [|destruct (Z.eqb_spec attr 2) as [->|H2]; [|done]].
  - destruct (Z.eqb_spec (Z.of_nat (length bs)) 8) as [El|]; [|done]. simpl in Hset. injection Hset as <-.
    split; [|by eapply Hframe].
    rewrite <- (Hle 8%nat) at 2 by exact El. rewrite El. unfold sim_mem_pool_get_attr. simpl.
    by rewrite lookup_insert_eq.
  - destruct (Z.eqb_spec (Z.of_nat (length bs)) 4) as [El|]; [|done]. simpl in Hset. injection Hset as <-.
    split; [|by eapply Hframe].
    rewrite <- (Hle 4%nat) at 2 by exact El. rewrite El. unfold sim_mem_pool_get_attr. simpl.
    by rewrite lookup_insert_eq.
Qed.

(** ** Witnesses *)
Definition demo_pool_ops : list mp_op :=
  [PCreate (mk_props 0 16384 0) true; PCreate (mk_props 0 16384 0) true; PAlloc 1 4096; PAlloc 2 100].
Definition demo_pools : mempool_state := fold_left mp_run demo_pool_ops (init_mempool (init_fence None)).

(** The one allocation of pool [h]: its address, and its size. *)
Definition first_alloc (h : Z) : option (PoolTableEntry * Z * Z) :=
  p ← pool_table_ demo_pools !! h; '(va, n) ← head (map_to_list (allocated p)); Some (p, va, n).
Lemma first_alloc_spec h p va n :
  first_alloc h = Some (p, va, n) -> pool_table_ demo_pools !! h = Some p /\ allocated p !! va = Some n.
Proof.
  unfold first_alloc. destruct (pool_table_ demo_pools !! h) as [q|]; [|done]. simpl.
  destruct (map_to_list (allocated q)) as [|[a m] l] eqn:E; [done|]. simpl. intros [= <- <- <-].
  split; [done|]. apply elem_of_map_to_list. rewrite E. left.
Qed.

Lemma first_alloc_small h p va n : first_alloc h = Some (p, va, n) -> h = 1 \/ h = 2 -> n <= sz 21.
Proof.
  intros E Hh. assert (Hb : forall q, q = first_alloc h -> match snd <$> q with Some n => n <= sz 21 | None => True end).
  { intros q ->. destruct Hh as [-> | ->]; by vm_compute. }
  specialize (Hb _ eq_refl). by rewrite E in Hb.
Qed.
Lemma pool_allocations_disjoint_witness :
  exists va n va' n', bool_decide (va = va') = false /\ (va + n <= va' \/ va' + n' <= va).
Proof.
  assert (H1 : bool_decide (is_Some (first_alloc 1)) = true) by (by vm_compute).
  assert (H2 : bool_decide (is_Some (first_alloc 2)) = true) by (by vm_compute).
  assert (Hne : bool_decide (snd ∘ fst <$> first_alloc 1 = snd ∘ fst <$> first_alloc 2) = false)
    by (by vm_compute).
  apply bool_decide_eq_true_1 in H1 as [[[p va] n] H1]. apply bool_decide_eq_true_1 in H2 as [[[p' va'] n'] H2].
  rewrite H1, H2 in Hne. simpl in Hne.
  assert (N1 : n <= sz 21) by (eapply (first_alloc_small 1); [exact H1|by left]).
  assert (N2 : n' <= sz 21) by (eapply (first_alloc_small 2); [exact H2|by right]).
  apply first_alloc_spec in H1 as [P1 A1]. apply first_alloc_spec in H2 as [P2 A2].
  exists va, n, va', n'. split.
  - apply bool_decide_eq_false in Hne. apply bool_decide_eq_false. congruence.
  - apply (pool_allocations_disjoint demo_pool_ops (init_fence None) 1 va n 2 va' n' p p'
      P1 A1 P2 A2); [congruence|exact N1|exact N2].
Defined.

Lemma pool_attr_roundtrip_witness :
  let s := (sim_mem_pool_set_attr 1 2 (Some [7; 0; 0; 1]) demo_pools).2 in
  sim_mem_pool_get_attr 1 2 true 4 s = (SIM_POOL_ERR_OK, Some [7; 0; 0; 1]).
Proof.
  apply (pool_attr_roundtrip 1 2 [7; 0; 0; 1] demo_pools
    (sim_mem_pool_set_attr 1 2 (Some [7; 0; 0; 1]) demo_pools).2).
  - apply pair_snd. by vm_compute.
  - repeat constructor; lia.
Defined.
