(* ===== verification/SimMem.v ===== *)
(** * Device memory simulations

    [plugins/gpu_driver/sim]: page migration ([page_migration.cpp]), page
    faults ([page_fault_handler.cpp]), the coherent DMA pool
    ([dma_coherent_pool.cpp]) and the BAR and VRAM store ([vram_store.cpp]).
    Memory blocks are maps from offsets to bytes, as in [HalUser.v]; what
    [mmap] answers is an argument. *)
From S2P Require Import Prelude Bytes HalUser.

Definition INVALID_PFN : Z := UINT64_MAX.

(** ** Page migration *)
Inductive PageState := PAGE_CLEAN | PAGE_DIRTY | PAGE_EVICTED.
#[export] Instance PageState_eq_dec : EqDecision PageState.
Proof. solve_decision. Defined.

(** Calls into the IOMMU driver; their results are ignored. *)
Inductive iommu_call :=
| IommuMap (domain iova paddr size : Z)
| IommuUnmap (domain iova size : Z).

Record SimPageMigration := mk_pm {
  device_mem_size : Z;
  device_memory : Z -> Z;
  page_state : gmap Z PageState;
  page_table : gmap Z Z;
  migration_count : Z;
  iommu_domain : option Z;
  page_dirty : gmap Z bool;
  pm_calls : list iommu_call
}.
#[export] Instance eta_pm : Eta SimPageMigration := fun p =>
  mk_pm (device_mem_size p) (device_memory p) (page_state p) (page_table p) (migration_count p)
    (iommu_domain p) (page_dirty p) (pm_calls p).

Definition sim_pm_create (size : Z) : option SimPageMigration :=
  if size =? 0 then None else Some (mk_pm size (fun _ => 0) ∅ ∅ 0 None ∅ []).

Definition pm_guard (offset size : Z) (p : SimPageMigration) : bool :=
  device_mem_size p <? u64 (offset + size).

Definition sim_pm_migrate_to_device (offset : Z) (src : option (list Z)) (p : SimPageMigration) :
    Z * SimPageMigration :=
  match src with
  | None => (- EINVAL, p)
  | Some bs =>
      let size := Z.of_nat (length bs) in
      if pm_guard offset size p then (- EFAULT, p)
      else
        let pfn := offset / 4096 in
        (0, p <| device_memory ::= poke (s64 offset) bs |>
              <| page_state ::= <[offset := PAGE_CLEAN]> |>
              <| page_table ::= <[offset := pfn]> |>
              <| migration_count ::= fun n => n + 1 |>
              <| pm_calls ::= fun l => match iommu_domain p with
                   | Some d => l ++ [IommuMap d offset (u64 (Z.shiftl pfn 12)) size]
                   | None => l end |>)
  end.

(** The bytes delivered on success. *)
Definition sim_pm_migrate_to_system (offset : Z) (dst : bool) (size : Z) (p : SimPageMigration) :
    Z * list Z * SimPageMigration :=
  if negb dst then (- EINVAL, [], p)
  else if pm_guard offset size p then (- EFAULT, [], p)
  else
    (0, peek (s64 offset) size (device_memory p),
     p <| page_state ::= <[offset := PAGE_EVICTED]> |> <| page_table ::= delete offset |>
       <| migration_count ::= fun n => n + 1 |>
       <| pm_calls ::= fun l => match iommu_domain p with
            | Some d => l ++ [IommuUnmap d offset size]
            | None => l end |>).

Definition resident_state (o : option PageState) : bool :=
  match o with Some PAGE_EVICTED | None => false | Some _ => true end.
Definition sim_pm_is_page_on_device (offset : Z) (p : SimPageMigration) : Z :=
  if resident_state (page_state p !! offset) then 1 else 0.
Definition sim_pm_lookup_pfn (offset : Z) (p : SimPageMigration) : Z :=
  default INVALID_PFN (page_table p !! offset).
Definition sim_pm_attach_domain (domain : option Z) (p : SimPageMigration) : Z * SimPageMigration :=
  (0, p <| iommu_domain := domain |>).
Definition sim_pm_invalidate (offset : Z) (p : SimPageMigration) : SimPageMigration :=
  if resident_state (page_state p !! offset)
  then p <| page_state ::= <[offset := PAGE_EVICTED]> |> <| page_table ::= delete offset |>
         <| page_dirty ::= delete offset |>
  else p.
Definition sim_pm_is_page_dirty (offset : Z) (p : SimPageMigration) : Z :=
  if default false (page_dirty p !! offset) then 1 else 0.
Definition sim_pm_mark_dirty (offset : Z) (p : SimPageMigration) : SimPageMigration :=
  if resident_state (page_state p !! offset)
  then p <| page_state ::= <[offset := PAGE_DIRTY]> |> <| page_dirty ::= <[offset := true]> |>
  else p.

(** ** Page faults *)
Definition SIM_FAULT_CAUSE_READ_DEFAULT : Z := 0.
Definition SIM_FAULT_CAUSE_WRITE_DEFAULT : Z := 1.
Record SimPageFaultHandler := mk_pfh {
  fault_count : Z;
  last_fault_addr : Z;
  last_fault_cause : Z;
  event_cb : option Z;
  event_cb_pasid : Z;
  pfh_calls : list (Z * Z * Z * Z)    (* callback, pasid, address, cause *)
}.
#[export] Instance eta_pfh : Eta SimPageFaultHandler := fun p =>
  mk_pfh (fault_count p) (last_fault_addr p) (last_fault_cause p) (event_cb p) (event_cb_pasid p)
    (pfh_calls p).
Definition sim_pfh_create (mm : option Z) : option SimPageFaultHandler :=
  match mm with None => None | Some _ => Some (mk_pfh 0 0 SIM_FAULT_CAUSE_READ_DEFAULT None 0 []) end.
(** The state, and what is stored through [pfn_out]. *)
Definition sim_pfh_inject_fault_with_cause (addr : Z) (pfn_out : bool) (cause : Z)
    (p : SimPageFaultHandler) : SimPageFaultHandler * option Z :=
  let p := p <| fault_count ::= fun n => n + 1 |> <| last_fault_addr := addr |>
             <| last_fault_cause := cause |> in
  (match event_cb p with
   | Some f => if cause =? SIM_FAULT_CAUSE_WRITE_DEFAULT
               then p <| pfh_calls ::= fun l => l ++ [(f, event_cb_pasid p, addr, cause)] |> else p
   | None => p
   end, if pfn_out then Some INVALID_PFN else None).
Definition sim_pfh_inject_fault (addr : Z) (pfn_out : bool) :
    SimPageFaultHandler -> SimPageFaultHandler * option Z :=
  sim_pfh_inject_fault_with_cause addr pfn_out SIM_FAULT_CAUSE_READ_DEFAULT.
Definition sim_pfh_set_event_callback (cb : option Z) (pasid : Z) (p : SimPageFaultHandler) :
    SimPageFaultHandler := p <| event_cb := cb |> <| event_cb_pasid := pasid |>.

(** ** The coherent DMA pool *)
Definition DMA_COHERENT_BASE : Z := 4294967296.
Definition DMA_COHERENT_SIZE : Z := 268435456.
Record DmaCoherentPool := mk_dma {
  cpu_pool : Z;
  next_dma_addr : Z;
  allocations : gmap Z Z;
  dma_initialized : bool
}.
#[export] Instance eta_dma : Eta DmaCoherentPool := fun d =>
  mk_dma (cpu_pool d) (next_dma_addr d) (allocations d) (dma_initialized d).
Definition new_dma_pool : DmaCoherentPool := mk_dma 0 DMA_COHERENT_BASE ∅ false.
Definition dma_init (mapping : option Z) (d : DmaCoherentPool) : bool * DmaCoherentPool :=
  if dma_initialized d then (true, d)
  else match mapping with
       | None => (false, d <| cpu_pool := 0 |>)
       | Some p => (true, d <| cpu_pool := p |> <| dma_initialized := true |>)
       end.
(** The CPU pointer (0 on failure) and the DMA address. *)
Definition dma_allocate (size : Z) (d : DmaCoherentPool) : Z * option Z * DmaCoherentPool :=
  if negb (dma_initialized d) then (0, None, d)
  else if DMA_COHERENT_BASE + DMA_COHERENT_SIZE <? u64 (next_dma_addr d + size) then (0, None, d)
  else
    let a := next_dma_addr d in
    (cpu_pool d + (a - DMA_COHERENT_BASE), Some a,
     d <| allocations ::= <[a := size]> |> <| next_dma_addr := u64 (a + size) |>).
Definition dma_free (a : Z) (d : DmaCoherentPool) : DmaCoherentPool := d <| allocations ::= delete a |>.

(** ** VRAM and BARs *)
Record PciBarSim := mk_bar { phys_base : Z; bar_size : Z; backing : option Z; bar_fd : Z }.
Record GpuVramStore := mk_vram {
  vram_size : Z;
  pool_backing : option Z;
  bars : list PciBarSim;
  vram_initialized : bool
}.
#[export] Instance eta_vram : Eta GpuVramStore := fun v =>
  mk_vram (vram_size v) (pool_backing v) (bars v) (vram_initialized v).
Definition new_vram_store : GpuVramStore := mk_vram 0 None (replicate 6 (mk_bar 0 0 None (-1))) false.
Definition vram_init (mb : Z) (mapping : option Z) (v : GpuVramStore) : bool * GpuVramStore :=
  let bytes := u64 (mb * 1024 * 1024) in
  if vram_initialized v then (vram_size v =? bytes, v)
  else match mapping with
       | None => (false, v <| vram_size := bytes |> <| pool_backing := None |>)
       | Some p => (true, v <| vram_size := bytes |> <| pool_backing := Some p |>
                            <| vram_initialized := true |>)
       end.
Definition get_bar (i : Z) (v : GpuVramStore) : option PciBarSim :=
  if (i <? 0) || (6 <=? i) then None else bars v !! Z.to_nat i.
Fixpoint bar_map (phys size : Z) (mapping : option Z) (l : list PciBarSim) :
    option Z * list PciBarSim :=
  match l with
  | [] => (None, [])
  | b :: l' =>
      if phys_base b =? phys then
        match backing b with
        | Some p => (Some p, l)
        | None => (mapping, mk_bar (phys_base b) size mapping (bar_fd b) :: l')
        end
      else let '(r, l'') := bar_map phys size mapping l' in (r, b :: l'')
  end.
Definition bar_ioremap (phys size : Z) (mapping : option Z) (v : GpuVramStore) :
    option Z * GpuVramStore :=
  let '(r, l) := bar_map phys size mapping (bars v) in (r, v <| bars := l |>).
Fixpoint bar_unmap (addr : option Z) (l : list PciBarSim) : list PciBarSim :=
  match l with
  | [] => []
  | b :: l' => if bool_decide (backing b = addr) then mk_bar (phys_base b) 0 None (bar_fd b) :: l'
               else b :: bar_unmap addr l'
  end.
Definition bar_iounmap (addr : option Z) (v : GpuVramStore) : GpuVramStore :=
  v <| bars ::= bar_unmap addr |>.

(** [user_mem_map_bo] of hal_user.cpp, over the VRAM store. *)
Definition user_mem_map_bo (bo_offset size : Z) (v : GpuVramStore) : Z * option Z :=
  if negb (vram_initialized v) then (- ENODEV, None)
  else match pool_backing v with
       | None => (- ENODEV, None)
       | Some p =>
           if vram_size v <? bo_offset then (- EINVAL, None)
           else if vram_size v <? u64 (bo_offset + size) then (- EINVAL, None)
           else (0, Some (p + bo_offset))
       end.

(** ** Properties of page migration *)
Inductive pm_op :=
| PmToDevice (offset : Z) (bs : list Z)
| PmToSystem (offset size : Z)
| PmInvalidate (offset : Z)
| PmMarkDirty (offset : Z)
| PmAttach (domain : option Z).
Definition pm_run (p : SimPageMigration) (op : pm_op) : SimPageMigration :=
  match op with
  | PmToDevice o bs => (sim_pm_migrate_to_device o (Some bs) p).2
  | PmToSystem o n => (sim_pm_migrate_to_system o true n p).2
  | PmInvalidate o => sim_pm_invalidate o p
  | PmMarkDirty o => sim_pm_mark_dirty o p
  | PmAttach d => (sim_pm_attach_domain d p).2
  end.

(** The operation writes no byte of [[offset, offset + n)], and its own range
    does not wrap around. *)
Definition pm_avoids (offset n : Z) (op : pm_op) : Prop :=
  match op with
  | PmToDevice o bs => 0 <= o /\ o + Z.of_nat (length bs) < 2 ^ 64 /\
      (o + Z.of_nat (length bs) <= offset \/ offset + n <= o)
  | _ => True
  end.

Lemma s64_id x : 0 <= x < 2 ^ 63 -> s64 x = x.
Proof. intros Hx. unfold s64. rewrite u64_id by lia. destruct (Z.ltb_spec x (2 ^ 63)); lia. Qed.

Lemma pm_run_memory op p offset n :
  pm_avoids offset n op -> device_mem_size p < 2 ^ 63 ->
  device_mem_size (pm_run p op) = device_mem_size p /\
  peek offset n (device_memory (pm_run p op)) = peek offset n (device_memory p).
Proof.
  intros Hav Hsz. destruct op as [o bs|o m|o|o|d]; simpl in *.
  - destruct Hav as (H0 & H1 & H2). destruct (pm_guard o _ p) eqn:Eg; [done|]. simpl. split; [done|].
    unfold pm_guard in Eg. apply Z.ltb_ge in Eg. rewrite u64_id in Eg by lia.
    rewrite s64_id by lia. apply peek_poke_disjoint. lia.
  - unfold sim_pm_migrate_to_system. simpl. by destruct (pm_guard _ _ p).
  - unfold sim_pm_invalidate. by destruct (resident_state _).
  - unfold sim_pm_mark_dirty. by destruct (resident_state _).
  - done.
Qed.
Lemma pm_runs_memory ops p offset n :
  Forall (pm_avoids offset n) ops -> device_mem_size p < 2 ^ 63 ->
  let p' := fold_left pm_run ops p in
  device_mem_size p' = device_mem_size p /\ peek offset n (device_memory p') = peek offset n (device_memory p).
Proof.
  intros Hops. revert p. induction Hops as [|op ops Hop Hops IH]; intros p Hsz; simpl; [done|].
  destruct (pm_run_memory op p offset n Hop Hsz) as [H1 H2].
  destruct (IH (pm_run p op) ltac:(lia)) as [H3 H4]. by rewrite H3, H4.
Qed.

(** A page migrated to the device comes back unchanged: whatever other
    pages are migrated, invalidated or dirtied in between, migrating it to
    system memory delivers the bytes that were put there. *)
Theorem migration_roundtrip offset bs p p1 ops :
  sim_pm_migrate_to_device offset (Some bs) p = (0, p1) ->
  0 <= offset -> offset + Z.of_nat (length bs) < 2 ^ 64 -> device_mem_size p < 2 ^ 63 ->
  Forall (pm_avoids offset (Z.of_nat (length bs))) ops ->
  exists p3, sim_pm_migrate_to_system offset true (Z.of_nat (length bs)) (fold_left pm_run ops p1) =
    (0, bs, p3) /\ sim_pm_is_page_on_device offset p1 = 1 /\ sim_pm_is_page_on_device offset p3 = 0.
Proof.
  intros Hm Ho Hw Hsz Hops. unfold sim_pm_migrate_to_device in Hm. cbv zeta in Hm.
  destruct (pm_guard offset (Z.of_nat (length bs)) p) eqn:Eg; [done|]. injection Hm as <-.
  set (p1 := _ <| pm_calls ::= _ |>). destruct (pm_runs_memory ops p1 offset _ Hops Hsz) as [H1 H2].
  unfold sim_pm_migrate_to_system. simpl. unfold pm_guard in *. rewrite H1. simpl. rewrite Eg.
  eexists. split; [|split].
  - apply Z.ltb_ge in Eg. rewrite u64_id in Eg by lia. rewrite s64_id by lia. rewrite H2. simpl.
    rewrite s64_id by lia. by rewrite peek_poke.
  - unfold sim_pm_is_page_on_device. simpl. by rewrite lookup_insert_eq.
  - unfold sim_pm_is_page_on_device. simpl. by rewrite lookup_insert_eq.
Qed.

(** The page table holds exactly the resident pages, and dirty pages are
    recorded as dirty. *)
Definition pm_ok (p : SimPageMigration) : Prop := forall o,
  page_table p !! o = (if resident_state (page_state p !! o) then Some (o / 4096) else None) /\
  (page_state p !! o = Some PAGE_DIRTY -> page_dirty p !! o = Some true).

Lemma pm_run_ok op p : pm_ok p -> pm_ok (pm_run p op).
Proof.
  intros Hok. destruct op as [o bs|o m|o|o|d]; simpl.
  - destruct (pm_guard _ _ p); [done|]. intros i. simpl. destruct (Hok i) as [H1 H2].
    destruct (decide (o = i)) as [<-|]; [|by rewrite !lookup_insert_ne]. by rewrite !lookup_insert_eq.
  - unfold sim_pm_migrate_to_system. simpl. destruct (pm_guard _ _ p); [done|]. intros i. simpl.
    destruct (Hok i) as [H1 H2].
    destruct (decide (o = i)) as [<-|]; [|by rewrite lookup_insert_ne, lookup_delete_ne].
    by rewrite lookup_insert_eq, lookup_delete_eq.
  - unfold sim_pm_invalidate. destruct (resident_state _) eqn:E; [|done]. intros i. simpl.
    destruct (Hok i) as [H1 H2].
    destruct (decide (o = i)) as [<-|]; [|by rewrite lookup_insert_ne, !lookup_delete_ne].
    by rewrite lookup_insert_eq, !lookup_delete_eq.
  - unfold sim_pm_mark_dirty. destruct (resident_state _) eqn:E; [|done]. intros i. simpl.
    destruct (Hok i) as [H1 H2].
    destruct (decide (o = i)) as [<-|]; [|by rewrite !lookup_insert_ne].
    rewrite !lookup_insert_eq. by rewrite H1, E.
  - exact Hok.
Qed.
Lemma pm_runs_ok ops p : pm_ok p -> pm_ok (fold_left pm_run ops p).
Proof. revert p. induction ops as [|op ops IH]; intros p Hok; simpl; [done|]. by apply IH, pm_run_ok. Qed.

(** Page table and residency agree: after any sequence of migrations,
    invalidations and dirtyings, [lookup_pfn] gives the frame number of the
    page exactly when the page is on the device, and a page in the dirty state
    reads as dirty. *)
Theorem page_table_exact size p ops o :
  sim_pm_create size = Some p -> 0 <= o < 2 ^ 64 ->
  let p' := fold_left pm_run ops p in
  sim_pm_lookup_pfn o p' = (if sim_pm_is_page_on_device o p' =? 1 then o / 4096 else INVALID_PFN) /\
  (page_state p' !! o = Some PAGE_DIRTY -> sim_pm_is_page_dirty o p' = 1).
Proof.
  intros Hc Ho p'. assert (Hok : pm_ok p').
  { apply pm_runs_ok. unfold sim_pm_create in Hc. destruct (size =? 0); [done|]. injection Hc as <-. done. }
  destruct (Hok o) as [H1 H2]. unfold sim_pm_lookup_pfn, sim_pm_is_page_on_device, sim_pm_is_page_dirty.
  split; [rewrite H1; by destruct (resident_state _)|]. intros Hd. by rewrite (H2 Hd).
Qed.

(** The dirty mark survives eviction: a page marked dirty, migrated to system
    memory and migrated back reads as dirty although it is clean. *)
Lemma dirty_mark_stale :
  let p := mk_pm 8192 (fun _ => 0) ∅ ∅ 0 None ∅ [] in
  let p' := fold_left pm_run [PmToDevice 0 [1]; PmMarkDirty 0; PmToSystem 0 1; PmToDevice 0 [2]] p in
  page_state p' !! 0 = Some PAGE_CLEAN /\ sim_pm_is_page_dirty 0 p' = 1.
Proof. by vm_compute. Qed.

(** ** The DMA pool *)
Inductive dma_op := DmaAlloc (size : Z) | DmaFree (a : Z).
Definition dma_run (d : DmaCoherentPool) (op : dma_op) : DmaCoherentPool :=
  match op with DmaAlloc n => (dma_allocate n d).2 | DmaFree a => dma_free a d end.
(** No request is so large that the bound check wraps around. *)
Definition dma_op_ok (op : dma_op) : Prop :=
  match op with DmaAlloc n => 0 <= n <= 2 ^ 63 | DmaFree _ => True end.

Record dma_ok (d : DmaCoherentPool) : Prop := {
  do_next : DMA_COHERENT_BASE <= next_dma_addr d <= DMA_COHERENT_BASE + DMA_COHERENT_SIZE;
  do_range : forall a n, allocations d !! a = Some n ->
    DMA_COHERENT_BASE <= a /\ 0 <= n /\ a + n <= next_dma_addr d;
  do_disjoint : forall a n a' n', allocations d !! a = Some n -> allocations d !! a' = Some n' ->
    a < a' -> a + n <= a'
}.

Lemma dma_run_ok op d : dma_op_ok op -> dma_ok d -> dma_ok (dma_run d op).
Proof.
  intros Hop [H1 H2 H3]. destruct op as [n|a]; simpl in *.
  - unfold dma_allocate. destruct (dma_initialized d); [|done]. simpl.
    unfold DMA_COHERENT_BASE, DMA_COHERENT_SIZE in *. rewrite u64_id by lia.
    destruct (Z.ltb_spec (4294967296 + 268435456) (next_dma_addr d + n)); [done|]. simpl.
    split; simpl; rewrite ?u64_id by lia.
    + unfold DMA_COHERENT_BASE, DMA_COHERENT_SIZE. lia.
    + intros a m Ha. apply lookup_insert_Some in Ha as [[<- <-]|[_ Ha]].
      * unfold DMA_COHERENT_BASE. lia.
      * destruct (H2 a m Ha). unfold DMA_COHERENT_BASE. lia.
    + intros a m a' m' Ha Ha' Hlt.
      apply lookup_insert_Some in Ha as [[<- <-]|[_ Ha]], Ha' as [[<- <-]|[_ Ha']].
      * lia.
      * destruct (H2 a' m' Ha'). lia.
      * destruct (H2 a m Ha). lia.
      * by apply (H3 a m a' m').
  - split; simpl; [done| |].
    + intros b m Hb. apply lookup_delete_Some in Hb as [_ Hb]. by apply H2.
    + intros b m b' m' Hb Hb'. apply lookup_delete_Some in Hb as [_ Hb], Hb' as [_ Hb']. by apply (H3 b m b' m').
Qed.

(** DMA buffers never overlap: after any sequence of allocations (none
    larger than 2^63 bytes) and releases, the buffers recorded are disjoint and
    lie in the pool. *)
Theorem dma_buffers_disjoint ops mapping a n a' n' :
  Forall dma_op_ok ops ->
  let d := fold_left dma_run ops (dma_init (Some mapping) new_dma_pool).2 in
  allocations d !! a = Some n -> allocations d !! a' = Some n' -> a <> a' ->
  (a + n <= a' \/ a' + n' <= a) /\
  DMA_COHERENT_BASE <= a /\ a + n <= DMA_COHERENT_BASE + DMA_COHERENT_SIZE.
Proof.
  intros Hops d Ha Ha' Hne. assert (Hok : dma_ok d).
  { unfold d. clear - Hops. set (d0 := (dma_init (Some mapping) new_dma_pool).2).
    assert (H0 : dma_ok d0).
    { split; [by vm_compute|intros a n Hn; by (simpl in Hn; rewrite lookup_empty in Hn)|].
      intros a n a' n' Hn. by (simpl in Hn; rewrite lookup_empty in Hn). }
    clearbody d0. revert d0 H0. induction Hops as [|op ops Hop Hops IH]; intros d0 H0; simpl; [done|].
    by apply IH, dma_run_ok. }
  destruct Hok as [H1 H2 H3]. destruct (H2 a n Ha), (H2 a' n' Ha').
  split; [|lia]. destruct (Z.lt_trichotomy a a') as [Hlt|[|Hlt]]; [|done|].
  - left. by apply (H3 a n a' n').
  - right. by apply (H3 a' n' a n).
Qed.

(** A request near 2^64 wraps the check around and moves the bump pointer
    back, so that the next buffer overlaps one already handed out. *)
Lemma dma_wrap_overlaps mapping :
  let d := fold_left dma_run [DmaAlloc 8192; DmaAlloc (2 ^ 64 - 4096)]
    (dma_init (Some mapping) new_dma_pool).2 in
  (dma_allocate 4096 d).1.2 = Some (DMA_COHERENT_BASE + 4096) /\
  allocations d !! DMA_COHERENT_BASE = Some 8192.
Proof. by vm_compute. Qed.

(** ** Witnesses *)
Lemma migration_roundtrip_witness :
  exists p p1 p3, sim_pm_create 16384 = Some p /\
    sim_pm_migrate_to_device 4096 (Some [1; 2; 3]) p = (0, p1) /\
    sim_pm_migrate_to_system 4096 true 3
      (fold_left pm_run [PmMarkDirty 4096; PmToDevice 0 [9]] p1) = (0, [1; 2; 3], p3).
Proof.
  eexists _, _.
  destruct (migration_roundtrip 4096 [1; 2; 3] (mk_pm 16384 (fun _ => 0) ∅ ∅ 0 None ∅ []) _
    [PmMarkDirty 4096; PmToDevice 0 [9]] eq_refl) as (p3 & H & _).
  - lia.
  - by vm_compute.
  - by vm_compute.
  - repeat constructor; simpl; lia.
  - exists p3. split; [reflexivity|]. split; [reflexivity|exact H].
Defined.

Lemma page_table_exact_witness :
  exists p, sim_pm_create 16384 = Some p /\
    let p' := fold_left pm_run [PmToDevice 8192 [1]; PmMarkDirty 8192] p in
    sim_pm_lookup_pfn 8192 p' = (if sim_pm_is_page_on_device 8192 p' =? 1 then 8192 / 4096 else INVALID_PFN).
Proof.
  eexists. split; [reflexivity|].
  exact (proj1 (page_table_exact 16384 _ [PmToDevice 8192 [1]; PmMarkDirty 8192] 8192 eq_refl ltac:(lia))).
Defined.

Lemma dma_buffers_disjoint_witness :
  let d := fold_left dma_run [DmaAlloc 4096; DmaAlloc 100] (dma_init (Some 65536) new_dma_pool).2 in
  allocations d !! (DMA_COHERENT_BASE + 4096) = Some 100 /\
  (DMA_COHERENT_BASE + 4096 <= DMA_COHERENT_BASE + 4096 \/ DMA_COHERENT_BASE + 4096 + 100 <= DMA_COHERENT_BASE).
Proof.
  split; [reflexivity|].
  apply (dma_buffers_disjoint [DmaAlloc 4096; DmaAlloc 100] 65536 DMA_COHERENT_BASE 4096
    (DMA_COHERENT_BASE + 4096) 100); try reflexivity; [repeat constructor; simpl; lia|done].
Defined.
