(* ===== verification/KfdBridge.v ===== *)
(** * Process memory descriptors and the KFD bridge

    [src/kernel/uvm/mm_shim.cpp], the table of virtual memory areas of a
    process, and [plugins/gpu_driver/drv/kfd_sim_bridge.cpp], which answers the
    KFD ioctls of the device with the simulated page migration.  The file-level
    [g_state] is the record [KfdSimState]. *)
From S2P Require Import Prelude HalUser SimMem.

(** ** [us_mm_shim] *)
Definition US_MM_SHIM_VMA_CAPACITY : Z := 16.
Record us_mm_vma := mk_vma { v_start : Z; v_end : Z; v_flags : Z }.
#[export] Instance vma_eq_dec : EqDecision us_mm_vma.
Proof. solve_decision. Defined.

(** The slots of the array below [vma_count], in order. *)
Record us_mm_shim := mk_mm_shim { mm_pid : Z; vmas : list us_mm_vma }.
#[export] Instance eta_mm_shim : Eta us_mm_shim := fun m => mk_mm_shim (mm_pid m) (vmas m).

Definition us_mm_shim_init (pid : Z) : us_mm_shim := mk_mm_shim pid [].

Definition same_range (start end_ : Z) (v : us_mm_vma) : bool :=
  (v_start v =? start) && (v_end v =? end_).

(** Set the flags of the first area with exactly this range. *)
Fixpoint reflag (start end_ flags : Z) (l : list us_mm_vma) : list us_mm_vma :=
  match l with
  | [] => []
  | v :: l' => if same_range start end_ v then mk_vma (v_start v) (v_end v) flags :: l'
               else v :: reflag start end_ flags l'
  end.
Definition us_mm_shim_register_vma (start end_ flags : Z) (m : us_mm_shim) : Z * us_mm_shim :=
  if end_ <=? start then (- EINVAL, m)
  else if US_MM_SHIM_VMA_CAPACITY <=? Z.of_nat (length (vmas m)) then (- ENOSPC, m)
  else if existsb (same_range start end_) (vmas m) then
    (0, m <| vmas ::= reflag start end_ flags |>)
  else (0, m <| vmas ::= fun l => l ++ [mk_vma start end_ flags] |>).

(** Remove the first area with exactly this range, closing the gap. *)
Fixpoint remove_range (start end_ : Z) (l : list us_mm_vma) : list us_mm_vma :=
  match l with
  | [] => []
  | v :: l' => if same_range start end_ v then l' else v :: remove_range start end_ l'
  end.
Definition us_mm_shim_unregister_vma (start end_ : Z) (m : us_mm_shim) : Z * us_mm_shim :=
  if existsb (same_range start end_) (vmas m) then (0, m <| vmas ::= remove_range start end_ |>)
  else (- ENOENT, m).

Definition us_mm_shim_find_vma (addr : Z) (m : us_mm_shim) : Z * option (Z * Z) :=
  match List.find (fun v => (v_start v <=? addr) && (addr <? v_end v)) (vmas m) with
  | Some v => (0, Some (v_start v, v_end v))
  | None => (- ENOENT, None)
  end.

(** The result and the areas the callback was called with; [cb] gives what it
    returns for each. *)
Fixpoint foreach_loop (start end_ : Z) (cb : us_mm_vma -> Z) (count : Z) (l : list us_mm_vma) :
    Z * list us_mm_vma :=
  match l with
  | [] => (count, [])
  | v :: l' =>
      if (v_start v <? end_) && (start <? v_end v) then
        if negb (cb v =? 0) then (cb v, [v])
        else let '(r, vs) := foreach_loop start end_ cb (count + 1) l' in (r, v :: vs)
      else foreach_loop start end_ cb count l'
  end.
Definition us_mm_shim_foreach_in_range (start end_ : Z) (cb : option (us_mm_vma -> Z))
    (m : us_mm_shim) : Z * list us_mm_vma :=
  match cb with
  | None => (- EINVAL, [])
  | Some f => foreach_loop start end_ f 0 (vmas m)
  end.

(** ** The bridge *)
Definition DEVICE_MEM_SIZE : Z := 16 * 1024 * 1024.
Definition PAGE_SIZE : Z := 4096.
Definition GPU_VA_BASE : Z := 1048576.
Definition GPU_VA_STRIDE : Z := 4096.
Definition INVALID_PFN_VAL : Z := UINT64_MAX.

Record KfdSimState := mk_kfd_sim {
  ks_pm : option SimPageMigration;
  gpu_va_to_pfn : gmap Z Z;
  handle_to_gpu_va : gmap Z Z;
  page_count : Z;
  next_gpu_va : Z;
  next_offset : Z;
  mmu_cb : option (Z * Z);              (* function and user data, once registered *)
  firmware_cb : option (Z * Z);
  ks_mm_shim : option us_mm_shim
}.
#[export] Instance eta_kfd_sim : Eta KfdSimState := fun s =>
  mk_kfd_sim (ks_pm s) (gpu_va_to_pfn s) (handle_to_gpu_va s) (page_count s) (next_gpu_va s)
    (next_offset s) (mmu_cb s) (firmware_cb s) (ks_mm_shim s).

(** The initialisers of [g_state]. *)
Definition init_kfd_sim : KfdSimState := mk_kfd_sim None ∅ ∅ 0 GPU_VA_BASE 0 None None None.

Definition kfd_sim_reset (s : KfdSimState) : KfdSimState :=
  mk_kfd_sim (sim_pm_create DEVICE_MEM_SIZE) ∅ ∅ 0 GPU_VA_BASE 0 None None (ks_mm_shim s).
Definition kfd_sim_lookup_pfn (va : Z) (s : KfdSimState) : Z :=
  default INVALID_PFN_VAL (gpu_va_to_pfn s !! va).
Definition kfd_sim_set_mm_shim (m : option us_mm_shim) (s : KfdSimState) : KfdSimState :=
  s <| ks_mm_shim := m |>.

(** [for (p = 0; p < n; p++) register_vma(va + p * PAGE_SIZE, ...)] *)
Fixpoint register_pages (va : Z) (n : nat) (m : us_mm_shim) : us_mm_shim :=
  match n with
  | O => m
  | S n' =>
      register_pages (u64 (va + PAGE_SIZE)) n'
        (us_mm_shim_register_vma va (u64 (va + PAGE_SIZE)) 0 m).2
  end.
Definition vma_pages (size : Z) : Z :=
  let n := u64 (size + PAGE_SIZE - 1) / PAGE_SIZE in if n =? 0 then 1 else n.

Record gpu_map_memory_args := mk_map_args {
  mm_handle : Z; mm_n_devices : Z; mm_n_success : Z; mm_gpu_va : Z; mm_size : Z
}.
#[export] Instance eta_map_args : Eta gpu_map_memory_args := fun a =>
  mk_map_args (mm_handle a) (mm_n_devices a) (mm_n_success a) (mm_gpu_va a) (mm_size a).

Definition bad_devices (n : Z) : bool := (n =? 0) || (8 <? n).

Definition kfd_sim_handle_map_memory (a : gpu_map_memory_args) (s : KfdSimState) :
    Z * gpu_map_memory_args * KfdSimState :=
  if mm_size a =? 0 then (- EINVAL, a, s)
  else if bad_devices (mm_n_devices a) then (- EINVAL, a, s)
  else match ks_pm s with
  | None => (- ENODEV, a, s)
  | Some pm =>
      let offset := next_offset s in
      let s := s <| next_offset := (offset + PAGE_SIZE) mod DEVICE_MEM_SIZE |> in
      let '(ret, pm) := sim_pm_migrate_to_device offset (Some (replicate 4096 0)) pm in
      if ret <? 0 then (ret, a, s <| ks_pm := Some pm |>)
      else
        let gpu_va := next_gpu_va s in
        let pfn := sim_pm_lookup_pfn offset pm in
        (0, a <| mm_gpu_va := gpu_va |> <| mm_n_success := mm_n_devices a |>,
         {| ks_pm := Some pm;
            gpu_va_to_pfn := <[gpu_va := pfn]> (gpu_va_to_pfn s);
            handle_to_gpu_va := <[mm_handle a := gpu_va]> (handle_to_gpu_va s);
            page_count := u32 (page_count s + 1);
            next_gpu_va := u64 (gpu_va + GPU_VA_STRIDE);
            next_offset := next_offset s;
            mmu_cb := mmu_cb s;
            firmware_cb := firmware_cb s;
            ks_mm_shim := register_pages gpu_va (Z.to_nat (vma_pages (mm_size a))) <$> ks_mm_shim s |})
  end.

Record gpu_unmap_memory_args := mk_unmap_args {
  um_handle : Z; um_n_devices : Z; um_n_success : Z
}.
#[export] Instance eta_unmap_args : Eta gpu_unmap_memory_args := fun a =>
  mk_unmap_args (um_handle a) (um_n_devices a) (um_n_success a).

Definition kfd_sim_handle_unmap_memory (a : gpu_unmap_memory_args) (s : KfdSimState) :
    Z * gpu_unmap_memory_args * KfdSimState :=
  if bad_devices (um_n_devices a) then (- EINVAL, a, s)
  else match ks_pm s with
  | None => (- ENODEV, a, s)
  | Some _ =>
      let a' := a <| um_n_success := um_n_devices a |> in
      match handle_to_gpu_va s !! um_handle a with
      | None => (0, a', s)
      | Some va =>
          (0, a',
           s <| handle_to_gpu_va ::= delete (um_handle a) |> <| gpu_va_to_pfn ::= delete va |>
             <| page_count ::= fun n => if 0 <? n then n - 1 else n |>
             <| ks_mm_shim ::= fmap (fun m => (us_mm_shim_unregister_vma va (u64 (va + PAGE_SIZE)) m).2) |>)
      end
  end.

(** One [gpu_aperture_info] for each node, in order. *)
Record gpu_aperture_info := mk_aperture {
  ap_gpu_id : Z; lds_base : Z; lds_limit : Z; scratch_base : Z; scratch_limit : Z;
  gpuvm_base : Z; gpuvm_limit : Z
}.
Definition aperture (i : Z) : gpu_aperture_info :=
  mk_aperture i (2097152 + i * 65536) (2097152 + i * 65536 + 65536)
    (3145728 + i * 1048576) (3145728 + i * 1048576 + 1048576)
    GPU_VA_BASE (GPU_VA_BASE + DEVICE_MEM_SIZE).
Definition kfd_sim_handle_get_process_aperture (num_nodes apertures_ptr : Z) :
    Z * list gpu_aperture_info :=
  if bad_devices num_nodes then (- EINVAL, [])
  else if apertures_ptr =? 0 then (- EFAULT, [])
  else (0, aperture <$> seqZ 0 num_nodes).

Definition kfd_sim_handle_update_queue (queue_handle queue_flags : Z) : Z :=
  if queue_handle =? 0 then - EINVAL
  else if truthy (Z.land queue_flags (Z.lxor 15 (2 ^ 32 - 1))) then - EINVAL
  else 0.

Definition EALREADY : Z := 114.
Definition kfd_sim_register_mmu_cb (fn data : Z) (s : KfdSimState) : Z * KfdSimState :=
  if fn =? 0 then (- EINVAL, s)
  else match mmu_cb s with
       | Some _ => (- EALREADY, s)
       | None => (0, s <| mmu_cb := Some (fn, data) |>)
       end.
Definition kfd_sim_register_firmware_cb (fn data : Z) (s : KfdSimState) : Z * KfdSimState :=
  if fn =? 0 then (- EINVAL, s) else (0, s <| firmware_cb := Some (fn, data) |>).

(** ** Sequences of calls *)
Inductive kfd_op :=
| KMap (a : gpu_map_memory_args)
| KUnmap (a : gpu_unmap_memory_args)
| KMmuCb (fn data : Z)
| KFirmwareCb (fn data : Z).
Definition kfd_run (s : KfdSimState) (op : kfd_op) : KfdSimState :=
  match op with
  | KMap a => (kfd_sim_handle_map_memory a s).2
  | KUnmap a => (kfd_sim_handle_unmap_memory a s).2
  | KMmuCb fn data => (kfd_sim_register_mmu_cb fn data s).2
  | KFirmwareCb fn data => (kfd_sim_register_firmware_cb fn data s).2
  end.

(** The address and the frame of the [i]-th mapping made. *)
Definition nth_va (i : Z) : Z := GPU_VA_BASE + i * GPU_VA_STRIDE.
Definition nth_pfn (i : Z) : Z := i mod 4096.

(** [k] mappings have been made; [orphans] are addresses still mapped that no
    handle leads to. *)
Record kfd_ok (k : Z) (s : KfdSimState) : Prop := {
  ko_pm : exists pm, ks_pm s = Some pm /\ device_mem_size pm = DEVICE_MEM_SIZE;
  ko_next : next_gpu_va s = nth_va k;
  ko_offset : next_offset s = nth_pfn k * PAGE_SIZE;
  ko_pfn : forall va pfn, gpu_va_to_pfn s !! va = Some pfn ->
    exists i, 0 <= i < k /\ va = nth_va i /\ pfn = nth_pfn i;
  ko_handle : forall h va, handle_to_gpu_va s !! h = Some va -> is_Some (gpu_va_to_pfn s !! va);
  ko_inj : forall h h' va, handle_to_gpu_va s !! h = Some va ->
    handle_to_gpu_va s !! h' = Some va -> h = h';
  ko_count : page_count s = Z.of_nat (size (gpu_va_to_pfn s));
  ko_k : 0 <= k;
  ko_few : page_count s <= k
}.

Lemma kfd_reset_ok s : kfd_ok 0 (kfd_sim_reset s).
Proof. split; simpl; try done. by eexists. Qed.

(** A frame is always available: the migration of a zeroed page succeeds. *)
Lemma migrate_page_ok k pm :
  device_mem_size pm = DEVICE_MEM_SIZE ->
  exists pm', sim_pm_migrate_to_device (nth_pfn k * PAGE_SIZE) (Some (replicate 4096 0)) pm = (0, pm') /\
    device_mem_size pm' = DEVICE_MEM_SIZE /\
    sim_pm_lookup_pfn (nth_pfn k * PAGE_SIZE) pm' = nth_pfn k.
Proof.
  intros Hsz. unfold sim_pm_migrate_to_device, pm_guard. rewrite length_replicate, Hsz.
  assert (0 <= nth_pfn k < 4096) by (apply Z.mod_pos_bound; lia).
  unfold PAGE_SIZE, DEVICE_MEM_SIZE in *. rewrite u64_id by lia.
  destruct (Z.ltb_spec (16 * 1024 * 1024) (nth_pfn k * 4096 + Z.of_nat 4096)); [lia|].
  eexists. split; [reflexivity|]. split; [done|].
  unfold sim_pm_lookup_pfn. simpl. rewrite !lookup_insert_eq. simpl. by rewrite Z.div_mul.
Qed.

(** What a valid map call does. *)
Lemma map_memory_step k a s :
  kfd_ok k s -> mm_size a <> 0 -> bad_devices (mm_n_devices a) = false ->
  exists pm, kfd_sim_handle_map_memory a s =
    (0, a <| mm_gpu_va := nth_va k |> <| mm_n_success := mm_n_devices a |>,
     {| ks_pm := Some pm;
        gpu_va_to_pfn := <[nth_va k := nth_pfn k]> (gpu_va_to_pfn s);
        handle_to_gpu_va := <[mm_handle a := nth_va k]> (handle_to_gpu_va s);
        page_count := u32 (page_count s + 1);
        next_gpu_va := u64 (nth_va (k + 1));
        next_offset := nth_pfn (k + 1) * PAGE_SIZE;
        mmu_cb := mmu_cb s; firmware_cb := firmware_cb s;
        ks_mm_shim := register_pages (nth_va k) (Z.to_nat (vma_pages (mm_size a))) <$> ks_mm_shim s |}) /\
    device_mem_size pm = DEVICE_MEM_SIZE.
Proof.
  intros [(pm & Hpm & Hsz) Hn Ho _ _ _ _ _] Hs Hd. unfold kfd_sim_handle_map_memory.
  destruct (Z.eqb_spec (mm_size a) 0); [done|]. rewrite Hd, Hpm, Ho.
  destruct (migrate_page_ok k pm Hsz) as (pm' & Hm & Hsz' & Hl). rewrite Hm. simpl.
  exists pm'. split; [|done]. rewrite Hl.
  rewrite Hn. unfold field_upd. simpl. f_equal. f_equal.
  - f_equal. unfold nth_va, GPU_VA_STRIDE. lia.
  - unfold nth_pfn, PAGE_SIZE, DEVICE_MEM_SIZE. Z.div_mod_to_equations. lia.
Qed.

Lemma nth_va_inj i j : nth_va i = nth_va j -> i = j.
Proof. unfold nth_va, GPU_VA_STRIDE. lia. Qed.
Lemma nth_va_fresh k s : kfd_ok k s -> gpu_va_to_pfn s !! nth_va k = None.
Proof.
  intros Hok. destruct (gpu_va_to_pfn s !! nth_va k) as [pfn|] eqn:E; [exfalso|done].
  destruct (ko_pfn _ _ Hok _ _ E) as (i & Hi & Heq & _). apply nth_va_inj in Heq. lia.
Qed.

Lemma map_memory_ok k a s :
  kfd_ok k s -> k < 2 ^ 32 - 1 -> mm_size a <> 0 -> bad_devices (mm_n_devices a) = false ->
  kfd_ok (k + 1) (kfd_sim_handle_map_memory a s).2.
Proof.
  intros Hok Hk Hs Hd. destruct (map_memory_step k a s Hok Hs Hd) as (pm & E & Hsz). rewrite E.
  pose proof (nth_va_fresh _ _ Hok) as Hf.
  destruct Hok as [_ _ _ Hp Hh Hi Hc H0 Hw]. unfold field_upd. split; simpl.
  - by exists pm.
  - apply u64_id. unfold nth_va, GPU_VA_BASE, GPU_VA_STRIDE. lia.
  - done.
  - intros va pfn [[<- <-]|[Hne H]]%lookup_insert_Some; [exists k; lia|].
    destruct (Hp _ _ H) as (i & ? & ? & ?). exists i. lia || (split; [lia|done]).
  - intros h va [[<- <-]|[Hne H]]%lookup_insert_Some; [by rewrite lookup_insert_eq|].
    rewrite lookup_insert_is_Some'. right. by eapply Hh.
  - intros h h' va [[<- <-]|[Hne H]]%lookup_insert_Some [[<- ?]|[Hne' H']]%lookup_insert_Some;
      [done| | |by eapply Hi]; exfalso.
    + destruct (Hh _ _ H') as [? Hx]. by rewrite Hf in Hx.
    + subst va. destruct (Hh _ _ H) as [? Hx]. by rewrite Hf in Hx.
  - rewrite map_size_insert_None, u32_id by (done || lia). lia.
  - lia.
  - rewrite u32_id by lia. lia.
Qed.

Lemma unmap_memory_ok k a s : kfd_ok k s -> kfd_ok k (kfd_sim_handle_unmap_memory a s).2.
Proof.
  intros Hok. unfold kfd_sim_handle_unmap_memory. destruct (bad_devices _); [done|].
  destruct (ks_pm s) as [pm|] eqn:Epm; [|done].
  destruct (handle_to_gpu_va s !! um_handle a) as [va|] eqn:Eh; [|done].
  destruct Hok as [(pm' & Hpm & Hsz) Hn Ho Hp Hh Hi Hc H0 Hw]. destruct (Hh _ _ Eh) as [pfn Hva].
  assert (Hsize : Z.of_nat (size (gpu_va_to_pfn s)) = Z.of_nat (size (delete va (gpu_va_to_pfn s))) + 1).
  { rewrite map_size_delete_Some by done.
    pose proof (map_size_ne_0_lookup_2 (gpu_va_to_pfn s) va ltac:(by eexists)). lia. }
  assert (Hpos : 0 < page_count s) by lia.
  unfold field_upd. split; simpl; try done.
  - by exists pm'.
  - intros x q [Hne H]%lookup_delete_Some. by eapply Hp.
  - intros h x [Hne H]%lookup_delete_Some. destruct (Hh _ _ H) as [q Hq].
    exists q. apply lookup_delete_Some. split; [|done]. intros <-. apply Hne. by eapply Hi.
  - intros h h' x [_ H]%lookup_delete_Some [_ H']%lookup_delete_Some. by eapply Hi.
  - destruct (Z.ltb_spec 0 (page_count s)); lia.
  - destruct (Z.ltb_spec 0 (page_count s)); lia.
Qed.

(** How many mappings a trace makes. *)
Definition maps_of (op : kfd_op) : Z :=
  match op with
  | KMap a => if negb (mm_size a =? 0) && negb (bad_devices (mm_n_devices a)) then 1 else 0
  | _ => 0
  end.

Lemma kfd_run_ok k op s :
  kfd_ok k s -> k + maps_of op <= 2 ^ 32 - 1 -> kfd_ok (k + maps_of op) (kfd_run s op).
Proof.
  intros Hok Hk. destruct op as [a|a|fn data|fn data]; simpl in *; rewrite ?Z.add_0_r in *.
  - destruct (Z.eqb_spec (mm_size a) 0) as [E|E]; simpl in *.
    { unfold kfd_sim_handle_map_memory. rewrite Z.add_0_r, (proj2 (Z.eqb_eq _ _) E). done. }
    destruct (bad_devices (mm_n_devices a)) eqn:Ed; simpl in *.
    + unfold kfd_sim_handle_map_memory. rewrite Z.add_0_r, Ed. by destruct (mm_size a =? 0).
    + apply map_memory_ok; [done|lia|done|done].
  - by apply unmap_memory_ok.
  - unfold kfd_sim_register_mmu_cb. destruct (fn =? 0); [done|].
    destruct (mmu_cb s); [done|]. by destruct Hok.
  - unfold kfd_sim_register_firmware_cb. destruct (fn =? 0); [done|]. by destruct Hok.
Qed.

Definition total_maps (ops : list kfd_op) : Z := foldr (fun op n => maps_of op + n) 0 ops.

Lemma maps_of_nonneg op : 0 <= maps_of op.
Proof. destruct op; simpl; try lia. by case_match. Qed.
Lemma total_maps_nonneg ops : 0 <= total_maps ops.
Proof. induction ops as [|op ops IH]; simpl; [lia|]. pose proof (maps_of_nonneg op). lia. Qed.

Lemma kfd_runs_ok ops k s :
  kfd_ok k s -> k + total_maps ops <= 2 ^ 32 - 1 ->
  kfd_ok (k + total_maps ops) (fold_left kfd_run ops s).
Proof.
  revert k s. induction ops as [|op ops IH]; intros k s Hok Hk; simpl in *.
  - by rewrite Z.add_0_r.
  - pose proof (total_maps_nonneg ops). rewrite Z.add_assoc. apply IH; [|lia].
    apply kfd_run_ok; [done|lia].
Qed.

(** The addresses that the successful MAP_MEMORY calls of a trace answer, in order. *)
Definition map_answer (op : kfd_op) (s : KfdSimState) : list Z :=
  match op with
  | KMap a => let '(ret, a', _) := kfd_sim_handle_map_memory a s in if ret =? 0 then [mm_gpu_va a'] else []
  | _ => []
  end.
Fixpoint map_answers (ops : list kfd_op) (s : KfdSimState) : list Z :=
  match ops with
  | [] => []
  | op :: ops' => map_answer op s ++ map_answers ops' (kfd_run s op)
  end.
Lemma map_answer_exact k op s : kfd_ok k s -> map_answer op s = nth_va <$> seqZ k (maps_of op).
Proof.
  intros Hok. destruct op as [a|a|fn data|fn data]; [|done..]. simpl.
  destruct (Z.eqb_spec (mm_size a) 0) as [E|E]; simpl.
  { unfold kfd_sim_handle_map_memory. by rewrite (proj2 (Z.eqb_eq _ _) E). }
  destruct (bad_devices (mm_n_devices a)) eqn:Ed; simpl.
  - unfold kfd_sim_handle_map_memory. rewrite Ed. by destruct (mm_size a =? 0).
  - destruct (map_memory_step k a s Hok E Ed) as (pm & -> & _). done.
Qed.
Lemma map_answers_exact ops k s :
  kfd_ok k s -> k + total_maps ops <= 2 ^ 32 - 1 -> map_answers ops s = nth_va <$> seqZ k (total_maps ops).
Proof.
  revert k s. induction ops as [|op ops IH]; intros k s Hok Hk; simpl in *; [done|].
  pose proof (total_maps_nonneg ops). pose proof (maps_of_nonneg op).
  rewrite (map_answer_exact k) by done. rewrite (IH (k + maps_of op)) by (try apply kfd_run_ok; (done || lia)).
  by rewrite <- fmap_app, seqZ_app.
Qed.

(** C36. For any sequence of calls with fewer than 2^32 successful mappings
    since the last reset: the [i]-th MAP_MEMORY that succeeds answers address
    [0x100000 + 4096 i], whatever was unmapped in between, so that no address is
    given out twice; while it is mapped its frame is [i mod 4096], and nothing
    else is mapped, so that two mapped addresses share a device frame exactly
    when they differ by a multiple of 16 MiB; the page count is the number of
    mapped addresses; and every handle leads to a mapped address, which is no
    other handle's.  (A mapped address need not have a handle: mapping a handle
    twice takes the first address from it, [kfd_remap_leaks].) *)
Theorem kfd_mappings_exact s0 ops :
  total_maps ops < 2 ^ 32 ->
  let s := fold_left kfd_run ops (kfd_sim_reset s0) in
  let answers := map_answers ops (kfd_sim_reset s0) in
  answers = (fun i => 0x100000 + 4096 * i) <$> seqZ 0 (total_maps ops) /\ NoDup answers /\
  (forall va, kfd_sim_lookup_pfn va s <> INVALID_PFN_VAL ->
     exists i, 0 <= i < total_maps ops /\ va = 0x100000 + 4096 * i /\ kfd_sim_lookup_pfn va s = i mod 4096) /\
  (forall va va', kfd_sim_lookup_pfn va s <> INVALID_PFN_VAL -> kfd_sim_lookup_pfn va' s <> INVALID_PFN_VAL ->
     kfd_sim_lookup_pfn va s = kfd_sim_lookup_pfn va' s <-> va mod DEVICE_MEM_SIZE = va' mod DEVICE_MEM_SIZE) /\
  page_count s = Z.of_nat (size (gpu_va_to_pfn s)) /\
  (forall h va, handle_to_gpu_va s !! h = Some va ->
     kfd_sim_lookup_pfn va s <> INVALID_PFN_VAL /\
     forall h', handle_to_gpu_va s !! h' = Some va -> h' = h).
Proof.
  intros Hops s answers. assert (Hok : kfd_ok (total_maps ops) s).
  { apply (kfd_runs_ok ops 0); [apply kfd_reset_ok|lia]. }
  assert (answers = (fun i => 0x100000 + 4096 * i) <$> seqZ 0 (total_maps ops)) as Ha.
  { unfold answers. rewrite (map_answers_exact ops 0); [|apply kfd_reset_ok|lia].
    apply list_fmap_ext. intros _ i _. unfold nth_va, GPU_VA_BASE, GPU_VA_STRIDE. lia. }
  assert (Hmapped : forall va, kfd_sim_lookup_pfn va s <> INVALID_PFN_VAL ->
    exists i, 0 <= i < total_maps ops /\ va = 0x100000 + 4096 * i /\ kfd_sim_lookup_pfn va s = i mod 4096).
  { unfold kfd_sim_lookup_pfn. intros va Hva. destruct (gpu_va_to_pfn s !! va) as [p|] eqn:E; [|done].
    destruct (ko_pfn _ _ Hok _ _ E) as (i & Hi & -> & ->). exists i. split; [done|]. split; [|done].
    unfold nth_va, GPU_VA_BASE, GPU_VA_STRIDE. lia. }
  split; [done|]. split; [|split; [done|split; [|split; [apply Hok|]]]].
  - rewrite Ha. apply NoDup_fmap_2_strong; [intros x y _ _; lia|apply NoDup_seqZ].
  - intros va va' (i & Hi & -> & ->)%Hmapped (j & Hj & -> & ->)%Hmapped. unfold DEVICE_MEM_SIZE.
    Z.div_mod_to_equations. lia.
  - intros h va Hva. split; [|intros h' Hva'; by eapply (ko_inj _ _ Hok)].
    destruct (ko_handle _ _ Hok _ _ Hva) as [pfn E]. unfold kfd_sim_lookup_pfn. rewrite E.
    destruct (ko_pfn _ _ Hok _ _ E) as (i & Hi & -> & ->). simpl. unfold nth_pfn, INVALID_PFN_VAL, UINT64_MAX.
    pose proof (Z.mod_pos_bound i 4096). lia.
Qed.

(** Mapping a handle that has no mapping and unmapping it again restores both
    tables and the page count; the address and the frame are not reused. *)
Lemma kfd_map_unmap k a b s :
  kfd_ok k s -> k < 2 ^ 32 - 1 -> mm_size a <> 0 -> bad_devices (mm_n_devices a) = false ->
  bad_devices (um_n_devices b) = false -> um_handle b = mm_handle a ->
  handle_to_gpu_va s !! mm_handle a = None ->
  let s' := fold_left kfd_run [KMap a; KUnmap b] s in
  gpu_va_to_pfn s' = gpu_va_to_pfn s /\ handle_to_gpu_va s' = handle_to_gpu_va s /\
  page_count s' = page_count s /\ next_gpu_va s' = nth_va (k + 1).
Proof.
  intros Hok Hk Hs Hd Hd' Hh Hfree. simpl.
  pose proof (map_memory_ok _ _ _ Hok Hk Hs Hd) as Hok'. destruct (ko_next _ _ Hok') as [].
  destruct (map_memory_step k a s Hok Hs Hd) as (pm & E & Hsz). rewrite E in *. simpl.
  unfold kfd_sim_handle_unmap_memory. rewrite Hd'. unfold field_upd. simpl.
  rewrite Hh, lookup_insert_eq. simpl. rewrite !delete_insert_id by (done || by eapply nth_va_fresh).
  split; [done|]. split; [done|]. split; [|done].
  pose proof (ko_count _ _ Hok). pose proof (ko_few _ _ Hok). rewrite u32_id by lia.
  destruct (Z.ltb_spec 0 (page_count s + 1)); lia.
Qed.

(** Mapping a handle twice leaves the first address mapped with no handle to
    unmap it by: the page count no longer returns to zero. *)
Lemma kfd_remap_leaks :
  let a := mk_map_args 7 1 0 0 4096 in
  let s := fold_left kfd_run [KMap a; KMap a; KUnmap (mk_unmap_args 7 1 0); KUnmap (mk_unmap_args 7 1 0)]
             (kfd_sim_reset init_kfd_sim) in
  page_count s = 1 /\ kfd_sim_lookup_pfn GPU_VA_BASE s = 0 /\ handle_to_gpu_va s = ∅.
Proof. vm_compute. done. Qed.

(** A mapping of two pages registers two areas, and unmapping it removes one. *)
Lemma kfd_unmap_leaves_area :
  let a := mk_map_args 7 1 0 0 8192 in
  let s := fold_left kfd_run [KMap a; KUnmap (mk_unmap_args 7 1 0)]
             (kfd_sim_set_mm_shim (Some (us_mm_shim_init 0)) (kfd_sim_reset init_kfd_sim)) in
  vmas <$> ks_mm_shim s = Some [mk_vma (GPU_VA_BASE + 4096) (GPU_VA_BASE + 8192) 0].
Proof. reflexivity. Qed.

Lemma kfd_mappings_exact_witness :
  let s := fold_left kfd_run [KMap (mk_map_args 7 1 0 0 4096); KMap (mk_map_args 8 1 0 0 4096);
                              KUnmap (mk_unmap_args 7 1 0)] (kfd_sim_reset init_kfd_sim) in
  page_count s = 1 /\ page_count s = Z.of_nat (size (gpu_va_to_pfn s)).
Proof.
  split; [vm_compute; reflexivity|].
  apply (kfd_mappings_exact init_kfd_sim [KMap (mk_map_args 7 1 0 0 4096); KMap (mk_map_args 8 1 0 0 4096);
                              KUnmap (mk_unmap_args 7 1 0)]).
  vm_compute. reflexivity.
Defined.
