(* ===== verification/HalCalls.v ===== *)
(** * The table of HAL functions

    [struct gpu_hal_ops] of [plugins/gpu_driver/hal/gpu_hal.h] as its drivers
    see it: one constructor per function pointer, indexed by what the call
    gives back (the result code and what is stored through its out pointers),
    and a class whose instance is an implementation of the table over a state.
    Calls whose outcome depends on the operating system carry its answer as an
    argument ([mmap_ok], [pipe]).  The laws state what the drivers rely on of
    device memory. *)
From S2P Require Import Prelude GpuTypes SimHw StreamCapture MemPool.

Inductive hal_op : Type -> Type :=
(* registers, device memory, fences *)
| RegisterRead (off : Z) : hal_op (Z * Z)
| RegisterWrite (off v : Z) : hal_op Z
| MemRead (dev n : Z) : hal_op (Z * list Z)
| MemWrite (dev : Z) (bs : list Z) : hal_op Z
| MemAlloc (n : Z) : hal_op (Z * option Z)
| MemFree (dev : Z) : hal_op Z
| FenceCreate : hal_op (Z * option Z)
| FenceRead (f : Z) : hal_op (Z * option Z)
| DoorbellRing (queue_id : Z) : hal_op unit
| InterruptRaise (vector : Z) : hal_op unit
| TimeWait (us : Z) : hal_op unit
(* IOMMU and events *)
| IommuMap (va size domain_id : Z) : hal_op Z
| IommuUnmap (va size : Z) : hal_op Z
| EventSignal (pasid event_id events : Z) : hal_op Z
| EventWait (event_id timeout_us : Z) : hal_op (option Z)
| EventNotify (event_id : Z) : hal_op Z
| MemMapBo (bo_offset n : Z) : hal_op (Z * option Z)
| InterruptRegister (vector : Z) (f : option Z) : hal_op Z
| InterruptRaiseEx (vector data : Z) : hal_op unit
(* preemption, semaphores, green contexts, device-side launch *)
| Preempt (channel : Z) : hal_op Z
| Resume (channel : Z) : hal_op Z
| SemCreate (v : Z) : hal_op (Z * option Z)
| SemSignal (h v : Z) : hal_op Z
| SemWait (h v cb data : Z) : hal_op Z
| SemQuery (h : Z) : hal_op (Z * option Z)
| GreenCreate (tsg : Z) : hal_op (Z * option Z)
| GreenDestroy (h : Z) : hal_op Z
| PdlLaunch (kernel kernargs grid block : Z) : hal_op (Z * option Z)
| PdlSignal (h v : Z) : hal_op Z
| SemDestroy (h : Z) : hal_op Z
(* fence ids, method codec, heap pointer *)
| FenceIdAlloc : hal_op Z
| FenceIdSignal (f : Z) : hal_op unit
| FenceIdCheck (f : Z) : hal_op (Z * option bool)
| MethodEncode (p : gpu_method_packet) : hal_op Z
| HeapPtr (va : Z) : hal_op Z
(* graphs *)
| GraphCreate : hal_op (Z * option Z)
| GraphDestroy (g : Z) : hal_op Z
| GraphAddKernelNode (g ki gx gy gz bx by_ bz kernargs : Z) : hal_op Z
| GraphAddMemcpyNode (g src dst n h2d : Z) : hal_op Z
| GraphInstantiate (g : Z) : hal_op (Z * option Z)
| GraphLaunch (x stream : Z) : hal_op (Z * option (Z * Z))
| GraphDestroyExec (x : Z) : hal_op Z
(* memory pools *)
| PoolCreate (p : pool_props) (mmap_ok : bool) : hal_op (Z * option (Z * Z * Z))
| PoolDestroy (h : Z) : hal_op Z
| PoolAlloc (h n : Z) : hal_op (Z * option Z)
| PoolAllocAsync (h n : Z) : hal_op (Z * option Z)
| PoolFree (h va : Z) : hal_op Z
| PoolFreeAsync (h va : Z) : hal_op (Z * option Z)
| PoolSetAttr (h attr : Z) (v : list Z) : hal_op Z
| PoolGetAttr (h attr n : Z) : hal_op (Z * option (list Z))
| PoolTrim (h n : Z) : hal_op Z
| PoolExport (h handle_type flags pipe : Z) : hal_op (Z * option Z)
(* stream capture *)
| CaptureBegin (stream mode : Z) : hal_op Z
| CaptureEnd (stream : Z) : hal_op (Z * option Z)
| CaptureStatus (stream : Z) : hal_op (Z * option Z)
(* queues and pullers *)
| QueueCreate (id type priority ring_size : Z) : hal_op (Z * option Z)
| QueueAttachShmem (q ptr : Z) (shm : list gpu_gpfifo_entry) (n : Z) : hal_op Z
| QueueSubmit (q addr count : Z) : hal_op (Z * option Z)
| QueueDestroy (q : Z) : hal_op Z
| QueueRegisterPuller (q p : Z) : hal_op Z
| PullerCreate (doorbell scheduler : option Z) : hal_op (Z * option Z)
| PullerDestroy (p : Z) : hal_op Z
| PullerSetPuller (p sim_puller : Z) : hal_op Z
| PullerRegisterQueue (p q : Z) : hal_op Z
| PullerUnregisterQueue (p id : Z) : hal_op Z
(* kernel images and adapters *)
| KernelModuleLoad (image_ptr n : Z) : hal_op (Z * option Z)
| KernelModuleExecute : hal_op (Z * option Z)
| KernelModuleUnload : hal_op (Z * option Z)
| AdapterGetInfo : hal_op (Z * option Z)
| AdapterOpen : hal_op (Z * option Z)
| AdapterClose (h : Z) : hal_op Z.

(** An implementation of the table over the state [H]. *)
Class GpuHal (H : Type) := hal_call : forall A, hal_op A -> H -> A * H.
Arguments hal_call {H _ A} op h.

(** The calls that change which device memory is allocated. *)
Definition allocates {A} (op : hal_op A) : bool :=
  match op with MemAlloc _ | MemFree _ | KernelModuleLoad _ _ => true | _ => false end.

(** Address ranges as (first address, length). *)
Definition range : Type := Z * Z.
Definition ranges_disjoint (x y : range) : Prop := x.1 + x.2 <= y.1 \/ y.1 + y.2 <= x.1.

(** The device memory that GET_DEVICE_INFO reports. *)
Definition SIMULATED_VRAM_SIZE : Z := 8 * 1024 * 1024 * 1024.

(** What a granted block is relied on to hold: the request, if it is at most
    [2^63]; the rounding of larger ones wraps around. *)
Definition covers (n m : Z) : Prop := n <= 2 ^ 63 -> n <= m.

(** What the drivers rely on: [hal_ok] holds of the states the table reaches
    and [hal_live] lists the ranges that are allocated in it. *)
Class GpuHalLaws (H : Type) `{GpuHal H} := {
  hal_ok : H -> Prop;
  hal_live : H -> list range;
  hal_live_disjoint : forall h x y rest, hal_ok h -> hal_live h ≡ₚ x :: y :: rest ->
    ranges_disjoint x y;
  hal_live_range : forall h x, hal_ok h -> x ∈ hal_live h -> 0 < x.1 /\ 0 < x.2;
  hal_alloc_law : forall n h, hal_ok h -> is_u64 n ->
    let '(r, o, h') := hal_call (MemAlloc n) h in
    hal_ok h' /\
    match o with
    | Some a => r = 0 /\ exists m, covers n m /\ hal_live h' ≡ₚ (a, m) :: hal_live h
    | None => r <> 0 /\ hal_live h' = hal_live h
    end;
  hal_free_law : forall a m rest h, hal_ok h -> hal_live h ≡ₚ (a, m) :: rest ->
    let '(r, h') := hal_call (MemFree a) h in
    r = 0 /\ hal_ok h' /\ hal_live h' ≡ₚ rest;
  hal_load_law : forall p n h, hal_ok h -> 0 <= n ->
    let '(r, o, h') := hal_call (KernelModuleLoad p n) h in
    hal_ok h' /\
    match o with
    | Some a => r = 0 /\ exists m, n <= m /\ hal_live h' ≡ₚ (a, m) :: hal_live h
    | None => r <> 0 /\ hal_live h' = hal_live h
    end;
  hal_frame_law : forall A (op : hal_op A) h, allocates op = false -> hal_ok h ->
    hal_ok (hal_call op h).2 /\ hal_live (hal_call op h).2 = hal_live h
}.
