(* ===== verification/HalMachine.v ===== *)
(** * The user-space implementation of the table of HAL functions

    [hal_user_init] of [plugins/gpu_driver/hal/hal_user.cpp] fills the table
    with the functions of [HalUser] and with lambdas that forward to the
    simulated services; the queue and puller tables live in the HAL context.
    The state [hal_machine] puts the context and the file-level state of the
    services side by side; the fence table is the one the memory pools use. *)
From S2P Require Import Prelude GpuTypes Hal HalUser FenceId Graph StreamCapture MemPool SimMem SimHw Ring Puller BuddySafe HalCalls.

(** A queue of the table: the object and the puller its [puller_] points to. *)
Record queue_obj := mk_queue_obj { qo_queue : GpuQueueEmu; qo_puller : Z }.
#[export] Instance eta_queue_obj : Eta queue_obj := fun q =>
  mk_queue_obj (qo_queue q) (qo_puller q).

Record hal_machine := mk_machine {
  hm_user : hal_user_context;
  hm_graph : graph_state;
  hm_capture : capture_state;
  hm_pools : mempool_state;
  hm_vram : GpuVramStore;
  hm_queues : gmap Z queue_obj;
  hm_next_queue_handle : Z;
  hm_pullers : gmap Z Puller;
  hm_next_puller_handle : Z;
  hm_backdoor_puller : option Z;
  hm_backdoor_channel_mgr : bool
}.
#[export] Instance eta_machine : Eta hal_machine := fun m =>
  mk_machine (hm_user m) (hm_graph m) (hm_capture m) (hm_pools m) (hm_vram m) (hm_queues m)
    (hm_next_queue_handle m) (hm_pullers m) (hm_next_puller_handle m) (hm_backdoor_puller m)
    (hm_backdoor_channel_mgr m).

Definition hm_fences (m : hal_machine) : fence_state := mp_fences (hm_pools m).
Definition set_fences (f : fence_state) (m : hal_machine) : hal_machine :=
  m <| hm_pools ::= fun p => p <| mp_fences := f |> |>.

(** After [plugin_init_internal]: no semaphore manager, no back-door objects. *)
Definition init_machine (memory : Z -> Z) (heap_ptr : Z) (vram : GpuVramStore) : hal_machine :=
  mk_machine (hal_user_init memory heap_ptr None) init_graph init_capture
    (init_mempool (init_fence None)) vram ∅ 1 ∅ 1 None false.

(** Run an operation of one component inside the machine. *)
Definition on_user {A} (f : hal_user_context -> A * hal_user_context) (m : hal_machine) :
    A * hal_machine := let '(a, u) := f (hm_user m) in (a, m <| hm_user := u |>).
Definition on_user2 {A B} (f : hal_user_context -> A * B * hal_user_context) (m : hal_machine) :
    (A * B) * hal_machine := let '(a, b, u) := f (hm_user m) in ((a, b), m <| hm_user := u |>).
Definition on_user_ (f : hal_user_context -> hal_user_context) (m : hal_machine) :
    unit * hal_machine := (tt, m <| hm_user ::= f |>).
Definition on_graph {A} (f : graph_state -> A * graph_state) (m : hal_machine) : A * hal_machine :=
  let '(a, g) := f (hm_graph m) in (a, m <| hm_graph := g |>).
Definition on_pools {A} (f : mempool_state -> A * mempool_state) (m : hal_machine) :
    A * hal_machine := let '(a, p) := f (hm_pools m) in (a, m <| hm_pools := p |>).
Definition on_capture {A} (f : capture_state -> A * capture_state) (m : hal_machine) :
    A * hal_machine := let '(a, c) := f (hm_capture m) in (a, m <| hm_capture := c |>).

(** What an out parameter holds after a call that fills it when it returns 0. *)
Definition when_ok {A} (r : Z) (a : A) : option A := if r =? 0 then Some a else None.

(** ** Pools: what the lambdas add to the simulation's functions *)
Definition pool_alloc_async (m : hal_machine) : (Z * option Z) * hal_machine :=
  let '(f, fs) := sim_fence_id_alloc (hm_fences m) in
  if f <? 0 then ((- ENOMEM, None), set_fences fs m)
  else ((0, Some f), set_fences (sim_fence_id_signal f fs).2 m).
Definition pool_free (va : Z) (m : hal_machine) : Z * hal_machine :=
  (0, (on_pools (sim_mem_pool_free_async va 0) m).2).
Definition pool_free_async (va : Z) (m : hal_machine) : (Z * option Z) * hal_machine :=
  let '(f, m) := on_pools (sim_mem_pool_free_async va 0) m in
  ((if f <? 0 then s32 f else 0, Some f), m).

(** ** Queues and pullers *)
Definition next_handle (h : Z) : Z * Z :=
  let n := u64 (h + 1) in if h =? 0 then (n, u64 (n + 1)) else (h, n).

Definition hm_queue_create (id type priority ring_size : Z) (m : hal_machine) :
    (Z * option Z) * hal_machine :=
  let '(qh, n) := next_handle (hm_next_queue_handle m) in
  ((0, Some qh),
   m <| hm_next_queue_handle := n |>
     <| hm_queues ::= <[qh := mk_queue_obj (new_queue id type priority ring_size) 0]> |>).

Definition set_queue (q : Z) (o : queue_obj) (m : hal_machine) : hal_machine :=
  m <| hm_queues ::= <[q := o]> |>.

Definition hm_queue_attach_shmem (q ptr : Z) (shm : list gpu_gpfifo_entry) (size : Z)
    (m : hal_machine) : Z * hal_machine :=
  if ptr =? 0 then (- EINVAL, m)
  else if size =? 0 then (- EINVAL, m)
  else match hm_queues m !! q with
       | None => (- EINVAL, m)
       | Some o =>
           let '(r, q') := attachSharedMemory (Some shm) size (qo_queue o) in
           (r, set_queue q (o <| qo_queue := q' |>) m)
       end.

(** A fence id is taken before the queue accepts or refuses the batch.  A
    puller destroyed after it was bound is a dangling pointer, outside the
    model; the plugin destroys its only puller last. *)
Definition hm_queue_submit (q addr count : Z) (m : hal_machine) : (Z * option Z) * hal_machine :=
  match hm_queues m !! q with
  | None => ((- EINVAL, None), m)
  | Some o =>
      let '(f, fs) := sim_fence_id_alloc (hm_fences m) in
      let m := set_fences fs m in
      if f <? 0 then ((- ENOMEM, None), m)
      else match queue_submit addr count f (qo_queue o) with
           | (r, Some (a, n, fence)) =>
               ((r, Some fence), m <| hm_pullers ::= alter (submit_direct a n fence) (qo_puller o) |>)
           | (r, None) => ((r, None), m)
           end
  end.

Definition hm_queue_destroy (q : Z) (m : hal_machine) : Z * hal_machine :=
  match hm_queues m !! q with
  | None => (- EINVAL, m)
  | Some _ => (0, m <| hm_queues ::= delete q |>)
  end.

Definition hm_queue_register_puller (q p : Z) (m : hal_machine) : Z * hal_machine :=
  if p =? 0 then (- EINVAL, m)
  else match hm_queues m !! q, hm_pullers m !! p with
       | Some o, Some _ =>
           (0, set_queue q (o <| qo_queue ::= setPuller |> <| qo_puller := p |>) m)
       | _, _ => (- EINVAL, m)
       end.

Definition hm_puller_create (doorbell scheduler : option Z) (m : hal_machine) :
    (Z * option Z) * hal_machine :=
  match doorbell, scheduler with
  | Some _, Some _ =>
      let '(ph, n) := next_handle (hm_next_puller_handle m) in
      ((0, Some ph),
       m <| hm_next_puller_handle := n |> <| hm_pullers ::= <[ph := init_puller]> |>)
  | _, _ => ((- EINVAL, None), m)
  end.
Definition hm_puller_destroy (p : Z) (m : hal_machine) : Z * hal_machine :=
  if p =? 0 then (- EINVAL, m)
  else match hm_pullers m !! p with
       | None => (- EINVAL, m)
       | Some _ => (0, m <| hm_pullers ::= delete p |>)
       end.
Definition hm_puller_set_puller (p sim_puller : Z) (m : hal_machine) : Z * hal_machine :=
  if p =? 0 then (- EINVAL, m)
  else match hm_pullers m !! p with
       | None => (- EINVAL, m)
       | Some pl => let '(r, pl) := setSimPuller sim_puller pl in
                    (r, m <| hm_pullers ::= <[p := pl]> |>)
       end.
Definition hm_puller_register_queue (p q : Z) (m : hal_machine) : Z * hal_machine :=
  if (p =? 0) || (q =? 0) then (- EINVAL, m)
  else match hm_pullers m !! p, hm_queues m !! q with
       | Some pl, Some o =>
           let id := queue_id (qo_queue o) in
           (0, set_queue q (o <| qo_queue ::= setDoorbellCallback |>)
                 (m <| hm_pullers ::= <[p := pl <| active_queues ::= fun l =>
                        merge_sort Z.le (id :: List.filter (fun x => negb (x =? id)) l) |>]> |>))
       | _, _ => (- EINVAL, m)
       end.
Definition hm_puller_unregister_queue (p id : Z) (m : hal_machine) : Z * hal_machine :=
  if p =? 0 then (- EINVAL, m)
  else match hm_pullers m !! p with
       | None => (- EINVAL, m)
       | Some pl => (0, m <| hm_pullers ::=
           <[p := pl <| active_queues ::= List.filter (fun x => negb (x =? id)) |>]> |>)
       end.

(** ** The test back door behind [hal_preempt] and [hal_resume]
    ([sim/backdoor_preempt.cpp]) *)
Definition backdoor_force_preempt (channel : Z) (m : hal_machine) : Z * hal_machine :=
  match hm_backdoor_puller m with
  | None => (- ENODEV, m)
  | Some p => (0, m <| hm_pullers ::= alter (triggerPreempt channel) p |>)
  end.
Definition backdoor_force_resume (channel : Z) (m : hal_machine) : Z :=
  if hm_backdoor_channel_mgr m then 0 else - ENODEV.

Definition capture_status_code (s : sim_stream_capture_status_t) : Z :=
  match s with
  | SIM_STREAM_CAPTURE_NONE => 0
  | SIM_STREAM_CAPTURE_ACTIVE => 1
  | SIM_STREAM_CAPTURE_INVALID => 2
  end.

(** ** The table *)
Definition machine_call {A} (op : hal_op A) : hal_machine -> A * hal_machine :=
  match op in hal_op T return hal_machine -> T * hal_machine with
  | RegisterRead off => fun m => (user_reg_read off (hm_user m), m)
  | RegisterWrite off v => on_user (user_reg_write off v)
  | MemRead dev n => fun m => (user_mem_read dev n (hm_user m), m)
  | MemWrite dev bs => on_user (user_mem_write dev bs)
  | MemAlloc n => on_user2 (user_mem_alloc n)
  | MemFree dev => on_user (user_mem_free dev)
  | FenceCreate => on_user2 user_fence_create
  | FenceRead f => fun m => (user_fence_read f (hm_user m), m)
  | DoorbellRing q => on_user_ (user_doorbell_ring q)
  | InterruptRaise v => on_user_ (user_interrupt_raise v)
  | TimeWait _ => fun m => (tt, m)
  | IommuMap va size _ => on_user (user_iommu_map va size)
  | IommuUnmap va size => on_user (user_iommu_unmap va size)
  | EventSignal _ e evs => on_user (user_event_signal e evs)
  | EventWait e t => fun m => (user_event_wait e t (hm_user m), m)
  | EventNotify e => on_user (user_event_notify e)
  | MemMapBo o n => fun m => (user_mem_map_bo o n (hm_vram m), m)
  | InterruptRegister v f => on_user (user_interrupt_register v f)
  | InterruptRaiseEx v d => on_user_ (user_interrupt_raise_ex v d)
  | Preempt c => backdoor_force_preempt c
  | Resume c => fun m => (backdoor_force_resume c m, m)
  | SemCreate v => on_user (hal_sem_create v)
  | SemSignal h v => on_user (hal_sem_signal h v)
  | SemWait h v cb d => on_user (hal_sem_wait h v cb d)
  | SemQuery h => on_user (hal_sem_query h)
  | GreenCreate tsg => on_user2 (hal_green_context_create tsg true)
  | GreenDestroy h => on_user (hal_green_context_destroy h)
  | PdlLaunch _ _ grid block => fun m =>
      let '(r, o, _, fs) := pdl_launch grid block true 0 (hm_fences m) in ((r, o), set_fences fs m)
  | PdlSignal h v => on_user (hal_pdl_signal_completion h v)
  | SemDestroy h => on_user (hal_sem_destroy h)
  | FenceIdAlloc => fun m => let '(f, fs) := sim_fence_id_alloc (hm_fences m) in (f, set_fences fs m)
  | FenceIdSignal f => fun m => (tt, set_fences (sim_fence_id_signal f (hm_fences m)).2 m)
  | FenceIdCheck f => fun m => (sim_fence_id_check f true (hm_fences m), m)
  | MethodEncode _ => fun m => (0, m)
  | HeapPtr va => fun m => (u64 (heap_addr va (hm_user m)), m)
  | GraphCreate => on_graph (fun g => let '(r, h, g) := sim_graph_create true g in ((r, when_ok r h), g))
  | GraphDestroy g => on_graph (sim_graph_destroy g)
  | GraphAddKernelNode g ki gx gy gz bx by_ bz ka =>
      on_graph (sim_graph_add_kernel_node g ki gx gy gz bx by_ bz (Some ka))
  | GraphAddMemcpyNode g src dst n h2d => on_graph (sim_graph_add_memcpy_node g src dst n h2d)
  | GraphInstantiate g =>
      on_graph (fun s => let '(r, x, s) := sim_graph_instantiate g true s in ((r, when_ok r x), s))
  | GraphLaunch x stream => fun m => (sim_graph_launch x stream true (hm_graph m), m)
  | GraphDestroyExec x => on_graph (sim_graph_destroy_exec x)
  | PoolCreate p ok => on_pools (sim_mem_pool_create p true ok)
  | PoolDestroy h => on_pools (sim_mem_pool_destroy h)
  | PoolAlloc h n => on_pools (sim_mem_pool_alloc h n true)
  | PoolAllocAsync _ _ => pool_alloc_async
  | PoolFree _ va => pool_free va
  | PoolFreeAsync _ va => pool_free_async va
  | PoolSetAttr h attr v => on_pools (sim_mem_pool_set_attr h attr (Some v))
  | PoolGetAttr h attr n => fun m => (sim_mem_pool_get_attr h attr true n (hm_pools m), m)
  | PoolTrim h n => fun m => (sim_mem_pool_trim h n (hm_pools m), m)
  | PoolExport h ty fl pipe => fun m =>
      let '(r, o) := sim_mem_pool_export_shareable h ty fl true pipe (hm_pools m) in
      ((r, fst <$> o), m)
  | CaptureBegin stream mode => on_capture (sim_stream_capture_begin (u32 stream) mode)
  | CaptureEnd stream => on_capture (sim_stream_capture_end (u32 stream) true)
  | CaptureStatus stream => fun m =>
      let '(r, o) := sim_stream_capture_status (u32 stream) true (hm_capture m) in
      ((r, capture_status_code <$> o), m)
  | QueueCreate id ty pr n => hm_queue_create id ty pr n
  | QueueAttachShmem q ptr shm n => hm_queue_attach_shmem q ptr shm n
  | QueueSubmit q addr count => hm_queue_submit q addr count
  | QueueDestroy q => hm_queue_destroy q
  | QueueRegisterPuller q p => hm_queue_register_puller q p
  | PullerCreate d s => hm_puller_create d s
  | PullerDestroy p => hm_puller_destroy p
  | PullerSetPuller p h => hm_puller_set_puller p h
  | PullerRegisterQueue p q => hm_puller_register_queue p q
  | PullerUnregisterQueue p id => hm_puller_unregister_queue p id
  | KernelModuleLoad p n => on_user2 (user_kernel_module_load p n)
  | KernelModuleExecute => on_user user_kernel_module_execute
  | KernelModuleUnload => on_user user_kernel_module_unload
  | AdapterGetInfo => fun m => (adapter_get_info true (hm_user m), m)
  | AdapterOpen => on_user2 (adapter_open true)
  | AdapterClose h => on_user (adapter_close h)
  end.
#[export] Instance machine_hal : GpuHal hal_machine := @machine_call.

(** ** Device memory seen through the table *)
Definition to_range (b : block) : range := (b.1, sz b.2).
Definition machine_ok (m : hal_machine) : Prop := hal_mem_ok (hm_user m).
Definition machine_live (m : hal_machine) : list range := to_range <$> allocs (hm_user m).

(** Calls that leave the allocator of the context alone. *)
Definition same_buddy (h h' : hal_user_context) : Prop :=
  hu_buddy h' = hu_buddy h /\ buddy_initialized h' = buddy_initialized h.
Lemma same_buddy_allocs h h' : same_buddy h h' -> allocs h' = allocs h.
Proof. intros [H1 H2]. unfold allocs. by rewrite H1, H2. Qed.
Lemma same_buddy_ok h h' : same_buddy h h' -> hal_mem_ok h -> hal_mem_ok h'.
Proof. intros [H1 H2]. unfold hal_mem_ok. by rewrite H1, H2. Qed.

Lemma with_sem_buddy {A} (r : A) f h : same_buddy h (with_sem r f h).2.
Proof.
  unfold with_sem. destruct (hu_sem_mgr h) as [m|]; [|done]. by destruct (f m) as [[x c] m'].
Qed.


Lemma on_user_buddy {A} (f : hal_user_context -> A * hal_user_context) m :
  same_buddy (hm_user m) (f (hm_user m)).2 -> same_buddy (hm_user m) (hm_user (on_user f m).2).
Proof. unfold on_user. by destruct (f (hm_user m)). Qed.
Lemma on_user2_buddy {A B} (f : hal_user_context -> A * B * hal_user_context) m :
  same_buddy (hm_user m) (f (hm_user m)).2 -> same_buddy (hm_user m) (hm_user (on_user2 f m).2).
Proof. unfold on_user2. by destruct (f (hm_user m)) as [[a b] u]. Qed.

(** Decide every test of an operation; each result has the allocator it began
    with. *)
Ltac same_buddy_tac :=
  repeat case_match; simplify_eq/=; try done.

Section UserOps.
  Implicit Types h : hal_user_context.
Lemma fence_create_buddy h : same_buddy h (user_fence_create h).2.
  Proof. unfold user_fence_create. same_buddy_tac. Qed.
Lemma doorbell_buddy q h : same_buddy h (user_doorbell_ring q h).
  Proof. unfold user_doorbell_ring, emit. same_buddy_tac. Qed.
Lemma raise_buddy v h : same_buddy h (user_interrupt_raise v h).
  Proof. unfold user_interrupt_raise, call_handler, count_interrupt, emit. same_buddy_tac. Qed.
Lemma raise_ex_buddy v d h : same_buddy h (user_interrupt_raise_ex v d h).
  Proof. unfold user_interrupt_raise_ex, call_handler, count_interrupt, emit. same_buddy_tac. Qed.
Lemma adapter_open_buddy h : same_buddy h (adapter_open true h).2.
  Proof. unfold adapter_open. simpl. by destruct (next_adapter_handle h =? 0). Qed.
End UserOps.

Lemma call_same_buddy {A} (op : hal_op A) m :
  allocates op = false -> same_buddy (hm_user m) (hm_user (machine_call op m).2).
Proof.
  destruct op; simpl; intros Hop; try done;
    first [ apply on_user_buddy, with_sem_buddy | apply on_user2_buddy, fence_create_buddy
          | apply on_user2_buddy, adapter_open_buddy
          | apply doorbell_buddy | apply raise_buddy | apply raise_ex_buddy
          | apply on_user_buddy | apply on_user2_buddy | idtac ];
    cbv delta [user_reg_write user_mem_write user_iommu_map user_iommu_unmap user_event_signal
      user_event_notify user_interrupt_register hal_green_context_destroy hal_green_context_create
      adapter_close on_graph on_pools on_capture pool_alloc_async pool_free
      pool_free_async set_fences backdoor_force_preempt hm_queue_create hm_queue_attach_shmem
      hm_queue_submit hm_queue_destroy hm_queue_register_puller hm_puller_create hm_puller_destroy
      hm_puller_set_puller hm_puller_register_queue hm_puller_unregister_queue set_queue] beta;
    same_buddy_tac.
Qed.

(** ** The laws *)
Lemma live_elem h x : x ∈ to_range <$> allocs h <-> exists b, x = to_range b /\ b ∈ allocs h.
Proof. apply list_elem_of_fmap. Qed.

Lemma machine_live_range m x : machine_ok m -> x ∈ machine_live m -> 0 < x.1 /\ 0 < x.2.
Proof.
  intros Hok (b & -> & Hb)%live_elem. pose proof (block_in_heap _ _ Hok Hb) as (H1 & _).
  unfold HAL_HEAP_BASE in H1. simpl. pose proof (block_size_pos _ _ Hok Hb). lia.
Qed.

Lemma machine_live_disjoint m x y rest :
  machine_ok m -> machine_live m ≡ₚ x :: y :: rest -> ranges_disjoint x y.
Proof.
  intros Hok Hp. symmetry in Hp. apply Permutation_map_inv in Hp as (l & Hl & Hp).
  destruct l as [|b [|c l]]; simplify_eq/=.
  exact (allocs_disjoint _ b c l Hok Hp).
Qed.

Lemma machine_alloc n m :
  machine_ok m -> is_u64 n ->
  let '(r, o, m') := machine_call (MemAlloc n) m in
  machine_ok m' /\
  match o with
  | Some a => r = 0 /\ exists k, covers n k /\ machine_live m' ≡ₚ (a, k) :: machine_live m
  | None => r <> 0 /\ machine_live m' = machine_live m
  end.
Proof.
  intros Hok Hn. unfold machine_live, machine_ok in *. simpl. unfold on_user2.
  destruct (Z.eq_dec n 0) as [->|Hne].
  - pose proof (alloc_zero_live _ Hok) as H.
    destruct (user_mem_alloc 0 (hm_user m)) as [[r [a|]] u]; simpl; destruct H as (-> & Ho & H2 & Hl);
      simplify_eq. by rewrite Hl.
  - pose proof (mem_alloc_spec (hm_user m) n Hok ltac:(lia)) as H.
    destruct (user_mem_alloc n (hm_user m)) as [[r [a|]] u]; simpl.
    + destruct H as (-> & H2 & Hl & Hc & _). split; [done|]. split; [done|]. exists (sz (served_order n)).
      split; [intros H63; by apply Hc|]. by rewrite Hl.
    + destruct H as (-> & H2 & Hl & _). by rewrite Hl.
Qed.

Lemma machine_load p n m :
  machine_ok m -> 0 <= n ->
  let '(r, o, m') := machine_call (KernelModuleLoad p n) m in
  machine_ok m' /\
  match o with
  | Some a => r = 0 /\ exists k, n <= k /\ machine_live m' ≡ₚ (a, k) :: machine_live m
  | None => r <> 0 /\ machine_live m' = machine_live m
  end.
Proof.
  intros Hok Hn. unfold machine_live, machine_ok in *. simpl. unfold on_user2.
  pose proof (load_spec (hm_user m) p n Hok Hn) as H.
  destruct (user_kernel_module_load p n (hm_user m)) as [[r [a|]] u]; simpl.
  - destruct H as (-> & Hb & _ & H2 & Hl & _). split; [done|]. split; [done|].
    exists (sz (order_of n)). split; [|by rewrite Hl]. apply order_of_covers.
    unfold MAX_KERNEL_IMAGE_SIZE in Hb. change (sz 21) with SIMULATED_VRAM_SIZE.
    unfold SIMULATED_VRAM_SIZE. lia.
  - destruct H as (H1 & H2 & Hl & _). rewrite Hl. split; [done|]. split; [lia|done].
Qed.

Lemma machine_free a k rest m :
  machine_ok m -> machine_live m ≡ₚ (a, k) :: rest ->
  let '(r, m') := machine_call (MemFree a) m in
  r = 0 /\ machine_ok m' /\ machine_live m' ≡ₚ rest.
Proof.
  intros Hok Hl. simpl. unfold on_user.
  assert (Ha : a ∈ (allocs (hm_user m)).*1).
  { assert (Hin : (a, k) ∈ machine_live m) by (rewrite Hl; left).
    apply live_elem in Hin as (b & Hb & Hin). injection Hb as -> _. by apply (list_elem_of_fmap_2 fst). }
  pose proof (mem_free_live _ _ Hok Ha) as (o & Hp & Hr & Hok').
  destruct (user_mem_free a (hm_user m)) as [r u]. simpl in *. split; [done|]. split; [done|].
  unfold machine_live in *. simpl. rewrite Hp in Hl. cbn [fmap list_fmap] in Hl.
  change (to_range (a, o)) with (a, sz o) in Hl.
  destruct (decide (sz o = k)) as [<-|Hne]; [by apply Permutation_cons_inv in Hl|exfalso].
  assert (Hin : (a, k) ∈ to_range <$> allocs u).
  { assert (H : (a, k) ∈ (a, sz o) :: (to_range <$> allocs u)) by (rewrite Hl; left).
    apply elem_of_cons in H as [H|H]; [congruence|done]. }
  apply elem_of_Permutation in Hin as [l' Hl'].
  assert (Hd : ranges_disjoint (a, sz o) (a, k)).
  { apply (machine_live_disjoint m _ _ l' Hok). unfold machine_live. rewrite Hp.
    cbn [fmap list_fmap]. change (to_range (a, o)) with (a, sz o). by rewrite Hl'. }
  assert (H1 : 0 < sz o) by (apply (block_size_pos (hm_user m) (a, o) Hok); rewrite Hp; left).
  assert (H2 : 0 < k).
  { assert (Hx : (a, k) ∈ to_range <$> allocs u) by (rewrite Hl'; left).
    apply list_elem_of_fmap in Hx as (b & Hb & Hx). injection Hb as _ ->.
    by apply (block_size_pos u b Hok'). }
  unfold ranges_disjoint in Hd. simpl in Hd. lia.
Qed.

#[export] Instance machine_laws : GpuHalLaws hal_machine := {
  hal_ok := machine_ok;
  hal_live := machine_live;
  hal_live_disjoint := machine_live_disjoint;
  hal_live_range := machine_live_range;
  hal_alloc_law n m := machine_alloc n m;
  hal_free_law := machine_free;
  hal_load_law := machine_load;
  hal_frame_law A op m Hop Hok :=
    conj (same_buddy_ok _ _ (call_same_buddy op m Hop) Hok)
         (f_equal (fmap to_range) (same_buddy_allocs _ _ (call_same_buddy op m Hop)))
}.
