(* ===== verification/Ioctl.v ===== *)
(** * The ioctl interface of the GPU device

    [plugins/gpu_driver/shared/gpu_ioctl.h]: the argument structures, the sizes
    the compiler gives them, and the request codes.  Codes are built by the
    macros of [include/linux_compat/ioctl.h].  A field is named with the
    initials of its structure; reserved and padding fields are left out of the
    records and kept in the layouts. *)
From S2P Require Import Prelude GpuTypes MemPool KfdBridge.

(** ** [_IOC] and its abbreviations *)
Definition _IOC_NRSHIFT : Z := 0.
Definition _IOC_TYPESHIFT : Z := _IOC_NRSHIFT + 8.
Definition _IOC_SIZESHIFT : Z := _IOC_TYPESHIFT + 8.
Definition _IOC_DIRSHIFT : Z := _IOC_SIZESHIFT + 14.
Definition _IOC (dir type nr size : Z) : Z :=
  Z.lor (Z.lor (Z.lor (Z.shiftl dir _IOC_DIRSHIFT) (Z.shiftl type _IOC_TYPESHIFT))
    (Z.shiftl nr _IOC_NRSHIFT)) (Z.shiftl size _IOC_SIZESHIFT).
Definition _IOR (type nr size : Z) : Z := _IOC 2 type nr size.
Definition _IOW (type nr size : Z) : Z := _IOC 1 type nr size.
Definition _IOWR (type nr size : Z) : Z := _IOC 3 type nr size.

(** ** Structure layout: fields of the given sizes, each aligned to its size *)
Definition align_to (a x : Z) : Z := (x + a - 1) / a * a.
Definition sizeof (fields : list Z) : Z :=
  align_to (fold_left Z.max fields 1) (fold_left (fun off n => align_to n off + n) fields 0).

(** ** Argument structures *)
Record gpu_pushbuffer_args := mk_pb {
  pb_stream_id : Z; pb_entries_addr : Z; pb_count : Z; pb_flags : Z; pb_fence_id : Z; pb_va_space_handle : Z; pb_stream_id_compat : Z
}.
#[export] Instance eta_pb : Eta gpu_pushbuffer_args := fun a =>
  mk_pb (pb_stream_id a) (pb_entries_addr a) (pb_count a) (pb_flags a) (pb_fence_id a) (pb_va_space_handle a) (pb_stream_id_compat a).
Definition sizeof_gpu_pushbuffer_args : Z := sizeof ([8; 8; 4; 4; 8; 8; 4; 4]).
Record gpu_mmu_event_cb_args := mk_mc {
  mc_callback_fn : Z; mc_user_data : Z
}.
#[export] Instance eta_mc : Eta gpu_mmu_event_cb_args := fun a =>
  mk_mc (mc_callback_fn a) (mc_user_data a).
Definition sizeof_gpu_mmu_event_cb_args : Z := sizeof ([8; 8]).
Record gpu_firmware_cb_args := mk_fc {
  fc_callback_fn : Z; fc_user_data : Z
}.
#[export] Instance eta_fc : Eta gpu_firmware_cb_args := fun a =>
  mk_fc (fc_callback_fn a) (fc_user_data a).
Definition sizeof_gpu_firmware_cb_args : Z := sizeof ([8; 8]).
Record gpu_alloc_bo_args := mk_ab {
  ab_size : Z; ab_domain : Z; ab_flags : Z; ab_handle : Z; ab_gpu_va : Z
}.
#[export] Instance eta_ab : Eta gpu_alloc_bo_args := fun a =>
  mk_ab (ab_size a) (ab_domain a) (ab_flags a) (ab_handle a) (ab_gpu_va a).
Definition sizeof_gpu_alloc_bo_args : Z := sizeof ([8; 4; 4; 4; 8]).
Record gpu_map_bo_args := mk_mb {
  mb_handle : Z; mb_flags : Z; mb_gpu_va : Z
}.
#[export] Instance eta_mb : Eta gpu_map_bo_args := fun a =>
  mk_mb (mb_handle a) (mb_flags a) (mb_gpu_va a).
Definition sizeof_gpu_map_bo_args : Z := sizeof ([4; 4; 8]).
Record gpu_wait_fence_args := mk_wf {
  wf_fence_id : Z; wf_timeout_ms : Z; wf_status : Z
}.
#[export] Instance eta_wf : Eta gpu_wait_fence_args := fun a =>
  mk_wf (wf_fence_id a) (wf_timeout_ms a) (wf_status a).
Definition sizeof_gpu_wait_fence_args : Z := sizeof ([8; 4; 4]).
Record gpu_va_space_args := mk_va {
  va_page_size : Z; va_flags : Z; va_va_space_handle : Z
}.
#[export] Instance eta_va : Eta gpu_va_space_args := fun a =>
  mk_va (va_page_size a) (va_flags a) (va_va_space_handle a).
Definition sizeof_gpu_va_space_args : Z := sizeof ([4; 4; 8]).
Record gpu_register_gpu_args := mk_rg {
  rg_va_space_handle : Z; rg_gpu_id : Z; rg_flags : Z
}.
#[export] Instance eta_rg : Eta gpu_register_gpu_args := fun a =>
  mk_rg (rg_va_space_handle a) (rg_gpu_id a) (rg_flags a).
Definition sizeof_gpu_register_gpu_args : Z := sizeof ([8; 4; 4]).
Record gpu_queue_args := mk_qa {
  qa_va_space_handle : Z; qa_queue_type : Z; qa_priority : Z; qa_ring_buffer_size : Z; qa_queue_handle : Z; qa_doorbell_pgoff : Z; qa_context_type : Z
}.
#[export] Instance eta_qa : Eta gpu_queue_args := fun a =>
  mk_qa (qa_va_space_handle a) (qa_queue_type a) (qa_priority a) (qa_ring_buffer_size a) (qa_queue_handle a) (qa_doorbell_pgoff a) (qa_context_type a).
Definition sizeof_gpu_queue_args : Z := sizeof ([8; 4; 4; 8; 8; 8; 8; 8; 4; 4; 4; 4; 1]).
Record gpu_queue_map_ring_args := mk_mr {
  mr_queue_handle : Z; mr_ring_addr : Z
}.
#[export] Instance eta_mr : Eta gpu_queue_map_ring_args := fun a =>
  mk_mr (mr_queue_handle a) (mr_ring_addr a).
Definition sizeof_gpu_queue_map_ring_args : Z := sizeof ([8; 8]).
Record gpu_queue_info_args := mk_qq {
  qq_queue_handle : Z; qq_queue_type : Z; qq_queue_id : Z; qq_doorbell_offset : Z; qq_ring_addr : Z; qq_ring_size : Z; qq_pending_count : Z
}.
#[export] Instance eta_qq : Eta gpu_queue_info_args := fun a =>
  mk_qq (qq_queue_handle a) (qq_queue_type a) (qq_queue_id a) (qq_doorbell_offset a) (qq_ring_addr a) (qq_ring_size a) (qq_pending_count a).
Definition sizeof_gpu_queue_info_args : Z := sizeof ([8; 4; 4; 8; 8; 4; 4]).
Record gpu_device_info := mk_di {
  di_vendor_id : Z; di_device_id : Z; di_vram_size : Z; di_bar0_size : Z; di_max_channels : Z; di_compute_units : Z; di_gpfifo_capacity : Z; di_cache_line_size : Z; di_warp_size : Z; di_max_clock_frequency : Z; di_driver_version : Z; di_firmware_version : Z; di_simd_count : Z; di_max_memory_clock_frequency : Z; di_memory_bus_width : Z; di_peak_fp32_gflops : Z; di_pcie_bandwidth : Z; di_architecture_id : Z; di_marketing_name : string
}.
#[export] Instance eta_di : Eta gpu_device_info := fun a =>
  mk_di (di_vendor_id a) (di_device_id a) (di_vram_size a) (di_bar0_size a) (di_max_channels a) (di_compute_units a) (di_gpfifo_capacity a) (di_cache_line_size a) (di_warp_size a) (di_max_clock_frequency a) (di_driver_version a) (di_firmware_version a) (di_simd_count a) (di_max_memory_clock_frequency a) (di_memory_bus_width a) (di_peak_fp32_gflops a) (di_pcie_bandwidth a) (di_architecture_id a) (di_marketing_name a).
Definition sizeof_gpu_device_info : Z := sizeof ([4; 4; 8; 8; 4; 4; 4; 4; 4; 4; 4; 4; 4; 4; 4; 4; 4; 4] ++ replicate 64 1).
Record gpu_get_process_aperture_args := mk_pa {
  pa_num_nodes : Z; pa_apertures_ptr : Z
}.
#[export] Instance eta_pa : Eta gpu_get_process_aperture_args := fun a =>
  mk_pa (pa_num_nodes a) (pa_apertures_ptr a).
Definition sizeof_gpu_get_process_aperture_args : Z := sizeof ([4; 4; 8]).
Record gpu_update_queue_args := mk_uq {
  uq_queue_handle : Z; uq_ring_base_address : Z; uq_ring_size : Z; uq_queue_percent : Z; uq_queue_priority : Z; uq_queue_flags : Z
}.
#[export] Instance eta_uq : Eta gpu_update_queue_args := fun a =>
  mk_uq (uq_queue_handle a) (uq_ring_base_address a) (uq_ring_size a) (uq_queue_percent a) (uq_queue_priority a) (uq_queue_flags a).
Definition sizeof_gpu_update_queue_args : Z := sizeof ([8; 8; 8; 4; 4; 4; 4]).
Definition sizeof_gpu_map_memory_args : Z := sizeof ([4; 4; 4; 4; 4; 4; 4; 4; 4; 4; 4; 8; 8; 4; 4]).
Definition sizeof_gpu_unmap_memory_args : Z := sizeof ([4; 4; 4; 4; 4; 4; 4; 4; 4; 4; 4; 4; 4]).
Record gpu_stream_capture_args := mk_sc {
  sc_stream_id : Z; sc_mode : Z; sc_graph_handle_out : Z
}.
#[export] Instance eta_sc : Eta gpu_stream_capture_args := fun a =>
  mk_sc (sc_stream_id a) (sc_mode a) (sc_graph_handle_out a).
Definition sizeof_gpu_stream_capture_args : Z := sizeof ([4; 4; 8]).
Record gpu_stream_capture_status_args := mk_ss {
  ss_stream_id : Z; ss_status_out : Z
}.
#[export] Instance eta_ss : Eta gpu_stream_capture_status_args := fun a =>
  mk_ss (ss_stream_id a) (ss_status_out a).
Definition sizeof_gpu_stream_capture_status_args : Z := sizeof ([4; 4; 4; 4]).
Record gpu_graph_create_args := mk_gc {
  gc_graph_handle_out : Z
}.
#[export] Instance eta_gc : Eta gpu_graph_create_args := fun a =>
  mk_gc (gc_graph_handle_out a).
Definition sizeof_gpu_graph_create_args : Z := sizeof ([8]).
Record gpu_graph_destroy_args := mk_gd {
  gd_graph_handle : Z
}.
#[export] Instance eta_gd : Eta gpu_graph_destroy_args := fun a =>
  mk_gd (gd_graph_handle a).
Definition sizeof_gpu_graph_destroy_args : Z := sizeof ([8]).
Record gpu_graph_add_kernel_node_args := mk_gk {
  gk_graph_handle : Z; gk_kernel_index : Z; gk_grid_x : Z; gk_grid_y : Z; gk_grid_z : Z; gk_block_x : Z; gk_block_y : Z; gk_block_z : Z; gk_kernargs_bo_handle : Z
}.
#[export] Instance eta_gk : Eta gpu_graph_add_kernel_node_args := fun a =>
  mk_gk (gk_graph_handle a) (gk_kernel_index a) (gk_grid_x a) (gk_grid_y a) (gk_grid_z a) (gk_block_x a) (gk_block_y a) (gk_block_z a) (gk_kernargs_bo_handle a).
Definition sizeof_gpu_graph_add_kernel_node_args : Z := sizeof ([8; 4; 4; 4; 4; 4; 4; 4; 8]).
Record gpu_graph_add_memcpy_node_args := mk_gm {
  gm_graph_handle : Z; gm_src_va : Z; gm_dst_va : Z; gm_size : Z; gm_is_h2d : Z
}.
#[export] Instance eta_gm : Eta gpu_graph_add_memcpy_node_args := fun a =>
  mk_gm (gm_graph_handle a) (gm_src_va a) (gm_dst_va a) (gm_size a) (gm_is_h2d a).
Definition sizeof_gpu_graph_add_memcpy_node_args : Z := sizeof ([8; 8; 8; 8; 4; 4]).
Record gpu_graph_instantiate_args := mk_gi {
  gi_graph_handle : Z; gi_exec_handle_out : Z
}.
#[export] Instance eta_gi : Eta gpu_graph_instantiate_args := fun a =>
  mk_gi (gi_graph_handle a) (gi_exec_handle_out a).
Definition sizeof_gpu_graph_instantiate_args : Z := sizeof ([8; 8]).
Record gpu_graph_launch_args := mk_gl {
  gl_exec_handle : Z; gl_stream_id : Z; gl_fence_id_out : Z
}.
#[export] Instance eta_gl : Eta gpu_graph_launch_args := fun a =>
  mk_gl (gl_exec_handle a) (gl_stream_id a) (gl_fence_id_out a).
Definition sizeof_gpu_graph_launch_args : Z := sizeof ([8; 4; 4; 8]).
Record gpu_graph_destroy_exec_args := mk_gx {
  gx_exec_handle : Z
}.
#[export] Instance eta_gx : Eta gpu_graph_destroy_exec_args := fun a =>
  mk_gx (gx_exec_handle a).
Definition sizeof_gpu_graph_destroy_exec_args : Z := sizeof ([8; 8]).
Record gpu_mem_pool_create_args := mk_pc {
  pc_props : pool_props; pc_va_base : Z; pc_va_limit : Z; pc_pool_handle_out : Z
}.
#[export] Instance eta_pc : Eta gpu_mem_pool_create_args := fun a =>
  mk_pc (pc_props a) (pc_va_base a) (pc_va_limit a) (pc_pool_handle_out a).
Definition sizeof_gpu_mem_pool_create_args : Z := sizeof ([8; 8; 8; 8; 4; 4; 8]).
Record gpu_mem_pool_destroy_args := mk_pd {
  pd_pool_handle : Z
}.
#[export] Instance eta_pd : Eta gpu_mem_pool_destroy_args := fun a =>
  mk_pd (pd_pool_handle a).
Definition sizeof_gpu_mem_pool_destroy_args : Z := sizeof ([8]).
Record gpu_mem_pool_alloc_args := mk_pl {
  pl_pool_handle : Z; pl_size : Z; pl_va_out : Z
}.
#[export] Instance eta_pl : Eta gpu_mem_pool_alloc_args := fun a =>
  mk_pl (pl_pool_handle a) (pl_size a) (pl_va_out a).
Definition sizeof_gpu_mem_pool_alloc_args : Z := sizeof ([8; 8; 8]).
Record gpu_mem_pool_alloc_async_args := mk_py {
  py_pool_handle : Z; py_size : Z; py_stream_id : Z; py_va_out : Z; py_fence_id_out : Z
}.
#[export] Instance eta_py : Eta gpu_mem_pool_alloc_async_args := fun a =>
  mk_py (py_pool_handle a) (py_size a) (py_stream_id a) (py_va_out a) (py_fence_id_out a).
Definition sizeof_gpu_mem_pool_alloc_async_args : Z := sizeof ([8; 8; 4; 4; 8; 8]).
Record gpu_mem_pool_free_async_args := mk_pf {
  pf_va : Z; pf_stream_id : Z; pf_fence_id_out : Z
}.
#[export] Instance eta_pf : Eta gpu_mem_pool_free_async_args := fun a =>
  mk_pf (pf_va a) (pf_stream_id a) (pf_fence_id_out a).
Definition sizeof_gpu_mem_pool_free_async_args : Z := sizeof ([8; 4; 4; 8; 8]).
Record gpu_mem_pool_attr_args := mk_pt {
  pt_pool_handle : Z; pt_attr : Z; pt_value : list Z
}.
#[export] Instance eta_pt : Eta gpu_mem_pool_attr_args := fun a =>
  mk_pt (pt_pool_handle a) (pt_attr a) (pt_value a).
Definition sizeof_gpu_mem_pool_attr_args : Z := sizeof ([8; 4; 4; 8; 8; 8; 8]).
Record gpu_mem_pool_trim_args := mk_pm {
  pm_pool_handle : Z; pm_min_bytes : Z
}.
#[export] Instance eta_pm : Eta gpu_mem_pool_trim_args := fun a =>
  mk_pm (pm_pool_handle a) (pm_min_bytes a).
Definition sizeof_gpu_mem_pool_trim_args : Z := sizeof ([8; 8]).
Record gpu_mem_pool_export_args := mk_pe {
  pe_pool_handle : Z; pe_handle_type : Z; pe_flags : Z; pe_fd_out : Z
}.
#[export] Instance eta_pe : Eta gpu_mem_pool_export_args := fun a =>
  mk_pe (pe_pool_handle a) (pe_handle_type a) (pe_flags a) (pe_fd_out a).
Definition sizeof_gpu_mem_pool_export_args : Z := sizeof ([8; 4; 4; 4; 4]).
Record gpu_load_kernel_module_args := mk_lk {
  lk_image_ptr : Z; lk_image_size : Z; lk_out_vram_addr : Z
}.
#[export] Instance eta_lk : Eta gpu_load_kernel_module_args := fun a =>
  mk_lk (lk_image_ptr a) (lk_image_size a) (lk_out_vram_addr a).
Definition sizeof_gpu_load_kernel_module_args : Z := sizeof ([8; 8; 8]).
Record gpu_launch_kernel_module_args := mk_xk {
  xk_module_handle : Z; xk_launch_status : Z
}.
#[export] Instance eta_xk : Eta gpu_launch_kernel_module_args := fun a =>
  mk_xk (xk_module_handle a) (xk_launch_status a).
Definition sizeof_gpu_launch_kernel_module_args : Z := sizeof ([8; 4; 4; 4; 4; 4; 4; 8; 4; 4; 4]).
Record gpu_unload_kernel_module_args := mk_uk {
  uk_module_handle : Z; uk_unload_status : Z
}.
#[export] Instance eta_uk : Eta gpu_unload_kernel_module_args := fun a =>
  mk_uk (uk_module_handle a) (uk_unload_status a).
Definition sizeof_gpu_unload_kernel_module_args : Z := sizeof ([8; 4]).
(** [u32] and [u64] arguments that are bare handles. *)
Record gem_handle_arg := mk_gem_handle { gem_handle : Z }.
Record handle64_arg := mk_handle64 { handle64 : Z }.
Definition sizeof_u32 : Z := sizeof [4].
Definition sizeof_u64 : Z := sizeof [8].

(** ** Request codes *)
Definition GPU_IOCTL_BASE : Z := 71.
Definition GPU_IOCTL_PUSHBUFFER_SUBMIT_BATCH : Z := _IOW GPU_IOCTL_BASE 1 sizeof_gpu_pushbuffer_args.
Definition GPU_IOCTL_REGISTER_MMU_EVENT_CB : Z := _IOW GPU_IOCTL_BASE 2 sizeof_gpu_mmu_event_cb_args.
Definition GPU_IOCTL_REGISTER_FIRMWARE_CB : Z := _IOW GPU_IOCTL_BASE 3 sizeof_gpu_firmware_cb_args.
Definition GPU_IOCTL_ALLOC_BO : Z := _IOWR GPU_IOCTL_BASE 16 sizeof_gpu_alloc_bo_args.
Definition GPU_IOCTL_FREE_BO : Z := _IOW GPU_IOCTL_BASE 17 sizeof_u32.
Definition GPU_IOCTL_MAP_BO : Z := _IOWR GPU_IOCTL_BASE 18 sizeof_gpu_map_bo_args.
Definition GPU_IOCTL_WAIT_FENCE : Z := _IOW GPU_IOCTL_BASE 19 sizeof_gpu_wait_fence_args.
Definition GPU_IOCTL_GET_DEVICE_INFO : Z := _IOR GPU_IOCTL_BASE 32 sizeof_gpu_device_info.
Definition GPU_IOCTL_LOAD_KERNEL_MODULE : Z := _IOWR GPU_IOCTL_BASE 39 sizeof_gpu_load_kernel_module_args.
Definition GPU_IOCTL_LAUNCH_KERNEL_MODULE : Z := _IOWR GPU_IOCTL_BASE 40 sizeof_gpu_launch_kernel_module_args.
Definition GPU_IOCTL_UNLOAD_KERNEL_MODULE : Z := _IOWR GPU_IOCTL_BASE 41 sizeof_gpu_unload_kernel_module_args.
Definition GPU_IOCTL_CREATE_VA_SPACE : Z := _IOWR GPU_IOCTL_BASE 48 sizeof_gpu_va_space_args.
Definition GPU_IOCTL_DESTROY_VA_SPACE : Z := _IOW GPU_IOCTL_BASE 49 sizeof_u64.
Definition GPU_IOCTL_REGISTER_GPU : Z := _IOW GPU_IOCTL_BASE 50 sizeof_gpu_register_gpu_args.
Definition GPU_IOCTL_CREATE_QUEUE : Z := _IOWR GPU_IOCTL_BASE 64 sizeof_gpu_queue_args.
Definition GPU_IOCTL_DESTROY_QUEUE : Z := _IOW GPU_IOCTL_BASE 65 sizeof_u64.
Definition GPU_IOCTL_MAP_QUEUE_RING : Z := _IOWR GPU_IOCTL_BASE 66 sizeof_gpu_queue_map_ring_args.
Definition GPU_IOCTL_QUERY_QUEUE : Z := _IOWR GPU_IOCTL_BASE 67 sizeof_gpu_queue_info_args.
Definition GPU_IOCTL_GET_PROCESS_APERTURE : Z := _IOWR GPU_IOCTL_BASE 68 sizeof_gpu_get_process_aperture_args.
Definition GPU_IOCTL_UPDATE_QUEUE : Z := _IOWR GPU_IOCTL_BASE 69 sizeof_gpu_update_queue_args.
Definition GPU_IOCTL_MAP_MEMORY : Z := _IOWR GPU_IOCTL_BASE 70 sizeof_gpu_map_memory_args.
Definition GPU_IOCTL_UNMAP_MEMORY : Z := _IOWR GPU_IOCTL_BASE 71 sizeof_gpu_unmap_memory_args.
Definition GPU_IOCTL_STREAM_CAPTURE_BEGIN : Z := _IOW GPU_IOCTL_BASE 80 sizeof_gpu_stream_capture_args.
Definition GPU_IOCTL_STREAM_CAPTURE_END : Z := _IOWR GPU_IOCTL_BASE 81 sizeof_gpu_stream_capture_args.
Definition GPU_IOCTL_STREAM_CAPTURE_STATUS : Z := _IOWR GPU_IOCTL_BASE 82 sizeof_gpu_stream_capture_status_args.
Definition GPU_IOCTL_GRAPH_CREATE : Z := _IOWR GPU_IOCTL_BASE 83 sizeof_gpu_graph_create_args.
Definition GPU_IOCTL_GRAPH_DESTROY : Z := _IOW GPU_IOCTL_BASE 84 sizeof_gpu_graph_destroy_args.
Definition GPU_IOCTL_GRAPH_ADD_KERNEL_NODE : Z := _IOW GPU_IOCTL_BASE 85 sizeof_gpu_graph_add_kernel_node_args.
Definition GPU_IOCTL_GRAPH_ADD_MEMCPY_NODE : Z := _IOW GPU_IOCTL_BASE 86 sizeof_gpu_graph_add_memcpy_node_args.
Definition GPU_IOCTL_GRAPH_INSTANTIATE : Z := _IOWR GPU_IOCTL_BASE 87 sizeof_gpu_graph_instantiate_args.
Definition GPU_IOCTL_GRAPH_LAUNCH : Z := _IOWR GPU_IOCTL_BASE 88 sizeof_gpu_graph_launch_args.
Definition GPU_IOCTL_GRAPH_DESTROY_EXEC : Z := _IOW GPU_IOCTL_BASE 89 sizeof_gpu_graph_destroy_exec_args.
Definition GPU_IOCTL_MEM_POOL_CREATE : Z := _IOWR GPU_IOCTL_BASE 96 sizeof_gpu_mem_pool_create_args.
Definition GPU_IOCTL_MEM_POOL_DESTROY : Z := _IOW GPU_IOCTL_BASE 97 sizeof_gpu_mem_pool_destroy_args.
Definition GPU_IOCTL_MEM_POOL_ALLOC : Z := _IOWR GPU_IOCTL_BASE 98 sizeof_gpu_mem_pool_alloc_args.
Definition GPU_IOCTL_MEM_POOL_ALLOC_ASYNC : Z := _IOWR GPU_IOCTL_BASE 99 sizeof_gpu_mem_pool_alloc_async_args.
Definition GPU_IOCTL_MEM_POOL_FREE_ASYNC : Z := _IOWR GPU_IOCTL_BASE 100 sizeof_gpu_mem_pool_free_async_args.
Definition GPU_IOCTL_MEM_POOL_SET_ATTR : Z := _IOW GPU_IOCTL_BASE 101 sizeof_gpu_mem_pool_attr_args.
Definition GPU_IOCTL_MEM_POOL_GET_ATTR : Z := _IOWR GPU_IOCTL_BASE 102 sizeof_gpu_mem_pool_attr_args.
Definition GPU_IOCTL_MEM_POOL_TRIM : Z := _IOW GPU_IOCTL_BASE 103 sizeof_gpu_mem_pool_trim_args.
Definition GPU_IOCTL_MEM_POOL_EXPORT : Z := _IOWR GPU_IOCTL_BASE 104 sizeof_gpu_mem_pool_export_args.

(** ** Argument buffers

    What an [argp] points to: the structure the caller passed. *)
Inductive ioctl_arg :=
| A_pushbuffer (a : gpu_pushbuffer_args)
| A_mmu_event_cb (a : gpu_mmu_event_cb_args)
| A_firmware_cb (a : gpu_firmware_cb_args)
| A_alloc_bo (a : gpu_alloc_bo_args)
| A_map_bo (a : gpu_map_bo_args)
| A_wait_fence (a : gpu_wait_fence_args)
| A_va_space (a : gpu_va_space_args)
| A_register_gpu (a : gpu_register_gpu_args)
| A_queue (a : gpu_queue_args)
| A_queue_map_ring (a : gpu_queue_map_ring_args)
| A_queue_info (a : gpu_queue_info_args)
| A_device_info (a : gpu_device_info)
| A_get_process_aperture (a : gpu_get_process_aperture_args)
| A_update_queue (a : gpu_update_queue_args)
| A_map_memory (a : gpu_map_memory_args)
| A_unmap_memory (a : gpu_unmap_memory_args)
| A_stream_capture (a : gpu_stream_capture_args)
| A_stream_capture_status (a : gpu_stream_capture_status_args)
| A_graph_create (a : gpu_graph_create_args)
| A_graph_destroy (a : gpu_graph_destroy_args)
| A_graph_add_kernel_node (a : gpu_graph_add_kernel_node_args)
| A_graph_add_memcpy_node (a : gpu_graph_add_memcpy_node_args)
| A_graph_instantiate (a : gpu_graph_instantiate_args)
| A_graph_launch (a : gpu_graph_launch_args)
| A_graph_destroy_exec (a : gpu_graph_destroy_exec_args)
| A_mem_pool_create (a : gpu_mem_pool_create_args)
| A_mem_pool_destroy (a : gpu_mem_pool_destroy_args)
| A_mem_pool_alloc (a : gpu_mem_pool_alloc_args)
| A_mem_pool_alloc_async (a : gpu_mem_pool_alloc_async_args)
| A_mem_pool_free_async (a : gpu_mem_pool_free_async_args)
| A_mem_pool_attr (a : gpu_mem_pool_attr_args)
| A_mem_pool_trim (a : gpu_mem_pool_trim_args)
| A_mem_pool_export (a : gpu_mem_pool_export_args)
| A_load_kernel_module (a : gpu_load_kernel_module_args)
| A_launch_kernel_module (a : gpu_launch_kernel_module_args)
| A_unload_kernel_module (a : gpu_unload_kernel_module_args)
| A_gem_handle (a : gem_handle_arg)
| A_handle64 (a : handle64_arg).

(** The handlers cast [argp] to the structure they expect. *)
Class IoctlBuffer (A : Type) := {
  to_arg : A -> ioctl_arg;
  of_arg : ioctl_arg -> option A;
  of_arg_inv : forall b a, of_arg b = Some a -> b = to_arg a
}.
#[export] Instance buf_pushbuffer : IoctlBuffer gpu_pushbuffer_args :=
  {| to_arg := A_pushbuffer; of_arg b := match b with A_pushbuffer a => Some a | _ => None end;
     of_arg_inv b a := ltac:(destruct b; simpl; congruence) |}.
#[export] Instance buf_mmu_event_cb : IoctlBuffer gpu_mmu_event_cb_args :=
  {| to_arg := A_mmu_event_cb; of_arg b := match b with A_mmu_event_cb a => Some a | _ => None end;
     of_arg_inv b a := ltac:(destruct b; simpl; congruence) |}.
#[export] Instance buf_firmware_cb : IoctlBuffer gpu_firmware_cb_args :=
  {| to_arg := A_firmware_cb; of_arg b := match b with A_firmware_cb a => Some a | _ => None end;
     of_arg_inv b a := ltac:(destruct b; simpl; congruence) |}.
#[export] Instance buf_alloc_bo : IoctlBuffer gpu_alloc_bo_args :=
  {| to_arg := A_alloc_bo; of_arg b := match b with A_alloc_bo a => Some a | _ => None end;
     of_arg_inv b a := ltac:(destruct b; simpl; congruence) |}.
#[export] Instance buf_map_bo : IoctlBuffer gpu_map_bo_args :=
  {| to_arg := A_map_bo; of_arg b := match b with A_map_bo a => Some a | _ => None end;
     of_arg_inv b a := ltac:(destruct b; simpl; congruence) |}.
#[export] Instance buf_wait_fence : IoctlBuffer gpu_wait_fence_args :=
  {| to_arg := A_wait_fence; of_arg b := match b with A_wait_fence a => Some a | _ => None end;
     of_arg_inv b a := ltac:(destruct b; simpl; congruence) |}.
#[export] Instance buf_va_space : IoctlBuffer gpu_va_space_args :=
  {| to_arg := A_va_space; of_arg b := match b with A_va_space a => Some a | _ => None end;
     of_arg_inv b a := ltac:(destruct b; simpl; congruence) |}.
#[export] Instance buf_register_gpu : IoctlBuffer gpu_register_gpu_args :=
  {| to_arg := A_register_gpu; of_arg b := match b with A_register_gpu a => Some a | _ => None end;
     of_arg_inv b a := ltac:(destruct b; simpl; congruence) |}.
#[export] Instance buf_queue : IoctlBuffer gpu_queue_args :=
  {| to_arg := A_queue; of_arg b := match b with A_queue a => Some a | _ => None end;
     of_arg_inv b a := ltac:(destruct b; simpl; congruence) |}.
#[export] Instance buf_queue_map_ring : IoctlBuffer gpu_queue_map_ring_args :=
  {| to_arg := A_queue_map_ring; of_arg b := match b with A_queue_map_ring a => Some a | _ => None end;
     of_arg_inv b a := ltac:(destruct b; simpl; congruence) |}.
#[export] Instance buf_queue_info : IoctlBuffer gpu_queue_info_args :=
  {| to_arg := A_queue_info; of_arg b := match b with A_queue_info a => Some a | _ => None end;
     of_arg_inv b a := ltac:(destruct b; simpl; congruence) |}.
#[export] Instance buf_device_info : IoctlBuffer gpu_device_info :=
  {| to_arg := A_device_info; of_arg b := match b with A_device_info a => Some a | _ => None end;
     of_arg_inv b a := ltac:(destruct b; simpl; congruence) |}.
#[export] Instance buf_get_process_aperture : IoctlBuffer gpu_get_process_aperture_args :=
  {| to_arg := A_get_process_aperture; of_arg b := match b with A_get_process_aperture a => Some a | _ => None end;
     of_arg_inv b a := ltac:(destruct b; simpl; congruence) |}.
#[export] Instance buf_update_queue : IoctlBuffer gpu_update_queue_args :=
  {| to_arg := A_update_queue; of_arg b := match b with A_update_queue a => Some a | _ => None end;
     of_arg_inv b a := ltac:(destruct b; simpl; congruence) |}.
#[export] Instance buf_map_memory : IoctlBuffer gpu_map_memory_args :=
  {| to_arg := A_map_memory; of_arg b := match b with A_map_memory a => Some a | _ => None end;
     of_arg_inv b a := ltac:(destruct b; simpl; congruence) |}.
#[export] Instance buf_unmap_memory : IoctlBuffer gpu_unmap_memory_args :=
  {| to_arg := A_unmap_memory; of_arg b := match b with A_unmap_memory a => Some a | _ => None end;
     of_arg_inv b a := ltac:(destruct b; simpl; congruence) |}.
#[export] Instance buf_stream_capture : IoctlBuffer gpu_stream_capture_args :=
  {| to_arg := A_stream_capture; of_arg b := match b with A_stream_capture a => Some a | _ => None end;
     of_arg_inv b a := ltac:(destruct b; simpl; congruence) |}.
#[export] Instance buf_stream_capture_status : IoctlBuffer gpu_stream_capture_status_args :=
  {| to_arg := A_stream_capture_status; of_arg b := match b with A_stream_capture_status a => Some a | _ => None end;
     of_arg_inv b a := ltac:(destruct b; simpl; congruence) |}.
#[export] Instance buf_graph_create : IoctlBuffer gpu_graph_create_args :=
  {| to_arg := A_graph_create; of_arg b := match b with A_graph_create a => Some a | _ => None end;
     of_arg_inv b a := ltac:(destruct b; simpl; congruence) |}.
#[export] Instance buf_graph_destroy : IoctlBuffer gpu_graph_destroy_args :=
  {| to_arg := A_graph_destroy; of_arg b := match b with A_graph_destroy a => Some a | _ => None end;
     of_arg_inv b a := ltac:(destruct b; simpl; congruence) |}.
#[export] Instance buf_graph_add_kernel_node : IoctlBuffer gpu_graph_add_kernel_node_args :=
  {| to_arg := A_graph_add_kernel_node; of_arg b := match b with A_graph_add_kernel_node a => Some a | _ => None end;
     of_arg_inv b a := ltac:(destruct b; simpl; congruence) |}.
#[export] Instance buf_graph_add_memcpy_node : IoctlBuffer gpu_graph_add_memcpy_node_args :=
  {| to_arg := A_graph_add_memcpy_node; of_arg b := match b with A_graph_add_memcpy_node a => Some a | _ => None end;
     of_arg_inv b a := ltac:(destruct b; simpl; congruence) |}.
#[export] Instance buf_graph_instantiate : IoctlBuffer gpu_graph_instantiate_args :=
  {| to_arg := A_graph_instantiate; of_arg b := match b with A_graph_instantiate a => Some a | _ => None end;
     of_arg_inv b a := ltac:(destruct b; simpl; congruence) |}.
#[export] Instance buf_graph_launch : IoctlBuffer gpu_graph_launch_args :=
  {| to_arg := A_graph_launch; of_arg b := match b with A_graph_launch a => Some a | _ => None end;
     of_arg_inv b a := ltac:(destruct b; simpl; congruence) |}.
#[export] Instance buf_graph_destroy_exec : IoctlBuffer gpu_graph_destroy_exec_args :=
  {| to_arg := A_graph_destroy_exec; of_arg b := match b with A_graph_destroy_exec a => Some a | _ => None end;
     of_arg_inv b a := ltac:(destruct b; simpl; congruence) |}.
#[export] Instance buf_mem_pool_create : IoctlBuffer gpu_mem_pool_create_args :=
  {| to_arg := A_mem_pool_create; of_arg b := match b with A_mem_pool_create a => Some a | _ => None end;
     of_arg_inv b a := ltac:(destruct b; simpl; congruence) |}.
#[export] Instance buf_mem_pool_destroy : IoctlBuffer gpu_mem_pool_destroy_args :=
  {| to_arg := A_mem_pool_destroy; of_arg b := match b with A_mem_pool_destroy a => Some a | _ => None end;
     of_arg_inv b a := ltac:(destruct b; simpl; congruence) |}.
#[export] Instance buf_mem_pool_alloc : IoctlBuffer gpu_mem_pool_alloc_args :=
  {| to_arg := A_mem_pool_alloc; of_arg b := match b with A_mem_pool_alloc a => Some a | _ => None end;
     of_arg_inv b a := ltac:(destruct b; simpl; congruence) |}.
#[export] Instance buf_mem_pool_alloc_async : IoctlBuffer gpu_mem_pool_alloc_async_args :=
  {| to_arg := A_mem_pool_alloc_async; of_arg b := match b with A_mem_pool_alloc_async a => Some a | _ => None end;
     of_arg_inv b a := ltac:(destruct b; simpl; congruence) |}.
#[export] Instance buf_mem_pool_free_async : IoctlBuffer gpu_mem_pool_free_async_args :=
  {| to_arg := A_mem_pool_free_async; of_arg b := match b with A_mem_pool_free_async a => Some a | _ => None end;
     of_arg_inv b a := ltac:(destruct b; simpl; congruence) |}.
#[export] Instance buf_mem_pool_attr : IoctlBuffer gpu_mem_pool_attr_args :=
  {| to_arg := A_mem_pool_attr; of_arg b := match b with A_mem_pool_attr a => Some a | _ => None end;
     of_arg_inv b a := ltac:(destruct b; simpl; congruence) |}.
#[export] Instance buf_mem_pool_trim : IoctlBuffer gpu_mem_pool_trim_args :=
  {| to_arg := A_mem_pool_trim; of_arg b := match b with A_mem_pool_trim a => Some a | _ => None end;
     of_arg_inv b a := ltac:(destruct b; simpl; congruence) |}.
#[export] Instance buf_mem_pool_export : IoctlBuffer gpu_mem_pool_export_args :=
  {| to_arg := A_mem_pool_export; of_arg b := match b with A_mem_pool_export a => Some a | _ => None end;
     of_arg_inv b a := ltac:(destruct b; simpl; congruence) |}.
#[export] Instance buf_load_kernel_module : IoctlBuffer gpu_load_kernel_module_args :=
  {| to_arg := A_load_kernel_module; of_arg b := match b with A_load_kernel_module a => Some a | _ => None end;
     of_arg_inv b a := ltac:(destruct b; simpl; congruence) |}.
#[export] Instance buf_launch_kernel_module : IoctlBuffer gpu_launch_kernel_module_args :=
  {| to_arg := A_launch_kernel_module; of_arg b := match b with A_launch_kernel_module a => Some a | _ => None end;
     of_arg_inv b a := ltac:(destruct b; simpl; congruence) |}.
#[export] Instance buf_unload_kernel_module : IoctlBuffer gpu_unload_kernel_module_args :=
  {| to_arg := A_unload_kernel_module; of_arg b := match b with A_unload_kernel_module a => Some a | _ => None end;
     of_arg_inv b a := ltac:(destruct b; simpl; congruence) |}.
#[export] Instance buf_gem_handle : IoctlBuffer gem_handle_arg :=
  {| to_arg := A_gem_handle; of_arg b := match b with A_gem_handle a => Some a | _ => None end;
     of_arg_inv b a := ltac:(destruct b; simpl; congruence) |}.
#[export] Instance buf_handle64 : IoctlBuffer handle64_arg :=
  {| to_arg := A_handle64; of_arg b := match b with A_handle64 a => Some a | _ => None end;
     of_arg_inv b a := ltac:(destruct b; simpl; congruence) |}.

(** Constants the handlers test against. *)
Definition GPU_QUEUE_GRAPHICS : Z := 2.
Definition BAR2_OFFSET_BASE : Z := 8589934592.
Definition BAR2_OFFSET_SIZE : Z := 268435456.
