(* ===== verification/Device.v ===== *)
(** * The GPU device: ioctl handlers

    [plugins/gpu_driver/drv/gpgpu_device.{h,cpp}] over any implementation of
    the HAL table ([GpuHal]).  A handler is a [handler] over the device and the
    caller's argument structure; [on_buffer] supplies the check of [argp].  The
    file-level state of kfd_sim_bridge.cpp is a field of the device.  The
    constructor's [hal_] is not null, as the plugin passes it. *)
From S2P Require Import Prelude Bytes GpuTypes SimHw Ring HalUser SimMem MemPool KfdBridge HalCalls Ioctl FenceId.

(** ** State *)
Record BoInfo := mk_bo {
  bo_gpu_va : Z; bo_size : Z; bo_domain : Z; bo_flags : Z;
  host_ptr : Z                          (* 0: null *)
}.
Record QueueInfo := mk_queue_info {
  qi_queue_type : Z; qi_ring_size : Z;
  shared_mem : Z;                       (* 0: null *)
  qi_ring_addr : Z
}.
#[export] Instance eta_queue_info : Eta QueueInfo := fun q =>
  mk_queue_info (qi_queue_type q) (qi_ring_size q) (shared_mem q) (qi_ring_addr q).
(** The map key is the [handle] member. *)
Record VASpace := mk_va_space {
  vs_page_size : Z; vs_flags : Z; created_at : Z;
  attached_queues : list Z
}.
#[export] Instance eta_va_space : Eta VASpace := fun v =>
  mk_va_space (vs_page_size v) (vs_flags v) (created_at v) (attached_queues v).

Record GpgpuDevice (H : Type) := mk_device {
  hal_ : H;
  allocated_bits_ : gset Z;
  bo_map_ : gmap Z BoInfo;
  registered_kernels_ : gmap string Z;
  puller_ : Z;
  queues_ : gmap Z Z;
  queue_infos_ : gmap Z QueueInfo;
  next_queue_handle_ : Z;
  va_spaces_ : gmap Z VASpace;
  next_va_space_handle_ : Z;
  g_state : KfdSimState;
  copied_out : list (Z * list gpu_aperture_info)   (* stored through user pointers *)
}.
Arguments mk_device {H}.
Arguments hal_ {H} g. Arguments allocated_bits_ {H} g. Arguments bo_map_ {H} g.
Arguments registered_kernels_ {H} g. Arguments puller_ {H} g. Arguments queues_ {H} g.
Arguments queue_infos_ {H} g. Arguments next_queue_handle_ {H} g. Arguments va_spaces_ {H} g.
Arguments next_va_space_handle_ {H} g. Arguments g_state {H} g. Arguments copied_out {H} g.
#[export] Instance eta_device H : Eta (GpgpuDevice H) := fun d =>
  mk_device (hal_ d) (allocated_bits_ d) (bo_map_ d) (registered_kernels_ d) (puller_ d)
    (queues_ d) (queue_infos_ d) (next_queue_handle_ d) (va_spaces_ d) (next_va_space_handle_ d)
    (g_state d) (copied_out d).

(** What the operating system and the other threads contribute to one call. *)
Record os_answers (H : Type) := mk_os {
  os_time : Z;                          (* time(nullptr) *)
  os_memalign : option Z;               (* the block posix_memalign gives *)
  os_ring : list gpu_gpfifo_entry;      (* the entries in the ring's memory *)
  os_header : Z * Z;                    (* write_idx and read_idx in the ring's memory *)
  os_entries : list gpu_gpfifo_entry;   (* the entries at entries_addr *)
  os_mmap_ok : bool;
  os_pipe : Z;
  os_tick : Z -> H -> H;                (* what happens to the HAL in the i-th millisecond *)
  os_patience : nat                     (* milliseconds an unbounded wait is observed *)
}.
Arguments os_time {H} o. Arguments os_memalign {H} o. Arguments os_ring {H} o.
Arguments os_header {H} o. Arguments os_entries {H} o. Arguments os_mmap_ok {H} o.
Arguments os_pipe {H} o. Arguments os_tick {H} o. Arguments os_patience {H} o.

Definition GPFIFO_BASE : Z := 268435456.
Definition max_handles_ : Z := 65535.
Definition QUEUE_RING_MMAP_BASE : Z := 65536.
Definition DOORBELL_MMAP_OFFSET : Z := 131072.
Definition DOORBELL_ALLOC_BASE : Z := 65536.
Definition DOORBELL_ALLOC_STRIDE : Z := 4096.

Definition new_device {H} (hal : H) (kfd : KfdSimState) : GpgpuDevice H :=
  mk_device hal ∅ ∅ {["simple_kernel" := 0; "matmul_kernel" := 1]} 0 ∅ ∅ 1 ∅ 1 kfd [].
Definition setPuller {H} (p : Z) (d : GpgpuDevice H) : GpgpuDevice H := d <| puller_ := p |>.

(** ** [HandleManager] *)
(** The first free handle from [i] on, [fuel] of them. *)
Fixpoint first_free (bits : gset Z) (fuel : nat) (i : Z) : option Z :=
  match fuel with
  | O => None
  | S fuel' => if bool_decide (i ∈ bits) then first_free bits fuel' (i + 1) else Some i
  end.
Definition handle_allocate (bits : gset Z) : Z * gset Z :=
  match first_free bits (Z.to_nat max_handles_) 1 with
  | Some i => (i, {[i]} ∪ bits)
  | None => (0, bits)
  end.
Definition handle_valid (bits : gset Z) (handle : Z) : bool :=
  negb (handle =? 0) && (handle <=? max_handles_) && bool_decide (handle ∈ bits).
Definition handle_release (handle : Z) (bits : gset Z) : bool * gset Z :=
  if handle_valid bits handle then (true, bits ∖ {[handle]}) else (false, bits).

(** [vector::erase] of the first element equal to [x]. *)
Fixpoint erase_first (x : Z) (l : list Z) : list Z :=
  match l with
  | [] => []
  | y :: l' => if y =? x then l' else y :: erase_first x l'
  end.

(** ** Helpers of the class *)
Section Helpers.
  Context {H : Type}.
  Implicit Types d : GpgpuDevice H.
Definition getQueue (queue_handle : Z) d : Z := default 0 (queues_ d !! queue_handle).
Definition removeQueue (queue_handle : Z) d : bool * GpgpuDevice H :=
  (bool_decide (is_Some (queues_ d !! queue_handle)), d <| queues_ ::= delete queue_handle |>).
Definition vaSpaceExists (handle : Z) d : bool := bool_decide (is_Some (va_spaces_ d !! handle)).

Definition createVASpace (now page_size flags : Z) d : Z * option Z * GpgpuDevice H :=
  let handle := next_va_space_handle_ d in
  let d := d <| next_va_space_handle_ := u64 (handle + 1) |> in
  if handle =? 0 then (- ENOMEM, None, d)
  else
    let va_space := mk_va_space (if page_size =? 1 then 65536 else 4096) flags now [] in
    (0, Some handle, d <| va_spaces_ ::= <[handle := va_space]> |>).

Definition destroyVASpace (handle : Z) d : Z * GpgpuDevice H :=
  match va_spaces_ d !! handle with
  | None => (- ENOENT, d)
  | Some v =>
      match attached_queues v with
      | _ :: _ => (- EBUSY, d)
      | [] => (0, d <| va_spaces_ ::= delete handle |>)
      end
  end.

Definition attachQueueToVASpace (va_space_handle queue_handle : Z) d : Z * GpgpuDevice H :=
  match va_spaces_ d !! va_space_handle with
  | None => (- ENOENT, d)
  | Some v =>
      (0, d <| va_spaces_ ::=
            <[va_space_handle := v <| attached_queues ::= fun l => l ++ [queue_handle] |>]> |>)
  end.

Definition detachQueueFromVASpace (va_space_handle queue_handle : Z) d : Z * GpgpuDevice H :=
  match va_spaces_ d !! va_space_handle with
  | None => (- ENOENT, d)
  | Some v =>
      if bool_decide (queue_handle ∈ attached_queues v) then
        (0, d <| va_spaces_ ::=
              <[va_space_handle := v <| attached_queues ::= erase_first queue_handle |>]> |>)
      else (- ENOENT, d)
  end.
End Helpers.

(** ** The handlers *)
Section Handlers.
  Context {H : Type} `{HAL : GpuHal H}.
  Implicit Types env : os_answers H.

(** A handler of the device with argument structure [A]. *)
Definition dev_handler (A X : Type) : Type := handler (GpgpuDevice H * A) Z X.
Definition dev {A} : dev_handler A (GpgpuDevice H) := fun s => (Go s.1, s).
Definition args {A} : dev_handler A A := fun s => (Go s.2, s).
Definition upd_dev {A} (f : GpgpuDevice H -> GpgpuDevice H) : dev_handler A unit :=
  fun s => (Go tt, (f s.1, s.2)).
Definition upd_args {A} (f : A -> A) : dev_handler A unit := fun s => (Go tt, (s.1, f s.2)).
(** Run a helper of the class. *)
Definition on_dev {A X} (f : GpgpuDevice H -> X * GpgpuDevice H) : dev_handler A X :=
  fun s => let '(x, d) := f s.1 in (Go x, (d, s.2)).
(** Call the HAL. *)
Definition hal {A X} (op : hal_op X) : dev_handler A X :=
  fun s => let '(x, h) := hal_call op (hal_ s.1) in (Go x, (s.1 <| hal_ := h |>, s.2)).
(** Store what a call wrote through an out pointer. *)
Definition store {A X} (o : option X) (f : X -> A -> A) : dev_handler A unit :=
  match o with Some x => upd_args (f x) | None => mret tt end.

(** GET_DEVICE_INFO *)
Definition device_info : gpu_device_info :=
  mk_di 4096 4097 SIMULATED_VRAM_SIZE (16 * 1024 * 1024) 32 64 1024 64
    32 1500 1280 256 64 2000 256 17000 16000 4097
    (String.substring 0 63 "UsrLinuxEmu Simulator v1").
Definition handleGetDeviceInfo (env : os_answers H) : dev_handler gpu_device_info Z :=
  upd_args (fun _ => device_info);; mret 0.

(** Buffer objects *)
Definition handleAllocBo (env : os_answers H) : dev_handler gpu_alloc_bo_args Z :=
  a ← args;
  require (negb (ab_domain a =? 0)) (- EINVAL);;
  '(ret, out) ← hal (MemAlloc (ab_size a));
  let gpu_va := default 0 out in
  require ((ret =? 0) && negb (gpu_va =? 0)) (- ENOMEM);;
  handle ← on_dev (fun d => let '(h, bits) := handle_allocate (allocated_bits_ d) in
                            (h, d <| allocated_bits_ := bits |>));
  if handle =? 0 then hal (MemFree gpu_va);; mret (- ENOMEM)
  else
    ptr ← hal (HeapPtr gpu_va);
    upd_dev (fun d => d <| bo_map_ ::=
      <[handle := mk_bo gpu_va (ab_size a) (ab_domain a) (ab_flags a) ptr]> |>);;
    upd_args (fun a => a <| ab_handle := handle |> <| ab_gpu_va := gpu_va |>);;
    mret 0.

Definition handleFreeBo (env : os_answers H) : dev_handler gem_handle_arg Z :=
  a ← args; d ← dev;
  let handle := gem_handle a in
  require (negb (handle =? 0)) (- EINVAL);;
  require (handle_valid (allocated_bits_ d) handle) (- EINVAL);;
  match bo_map_ d !! handle with
  | Some bo => hal (MemFree (bo_gpu_va bo));; upd_dev (fun d => d <| bo_map_ ::= delete handle |>)
  | None => mret tt
  end;;
  upd_dev (fun d => d <| allocated_bits_ ::= fun b => (handle_release handle b).2 |>);;
  mret 0.

Definition handleMapBo (env : os_answers H) : dev_handler gpu_map_bo_args Z :=
  a ← args; d ← dev;
  require (handle_valid (allocated_bits_ d) (mb_handle a)) (- EINVAL);;
  bo ← require_some (bo_map_ d !! mb_handle a) (- EINVAL);
  upd_args (fun a => a <| mb_gpu_va := host_ptr bo |>);;
  mret 0.

(** Command submission *)
Definition encode_check {A} (e : gpu_gpfifo_entry) : dev_handler A unit :=
  if valid e =? 0 then mret tt
  else hal (MethodEncode (mk_packet (u16 (method e)) 0 0));; mret tt.
Fixpoint encode_checks {A} (es : list gpu_gpfifo_entry) : dev_handler A unit :=
  match es with
  | [] => mret tt
  | e :: es' => encode_check e;; encode_checks es'
  end.

(** The synchronous path: every method but FENCE is only logged. *)
Fixpoint sync_entries (es : list gpu_gpfifo_entry) : dev_handler gpu_pushbuffer_args Z :=
  match es with
  | [] => mret 0
  | e :: es' =>
      if negb (valid e =? 0) && (method e =? GPU_OP_FENCE) then
        '(ret, out) ← hal FenceCreate;
        require (ret =? 0) (- ENOMEM);;
        upd_args (fun a => a <| pb_fence_id := default 0 out |>);;
        sync_entries es'
      else sync_entries es'
  end.

Definition has_fence (es : list gpu_gpfifo_entry) : bool :=
  existsb (fun e => negb (valid e =? 0) && (method e =? GPU_OP_FENCE)) es.

Definition handlePushbufferSubmitBatch (env : os_answers H) : dev_handler gpu_pushbuffer_args Z :=
  a ← args; d ← dev;
  require (negb ((pb_count a =? 0) || (16 <? pb_count a))) (- EINVAL);;
  (if pb_va_space_handle a =? 0 then mret tt
   else
     require (vaSpaceExists (pb_va_space_handle a) d) (- EINVAL);;
     require (bool_decide (pb_stream_id a ∈
       default [] (attached_queues <$> va_spaces_ d !! pb_va_space_handle a))) (- EINVAL));;
  let stream := if (pb_stream_id a =? 0) && negb (pb_stream_id_compat a =? 0)
                then pb_stream_id_compat a else pb_stream_id a in
  let es := take (Z.to_nat (pb_count a)) (os_entries env) in
  encode_checks es;;
  if negb (puller_ d =? 0) && negb (has_fence es) then
    let q := getQueue stream d in
    require (negb (q =? 0)) (- ENOENT);;
    '(ret, out) ← hal (QueueSubmit q GPFIFO_BASE (pb_count a));
    require (ret =? 0) ret;;
    hal (DoorbellRing (u32 stream));;
    upd_args (fun a => a <| pb_fence_id := u64 (default 0 out) |>);;
    mret 0
  else sync_entries es.

(** One poll of WAIT_FENCE: below [SIM_FENCE_ID_BASE] the HAL's fences, from
    there on the simulation's. *)
Definition fence_poll (f : Z) (h : H) : bool * H :=
  if f <? SIM_FENCE_ID_BASE then
    let '((r, o), h) := hal_call (FenceRead f) h in ((r =? 0) && truthy (default 0 o), h)
  else
    let '((r, o), h) := hal_call (FenceIdCheck f) h in ((r =? 0) && default false o, h).
(** Whether the fence was seen signalled; [None] if the fuel ran out. *)
Fixpoint wait_loop (tick : Z -> H -> H) (f timeout : Z) (fuel : nat) (elapsed : Z) (h : H) :
    option bool * H :=
  match fuel with
  | O => (None, h)
  | S fuel' =>
      if (elapsed <? timeout) || (timeout =? 0) then
        let '(signaled, h) := fence_poll f h in
        if signaled then (Some true, h)
        else wait_loop tick f timeout fuel' (u64 (elapsed + 1)) (tick elapsed h)
      else (Some false, h)
  end.
(** Enough for the deadline of a bounded wait. *)
Definition wait_fuel (timeout : Z) (patience : nat) : nat :=
  if timeout =? 0 then patience else S (Z.to_nat timeout).
(** [None]: the call has not returned. *)
Definition handleWaitFence (env : os_answers H) : dev_handler gpu_wait_fence_args (option Z) :=
  a ← args;
  r ← on_dev (fun d =>
    let '(r, h) := wait_loop (os_tick env) (wf_fence_id a) (wf_timeout_ms a)
                     (wait_fuel (wf_timeout_ms a) (os_patience env)) 0 (hal_ d) in
    (r, d <| hal_ := h |>));
  match r with
  | None => mret None
  | Some signaled =>
      upd_args (fun a => a <| wf_status := if signaled : bool then 1 else 0 |>);; mret (Some 0)
  end.

(** Queues *)
Definition doorbell_pgoff_of (handle : Z) : Z :=
  u64 (DOORBELL_ALLOC_BASE + u64 (handle * DOORBELL_ALLOC_STRIDE)).
Definition handleCreateQueue (env : os_answers H) : dev_handler gpu_queue_args Z :=
  a ← args; d ← dev;
  require (qa_queue_type a <=? GPU_QUEUE_GRAPHICS) (- EINVAL);;
  require (vaSpaceExists (qa_va_space_handle a) d) (- EINVAL);;
  let handle := next_queue_handle_ d in
  upd_dev (fun d => d <| next_queue_handle_ := u64 (handle + 1) |>);;
  require (negb (handle =? 0)) (- ENOMEM);;
  let priority := if qa_context_type a =? 1 then GPU_CHAN_PRI_LOW else qa_priority a in
  let ring := if 0 <? qa_ring_buffer_size a then u32 (qa_ring_buffer_size a)
              else GPU_MAX_RING_ENTRIES in
  '(ret, out) ← hal (QueueCreate (u32 handle) (qa_queue_type a) priority ring);
  let q := default 0 out in
  require ((ret =? 0) && negb (q =? 0)) (- ENOMEM);;
  upd_dev (fun d => d <| queues_ ::= <[handle := q]> |>
    <| queue_infos_ ::= <[handle := mk_queue_info (qa_queue_type a) ring 0 0]> |>);;
  upd_args (fun a => a <| qa_queue_handle := handle |>
                       <| qa_doorbell_pgoff := doorbell_pgoff_of handle |>);;
  on_dev (attachQueueToVASpace (qa_va_space_handle a) handle);;
  (if puller_ d =? 0 then mret tt else hal (QueueRegisterPuller q (puller_ d));; mret tt);;
  mret 0.

Definition handleDestroyQueue (env : os_answers H) : dev_handler handle64_arg Z :=
  a ← args; d ← dev;
  let handle := handle64 a in
  q ← require_some (queues_ d !! handle) (- ENOENT);
  upd_dev (fun d => d <| va_spaces_ ::= fmap (fun v =>
    v <| attached_queues ::= erase_first handle |>) |>);;
  (if puller_ d =? 0 then mret tt
   else hal (PullerUnregisterQueue (puller_ d) (u32 handle));; mret tt);;
  hal (QueueDestroy q);;
  upd_dev (fun d => d <| queues_ ::= delete handle |> <| queue_infos_ ::= delete handle |>);;
  mret 0.

Definition handleMapQueueRing (env : os_answers H) : dev_handler gpu_queue_map_ring_args Z :=
  a ← args; d ← dev;
  let handle := mr_queue_handle a in
  q ← require_some (queues_ d !! handle) (- ENOENT);
  info ← require_some (queue_infos_ d !! handle) (- ENOENT);
  let ring_mem_size := u64 (sizeof_ring_header + qi_ring_size info * sizeof_entry) in
  ptr ← (if shared_mem info =? 0 then
           ptr ← require_some (os_memalign env) (- ENOMEM);
           upd_dev (fun d => d <| queue_infos_ ::= <[handle := info <| shared_mem := ptr |>]> |>);;
           mret ptr
         else mret (shared_mem info));
  ret ← hal (QueueAttachShmem q ptr (os_ring env) ring_mem_size);
  require (ret =? 0) (- ENOMEM);;
  upd_dev (fun d => d <| queue_infos_ ::= <[handle :=
    info <| shared_mem := ptr |> <| qi_ring_addr := u64 (ptr + sizeof_ring_header) |>]> |>);;
  mret 0.

Definition handleQueryQueue (env : os_answers H) : dev_handler gpu_queue_info_args Z :=
  a ← args; d ← dev;
  let handle := qq_queue_handle a in
  q ← require_some (queues_ d !! handle) (- ENOENT);
  info ← require_some (queue_infos_ d !! handle) (- ENOENT);
  upd_args (fun _ => mk_qq handle (qi_queue_type info) (u32 handle) (doorbell_pgoff_of handle)
    (qi_ring_addr info) (qi_ring_size info)
    (if shared_mem info =? 0 then 0 else u32 ((os_header env).1 - (os_header env).2)));;
  mret 0.

(** VA spaces *)
Definition handleCreateVASpace (env : os_answers H) : dev_handler gpu_va_space_args Z :=
  a ← args;
  require (negb (1 <? va_page_size a)) (- EINVAL);;
  '(ret, out) ← on_dev (createVASpace (os_time env) (va_page_size a) (va_flags a));
  require (ret =? 0) ret;;
  store out (fun handle a => a <| va_va_space_handle := handle |>);;
  mret 0.
Definition handleDestroyVASpace (env : os_answers H) : dev_handler handle64_arg Z :=
  a ← args;
  on_dev (destroyVASpace (handle64 a)).
Definition handleRegisterGPU (env : os_answers H) : dev_handler gpu_register_gpu_args Z :=
  a ← args; d ← dev;
  require (bool_decide (is_Some (va_spaces_ d !! rg_va_space_handle a))) (- ENOENT);;
  mret 0.

(** Stream capture and graphs *)
Definition handleStreamCaptureBegin (env : os_answers H) : dev_handler gpu_stream_capture_args Z :=
  a ← args; hal (CaptureBegin (sc_stream_id a) (sc_mode a)).
Definition handleStreamCaptureEnd (env : os_answers H) : dev_handler gpu_stream_capture_args Z :=
  upd_args (fun a => a <| sc_mode := 0 |>);;
  a ← args;
  '(ret, out) ← hal (CaptureEnd (sc_stream_id a));
  store out (fun g a => a <| sc_graph_handle_out := g |>);;
  mret ret.
Definition handleStreamCaptureStatus (env : os_answers H) :
    dev_handler gpu_stream_capture_status_args Z :=
  a ← args;
  '(ret, out) ← hal (CaptureStatus (ss_stream_id a));
  store out (fun s a => a <| ss_status_out := s |>);;
  mret ret.
Definition handleGraphCreate (env : os_answers H) : dev_handler gpu_graph_create_args Z :=
  '(ret, out) ← hal GraphCreate;
  store out (fun g a => a <| gc_graph_handle_out := g |>);;
  mret ret.
Definition handleGraphDestroy (env : os_answers H) : dev_handler gpu_graph_destroy_args Z :=
  a ← args; hal (GraphDestroy (gd_graph_handle a)).
Definition handleGraphAddKernelNode (env : os_answers H) :
    dev_handler gpu_graph_add_kernel_node_args Z :=
  a ← args;
  hal (GraphAddKernelNode (gk_graph_handle a) (gk_kernel_index a) (gk_grid_x a) (gk_grid_y a)
    (gk_grid_z a) (gk_block_x a) (gk_block_y a) (gk_block_z a) (gk_kernargs_bo_handle a)).
Definition handleGraphAddMemcpyNode (env : os_answers H) :
    dev_handler gpu_graph_add_memcpy_node_args Z :=
  a ← args;
  hal (GraphAddMemcpyNode (gm_graph_handle a) (gm_src_va a) (gm_dst_va a) (gm_size a)
    (s32 (gm_is_h2d a))).
Definition handleGraphInstantiate (env : os_answers H) : dev_handler gpu_graph_instantiate_args Z :=
  a ← args;
  '(ret, out) ← hal (GraphInstantiate (gi_graph_handle a));
  store out (fun x a => a <| gi_exec_handle_out := x |>);;
  mret ret.
Definition handleGraphLaunch (env : os_answers H) : dev_handler gpu_graph_launch_args Z :=
  a ← args; d ← dev;
  '(ret, out) ← hal (GraphLaunch (gl_exec_handle a) (gl_stream_id a));
  require (ret =? 0) ret;;
  let '(gpfifo_addr, entry_count) := default (0, 0) out in
  require (negb (entry_count =? 0)) (- EINVAL);;
  let q := getQueue (gl_stream_id a) d in
  require (negb (q =? 0)) (- ENOENT);;
  '(ret, out) ← hal (QueueSubmit q gpfifo_addr entry_count);
  require (ret =? 0) ret;;
  hal (DoorbellRing (gl_stream_id a));;
  upd_args (fun a => a <| gl_fence_id_out := default 0 out |>);;
  mret 0.
Definition handleGraphDestroyExec (env : os_answers H) : dev_handler gpu_graph_destroy_exec_args Z :=
  a ← args; hal (GraphDestroyExec (gx_exec_handle a)).

(** Memory pools *)
Definition handleMemPoolCreate (env : os_answers H) : dev_handler gpu_mem_pool_create_args Z :=
  a ← args;
  '(ret, out) ← hal (PoolCreate (pc_props a) (os_mmap_ok env));
  store out (fun '(h, base, limit) a => a <| pc_pool_handle_out := h |>
    <| pc_va_base := base |> <| pc_va_limit := limit |>);;
  mret ret.
Definition handleMemPoolDestroy (env : os_answers H) : dev_handler gpu_mem_pool_destroy_args Z :=
  a ← args; hal (PoolDestroy (pd_pool_handle a)).
Definition handleMemPoolAlloc (env : os_answers H) : dev_handler gpu_mem_pool_alloc_args Z :=
  a ← args;
  '(ret, out) ← hal (PoolAlloc (pl_pool_handle a) (pl_size a));
  store out (fun va a => a <| pl_va_out := va |>);;
  mret ret.
Definition handleMemPoolAllocAsync (env : os_answers H) :
    dev_handler gpu_mem_pool_alloc_async_args Z :=
  a ← args;
  '(rc, out) ← hal (PoolAlloc (py_pool_handle a) (py_size a));
  store out (fun va a => a <| py_va_out := va |>);;
  require (rc =? 0) rc;;
  '(rc, out) ← hal (PoolAllocAsync (py_pool_handle a) (py_size a));
  require (rc =? 0) rc;;
  upd_args (fun a => a <| py_fence_id_out := default 0 out |>);;
  mret 0.
Definition handleMemPoolFreeAsync (env : os_answers H) :
    dev_handler gpu_mem_pool_free_async_args Z :=
  a ← args;
  '(ret, out) ← hal (PoolFreeAsync 0 (pf_va a));
  store out (fun f a => a <| pf_fence_id_out := f |>);;
  mret ret.

(** The size of an attribute; the blob [value] as its 32 bytes. *)
Definition attr_size (attr : Z) : option Z :=
  if attr =? 1 then Some 8 else if attr =? 2 then Some 4 else None.
Definition blob_bytes (value : list Z) : list Z := mjoin (le_bytes 8 <$> value).
Fixpoint blob_words (n : nat) (bs : list Z) : list Z :=
  match n with
  | O => []
  | S n' => le_val (take 8 bs) :: blob_words n' (drop 8 bs)
  end.
Definition handleMemPoolSetAttr (env : os_answers H) : dev_handler gpu_mem_pool_attr_args Z :=
  a ← args;
  sz ← require_some (attr_size (pt_attr a)) (- ENOSYS);
  hal (PoolSetAttr (pt_pool_handle a) (pt_attr a) (take (Z.to_nat sz) (blob_bytes (pt_value a)))).
Definition handleMemPoolGetAttr (env : os_answers H) : dev_handler gpu_mem_pool_attr_args Z :=
  a ← args;
  sz ← require_some (attr_size (pt_attr a)) (- ENOSYS);
  upd_args (fun a => a <| pt_value := [0; 0; 0; 0] |>);;
  '(ret, out) ← hal (PoolGetAttr (pt_pool_handle a) (pt_attr a) sz);
  store out (fun bs a => a <| pt_value :=
    blob_words 4 (take 32 (bs ++ drop (length bs) (replicate 32 0))) |>);;
  mret ret.
Definition handleMemPoolTrim (env : os_answers H) : dev_handler gpu_mem_pool_trim_args Z :=
  a ← args; hal (PoolTrim (pm_pool_handle a) (pm_min_bytes a)).
Definition handleMemPoolExport (env : os_answers H) : dev_handler gpu_mem_pool_export_args Z :=
  a ← args;
  '(rc, out) ← hal (PoolExport (pe_pool_handle a) (pe_handle_type a) (pe_flags a) (os_pipe env));
  store out (fun fd a => a <| pe_fd_out := fd |>);;
  mret rc.

(** KFD *)
Definition on_kfd {A X} (f : KfdSimState -> X * KfdSimState) : dev_handler A X :=
  on_dev (fun d => let '(x, s) := f (g_state d) in (x, d <| g_state := s |>)).
Definition handleMapMemory (env : os_answers H) : dev_handler gpu_map_memory_args Z :=
  a ← args; d ← dev;
  require (handle_valid (allocated_bits_ d) (mm_handle a)) (- EINVAL);;
  '(ret, a) ← on_kfd (kfd_sim_handle_map_memory a);
  upd_args (fun _ => a);;
  mret ret.
Definition handleUnmapMemory (env : os_answers H) : dev_handler gpu_unmap_memory_args Z :=
  a ← args; d ← dev;
  require (handle_valid (allocated_bits_ d) (um_handle a)) (- EINVAL);;
  '(ret, a) ← on_kfd (kfd_sim_handle_unmap_memory a);
  upd_args (fun _ => a);;
  mret ret.
Definition handleGetProcessAperture (env : os_answers H) :
    dev_handler gpu_get_process_aperture_args Z :=
  a ← args;
  let '(ret, infos) := kfd_sim_handle_get_process_aperture (pa_num_nodes a) (pa_apertures_ptr a) in
  (match infos with
   | [] => mret tt
   | _ => upd_dev (fun d => d <| copied_out ::= cons (pa_apertures_ptr a, infos) |>)
   end);;
  mret ret.
Definition handleUpdateQueue (env : os_answers H) : dev_handler gpu_update_queue_args Z :=
  a ← args; mret (kfd_sim_handle_update_queue (uq_queue_handle a) (uq_queue_flags a)).
Definition handleRegisterMMUCB (env : os_answers H) : dev_handler gpu_mmu_event_cb_args Z :=
  a ← args; on_kfd (kfd_sim_register_mmu_cb (mc_callback_fn a) (mc_user_data a)).
Definition handleRegisterFirmwareCB (env : os_answers H) : dev_handler gpu_firmware_cb_args Z :=
  a ← args; on_kfd (kfd_sim_register_firmware_cb (fc_callback_fn a) (fc_user_data a)).

(** Kernel images *)
Definition handleLoadKernelModule (env : os_answers H) : dev_handler gpu_load_kernel_module_args Z :=
  a ← args;
  require (negb ((lk_image_size a =? 0) || (MAX_KERNEL_IMAGE_SIZE <? lk_image_size a))) (- EINVAL);;
  '(ret, out) ← hal (KernelModuleLoad (lk_image_ptr a) (lk_image_size a));
  store out (fun va a => a <| lk_out_vram_addr := va |>);;
  mret ret.
Definition handleLaunchKernelModule (env : os_answers H) :
    dev_handler gpu_launch_kernel_module_args Z :=
  '(ret, out) ← hal KernelModuleExecute;
  store out (fun s a => a <| xk_launch_status := s |>);;
  mret ret.
Definition handleUnloadKernelModule (env : os_answers H) :
    dev_handler gpu_unload_kernel_module_args Z :=
  '(ret, out) ← hal KernelModuleUnload;
  store out (fun s a => a <| uk_unload_status := s |>);;
  mret ret.

(** ** Dispatch *)
(** [Blocks]: the call has not returned.  [WrongBuffer]: [argp] points to
    another structure than the handler reads; what happens then depends on the
    memory around it and is outside the model. *)
Inductive ioctl_result :=
| Returned (ret : Z) (arg : option ioctl_arg) (d : GpgpuDevice H)
| Blocks
| WrongBuffer.

Definition on_buffer {A} `{IoctlBuffer A} (m : os_answers H -> dev_handler A Z)
    (env : os_answers H) (argp : option ioctl_arg) (d : GpgpuDevice H) : ioctl_result :=
  match argp with
  | None => Returned (- EFAULT) None d
  | Some b =>
      match of_arg b with
      | None => WrongBuffer
      | Some a => let '(r, (d, a)) := run_handler (m env) (d, a) in Returned r (Some (to_arg a)) d
      end
  end.
Definition on_wait (m : os_answers H -> dev_handler gpu_wait_fence_args (option Z))
    (env : os_answers H) (argp : option ioctl_arg) (d : GpgpuDevice H) : ioctl_result :=
  match argp with
  | None => Returned (- EFAULT) None d
  | Some b =>
      match of_arg b with
      | None => WrongBuffer
      | Some a =>
          match m env (d, a) with
          | (Go (Some r), (d, a)) | (Exit r, (d, a)) => Returned r (Some (to_arg a)) d
          | (Go None, _) => Blocks
          end
      end
  end.

Record IoctlEntry := mk_ioctl_entry {
  request : Z;
  ioctl_name : string;
  handler_of : os_answers H -> option ioctl_arg -> GpgpuDevice H -> ioctl_result
}.
Definition getIoctlTablePtr : list IoctlEntry :=
  [mk_ioctl_entry GPU_IOCTL_GET_DEVICE_INFO "GET_DEVICE_INFO" (on_buffer handleGetDeviceInfo);
   mk_ioctl_entry GPU_IOCTL_ALLOC_BO "ALLOC_BO" (on_buffer handleAllocBo);
   mk_ioctl_entry GPU_IOCTL_FREE_BO "FREE_BO" (on_buffer handleFreeBo);
   mk_ioctl_entry GPU_IOCTL_MAP_BO "MAP_BO" (on_buffer handleMapBo);
   mk_ioctl_entry GPU_IOCTL_PUSHBUFFER_SUBMIT_BATCH "PUSHBUFFER_SUBMIT_BATCH" (on_buffer handlePushbufferSubmitBatch);
   mk_ioctl_entry GPU_IOCTL_WAIT_FENCE "WAIT_FENCE" (on_wait handleWaitFence);
   mk_ioctl_entry GPU_IOCTL_CREATE_QUEUE "CREATE_QUEUE" (on_buffer handleCreateQueue);
   mk_ioctl_entry GPU_IOCTL_DESTROY_QUEUE "DESTROY_QUEUE" (on_buffer handleDestroyQueue);
   mk_ioctl_entry GPU_IOCTL_MAP_QUEUE_RING "MAP_QUEUE_RING" (on_buffer handleMapQueueRing);
   mk_ioctl_entry GPU_IOCTL_QUERY_QUEUE "QUERY_QUEUE" (on_buffer handleQueryQueue);
   mk_ioctl_entry GPU_IOCTL_CREATE_VA_SPACE "CREATE_VA_SPACE" (on_buffer handleCreateVASpace);
   mk_ioctl_entry GPU_IOCTL_DESTROY_VA_SPACE "DESTROY_VA_SPACE" (on_buffer handleDestroyVASpace);
   mk_ioctl_entry GPU_IOCTL_REGISTER_GPU "REGISTER_GPU" (on_buffer handleRegisterGPU);
   mk_ioctl_entry GPU_IOCTL_STREAM_CAPTURE_BEGIN "STREAM_CAPTURE_BEGIN" (on_buffer handleStreamCaptureBegin);
   mk_ioctl_entry GPU_IOCTL_STREAM_CAPTURE_END "STREAM_CAPTURE_END" (on_buffer handleStreamCaptureEnd);
   mk_ioctl_entry GPU_IOCTL_STREAM_CAPTURE_STATUS "STREAM_CAPTURE_STATUS" (on_buffer handleStreamCaptureStatus);
   mk_ioctl_entry GPU_IOCTL_GRAPH_CREATE "GRAPH_CREATE" (on_buffer handleGraphCreate);
   mk_ioctl_entry GPU_IOCTL_GRAPH_DESTROY "GRAPH_DESTROY" (on_buffer handleGraphDestroy);
   mk_ioctl_entry GPU_IOCTL_GRAPH_ADD_KERNEL_NODE "GRAPH_ADD_KERNEL_NODE" (on_buffer handleGraphAddKernelNode);
   mk_ioctl_entry GPU_IOCTL_GRAPH_ADD_MEMCPY_NODE "GRAPH_ADD_MEMCPY_NODE" (on_buffer handleGraphAddMemcpyNode);
   mk_ioctl_entry GPU_IOCTL_GRAPH_INSTANTIATE "GRAPH_INSTANTIATE" (on_buffer handleGraphInstantiate);
   mk_ioctl_entry GPU_IOCTL_GRAPH_LAUNCH "GRAPH_LAUNCH" (on_buffer handleGraphLaunch);
   mk_ioctl_entry GPU_IOCTL_GRAPH_DESTROY_EXEC "GRAPH_DESTROY_EXEC" (on_buffer handleGraphDestroyExec);
   mk_ioctl_entry GPU_IOCTL_MEM_POOL_CREATE "MEM_POOL_CREATE" (on_buffer handleMemPoolCreate);
   mk_ioctl_entry GPU_IOCTL_MEM_POOL_DESTROY "MEM_POOL_DESTROY" (on_buffer handleMemPoolDestroy);
   mk_ioctl_entry GPU_IOCTL_MEM_POOL_ALLOC "MEM_POOL_ALLOC" (on_buffer handleMemPoolAlloc);
   mk_ioctl_entry GPU_IOCTL_MEM_POOL_ALLOC_ASYNC "MEM_POOL_ALLOC_ASYNC" (on_buffer handleMemPoolAllocAsync);
   mk_ioctl_entry GPU_IOCTL_MEM_POOL_FREE_ASYNC "MEM_POOL_FREE_ASYNC" (on_buffer handleMemPoolFreeAsync);
   mk_ioctl_entry GPU_IOCTL_MEM_POOL_SET_ATTR "MEM_POOL_SET_ATTR" (on_buffer handleMemPoolSetAttr);
   mk_ioctl_entry GPU_IOCTL_MEM_POOL_GET_ATTR "MEM_POOL_GET_ATTR" (on_buffer handleMemPoolGetAttr);
   mk_ioctl_entry GPU_IOCTL_MEM_POOL_TRIM "MEM_POOL_TRIM" (on_buffer handleMemPoolTrim);
   mk_ioctl_entry GPU_IOCTL_MEM_POOL_EXPORT "MEM_POOL_EXPORT" (on_buffer handleMemPoolExport);
   mk_ioctl_entry GPU_IOCTL_GET_PROCESS_APERTURE "GET_PROCESS_APERTURE" (on_buffer handleGetProcessAperture);
   mk_ioctl_entry GPU_IOCTL_UPDATE_QUEUE "UPDATE_QUEUE" (on_buffer handleUpdateQueue);
   mk_ioctl_entry GPU_IOCTL_REGISTER_MMU_EVENT_CB "REGISTER_MMU_EVENT_CB" (on_buffer handleRegisterMMUCB);
   mk_ioctl_entry GPU_IOCTL_REGISTER_FIRMWARE_CB "REGISTER_FIRMWARE_CB" (on_buffer handleRegisterFirmwareCB);
   mk_ioctl_entry GPU_IOCTL_MAP_MEMORY "MAP_MEMORY" (on_buffer handleMapMemory);
   mk_ioctl_entry GPU_IOCTL_UNMAP_MEMORY "UNMAP_MEMORY" (on_buffer handleUnmapMemory);
   mk_ioctl_entry GPU_IOCTL_LOAD_KERNEL_MODULE "LOAD_KERNEL_MODULE" (on_buffer handleLoadKernelModule);
   mk_ioctl_entry GPU_IOCTL_LAUNCH_KERNEL_MODULE "LAUNCH_KERNEL_MODULE" (on_buffer handleLaunchKernelModule);
   mk_ioctl_entry GPU_IOCTL_UNLOAD_KERNEL_MODULE "UNLOAD_KERNEL_MODULE" (on_buffer handleUnloadKernelModule)].

(** The first entry with this request code. *)
Definition ioctl (env : os_answers H) (req : Z) (argp : option ioctl_arg) (d : GpgpuDevice H) :
    ioctl_result :=
  match List.find (fun e => request e =? req) getIoctlTablePtr with
  | Some e => handler_of e env argp d
  | None => Returned (- EINVAL) argp d
  end.
Definition device_open : Z := 0.
Definition device_close : Z := 0.

(** [mmap]: [None] is [MAP_FAILED]. *)
Definition mmap (env : os_answers H) (length offset : Z) (d : GpgpuDevice H) :
    option Z * GpgpuDevice H :=
  let bar2 := u64 offset in
  if (BAR2_OFFSET_BASE <=? bar2) && (bar2 <? BAR2_OFFSET_BASE + BAR2_OFFSET_SIZE) then
    let bo_offset := bar2 - BAR2_OFFSET_BASE in
    if BAR2_OFFSET_SIZE <? u64 (bo_offset + length) then (None, d)
    else
      let '((ret, out), h) := hal_call (MemMapBo bo_offset length) (hal_ d) in
      let p := default 0 out in
      (if (ret <? 0) || (p =? 0) then None else Some p, d <| hal_ := h |>)
  else
    match bo_map_ d !! u32 offset with
    | Some bo =>
        (if bo_size bo <? length then None
         else if host_ptr bo =? 0 then None else Some (host_ptr bo), d)
    | None => (if offset =? DOORBELL_MMAP_OFFSET then os_memalign env else None, d)
    end.
End Handlers.
Arguments ioctl_result : clear implicits.
Arguments IoctlEntry : clear implicits.
Arguments ioctl {H HAL} env req argp d : simpl never.
Arguments getIoctlTablePtr {H HAL} : simpl never.
