(* ===== verification/DeviceProps.v ===== *)
(** * The device over a lawful HAL

    Invariants of the buffer-object table and of the queue and VA-space
    tables, kept by every ioctl; what WAIT_FENCE, DESTROY_VA_SPACE and
    PUSHBUFFER_SUBMIT_BATCH answer; the dispatch table. *)
From S2P Require Import Prelude GpuTypes HalUser KfdBridge HalCalls Ioctl FenceId Device.

(** ** Reasoning about handlers *)
Section Rules.
  Context {H : Type} `{HAL : GpuHal H} {A : Type}.
  Implicit Types I : GpgpuDevice H -> Prop.

(** A device predicate as a predicate on the state of a handler. *)
Definition on_device I (s : GpgpuDevice H * A) : Prop := I s.1.

Lemma keeps_dev I : preserves (on_device I) (dev (A := A)).
Proof. by intros s. Qed.
Lemma keeps_args I : preserves (on_device I) (args (H := H) (A := A)).
Proof. by intros s. Qed.
Lemma keeps_upd_args I f : preserves (on_device I) (upd_args (H := H) (A := A) f).
Proof. by intros s. Qed.
Lemma keeps_upd_dev I f : (forall d, I d -> I (f d)) -> preserves (on_device I) (upd_dev (A := A) f).
Proof. intros Hf s Hs. by apply Hf. Qed.
Lemma keeps_on_dev {X} I (f : GpgpuDevice H -> X * GpgpuDevice H) :
  (forall d, I d -> I (f d).2) -> preserves (on_device I) (on_dev (A := A) f).
Proof. intros Hf [d a] Hs. unfold on_dev. simpl. specialize (Hf d Hs). destruct (f d). exact Hf. Qed.
Lemma keeps_store {X} I (o : option X) f : preserves (on_device I) (store (H := H) (A := A) o f).
Proof. by destruct o; intros s. Qed.
Lemma keeps_hal {X} I (op : hal_op X) :
  (forall d, I d -> I (d <| hal_ := (hal_call op (hal_ d)).2 |>)) ->
  preserves (on_device I) (hal (A := A) op).
Proof. intros Hf [d a] Hs. unfold hal. simpl. specialize (Hf d Hs). destruct (hal_call op (hal_ d)). exact Hf. Qed.
End Rules.
#[export] Hint Resolve keeps_dev keeps_args keeps_upd_args keeps_store : handler.

(** Run a handler whose calls are known. *)
Ltac run_simpl :=
  cbv delta [run_handler mbind handler_bind mret handler_ret require require_some args dev hal upd_dev
    upd_args on_dev store exit_with] beta; simpl.

(** Split the handler at its sequencing and its tests. *)
Ltac keeps_step :=
  match goal with
  | |- preserves _ (_ ≫= _) => apply preserves_bind; [|intros ?]
  | |- preserves _ (match ?x with _ => _ end) => destruct x
  | |- preserves _ (hal _) => apply keeps_hal
  | |- preserves _ (on_dev _) => apply keeps_on_dev
  | |- preserves _ (on_kfd _) => apply keeps_on_dev
  | |- preserves _ (upd_dev _) => apply keeps_upd_dev
  | |- preserves _ _ => solve [eauto with handler]
  end.
Ltac keeps_steps := repeat keeps_step.

(** Related maps have the same keys. *)
Lemma Forall2_lookup_l {X Y} (R : X -> Y -> Prop) (m1 : gmap Z X) (m2 : gmap Z Y) i x :
  map_Forall2 (fun _ => R) m1 m2 -> m1 !! i = Some x -> exists y, m2 !! i = Some y /\ R x y.
Proof. intros Hf E. specialize (Hf i). rewrite E in Hf. inversion Hf as [? y HR|]. by exists y. Qed.
Lemma Forall2_lookup_r {X Y} (R : X -> Y -> Prop) (m1 : gmap Z X) (m2 : gmap Z Y) i y :
  map_Forall2 (fun _ => R) m1 m2 -> m2 !! i = Some y -> exists x, m1 !! i = Some x /\ R x y.
Proof. intros Hf E. specialize (Hf i). rewrite E in Hf. inversion Hf as [x ? HR|]. by exists x. Qed.

(** ** Buffer objects *)
Section BoInvariant.
  Context {H : Type} `{HAL : GpuHal H} `{LAWS : !GpuHalLaws H}.
  Implicit Types d : GpgpuDevice H.

(** The block a buffer object occupies; it holds the object unless the size
    asked for was more than [2^63]. *)
Definition bo_block (bo : BoInfo) (r : range) : Prop := r.1 = bo_gpu_va bo /\ covers (bo_size bo) r.2.

Record bo_inv d : Prop := {
  bi_hal : hal_ok (hal_ d);
  bi_bits : forall h, h ∈ allocated_bits_ d <-> is_Some (bo_map_ d !! h);
  bi_range : forall h, h ∈ allocated_bits_ d -> 1 <= h <= max_handles_;
  bi_blocks : exists (blocks : gmap Z range) rest,
    map_Forall2 (fun _ => bo_block) (bo_map_ d) blocks /\
    hal_live (hal_ d) ≡ₚ (map_to_list blocks).*2 ++ rest
}.

Lemma bo_inv_hal {X} (op : hal_op X) d :
  allocates op = false -> bo_inv d -> bo_inv (d <| hal_ := (hal_call op (hal_ d)).2 |>).
Proof.
  intros Hop [H1 H2 H3 (bl & rest & H4 & H5)]. destruct (hal_frame_law _ op (hal_ d) Hop H1) as [Ha Hb].
  split; simpl; try done. exists bl, rest. by rewrite Hb.
Qed.
(** An update that leaves the HAL and the two tables alone. *)
Lemma bo_inv_ext d d' :
  hal_ d' = hal_ d -> allocated_bits_ d' = allocated_bits_ d -> bo_map_ d' = bo_map_ d ->
  bo_inv d -> bo_inv d'.
Proof. intros E1 E2 E3 [H1 H2 H3 H4]. split; by rewrite ?E1, ?E2, ?E3. Qed.

(** Live buffer objects do not overlap. *)
Lemma bo_inv_disjoint d h h' bo bo' :
  bo_inv d -> h <> h' -> bo_map_ d !! h = Some bo -> bo_map_ d !! h' = Some bo' ->
  bo_size bo <= 2 ^ 63 -> bo_size bo' <= 2 ^ 63 ->
  ranges_disjoint (bo_gpu_va bo, bo_size bo) (bo_gpu_va bo', bo_size bo').
Proof.
  intros [Hok _ _ (bl & rest & Hf & Hl)] Hne E E' Hsz Hsz'.
  destruct (Forall2_lookup_l _ _ _ _ _ Hf E) as ([a k] & Eb & Ha & Hk).
  destruct (Forall2_lookup_l _ _ _ _ _ Hf E') as ([a' k'] & Eb' & Ha' & Hk').
  assert (Hp : exists rest', hal_live (hal_ d) ≡ₚ (a, k) :: (a', k') :: rest').
  { exists ((map_to_list (delete h' (delete h bl))).*2 ++ rest).
    rewrite Hl, <- (map_to_list_delete bl h (a, k)) by done.
    by rewrite <- (map_to_list_delete (delete h bl) h' (a', k')) by (by rewrite lookup_delete_ne). }
  destruct Hp as [rest' Hp]. pose proof (hal_live_disjoint _ _ _ _ Hok Hp) as Hd.
  specialize (Hk Hsz). specialize (Hk' Hsz').
  unfold ranges_disjoint in *. simpl in *. lia.
Qed.

Lemma first_free_spec bits fuel i j :
  first_free bits fuel i = Some j -> i <= j < i + Z.of_nat fuel /\ j ∉ bits.
Proof.
  revert i. induction fuel as [|fuel IH]; intros i; simpl; [done|].
  case_bool_decide as Hi; [intros ?%IH; lia || (split; [lia|tauto])|]. intros [= <-]. split; [lia|done].
Qed.
Lemma handle_allocate_spec bits h bits' :
  handle_allocate bits = (h, bits') ->
  (h = 0 /\ bits' = bits) \/ (1 <= h <= max_handles_ /\ h ∉ bits /\ bits' = {[h]} ∪ bits).
Proof.
  unfold handle_allocate. destruct (first_free _ _ _) as [i|] eqn:E; intros [= <- <-]; [right|by left].
  apply first_free_spec in E as [Hin Hf]. unfold max_handles_ in *. split; [lia|done].
Qed.

(** A fresh block for a fresh handle. *)
Lemma bo_inv_insert d hal' h bo k :
  bo_inv d -> h ∉ allocated_bits_ d -> 1 <= h <= max_handles_ ->
  hal_ok hal' -> hal_live hal' ≡ₚ (bo_gpu_va bo, k) :: hal_live (hal_ d) -> covers (bo_size bo) k ->
  forall d', hal_ d' = hal' -> allocated_bits_ d' = {[h]} ∪ allocated_bits_ d ->
    bo_map_ d' = <[h := bo]> (bo_map_ d) -> bo_inv d'.
Proof.
  intros [H1 H2 H3 (bl & rest & H4 & H5)] Hh Hr Hok Hl Hk d' E1 E2 E3.
  assert (Hnone : bo_map_ d !! h = None) by (apply eq_None_not_Some; by rewrite <- H2).
  assert (Hbl : bl !! h = None).
  { destruct (bl !! h) as [r|] eqn:E; [|done].
    destruct (Forall2_lookup_r _ _ _ _ _ H4 E) as (x & Hx & _). congruence. }
  split; rewrite ?E1, ?E2, ?E3; [done| | |].
  - intros i. rewrite elem_of_union, elem_of_singleton, H2, lookup_insert_is_Some.
    destruct (decide (h = i)); naive_solver.
  - intros i [->%elem_of_singleton|Hi]%elem_of_union; [done|by apply H3].
  - exists (<[h := (bo_gpu_va bo, k)]> bl), rest. split; [by apply map_Forall2_insert_2|].
    rewrite Hl, H5, map_to_list_insert by done. done.
Qed.
(** Releasing the block and the handle of an object. *)
Lemma bo_inv_delete d h bo :
  bo_inv d -> bo_map_ d !! h = Some bo ->
  let hal' := (hal_call (MemFree (bo_gpu_va bo)) (hal_ d)).2 in
  (hal_call (MemFree (bo_gpu_va bo)) (hal_ d)).1 = 0 /\
  forall d', hal_ d' = hal' -> allocated_bits_ d' = allocated_bits_ d ∖ {[h]} ->
    bo_map_ d' = delete h (bo_map_ d) -> bo_inv d'.
Proof.
  intros [H1 H2 H3 (bl & rest & H4 & H5)] E hal'.
  destruct (Forall2_lookup_l _ _ _ _ _ H4 E) as ([a k] & Eb & Ha & Hk). simpl in Ha. subst a.
  assert (Hp : hal_live (hal_ d) ≡ₚ (bo_gpu_va bo, k) :: ((map_to_list (delete h bl)).*2 ++ rest)).
  { rewrite H5, <- (map_to_list_delete bl h (bo_gpu_va bo, k)) by done. done. }
  pose proof (hal_free_law _ _ _ _ H1 Hp) as Hf. unfold hal' in *. clear hal'.
  destruct (hal_call (MemFree (bo_gpu_va bo)) (hal_ d)) as [r h']. destruct Hf as (-> & Hok & Hl). split; [done|].
  intros d' E1 E2 E3. split; rewrite ?E1, ?E2, ?E3; [done| | |].
  - intros i. rewrite elem_of_difference, elem_of_singleton, H2, lookup_delete_is_Some. naive_solver.
  - intros i [Hi _]%elem_of_difference. by apply H3.
  - exists (delete h bl), rest. split; [by apply map_Forall2_delete|done].
Qed.
End BoInvariant.

(** ** Every handler keeps the buffer objects apart *)
Ltac bo_frame :=
  let d := fresh "d" in let Hd := fresh "Hd" in
  intros d Hd;
  first
    [ by apply bo_inv_hal
    | apply (bo_inv_ext d); [reflexivity..|exact Hd]
    | try unfold createVASpace; try unfold destroyVASpace; try unfold attachQueueToVASpace; simpl;
      repeat case_match; simplify_eq/=; first [exact Hd | apply (bo_inv_ext d); [reflexivity..|exact Hd]] ].
Ltac bo_keeps := unfold on_kfd; keeps_steps; bo_frame.

Section BoHandlers.
  Context {H : Type} `{HAL : GpuHal H} `{LAWS : !GpuHalLaws H}.
  Implicit Types d : GpgpuDevice H.

(** The other threads leave device memory alone. *)
Definition tick_ok (env : os_answers H) : Prop := forall i h,
  hal_ok h -> hal_ok (os_tick env i h) /\ hal_live (os_tick env i h) = hal_live h.

Lemma encode_checks_bo {A} es : preserves (on_device bo_inv) (encode_checks (H := H) (A := A) es).
Proof. induction es as [|e es IH]; simpl; [apply preserves_ret|]. unfold encode_check. bo_keeps. Qed.
Lemma sync_entries_bo es : preserves (on_device bo_inv) (sync_entries (H := H) es).
Proof. induction es as [|e es IH]; simpl; [apply preserves_ret|]. bo_keeps. Qed.
#[local] Hint Resolve encode_checks_bo sync_entries_bo : handler.

Lemma pushbuffer_bo env : preserves (on_device bo_inv) (handlePushbufferSubmitBatch (H := H) env).
Proof. unfold handlePushbufferSubmitBatch. bo_keeps. Qed.
Lemma create_queue_bo env : preserves (on_device bo_inv) (handleCreateQueue (H := H) env).
Proof. unfold handleCreateQueue. bo_keeps. Qed.
Lemma destroy_queue_bo env : preserves (on_device bo_inv) (handleDestroyQueue (H := H) env).
Proof. unfold handleDestroyQueue. bo_keeps. Qed.
Lemma map_ring_bo env : preserves (on_device bo_inv) (handleMapQueueRing (H := H) env).
Proof. unfold handleMapQueueRing. bo_keeps. Qed.
Lemma graph_launch_bo env : preserves (on_device bo_inv) (handleGraphLaunch (H := H) env).
Proof. unfold handleGraphLaunch. bo_keeps. Qed.

Lemma poll_bo f h : hal_ok h -> hal_ok (fence_poll f h).2 /\ hal_live (fence_poll f h).2 = hal_live h.
Proof.
  intros Hok. unfold fence_poll. destruct (f <? SIM_FENCE_ID_BASE).
  - pose proof (hal_frame_law _ (FenceRead f) h eq_refl Hok) as Hf.
    destruct (hal_call (FenceRead f) h) as [[r o] h']. exact Hf.
  - pose proof (hal_frame_law _ (FenceIdCheck f) h eq_refl Hok) as Hf.
    destruct (hal_call (FenceIdCheck f) h) as [[r o] h']. exact Hf.
Qed.
Lemma wait_loop_bo env f timeout fuel e h :
  tick_ok env -> hal_ok h ->
  hal_ok (wait_loop (os_tick env) f timeout fuel e h).2 /\
  hal_live (wait_loop (os_tick env) f timeout fuel e h).2 = hal_live h.
Proof.
  intros Ht. revert e h. induction fuel as [|fuel IH]; intros e h Hok; simpl; [done|].
  destruct (_ || _); [|done]. pose proof (poll_bo f h Hok) as [H1 H2].
  destruct (fence_poll f h) as [s h']. simpl in *. destruct s; [done|].
  destruct (Ht e h' H1) as [H3 H4]. destruct (IH (u64 (e + 1)) _ H3) as [H5 H6].
  split; [done|congruence].
Qed.
Lemma wait_bo env : tick_ok env -> preserves (on_device bo_inv) (handleWaitFence (H := H) env).
Proof.
  intros Ht. unfold handleWaitFence. keeps_steps. intros d [H1 H2 H3 (bl & rest & H4 & H5)].
  pose proof (wait_loop_bo env (wf_fence_id a) (wf_timeout_ms a)
    (wait_fuel (wf_timeout_ms a) (os_patience env)) 0 (hal_ d) Ht H1) as [H6 H7].
  destruct (wait_loop _ _ _ _ _ _) as [r h']. simpl in *. split; simpl; try done.
  exists bl, rest. by rewrite H7.
Qed.

Lemma alloc_bo_inv env a d :
  is_u64 (ab_size a) -> bo_inv d ->
  bo_inv (run_handler (handleAllocBo env) (d, a)).2.1.
Proof.
  intros Hs Hd. unfold handleAllocBo. run_simpl. destruct (negb (ab_domain a =? 0)); [|done]. simpl.
  pose proof (hal_alloc_law (ab_size a) (hal_ d) (bi_hal _ Hd) Hs) as Ha.
  destruct (hal_call (MemAlloc (ab_size a)) (hal_ d)) as [[r o] h1]. destruct Ha as [Hok Hl].
  assert (Hsame : o = None -> bo_inv (d <| hal_ := h1 |>)).
  { intros ->. destruct Hd as [H1 H2 H3 H4]. split; simpl; try done. destruct Hl as [_ ->]. done. }
  destruct o as [va|]; simpl.
  2:{ destruct Hl as [Hr _]. destruct (Z.eqb_spec r 0); simpl; auto. }
  destruct Hl as [-> (k & Hk & Hl)]. simpl.
  assert (Hva : 0 < va).
  { destruct (hal_live_range h1 (va, k) Hok) as [Hx _]; [rewrite Hl; left|done]. }
  destruct (Z.eqb_spec va 0); [lia|]. simpl.
  destruct (handle_allocate (allocated_bits_ d)) as [i bits] eqn:Ei.
  apply handle_allocate_spec in Ei as [[-> ->]|(Hi & Hfree & ->)]; simpl.
  - pose proof (hal_free_law va k (hal_live (hal_ d)) h1 Hok Hl) as Hf.
    destruct (hal_call (MemFree va) h1) as [r h2]. destruct Hf as (-> & Hok2 & Hl2). simpl.
    destruct Hd as [H1 H2 H3 (bl & rest & H4 & H5)]. split; simpl; try done.
    exists bl, rest. by rewrite Hl2.
  - destruct (Z.eqb_spec i 0); [lia|]. simpl.
    pose proof (hal_frame_law _ (HeapPtr va) h1 eq_refl Hok) as [Hok2 Hl2].
    destruct (hal_call (HeapPtr va) h1) as [p h2]. simpl in *.
    eapply (bo_inv_insert d h2 i (mk_bo va (ab_size a) (ab_domain a) (ab_flags a) p) k Hd);
      simpl; try done. by rewrite Hl2.
Qed.

Lemma free_bo_inv env a d : bo_inv d -> bo_inv (run_handler (handleFreeBo env) (d, a)).2.1.
Proof.
  intros Hd. unfold handleFreeBo. run_simpl. destruct (negb (gem_handle a =? 0)) eqn:E0; [|done]. simpl.
  destruct (handle_valid _ _) eqn:Ev; [|done]. simpl.
  assert (Hin : gem_handle a ∈ allocated_bits_ d).
  { unfold handle_valid in Ev. apply andb_prop in Ev as [_ Ev]. by case_bool_decide. }
  apply (bi_bits _ Hd) in Hin as [bo Ebo]. rewrite Ebo. simpl.
  destruct (bo_inv_delete d _ _ Hd Ebo) as [_ Hx].
  destruct (hal_call (MemFree (bo_gpu_va bo)) (hal_ d)) as [r h1]. simpl in *.
  apply Hx; try done. simpl. unfold handle_release. by rewrite Ev.
Qed.

Lemma load_module_bo env a d :
  0 <= lk_image_size a -> bo_inv d -> bo_inv (run_handler (handleLoadKernelModule env) (d, a)).2.1.
Proof.
  intros Hs Hd. unfold handleLoadKernelModule. run_simpl. destruct (negb _); [|done]. simpl.
  pose proof (hal_load_law (lk_image_ptr a) (lk_image_size a) (hal_ d) (bi_hal _ Hd) Hs) as Ha.
  destruct (hal_call (KernelModuleLoad (lk_image_ptr a) (lk_image_size a)) (hal_ d)) as [[r o] h1].
  destruct Ha as [Hok Hl], Hd as [H1 H2 H3 (bl & rest & H4 & H5)]. simpl in *.
  assert (Hx : bo_inv (d <| hal_ := h1 |>)).
  { split; simpl; try done. destruct o as [va|].
    - destruct Hl as (_ & k & _ & Hl). exists bl, ((va, k) :: rest). split; [done|].
      rewrite Hl, H5. apply Permutation_middle.
    - destruct Hl as [_ Hl]. exists bl, rest. by rewrite Hl. }
  destruct o; exact Hx.
Qed.
End BoHandlers.

(** ** Sequences of ioctls *)
Section Calls.
  Context {H : Type} `{HAL : GpuHal H}.
  Implicit Types d : GpgpuDevice H.

Record ioctl_call := mk_ioctl_call {
  c_os : os_answers H; c_request : Z; c_arg : option ioctl_arg
}.
(** The results, and the device at the end; [None] once a call does not return. *)
Fixpoint ioctls (cs : list ioctl_call) (d : GpgpuDevice H) : option (list Z * GpgpuDevice H) :=
  match cs with
  | [] => Some ([], d)
  | c :: cs' =>
      match ioctl (c_os c) (c_request c) (c_arg c) d with
      | Returned r _ d' => '(rs, d'') ← ioctls cs' d'; Some (r :: rs, d'')
      | _ => None
      end
  end.

Lemma ioctls_cons c cs d :
  ioctls (c :: cs) d =
    match ioctl (c_os c) (c_request c) (c_arg c) d with
    | Returned r _ d' => match ioctls cs d' with Some (rs, d'') => Some (r :: rs, d'') | None => None end
    | _ => None
    end.
Proof. reflexivity. Qed.

(** The result and the argument of a call that returned. *)
Definition answer (r : ioctl_result H) : option (Z * option ioctl_arg) :=
  match r with Returned z b _ => Some (z, b) | _ => None end.
Lemma answer_inv r z b : answer r = Some (z, b) -> exists d, r = Returned z b d.
Proof. destruct r as [z' b' d| |]; intros [=]; subst. by exists d. Qed.

(** The sizes have the width of their fields. *)
Definition arg_ok (b : ioctl_arg) : Prop :=
  match b with
  | A_alloc_bo a => is_u64 (ab_size a)
  | A_load_kernel_module a => 0 <= lk_image_size a
  | _ => True
  end.
Definition call_ok `{!GpuHalLaws H} (c : ioctl_call) : Prop :=
  tick_ok (c_os c) /\ (forall b, c_arg c = Some b -> arg_ok b).

(** A handler of the table takes devices with [I] to devices with [J]. *)
Definition entry_keeps `{!GpuHalLaws H} (I J : GpgpuDevice H -> Prop) (e : IoctlEntry H) : Prop :=
  forall c d r b d', call_ok c -> I d ->
    handler_of e (c_os c) (c_arg c) d = Returned r b d' -> J d'.

Lemma buffer_keeps `{!GpuHalLaws H} {A} `{IoctlBuffer A} (I J : GpgpuDevice H -> Prop)
    req name (m : os_answers H -> dev_handler A Z) :
  (forall d, I d -> J d) ->
  (forall env a d, tick_ok env -> arg_ok (to_arg a) -> I d -> J (run_handler (m env) (d, a)).2.1) ->
  entry_keeps I J (mk_ioctl_entry req name (on_buffer m)).
Proof.
  intros HIJ Hm c d r b d' [Ht Ha] Hd. simpl. unfold on_buffer. destruct (c_arg c) as [x|] eqn:Ec.
  - destruct (of_arg x) as [a|] eqn:Eo; [|done]. apply of_arg_inv in Eo as ->.
    specialize (Hm (c_os c) a d Ht (Ha _ eq_refl) Hd). intros E.
    destruct (run_handler (m (c_os c)) (d, a)) as [r' [d1 a1]]. by simplify_eq/=.
  - intros [= _ _ <-]. by apply HIJ.
Qed.
Lemma preserves_keeps `{!GpuHalLaws H} {A} `{IoctlBuffer A} (I J : GpgpuDevice H -> Prop)
    req name (m : os_answers H -> dev_handler A Z) :
  (forall d, I d -> J d) ->
  (forall env, preserves (on_device I) (m env)) ->
  entry_keeps I J (mk_ioctl_entry req name (on_buffer m)).
Proof.
  intros HIJ Hm. apply buffer_keeps; [done|]. intros env a d _ _ Hd. apply HIJ.
  exact (preserves_run (on_device I) (m env) (d, a) (Hm env) Hd).
Qed.
Lemma wait_keeps `{!GpuHalLaws H} (I J : GpgpuDevice H -> Prop) req name :
  (forall d, I d -> J d) ->
  (forall env, tick_ok env -> preserves (on_device I) (handleWaitFence (H := H) env)) ->
  entry_keeps I J (mk_ioctl_entry req name (on_wait handleWaitFence)).
Proof.
  intros HIJ Hm c d r b d' [Ht Ha] Hd. simpl. unfold on_wait. destruct (c_arg c) as [x|] eqn:Ec.
  - destruct (of_arg x) as [a|] eqn:Eo; [|done].
    specialize (Hm (c_os c) Ht (d, a) Hd).
    destruct (handleWaitFence (c_os c) (d, a)) as [[r1|[r1|]] [d1 a1]]; intros; simplify_eq/=;
      by apply HIJ.
  - intros [= _ _ <-]. by apply HIJ.
Qed.

(** The dispatch, for an invariant of the whole table. *)
Lemma ioctl_keeps `{!GpuHalLaws H} (I J : GpgpuDevice H -> Prop) c d r b d' :
  (forall d, I d -> J d) -> Forall (entry_keeps I J) getIoctlTablePtr -> call_ok c -> I d ->
  ioctl (c_os c) (c_request c) (c_arg c) d = Returned r b d' -> J d'.
Proof.
  intros HIJ Ht Hc Hd. unfold ioctl. destruct (List.find _ _) as [e|] eqn:E.
  - apply List.find_some in E as [Hin _]. apply list_elem_of_In in Hin.
    rewrite Forall_forall in Ht. intros Hr. by eapply (Ht e Hin).
  - intros [= _ _ <-]. by apply HIJ.
Qed.
End Calls.
Arguments ioctl_call : clear implicits.
Arguments mk_ioctl_call {H}.

(** Unfold the handler at the head of a goal. *)
Ltac unfold_handler :=
  let rec head t := match t with ?f _ => head f | _ => t end in
  match goal with |- preserves _ ?m => let h := head m in unfold h end.

Section BoRuns.
  Context {H : Type} `{HAL : GpuHal H} `{LAWS : !GpuHalLaws H}.
  Implicit Types d : GpgpuDevice H.
Lemma table_bo : Forall (entry_keeps bo_inv bo_inv) (getIoctlTablePtr (H := H)).
Proof.
  unfold getIoctlTablePtr.
  repeat apply Forall_cons_2; try apply Forall_nil_2;
    first
      [ apply wait_keeps; [done|apply wait_bo]
      | apply (buffer_keeps _ _ _ _ handleAllocBo); [done|]; intros env a d _ Ha Hd; by apply alloc_bo_inv
      | apply (buffer_keeps _ _ _ _ handleFreeBo); [done|]; intros env a d _ _ Hd; by apply free_bo_inv
      | apply (buffer_keeps _ _ _ _ handleLoadKernelModule); [done|];
          intros env a d _ Ha Hd; by apply load_module_bo
      | apply preserves_keeps; [done|]; intros env;
          first [ apply pushbuffer_bo | apply create_queue_bo | apply destroy_queue_bo
                | apply map_ring_bo | apply graph_launch_bo | unfold_handler; bo_keeps ] ].
Qed.

Lemma ioctls_bo cs d rs d' :
  Forall call_ok cs -> bo_inv d -> ioctls cs d = Some (rs, d') -> bo_inv d'.
Proof.
  intros Hcs. revert d rs. induction Hcs as [|c cs Hc _ IH]; intros d rs Hd.
  { intros [= _ <-]. exact Hd. }
  rewrite ioctls_cons. destruct (ioctl _ _ _ d) as [r b d1| |] eqn:E; [|intros [=]..].
  destruct (ioctls cs d1) as [[rs' d2]|] eqn:E2; [|intros [=]]. intros [= _ <-].
  eapply IH; [|exact E2]. eapply ioctl_keeps; [done|apply table_bo|exact Hc|exact Hd|exact E].
Qed.
Lemma new_device_bo h kfd : hal_ok h -> bo_inv (new_device h kfd).
Proof.
  intros Hh. split; simpl; [done| |by intros i ?%not_elem_of_empty|].
  { intros i. split; [by intros ?%not_elem_of_empty|]. intros [x Hx]. by rewrite lookup_empty in Hx. }
  exists ∅, (hal_live h). split; [apply map_Forall2_empty|]. by rewrite map_to_list_empty.
Qed.

Lemma set_puller_bo p d : bo_inv d -> bo_inv (setPuller p d).
Proof. intros Hd. apply (bo_inv_ext d); [reflexivity..|exact Hd]. Qed.

(** C2. After any sequence of ioctls on a fresh device, over any lawful HAL and
    whatever other threads do in it beside allocating, a handle is valid exactly while it names a
    buffer object, and different buffer objects of at most [2^63] bytes each
    occupy disjoint ranges of device memory.  (The sizes asked for may be any;
    what a larger one does is [DeviceMachine.huge_buffer_overlaps].) *)
Theorem buffer_objects_disjoint h kfd cs rs d :
  hal_ok h -> Forall call_ok cs -> ioctls cs (new_device h kfd) = Some (rs, d) ->
  (forall i, handle_valid (allocated_bits_ d) i = true <-> is_Some (bo_map_ d !! i)) /\
  (forall i j b b', i <> j -> bo_map_ d !! i = Some b -> bo_map_ d !! j = Some b' ->
     bo_size b <= 2 ^ 63 -> bo_size b' <= 2 ^ 63 ->
     ranges_disjoint (bo_gpu_va b, bo_size b) (bo_gpu_va b', bo_size b')).
Proof.
  intros Hh Hcs Hr. assert (Hd : bo_inv d) by (eapply ioctls_bo; [exact Hcs|by apply new_device_bo|exact Hr]).
  split; [|intros i j b b' Hij Hb Hb' Hz Hz'; by eapply bo_inv_disjoint].
  intros i. rewrite <- (bi_bits _ Hd). unfold handle_valid. split.
  - intros Hv. apply andb_prop in Hv as [_ Hv]. by case_bool_decide.
  - intros Hi. pose proof (bi_range _ Hd i Hi). rewrite bool_decide_eq_true_2 by done.
    destruct (Z.eqb_spec i 0), (Z.leb_spec i max_handles_); simpl; lia || done.
Qed.

Lemma ioctl_free_bo env argp d :
  ioctl env GPU_IOCTL_FREE_BO argp d = on_buffer handleFreeBo env argp d.
Proof. reflexivity. Qed.
Lemma free_bo_valid env f d bo :
  handle_valid (allocated_bits_ d) (gem_handle f) = true -> bo_map_ d !! gem_handle f = Some bo ->
  ioctl env GPU_IOCTL_FREE_BO (Some (to_arg f)) d =
    Returned 0 (Some (to_arg f))
      (d <| hal_ := (hal_call (MemFree (bo_gpu_va bo)) (hal_ d)).2 |>
         <| bo_map_ ::= delete (gem_handle f) |>
         <| allocated_bits_ := allocated_bits_ d ∖ {[gem_handle f]} |>).
Proof.
  intros Hv Hb. rewrite ioctl_free_bo. unfold on_buffer, handleFreeBo. run_simpl.
  pose proof Hv as Hx. unfold handle_valid in Hx. destruct (Z.eqb_spec (gem_handle f) 0); [done|]. simpl.
  rewrite Hv. simpl. rewrite Hb. simpl. destruct (hal_call (MemFree (bo_gpu_va bo)) (hal_ d)) as [r h]. simpl.
  unfold field_upd, handle_release. simpl. by rewrite Hv.
Qed.
Lemma free_bo_invalid env f d :
  handle_valid (allocated_bits_ d) (gem_handle f) = false ->
  ioctl env GPU_IOCTL_FREE_BO (Some (to_arg f)) d = Returned (- EINVAL) (Some (to_arg f)) d.
Proof.
  intros Hv. rewrite ioctl_free_bo. unfold on_buffer, handleFreeBo. run_simpl.
  destruct (gem_handle f =? 0); [done|]. simpl. by rewrite Hv.
Qed.
(** What a successful ALLOC_BO did. *)
Lemma alloc_bo_spec env a d b d1 :
  bo_inv d -> is_u64 (ab_size a) ->
  ioctl env GPU_IOCTL_ALLOC_BO (Some (to_arg a)) d = Returned 0 b d1 ->
  exists i va k p, b = Some (to_arg (a <| ab_handle := i |> <| ab_gpu_va := va |>)) /\
    1 <= i <= max_handles_ /\ i ∉ allocated_bits_ d /\
    allocated_bits_ d1 = {[i]} ∪ allocated_bits_ d /\
    bo_map_ d1 = <[i := mk_bo va (ab_size a) (ab_domain a) (ab_flags a) p]> (bo_map_ d) /\
    hal_ok (hal_ d1) /\ covers (ab_size a) k /\ hal_live (hal_ d1) ≡ₚ (va, k) :: hal_live (hal_ d).
Proof.
  intros Hd Hs.
  change (ioctl env GPU_IOCTL_ALLOC_BO (Some (to_arg a)) d)
    with (on_buffer handleAllocBo env (Some (A_alloc_bo a)) d).
  unfold on_buffer, handleAllocBo. run_simpl. destruct (negb (ab_domain a =? 0)); [|intros [=]]. simpl.
  pose proof (hal_alloc_law (ab_size a) (hal_ d) (bi_hal _ Hd) Hs) as Ha.
  destruct (hal_call (MemAlloc (ab_size a)) (hal_ d)) as [[r o] h1]. destruct Ha as [Hok Hl].
  destruct o as [va|]; simpl.
  2:{ destruct Hl as [Hr _]. destruct (Z.eqb_spec r 0); [done|]. intros [=]. }
  destruct Hl as [-> (k & Hk & Hl)].
  destruct ((0 =? 0) && negb (va =? 0)); simpl; [|intros [=]].
  destruct (handle_allocate (allocated_bits_ d)) as [i bits] eqn:Ei.
  apply handle_allocate_spec in Ei as [[-> ->]|(Hi & Hfree & ->)]; simpl.
  { destruct (hal_call (MemFree va) h1) as [r h2]. intros [=]. }
  destruct (Z.eqb_spec i 0); [lia|]. simpl.
  pose proof (hal_frame_law _ (HeapPtr va) h1 eq_refl Hok) as [Hok2 Hl2].
  destruct (hal_call (HeapPtr va) h1) as [q h2]. simpl in *. intros [= <- <-].
  exists i, va, k, q. split; [done|]. split; [done|]. split; [done|]. split; [done|].
  split; [done|]. split; [done|]. split; [done|]. simpl. by rewrite Hl2.
Qed.

(** C25. A buffer object that was allocated can be freed: FREE_BO of the handle
    ALLOC_BO returned succeeds, the tables and the allocated memory are what
    they were before, and freeing it again is refused without effect. *)
Theorem alloc_free_roundtrip env a d b d1 :
  bo_inv d -> is_u64 (ab_size a) ->
  ioctl env GPU_IOCTL_ALLOC_BO (Some (to_arg a)) d = Returned 0 b d1 ->
  exists a' d2, b = Some (to_arg a') /\ ab_handle a' ∉ allocated_bits_ d /\
    let free := mk_gem_handle (ab_handle a') in
    ioctl env GPU_IOCTL_FREE_BO (Some (to_arg free)) d1 = Returned 0 (Some (to_arg free)) d2 /\
    bo_map_ d2 = bo_map_ d /\ allocated_bits_ d2 = allocated_bits_ d /\
    hal_live (hal_ d2) ≡ₚ hal_live (hal_ d) /\
    ioctl env GPU_IOCTL_FREE_BO (Some (to_arg free)) d2 = Returned (- EINVAL) (Some (to_arg free)) d2.
Proof.
  intros Hd Hs Hr. destruct (alloc_bo_spec env a d b d1 Hd Hs Hr) as (i & va & k & p & Eb & Hi & Hfree & Hb & Hm & Hok & Hk & Hl).
  assert (Hnone : bo_map_ d !! i = None) by (apply eq_None_not_Some; by rewrite <- (bi_bits _ Hd)).
  assert (Hval : handle_valid (allocated_bits_ d1) i = true).
  { unfold handle_valid. rewrite Hb, bool_decide_eq_true_2 by (by apply elem_of_union_l, elem_of_singleton).
    destruct (Z.eqb_spec i 0), (Z.leb_spec i max_handles_); lia || done. }
  assert (Hinv : handle_valid (allocated_bits_ d) i = false).
  { unfold handle_valid. rewrite (bool_decide_eq_false_2 (i ∈ _)) by done. apply andb_false_r. }
  pose proof (hal_free_law va k (hal_live (hal_ d)) (hal_ d1) Hok Hl) as Hf.
  exists (a <| ab_handle := i |> <| ab_gpu_va := va |>).
  eexists. split; [exact Eb|]. split; [exact Hfree|]. split.
  { eapply (free_bo_valid env (mk_gem_handle i)); simpl; [exact Hval|]. by rewrite Hm, lookup_insert_eq. }
  destruct (hal_call (MemFree va) (hal_ d1)) as [r h2] eqn:Ef. destruct Hf as (-> & Hok2 & Hl2).
  assert (Hdiff : ({[i]} ∪ allocated_bits_ d) ∖ {[i]} = allocated_bits_ d).
  { apply set_eq. intros x. rewrite elem_of_difference, elem_of_union, !elem_of_singleton. clear -Hfree. naive_solver. }
  unfold field_upd. simpl. rewrite Hm, Hb, Hdiff, Ef. split; [by rewrite delete_insert_id|].
  split; [done|]. split; [exact Hl2|]. apply free_bo_invalid. exact Hinv.
Qed.
End BoRuns.
