(* ===== verification/DeviceQueues.v ===== *)
(** * Queues, VA spaces, fences and dispatch of the device

    The invariant of the queue and VA-space tables, what DESTROY_VA_SPACE,
    WAIT_FENCE and PUSHBUFFER_SUBMIT_BATCH answer, the doorbell offsets
    CREATE_QUEUE hands out, and the dispatch table. *)
From S2P Require Import Prelude GpuTypes HalUser KfdBridge HalCalls Ioctl FenceId Device DeviceProps.

Lemma erase_first_sub x y l : x ∈ erase_first y l -> x ∈ l.
Proof.
  induction l as [|z l IH]; simpl; [done|]. destruct (z =? y); [by right|].
  intros [->|Hx]%elem_of_cons; [left|right; auto].
Qed.
Lemma erase_first_NoDup y l :
  NoDup l -> NoDup (erase_first y l) /\ forall x, x ∈ erase_first y l <-> x ∈ l /\ x <> y.
Proof.
  induction 1 as [|z l Hz Hl [IH1 IH2]]; simpl; [split; [constructor|set_solver]|].
  destruct (Z.eqb_spec z y) as [->|Hne].
  - split; [done|]. intros x. rewrite elem_of_cons. naive_solver.
  - split; [constructor; [|done]; by rewrite IH2; intros [? _]|].
    intros x. rewrite !elem_of_cons, IH2. naive_solver.
Qed.

Section QueueInvariant.
  Context {H : Type}.
  Implicit Types d : GpgpuDevice H.

(** Where a queue is attached. *)
Definition attached_in d (v q : Z) : Prop :=
  exists s, va_spaces_ d !! v = Some s /\ q ∈ attached_queues s.
(** At most [n] handles of each kind have been given out. *)
Record queue_inv (n : Z) d : Prop := {
  qi_next : 1 <= next_queue_handle_ d <= n + 1;
  qi_va_next : 1 <= next_va_space_handle_ d <= n + 1;
  qi_infos : forall q, is_Some (queues_ d !! q) <-> is_Some (queue_infos_ d !! q);
  qi_bound : forall q, is_Some (queues_ d !! q) -> 1 <= q < next_queue_handle_ d;
  qi_va_bound : forall v, is_Some (va_spaces_ d !! v) -> 1 <= v < next_va_space_handle_ d;
  qi_nodup : forall v s, va_spaces_ d !! v = Some s -> NoDup (attached_queues s);
  qi_attached : forall q, is_Some (queues_ d !! q) <-> exists v, attached_in d v q;
  qi_once : forall q v v', attached_in d v q -> attached_in d v' q -> v = v'
}.

Lemma queue_inv_mono n n' d : n <= n' -> queue_inv n d -> queue_inv n' d.
Proof. intros Hn [[]]. split; try done; lia. Qed.
(** An update that leaves the queue and VA-space tables alone. *)
Lemma queue_inv_ext n d d' :
  queues_ d' = queues_ d -> queue_infos_ d' = queue_infos_ d -> va_spaces_ d' = va_spaces_ d ->
  next_queue_handle_ d' = next_queue_handle_ d ->
  next_va_space_handle_ d' = next_va_space_handle_ d -> queue_inv n d -> queue_inv n d'.
Proof.
  intros E1 E2 E3 E4 E5 []. split; unfold attached_in in *; by rewrite ?E1, ?E2, ?E3, ?E4, ?E5.
Qed.
Lemma new_device_queues h kfd : queue_inv 0 (new_device (H := H) h kfd).
Proof.
  assert (Hno : forall A i, ~ is_Some ((∅ : gmap Z A) !! i)) by (intros A i [x Hx]; by rewrite lookup_empty in Hx).
  split; unfold attached_in; simpl; try lia.
  - intros q. split; intros Hx; by apply Hno in Hx.
  - intros q Hx. by apply Hno in Hx.
  - intros q Hx. by apply Hno in Hx.
  - intros v s Hx. by rewrite lookup_empty in Hx.
  - intros q. split; [intros Hx; by apply Hno in Hx|]. intros (v & s & Hx & _). by rewrite lookup_empty in Hx.
  - intros q v v' (s & Hx & _). by rewrite lookup_empty in Hx.
Qed.

(** A handle is taken and nothing else happens. *)
Lemma queue_inv_skip n d d' :
  n + 2 < 2 ^ 64 -> queue_inv n d ->
  queues_ d' = queues_ d -> queue_infos_ d' = queue_infos_ d -> va_spaces_ d' = va_spaces_ d ->
  next_queue_handle_ d' = u64 (next_queue_handle_ d + 1) ->
  next_va_space_handle_ d' = next_va_space_handle_ d -> queue_inv (n + 1) d'.
Proof.
  intros Hn [Hq Hv] E1 E2 E3 E4 E5. rewrite u64_id in E4 by lia.
  split; unfold attached_in in *; rewrite ?E1, ?E2, ?E3, ?E4, ?E5; try done; try lia.
  intros q Hx. specialize (qi_bound0 q Hx). lia.
Qed.

(** A new queue, attached to an existing VA space. *)
Lemma queue_inv_create n d v s q i :
  n + 2 < 2 ^ 64 -> queue_inv n d -> va_spaces_ d !! v = Some s ->
  forall d', queues_ d' = <[next_queue_handle_ d := q]> (queues_ d) ->
    queue_infos_ d' = <[next_queue_handle_ d := i]> (queue_infos_ d) ->
    va_spaces_ d' = <[v := s <| attached_queues ::= fun l => l ++ [next_queue_handle_ d] |>]> (va_spaces_ d) ->
    next_queue_handle_ d' = u64 (next_queue_handle_ d + 1) ->
    next_va_space_handle_ d' = next_va_space_handle_ d -> queue_inv (n + 1) d'.
Proof.
  intros Hn Hd Es d' E1 E2 E3 E4 E5. pose proof (qi_next _ _ Hd) as Hq. rewrite u64_id in E4 by lia.
  assert (Hfresh : forall w, ~ attached_in d w (next_queue_handle_ d)).
  { intros w Hw. assert (Hx : is_Some (queues_ d !! next_queue_handle_ d)) by (apply (qi_attached _ _ Hd); eauto).
    apply (qi_bound _ _ Hd) in Hx. lia. }
  assert (Hatt : forall w x, attached_in d' w x <-> attached_in d w x \/ w = v /\ x = next_queue_handle_ d).
  { intros w x. unfold attached_in. rewrite E3. destruct (decide (v = w)) as [<-|Hne].
    - rewrite lookup_insert_eq, Es. split.
      + intros (s' & [= <-] & Hin). simpl in Hin. apply elem_of_app in Hin as [Hin|Hin%list_elem_of_singleton]; [eauto|subst; auto].
      + intros [(s' & [= <-] & Hin)|[_ ->]]; eexists; (split; [done|]); simpl; apply elem_of_app;
          [by left|right; by apply list_elem_of_singleton].
    - rewrite lookup_insert_ne by done. naive_solver. }
  destruct Hd as [_ Hv Hi Hb Hvb Hnd Ha Ho]. split; rewrite ?E4, ?E5; try lia.
  - intros x. rewrite E1, E2, !lookup_insert_is_Some, Hi. done.
  - intros x. rewrite E1, lookup_insert_is_Some. intros [<-|[_ Hx]]; [lia|]. specialize (Hb x Hx). lia.
  - intros w. rewrite E3, lookup_insert_is_Some. intros [<-|[_ Hx]]; apply Hvb; eauto.
  - intros w s'. rewrite E3. intros [[<- <-]|[_ Hx]]%lookup_insert_Some; [|by eapply Hnd].
    simpl. apply NoDup_app. split; [by eapply Hnd|]. split; [|apply NoDup_singleton].
    intros x Hx Hx2%list_elem_of_singleton. subst x. apply (Hfresh v). by exists s.
  - intros x. rewrite E1, lookup_insert_is_Some. setoid_rewrite Hatt. rewrite Ha.
    destruct (decide (next_queue_handle_ d = x)) as [<-|Hne]; naive_solver.
  - intros x w w' [H1|[-> ->]]%Hatt [H2|[-> H2]]%Hatt; [by eapply Ho| | |done].
    + subst x. by apply Hfresh in H1.
    + by apply Hfresh in H2.
Qed.

(** A queue is taken out of its VA space and of the tables. *)
Lemma queue_inv_destroy n d q :
  queue_inv n d ->
  forall d', queues_ d' = delete q (queues_ d) -> queue_infos_ d' = delete q (queue_infos_ d) ->
    va_spaces_ d' = (fun s => s <| attached_queues ::= erase_first q |>) <$> va_spaces_ d ->
    next_queue_handle_ d' = next_queue_handle_ d ->
    next_va_space_handle_ d' = next_va_space_handle_ d -> queue_inv n d'.
Proof.
  intros [Hq Hv Hi Hb Hvb Hnd Ha Ho] d' E1 E2 E3 E4 E5.
  assert (Hatt : forall w x, attached_in d' w x <-> attached_in d w x /\ x <> q).
  { intros w x. unfold attached_in. rewrite E3, lookup_fmap. destruct (va_spaces_ d !! w) as [s|] eqn:Es; [|naive_solver].
    destruct (erase_first_NoDup q (attached_queues s) (Hnd _ _ Es)) as [_ Hx]. simpl. split.
    - intros (s' & [= <-] & Hin). simpl in Hin. apply Hx in Hin as [Hin Hne]. split; [|done]. by exists s.
    - intros [(s' & [= <-] & Hin) Hne]. eexists. split; [done|]. simpl. by apply Hx. }
  split; rewrite ?E4, ?E5; try done.
  - intros x. rewrite E1, E2, !lookup_delete_is_Some, Hi. done.
  - intros x. rewrite E1, lookup_delete_is_Some. intros [_ Hx]. by apply Hb.
  - intros w. rewrite E3, lookup_fmap, fmap_is_Some. apply Hvb.
  - intros w s'. rewrite E3, lookup_fmap_Some. intros (s & <- & Hs). simpl.
    by apply (erase_first_NoDup q), (Hnd w).
  - intros x. rewrite E1, lookup_delete_is_Some. setoid_rewrite Hatt. rewrite Ha. naive_solver.
  - intros x w w' [H1 _]%Hatt [H2 _]%Hatt. by eapply Ho.
Qed.

Lemma queue_inv_create_va n d v s :
  n + 2 < 2 ^ 64 -> queue_inv n d -> attached_queues s = [] -> v = next_va_space_handle_ d ->
  forall d', queues_ d' = queues_ d -> queue_infos_ d' = queue_infos_ d ->
    va_spaces_ d' = <[v := s]> (va_spaces_ d) -> next_queue_handle_ d' = next_queue_handle_ d ->
    next_va_space_handle_ d' = u64 (v + 1) -> queue_inv (n + 1) d'.
Proof.
  intros Hn [Hq Hv Hi Hb Hvb Hnd Ha Ho] Hs -> d' E1 E2 E3 E4 E5. rewrite u64_id in E5 by lia.
  assert (Hatt : forall w x, attached_in d' w x <-> attached_in d w x).
  { intros w x. unfold attached_in. rewrite E3. destruct (decide (next_va_space_handle_ d = w)) as [<-|Hne].
    - rewrite lookup_insert_eq. split.
      + intros (s' & [= <-] & Hin). by rewrite Hs in Hin; apply elem_of_nil in Hin.
      + intros (s' & Hs' & _). assert (Hx := Hvb _ (mk_is_Some _ _ Hs')). lia.
    - by rewrite lookup_insert_ne. }
  split; rewrite ?E1, ?E2, ?E4, ?E5; try done; try lia.
  - intros w. rewrite E3, lookup_insert_is_Some. intros [<-|[_ Hx]]; [lia|]. specialize (Hvb w Hx). lia.
  - intros w s'. rewrite E3. intros [[<- <-]|[_ Hx]]%lookup_insert_Some; [rewrite Hs; constructor|by eapply Hnd].
  - intros x. rewrite Ha. by setoid_rewrite Hatt.
  - intros x w w'. rewrite !Hatt. by apply Ho.
Qed.

Lemma queue_inv_destroy_va n d v s :
  queue_inv n d -> va_spaces_ d !! v = Some s -> attached_queues s = [] ->
  forall d', queues_ d' = queues_ d -> queue_infos_ d' = queue_infos_ d ->
    va_spaces_ d' = delete v (va_spaces_ d) -> next_queue_handle_ d' = next_queue_handle_ d ->
    next_va_space_handle_ d' = next_va_space_handle_ d -> queue_inv n d'.
Proof.
  intros [Hq Hv Hi Hb Hvb Hnd Ha Ho] Es Hs d' E1 E2 E3 E4 E5.
  assert (Hatt : forall w x, attached_in d' w x <-> attached_in d w x).
  { intros w x. unfold attached_in. rewrite E3. destruct (decide (v = w)) as [<-|Hne].
    - rewrite lookup_delete_eq, Es. split; intros (s' & [=] & Hin). subst s'.
      by rewrite Hs in Hin; apply elem_of_nil in Hin.
    - by rewrite lookup_delete_ne. }
  split; rewrite ?E1, ?E2, ?E4, ?E5; try done.
  - intros w. rewrite E3, lookup_delete_is_Some. intros [_ Hx]. by apply Hvb.
  - intros w s'. rewrite E3. intros [_ Hx]%lookup_delete_Some. by eapply Hnd.
  - intros x. rewrite Ha. by setoid_rewrite Hatt.
  - intros x w w'. rewrite !Hatt. by apply Ho.
Qed.
End QueueInvariant.

(** ** Every handler keeps the tables consistent *)
Ltac queue_frame :=
  let d := fresh "d" in let Hd := fresh "Hd" in
  intros d Hd;
  first
    [ apply (queue_inv_ext _ d); [reflexivity..|exact Hd]
    | repeat case_match; simplify_eq/=;
      first [exact Hd | apply (queue_inv_ext _ d); [reflexivity..|exact Hd]] ].
Ltac queue_keeps := unfold on_kfd; keeps_steps; queue_frame.

Section QueueHandlers.
  Context {H : Type} `{HAL : GpuHal H}.
  Implicit Types d : GpgpuDevice H.

Lemma encode_checks_queues {A} n es :
  preserves (on_device (queue_inv n)) (encode_checks (H := H) (A := A) es).
Proof. induction es as [|e es IH]; simpl; [apply preserves_ret|]. unfold encode_check. queue_keeps. Qed.
Lemma sync_entries_queues n es : preserves (on_device (queue_inv n)) (sync_entries (H := H) es).
Proof. induction es as [|e es IH]; simpl; [apply preserves_ret|]. queue_keeps. Qed.
#[local] Hint Resolve encode_checks_queues sync_entries_queues : handler.
Lemma pushbuffer_queues n env :
  preserves (on_device (queue_inv n)) (handlePushbufferSubmitBatch (H := H) env).
Proof. unfold handlePushbufferSubmitBatch. queue_keeps. Qed.
Lemma graph_launch_queues n env : preserves (on_device (queue_inv n)) (handleGraphLaunch (H := H) env).
Proof. unfold handleGraphLaunch. queue_keeps. Qed.
Lemma wait_queues n env : preserves (on_device (queue_inv n)) (handleWaitFence (H := H) env).
Proof.
  unfold handleWaitFence. keeps_steps. intros d Hd.
  destruct (wait_loop _ _ _ _ _ _) as [r h']. apply (queue_inv_ext _ d); [reflexivity..|exact Hd].
Qed.

Lemma create_queue_inv n env a d :
  n + 2 < 2 ^ 64 -> queue_inv n d -> queue_inv (n + 1) (run_handler (handleCreateQueue env) (d, a)).2.1.
Proof.
  intros Hn Hd. pose proof (queue_inv_mono n (n + 1) d ltac:(lia) Hd) as Hd1.
  unfold handleCreateQueue. run_simpl. destruct (qa_queue_type a <=? _); [|done]. simpl.
  unfold vaSpaceExists. destruct (va_spaces_ d !! qa_va_space_handle a) as [s|] eqn:Es; [|done]. simpl.
  pose proof (qi_next _ _ Hd) as Hq. destruct (Z.eqb_spec (next_queue_handle_ d) 0); [lia|]. simpl.
  destruct (hal_call _ (hal_ d)) as [[r o] h1]. simpl.
  destruct ((r =? 0) && _); simpl.
  - unfold attachQueueToVASpace. simpl. rewrite Es. simpl. destruct (puller_ d =? 0); simpl.
    + eapply (queue_inv_create n d _ s _ _ Hn Hd Es); reflexivity.
    + destruct (hal_call _ h1) as [r2 h2]. simpl.
      eapply (queue_inv_create n d _ s _ _ Hn Hd Es); reflexivity.
  - apply (queue_inv_skip n d); [done|exact Hd|reflexivity..].
Qed.
Lemma destroy_queue_inv n env a d :
  queue_inv n d -> queue_inv n (run_handler (handleDestroyQueue env) (d, a)).2.1.
Proof.
  intros Hd. unfold handleDestroyQueue. run_simpl.
  destruct (queues_ d !! handle64 a) as [q|]; [|exact Hd]. simpl.
  destruct (puller_ d =? 0); simpl.
  - destruct (hal_call _ _) as [r h1]. simpl. apply (queue_inv_destroy n d (handle64 a) Hd); reflexivity.
  - destruct (hal_call _ _) as [r h1]. simpl. destruct (hal_call _ h1) as [r2 h2]. simpl.
    apply (queue_inv_destroy n d (handle64 a) Hd); reflexivity.
Qed.
Lemma queue_inv_info n d q i :
  queue_inv n d -> is_Some (queue_infos_ d !! q) ->
  queue_inv n (d <| queue_infos_ ::= <[q := i]> |>).
Proof.
  intros [Hq Hv Hi Hb Hvb Hnd Ha Ho] Hx. split; simpl; try done.
  intros x. rewrite lookup_insert_is_Some, <- Hi. destruct (decide (q = x)) as [<-|Hne]; [|naive_solver].
  rewrite Hi. naive_solver.
Qed.
Lemma map_ring_inv n env a d :
  queue_inv n d -> queue_inv n (run_handler (handleMapQueueRing env) (d, a)).2.1.
Proof.
  intros Hd. unfold handleMapQueueRing. run_simpl.
  destruct (queues_ d !! mr_queue_handle a) as [q|]; [|exact Hd]. simpl.
  destruct (queue_infos_ d !! mr_queue_handle a) as [i|] eqn:Ei; [|exact Hd]. simpl.
  assert (Hi : is_Some (queue_infos_ d !! mr_queue_handle a)) by eauto.
  destruct (shared_mem i =? 0); simpl.
  - destruct (os_memalign env) as [p|]; [|exact Hd]. simpl.
    destruct (hal_call _ _) as [r h1]. simpl.
    pose proof (queue_inv_info n d (mr_queue_handle a) (i <| shared_mem := p |>) Hd Hi) as Hd2.
    destruct (r =? 0); simpl.
    + apply queue_inv_info; [eapply queue_inv_ext; [..|exact Hd2]; reflexivity|].
      simpl. rewrite lookup_insert_eq. eauto.
    + eapply queue_inv_ext; [..|exact Hd2]; reflexivity.
  - destruct (hal_call _ _) as [r h1]. simpl. destruct (r =? 0); simpl.
    + apply queue_inv_info; [eapply queue_inv_ext; [..|exact Hd]; reflexivity|done].
    + eapply queue_inv_ext; [..|exact Hd]; reflexivity.
Qed.
Lemma create_va_inv n env a d :
  n + 2 < 2 ^ 64 -> queue_inv n d -> queue_inv (n + 1) (run_handler (handleCreateVASpace env) (d, a)).2.1.
Proof.
  intros Hn Hd. pose proof (queue_inv_mono n (n + 1) d ltac:(lia) Hd) as Hd1.
  unfold handleCreateVASpace, createVASpace. run_simpl. destruct (negb (1 <? va_page_size a)); [|done]. simpl.
  pose proof (qi_va_next _ _ Hd) as Hq. destruct (Z.eqb_spec (next_va_space_handle_ d) 0); [lia|]. simpl.
  eapply (queue_inv_create_va n d _ _ Hn Hd); [|reflexivity..]. done.
Qed.
Lemma destroy_va_inv n env a d :
  queue_inv n d -> queue_inv n (run_handler (handleDestroyVASpace env) (d, a)).2.1.
Proof.
  intros Hd. unfold handleDestroyVASpace, destroyVASpace. run_simpl.
  destruct (va_spaces_ d !! handle64 a) as [s|] eqn:Es; [|exact Hd]. simpl.
  destruct (attached_queues s) eqn:Ea; [|exact Hd]. simpl.
  eapply (queue_inv_destroy_va n d _ s Hd Es Ea); reflexivity.
Qed.

Lemma table_queues `{!GpuHalLaws H} n :
  n + 2 < 2 ^ 64 ->
  Forall (entry_keeps (queue_inv n) (queue_inv (n + 1))) (getIoctlTablePtr (H := H)).
Proof.
  intros Hn. assert (Hmono : forall d, queue_inv n d -> queue_inv (n + 1) d).
  { intros d. apply queue_inv_mono. lia. }
  unfold getIoctlTablePtr.
  repeat apply Forall_cons_2; try apply Forall_nil_2;
    first
      [ apply wait_keeps; [done|]; intros env _; apply wait_queues
      | apply (buffer_keeps _ _ _ _ handleCreateQueue); [done|]; intros env a d _ _ Hd; by apply create_queue_inv
      | apply (buffer_keeps _ _ _ _ handleCreateVASpace); [done|]; intros env a d _ _ Hd; by apply create_va_inv
      | apply (buffer_keeps _ _ _ _ handleDestroyQueue); [done|];
          intros env a d _ _ Hd; by apply Hmono, destroy_queue_inv
      | apply (buffer_keeps _ _ _ _ handleMapQueueRing); [done|];
          intros env a d _ _ Hd; by apply Hmono, map_ring_inv
      | apply (buffer_keeps _ _ _ _ handleDestroyVASpace); [done|];
          intros env a d _ _ Hd; by apply Hmono, destroy_va_inv
      | apply preserves_keeps; [done|]; intros env;
          first [ apply pushbuffer_queues | apply graph_launch_queues | unfold_handler; queue_keeps ] ].
Qed.
End QueueHandlers.

(** ** What the ioctls answer *)
Section Answers.
  Context {H : Type} `{HAL : GpuHal H}.
  Implicit Types d : GpgpuDevice H.

Lemma ioctls_queues `{!GpuHalLaws H} n cs d rs d' :
  n + Z.of_nat (length cs) + 1 < 2 ^ 64 -> Forall call_ok cs -> queue_inv n d ->
  ioctls cs d = Some (rs, d') -> queue_inv (n + Z.of_nat (length cs)) d'.
Proof.
  intros Hn Hcs. revert n d rs Hn. induction Hcs as [|c cs Hc Hcs IH]; intros n d rs Hn Hd.
  { intros [= _ <-]. simpl. by rewrite Z.add_0_r. }
  rewrite ioctls_cons. rewrite length_cons in *. destruct (ioctl _ _ _ d) as [r b d1| |] eqn:E; [|intros [=]..].
  destruct (ioctls cs d1) as [[rs' d2]|] eqn:E2; [|intros [=]]. intros [= _ <-].
  replace (n + Z.of_nat (S (length cs))) with (n + 1 + Z.of_nat (length cs)) by lia.
  apply (IH (n + 1) d1 rs'); [lia| |exact E2].
  eapply (ioctl_keeps (queue_inv n)); [|by apply table_queues; lia|exact Hc|exact Hd|exact E].
  intros x. apply queue_inv_mono. lia.
Qed.

(** The request codes of the dispatch table, in its order. *)
Definition table_codes : list Z := request <$> @getIoctlTablePtr H _.
(** The dispatch table has one entry for each request code. *)
Lemma table_requests : NoDup table_codes.
Proof. apply (bool_decide_unpack _). by vm_compute. Qed.
Lemma find_entry (l : list (IoctlEntry H)) e :
  NoDup (request <$> l) -> e ∈ l -> List.find (fun x => request x =? request e) l = Some e.
Proof.
  induction l as [|x l IH]; [by intros _ ?%elem_of_nil|]. rewrite fmap_cons, NoDup_cons. intros [Hx Hl] He.
  simpl. destruct (Z.eqb_spec (request x) (request e)) as [E|E].
  - apply elem_of_cons in He as [->|He]; [done|]. destruct Hx. rewrite E. by apply list_elem_of_fmap_2.
  - apply elem_of_cons in He as [->|He]; [done|]. by apply IH.
Qed.

(** The size of the structure a caller passes. *)
Definition arg_size (b : ioctl_arg) : Z :=
  match b with
  | A_pushbuffer _ => sizeof_gpu_pushbuffer_args
  | A_mmu_event_cb _ => sizeof_gpu_mmu_event_cb_args
  | A_firmware_cb _ => sizeof_gpu_firmware_cb_args
  | A_alloc_bo _ => sizeof_gpu_alloc_bo_args
  | A_map_bo _ => sizeof_gpu_map_bo_args
  | A_wait_fence _ => sizeof_gpu_wait_fence_args
  | A_va_space _ => sizeof_gpu_va_space_args
  | A_register_gpu _ => sizeof_gpu_register_gpu_args
  | A_queue _ => sizeof_gpu_queue_args
  | A_queue_map_ring _ => sizeof_gpu_queue_map_ring_args
  | A_queue_info _ => sizeof_gpu_queue_info_args
  | A_device_info _ => sizeof_gpu_device_info
  | A_get_process_aperture _ => sizeof_gpu_get_process_aperture_args
  | A_update_queue _ => sizeof_gpu_update_queue_args
  | A_map_memory _ => sizeof_gpu_map_memory_args
  | A_unmap_memory _ => sizeof_gpu_unmap_memory_args
  | A_stream_capture _ => sizeof_gpu_stream_capture_args
  | A_stream_capture_status _ => sizeof_gpu_stream_capture_status_args
  | A_graph_create _ => sizeof_gpu_graph_create_args
  | A_graph_destroy _ => sizeof_gpu_graph_destroy_args
  | A_graph_add_kernel_node _ => sizeof_gpu_graph_add_kernel_node_args
  | A_graph_add_memcpy_node _ => sizeof_gpu_graph_add_memcpy_node_args
  | A_graph_instantiate _ => sizeof_gpu_graph_instantiate_args
  | A_graph_launch _ => sizeof_gpu_graph_launch_args
  | A_graph_destroy_exec _ => sizeof_gpu_graph_destroy_exec_args
  | A_mem_pool_create _ => sizeof_gpu_mem_pool_create_args
  | A_mem_pool_destroy _ => sizeof_gpu_mem_pool_destroy_args
  | A_mem_pool_alloc _ => sizeof_gpu_mem_pool_alloc_args
  | A_mem_pool_alloc_async _ => sizeof_gpu_mem_pool_alloc_async_args
  | A_mem_pool_free_async _ => sizeof_gpu_mem_pool_free_async_args
  | A_mem_pool_attr _ => sizeof_gpu_mem_pool_attr_args
  | A_mem_pool_trim _ => sizeof_gpu_mem_pool_trim_args
  | A_mem_pool_export _ => sizeof_gpu_mem_pool_export_args
  | A_load_kernel_module _ => sizeof_gpu_load_kernel_module_args
  | A_launch_kernel_module _ => sizeof_gpu_launch_kernel_module_args
  | A_unload_kernel_module _ => sizeof_gpu_unload_kernel_module_args
  | A_gem_handle _ => sizeof_u32
  | A_handle64 _ => sizeof_u64
  end.
(** The interface as a switch on the number of the command, bits 0 to 7 of the
    request: the direction the header gives it, the structure it carries and the
    handler that must serve it. *)
Definition command (nr : Z) :
    option (Z * Z * (os_answers H -> option ioctl_arg -> GpgpuDevice H -> ioctl_result H)) :=
  match nr with
  | 1 => Some (1, sizeof_gpu_pushbuffer_args, on_buffer handlePushbufferSubmitBatch)
  | 2 => Some (1, sizeof_gpu_mmu_event_cb_args, on_buffer handleRegisterMMUCB)
  | 3 => Some (1, sizeof_gpu_firmware_cb_args, on_buffer handleRegisterFirmwareCB)
  | 16 => Some (3, sizeof_gpu_alloc_bo_args, on_buffer handleAllocBo)
  | 17 => Some (1, sizeof_u32, on_buffer handleFreeBo)
  | 18 => Some (3, sizeof_gpu_map_bo_args, on_buffer handleMapBo)
  | 19 => Some (1, sizeof_gpu_wait_fence_args, on_wait handleWaitFence)
  | 32 => Some (2, sizeof_gpu_device_info, on_buffer handleGetDeviceInfo)
  | 39 => Some (3, sizeof_gpu_load_kernel_module_args, on_buffer handleLoadKernelModule)
  | 40 => Some (3, sizeof_gpu_launch_kernel_module_args, on_buffer handleLaunchKernelModule)
  | 41 => Some (3, sizeof_gpu_unload_kernel_module_args, on_buffer handleUnloadKernelModule)
  | 48 => Some (3, sizeof_gpu_va_space_args, on_buffer handleCreateVASpace)
  | 49 => Some (1, sizeof_u64, on_buffer handleDestroyVASpace)
  | 50 => Some (1, sizeof_gpu_register_gpu_args, on_buffer handleRegisterGPU)
  | 64 => Some (3, sizeof_gpu_queue_args, on_buffer handleCreateQueue)
  | 65 => Some (1, sizeof_u64, on_buffer handleDestroyQueue)
  | 66 => Some (3, sizeof_gpu_queue_map_ring_args, on_buffer handleMapQueueRing)
  | 67 => Some (3, sizeof_gpu_queue_info_args, on_buffer handleQueryQueue)
  | 68 => Some (3, sizeof_gpu_get_process_aperture_args, on_buffer handleGetProcessAperture)
  | 69 => Some (3, sizeof_gpu_update_queue_args, on_buffer handleUpdateQueue)
  | 70 => Some (3, sizeof_gpu_map_memory_args, on_buffer handleMapMemory)
  | 71 => Some (3, sizeof_gpu_unmap_memory_args, on_buffer handleUnmapMemory)
  | 80 => Some (1, sizeof_gpu_stream_capture_args, on_buffer handleStreamCaptureBegin)
  | 81 => Some (3, sizeof_gpu_stream_capture_args, on_buffer handleStreamCaptureEnd)
  | 82 => Some (3, sizeof_gpu_stream_capture_status_args, on_buffer handleStreamCaptureStatus)
  | 83 => Some (3, sizeof_gpu_graph_create_args, on_buffer handleGraphCreate)
  | 84 => Some (1, sizeof_gpu_graph_destroy_args, on_buffer handleGraphDestroy)
  | 85 => Some (1, sizeof_gpu_graph_add_kernel_node_args, on_buffer handleGraphAddKernelNode)
  | 86 => Some (1, sizeof_gpu_graph_add_memcpy_node_args, on_buffer handleGraphAddMemcpyNode)
  | 87 => Some (3, sizeof_gpu_graph_instantiate_args, on_buffer handleGraphInstantiate)
  | 88 => Some (3, sizeof_gpu_graph_launch_args, on_buffer handleGraphLaunch)
  | 89 => Some (1, sizeof_gpu_graph_destroy_exec_args, on_buffer handleGraphDestroyExec)
  | 96 => Some (3, sizeof_gpu_mem_pool_create_args, on_buffer handleMemPoolCreate)
  | 97 => Some (1, sizeof_gpu_mem_pool_destroy_args, on_buffer handleMemPoolDestroy)
  | 98 => Some (3, sizeof_gpu_mem_pool_alloc_args, on_buffer handleMemPoolAlloc)
  | 99 => Some (3, sizeof_gpu_mem_pool_alloc_async_args, on_buffer handleMemPoolAllocAsync)
  | 100 => Some (3, sizeof_gpu_mem_pool_free_async_args, on_buffer handleMemPoolFreeAsync)
  | 101 => Some (1, sizeof_gpu_mem_pool_attr_args, on_buffer handleMemPoolSetAttr)
  | 102 => Some (3, sizeof_gpu_mem_pool_attr_args, on_buffer handleMemPoolGetAttr)
  | 103 => Some (1, sizeof_gpu_mem_pool_trim_args, on_buffer handleMemPoolTrim)
  | 104 => Some (3, sizeof_gpu_mem_pool_export_args, on_buffer handleMemPoolExport)
  | _ => None
  end.
Definition switched (env : os_answers H) (req : Z) (argp : option ioctl_arg) (d : GpgpuDevice H) : ioctl_result H :=
  match command (Z.land req 0xFF) with
  | Some (dir, size, f) => if req =? _IOC dir 71 (Z.land req 0xFF) size then f env argp d else Returned (- EINVAL) argp d
  | None => Returned (- EINVAL) argp d
  end.
#[local] Arguments command : simpl never.
(** The bits of a request that give the size of its structure. *)
Definition code_size (req : Z) : Z := Z.land (Z.shiftr req 16) 0x3FFF.

(** What the switch says of each entry of the table. *)
Definition entry_commanded (e : IoctlEntry H) : Prop :=
  exists dir size, command (Z.land (request e) 0xFF) = Some (dir, size, handler_of e) /\
    request e = _IOC dir 71 (Z.land (request e) 0xFF) size /\
    (forall env d, handler_of e env None d = Returned (- EFAULT) None d) /\
    (forall env b d, handler_of e env (Some b) d <> WrongBuffer -> arg_size b = code_size (request e)).
Lemma buffer_size {A} `{IoctlBuffer A} (m : os_answers H -> dev_handler A Z) env b d n :
  on_buffer m env (Some b) d <> WrongBuffer -> (forall a : A, arg_size (to_arg a) = n) -> arg_size b = n.
Proof.
  unfold on_buffer. destruct (of_arg b) as [a|] eqn:E; [|done]. intros _ Hn. apply of_arg_inv in E as ->. apply Hn.
Qed.
Lemma wait_size m env b d n :
  on_wait m env (Some b) d <> WrongBuffer -> (forall a : gpu_wait_fence_args, arg_size (to_arg a) = n) -> arg_size b = n.
Proof.
  unfold on_wait. destruct (of_arg b) as [a|] eqn:E; [|done]. intros _ Hn. apply of_arg_inv in E as ->. apply Hn.
Qed.
Lemma table_commanded : Forall entry_commanded getIoctlTablePtr.
Proof.
  unfold getIoctlTablePtr. repeat apply Forall_cons_2; try apply Forall_nil_2.
  all: unfold entry_commanded; cbn [request handler_of]; match goal with |- context [Z.land ?r 0xFF] =>
    let n := eval vm_compute in (Z.land r 0xFF) in
    assert (Z.land r 0xFF = n) as -> by (by vm_compute); set (req := r) end.
  all: cbv beta iota delta [command]; eexists _, _; split; [reflexivity|]; split; [by vm_compute|]; split; [done|].
  all: intros env b d Hb; subst req; match type of Hb with
    | @on_buffer _ ?A ?I ?m _ _ _ <> _ => apply (buffer_size (A := A) m env b d _ Hb)
    | on_wait ?m _ _ _ <> _ => apply (wait_size m env b d _ Hb)
    end; intros a; by vm_compute.
Qed.
(** The switch has no command that the table lacks. *)
Definition commanded_in_table (nr : Z) : bool :=
  match command nr with
  | Some (dir, size, _) => bool_decide (_IOC dir 71 nr size ∈ table_codes)
  | None => true
  end.
Lemma command_in_table req dir size f :
  command (Z.land req 0xFF) = Some (dir, size, f) -> _IOC dir 71 (Z.land req 0xFF) size ∈ table_codes.
Proof.
  intros Hc. assert (forallb commanded_in_table (seqZ 0 256) = true) as Hall by (by vm_compute).
  assert (Z.land req 0xFF ∈ seqZ 0 256) as Hin.
  { change 0xFF with (Z.ones 8). rewrite Z.land_ones by lia. apply elem_of_seqZ. pose proof (Z.mod_pos_bound req (2 ^ 8)). lia. }
  rewrite forallb_forall in Hall. apply list_elem_of_In, Hall in Hin. unfold commanded_in_table in Hin. rewrite Hc in Hin.
  by apply (bool_decide_eq_true_1 _).
Qed.

(** The table scan, for a request it has and one it has not. *)
Lemma ioctl_entry e env argp d : e ∈ getIoctlTablePtr -> ioctl env (request e) argp d = handler_of e env argp d.
Proof. intros He. unfold ioctl. by rewrite (find_entry _ e table_requests He). Qed.
Lemma ioctl_unknown env req argp d : req ∉ table_codes -> ioctl env req argp d = Returned (- EINVAL) argp d.
Proof.
  intros Hn. unfold ioctl. destruct (List.find _ _) as [e|] eqn:E; [|done].
  apply List.find_some in E as [Hin He%Z.eqb_eq]. destruct Hn. subst req.
  apply list_elem_of_fmap_2, list_elem_of_In, Hin.
Qed.
Lemma entry_of req : req ∈ table_codes -> exists e, e ∈ getIoctlTablePtr /\ request e = req /\ entry_commanded e.
Proof.
  intros (e & -> & He)%list_elem_of_fmap. exists e. split; [done|]. split; [done|].
  exact (proj1 (Forall_forall _ _) table_commanded e He).
Qed.

(** C29. The scan of the dispatch table is the switch of the interface, for any
    request: the command number selects its handler, the direction, the magic
    letter and the size must be those of the header, and anything else gets
    [-EINVAL] and changes nothing.  Each of the 41 requests of the table answers
    a NULL argument with [-EFAULT] without effect, and the structure its handler
    reads has the size that the request code gives. *)
Theorem ioctl_dispatch (env : os_answers H) (req : Z) (argp : option ioctl_arg) (d : GpgpuDevice H) :
  ioctl env req argp d = switched env req argp d /\
  NoDup table_codes /\ length table_codes = 41%nat /\
  (req ∉ table_codes -> ioctl env req argp d = Returned (- EINVAL) argp d) /\
  (req ∈ table_codes -> ioctl env req None d = Returned (- EFAULT) None d /\
     forall b, ioctl env req (Some b) d <> WrongBuffer -> arg_size b = code_size req).
Proof.
  split; [|split; [apply table_requests|split; [reflexivity|split]]].
  - destruct (decide (req ∈ table_codes)) as [Hin|Hn].
    + destruct (entry_of req Hin) as (e & He & <- & (dir & size & Hc & Hr & _)). rewrite (ioctl_entry e) by done.
      unfold switched. rewrite Hc, <- Hr. by rewrite Z.eqb_refl.
    + rewrite ioctl_unknown by done. unfold switched. destruct (command _) as [[[dir size] f]|] eqn:Hc; [|done].
      destruct (Z.eqb_spec req (_IOC dir 71 (Z.land req 0xFF) size)) as [E|]; [|done]. destruct Hn.
      rewrite E. by apply (command_in_table _ _ _ f).
  - intros Hn. by apply ioctl_unknown.
  - intros Hin. destruct (entry_of req Hin) as (e & He & <- & (dir & size & _ & _ & Hnull & Hsize)).
    split; [by rewrite (ioctl_entry e)|]. intros b. rewrite (ioctl_entry e) by done. apply Hsize.
Qed.

(** C10. After any sequence of ioctls each live queue is attached to exactly one
    VA space, once, and nothing else is attached; and DESTROY_VA_SPACE refuses
    with [-EBUSY] exactly while a live queue is attached, and with [-ENOENT]
    exactly when there is no such space. *)
Theorem va_space_lifetime `{!GpuHalLaws H} h kfd cs rs d env v :
  Forall call_ok cs -> Z.of_nat (length cs) < 2 ^ 63 ->
  ioctls cs (new_device h kfd) = Some (rs, d) ->
  (forall q, is_Some (queues_ d !! q) <-> exists v, attached_in d v q) /\
  (forall q v v', attached_in d v q -> attached_in d v' q -> v = v') /\
  (forall v s, va_spaces_ d !! v = Some s -> NoDup (attached_queues s)) /\
  exists r b d', ioctl env GPU_IOCTL_DESTROY_VA_SPACE (Some (to_arg (mk_handle64 v))) d = Returned r b d' /\
    (r = - ENOENT <-> va_spaces_ d !! v = None) /\
    (r = - EBUSY <-> exists q, is_Some (queues_ d !! q) /\ attached_in d v q) /\
    (r = 0 <-> is_Some (va_spaces_ d !! v) /\ va_spaces_ d' = delete v (va_spaces_ d)).
Proof.
  intros Hcs Hlen Hr. pose proof (ioctls_queues 0 cs _ rs d ltac:(lia) Hcs (new_device_queues h kfd) Hr) as Hd.
  split; [apply Hd|]. split; [apply Hd|]. split; [apply Hd|].
  change (ioctl env GPU_IOCTL_DESTROY_VA_SPACE (Some (to_arg (mk_handle64 v))) d)
    with (on_buffer handleDestroyVASpace env (Some (A_handle64 (mk_handle64 v))) d).
  unfold on_buffer, handleDestroyVASpace, destroyVASpace. run_simpl.
  destruct (va_spaces_ d !! v) as [s|] eqn:Es; simpl.
  2:{ eexists _, _, _. split; [done|]. split; [done|]. split; [|split; [done|intros [[? [=]] _]]].
      split; [done|]. intros (q & _ & s & Hs & _). congruence. }
  destruct (attached_queues s) as [|q qs] eqn:Ea; simpl; eexists _, _, _; (split; [done|]).
  - split; [done|]. split; [|by split; eauto]. split; [done|]. intros (q & _ & s' & Hs & Hq).
    simplify_eq. rewrite Ea in Hq. by apply elem_of_nil in Hq.
  - split; [done|]. split.
    + split; [|done]. intros _. exists q. assert (Hq : attached_in d v q) by (exists s; rewrite Ea; split; [done|left]).
      split; [|done]. apply (qi_attached _ _ Hd). eauto.
    + split; [done|]. intros [_ Hx]. assert (Hy := lookup_delete_eq (va_spaces_ d) v).
      rewrite <- Hx in Hy. congruence.
Qed.

(** The HAL at the [i]-th poll of a wait. *)
Fixpoint poll_state (tick : Z -> H -> H) (f : Z) (h : H) (i : nat) : H :=
  match i with
  | O => h
  | S j => tick (Z.of_nat j) (fence_poll f (poll_state tick f h j)).2
  end.
Definition seen_at (tick : Z -> H -> H) (f : Z) (h : H) (i : nat) : bool :=
  (fence_poll f (poll_state tick f h i)).1.

(** [k] polls are done and none saw the fence. *)
Lemma wait_loop_bounded tick f timeout h fuel k :
  0 < timeout < 2 ^ 32 -> Z.of_nat k + Z.of_nat fuel = timeout + 1 -> (0 < fuel)%nat ->
  (wait_loop tick f timeout fuel (Z.of_nat k) (poll_state tick f h k)).1 = Some true /\
    (exists i, (k <= i)%nat /\ Z.of_nat i < timeout /\ seen_at tick f h i = true) \/
  (wait_loop tick f timeout fuel (Z.of_nat k) (poll_state tick f h k)).1 = Some false /\
    (forall i, (k <= i)%nat -> Z.of_nat i < timeout -> seen_at tick f h i = false).
Proof.
  intros Ht. revert k. induction fuel as [|fuel IH]; intros k Hk Hf; [lia|]. simpl.
  destruct (Z.ltb_spec (Z.of_nat k) timeout) as [Hlt|Hge]; simpl.
  - destruct (fence_poll f (poll_state tick f h k)) as [s h1] eqn:E. destruct s.
    + left. split; [done|]. exists k. unfold seen_at. rewrite E. simpl. lia || (split; [lia|split; [lia|done]]).
    + rewrite u64_id by lia. replace (Z.of_nat k + 1) with (Z.of_nat (S k)) by lia.
      replace (tick (Z.of_nat k) h1) with (poll_state tick f h (S k)) by (simpl; by rewrite E).
      destruct (IH (S k) ltac:(lia) ltac:(lia)) as [[-> (i & H1 & H2 & H3)]|[-> H1]].
      * left. split; [done|]. exists i. split; [lia|done].
      * right. split; [done|]. intros i Hi Hti. destruct (decide (i = k)) as [->|Hne].
        -- unfold seen_at. by rewrite E.
        -- apply H1; lia.
  - destruct (Z.eqb_spec timeout 0); [lia|]. right. split; [done|]. intros i Hi Hti. lia.
Qed.
Lemma wait_loop_unbounded tick f h fuel k :
  Z.of_nat k + Z.of_nat fuel < 2 ^ 64 ->
  (wait_loop tick f 0 fuel (Z.of_nat k) (poll_state tick f h k)).1 =
    if existsb (seen_at tick f h) (seq k fuel) then Some true else None.
Proof.
  revert k. induction fuel as [|fuel IH]; intros k Hk; [done|]. simpl.
  rewrite orb_true_r. destruct (fence_poll f (poll_state tick f h k)) as [s h1] eqn:E.
  unfold seen_at at 1. rewrite E. simpl. destruct s; [done|]. simpl.
  rewrite u64_id by lia. replace (Z.of_nat k + 1) with (Z.of_nat (S k)) by lia.
  replace (tick (Z.of_nat k) h1) with (poll_state tick f h (S k)) by (simpl; by rewrite E).
  apply IH. lia.
Qed.

(** C12. WAIT_FENCE with a deadline always returns, with status 1 exactly when
    one of the polls before the deadline saw the fence signalled; without a
    deadline it returns status 1 once a poll sees it and otherwise does not
    return, however long it is observed. *)
Theorem wait_fence_spec env a d :
  is_u32 (wf_timeout_ms a) -> Z.of_nat (os_patience env) < 2 ^ 64 ->
  let seen := seen_at (os_tick env) (wf_fence_id a) (hal_ d) in
  let result := ioctl env GPU_IOCTL_WAIT_FENCE (Some (to_arg a)) d in
  (0 < wf_timeout_ms a ->
     exists d' st, result = Returned 0 (Some (to_arg (mk_wf (wf_fence_id a) (wf_timeout_ms a) st))) d' /\
       (st = 1 /\ (exists i, Z.of_nat i < wf_timeout_ms a /\ seen i = true) \/
        st = 0 /\ (forall i, Z.of_nat i < wf_timeout_ms a -> seen i = false))) /\
  (wf_timeout_ms a = 0 ->
     (exists d', result = Returned 0 (Some (to_arg (mk_wf (wf_fence_id a) 0 1))) d' /\
        exists i, (i < os_patience env)%nat /\ seen i = true) \/
     (result = Blocks /\ forall i, (i < os_patience env)%nat -> seen i = false)).
Proof.
  intros Hu Hp seen result.
  change result with (on_wait handleWaitFence env (Some (A_wait_fence a)) d).
  unfold on_wait, handleWaitFence. run_simpl. split.
  - intros Ht. destruct (wait_loop_bounded (os_tick env) (wf_fence_id a) (wf_timeout_ms a) (hal_ d)
      (wait_fuel (wf_timeout_ms a) (os_patience env)) 0 ltac:(lia)
      ltac:(unfold wait_fuel; destruct (Z.eqb_spec (wf_timeout_ms a) 0); lia)
      ltac:(unfold wait_fuel; destruct (Z.eqb_spec (wf_timeout_ms a) 0); lia)) as [[Hw Hs]|[Hw Hs]];
      change (poll_state _ _ (hal_ d) 0) with (hal_ d) in Hw; change (Z.of_nat 0) with 0 in Hw;
      destruct (wait_loop _ _ _ _ _ _) as [r h1]; simpl in Hw; subst r; eexists _, _; (split; [reflexivity|]).
    + left. split; [done|]. destruct Hs as (i & _ & Hi). by exists i.
    + right. split; [done|]. intros i Hi. apply Hs; [lia|done].
  - intros Ht. pose proof (wait_loop_unbounded (os_tick env) (wf_fence_id a) (hal_ d) (os_patience env) 0 ltac:(lia)) as Hw.
    change (poll_state _ _ (hal_ d) 0) with (hal_ d) in Hw. change (Z.of_nat 0) with 0 in Hw.
    unfold wait_fuel. rewrite Ht. simpl. destruct (wait_loop _ _ _ _ _ _) as [r h1]. simpl in Hw. subst r.
    destruct (existsb _ _) eqn:Ex.
    + left. eexists. split; [cbn; rewrite <- Ht; reflexivity|].
      apply existsb_exists in Ex as (i & Hi%in_seq & Hs). exists i. split; [lia|done].
    + right. split; [done|]. intros i Hi. destruct (seen i) eqn:Es; [exfalso|done].
      assert (Hx : existsb seen (seq 0 (os_patience env)) = true); [|by unfold seen in Hx; rewrite Ex in Hx].
      apply existsb_exists. exists i. split; [apply in_seq; lia|done].
Qed.

Lemma ioctl_create_queue env argp d :
  ioctl env GPU_IOCTL_CREATE_QUEUE argp d = on_buffer handleCreateQueue env argp d.
Proof. reflexivity. Qed.

(** Offsets between the two mmap windows fail. *)
Lemma mmap_ring_offset env len off d :
  (forall i, is_Some (bo_map_ d !! i) -> i <= max_handles_) ->
  QUEUE_RING_MMAP_BASE <= off < 2 ^ 32 -> off <> DOORBELL_MMAP_OFFSET -> mmap env len off d = (None, d).
Proof.
  unfold QUEUE_RING_MMAP_BASE, max_handles_. intros Hb Ho Hne. unfold mmap, BAR2_OFFSET_BASE.
  rewrite u64_id, u32_id by lia. destruct (Z.leb_spec 8589934592 off); [lia|]. simpl.
  destruct (bo_map_ d !! off) eqn:E; [specialize (Hb off ltac:(eauto)); lia|].
  by destruct (Z.eqb_spec off DOORBELL_MMAP_OFFSET).
Qed.

(** CREATE_QUEUE reports the doorbell of queue [h] at mmap offset
    0x10000 + 0x1000 h, and mmap of that offset always fails, unless [h] is 16,
    whose offset is the one doorbell window there is. *)
Theorem doorbell_offset_unmappable env (a : gpu_queue_args) d b d' :
  (forall i, is_Some (bo_map_ d !! i) -> i <= max_handles_) ->
  0 < next_queue_handle_ d < 2 ^ 19 -> next_queue_handle_ d <> 16 ->
  ioctl env GPU_IOCTL_CREATE_QUEUE (Some (to_arg a)) d = Returned 0 b d' ->
  exists a', b = Some (to_arg a') /\ is_Some (queues_ d' !! qa_queue_handle a') /\
    qa_doorbell_pgoff a' = DOORBELL_ALLOC_BASE + qa_queue_handle a' * DOORBELL_ALLOC_STRIDE /\
    forall env' len, mmap env' len (qa_doorbell_pgoff a') d' = (None, d').
Proof.
  intros Hb Hq Hne. rewrite ioctl_create_queue. unfold on_buffer, handleCreateQueue. run_simpl.
  destruct (qa_queue_type a <=? _); [|done]. simpl. destruct (vaSpaceExists _ _); [|done]. simpl.
  destruct (Z.eqb_spec (next_queue_handle_ d) 0); [lia|]. simpl.
  destruct (hal_call _ (hal_ d)) as [[r o] h1]. simpl. destruct ((r =? 0) && _); [|done]. simpl.
  assert (Hpg : doorbell_pgoff_of (next_queue_handle_ d) =
                DOORBELL_ALLOC_BASE + next_queue_handle_ d * DOORBELL_ALLOC_STRIDE).
  { unfold doorbell_pgoff_of, DOORBELL_ALLOC_BASE, DOORBELL_ALLOC_STRIDE. rewrite (u64_id (_ * 4096)) by lia. apply u64_id. lia. }
  assert (Hend : forall d1, bo_map_ d1 = bo_map_ d -> is_Some (queues_ d1 !! next_queue_handle_ d) ->
    exists a', Some (A_queue (a <| qa_queue_handle := next_queue_handle_ d |>
        <| qa_doorbell_pgoff := doorbell_pgoff_of (next_queue_handle_ d) |>)) = Some (A_queue a') /\
      is_Some (queues_ d1 !! qa_queue_handle a') /\
      qa_doorbell_pgoff a' = DOORBELL_ALLOC_BASE + qa_queue_handle a' * DOORBELL_ALLOC_STRIDE /\
      forall env' len, mmap env' len (qa_doorbell_pgoff a') d1 = (None, d1)).
  { intros d1 Hd1 Hs. eexists. split; [reflexivity|]. simpl. split; [done|]. split; [done|]. intros env' len.
    apply mmap_ring_offset; rewrite ?Hd1, ?Hpg; [done| |];
      unfold QUEUE_RING_MMAP_BASE, DOORBELL_MMAP_OFFSET, DOORBELL_ALLOC_BASE, DOORBELL_ALLOC_STRIDE; lia. }
  unfold attachQueueToVASpace. simpl.
  destruct (va_spaces_ d !! qa_va_space_handle a) as [s|]; simpl; destruct (puller_ d =? 0); simpl;
    try destruct (hal_call _ h1) as [r2 h2]; intros [= <- <-]; apply Hend; try done;
    simpl; rewrite lookup_insert_eq; eauto.
Qed.
End Answers.
