(* ===== verification/DeviceMachine.v ===== *)
(** * The device over the user-space HAL

    What the composition of [Device], [HalMachine] and [Puller] does: the
    lawful HAL of the device theorems exists, a submitted batch does not reach
    the command processor, and the doorbell offsets cannot be mapped. *)
From S2P Require Import Prelude GpuTypes Hal HalUser FenceId Graph StreamCapture MemPool SimMem Ring Puller KfdBridge HalCalls HalMachine Ioctl Device DeviceProps DeviceQueues.

(** ** Submission *)
Section Submission.
  Implicit Types d : GpgpuDevice hal_machine.

Lemma set_hal_id d : d <| hal_ := hal_ d |> = d.
Proof. by destruct d. Qed.
(** Checking the encoding has no effect. *)
Lemma encode_checks_machine {A} es (s : GpgpuDevice hal_machine * A) : encode_checks es s = (Go tt, s).
Proof.
  revert s. induction es as [|e es IH]; intros [d a]; [done|]. simpl. unfold mbind at 1, handler_bind at 1, encode_check.
  destruct (valid e =? 0); [apply IH|]. unfold mbind, handler_bind, hal. simpl.
  rewrite set_hal_id. apply IH.
Qed.

(** The queue a submission names. *)
Definition stream_of (a : gpu_pushbuffer_args) : Z :=
  if (pb_stream_id a =? 0) && negb (pb_stream_id_compat a =? 0)
  then pb_stream_id_compat a else pb_stream_id a.
(** The same answers of the system, with other entries in the caller's array. *)
Definition with_entries (es : list gpu_gpfifo_entry) (env : os_answers hal_machine) :
    os_answers hal_machine :=
  mk_os _ (os_time env) (os_memalign env) (os_ring env) (os_header env) es (os_mmap_ok env)
    (os_pipe env) (os_tick env) (os_patience env).

Lemma queue_submit_some addr count f q a n fence r :
  queue_submit addr count f q = (r, Some (a, n, fence)) -> r = 0 /\ a = addr /\ n = count /\ fence = f.
Proof. unfold queue_submit. destruct (negb (q_puller q)); naive_solver. Qed.

Lemma ioctl_pushbuffer (env : os_answers hal_machine) argp d :
  ioctl env GPU_IOCTL_PUSHBUFFER_SUBMIT_BATCH argp d = on_buffer handlePushbufferSubmitBatch env argp d.
Proof. reflexivity. Qed.
Lemma pushbuffer_same_entries env env' a d :
  has_fence (take (Z.to_nat (pb_count a)) (os_entries env)) = false ->
  has_fence (take (Z.to_nat (pb_count a)) (os_entries env')) = false -> puller_ d <> 0 ->
  run_handler (handlePushbufferSubmitBatch env) (d, a) = run_handler (handlePushbufferSubmitBatch env') (d, a).
Proof.
  intros H1 H2 Hp. unfold handlePushbufferSubmitBatch. run_simpl.
  destruct (negb _); [|done]. simpl. destruct (pb_va_space_handle a =? 0); simpl.
  - rewrite !encode_checks_machine. simpl. rewrite H1, H2. by destruct (Z.eqb_spec (puller_ d) 0).
  - destruct (vaSpaceExists _ _); [|done]. simpl. destruct (bool_decide _); [|done]. simpl.
    rewrite !encode_checks_machine. simpl. rewrite H1, H2. by destruct (Z.eqb_spec (puller_ d) 0).
Qed.


(** A submission that returns 0 went through the queue it names. *)
Lemma pushbuffer_submits env a d a' d' :
  puller_ d <> 0 -> has_fence (take (Z.to_nat (pb_count a)) (os_entries env)) = false ->
  run_handler (handlePushbufferSubmitBatch env) (d, a) = (0, (d', a')) ->
  pb_count a <= 16 /\ exists out m, hm_queue_submit (getQueue (stream_of a) d) GPFIFO_BASE (pb_count a) (hal_ d) = ((0, out), m) /\
    hm_pullers (hal_ d') = hm_pullers m.
Proof.
  intros Hp H1. unfold handlePushbufferSubmitBatch. run_simpl.
  destruct (Z.eqb_spec (pb_count a) 0); [done|]. simpl. destruct (Z.ltb_spec 16 (pb_count a)); [done|]. simpl.
  intros Heq. split; [done|]. revert Heq.
  destruct (pb_va_space_handle a =? 0); simpl;
    [|destruct (vaSpaceExists _ _); [|done]; simpl; destruct (bool_decide _); [|done]; simpl];
    rewrite !encode_checks_machine; simpl; rewrite H1; destruct (Z.eqb_spec (puller_ d) 0); try done; simpl;
    destruct (negb (getQueue _ d =? 0)); try done; simpl;
    change (@hal_call hal_machine machine_hal _ (QueueSubmit ?q ?x ?n) ?m) with (hm_queue_submit q x n m);
    fold (stream_of a);
    destruct (hm_queue_submit (getQueue (stream_of a) d) GPFIFO_BASE (pb_count a) (hal_ d)) as [[r out] m] eqn:E;
    destruct (Z.eqb_spec r 0) as [->|Hr]; simpl; intros Heq; simplify_eq/=; by exists out, m.
Qed.
(** A batch submitted to the puller is not the caller's: whatever entries
    the caller's array holds, the call does the same; the puller is pointed at
    GPFIFO_BASE, below device memory, where nothing was copied; and each of
    the batch's entries it fetches is its uninitialised local variable. *)
Theorem pushbuffer_entries_not_fetched env a d b d' :
  puller_ d <> 0 -> has_fence (take (Z.to_nat (pb_count a)) (os_entries env)) = false ->
  ioctl env GPU_IOCTL_PUSHBUFFER_SUBMIT_BATCH (Some (to_arg a)) d = Returned 0 b d' ->
  (forall es, has_fence (take (Z.to_nat (pb_count a)) es) = false ->
     ioctl (with_entries es env) GPU_IOCTL_PUSHBUFFER_SUBMIT_BATCH (Some (to_arg a)) d = Returned 0 b d') /\
  exists o, hm_queues (hal_ d) !! getQueue (stream_of a) d = Some o /\
    forall p, hm_pullers (hal_ d') !! qo_puller o = Some p ->
      current_gpfifo_addr p = GPFIFO_BASE /\ total_entries p = pb_count a /\
      forall garbage (s : Sim hal_user_context) i, 0 <= i < pb_count a ->
        pl s = p <| current_index := i |> -> fetchEntry garbage s = Some garbage.
Proof.
  intros Hp H1. rewrite ioctl_pushbuffer. unfold on_buffer. simpl.
  destruct (run_handler (handlePushbufferSubmitBatch env) (d, a)) as [r [d1 a1]] eqn:E. intros [= -> <- <-].
  split.
  { intros es H2. rewrite ioctl_pushbuffer. unfold on_buffer. simpl.
    by rewrite (pushbuffer_same_entries (with_entries es env) env a d H2 H1 Hp), E. }
  destruct (pushbuffer_submits env a d a1 d1 Hp H1 E) as (Hc & out & m & Hs & Hpl). rewrite Hpl. clear Hpl E.
  unfold hm_queue_submit in Hs. destruct (hm_queues (hal_ d) !! getQueue (stream_of a) d) as [o|]; [|by simplify_eq].
  exists o. split; [done|]. intros p. destruct (sim_fence_id_alloc _) as [f fs]. destruct (f <? 0); [by simplify_eq|].
  destruct (queue_submit GPFIFO_BASE (pb_count a) f (qo_queue o)) as [r [[[x n] fence]|]] eqn:Eq; simplify_eq/=.
  2:{ unfold queue_submit in Eq. by destruct (negb _). }
  apply queue_submit_some in Eq as (_ & -> & -> & ->). rewrite lookup_alter_eq.
  intros (q & _ & ->)%fmap_Some. split; [done|]. split; [done|]. intros garbage s i Hi Hs.
  unfold fetchEntry. rewrite Hs. simpl. destruct (Z.leb_spec (pb_count a) i); [lia|].
  unfold user_mem_read. assert (Hg : mem_guard (entry_address (pl s)) sizeof_entry = true); [|by rewrite <- Hs, Hg].
  unfold mem_guard, heap_off, entry_address. rewrite Hs. simpl. apply Z.ltb_lt.
  unfold GPFIFO_BASE, sizeof_entry, HAL_HEAP_BASE, HAL_HEAP_SIZE. unfold u64. Z.div_mod_to_equations. lia.
Qed.
End Submission.

(** ** A device to run: the user-space HAL, one puller *)
Definition demo_env : os_answers hal_machine :=
  mk_os _ 0 (Some 8192) [] (0, 0) [sample_entry] true 0 (fun _ m => m) 5.
Definition demo_machine : hal_machine :=
  (hm_puller_create (Some 1) (Some 1) (init_machine (fun _ => 0) 1048576 new_vram_store)).2.
Definition demo_device : GpgpuDevice hal_machine := setPuller 1 (new_device demo_machine init_kfd_sim).
Definition demo_call (req : Z) (arg : ioctl_arg) : ioctl_call hal_machine :=
  mk_ioctl_call demo_env req (Some arg).
Definition demo_calls : list (ioctl_call hal_machine) :=
  [demo_call GPU_IOCTL_ALLOC_BO (to_arg (mk_ab 5000 1 0 0 0));
   demo_call GPU_IOCTL_ALLOC_BO (to_arg (mk_ab 4096 1 0 0 0));
   demo_call GPU_IOCTL_FREE_BO (to_arg (mk_gem_handle 1));
   demo_call GPU_IOCTL_ALLOC_BO (to_arg (mk_ab 100 1 0 0 0));
   demo_call GPU_IOCTL_CREATE_VA_SPACE (to_arg (mk_va 0 0 0));
   demo_call GPU_IOCTL_CREATE_QUEUE (to_arg (mk_qa 1 0 0 64 0 0 0))].
Lemma demo_calls_ok : Forall call_ok demo_calls.
Proof.
  repeat apply Forall_cons_2; try apply Forall_nil_2; (split; [by intros i m|]); intros b [= <-]; simpl;
    lia || done.
Qed.
Lemma demo_machine_ok : machine_ok demo_machine.
Proof. unfold machine_ok, hal_mem_ok. done. Qed.
Lemma demo_calls_run : option_map fst (ioctls demo_calls (new_device demo_machine init_kfd_sim)) = Some [0; 0; 0; 0; 0; 0].
Proof. vm_compute. reflexivity. Qed.

(** The device after the first [n] calls, and the last call's result. *)
Definition demo_after (n : nat) (d : GpgpuDevice hal_machine) : GpgpuDevice hal_machine :=
  match ioctls (take n demo_calls) d with Some (_, d') => d' | None => d end.
Lemma demo_bo_inv n : bo_inv (demo_after n (new_device demo_machine init_kfd_sim)).
Proof.
  unfold demo_after. destruct (ioctls _ _) as [[rs d]|] eqn:E.
  - eapply ioctls_bo; [apply Forall_take, demo_calls_ok|apply new_device_bo, demo_machine_ok|exact E].
  - apply new_device_bo, demo_machine_ok.
Qed.

Lemma buffer_objects_disjoint_witness :
  exists rs d, ioctls demo_calls (new_device demo_machine init_kfd_sim) = Some (rs, d) /\
    (forall i, handle_valid (allocated_bits_ d) i = true <-> is_Some (bo_map_ d !! i)) /\
    (forall i j b b', i <> j -> bo_map_ d !! i = Some b -> bo_map_ d !! j = Some b' ->
       bo_size b <= 2 ^ 63 -> bo_size b' <= 2 ^ 63 -> ranges_disjoint (bo_gpu_va b, bo_size b) (bo_gpu_va b', bo_size b')).
Proof.
  pose proof demo_calls_run as Hr.
  destruct (ioctls demo_calls (new_device demo_machine init_kfd_sim)) as [[rs d]|] eqn:E; [|by exfalso].
  exists rs, d. split; [done|].
  exact (buffer_objects_disjoint demo_machine init_kfd_sim demo_calls rs d demo_machine_ok demo_calls_ok E).
Defined.
(** ALLOC_BO does not bound the size: 2^63+1 bytes are granted on one page, and
    the object recorded runs over the one allocated before. *)
Definition huge_calls : list (ioctl_call hal_machine) :=
  [demo_call GPU_IOCTL_ALLOC_BO (to_arg (mk_ab 4096 1 0 0 0));
   demo_call GPU_IOCTL_ALLOC_BO (to_arg (mk_ab (2 ^ 63 + 1) 1 0 0 0))].
Definition bo_range (d : GpgpuDevice hal_machine) (i : Z) : option range :=
  (fun b => (bo_gpu_va b, bo_size b)) <$> bo_map_ d !! i.
Lemma huge_buffer_overlaps :
  (fun x => (x.1, bo_range x.2 1, bo_range x.2 2)) <$> ioctls huge_calls (new_device demo_machine init_kfd_sim) =
    Some ([0; 0], Some (4563398656, 4096), Some (4563394560, 2 ^ 63 + 1)).
Proof. vm_compute. reflexivity. Qed.
Lemma va_space_lifetime_witness :
  exists rs d, ioctls demo_calls (new_device demo_machine init_kfd_sim) = Some (rs, d) /\
    (forall q, is_Some (queues_ d !! q) <-> exists v, attached_in d v q).
Proof.
  pose proof demo_calls_run as Hr.
  destruct (ioctls demo_calls (new_device demo_machine init_kfd_sim)) as [[rs d]|] eqn:E; [|by exfalso].
  exists rs, d. split; [done|].
  apply (va_space_lifetime demo_machine init_kfd_sim demo_calls rs d demo_env 1 demo_calls_ok); [done|exact E].
Defined.
Lemma wait_fence_spec_witness :
  exists d' st, ioctl demo_env GPU_IOCTL_WAIT_FENCE (Some (to_arg (mk_wf 3 2 0))) demo_device =
    Returned 0 (Some (to_arg (mk_wf 3 2 st))) d' /\
    (st = 1 /\ (exists i, Z.of_nat i < 2 /\ seen_at (fun _ m => m) 3 demo_machine i = true) \/
     st = 0 /\ (forall i, Z.of_nat i < 2 -> seen_at (fun _ m => m) 3 demo_machine i = false)).
Proof.
  apply (wait_fence_spec demo_env (mk_wf 3 2 0) demo_device); simpl; lia.
Defined.
Definition demo_after_1 : GpgpuDevice hal_machine := demo_after 1 (new_device demo_machine init_kfd_sim).
Lemma demo_alloc_answer :
  answer (ioctl demo_env GPU_IOCTL_ALLOC_BO (Some (to_arg (mk_ab 4096 1 0 0 0))) demo_after_1) = Some (0, Some (A_alloc_bo (mk_ab 4096 1 0 2 4563390464))).
Proof. vm_compute. reflexivity. Qed.
Lemma alloc_free_roundtrip_witness :
  exists b d1, ioctl demo_env GPU_IOCTL_ALLOC_BO (Some (to_arg (mk_ab 4096 1 0 0 0))) demo_after_1 =
      Returned 0 b d1 /\
    exists a' d2, b = Some (to_arg a') /\
      ioctl demo_env GPU_IOCTL_FREE_BO (Some (to_arg (mk_gem_handle (ab_handle a')))) d1 =
        Returned 0 (Some (to_arg (mk_gem_handle (ab_handle a')))) d2 /\
      bo_map_ d2 = bo_map_ demo_after_1.
Proof.
  destruct (answer_inv _ _ _ demo_alloc_answer) as [d1 E].
  exists (Some (A_alloc_bo (mk_ab 4096 1 0 2 4563390464))), d1. split; [exact E|].
  destruct (alloc_free_roundtrip demo_env (mk_ab 4096 1 0 0 0) demo_after_1 _ d1 (demo_bo_inv 1)
    ltac:(simpl; lia) E) as (a' & d2 & H1 & _ & H2 & H3 & _).
  exists a', d2. split; [exact H1|]. split; [exact H2|exact H3].
Defined.

Definition demo_created : GpgpuDevice hal_machine := setPuller 1 (demo_after 5 (new_device demo_machine init_kfd_sim)).
Definition demo_queue : gpu_queue_args := mk_qa 1 0 0 64 0 0 0.
Lemma demo_created_handles i : is_Some (bo_map_ demo_created !! i) -> i <= max_handles_.
Proof.
  pose proof (set_puller_bo 1 _ (demo_bo_inv 5)) as Hd. fold demo_created in Hd. intros Hi.
  apply (bi_bits _ Hd) in Hi. apply (bi_range _ Hd) in Hi as [_ Hi]. exact Hi.
Qed.
Lemma demo_create_answer :
  answer (ioctl demo_env GPU_IOCTL_CREATE_QUEUE (Some (to_arg demo_queue)) demo_created) = Some (0, Some (A_queue (mk_qa 1 0 0 64 1 69632 0))).
Proof. vm_compute. reflexivity. Qed.
Lemma doorbell_offset_unmappable_witness :
  exists b d', ioctl demo_env GPU_IOCTL_CREATE_QUEUE (Some (to_arg demo_queue)) demo_created = Returned 0 b d' /\
    exists a', b = Some (to_arg a') /\ qa_doorbell_pgoff a' = 69632 /\
      forall env' len, mmap env' len (qa_doorbell_pgoff a') d' = (None, d').
Proof.
  destruct (answer_inv _ _ _ demo_create_answer) as [d' E].
  exists (Some (A_queue (mk_qa 1 0 0 64 1 69632 0))), d'. split; [exact E|].
  assert (Hn : next_queue_handle_ demo_created = 1) by (vm_compute; reflexivity).
  destruct (doorbell_offset_unmappable demo_env demo_queue demo_created (Some (A_queue (mk_qa 1 0 0 64 1 69632 0))) d') as (a' & H1 & _ & H2 & H3);
    [exact demo_created_handles|rewrite Hn; lia|rewrite Hn; lia|exact E|].
  exists a'. split; [exact H1|]. injection H1 as <-. split; [reflexivity|exact H3].
Defined.

(** The same device with one queue, to submit to. *)
Definition demo_with_queue : GpgpuDevice hal_machine :=
  match ioctl demo_env GPU_IOCTL_CREATE_QUEUE (Some (to_arg demo_queue)) demo_created with
  | Returned _ _ d => d | _ => demo_created
  end.
Definition demo_batch : gpu_pushbuffer_args := mk_pb 1 4096 1 0 0 1 0.
Lemma demo_submit_bound :
  match ioctl demo_env GPU_IOCTL_PUSHBUFFER_SUBMIT_BATCH (Some (to_arg demo_batch)) demo_with_queue,
        hm_queues (hal_ demo_with_queue) !! getQueue (stream_of demo_batch) demo_with_queue with
  | Returned _ _ d', Some o => bool_decide (is_Some (hm_pullers (hal_ d') !! qo_puller o))
  | _, _ => false
  end = true.
Proof. vm_compute. reflexivity. Qed.
Lemma demo_submit_answer :
  answer (ioctl demo_env GPU_IOCTL_PUSHBUFFER_SUBMIT_BATCH (Some (to_arg demo_batch)) demo_with_queue) = Some (0, Some (A_pushbuffer (mk_pb 1 4096 1 0 4294967296 1 0))).
Proof. vm_compute. reflexivity. Qed.
Lemma pushbuffer_entries_not_fetched_witness :
  exists b d' o p, ioctl demo_env GPU_IOCTL_PUSHBUFFER_SUBMIT_BATCH (Some (to_arg demo_batch)) demo_with_queue =
      Returned 0 b d' /\ hm_pullers (hal_ d') !! qo_puller o = Some p /\ total_entries p = 1 /\
    forall garbage (s : Sim hal_user_context), pl s = p <| current_index := 0 |> -> fetchEntry garbage s = Some garbage.
Proof.
  destruct (answer_inv _ _ _ demo_submit_answer) as [d' E].
  destruct (pushbuffer_entries_not_fetched demo_env demo_batch demo_with_queue _ d'
    ltac:(vm_compute; discriminate) ltac:(vm_compute; reflexivity) E) as (_ & o & Ho & Hp).
  pose proof demo_submit_bound as Hb. rewrite E, Ho in Hb. apply bool_decide_eq_true_1 in Hb as [p Hl].
  destruct (Hp p Hl) as (_ & Ht & Hf). exists (Some (A_pushbuffer (mk_pb 1 4096 1 0 4294967296 1 0))), d', o, p.
  split; [exact E|]. split; [exact Hl|]. split; [exact Ht|].
  intros garbage s Hs. apply (Hf garbage s 0); [simpl; lia|exact Hs].
Defined.
