(* ===== verification/Drm.v ===== *)
(** * The DRM-style driver

    [plugins/gpu_driver/drv/gpu_drm_driver.cpp], the second dispatch table over
    the same device, with the dispatch loop of [linux_compat/drm/drm_ioctl.h].
    Some handlers forward to [GpgpuDevice::ioctl], the others are their own
    code.  [mm_shim_] and the shim of the KFD bridge are one object, as the
    plugin binds them. *)
From S2P Require Import Prelude GpuTypes HalUser MemPool KfdBridge HalCalls Ioctl FenceId Device DeviceProps DeviceQueues.

Section Drm.
  Context {H : Type} `{HAL : GpuHal H}.
  Implicit Types env : os_answers H.
Local Abbreviation drm_handler A X := (dev_handler (H := H) A X).

(** ** Device and buffer objects *)
Definition gpu_ioctl_get_device_info env : drm_handler gpu_device_info Z :=
  upd_args (fun i => mk_di 4096 4097 SIMULATED_VRAM_SIZE (16 * 1024 * 1024) 32 64 1024 64
    (di_warp_size i) (di_max_clock_frequency i) (di_driver_version i) (di_firmware_version i)
    (di_simd_count i) (di_max_memory_clock_frequency i) (di_memory_bus_width i)
    (di_peak_fp32_gflops i) (di_pcie_bandwidth i) (di_architecture_id i) (di_marketing_name i));;
  mret 0.

(** [host_ptr] stays null. *)
Definition gpu_ioctl_alloc_bo env : drm_handler gpu_alloc_bo_args Z :=
  a ← args;
  require (negb (ab_domain a =? 0)) (- EINVAL);;
  '(ret, out) ← hal (MemAlloc (ab_size a));
  let gpu_va := default 0 out in
  require ((ret =? 0) && negb (gpu_va =? 0)) (- ENOMEM);;
  handle ← on_dev (fun d => let '(h, bits) := handle_allocate (allocated_bits_ d) in
                            (h, d <| allocated_bits_ := bits |>));
  if handle =? 0 then hal (MemFree gpu_va);; mret (- ENOMEM)
  else
    upd_dev (fun d => d <| bo_map_ ::=
      <[handle := mk_bo gpu_va (ab_size a) (ab_domain a) (ab_flags a) 0]> |>);;
    upd_args (fun a => a <| ab_handle := handle |> <| ab_gpu_va := gpu_va |>);;
    mret 0.

Definition gpu_ioctl_free_bo env : drm_handler gem_handle_arg Z :=
  a ← args; d ← dev;
  let handle := gem_handle a in
  require (negb (handle =? 0)) (- EINVAL);;
  require (handle_valid (allocated_bits_ d) handle) (- EINVAL);;
  match bo_map_ d !! handle with
  | Some bo => hal (MemFree (bo_gpu_va bo));; upd_dev (fun d => d <| bo_map_ ::= delete handle |>)
  | None => mret tt
  end;;
  upd_dev (fun d => d <| allocated_bits_ ::= fun b => (handle_release handle b).2 |>);;
  mret 0.

(** The device address, not a host pointer. *)
Definition gpu_ioctl_map_bo env : drm_handler gpu_map_bo_args Z :=
  a ← args; d ← dev;
  require (handle_valid (allocated_bits_ d) (mb_handle a)) (- EINVAL);;
  bo ← require_some (bo_map_ d !! mb_handle a) (- EINVAL);
  upd_args (fun a => a <| mb_gpu_va := bo_gpu_va bo |>);;
  mret 0.

(** ** Submission and fences *)
Definition gpu_ioctl_pushbuffer env : drm_handler gpu_pushbuffer_args Z :=
  a ← args;
  require (negb ((pb_count a =? 0) || (16 <? pb_count a))) (- EINVAL);;
  sync_entries (take (Z.to_nat (pb_count a)) (os_entries env)).

Definition drm_fence_poll (f : Z) (h : H) : bool * H :=
  let '((r, o), h) := hal_call (FenceIdCheck f) h in ((r =? 0) && default false o, h).
Fixpoint drm_wait_loop (tick : Z -> H -> H) (f timeout : Z) (fuel : nat) (elapsed : Z) (h : H) :
    option bool * H :=
  match fuel with
  | O => (None, h)
  | S fuel' =>
      if (elapsed <? timeout) || (timeout =? 0) then
        let '(signaled, h) := drm_fence_poll f h in
        if signaled then (Some true, h)
        else drm_wait_loop tick f timeout fuel' (u64 (elapsed + 1)) (tick elapsed h)
      else (Some false, h)
  end.
Definition gpu_ioctl_wait_fence env : drm_handler gpu_wait_fence_args (option Z) :=
  a ← args;
  r ← on_dev (fun d =>
    let '(r, h) := drm_wait_loop (os_tick env) (wf_fence_id a) (wf_timeout_ms a)
                     (wait_fuel (wf_timeout_ms a) (os_patience env)) 0 (hal_ d) in
    (r, d <| hal_ := h |>));
  match r with
  | None => mret None
  | Some signaled =>
      upd_args (fun a => a <| wf_status := if signaled : bool then 1 else 0 |>);; mret (Some 0)
  end.

(** ** Callbacks, and the handlers that forward to [GpgpuDevice::ioctl] *)
Definition gpu_ioctl_register_mmu_cb env : drm_handler gpu_mmu_event_cb_args Z :=
  a ← args; on_kfd (kfd_sim_register_mmu_cb (mc_callback_fn a) (mc_user_data a)).
Definition gpu_ioctl_register_firmware_cb env : drm_handler gpu_firmware_cb_args Z :=
  a ← args; on_kfd (kfd_sim_register_firmware_cb (fc_callback_fn a) (fc_user_data a)).

Definition drm_forward (req : Z) env (data : option ioctl_arg) (d : GpgpuDevice H) : ioctl_result H :=
  match data with
  | None => Returned (- EFAULT) None d
  | Some _ => ioctl env req data d
  end.

(** ** KFD *)
Definition gpu_ioctl_get_process_aperture env : drm_handler gpu_get_process_aperture_args Z :=
  a ← args;
  require (negb ((pa_num_nodes a =? 0) || (8 <? pa_num_nodes a))) (- EINVAL);;
  require (negb (pa_apertures_ptr a =? 0)) (- EFAULT);;
  let '(ret, infos) := kfd_sim_handle_get_process_aperture (pa_num_nodes a) (pa_apertures_ptr a) in
  (match infos with
   | [] => mret tt
   | _ => upd_dev (fun d => d <| copied_out ::= cons (pa_apertures_ptr a, infos) |>)
   end);;
  mret ret.

(** The queue handle is looked up among the buffer-object handles. *)
Definition gpu_ioctl_update_queue env : drm_handler gpu_update_queue_args Z :=
  a ← args; d ← dev;
  require (negb (uq_queue_handle a =? 0)) (- EINVAL);;
  require (negb (truthy (Z.land (uq_queue_flags a) (Z.lxor 15 (2 ^ 32 - 1))))) (- EINVAL);;
  require (handle_valid (allocated_bits_ d) (u32 (uq_queue_handle a))) (- EINVAL);;
  mret (kfd_sim_handle_update_queue (uq_queue_handle a) (uq_queue_flags a)).

Definition on_shim {A} (f : us_mm_shim -> us_mm_shim) : drm_handler A unit :=
  upd_dev (fun d => d <| g_state ::= fun s => s <| ks_mm_shim ::= fmap f |> |>).

Definition gpu_ioctl_map_memory env : drm_handler gpu_map_memory_args Z :=
  a ← args; d ← dev;
  require (handle_valid (allocated_bits_ d) (mm_handle a)) (- EINVAL);;
  require (negb ((mm_n_devices a =? 0) || (8 <? mm_n_devices a))) (- EINVAL);;
  require (negb (mm_size a =? 0)) (- EINVAL);;
  '(ret, a) ← on_kfd (kfd_sim_handle_map_memory a);
  upd_args (fun _ => a);;
  (if ret =? 0 then
     on_shim (fun m => (us_mm_shim_register_vma (mm_gpu_va a) (u64 (mm_gpu_va a + mm_size a)) 0 m).2)
   else mret tt);;
  mret ret.

(** The range unregistered is the buffer object's, not the one mapped. *)
Definition gpu_ioctl_unmap_memory env : drm_handler gpu_unmap_memory_args Z :=
  a ← args; d ← dev;
  require (handle_valid (allocated_bits_ d) (um_handle a)) (- EINVAL);;
  require (negb ((um_n_devices a =? 0) || (8 <? um_n_devices a))) (- EINVAL);;
  '(ret, a) ← on_kfd (kfd_sim_handle_unmap_memory a);
  upd_args (fun _ => a);;
  (if ret =? 0 then
     match bo_map_ d !! um_handle a with
     | Some bo => on_shim (fun m =>
         (us_mm_shim_unregister_vma (bo_gpu_va bo) (u64 (bo_gpu_va bo + bo_size bo)) m).2)
     | None => mret tt
     end
   else mret tt);;
  mret ret.

(** ** Stream capture, graphs, memory pools *)
Definition gpu_ioctl_stream_capture_begin env : drm_handler gpu_stream_capture_args Z :=
  a ← args; hal (CaptureBegin (sc_stream_id a) (sc_mode a)).
Definition gpu_ioctl_stream_capture_end env : drm_handler gpu_stream_capture_args Z :=
  upd_args (fun a => a <| sc_mode := 0 |>);;
  a ← args;
  '(ret, out) ← hal (CaptureEnd (sc_stream_id a));
  store out (fun g a => a <| sc_graph_handle_out := g |>);;
  mret ret.
Definition gpu_ioctl_stream_capture_status env : drm_handler gpu_stream_capture_status_args Z :=
  a ← args;
  '(ret, out) ← hal (CaptureStatus (ss_stream_id a));
  store out (fun s a => a <| ss_status_out := s |>);;
  mret ret.
Definition gpu_ioctl_graph_create env : drm_handler gpu_graph_create_args Z :=
  '(ret, out) ← hal GraphCreate;
  store out (fun g a => a <| gc_graph_handle_out := g |>);;
  mret ret.
Definition gpu_ioctl_graph_destroy env : drm_handler gpu_graph_destroy_args Z :=
  a ← args; hal (GraphDestroy (gd_graph_handle a)).
Definition gpu_ioctl_graph_add_kernel_node env : drm_handler gpu_graph_add_kernel_node_args Z :=
  a ← args;
  hal (GraphAddKernelNode (gk_graph_handle a) (gk_kernel_index a) (gk_grid_x a) (gk_grid_y a)
    (gk_grid_z a) (gk_block_x a) (gk_block_y a) (gk_block_z a) (gk_kernargs_bo_handle a)).
Definition gpu_ioctl_graph_add_memcpy_node env : drm_handler gpu_graph_add_memcpy_node_args Z :=
  a ← args;
  hal (GraphAddMemcpyNode (gm_graph_handle a) (gm_src_va a) (gm_dst_va a) (gm_size a)
    (s32 (gm_is_h2d a))).
Definition gpu_ioctl_graph_instantiate env : drm_handler gpu_graph_instantiate_args Z :=
  a ← args;
  '(ret, out) ← hal (GraphInstantiate (gi_graph_handle a));
  store out (fun x a => a <| gi_exec_handle_out := x |>);;
  mret ret.
Definition gpu_ioctl_graph_destroy_exec env : drm_handler gpu_graph_destroy_exec_args Z :=
  a ← args; hal (GraphDestroyExec (gx_exec_handle a)).
Definition gpu_ioctl_mem_pool_create env : drm_handler gpu_mem_pool_create_args Z :=
  a ← args;
  '(ret, out) ← hal (PoolCreate (pc_props a) (os_mmap_ok env));
  store out (fun '(h, base, limit) a => a <| pc_pool_handle_out := h |>
    <| pc_va_base := base |> <| pc_va_limit := limit |>);;
  mret ret.
Definition gpu_ioctl_mem_pool_destroy env : drm_handler gpu_mem_pool_destroy_args Z :=
  a ← args; hal (PoolDestroy (pd_pool_handle a)).
Definition gpu_ioctl_mem_pool_alloc env : drm_handler gpu_mem_pool_alloc_args Z :=
  a ← args;
  '(ret, out) ← hal (PoolAlloc (pl_pool_handle a) (pl_size a));
  store out (fun va a => a <| pl_va_out := va |>);;
  mret ret.
Definition gpu_ioctl_mem_pool_alloc_async env : drm_handler gpu_mem_pool_alloc_async_args Z :=
  a ← args;
  '(rc, out) ← hal (PoolAlloc (py_pool_handle a) (py_size a));
  store out (fun va a => a <| py_va_out := va |>);;
  require (rc =? 0) rc;;
  '(rc, out) ← hal (PoolAllocAsync (py_pool_handle a) (py_size a));
  require (rc =? 0) rc;;
  upd_args (fun a => a <| py_fence_id_out := default 0 out |>);;
  mret 0.
Definition gpu_ioctl_mem_pool_free_async env : drm_handler gpu_mem_pool_free_async_args Z :=
  a ← args;
  '(ret, out) ← hal (PoolFreeAsync 0 (pf_va a));
  store out (fun f a => a <| pf_fence_id_out := f |>);;
  mret ret.
Definition gpu_ioctl_mem_pool_set_attr env : drm_handler gpu_mem_pool_attr_args Z :=
  a ← args;
  sz ← require_some (attr_size (pt_attr a)) (- ENOSYS);
  hal (PoolSetAttr (pt_pool_handle a) (pt_attr a) (take (Z.to_nat sz) (blob_bytes (pt_value a)))).
Definition gpu_ioctl_mem_pool_get_attr env : drm_handler gpu_mem_pool_attr_args Z :=
  a ← args;
  sz ← require_some (attr_size (pt_attr a)) (- ENOSYS);
  upd_args (fun a => a <| pt_value := [0; 0; 0; 0] |>);;
  '(ret, out) ← hal (PoolGetAttr (pt_pool_handle a) (pt_attr a) sz);
  store out (fun bs a => a <| pt_value :=
    blob_words 4 (take 32 (bs ++ drop (length bs) (replicate 32 0))) |>);;
  mret ret.
Definition gpu_ioctl_mem_pool_trim env : drm_handler gpu_mem_pool_trim_args Z :=
  a ← args; hal (PoolTrim (pm_pool_handle a) (pm_min_bytes a)).
Definition gpu_ioctl_mem_pool_export env : drm_handler gpu_mem_pool_export_args Z :=
  a ← args;
  '(rc, out) ← hal (PoolExport (pe_pool_handle a) (pe_handle_type a) (pe_flags a) (os_pipe env));
  store out (fun fd a => a <| pe_fd_out := fd |>);;
  mret rc.

(** ** Dispatch *)
(** FREE_BO reads its argument without a check. *)
Definition on_unchecked {A} `{IoctlBuffer A} (m : os_answers H -> dev_handler A Z)
    env (data : option ioctl_arg) (d : GpgpuDevice H) : ioctl_result H :=
  match data with
  | None => WrongBuffer
  | Some _ => on_buffer m env data d
  end.
Definition on_drm_wait env (data : option ioctl_arg) (d : GpgpuDevice H) : ioctl_result H :=
  match data with
  | None => Returned (- EFAULT) None d
  | Some b =>
      match of_arg b with
      | None => WrongBuffer
      | Some a =>
          match gpu_ioctl_wait_fence env (d, a) with
          | (Go (Some r), (d, a)) | (Exit r, (d, a)) => Returned r (Some (to_arg a)) d
          | (Go None, _) => Blocks
          end
      end
  end.
Definition gpu_ioctls : list (IoctlEntry H) :=
  [mk_ioctl_entry GPU_IOCTL_GET_DEVICE_INFO "GET_DEVICE_INFO" (on_buffer gpu_ioctl_get_device_info);
   mk_ioctl_entry GPU_IOCTL_ALLOC_BO "ALLOC_BO" (on_buffer gpu_ioctl_alloc_bo);
   mk_ioctl_entry GPU_IOCTL_FREE_BO "FREE_BO" (on_unchecked gpu_ioctl_free_bo);
   mk_ioctl_entry GPU_IOCTL_MAP_BO "MAP_BO" (on_buffer gpu_ioctl_map_bo);
   mk_ioctl_entry GPU_IOCTL_PUSHBUFFER_SUBMIT_BATCH "PUSHBUFFER_SUBMIT_BATCH" (on_buffer gpu_ioctl_pushbuffer);
   mk_ioctl_entry GPU_IOCTL_WAIT_FENCE "WAIT_FENCE" (on_drm_wait);
   mk_ioctl_entry GPU_IOCTL_REGISTER_MMU_EVENT_CB "REGISTER_MMU_EVENT_CB" (on_buffer gpu_ioctl_register_mmu_cb);
   mk_ioctl_entry GPU_IOCTL_REGISTER_FIRMWARE_CB "REGISTER_FIRMWARE_CB" (on_buffer gpu_ioctl_register_firmware_cb);
   mk_ioctl_entry GPU_IOCTL_CREATE_VA_SPACE "CREATE_VA_SPACE" (drm_forward GPU_IOCTL_CREATE_VA_SPACE);
   mk_ioctl_entry GPU_IOCTL_DESTROY_VA_SPACE "DESTROY_VA_SPACE" (drm_forward GPU_IOCTL_DESTROY_VA_SPACE);
   mk_ioctl_entry GPU_IOCTL_REGISTER_GPU "REGISTER_GPU" (drm_forward GPU_IOCTL_REGISTER_GPU);
   mk_ioctl_entry GPU_IOCTL_CREATE_QUEUE "CREATE_QUEUE" (drm_forward GPU_IOCTL_CREATE_QUEUE);
   mk_ioctl_entry GPU_IOCTL_DESTROY_QUEUE "DESTROY_QUEUE" (drm_forward GPU_IOCTL_DESTROY_QUEUE);
   mk_ioctl_entry GPU_IOCTL_MAP_QUEUE_RING "MAP_QUEUE_RING" (drm_forward GPU_IOCTL_MAP_QUEUE_RING);
   mk_ioctl_entry GPU_IOCTL_QUERY_QUEUE "QUERY_QUEUE" (drm_forward GPU_IOCTL_QUERY_QUEUE);
   mk_ioctl_entry GPU_IOCTL_GET_PROCESS_APERTURE "GET_PROCESS_APERTURE" (on_buffer gpu_ioctl_get_process_aperture);
   mk_ioctl_entry GPU_IOCTL_UPDATE_QUEUE "UPDATE_QUEUE" (on_buffer gpu_ioctl_update_queue);
   mk_ioctl_entry GPU_IOCTL_MAP_MEMORY "MAP_MEMORY" (on_buffer gpu_ioctl_map_memory);
   mk_ioctl_entry GPU_IOCTL_UNMAP_MEMORY "UNMAP_MEMORY" (on_buffer gpu_ioctl_unmap_memory);
   mk_ioctl_entry GPU_IOCTL_STREAM_CAPTURE_BEGIN "STREAM_CAPTURE_BEGIN" (on_buffer gpu_ioctl_stream_capture_begin);
   mk_ioctl_entry GPU_IOCTL_STREAM_CAPTURE_END "STREAM_CAPTURE_END" (on_buffer gpu_ioctl_stream_capture_end);
   mk_ioctl_entry GPU_IOCTL_STREAM_CAPTURE_STATUS "STREAM_CAPTURE_STATUS" (on_buffer gpu_ioctl_stream_capture_status);
   mk_ioctl_entry GPU_IOCTL_GRAPH_CREATE "GRAPH_CREATE" (on_buffer gpu_ioctl_graph_create);
   mk_ioctl_entry GPU_IOCTL_GRAPH_DESTROY "GRAPH_DESTROY" (on_buffer gpu_ioctl_graph_destroy);
   mk_ioctl_entry GPU_IOCTL_GRAPH_ADD_KERNEL_NODE "GRAPH_ADD_KERNEL_NODE" (on_buffer gpu_ioctl_graph_add_kernel_node);
   mk_ioctl_entry GPU_IOCTL_GRAPH_ADD_MEMCPY_NODE "GRAPH_ADD_MEMCPY_NODE" (on_buffer gpu_ioctl_graph_add_memcpy_node);
   mk_ioctl_entry GPU_IOCTL_GRAPH_INSTANTIATE "GRAPH_INSTANTIATE" (on_buffer gpu_ioctl_graph_instantiate);
   mk_ioctl_entry GPU_IOCTL_GRAPH_LAUNCH "GRAPH_LAUNCH" (drm_forward GPU_IOCTL_GRAPH_LAUNCH);
   mk_ioctl_entry GPU_IOCTL_GRAPH_DESTROY_EXEC "GRAPH_DESTROY_EXEC" (on_buffer gpu_ioctl_graph_destroy_exec);
   mk_ioctl_entry GPU_IOCTL_MEM_POOL_CREATE "MEM_POOL_CREATE" (on_buffer gpu_ioctl_mem_pool_create);
   mk_ioctl_entry GPU_IOCTL_MEM_POOL_DESTROY "MEM_POOL_DESTROY" (on_buffer gpu_ioctl_mem_pool_destroy);
   mk_ioctl_entry GPU_IOCTL_MEM_POOL_ALLOC "MEM_POOL_ALLOC" (on_buffer gpu_ioctl_mem_pool_alloc);
   mk_ioctl_entry GPU_IOCTL_MEM_POOL_ALLOC_ASYNC "MEM_POOL_ALLOC_ASYNC" (on_buffer gpu_ioctl_mem_pool_alloc_async);
   mk_ioctl_entry GPU_IOCTL_MEM_POOL_FREE_ASYNC "MEM_POOL_FREE_ASYNC" (on_buffer gpu_ioctl_mem_pool_free_async);
   mk_ioctl_entry GPU_IOCTL_MEM_POOL_SET_ATTR "MEM_POOL_SET_ATTR" (on_buffer gpu_ioctl_mem_pool_set_attr);
   mk_ioctl_entry GPU_IOCTL_MEM_POOL_GET_ATTR "MEM_POOL_GET_ATTR" (on_buffer gpu_ioctl_mem_pool_get_attr);
   mk_ioctl_entry GPU_IOCTL_MEM_POOL_TRIM "MEM_POOL_TRIM" (on_buffer gpu_ioctl_mem_pool_trim);
   mk_ioctl_entry GPU_IOCTL_MEM_POOL_EXPORT "MEM_POOL_EXPORT" (on_buffer gpu_ioctl_mem_pool_export)].
Definition drm_ioctl env (cmd : Z) (argp : option ioctl_arg) (d : GpgpuDevice H) : ioctl_result H :=
  match List.find (fun e => request e =? cmd) gpu_ioctls with
  | Some e => handler_of e env argp d
  | None => Returned (- EINVAL) argp d
  end.
End Drm.
Arguments drm_ioctl {H HAL} env cmd argp d : simpl never.
Arguments gpu_ioctls {H HAL} : simpl never.

(** ** The two tables *)
Section Tables.
  Context {H : Type} `{HAL : GpuHal H}.
  Implicit Types d : GpgpuDevice H.

Definition shared_requests : list Z :=
  [GPU_IOCTL_REGISTER_MMU_EVENT_CB; GPU_IOCTL_REGISTER_FIRMWARE_CB; GPU_IOCTL_CREATE_VA_SPACE;
   GPU_IOCTL_DESTROY_VA_SPACE; GPU_IOCTL_REGISTER_GPU; GPU_IOCTL_CREATE_QUEUE; GPU_IOCTL_DESTROY_QUEUE;
   GPU_IOCTL_MAP_QUEUE_RING; GPU_IOCTL_QUERY_QUEUE; GPU_IOCTL_GET_PROCESS_APERTURE;
   GPU_IOCTL_STREAM_CAPTURE_BEGIN; GPU_IOCTL_STREAM_CAPTURE_END; GPU_IOCTL_STREAM_CAPTURE_STATUS;
   GPU_IOCTL_GRAPH_CREATE; GPU_IOCTL_GRAPH_DESTROY; GPU_IOCTL_GRAPH_ADD_KERNEL_NODE;
   GPU_IOCTL_GRAPH_ADD_MEMCPY_NODE; GPU_IOCTL_GRAPH_INSTANTIATE; GPU_IOCTL_GRAPH_LAUNCH;
   GPU_IOCTL_GRAPH_DESTROY_EXEC; GPU_IOCTL_MEM_POOL_CREATE; GPU_IOCTL_MEM_POOL_DESTROY;
   GPU_IOCTL_MEM_POOL_ALLOC; GPU_IOCTL_MEM_POOL_ALLOC_ASYNC; GPU_IOCTL_MEM_POOL_FREE_ASYNC;
   GPU_IOCTL_MEM_POOL_SET_ATTR; GPU_IOCTL_MEM_POOL_GET_ATTR; GPU_IOCTL_MEM_POOL_TRIM;
   GPU_IOCTL_MEM_POOL_EXPORT].

Lemma forward_agrees req env argp d :
  ioctl env req None d = Returned (- EFAULT) None d -> drm_forward req env argp d = ioctl env req argp d.
Proof. by destruct argp. Qed.

(** The guards repeated before the KFD call change nothing. *)
Lemma aperture_agrees env (s : GpgpuDevice H * gpu_get_process_aperture_args) :
  run_handler (gpu_ioctl_get_process_aperture env) s = run_handler (handleGetProcessAperture env) s.
Proof.
  destruct s as [d a]. unfold gpu_ioctl_get_process_aperture, handleGetProcessAperture,
    kfd_sim_handle_get_process_aperture, bad_devices. run_simpl.
  destruct ((pa_num_nodes a =? 0) || (8 <? pa_num_nodes a)); [done|]. simpl.
  by destruct (pa_apertures_ptr a =? 0).
Qed.
Lemma buffer_agrees {A} `{IoctlBuffer A} (m m' : os_answers H -> dev_handler A Z) env argp d :
  (forall s, run_handler (m env) s = run_handler (m' env) s) -> on_buffer m env argp d = on_buffer m' env argp d.
Proof. intros Hm. unfold on_buffer. destruct argp as [b|]; [|done]. destruct (of_arg b); [|done]. by rewrite Hm. Qed.

(** Both tables dispatch to a handler with the same body. *)
Tactic Notation "same_handler" uconstr(h) uconstr(h') :=
  match goal with |- drm_ioctl ?env _ ?argp ?d = _ =>
    let t := constr:(on_buffer h env argp d = on_buffer h' env argp d) in
    change t; reflexivity
  end.
Ltac forwarded :=
  match goal with |- drm_ioctl ?env ?c ?argp ?d = _ =>
    change (drm_forward c env argp d = ioctl env c argp d); apply forward_agrees; reflexivity
  end.
Lemma shared_agree env argp d :
  Forall (fun req => drm_ioctl env req argp d = ioctl env req argp d) shared_requests.
Proof.
  unfold shared_requests. repeat apply Forall_cons_2; try apply Forall_nil_2.
  - same_handler gpu_ioctl_register_mmu_cb handleRegisterMMUCB.
  - same_handler gpu_ioctl_register_firmware_cb handleRegisterFirmwareCB.
  - forwarded.
  - forwarded.
  - forwarded.
  - forwarded.
  - forwarded.
  - forwarded.
  - forwarded.
  - change (on_buffer gpu_ioctl_get_process_aperture env argp d = on_buffer handleGetProcessAperture env argp d).
    apply buffer_agrees, aperture_agrees.
  - same_handler gpu_ioctl_stream_capture_begin handleStreamCaptureBegin.
  - same_handler gpu_ioctl_stream_capture_end handleStreamCaptureEnd.
  - same_handler gpu_ioctl_stream_capture_status handleStreamCaptureStatus.
  - same_handler gpu_ioctl_graph_create handleGraphCreate.
  - same_handler gpu_ioctl_graph_destroy handleGraphDestroy.
  - same_handler gpu_ioctl_graph_add_kernel_node handleGraphAddKernelNode.
  - same_handler gpu_ioctl_graph_add_memcpy_node handleGraphAddMemcpyNode.
  - same_handler gpu_ioctl_graph_instantiate handleGraphInstantiate.
  - forwarded.
  - same_handler gpu_ioctl_graph_destroy_exec handleGraphDestroyExec.
  - same_handler gpu_ioctl_mem_pool_create handleMemPoolCreate.
  - same_handler gpu_ioctl_mem_pool_destroy handleMemPoolDestroy.
  - same_handler gpu_ioctl_mem_pool_alloc handleMemPoolAlloc.
  - same_handler gpu_ioctl_mem_pool_alloc_async handleMemPoolAllocAsync.
  - same_handler gpu_ioctl_mem_pool_free_async handleMemPoolFreeAsync.
  - same_handler gpu_ioctl_mem_pool_set_attr handleMemPoolSetAttr.
  - same_handler gpu_ioctl_mem_pool_get_attr handleMemPoolGetAttr.
  - same_handler gpu_ioctl_mem_pool_trim handleMemPoolTrim.
  - same_handler gpu_ioctl_mem_pool_export handleMemPoolExport.
Qed.

(** *** The requests implemented twice, with differences *)
(** The entry a request dispatches to, by evaluation. *)
Tactic Notation "handlers" uconstr(h) uconstr(h') :=
  match goal with |- context [drm_ioctl ?env ?req ?argp ?d] =>
    let t := constr:(on_buffer h env argp d) in let t' := constr:(on_buffer h' env argp d) in
    change (drm_ioctl env req argp d) with t; change (ioctl env req argp d) with t'; unfold on_buffer
  end.
(** The first eight fields of the device's answer, and the other fields. *)
Definition info_head (i : gpu_device_info) : list Z :=
  [di_vendor_id i; di_device_id i; di_vram_size i; di_bar0_size i; di_max_channels i; di_compute_units i;
   di_gpfifo_capacity i; di_cache_line_size i].
Definition info_tail (i : gpu_device_info) : list Z * string :=
  ([di_warp_size i; di_max_clock_frequency i; di_driver_version i; di_firmware_version i; di_simd_count i;
    di_max_memory_clock_frequency i; di_memory_bus_width i; di_peak_fp32_gflops i; di_pcie_bandwidth i;
    di_architecture_id i], di_marketing_name i).
Lemma device_info_differs env (i : gpu_device_info) d :
  exists j, drm_ioctl env GPU_IOCTL_GET_DEVICE_INFO (Some (to_arg i)) d = Returned 0 (Some (to_arg j)) d /\
    info_head j = info_head device_info /\ info_tail j = info_tail i /\
    ioctl env GPU_IOCTL_GET_DEVICE_INFO (Some (to_arg i)) d = Returned 0 (Some (to_arg device_info)) d.
Proof.
  exists (mk_di 4096 4097 SIMULATED_VRAM_SIZE (16 * 1024 * 1024) 32 64 1024 64
    (di_warp_size i) (di_max_clock_frequency i) (di_driver_version i) (di_firmware_version i)
    (di_simd_count i) (di_max_memory_clock_frequency i) (di_memory_bus_width i)
    (di_peak_fp32_gflops i) (di_pcie_bandwidth i) (di_architecture_id i) (di_marketing_name i)).
  handlers gpu_ioctl_get_device_info handleGetDeviceInfo. split; [reflexivity|]. split; [reflexivity|]. split; reflexivity.
Qed.

Definition with_host_ptr (handle va : Z) d : GpgpuDevice H :=
  let '(p, h) := hal_call (HeapPtr va) (hal_ d) in
  d <| hal_ := h |> <| bo_map_ ::= alter (fun bo => mk_bo (bo_gpu_va bo) (bo_size bo) (bo_domain bo) (bo_flags bo) p) handle |>.
Ltac alloc_same := do 4 eexists; split; [reflexivity|]; split; reflexivity.
Lemma alloc_differs env (a : gpu_alloc_bo_args) d :
  exists r a' d1 d2, drm_ioctl env GPU_IOCTL_ALLOC_BO (Some (to_arg a)) d = Returned r (Some (to_arg a')) d1 /\
    ioctl env GPU_IOCTL_ALLOC_BO (Some (to_arg a)) d = Returned r (Some (to_arg a')) d2 /\
    d2 = if r =? 0 then with_host_ptr (ab_handle a') (ab_gpu_va a') d1 else d1.
Proof.
  handlers gpu_ioctl_alloc_bo handleAllocBo. simpl of_arg. cbv iota.
  unfold gpu_ioctl_alloc_bo, handleAllocBo. run_simpl.
  destruct (negb (ab_domain a =? 0)); simpl; [|alloc_same].
  destruct (hal_call (MemAlloc (ab_size a)) (hal_ d)) as [[ret out] h1]. simpl.
  destruct ((ret =? 0) && negb (default 0 out =? 0)); simpl; [|alloc_same].
  destruct (handle_allocate (allocated_bits_ d)) as [i bits]. simpl. destruct (i =? 0); simpl.
  - destruct (hal_call (MemFree (default 0 out)) h1) as [rf h2]. simpl. alloc_same.
  - unfold with_host_ptr. destruct (hal_call (HeapPtr (default 0 out)) h1) as [p h2] eqn:E. simpl.
    eexists _, _, _, _. split; [reflexivity|]. split; [reflexivity|]. simpl. rewrite E. unfold field_upd. simpl.
    rewrite alter_insert_eq. done.
Qed.

Lemma map_bo_differs env a d :
  match (if handle_valid (allocated_bits_ d) (mb_handle a) then bo_map_ d !! mb_handle a else None) with
  | Some bo =>
      drm_ioctl env GPU_IOCTL_MAP_BO (Some (to_arg a)) d =
        Returned 0 (Some (to_arg (a <| mb_gpu_va := bo_gpu_va bo |>))) d /\
      ioctl env GPU_IOCTL_MAP_BO (Some (to_arg a)) d =
        Returned 0 (Some (to_arg (a <| mb_gpu_va := host_ptr bo |>))) d
  | None =>
      drm_ioctl env GPU_IOCTL_MAP_BO (Some (to_arg a)) d = Returned (- EINVAL) (Some (to_arg a)) d /\
      ioctl env GPU_IOCTL_MAP_BO (Some (to_arg a)) d = Returned (- EINVAL) (Some (to_arg a)) d
  end.
Proof.
  handlers gpu_ioctl_map_bo handleMapBo. simpl of_arg. cbv iota. unfold gpu_ioctl_map_bo, handleMapBo. run_simpl.
  destruct (handle_valid (allocated_bits_ d) (mb_handle a)); simpl; [|done]. by destruct (bo_map_ d !! mb_handle a).
Qed.

Lemma encode_checks_silent {A} es (s : GpgpuDevice H * A) : (forall p h, (hal_call (MethodEncode p) h).2 = h) ->
  encode_checks es s = (Go tt, s).
Proof.
  intros Hp. revert s. induction es as [|e es IH]; intros s; [done|]. cbn [encode_checks]. unfold encode_check.
  unfold mbind, handler_bind. destruct (valid e =? 0); simpl; [apply IH|]. unfold hal, mret, handler_ret.
  match goal with |- context [hal_call (MethodEncode ?p) _] => specialize (Hp p (hal_ s.1)) end. destruct (hal_call _ (hal_ s.1)) as [o h]. simpl in Hp. subst h.
  rewrite IH. by destruct s as [[] ?].
Qed.
(** Without a VA space, and with no puller or a fence among the entries. *)
Lemma pushbuffer_agrees env a d : (forall p h, (hal_call (MethodEncode p) h).2 = h) ->
  pb_va_space_handle a = 0 -> puller_ d = 0 \/ has_fence (take (Z.to_nat (pb_count a)) (os_entries env)) = true ->
  drm_ioctl env GPU_IOCTL_PUSHBUFFER_SUBMIT_BATCH (Some (to_arg a)) d =
  ioctl env GPU_IOCTL_PUSHBUFFER_SUBMIT_BATCH (Some (to_arg a)) d.
Proof.
  intros Hp Hv Hs. handlers gpu_ioctl_pushbuffer handlePushbufferSubmitBatch. simpl of_arg. cbv iota.
  enough (gpu_ioctl_pushbuffer env (d, a) = handlePushbufferSubmitBatch env (d, a)) as E by (unfold run_handler; by rewrite E).
  unfold gpu_ioctl_pushbuffer, handlePushbufferSubmitBatch, args, dev, mbind, handler_bind. cbn [fst snd].
  destruct (negb _); simpl; [|done]. rewrite Hv. simpl.
  rewrite encode_checks_silent by done.
  destruct Hs as [-> | ->]; [done|]. by rewrite andb_false_r.
Qed.
Lemma pushbuffer_refused env a d : pb_count a = 0 \/ 16 < pb_count a ->
  drm_ioctl env GPU_IOCTL_PUSHBUFFER_SUBMIT_BATCH (Some (to_arg a)) d = Returned (- EINVAL) (Some (to_arg a)) d /\
  ioctl env GPU_IOCTL_PUSHBUFFER_SUBMIT_BATCH (Some (to_arg a)) d = Returned (- EINVAL) (Some (to_arg a)) d.
Proof.
  intros Hc. handlers gpu_ioctl_pushbuffer handlePushbufferSubmitBatch. simpl of_arg. cbv iota.
  unfold gpu_ioctl_pushbuffer, handlePushbufferSubmitBatch. run_simpl.
  by replace ((pb_count a =? 0) || (16 <? pb_count a)) with true by lia.
Qed.

(** From [SIM_FENCE_ID_BASE] on both poll the simulation's fences. *)
Lemma wait_loops_agree tick f timeout fuel elapsed h : SIM_FENCE_ID_BASE <= f ->
  drm_wait_loop tick f timeout fuel elapsed h = wait_loop tick f timeout fuel elapsed h.
Proof.
  intros Hf. revert elapsed h. induction fuel as [|fuel IH]; intros elapsed h; [done|]. simpl.
  destruct (_ || _); [|done]. unfold fence_poll. replace (f <? SIM_FENCE_ID_BASE) with false by lia.
  unfold drm_fence_poll. destruct (hal_call (FenceIdCheck f) h) as [[r o] h']. by destruct (_ && _).
Qed.
Lemma wait_agrees env a d : SIM_FENCE_ID_BASE <= wf_fence_id a ->
  drm_ioctl env GPU_IOCTL_WAIT_FENCE (Some (to_arg a)) d = ioctl env GPU_IOCTL_WAIT_FENCE (Some (to_arg a)) d.
Proof.
  intros Hf. change (on_drm_wait env (Some (A_wait_fence a)) d = on_wait handleWaitFence env (Some (A_wait_fence a)) d).
  unfold on_drm_wait, on_wait. simpl of_arg. cbv iota.
  enough (gpu_ioctl_wait_fence env (d, a) = handleWaitFence env (d, a)) as -> by done.
  unfold gpu_ioctl_wait_fence, handleWaitFence, args, on_dev, mbind, handler_bind. cbn [fst snd]. by rewrite wait_loops_agree.
Qed.

Lemma update_queue_differs env a d :
  drm_ioctl env GPU_IOCTL_UPDATE_QUEUE (Some (to_arg a)) d =
    if handle_valid (allocated_bits_ d) (u32 (uq_queue_handle a))
    then ioctl env GPU_IOCTL_UPDATE_QUEUE (Some (to_arg a)) d
    else Returned (- EINVAL) (Some (to_arg a)) d.
Proof.
  handlers gpu_ioctl_update_queue handleUpdateQueue. simpl of_arg. cbv iota.
  unfold gpu_ioctl_update_queue, handleUpdateQueue, kfd_sim_handle_update_queue. run_simpl.
  destruct (uq_queue_handle a =? 0); simpl; [by destruct (handle_valid _ _)|].
  destruct (truthy _); simpl; [by destruct (handle_valid _ _)|]. by destruct (handle_valid _ _).
Qed.

(** The DRM handler also works on the shim's areas. *)
Definition on_areas (f : us_mm_shim -> us_mm_shim) d : GpgpuDevice H := d <| g_state ::= fun s => s <| ks_mm_shim ::= fmap f |> |>.
Lemma map_memory_differs env (a : gpu_map_memory_args) d :
  exists r a' d2, ioctl env GPU_IOCTL_MAP_MEMORY (Some (to_arg a)) d = Returned r (Some (to_arg a')) d2 /\
    drm_ioctl env GPU_IOCTL_MAP_MEMORY (Some (to_arg a)) d = Returned r (Some (to_arg a'))
      (if r =? 0 then on_areas (fun m => (us_mm_shim_register_vma (mm_gpu_va a') (u64 (mm_gpu_va a' + mm_size a')) 0 m).2) d2 else d2).
Proof.
  handlers gpu_ioctl_map_memory handleMapMemory. simpl of_arg. cbv iota.
  unfold gpu_ioctl_map_memory, handleMapMemory, on_kfd. run_simpl.
  destruct (handle_valid (allocated_bits_ d) (mm_handle a)); simpl; [|by exists (- EINVAL), a, d].
  destruct (bad_devices (mm_n_devices a)) eqn:Eb; unfold bad_devices in Eb; rewrite Eb; simpl.
  { unfold kfd_sim_handle_map_memory, bad_devices. rewrite Eb. destruct (mm_size a =? 0); simpl;
      exists (- EINVAL), a, d; (split; [by destruct d|done]). }
  destruct (mm_size a =? 0) eqn:Es; simpl.
  { unfold kfd_sim_handle_map_memory. rewrite Es. simpl. exists (- EINVAL), a, d. split; [by destruct d|done]. }
  destruct (kfd_sim_handle_map_memory a (g_state d)) as [[r a'] s']. simpl. eexists _, _, _. split; [reflexivity|].
  by destruct (r =? 0).
Qed.
Lemma unmap_memory_differs env (a : gpu_unmap_memory_args) d :
  exists r (a' : gpu_unmap_memory_args) d2, ioctl env GPU_IOCTL_UNMAP_MEMORY (Some (to_arg a)) d = Returned r (Some (to_arg a')) d2 /\
    drm_ioctl env GPU_IOCTL_UNMAP_MEMORY (Some (to_arg a)) d = Returned r (Some (to_arg a'))
      (match bo_map_ d !! um_handle a with
       | Some bo => if r =? 0
           then on_areas (fun m => (us_mm_shim_unregister_vma (bo_gpu_va bo) (u64 (bo_gpu_va bo + bo_size bo)) m).2) d2 else d2
       | None => d2
       end).
Proof.
  handlers gpu_ioctl_unmap_memory handleUnmapMemory. simpl of_arg. cbv iota.
  unfold gpu_ioctl_unmap_memory, handleUnmapMemory, on_kfd. run_simpl.
  destruct (handle_valid (allocated_bits_ d) (um_handle a)); simpl; [|exists (- EINVAL), a, d; split; [done|]; by destruct (bo_map_ d !! um_handle a)].
  destruct (bad_devices (um_n_devices a)) eqn:Eb; unfold bad_devices in Eb; rewrite Eb; simpl.
  { unfold kfd_sim_handle_unmap_memory, bad_devices. rewrite Eb. simpl. exists (- EINVAL), a, d. split; [by destruct d|]. by destruct (bo_map_ d !! um_handle a). }
  destruct (kfd_sim_handle_unmap_memory a (g_state d)) as [[r a'] s'] eqn:E.
  assert (um_handle a' = um_handle a) as Eh by (unfold kfd_sim_handle_unmap_memory in E; repeat case_match; by simplify_eq).
  simpl. rewrite Eh. eexists _, _, _. split; [reflexivity|].
  destruct (r =? 0); simpl; by destruct (bo_map_ d !! um_handle a).
Qed.

(** C27. The DRM-style table against the device's own, request by request.  29
    requests give the same result, argument and device state, errors included, for
    every argument; so does FREE_BO of a non-null argument.  GET_DEVICE_INFO
    writes the same first eight fields and leaves the others.  ALLOC_BO answers
    alike and leaves out the host pointer.  MAP_BO is refused alike and stores the
    device address instead of the host pointer.  PUSHBUFFER is refused alike for
    its count, and agrees without a VA space when there is no puller or a fence
    among the entries (and encoding changes nothing).  WAIT_FENCE agrees from
    [SIM_FENCE_ID_BASE] on.  UPDATE_QUEUE agrees for handles of buffer objects and
    is refused else.  MAP_MEMORY and UNMAP_MEMORY answer alike and also register
    or unregister an area.  The kernel-image requests exist only in the device's
    table. *)
Theorem drm_table_agrees env argp d :
  (forall req, req ∈ shared_requests -> drm_ioctl env req argp d = ioctl env req argp d) /\
  (argp <> None -> drm_ioctl env GPU_IOCTL_FREE_BO argp d = ioctl env GPU_IOCTL_FREE_BO argp d) /\
  (forall i : gpu_device_info, exists j, drm_ioctl env GPU_IOCTL_GET_DEVICE_INFO (Some (to_arg i)) d = Returned 0 (Some (to_arg j)) d /\
     info_head j = info_head device_info /\ info_tail j = info_tail i /\
     ioctl env GPU_IOCTL_GET_DEVICE_INFO (Some (to_arg i)) d = Returned 0 (Some (to_arg device_info)) d) /\
  (forall a : gpu_alloc_bo_args, exists r a' d1 d2, drm_ioctl env GPU_IOCTL_ALLOC_BO (Some (to_arg a)) d = Returned r (Some (to_arg a')) d1 /\
     ioctl env GPU_IOCTL_ALLOC_BO (Some (to_arg a)) d = Returned r (Some (to_arg a')) d2 /\
     d2 = if r =? 0 then with_host_ptr (ab_handle a') (ab_gpu_va a') d1 else d1) /\
  (forall a,
     match (if handle_valid (allocated_bits_ d) (mb_handle a) then bo_map_ d !! mb_handle a else None) with
     | Some bo =>
         drm_ioctl env GPU_IOCTL_MAP_BO (Some (to_arg a)) d =
           Returned 0 (Some (to_arg (a <| mb_gpu_va := bo_gpu_va bo |>))) d /\
         ioctl env GPU_IOCTL_MAP_BO (Some (to_arg a)) d =
           Returned 0 (Some (to_arg (a <| mb_gpu_va := host_ptr bo |>))) d
     | None =>
         drm_ioctl env GPU_IOCTL_MAP_BO (Some (to_arg a)) d = Returned (- EINVAL) (Some (to_arg a)) d /\
         ioctl env GPU_IOCTL_MAP_BO (Some (to_arg a)) d = Returned (- EINVAL) (Some (to_arg a)) d
     end) /\
  (forall a, pb_count a = 0 \/ 16 < pb_count a ->
     drm_ioctl env GPU_IOCTL_PUSHBUFFER_SUBMIT_BATCH (Some (to_arg a)) d = Returned (- EINVAL) (Some (to_arg a)) d /\
     ioctl env GPU_IOCTL_PUSHBUFFER_SUBMIT_BATCH (Some (to_arg a)) d = Returned (- EINVAL) (Some (to_arg a)) d) /\
  (forall a, (forall p h, (hal_call (MethodEncode p) h).2 = h) -> pb_va_space_handle a = 0 ->
     puller_ d = 0 \/ has_fence (take (Z.to_nat (pb_count a)) (os_entries env)) = true ->
     drm_ioctl env GPU_IOCTL_PUSHBUFFER_SUBMIT_BATCH (Some (to_arg a)) d =
     ioctl env GPU_IOCTL_PUSHBUFFER_SUBMIT_BATCH (Some (to_arg a)) d) /\
  (forall a, SIM_FENCE_ID_BASE <= wf_fence_id a ->
     drm_ioctl env GPU_IOCTL_WAIT_FENCE (Some (to_arg a)) d = ioctl env GPU_IOCTL_WAIT_FENCE (Some (to_arg a)) d) /\
  (forall a, drm_ioctl env GPU_IOCTL_UPDATE_QUEUE (Some (to_arg a)) d =
     if handle_valid (allocated_bits_ d) (u32 (uq_queue_handle a))
     then ioctl env GPU_IOCTL_UPDATE_QUEUE (Some (to_arg a)) d
     else Returned (- EINVAL) (Some (to_arg a)) d) /\
  (forall a : gpu_map_memory_args, exists r a' d2, ioctl env GPU_IOCTL_MAP_MEMORY (Some (to_arg a)) d = Returned r (Some (to_arg a')) d2 /\
     drm_ioctl env GPU_IOCTL_MAP_MEMORY (Some (to_arg a)) d = Returned r (Some (to_arg a'))
       (if r =? 0 then on_areas (fun m => (us_mm_shim_register_vma (mm_gpu_va a') (u64 (mm_gpu_va a' + mm_size a')) 0 m).2) d2 else d2)) /\
  (forall a : gpu_unmap_memory_args, exists r (a' : gpu_unmap_memory_args) d2, ioctl env GPU_IOCTL_UNMAP_MEMORY (Some (to_arg a)) d = Returned r (Some (to_arg a')) d2 /\
     drm_ioctl env GPU_IOCTL_UNMAP_MEMORY (Some (to_arg a)) d = Returned r (Some (to_arg a'))
       (match bo_map_ d !! um_handle a with
        | Some bo => if r =? 0
            then on_areas (fun m => (us_mm_shim_unregister_vma (bo_gpu_va bo) (u64 (bo_gpu_va bo + bo_size bo)) m).2) d2 else d2
        | None => d2
        end)) /\
  (forall req, req ∈ [GPU_IOCTL_LOAD_KERNEL_MODULE; GPU_IOCTL_LAUNCH_KERNEL_MODULE; GPU_IOCTL_UNLOAD_KERNEL_MODULE] ->
     drm_ioctl env req argp d = Returned (- EINVAL) argp d).
Proof.
  split; [apply Forall_forall, shared_agree|]. split; [by destruct argp|].
  split; [intros; apply device_info_differs|]. split; [intros; apply alloc_differs|]. split; [intros; apply map_bo_differs|].
  split; [intros; by apply pushbuffer_refused|]. split; [intros; by apply pushbuffer_agrees|].
  split; [intros; by apply wait_agrees|]. split; [intros; apply update_queue_differs|].
  split; [intros; apply map_memory_differs|]. split; [intros; apply unmap_memory_differs|].
  intros req Hr. repeat (apply elem_of_cons in Hr as [->|Hr]; [reflexivity|]). by apply elem_of_nil in Hr.
Qed.
End Tables.
