(* ===== verification/KfdPasid.v ===== *)
(** * The PASID allocator

    [plugins/gpu_driver/drv/kfd/kfd_pasid.c]: a bitmap of 65536 bits kept in
    1024 words, searched from a hint.  The theorem says that it implements a
    finite set of process address space ids. *)
From S2P Require Import Prelude.

Definition MAX_PASID : Z := 0xFFFF.
Definition BITMAP_BITS : Z := MAX_PASID + 1.
Definition BITMAP_WORDS : Z := (MAX_PASID + 1 + 63) / 64.

(** ** The bitmap *)
Definition test_bit (bit : Z) (bm : list Z) : bool :=
  truthy (Z.land (Z.shiftr (bm !!! Z.to_nat (bit / 64)) (bit mod 64)) 1).
Definition set_bit (bit : Z) (bm : list Z) : list Z :=
  alter (fun w => Z.lor w (Z.shiftl 1 (bit mod 64))) (Z.to_nat (bit / 64)) bm.
Definition clear_bit (bit : Z) (bm : list Z) : list Z :=
  alter (fun w => Z.land w (u64 (Z.lnot (Z.shiftl 1 (bit mod 64))))) (Z.to_nat (bit / 64)) bm.

(** ** The allocator's state and operations *)
Record pasid_state := mk_pasid_state {
  pasid_bitmap : list Z;
  pasid_initialized : bool;
  pasid_exited : bool;
  pasid_count : Z;
  next_free_hint : Z
}.
#[export] Instance eta_pasid_state : Eta pasid_state := fun s =>
  mk_pasid_state (pasid_bitmap s) (pasid_initialized s) (pasid_exited s) (pasid_count s) (next_free_hint s).

Definition zero_bitmap : list Z := replicate (Z.to_nat BITMAP_WORDS) 0.
Definition pasid_start : pasid_state := mk_pasid_state zero_bitmap false false 0 1.

Definition lazy_init (s : pasid_state) : pasid_state :=
  if pasid_exited s then s
  else if pasid_initialized s then s
  else s <| pasid_bitmap := set_bit 0 zero_bitmap |> <| pasid_count := 0 |>
         <| next_free_hint := 1 |> <| pasid_initialized := true |>.

Definition kfd_pasid_init (s : pasid_state) : Z * pasid_state :=
  (0, lazy_init (s <| pasid_exited := false |>)).
Definition kfd_pasid_exit (s : pasid_state) : pasid_state :=
  s <| pasid_initialized := false |> <| pasid_exited := true |>
    <| pasid_count := 0 |> <| next_free_hint := 1 |>.

(** The loop of at most [BITMAP_BITS] probes, from the hint, past 0. *)
Fixpoint probe (n : nat) (hint : Z) (bm : list Z) : option Z :=
  match n with
  | O => None
  | S n' =>
      let idx := if MAX_PASID <? hint then 1 else hint in
      let idx := if idx =? 0 then 1 else idx in
      if negb (test_bit idx bm) then Some idx
      else
        let hint := hint + 1 in
        probe n' (if MAX_PASID <? hint then 1 else hint) bm
  end.

(** Returns the code, [*out_pasid] when it is written, and the state. *)
Definition kfd_allocate_pasid (s : pasid_state) : Z * option Z * pasid_state :=
  let s := lazy_init s in
  if pasid_exited s then (- ENOSPC, None, s)
  else
    match probe (Z.to_nat BITMAP_BITS) (next_free_hint s) (pasid_bitmap s) with
    | Some idx =>
        let hint := idx + 1 in
        (0, Some (u32 idx),
         s <| pasid_bitmap ::= set_bit idx |> <| pasid_count ::= Z.succ |>
           <| next_free_hint := if MAX_PASID <? hint then 1 else hint |>)
    | None => (- ENOSPC, None, s)
    end.

Definition kfd_free_pasid (pasid : Z) (s : pasid_state) : Z * pasid_state :=
  if (pasid =? 0) || (MAX_PASID <? pasid) then (- EINVAL, s)
  else if negb (pasid_initialized s) || negb (test_bit pasid (pasid_bitmap s)) then (- EINVAL, s)
  else
    let s := s <| pasid_bitmap ::= clear_bit pasid |> <| pasid_count ::= Z.pred |> in
    (0, if pasid <? next_free_hint s then s <| next_free_hint := pasid |> else s).

Definition kfd_pasid_allocated_count (s : pasid_state) : Z := pasid_count s.

(** ** Bits *)
Definition is_bit (b : Z) : Prop := 0 <= b < BITMAP_BITS.
Definition bits_ok (bm : list Z) : Prop := length bm = Z.to_nat BITMAP_WORDS.

Lemma land_one_testbit w n : 0 <= n -> truthy (Z.land (Z.shiftr w n) 1) = Z.testbit w n.
Proof.
  intros Hn. unfold truthy. rewrite (land_ones_mod _ 1) by lia. change (2 ^ 1) with 2.
  rewrite <- (Z.add_0_l n) at 2. rewrite <- Z.shiftr_spec by lia. rewrite Z.bit0_odd, Zmod_odd.
  by destruct (Z.odd _).
Qed.
Lemma testbit_set w n i : 0 <= n -> 0 <= i ->
  Z.testbit (Z.lor w (Z.shiftl 1 n)) i = (i =? n) || Z.testbit w i.
Proof.
  intros Hn Hi. rewrite Z.lor_spec, Z.shiftl_1_l, Z.pow2_bits_eqb, orb_comm by lia.
  by rewrite Z.eqb_sym.
Qed.
Lemma testbit_clear w n i : 0 <= n -> 0 <= i < 64 ->
  Z.testbit (Z.land w (u64 (Z.lnot (Z.shiftl 1 n)))) i = negb (i =? n) && Z.testbit w i.
Proof.
  intros Hn Hi. unfold u64. rewrite Z.land_spec, Z.mod_pow2_bits_low by lia.
  rewrite Z.lnot_spec, Z.shiftl_1_l, Z.pow2_bits_eqb, andb_comm by lia. by rewrite Z.eqb_sym.
Qed.

(** A word operation that agrees with [g] on each bit of its word acts as [g]
    on the bitmap. *)
Lemma test_bit_alter (f : Z -> Z -> Z) (g : bool -> bool -> bool) bm b b' :
  bits_ok bm -> is_bit b -> is_bit b' ->
  (forall w n i, 0 <= n -> 0 <= i < 64 -> Z.testbit (f n w) i = g (i =? n) (Z.testbit w i)) ->
  (forall x, g false x = x) ->
  test_bit b' (alter (f (b mod 64)) (Z.to_nat (b / 64)) bm) = g (b' =? b) (test_bit b' bm).
Proof.
  unfold bits_ok, is_bit, BITMAP_BITS, BITMAP_WORDS, MAX_PASID. intros Hl Hb Hb' Hf Hg.
  change ((0xFFFF + 1 + 63) / 64) with 1024 in Hl.
  pose proof (Z.mod_pos_bound b 64 ltac:(lia)). pose proof (Z.mod_pos_bound b' 64 ltac:(lia)).
  pose proof (Z.div_mod b 64 ltac:(lia)). pose proof (Z.div_mod b' 64 ltac:(lia)).
  unfold test_bit. rewrite !land_one_testbit by lia.
  destruct (decide (Z.to_nat (b' / 64) = Z.to_nat (b / 64))) as [E|E].
  - assert (b' / 64 = b / 64) as Eq by (apply Z2Nat.inj; lia). rewrite E.
    destruct (lookup_lt_is_Some_2 bm (Z.to_nat (b / 64)) ltac:(lia)) as [w Hw].
    rewrite !list_lookup_total_alt, list_lookup_alter, decide_True, Hw by done. simpl.
    rewrite Hf by lia. f_equal. rewrite Eq in *. destruct (Z.eqb_spec (b' mod 64) (b mod 64)), (Z.eqb_spec b' b); lia.
  - rewrite !list_lookup_total_alt, list_lookup_alter, decide_False by congruence.
    destruct (Z.eqb_spec b' b) as [->|_]; [done|]. by rewrite Hg.
Qed.

Lemma test_set_bit bm b b' : bits_ok bm -> is_bit b -> is_bit b' ->
  test_bit b' (set_bit b bm) = (b' =? b) || test_bit b' bm.
Proof.
  intros Hl Hb Hb'. apply (test_bit_alter (fun n w => Z.lor w (Z.shiftl 1 n)) orb); auto.
  intros. apply testbit_set; lia.
Qed.
Lemma test_clear_bit bm b b' : bits_ok bm -> is_bit b -> is_bit b' ->
  test_bit b' (clear_bit b bm) = negb (b' =? b) && test_bit b' bm.
Proof.
  intros Hl Hb Hb'.
  apply (test_bit_alter (fun n w => Z.land w (u64 (Z.lnot (Z.shiftl 1 n)))) (fun x y => negb x && y)); auto.
  intros. apply testbit_clear; lia.
Qed.
Lemma bits_ok_set b bm : bits_ok bm -> bits_ok (set_bit b bm).
Proof. unfold bits_ok, set_bit. by rewrite length_alter. Qed.
Lemma bits_ok_clear b bm : bits_ok bm -> bits_ok (clear_bit b bm).
Proof. unfold bits_ok, clear_bit. by rewrite length_alter. Qed.
Lemma bits_ok_zero : bits_ok zero_bitmap.
Proof. unfold bits_ok, zero_bitmap. apply length_replicate. Qed.
Lemma test_bit_zero b : is_bit b -> test_bit b zero_bitmap = false.
Proof.
  unfold is_bit, BITMAP_BITS, MAX_PASID. intros Hb. unfold test_bit, zero_bitmap.
  rewrite list_lookup_total_alt, lookup_replicate_2; [by rewrite Z.shiftr_0_l|].
  change (Z.to_nat BITMAP_WORDS) with 1024%nat.
  pose proof (Z.div_lt_upper_bound b 64 1024 ltac:(lia) ltac:(lia)).
  pose proof (Z.div_pos b 64 ltac:(lia) ltac:(lia)). lia.
Qed.

(** ** The set of allocated ids *)
#[global] Opaque zero_bitmap set_bit clear_bit test_bit.
Definition pasids : list Z := seqZ 1 MAX_PASID.
#[global] Opaque pasids.
Definition live (s : pasid_state) : gset Z :=
  if pasid_initialized s then list_to_set (filter (fun p => test_bit p (pasid_bitmap s) = true) pasids)
  else ∅.

Lemma elem_of_pasids p : p ∈ pasids <-> 1 <= p <= MAX_PASID.
Proof. Local Transparent pasids. unfold pasids. rewrite elem_of_seqZ. Local Opaque pasids. unfold MAX_PASID. lia. Qed.
Lemma elem_of_live p s :
  p ∈ live s <-> pasid_initialized s = true /\ 1 <= p <= MAX_PASID /\ test_bit p (pasid_bitmap s) = true.
Proof.
  unfold live. destruct (pasid_initialized s); [|set_solver].
  rewrite elem_of_list_to_set, list_elem_of_filter, elem_of_pasids. naive_solver.
Qed.
Lemma live_off s : pasid_initialized s = false -> live s = ∅.
Proof. unfold live. by intros ->. Qed.
#[global] Opaque live.

Lemma size_pasids : size (list_to_set pasids : gset Z) = Z.to_nat MAX_PASID.
Proof.
  Local Transparent pasids. rewrite size_list_to_set by apply NoDup_seqZ. unfold pasids.
  exact (length_seqZ 1 MAX_PASID). Local Opaque pasids.
Qed.
Lemma full_live s : (forall p, 1 <= p <= MAX_PASID -> p ∈ live s) -> size (live s) = Z.to_nat MAX_PASID.
Proof.
  intros H. enough (live s = list_to_set pasids) as -> by exact size_pasids.
  apply leibniz_equiv. intros p. rewrite elem_of_list_to_set, elem_of_pasids. split; [|auto].
  intros (_ & Hp & _)%elem_of_live. done.
Qed.

Record pasid_inv (s : pasid_state) : Prop := {
  inv_bits : bits_ok (pasid_bitmap s);
  inv_zero : pasid_initialized s = true -> pasid_exited s = false /\ test_bit 0 (pasid_bitmap s) = true;
  inv_hint : 1 <= next_free_hint s <= MAX_PASID;
  inv_count : pasid_count s = Z.of_nat (size (live s))
}.

(** *** The circular search *)
Lemma probe_spec bm n h : 1 <= h <= MAX_PASID ->
  match probe n h bm with
  | Some p => exists k, (k < n)%nat /\ p = cyc h k /\ test_bit p bm = false /\
                forall j, (j < k)%nat -> test_bit (cyc h j) bm = true
  | None => forall j, (j < n)%nat -> test_bit (cyc h j) bm = true
  end.
Proof.
  revert h. induction n as [|n IH]; intros h Hh; cbn [probe]; [lia|].
  replace (MAX_PASID <? h) with false by lia. replace (h =? 0) with false by lia.
  destruct (test_bit h bm) eqn:E; simpl.
  - set (h' := if MAX_PASID <? h + 1 then 1 else h + 1).
    assert (1 <= h' <= MAX_PASID) as Hh'.
    { unfold h', MAX_PASID in *. destruct (Z.ltb_spec 0xFFFF (h + 1)); lia. }
    assert (forall j m, (forall i, (i < j)%nat -> test_bit (cyc h' i) bm = true) ->
              (m < S j)%nat -> test_bit (cyc h m) bm = true) as Hstep.
    { intros j m Hj Hm. destruct m as [|m]; [by rewrite cyc_0|]. rewrite cyc_S by done. apply Hj. lia. }
    specialize (IH h' Hh'). destruct (probe n h' bm).
    + destruct IH as (k & ? & ? & ? & ?). exists (S k). rewrite cyc_S by done. eauto with lia.
    + eauto.
  - exists 0%nat. rewrite cyc_0 by done. repeat split; [lia|done|lia].
Qed.

(** ** The operations on the set *)
Lemma live_set s p : bits_ok (pasid_bitmap s) -> pasid_initialized s = true -> 1 <= p <= MAX_PASID ->
  forall s', pasid_initialized s' = true -> pasid_bitmap s' = set_bit p (pasid_bitmap s) ->
  live s' = {[p]} ∪ live s.
Proof.
  intros Hb Hi Hp s' Hi' Hs'. apply leibniz_equiv. intros q.
  rewrite elem_of_union, elem_of_singleton, !elem_of_live, Hs', Hi, Hi'.
  destruct (decide (1 <= q <= MAX_PASID)); [|naive_solver lia].
  rewrite test_set_bit by (unfold is_bit, BITMAP_BITS in *; auto; lia).
  destruct (Z.eqb_spec q p); naive_solver.
Qed.
Lemma live_clear s p : bits_ok (pasid_bitmap s) -> pasid_initialized s = true -> 1 <= p <= MAX_PASID ->
  forall s', pasid_initialized s' = true -> pasid_bitmap s' = clear_bit p (pasid_bitmap s) ->
  live s' = live s ∖ {[p]}.
Proof.
  intros Hb Hi Hp s' Hi' Hs'. apply leibniz_equiv. intros q.
  rewrite elem_of_difference, elem_of_singleton, !elem_of_live, Hs', Hi, Hi'.
  destruct (decide (1 <= q <= MAX_PASID)); [|naive_solver lia].
  rewrite test_clear_bit by (unfold is_bit, BITMAP_BITS in *; auto; lia).
  destruct (Z.eqb_spec q p); naive_solver.
Qed.

Lemma lazy_init_ok s : pasid_inv s ->
  pasid_inv (lazy_init s) /\ live (lazy_init s) = live s /\
  pasid_exited (lazy_init s) = pasid_exited s /\
  pasid_initialized (lazy_init s) = negb (pasid_exited s).
Proof.
  intros [Hb Hz Hh Hc]. unfold lazy_init. destruct (pasid_exited s) eqn:Ex.
  { split; [by split; rewrite ?Ex|]. split; [done|]. split; [done|].
    destruct (pasid_initialized s); [by destruct (Hz eq_refl)|done]. }
  destruct (pasid_initialized s) eqn:Ei; [split; [by split; rewrite ?Ex, ?Ei|]; auto|].
  assert (forall s', pasid_initialized s' = true -> pasid_bitmap s' = set_bit 0 zero_bitmap -> live s' = ∅) as Hl.
  { intros s' _ Hs'. apply leibniz_equiv. intros q. rewrite elem_of_live, Hs'. split; [|set_solver].
    intros (_ & Hq & Ht). unfold MAX_PASID in Hq.
    rewrite test_set_bit, test_bit_zero in Ht;
      [|unfold is_bit, BITMAP_BITS, MAX_PASID; lia|apply bits_ok_zero|unfold is_bit, BITMAP_BITS, MAX_PASID; lia..].
    destruct (Z.eqb_spec q 0); [lia|done]. }
  assert (live s = ∅) as Hl0 by by apply live_off.
  set (s' := field_upd _ _). assert (live s' = ∅) as Hl' by (apply (Hl s'); reflexivity).
  assert (live s' = live s) as Hls by congruence.
  refine (conj _ (conj Hls (conj Ex eq_refl))). split.
  - apply bits_ok_set, bits_ok_zero.
  - intros _. split; [exact Ex|]. change (test_bit 0 (set_bit 0 zero_bitmap) = true).
    rewrite test_set_bit; [reflexivity|exact bits_ok_zero|unfold is_bit, BITMAP_BITS, MAX_PASID; lia..].
  - change (1 <= 1 <= MAX_PASID). unfold MAX_PASID. lia.
  - rewrite Hl'. reflexivity.
Qed.

Lemma size_live_bound s : (size (live s) <= Z.to_nat MAX_PASID)%nat.
Proof.
  rewrite <- size_pasids. apply subseteq_size. intros p (_ & Hp & _)%elem_of_live.
  by rewrite elem_of_list_to_set, elem_of_pasids.
Qed.
Lemma full_live_inv s p : size (live s) = Z.to_nat MAX_PASID -> 1 <= p <= MAX_PASID -> p ∈ live s.
Proof.
  intros Hs Hp. enough (live s ≡ list_to_set pasids) as -> by by rewrite elem_of_list_to_set, elem_of_pasids.
  apply set_subseteq_size_equiv.
  - intros q (_ & Hq & _)%elem_of_live. by rewrite elem_of_list_to_set, elem_of_pasids.
  - by rewrite size_pasids, Hs.
Qed.

Lemma allocate_ok s : pasid_inv s ->
  match kfd_allocate_pasid s with
  | (ret, out, s') =>
      pasid_inv s' /\ pasid_exited s' = pasid_exited s /\
      match out with
      | Some p => ret = 0 /\ pasid_exited s = false /\ 1 <= p <= MAX_PASID /\
          first_free_from (next_free_hint (lazy_init s)) (live s) p /\ live s' = {[p]} ∪ live s
      | None => ret = - ENOSPC /\ live s' = live s /\
          (pasid_exited s = true \/ size (live s) = Z.to_nat MAX_PASID)
      end
  end.
Proof.
  intros Hinv. destruct (lazy_init_ok s Hinv) as (Hinv' & Hl & He & Hi). unfold kfd_allocate_pasid.
  generalize dependent (lazy_init s). intros t [Hb Hz Hh Hc] Hl He Hi.
  assert (pasid_inv t) as Hti by by split.
  destruct (pasid_exited t) eqn:Ex.
  { split; [done|]. split; [by rewrite Ex|]. auto. }
  rewrite <- He in Hi |- *. simpl in Hi. pose proof (probe_spec (pasid_bitmap t) (Z.to_nat BITMAP_BITS) _ Hh) as Hp.
  assert (forall q, 1 <= q <= MAX_PASID -> test_bit q (pasid_bitmap t) = true -> q ∈ live s) as Hin.
  { intros q Hq Ht. rewrite <- Hl. by apply elem_of_live. }
  destruct (probe _ _ _) as [p|].
  - destruct Hp as (k & _ & Hk & Ht & Hj). assert (1 <= p <= MAX_PASID) as Hr by (subst p; apply cyc_range).
    rewrite u32_id by (unfold MAX_PASID in Hr; lia).
    assert (p ∉ live s) as Hnew by (rewrite <- Hl, elem_of_live; intros (_ & _ & ?); congruence).
    set (s' := field_upd _ _). assert (live s' = {[p]} ∪ live s) as Hl' by (rewrite <- Hl; by eapply live_set).
    destruct (Hz Hi) as [_ Hz0].
    split; [split|].
    + by apply bits_ok_set.
    + intros _. split; [done|]. change (test_bit 0 (set_bit p (pasid_bitmap t)) = true).
      rewrite test_set_bit; [by rewrite Hz0, orb_true_r|done|unfold is_bit, BITMAP_BITS, MAX_PASID in *; lia..].
    + change (1 <= (if MAX_PASID <? p + 1 then 1 else p + 1) <= MAX_PASID).
      unfold MAX_PASID in *. destruct (Z.ltb_spec 0xFFFF (p + 1)); lia.
    + rewrite Hl', size_union, size_singleton by set_solver.
      change (pasid_count s') with (Z.succ (pasid_count t)). rewrite Hc, Hl. lia.
    + split; [done|]. repeat split; try done; try lia. exists k. repeat split; try done.
      intros j ?. apply Hin; [apply cyc_range|auto].
  - split; [exact Hti|]. split; [done|]. split; [done|]. split; [done|]. right.
    apply full_live. intros q Hq. apply Hin; [done|].
    destruct (cyc_surj _ q Hh Hq) as (k & ? & ->). apply Hp. unfold BITMAP_BITS, MAX_PASID. lia.
Qed.

(** An id free at the hint is taken. *)
Lemma alloc_at_hint p s : pasid_inv s -> pasid_initialized s = true -> next_free_hint s = p ->
  p ∉ live s -> (kfd_allocate_pasid s).1 = (0, Some p).
Proof.
  intros Hs Hi Hh Hp. destruct (inv_zero s Hs Hi) as [He _]. pose proof (inv_hint s Hs) as Hr.
  pose proof (allocate_ok s Hs) as Ha. destruct (kfd_allocate_pasid s) as [[ret out] s'].
  assert (lazy_init s = s) as El by (unfold lazy_init; by rewrite He, Hi). rewrite El, Hh in Ha.
  destruct Ha as (_ & _ & Ha). destruct out as [q|].
  - destruct Ha as (-> & _ & _ & (k & -> & _ & Hk) & _). simpl. destruct k as [|k].
    + by rewrite cyc_0 by (subst p; done).
    + exfalso. apply Hp. rewrite <- (cyc_0 p) at 1 by (subst p; done). apply Hk. lia.
  - destruct Ha as (_ & _ & [?|Hfull]); [congruence|]. exfalso. apply Hp.
    apply full_live_inv; [done|]. by subst p.
Qed.

Lemma free_ok p s : is_u32 p -> pasid_inv s ->
  match kfd_free_pasid p s with
  | (ret, s') => pasid_inv s' /\ pasid_exited s' = pasid_exited s /\
      if decide (p ∈ live s) then
        ret = 0 /\ live s' = live s ∖ {[p]} /\ next_free_hint s' = Z.min p (next_free_hint s) /\
        pasid_initialized s' = true
      else ret = - EINVAL /\ s' = s
  end.
Proof.
  intros Hu Hinv. pose proof Hinv as [Hb Hz Hh Hc]. unfold kfd_free_pasid.
  destruct (decide (p ∈ live s)) as [(Hi & Hp & Ht)%elem_of_live|Hn].
  - replace (p =? 0) with false by lia. replace (MAX_PASID <? p) with false by lia. rewrite Hi, Ht. simpl.
    set (s1 := field_upd Z.pred _).
    set (s' := if p <? next_free_hint s1 then s1 <| next_free_hint := p |> else s1).
    change (pasid_inv s' /\ pasid_exited s' = pasid_exited s /\ 0 = 0 /\ live s' = live s ∖ {[p]} /\
      next_free_hint s' = Z.min p (next_free_hint s) /\ pasid_initialized s' = true).
    assert (pasid_initialized s' = true) as Hi' by (unfold s', s1; by destruct (p <? _)).
    assert (pasid_bitmap s' = clear_bit p (pasid_bitmap s)) as Hb' by (unfold s', s1; by destruct (p <? _)).
    assert (pasid_exited s' = pasid_exited s) as He' by (unfold s', s1; by destruct (p <? _)).
    assert (pasid_count s' = pasid_count s - 1) as Hc' by (unfold s', s1; by destruct (p <? _)).
    assert (next_free_hint s' = Z.min p (next_free_hint s)) as Hh'.
    { unfold s'. change (next_free_hint s1) with (next_free_hint s).
      destruct (Z.ltb_spec p (next_free_hint s)).
      - change (p = Z.min p (next_free_hint s)). lia.
      - change (next_free_hint s = Z.min p (next_free_hint s)). lia. }
    assert (live s' = live s ∖ {[p]}) as Hl' by (by eapply live_clear).
    destruct (Hz Hi) as [He Hz0].
    split; [split|split; [exact He'|by auto]].
    + rewrite Hb'. by apply bits_ok_clear.
    + intros _. rewrite He'. split; [done|]. rewrite Hb', test_clear_bit; [|done|unfold is_bit, BITMAP_BITS, MAX_PASID in *; lia..].
      rewrite Hz0. by destruct (Z.eqb_spec 0 p); [lia|].
    + rewrite Hh'. unfold MAX_PASID in *. lia.
    + rewrite Hc', Hl', Hc. assert (p ∈ live s) as Hin by (apply elem_of_live; auto).
      rewrite size_difference, size_singleton by set_solver.
      assert (size (live s) <> 0%nat) by (intros E%size_empty_inv; set_solver). lia.
  - destruct ((p =? 0) || (MAX_PASID <? p)) eqn:Er; [auto|].
    destruct (pasid_initialized s) eqn:Ei; simpl; [|auto].
    destruct (test_bit p (pasid_bitmap s)) eqn:Et; simpl; [|auto].
    exfalso. apply Hn, elem_of_live. apply orb_false_iff in Er as [?%Z.eqb_neq ?%Z.ltb_ge].
    repeat split; auto; lia.
Qed.

(** ** Call sequences *)
Inductive pasid_call := PInit | PExit | PAlloc | PFree (pasid : Z).
Definition pasid_do (c : pasid_call) (s : pasid_state) : pasid_state :=
  match c with
  | PInit => (kfd_pasid_init s).2
  | PExit => kfd_pasid_exit s
  | PAlloc => (kfd_allocate_pasid s).2
  | PFree p => (kfd_free_pasid (u32 p) s).2
  end.
Definition pasid_run (cs : list pasid_call) (s : pasid_state) : pasid_state :=
  fold_left (fun s c => pasid_do c s) cs s.

Lemma pasid_start_inv : pasid_inv pasid_start.
Proof.
  split; [apply bits_ok_zero|done|unfold pasid_start, MAX_PASID; simpl; lia|].
  rewrite live_off by done. reflexivity.
Qed.
Lemma init_exit_inv s : pasid_inv s ->
  pasid_inv (kfd_pasid_init s).2 /\ pasid_inv (kfd_pasid_exit s).
Proof.
  intros [Hb Hz Hh Hc]. split.
  - apply lazy_init_ok. split; try done. intros Hi. by destruct (Hz Hi).
  - split; [exact Hb|done|change (1 <= 1 <= MAX_PASID); unfold MAX_PASID; lia|].
    rewrite live_off by done. reflexivity.
Qed.
Lemma pasid_do_inv c s : pasid_inv s -> pasid_inv (pasid_do c s).
Proof.
  intros Hs. destruct c as [| | |p]; simpl.
  - by apply init_exit_inv.
  - by apply init_exit_inv.
  - pose proof (allocate_ok s Hs). destruct (kfd_allocate_pasid s) as [[] ?]. tauto.
  - pose proof (free_ok (u32 p) s (u32_range p) Hs). destruct (kfd_free_pasid _ s). tauto.
Qed.
Lemma pasid_run_inv cs s : pasid_inv s -> pasid_inv (pasid_run cs s).
Proof.
  revert s. induction cs as [|c cs IH]; intros s Hs; [done|]. by apply IH, pasid_do_inv.
Qed.

(** C7. After any calls the allocator implements the set of its live ids: the
    count is its size; allocation returns the first id in 1..65535 that is not
    live at or after the hint, cyclically, and fails only after
    [kfd_pasid_exit] or when all 65535 ids are live; freeing succeeds exactly
    on live ids and a freed id below the hint is the next one allocated. *)
Theorem pasid_refines_set cs :
  let s := pasid_run cs pasid_start in
  kfd_pasid_allocated_count s = Z.of_nat (size (live s)) /\
  (forall q, q ∈ live s -> 1 <= q <= 0xFFFF) /\
  (match kfd_allocate_pasid s with
   | (ret, Some p, s') => ret = 0 /\ pasid_exited s = false /\ 1 <= p <= 0xFFFF /\
       first_free_from (next_free_hint (lazy_init s)) (live s) p /\ live s' = {[p]} ∪ live s
   | (ret, None, s') => ret = - ENOSPC /\ live s' = live s /\
       (pasid_exited s = true \/ Z.of_nat (size (live s)) = 0xFFFF)
   end) /\
  (forall p, is_u32 p ->
     match kfd_free_pasid p s with
     | (ret, s') =>
         if decide (p ∈ live s) then ret = 0 /\ live s' = live s ∖ {[p]} /\
           (p < next_free_hint s -> (kfd_allocate_pasid s').1 = (0, Some p))
         else ret = - EINVAL /\ s' = s
     end).
Proof.
  intros s. assert (pasid_inv s) as Hs by apply pasid_run_inv, pasid_start_inv. clearbody s. clear cs.
  split; [apply Hs|]. split; [by intros q (_ & Hq & _)%elem_of_live|]. split.
  - pose proof (allocate_ok s Hs) as Ha. destruct (kfd_allocate_pasid s) as [[ret [p|]] s'].
    + destruct Ha as (_ & _ & Ha). exact Ha.
    + destruct Ha as (_ & _ & ? & ? & [?|Hn]); [auto|]. split; [done|]. split; [done|]. right.
      rewrite Hn. unfold MAX_PASID. lia.
  - intros p Hp. pose proof (free_ok p s Hp Hs) as Hf. destruct (kfd_free_pasid p s) as [ret s'].
    destruct Hf as (Hs' & He & Hf). destruct (decide (p ∈ live s)) as [Hin|]; [|exact Hf].
    destruct Hf as (-> & Hl & Hh & Hi). split; [done|]. split; [done|]. intros Hlt.
    rewrite Z.min_l in Hh by lia. apply alloc_at_hint; [done|done|done|]. rewrite Hl. set_solver.
Qed.
