(* ===== verification/KfdProcess.v ===== *)
(** * The KFD process table

    [plugins/gpu_driver/drv/kfd/kfd_process.c] over the PASID allocator: the
    list of live processes, most recent first, and the process objects they
    point to.  Objects are named by their addresses; [malloc] is an argument
    that gives a fresh address or fails. *)
From S2P Require Import Prelude KfdBridge KfdPasid.

(** ** Data ([kfd_priv.h]) *)
Record kfd_node := mk_kfd_node { node_addr : Z; node_id : Z; node_xcc_mask : Z }.
(** [process] is the owner's address; [dev] the node it points to. *)
Record kfd_process_device := mk_pdd { pdd_dev : kfd_node; pdd_process : Z; drm_priv : Z }.

(** The lists of queues and of SVM ranges of a process stay empty. *)
Record kfd_process := mk_kfd_process {
  kp_pid : Z;
  kp_pasid : Z;
  n_queues : Z;
  kp_doorbell_id : Z;
  doorbell_kernel_addr : Z;
  n_pdds : Z;
  pdds : list (option kfd_process_device);
  kp_mm_shim : option us_mm_shim
}.
Definition MAX_KFD_DEVICES : Z := 8.

Record kfd_processes := mk_kfd_processes {
  pasid_ : pasid_state;
  objects : gmap Z kfd_process;
  processes_head : list Z;
  processes_count : Z;
  initialized : bool
}.
#[export] Instance eta_kfd_processes : Eta kfd_processes := fun s =>
  mk_kfd_processes (pasid_ s) (objects s) (processes_head s) (processes_count s) (initialized s).

(** The static state at load time. *)
Definition processes_start : kfd_processes := mk_kfd_processes pasid_start ∅ [] 0 false.

(** The answers of the three [malloc] calls of [kfd_process_create]. *)
Record malloc_answers := mk_malloc { m_entry : bool; m_process : option Z; m_shim : bool }.

(** ** Operations *)
Definition kfd_process_init (s : kfd_processes) : Z * kfd_processes :=
  (0, if initialized s then s
      else s <| processes_head := [] |> <| processes_count := 0 |> <| initialized := true |>).

Fixpoint list_del (q : Z) (l : list Z) : list Z :=
  match l with
  | [] => []
  | q' :: l' => if q' =? q then l' else q' :: list_del q l'
  end.
(** Unlink and free the process at [q]. *)
Definition release_process (q : Z) (s : kfd_processes) : kfd_processes :=
  match objects s !! q with
  | Some p => s <| processes_head ::= list_del q |> <| processes_count ::= Z.pred |>
                <| pasid_ ::= fun t => (kfd_free_pasid (kp_pasid p) t).2 |> <| objects ::= delete q |>
  | None => s
  end.

Fixpoint exit_loop (l : list Z) (s : kfd_processes) : kfd_processes :=
  match l with
  | [] => s
  | q :: l' => exit_loop l' (release_process q s)
  end.
Definition kfd_process_exit (s : kfd_processes) : kfd_processes :=
  if negb (initialized s) then s else exit_loop (processes_head s) s <| initialized := false |>.

Definition pid_of (s : kfd_processes) (q : Z) : option Z := kp_pid <$> objects s !! q.
Definition find_pid (pid : Z) (s : kfd_processes) : option Z :=
  List.find (fun q => bool_decide (pid_of s q = Some pid)) (processes_head s).

Definition new_process (pid pasid : Z) (shim : us_mm_shim) : kfd_process :=
  mk_kfd_process pid pasid 0 0 0 0 (replicate 8 None) (Some shim).

(** The code, and the pointer stored through [out]. *)
Definition kfd_process_create (m : malloc_answers) (pid : Z) :
    handler kfd_processes (Z * option Z) (Z * option Z) :=
  s ← get_st;
  require (bool_decide (find_pid pid s = None)) (- EBUSY, None);;
  require (m_entry m) (- ENOMEM, None);;
  q ← require_some (m_process m) (- ENOMEM, None);
  let '(ret, out, t) := kfd_allocate_pasid (pasid_ s) in
  modify_st (fun s => s <| pasid_ := t |>);;
  pasid ← require_some out (ret, None);
  (if m_shim m then mret tt
   else modify_st (fun s => s <| pasid_ ::= fun t => (kfd_free_pasid pasid t).2 |>);;
        exit_with (- ENOMEM, None));;
  modify_st (fun s => s <| objects ::= <[q := new_process pid pasid (us_mm_shim_init (u64 pid))]> |>
    <| processes_head ::= cons q |> <| processes_count ::= Z.succ |>);;
  mret (0, Some q).

(** [p = 0] is the null pointer. *)
Definition kfd_process_destroy (p : Z) : handler kfd_processes Z Z :=
  require (truthy p) (- EINVAL);;
  s ← get_st;
  require (bool_decide (p ∈ processes_head s)) (- ENOENT);;
  modify_st (release_process p);;
  mret 0.

Definition kfd_process_find_by_pid (pid : Z) (s : kfd_processes) : Z * option Z :=
  match find_pid pid s with
  | Some q => (0, Some q)
  | None => (- ENOENT, None)
  end.

(** [*out_gpuid] and [*out_gpuidx]; [n_pdds] is at most the array's length. *)
Definition kfd_process_gpuid_from_node (p : option kfd_process) (dev : option kfd_node) : Z * option (Z * Z) :=
  match p, dev with
  | Some p, Some dev =>
      let is_dev '(i, d) :=
        match d with Some d => node_addr (pdd_dev d) =? node_addr dev | None => false end in
      match List.find is_dev (zip (seqZ 0 (n_pdds p)) (pdds p)) with
      | Some (i, _) => (0, Some (node_id dev, i))
      | None => (- ENOENT, None)
      end
  | _, _ => (- EINVAL, None)
  end.

(** ** The invariant *)
Record process_inv (s : kfd_processes) : Prop := {
  pi_pasid : pasid_inv (pasid_ s) /\ pasid_exited (pasid_ s) = false;
  pi_nodup : NoDup (processes_head s);
  pi_objects : forall q, q ∈ processes_head s -> q <> 0 /\ is_Some (objects s !! q);
  pi_count : processes_count s = Z.of_nat (length (processes_head s));
  pi_pids : forall q q', q ∈ processes_head s -> q' ∈ processes_head s -> pid_of s q = pid_of s q' -> q = q';
  pi_live : forall q p, objects s !! q = Some p -> kp_pasid p ∈ live (pasid_ s);
  pi_inj : forall q q' p p', objects s !! q = Some p -> objects s !! q' = Some p' ->
             kp_pasid p = kp_pasid p' -> q = q';
  pi_all : forall a, a ∈ live (pasid_ s) -> exists q p, objects s !! q = Some p /\ kp_pasid p = a
}.

Lemma list_del_elem q q' l : NoDup l -> q' ∈ list_del q l <-> q' ∈ l /\ q' <> q.
Proof.
  induction 1 as [|x l Hx Hl IH]; simpl; [set_solver|].
  destruct (Z.eqb_spec x q) as [->|Hq]; [set_solver|]. rewrite !elem_of_cons, IH. naive_solver.
Qed.
Lemma list_del_nodup q l : NoDup l -> NoDup (list_del q l).
Proof.
  induction 1 as [|x l Hx Hl IH]; simpl; [constructor|].
  destruct (Z.eqb_spec x q); [done|]. constructor; [|done]. rewrite list_del_elem by done. tauto.
Qed.
Lemma list_del_length q l : q ∈ l -> length l = S (length (list_del q l)).
Proof.
  induction l as [|x l IH]; simpl; [set_solver|]. intros H.
  destruct (Z.eqb_spec x q); [done|]. simpl. f_equal. apply IH. set_solver.
Qed.

Lemma find_pid_spec s pid : process_inv s ->
  match find_pid pid s with
  | Some q => q ∈ processes_head s /\ pid_of s q = Some pid
  | None => forall q, q ∈ processes_head s -> pid_of s q <> Some pid
  end.
Proof.
  intros _. unfold find_pid. destruct (List.find _ _) as [q|] eqn:E.
  - apply List.find_some in E as [Hq Hp%bool_decide_eq_true]. by rewrite <- list_elem_of_In in Hq.
  - intros q Hq Hp. apply list_elem_of_In in Hq. pose proof (List.find_none _ _ E q Hq) as Hf.
    by apply bool_decide_eq_false in Hf.
Qed.

(** *** What each operation does *)
Lemma release_process_ok s q : process_inv s -> q ∈ processes_head s ->
  exists p, objects s !! q = Some p /\ process_inv (release_process q s) /\
    objects (release_process q s) = delete q (objects s) /\
    processes_head (release_process q s) = list_del q (processes_head s) /\
    initialized (release_process q s) = initialized s /\
    live (pasid_ (release_process q s)) = live (pasid_ s) ∖ {[kp_pasid p]}.
Proof.
  intros [[Hp He] Hn Ho Hc Hpid Hl Hi Ha] Hq. destruct (Ho q Hq) as [_ [p Hp']]. exists p. split; [done|].
  unfold release_process. rewrite Hp'.
  pose proof (Hl q p Hp') as Hlive. pose proof Hlive as (_ & Hr & _)%elem_of_live. unfold MAX_PASID in Hr.
  pose proof (free_ok (kp_pasid p) (pasid_ s) ltac:(lia) Hp) as Hf.
  destruct (kfd_free_pasid (kp_pasid p) (pasid_ s)) as [ret t] eqn:Ef. rewrite decide_True in Hf by done.
  destruct Hf as (Ht & Het & _ & Hlt & _). set (s' := field_upd _ _).
  assert (pasid_ s' = t) as Epa by (change (pasid_ s') with (kfd_free_pasid (kp_pasid p) (pasid_ s)).2; by rewrite Ef).
  assert (objects s' = delete q (objects s)) as Eo by done.
  assert (processes_head s' = list_del q (processes_head s)) as Eh by done.
  assert (processes_count s' = Z.pred (processes_count s)) as Ec by done.
  assert (initialized s' = initialized s) as Ei by done. clearbody s'.
  split; [|rewrite Epa; auto]. split; rewrite ?Epa, ?Eh, ?Ec, ?Hlt; unfold pid_of; rewrite ?Eo.
  - split; [done|congruence].
  - by apply list_del_nodup.
  - intros r [Hr' Hne]%list_del_elem; [|done]. rewrite lookup_delete_ne by done. by apply Ho.
  - rewrite Hc, (list_del_length q) by done. lia.
  - intros r r' [Hr' Hne]%list_del_elem [Hr2 Hne2]%list_del_elem; [|done..].
    rewrite !lookup_delete_ne by done. by apply Hpid.
  - intros r p' [Hne Hr']%lookup_delete_Some. apply elem_of_difference. split; [by eapply Hl|].
    intros Heq%elem_of_singleton. by apply Hne, (Hi q r p p').
  - intros r r' p1 p2 [_ H1]%lookup_delete_Some [_ H2]%lookup_delete_Some. by eapply Hi.
  - intros a [Ha1 Hne]%elem_of_difference. destruct (Ha a Ha1) as (r & p' & Hr' & <-). exists r, p'.
    split; [|done]. rewrite lookup_delete_ne; [done|]. intros ->. set_solver.
Qed.

Lemma exit_loop_ok l s : process_inv s -> processes_head s = l ->
  process_inv (exit_loop l s) /\ processes_head (exit_loop l s) = [] /\
  initialized (exit_loop l s) = initialized s /\
  (forall q, q ∉ l -> objects (exit_loop l s) !! q = objects s !! q) /\
  (forall q, q ∈ l -> objects (exit_loop l s) !! q = None).
Proof.
  revert s. induction l as [|q l IH]; intros s Hs Hl.
  { refine (conj Hs (conj Hl (conj eq_refl (conj _ _)))); [done|set_solver]. }
  destruct (release_process_ok s q Hs ltac:(rewrite Hl; set_solver)) as (p & Hp & Hs' & Ho & Hh & Hi & _).
  assert (list_del q (q :: l) = l) as Hd by (simpl; by rewrite Z.eqb_refl).
  rewrite Hl, Hd in Hh. destruct (IH _ Hs' Hh) as (H1 & H2 & H3 & H4 & H5). simpl.
  assert (NoDup (q :: l)) as [Hq _]%NoDup_cons by (rewrite <- Hl; apply Hs).
  refine (conj H1 (conj H2 (conj _ (conj _ _)))); [congruence|..].
  - intros r [Hr Hr']%not_elem_of_cons. by rewrite H4, Ho, lookup_delete_ne by done.
  - intros r [->|Hr]%elem_of_cons; [|auto]. by rewrite H4, Ho, lookup_delete_eq.
Qed.

(** Only the list, its count and the flag change. *)
Lemma inv_relink s s' : process_inv s -> pasid_ s' = pasid_ s -> objects s' = objects s ->
  processes_head s' = processes_head s \/ processes_head s' = [] ->
  processes_count s' = Z.of_nat (length (processes_head s')) -> process_inv s'.
Proof.
  intros [Hp Hn Ho Hc Hpid Hl Hi Ha] Ep Eo Eh Ec. split; unfold pid_of; rewrite ?Ep, ?Eo; try done.
  - destruct Eh as [->| ->]; [done|constructor].
  - destruct Eh as [->| ->]; [done|set_solver].
  - destruct Eh as [->| ->]; [done|set_solver].
Qed.

Lemma init_ok s : process_inv s -> process_inv (kfd_process_init s).2.
Proof.
  intros Hs. unfold kfd_process_init. destruct (initialized s); [done|].
  eapply inv_relink; [exact Hs|reflexivity|reflexivity|by right|reflexivity].
Qed.
Lemma exit_ok s : process_inv s -> process_inv (kfd_process_exit s).
Proof.
  intros Hs. unfold kfd_process_exit. destruct (initialized s); [|done].
  destruct (exit_loop_ok _ s Hs eq_refl) as (He & _). simpl.
  eapply inv_relink; [exact He|reflexivity|reflexivity|by left|apply He].
Qed.
Lemma pasid_init_ok s : process_inv s -> process_inv (s <| pasid_ := (kfd_pasid_init (pasid_ s)).2 |>).
Proof.
  intros Hs. pose proof Hs as [[Hp He] Hn Ho Hc Hpid Hl Hi Ha].
  assert (pasid_ s <| pasid_exited := false |> = pasid_ s) as Eq.
  { destruct (pasid_ s). simpl in He. by subst. }
  destruct (lazy_init_ok _ Hp) as (Hp' & Hlive & He' & _).
  set (s' := field_upd _ _). assert (pasid_ s' = lazy_init (pasid_ s)) as Ep.
  { change (pasid_ s') with (lazy_init (pasid_ s <| pasid_exited := false |>)). by rewrite Eq. }
  assert (objects s' = objects s) as Eo by done.
  assert (processes_head s' = processes_head s /\ processes_count s' = processes_count s) as [Eh Ec] by done.
  clearbody s'. split; unfold pid_of; rewrite ?Ep, ?Eo, ?Eh, ?Ec, ?Hlive; try done.
  split; [done|congruence].
Qed.

Definition fresh_malloc (m : malloc_answers) (s : kfd_processes) : Prop :=
  forall q, m_process m = Some q -> q <> 0 /\ objects s !! q = None.
(** The tables a failed call must leave alone. *)
Definition same_table (s s' : kfd_processes) : Prop :=
  objects s' = objects s /\ processes_head s' = processes_head s /\ live (pasid_ s') = live (pasid_ s).

Lemma same_table_inv s s' : process_inv s -> same_table s s' -> processes_count s' = processes_count s ->
  pasid_inv (pasid_ s') -> pasid_exited (pasid_ s') = false -> process_inv s'.
Proof.
  intros [[Hp He] Hn Ho Hc Hpid Hl Hi Ha] (Eo & Eh & El) Ec Hp' He'.
  split; unfold pid_of; rewrite ?Eo, ?Eh, ?El, ?Ec; auto.
Qed.

(** A new object at the head of the list, with an id that was free. *)
Lemma link_ok s s' q pid a shim :
  process_inv s -> q <> 0 -> objects s !! q = None -> find_pid pid s = None -> a ∉ live (pasid_ s) ->
  pasid_inv (pasid_ s') -> pasid_exited (pasid_ s') = false ->
  live (pasid_ s') = {[a]} ∪ live (pasid_ s) -> objects s' = <[q := new_process pid a shim]> (objects s) ->
  processes_head s' = q :: processes_head s -> processes_count s' = Z.succ (processes_count s) ->
  process_inv s'.
Proof.
  intros Hs Hq0 Hq Hf Ha Hp' He' El Eo Eh Ec. pose proof (find_pid_spec s pid Hs) as Hnone. rewrite Hf in Hnone.
  destruct Hs as [[Hp He] Hn Ho Hc Hpid Hl Hi Hall].
  assert (forall r, r ∈ processes_head s -> r <> q) as Hne by (intros r Hr ->; destruct (Ho q Hr) as [_ [? ?]]; congruence).
  split; unfold pid_of in *; rewrite ?Eo, ?Eh, ?El, ?Ec.
  - done.
  - constructor; [|done]. intros Hin. by apply (Hne q).
  - intros r [->|Hr]%elem_of_cons; [by rewrite lookup_insert_eq|].
    rewrite lookup_insert_ne by (by apply not_eq_sym, Hne). by apply Ho.
  - rewrite Hc. simpl. lia.
  - intros r r' [->|Hr]%elem_of_cons [->|Hr']%elem_of_cons; try done; intros Heq.
    + rewrite lookup_insert_eq, lookup_insert_ne in Heq by (by apply not_eq_sym, Hne). by destruct (Hnone r' Hr').
    + rewrite lookup_insert_eq, lookup_insert_ne in Heq by (by apply not_eq_sym, Hne). by destruct (Hnone r Hr).
    + rewrite !lookup_insert_ne in Heq by (by apply not_eq_sym, Hne). by apply Hpid.
  - intros r p [[<- <-]|[_ Hr]]%lookup_insert_Some; [simpl; set_solver|].
    apply elem_of_union_r. by eapply Hl.
  - intros r r' p p' [[<- <-]|[_ Hr]]%lookup_insert_Some [[<- <-]|[_ Hr']]%lookup_insert_Some; try done; simpl.
    + intros ->. by destruct Ha; eapply Hl.
    + intros <-. by destruct Ha; eapply Hl.
    + by apply Hi.
  - intros b [->%elem_of_singleton|Hb]%elem_of_union.
    + exists q, (new_process pid a shim). by rewrite lookup_insert_eq.
    + destruct (Hall b Hb) as (r & p & Hr & Hpb). exists r, p. rewrite lookup_insert_ne; [done|]. congruence.
Qed.

Lemma process_create_ok m pid s : process_inv s -> fresh_malloc m s ->
  match run_handler (kfd_process_create m pid) s with
  | ((ret, Some q), s') => process_inv s' /\ ret = 0 /\ find_pid pid s = None /\ m_process m = Some q /\
      processes_head s' = q :: processes_head s /\
      exists a, a ∉ live (pasid_ s) /\ live (pasid_ s') = {[a]} ∪ live (pasid_ s) /\
        objects s' = <[q := new_process pid a (us_mm_shim_init (u64 pid))]> (objects s)
  | ((ret, None), s') => process_inv s' /\ same_table s s' /\
      if decide (find_pid pid s = None) then ret = - ENOMEM \/ ret = - ENOSPC /\ Z.of_nat (size (live (pasid_ s))) = 0xFFFF
      else ret = - EBUSY
  end.
Proof.
  intros Hs Hm. assert (same_table s s) as Hsame by done.
  unfold run_handler, kfd_process_create, mbind, handler_bind. simpl.
  case_bool_decide as Hf; simpl; [|by rewrite decide_False by done].
  destruct (m_entry m); simpl; [|rewrite decide_True by done; auto].
  destruct (m_process m) as [q|] eqn:Eq; simpl; [|rewrite decide_True by done; auto].
  destruct (Hm q Eq) as [Hq0 Hq]. destruct (pi_pasid s Hs) as [Hp He].
  pose proof (allocate_ok (pasid_ s) Hp) as Ha.
  destruct (kfd_allocate_pasid (pasid_ s)) as [[ret [a|]] t]; simpl.
  - destruct Ha as (Ht & Het & -> & _ & Hr & (k & Hk & Hnew & _) & Hlt).
    destruct (m_shim m); simpl.
    + split; [|eauto 10]. eapply (link_ok s _ q pid a); try done.
      change (pasid_exited t = false). congruence.
    + unfold MAX_PASID in Hr. pose proof (free_ok a t ltac:(lia) Ht) as Hfree.
      destruct (kfd_free_pasid a t) as [r t'] eqn:Ef. rewrite decide_True in Hfree by set_solver.
      destruct Hfree as (Ht' & Het' & _ & Hlt' & _).
      set (s' := field_upd _ _). assert (pasid_ s' = t') as Ep.
      { change (pasid_ s') with (kfd_free_pasid a t).2. by rewrite Ef. }
      assert (same_table s s') as Hs'.
      { repeat split; try done. rewrite Ep, Hlt', Hlt. set_solver. }
      rewrite decide_True by done. split; [|auto]. apply (same_table_inv s); [done|done|done|congruence..].
  - destruct Ha as (Ht & Het & -> & Hlt & Hor). set (s' := field_upd _ _).
    assert (same_table s s') as Hs' by (repeat split; done).
    rewrite decide_True by done. split; [|split; [done|]]; [|right; split; [done|]; destruct Hor as [?|Hn]; [congruence|rewrite Hn; unfold MAX_PASID; lia]].
    apply (same_table_inv s); [done|done|done|done|].
    change (pasid_exited t = false). congruence.
Qed.

Lemma create_busy m pid s : find_pid pid s <> None ->
  run_handler (kfd_process_create m pid) s = ((- EBUSY, None), s).
Proof.
  intros Hf. unfold run_handler, kfd_process_create, mbind, handler_bind. simpl.
  by rewrite bool_decide_eq_false_2.
Qed.
Lemma create_room s q pid : process_inv s -> find_pid pid s = None -> Z.of_nat (size (live (pasid_ s))) < 0xFFFF ->
  exists s', run_handler (kfd_process_create (mk_malloc true (Some q) true) pid) s = ((0, Some q), s').
Proof.
  intros Hs Hf Hroom. unfold run_handler, kfd_process_create, mbind, handler_bind. simpl.
  rewrite bool_decide_eq_true_2 by done. simpl. destruct (pi_pasid s Hs) as [Hp He].
  pose proof (allocate_ok (pasid_ s) Hp) as Ha.
  destruct (kfd_allocate_pasid (pasid_ s)) as [[ret [a|]] t]; simpl; [by eexists|].
  destruct Ha as (_ & _ & _ & _ & [?|Hn]); [congruence|]. exfalso.
  rewrite Hn in Hroom. unfold MAX_PASID in Hroom. lia.
Qed.

Lemma process_destroy_ok q s : process_inv s ->
  match run_handler (kfd_process_destroy q) s with
  | (ret, s') => process_inv s' /\ initialized s' = initialized s /\
      if decide (q ∈ processes_head s) then exists p, ret = 0 /\ objects s !! q = Some p /\
        objects s' = delete q (objects s) /\ processes_head s' = list_del q (processes_head s) /\
        live (pasid_ s') = live (pasid_ s) ∖ {[kp_pasid p]}
      else s' = s /\ ret = if q =? 0 then - EINVAL else - ENOENT
  end.
Proof.
  intros Hs. unfold run_handler, kfd_process_destroy, mbind, handler_bind, truthy. simpl.
  destruct (Z.eqb_spec q 0) as [->|Hq0]; simpl.
  - rewrite decide_False; [auto|]. intros H0. by destruct (pi_objects s Hs 0 H0).
  - case_bool_decide as Hin; simpl.
    + destruct (release_process_ok s q Hs Hin) as (p & Hp & Hs' & Ho & Hh & Hi & Hl). rewrite decide_True by done.
      split; [done|]. split; [done|]. by exists p.
    + by rewrite decide_False.
Qed.

(** *** The table alone, whatever happens to the PASIDs *)
Record table_inv (s : kfd_processes) : Prop := {
  tb_nodup : NoDup (processes_head s);
  tb_objects : forall q, q ∈ processes_head s -> q <> 0 /\ is_Some (objects s !! q);
  tb_count : processes_count s = Z.of_nat (length (processes_head s));
  tb_pids : forall q q', q ∈ processes_head s -> q' ∈ processes_head s -> pid_of s q = pid_of s q' -> q = q'
}.
Lemma table_of s : process_inv s -> table_inv s.
Proof. intros []. by split. Qed.
Lemma table_same s s' : table_inv s -> objects s' = objects s -> processes_head s' = processes_head s ->
  processes_count s' = processes_count s -> table_inv s'.
Proof. intros [] Eo Eh Ec. split; unfold pid_of in *; rewrite ?Eo, ?Eh, ?Ec; done. Qed.
Lemma table_empty s : processes_head s = [] -> processes_count s = 0 -> table_inv s.
Proof. intros Eh Ec. split; rewrite ?Eh, ?Ec; try done; [constructor|set_solver..]. Qed.
Lemma table_release q s : table_inv s -> q ∈ processes_head s ->
  table_inv (release_process q s) /\ processes_head (release_process q s) = list_del q (processes_head s) /\
  objects (release_process q s) = delete q (objects s).
Proof.
  intros [Hn Ho Hc Hp] Hq. destruct (Ho q Hq) as [_ [p Hqp]]. unfold release_process. rewrite Hqp.
  split; [|done]. split; cbn [processes_head objects processes_count field_upd]; unfold pid_of; cbn [objects field_upd].
  - by apply list_del_nodup.
  - intros r [Hr Hne]%list_del_elem; [|done]. rewrite lookup_delete_ne by done. by apply Ho.
  - rewrite Hc, (list_del_length q) by done. lia.
  - intros r r' [Hr Hne]%list_del_elem [Hr' Hne']%list_del_elem; [|done..]. rewrite !lookup_delete_ne by done. by apply Hp.
Qed.
Lemma table_exit_loop l s : table_inv s -> processes_head s = l -> table_inv (exit_loop l s).
Proof.
  revert s. induction l as [|q l IH]; intros s Hs Hl; [done|]. simpl.
  destruct (table_release q s Hs ltac:(rewrite Hl; set_solver)) as (H1 & H2 & _). apply IH; [done|].
  by rewrite H2, Hl; simpl; rewrite Z.eqb_refl.
Qed.
Lemma find_pid_table s pid : match find_pid pid s with
  | Some q => q ∈ processes_head s /\ pid_of s q = Some pid
  | None => forall q, q ∈ processes_head s -> pid_of s q <> Some pid
  end.
Proof.
  unfold find_pid. destruct (List.find _ _) as [q|] eqn:E.
  - apply List.find_some in E as [Hq Hp%bool_decide_eq_true]. by rewrite <- list_elem_of_In in Hq.
  - intros q Hq Hp. apply list_elem_of_In in Hq. pose proof (List.find_none _ _ E q Hq) as Hf.
    by apply bool_decide_eq_false in Hf.
Qed.
Lemma table_create m pid s : table_inv s -> fresh_malloc m s -> table_inv (run_handler (kfd_process_create m pid) s).2.
Proof.
  intros Hs Hm. unfold run_handler, kfd_process_create, mbind, handler_bind. simpl.
  pose proof (find_pid_table s pid) as Hnone.
  case_bool_decide as Hf; simpl; [|done]. rewrite Hf in Hnone.
  destruct (m_entry m); simpl; [|done]. destruct (m_process m) as [q|] eqn:Eq; simpl; [|done].
  destruct (Hm q Eq) as [Hq0 Hq]. destruct (kfd_allocate_pasid (pasid_ s)) as [[ret [a|]] t]; simpl; [|by eapply table_same].
  destruct (m_shim m); simpl; [|by eapply table_same]. destruct Hs as [Hn Ho Hc Hp].
  assert (forall r, r ∈ processes_head s -> r <> q) as Hne by (intros r Hr ->; destruct (Ho q Hr) as [_ [? ?]]; congruence).
  split; cbn [processes_head objects processes_count field_upd]; unfold pid_of in *; cbn [objects field_upd].
  - constructor; [|done]. intros Hin. by apply (Hne q).
  - intros r [->|Hr]%elem_of_cons; [by rewrite lookup_insert_eq|].
    rewrite lookup_insert_ne by (by apply not_eq_sym, Hne). by apply Ho.
  - rewrite Hc. simpl. lia.
  - intros r r' [->|Hr]%elem_of_cons [->|Hr']%elem_of_cons; try done; rewrite ?lookup_insert_eq;
      rewrite ?lookup_insert_ne by (by apply not_eq_sym, Hne); simpl; intros E.
    + by destruct (Hnone r' Hr').
    + by destruct (Hnone r Hr).
    + by apply Hp.
Qed.
Lemma table_destroy q s : table_inv s -> table_inv (run_handler (kfd_process_destroy q) s).2.
Proof.
  intros Hs. unfold run_handler, kfd_process_destroy, mbind, handler_bind. simpl. destruct (truthy q); simpl; [|done].
  case_bool_decide; simpl; [|done]. by apply table_release.
Qed.
Lemma destroy_unlisted q s : table_inv s -> q ∉ processes_head s ->
  run_handler (kfd_process_destroy q) s = (if q =? 0 then - EINVAL else - ENOENT, s).
Proof.
  intros Hs Hq. unfold run_handler, kfd_process_destroy, mbind, handler_bind, truthy. simpl.
  destruct (q =? 0); simpl; [done|]. by rewrite bool_decide_eq_false_2.
Qed.
Lemma find_exact s pid : table_inv s ->
  (forall q, kfd_process_find_by_pid pid s = (0, Some q) <-> q ∈ processes_head s /\ pid_of s q = Some pid) /\
  ((forall q, q ∈ processes_head s -> pid_of s q <> Some pid) -> kfd_process_find_by_pid pid s = (- ENOENT, None)).
Proof.
  intros Hs. unfold kfd_process_find_by_pid. pose proof (find_pid_table s pid) as Hf. destruct (find_pid pid s) as [q|].
  - destruct Hf as [Hq Hp]. split.
    + intros r. split; [by intros [= <-]|]. intros [Hr Hpr]. do 2 f_equal. apply (tb_pids s Hs); congruence.
    + intros Hn. by destruct (Hn q Hq).
  - split; [|done]. intros r. split; [done|]. intros [Hr Hpr]. by destruct (Hf r Hr).
Qed.

(** ** Reachable tables *)
(** The calls of the process table and [kfd_pasid_init]. *)
Inductive process_step : kfd_processes -> kfd_processes -> Prop :=
| step_process_init s : process_step s (kfd_process_init s).2
| step_process_exit s : process_step s (kfd_process_exit s)
| step_process_create m pid s : fresh_malloc m s ->
    process_step s (run_handler (kfd_process_create m pid) s).2
| step_process_destroy q s : process_step s (run_handler (kfd_process_destroy q) s).2
| step_pasid_init s : process_step s (s <| pasid_ := (kfd_pasid_init (pasid_ s)).2 |>).
Definition process_reachable : kfd_processes -> Prop := rtc process_step processes_start.
(** And any calls of the PASID allocator by others. *)
Inductive any_step : kfd_processes -> kfd_processes -> Prop :=
| step_table s s' : process_step s s' -> any_step s s'
| step_pasid_allocate s : any_step s (s <| pasid_ := (kfd_allocate_pasid (pasid_ s)).2 |>)
| step_pasid_free a s : any_step s (s <| pasid_ := (kfd_free_pasid a (pasid_ s)).2 |>)
| step_pasid_exit s : any_step s (s <| pasid_ := kfd_pasid_exit (pasid_ s) |>).
Definition any_reachable : kfd_processes -> Prop := rtc any_step processes_start.

Lemma processes_start_inv : process_inv processes_start.
Proof.
  assert (live (pasid_ processes_start) = ∅) as Hl by by apply live_off.
  split; try by intros; set_solver.
  - split; [apply pasid_start_inv|done].
  - constructor.
  - rewrite Hl. set_solver.
Qed.
Lemma process_step_inv s s' : process_step s s' -> process_inv s -> process_inv s'.
Proof.
  intros [] Hs.
  - by apply init_ok.
  - by apply exit_ok.
  - pose proof (process_create_ok m pid s0 Hs H) as Hc. destruct (run_handler _ s0) as [[ret [q|]] s1]; tauto.
  - pose proof (process_destroy_ok q s0 Hs) as Hd. destruct (run_handler _ s0). tauto.
  - by apply pasid_init_ok.
Qed.
Lemma process_reachable_inv s : process_reachable s -> process_inv s.
Proof.
  unfold process_reachable. pose proof processes_start_inv as H0. generalize dependent processes_start.
  intros t Ht Hr. induction Hr as [t|t u s Hstep _ IH]; [done|]. by eapply IH, process_step_inv.
Qed.

Lemma any_step_table s s' : any_step s s' -> table_inv s -> table_inv s'.
Proof.
  intros [t t' Hst|t|a t|t] Hs; [|by eapply table_same..]. destruct Hst as [t|t|m pid t Hm|q t|t].
  - unfold kfd_process_init. destruct (initialized t); [done|]. by apply table_empty.
  - unfold kfd_process_exit. destruct (initialized t); [|done]. simpl.
    eapply table_same; [by apply (table_exit_loop _ t Hs eq_refl)|done..].
  - by apply table_create.
  - by apply table_destroy.
  - by eapply table_same.
Qed.
Lemma any_reachable_table s : any_reachable s -> table_inv s.
Proof.
  unfold any_reachable. pose proof (table_of _ processes_start_inv) as H0. generalize dependent processes_start.
  intros t Ht Hr. induction Hr as [t|t u s Hstep _ IH]; [done|]. by eapply IH, any_step_table.
Qed.

Lemma find_of_head s q p : process_inv s -> q ∈ processes_head s -> objects s !! q = Some p ->
  kfd_process_find_by_pid (kp_pid p) s = (0, Some q).
Proof.
  intros Hs Hq Hp. unfold kfd_process_find_by_pid. pose proof (find_pid_spec s (kp_pid p) Hs) as Hf.
  assert (pid_of s q = Some (kp_pid p)) as Hpq by (unfold pid_of; by rewrite Hp).
  destruct (find_pid (kp_pid p) s) as [r|].
  - destruct Hf as [Hr Hpr]. do 2 f_equal. apply (pi_pids s Hs); congruence.
  - by destruct (Hf q Hq).
Qed.

(** C16. Whatever is called on the process table and the PASID allocator, the
    count is the length of the list, looking a pid up finds exactly the listed
    process of that pid, at most one, and fails when there is none, and an address
    that is not in the list cannot be destroyed.  When nobody else allocates or
    frees a PASID or shuts the allocator down, the live PASIDs are exactly the
    PASIDs of the process objects, one object each.  (A listed process leaves the
    list when destroyed, at [kfd_process_exit], and at the first
    [kfd_process_init]: [process_init_forgets].) *)
Theorem process_table_exact s : any_reachable s ->
  processes_count s = Z.of_nat (length (processes_head s)) /\ NoDup (processes_head s) /\
  (forall pid q, kfd_process_find_by_pid pid s = (0, Some q) <->
     q ∈ processes_head s /\ exists p, objects s !! q = Some p /\ kp_pid p = pid) /\
  (forall pid, (forall q p, q ∈ processes_head s -> objects s !! q = Some p -> kp_pid p <> pid) ->
     kfd_process_find_by_pid pid s = (- ENOENT, None)) /\
  (forall q, q ∉ processes_head s ->
     run_handler (kfd_process_destroy q) s = (if q =? 0 then - EINVAL else - ENOENT, s)) /\
  (process_reachable s ->
     (forall q p q' p', objects s !! q = Some p -> objects s !! q' = Some p' ->
        kp_pasid p = kp_pasid p' -> q = q') /\
     (forall a, a ∈ live (pasid_ s) <-> exists q p, objects s !! q = Some p /\ kp_pasid p = a)).
Proof.
  intros Ht%any_reachable_table. split; [apply Ht|]. split; [apply Ht|].
  split; [|split; [|split; [by intros; apply destroy_unlisted|]]].
  - intros pid q. rewrite (proj1 (find_exact s pid Ht) q). unfold pid_of. destruct (objects s !! q) as [p|]; simpl; naive_solver.
  - intros pid H. apply (find_exact s pid Ht). intros q Hq. unfold pid_of. destruct (objects s !! q) as [p|] eqn:E; simpl; [|done].
    specialize (H q p Hq E). congruence.
  - intros Hs%process_reachable_inv. split; [intros; by eapply (pi_inj s Hs)|].
    intros a. split; [apply (pi_all s Hs)|]. intros (q & p & Hq & <-). by eapply (pi_live s Hs).
Qed.

(** Creating a process for a pid that has none, when the allocations
    succeed and a PASID is left, links it so that lookup finds it and a second
    creation is refused; destroying it gives back the table, the PASIDs and the
    answer -ENOENT of before. *)
Theorem process_create_destroy s m pid q : process_reachable s -> fresh_malloc m s ->
  find_pid pid s = None -> m = mk_malloc true (Some q) true -> Z.of_nat (size (live (pasid_ s))) < 0xFFFF ->
  exists s', run_handler (kfd_process_create m pid) s = ((0, Some q), s') /\
    kfd_process_find_by_pid pid s' = (0, Some q) /\
    (forall m', run_handler (kfd_process_create m' pid) s' = ((- EBUSY, None), s')) /\
    exists s'', run_handler (kfd_process_destroy q) s' = (0, s'') /\ same_table s s'' /\
      processes_count s'' = processes_count s /\
      kfd_process_find_by_pid pid s'' = (- ENOENT, None).
Proof.
  intros Hs%process_reachable_inv Hm Hf -> Hroom. pose proof (process_create_ok _ pid s Hs Hm) as Hc.
  destruct (create_room s q pid Hs Hf Hroom) as (s' & Hr). rewrite Hr in Hc |- *.
  destruct Hc as (Hs' & _ & _ & _ & Hh & a & Ha & Hl & Ho). exists s'. split; [done|].
  assert (q ∈ processes_head s') as Hq by (rewrite Hh; set_solver).
  destruct (Hm q eq_refl) as [Hq0 Hnew].
  assert (objects s' !! q = Some (new_process pid a (us_mm_shim_init (u64 pid)))) as Hp
    by (by rewrite Ho, lookup_insert_eq).
  pose proof (find_of_head s' q _ Hs' Hq Hp) as Hfind. split; [done|]. split.
  { intros m'. apply create_busy. unfold kfd_process_find_by_pid in Hfind. intros Hn.
    change (kp_pid _) with pid in Hfind. by rewrite Hn in Hfind. }
  pose proof (process_destroy_ok q s' Hs') as Hd. destruct (run_handler _ s') as [ret s''].
  rewrite decide_True in Hd by done. destruct Hd as (Hs'' & _ & p & -> & Hp' & Ho' & Hh' & Hl').
  assert (p = new_process pid a (us_mm_shim_init (u64 pid))) as -> by congruence.
  assert (same_table s s'') as Hst.
  { repeat split.
    - by rewrite Ho', Ho, delete_insert_id.
    - rewrite Hh', Hh. simpl. by rewrite Z.eqb_refl.
    - rewrite Hl', Hl. simpl. set_solver. }
  exists s''. split; [done|]. split; [done|]. destruct Hst as (Eo & Eh & El).
  split; [by rewrite (pi_count s Hs), (pi_count s'' Hs''), Eh|].
  unfold kfd_process_find_by_pid. unfold find_pid, pid_of in *. by rewrite Eo, Eh, Hf.
Qed.

(** ** Concrete tables *)
Definition demo_malloc : malloc_answers := mk_malloc true (Some 4096) true.
Definition demo_empty : kfd_processes := (kfd_process_init processes_start).2.
Definition demo_table : kfd_processes := (run_handler (kfd_process_create demo_malloc 7) demo_empty).2.

Lemma demo_fresh : fresh_malloc demo_malloc demo_empty.
Proof. by intros q [= <-]. Qed.
Lemma demo_reachable : process_reachable demo_empty /\ process_reachable demo_table.
Proof.
  assert (process_reachable demo_empty) as H0 by apply rtc_once, step_process_init.
  split; [done|]. eapply rtc_r; [exact H0|]. apply step_process_create, demo_fresh.
Qed.
Lemma demo_live : Z.of_nat (size (live (pasid_ demo_empty))) < 0xFFFF.
Proof. by rewrite live_off. Qed.

Lemma table_any s : process_reachable s -> any_reachable s.
Proof. unfold process_reachable, any_reachable. apply rtc_subrel. intros ? ? H. by apply step_table. Qed.
Lemma process_table_exact_witness : any_reachable demo_table /\ process_reachable demo_table /\
  kfd_process_find_by_pid 7 demo_table = (0, Some 4096) /\ kfd_process_find_by_pid 8 demo_table = (- ENOENT, None) /\
  1 ∈ live (pasid_ demo_table).
Proof.
  split; [apply table_any, demo_reachable|]. split; [apply demo_reachable|].
  destruct (process_table_exact demo_table (table_any _ (proj2 demo_reachable))) as (_ & _ & Hf & _ & _ & Hl).
  split; [|split; [vm_compute; reflexivity|]].
  - apply Hf. split; [left|]. eexists. split; vm_compute; reflexivity.
  - apply (Hl (proj2 demo_reachable)). exists 4096. eexists. split; vm_compute; reflexivity.
Defined.
Lemma process_create_destroy_witness :
  exists s', run_handler (kfd_process_create demo_malloc 7) demo_empty = ((0, Some 4096), s') /\
    kfd_process_find_by_pid 7 s' = (0, Some 4096).
Proof.
  destruct (process_create_destroy demo_empty demo_malloc 7 4096 (proj1 demo_reachable) demo_fresh
    eq_refl eq_refl demo_live) as (s' & H1 & H2 & _).
  exists s'. split; [exact H1|exact H2].
Defined.

(** [kfd_process_create] does not look at [initialized], and the first
    [kfd_process_init] empties the list: a process created before it stays
    allocated, with its PASID, but can no longer be found or destroyed. *)
Lemma process_init_forgets :
  let s := (run_handler (kfd_process_create demo_malloc 7) processes_start).2 in
  let s' := (kfd_process_init s).2 in
  kfd_process_find_by_pid 7 s = (0, Some 4096) /\
  kfd_process_find_by_pid 7 s' = (- ENOENT, None) /\
  (run_handler (kfd_process_destroy 4096) s').1 = - ENOENT /\
  kfd_pasid_allocated_count (pasid_ s') = 1 /\ processes_count s' = 0.
Proof. vm_compute. done. Qed.
(** Without [kfd_process_init], [kfd_process_exit] does nothing. *)
Lemma process_exit_uninitialised :
  let s := (run_handler (kfd_process_create demo_malloc 7) processes_start).2 in
  kfd_process_exit s = s /\ processes_count (kfd_process_exit s) = 1.
Proof. vm_compute. done. Qed.
(** After initialisation it frees every listed process and its PASID. *)
Lemma process_exit_frees s : process_inv s -> initialized s = true ->
  (forall q, is_Some (objects s !! q) -> q ∈ processes_head s) ->
  objects (kfd_process_exit s) = ∅ /\ processes_head (kfd_process_exit s) = [] /\
  live (pasid_ (kfd_process_exit s)) = ∅.
Proof.
  intros Hs Hi Hall. pose proof (exit_ok s Hs) as Hinv. unfold kfd_process_exit in *. rewrite Hi in *. simpl in *.
  destruct (exit_loop_ok _ s Hs eq_refl) as (_ & Hh & _ & Ho & Ho').
  assert (objects (exit_loop (processes_head s) s) = ∅) as He.
  { apply map_eq. intros q. rewrite lookup_empty. destruct (decide (q ∈ processes_head s)) as [Hq|Hq]; [auto|].
    rewrite Ho by done. apply eq_None_not_Some. auto. }
  split; [done|]. split; [done|]. apply leibniz_equiv. intros a. split; [|set_solver].
  intros (q & p & Hq & _)%(pi_all _ Hinv). change (objects (exit_loop (processes_head s) s) !! q = Some p) in Hq.
  by rewrite He in Hq.
Qed.
