(* ===== verification/KfdQueue.v ===== *)
(** * KFD queue buffers

    [plugins/gpu_driver/drv/kfd/kfd_queue.c] (and the stubs [kfd_topology.c],
    [kfd_svm.c] it calls): pinning and releasing the buffer objects of a user
    queue.  The amdgpu functions it calls are not in the repository; they are
    the interface [AmdgpuVm], and what the code relies on is [AmdgpuVmLaws].
    [CONFIG_HSA_AMD_SVM] is 0, so the SVM path always fails. *)
From S2P Require Import Prelude KfdProcess.

(** ** Data *)
Inductive kfd_queue_type := KFD_QUEUE_TYPE_COMPUTE | KFD_QUEUE_TYPE_SDMA.

(** [base.bo]: the buffer object mapped; pointers are addresses, 0 is null. *)
Record amdgpu_bo_va := mk_bo_va { queue_refcount : Z; base_bo : Z }.
Record amdgpu_bo_va_mapping := mk_mapping { map_start : Z; map_last : Z; bo_va : Z }.

Record queue_properties := mk_props {
  qp_type : kfd_queue_type; queue_id : Z; queue_address : Z; queue_size : Z; qp_priority : Z;
  queue_percent : Z; read_ptr : Z; write_ptr : Z; doorbell_ptr : Z; doorbell_off : Z; vmid : Z;
  eop_ring_buffer_address : Z; eop_ring_buffer_size : Z;
  ctx_save_restore_area_address : Z; ctx_save_restore_area_size : Z; qp_ctl_stack_size : Z;
  wptr_bo : Z; rptr_bo : Z; ring_bo : Z; eop_buf_bo : Z; cwsr_bo : Z
}.
#[export] Instance eta_props : Eta queue_properties := fun q =>
  mk_props (qp_type q) (queue_id q) (queue_address q) (queue_size q) (qp_priority q) (queue_percent q)
    (read_ptr q) (write_ptr q) (doorbell_ptr q) (doorbell_off q) (vmid q) (eop_ring_buffer_address q)
    (eop_ring_buffer_size q) (ctx_save_restore_area_address q) (ctx_save_restore_area_size q)
    (qp_ctl_stack_size q) (wptr_bo q) (rptr_bo q) (ring_bo q) (eop_buf_bo q) (cwsr_bo q).

Record queue := mk_queue {
  mqd : Z; gart_mqd_addr : Z; properties : queue_properties; q_process : Z; q_device : Z
}.
(** The answer of [kzalloc] says whether it succeeds. *)
Definition init_queue (kzalloc_ok : bool) (properties : queue_properties) : Z * option queue :=
  if kzalloc_ok then (0, Some (mk_queue 0 0 properties 0 0)) else (- ENOMEM, None).

Record kfd_node_properties := mk_node_props {
  simd_count : Z; simd_per_cu : Z; simd_arrays_per_engine : Z; array_count : Z;
  gfx_target_version : Z; ctl_stack_size : Z; cwsr_size : Z; debug_memory_size : Z; eop_buffer_size : Z
}.
#[export] Instance eta_node_props : Eta kfd_node_properties := fun p =>
  mk_node_props (simd_count p) (simd_per_cu p) (simd_arrays_per_engine p) (array_count p)
    (gfx_target_version p) (ctl_stack_size p) (cwsr_size p) (debug_memory_size p) (eop_buffer_size p).

(** [kfd_topology.c]: one static device, with id 0. *)
Definition kfd_static_topo : kfd_node_properties := mk_node_props 4 4 0 1 0x90006 4096 8192 0 0.
Definition kfd_topology_device_by_id (topo : kfd_node_properties) (gpu_id : Z) : option kfd_node_properties :=
  if gpu_id =? 0 then Some topo else None.

(** ** Arithmetic of the kernel macros *)
Definition ALIGN (x a : Z) : Z := Z.land (u32 (x + a - 1)) (u32 (Z.lnot (a - 1))).
Definition QPAGE_SIZE : Z := 4096.
Definition AMDGPU_GPU_PAGE_SHIFT : Z := 12.
Definition NUM_XCC (mask : Z) : Z := 1.

(** ** The amdgpu interface *)
Class AmdgpuVm (W : Type) := {
  amdgpu_bo_ref : Z -> W -> Z * W;
  amdgpu_bo_unref : Z -> W -> Z * W;
  amdgpu_bo_reserve : Z -> W -> Z * W;
  amdgpu_bo_unreserve : Z -> W -> W;
  amdgpu_vm_bo_lookup_mapping : Z -> Z -> W -> option amdgpu_bo_va_mapping;
  amdgpu_vm_bo_find : Z -> Z -> W -> Z;
  drm_priv_to_vm : Z -> Z;
  vm_root_bo : Z -> Z
}.

(** The library's state, the [bo_va] objects and the caller's properties. *)
Record queue_state (W : Type) := mk_queue_state {
  world : W; bo_vas : gmap Z amdgpu_bo_va; props : queue_properties
}.
Arguments mk_queue_state {W}. Arguments world {W}. Arguments bo_vas {W}. Arguments props {W}.
#[export] Instance eta_queue_state W : Eta (queue_state W) := fun s =>
  mk_queue_state (world s) (bo_vas s) (props s).

Section Queue.
  Context {W : Type} `{AMD : AmdgpuVm W}.
  Implicit Types s : queue_state W.
  (** The static topology device. *)
  Variable topo : kfd_node_properties.
Local Abbreviation qhandler := (handler (queue_state W) Z).

Definition bo_va_at (p : Z) s : amdgpu_bo_va := default (mk_bo_va 0 0) (bo_vas s !! p).
Definition add_ref (d p : Z) s : queue_state W :=
  s <| bo_vas ::= <[p := mk_bo_va (queue_refcount (bo_va_at p s) + d) (base_bo (bo_va_at p s))]> |>.

Definition on_world {A} (f : W -> A * W) : qhandler A :=
  fun s => let '(a, w) := f (world s) in (Go a, s <| world := w |>).

(** [set_bo] stores the buffer object in the caller's field [*pbo]. *)
Definition kfd_queue_buffer_get (vm addr : Z) (set_bo : Z -> queue_properties -> queue_properties)
    (expected_size : Z) : qhandler Z :=
  let user_addr := Z.shiftr (u64 addr) AMDGPU_GPU_PAGE_SHIFT in
  let size := Z.shiftr (u64 expected_size) AMDGPU_GPU_PAGE_SHIFT in
  let out_err := modify_st (fun s => s <| props ::= set_bo 0 |>);; mret (- EINVAL) in
  s ← get_st;
  match amdgpu_vm_bo_lookup_mapping vm user_addr (world s) with
  | None => out_err
  | Some mapping =>
      if negb (user_addr =? map_start mapping) ||
         (truthy size && negb (u64 (user_addr + size - 1) =? map_last mapping)) then out_err
      else
        bo ← on_world (amdgpu_bo_ref (base_bo (bo_va_at (bo_va mapping) s)));
        modify_st (fun s => s <| props ::= set_bo bo |>);;
        modify_st (add_ref 1 (bo_va mapping));;
        mret 0
  end.

(** [err = ...; if (err) goto out_err;] *)
Definition or_goto (m : qhandler Z) : qhandler unit :=
  err ← m; require (err =? 0) err.

Definition total_cwsr_size (node : kfd_node) : Z :=
  ALIGN (u32 (u32 (cwsr_size topo + debug_memory_size topo) * NUM_XCC (node_xcc_mask node))) QPAGE_SIZE.

(** The guarded section under the reservation: an early exit is the jump to
    [out_err_unreserve], [true] the jump to [out_unreserve], [false] the fall
    through to the SVM attempt. *)
Definition acquire_locked (pdd : kfd_process_device) (vm : Z) : qhandler bool :=
  p ← (fun s => (Go (props s), s));
  or_goto (kfd_queue_buffer_get vm (write_ptr p) (fun b q => q <| wptr_bo := b |>) QPAGE_SIZE);;
  or_goto (kfd_queue_buffer_get vm (read_ptr p) (fun b q => q <| rptr_bo := b |>) QPAGE_SIZE);;
  or_goto (kfd_queue_buffer_get vm (queue_address p) (fun b q => q <| ring_bo := b |>) (queue_size p));;
  match qp_type p with
  | KFD_QUEUE_TYPE_SDMA => mret true
  | KFD_QUEUE_TYPE_COMPUTE =>
      (if truthy (eop_ring_buffer_address p) then
         require (eop_ring_buffer_size p =? eop_buffer_size topo) (- EINVAL);;
         or_goto (kfd_queue_buffer_get vm (eop_ring_buffer_address p)
                    (fun b q => q <| eop_buf_bo := b |>) (eop_ring_buffer_size p))
       else mret tt);;
      require (qp_ctl_stack_size p =? ctl_stack_size topo) (- EINVAL);;
      require (ctx_save_restore_area_size p =? cwsr_size topo) (- EINVAL);;
      err ← kfd_queue_buffer_get vm (ctx_save_restore_area_address p)
              (fun b q => q <| cwsr_bo := b |>) (total_cwsr_size (pdd_dev pdd));
      mret (err =? 0)
  end.

Definition kfd_queue_unref_bo_va (vm bo : Z) s : queue_state W :=
  if truthy bo then
    let p := amdgpu_vm_bo_find vm bo (world s) in
    if truthy p && truthy (queue_refcount (bo_va_at p s)) then add_ref (-1) p s else s
  else s.
Definition kfd_queue_unref_bo_vas_locked (vm : Z) s : queue_state W :=
  let p := props s in
  let s := kfd_queue_unref_bo_va vm (wptr_bo p) s in
  let s := kfd_queue_unref_bo_va vm (rptr_bo p) s in
  let s := kfd_queue_unref_bo_va vm (ring_bo p) s in
  let s := kfd_queue_unref_bo_va vm (eop_buf_bo p) s in
  kfd_queue_unref_bo_va vm (cwsr_bo p) s.
Definition kfd_queue_unref_bo_vas (pdd : kfd_process_device) s : Z * queue_state W :=
  let vm := drm_priv_to_vm (drm_priv pdd) in
  let '(err, w) := amdgpu_bo_reserve (vm_root_bo vm) (world s) in
  let s := s <| world := w |> in
  if truthy err then (err, s)
  else (0, kfd_queue_unref_bo_vas_locked vm s <| world ::= amdgpu_bo_unreserve (vm_root_bo vm) |>).

Definition unref_bo (get : queue_properties -> Z) (set_bo : Z -> queue_properties -> queue_properties)
    s : queue_state W :=
  let '(b, w) := amdgpu_bo_unref (get (props s)) (world s) in
  s <| world := w |> <| props ::= set_bo b |>.
(** [kfd_queue_buffer_svm_put] is empty without SVM. *)
Definition kfd_queue_release_buffers (pdd : kfd_process_device) s : Z * queue_state W :=
  let s := unref_bo wptr_bo (fun b q => q <| wptr_bo := b |>) s in
  let s := unref_bo rptr_bo (fun b q => q <| rptr_bo := b |>) s in
  let s := unref_bo ring_bo (fun b q => q <| ring_bo := b |>) s in
  let s := unref_bo eop_buf_bo (fun b q => q <| eop_buf_bo := b |>) s in
  let s := unref_bo cwsr_bo (fun b q => q <| cwsr_bo := b |>) s in
  match kfd_topology_device_by_id topo (node_id (pdd_dev pdd)) with
  | None => (- EINVAL, s)
  | Some _ => (0, s)
  end.

Definition kfd_queue_buffer_svm_get : Z := - EINVAL.

Definition kfd_queue_acquire_buffers (pdd : kfd_process_device) s : Z * queue_state W :=
  match kfd_topology_device_by_id topo (node_id (pdd_dev pdd)) with
  | None => (- EINVAL, s)
  | Some _ =>
      let vm := drm_priv_to_vm (drm_priv pdd) in
      let unreserve s := s <| world ::= amdgpu_bo_unreserve (vm_root_bo vm) |> in
      let '(err, w) := amdgpu_bo_reserve (vm_root_bo vm) (world s) in
      let s := s <| world := w |> in
      if truthy err then (err, s)
      else
        match acquire_locked pdd vm s with
        | (Exit err, s) =>
            let s := unreserve (kfd_queue_unref_bo_vas_locked vm s) in
            (err, (kfd_queue_release_buffers pdd s).2)
        | (Go true, s) => (0, unreserve s)
        | (Go false, s) =>
            let s := unreserve s in
            let err := kfd_queue_buffer_svm_get in
            if truthy err then
              let s := (kfd_queue_unref_bo_vas pdd s).2 in
              (err, (kfd_queue_release_buffers pdd s).2)
            else (0, s)
        end
  end.
End Queue.

(** ** Context save area sizes *)
Definition SGPR_SIZE_PER_CU : Z := 0x4000.
Definition LDS_SIZE_PER_CU : Z := 0x10000.
Definition HWREG_SIZE_PER_CU : Z := 0x1000.
Definition DEBUGGER_BYTES_ALIGN : Z := 64.
Definition DEBUGGER_BYTES_PER_WAVE : Z := 32.
Definition SIZEOF_HSA_USER_CONTEXT_SAVE_AREA_HEADER : Z := 40.
Definition kfd_get_vgpr_size_per_cu (gfxv : Z) : Z :=
  if (gfxv / 100 * 100 =? 90400) || (gfxv =? 90010) || (gfxv =? 90008) then 0x80000
  else if (gfxv =? 110000) || (gfxv =? 110001) || (gfxv =? 120000) || (gfxv =? 120001) then 0x60000
  else 0x40000.
Definition WG_CONTEXT_DATA_SIZE_PER_CU (gfxv : Z) : Z :=
  kfd_get_vgpr_size_per_cu gfxv + SGPR_SIZE_PER_CU + LDS_SIZE_PER_CU + HWREG_SIZE_PER_CU.
Definition CNTL_STACK_BYTES_PER_WAVE (gfxv : Z) : Z := if 100100 <=? gfxv then 12 else 8.

(** [None]: a division by zero traps. *)
Definition div_trap (a b : Z) : option Z := if b =? 0 then None else Some (a / b).
Definition eop_size (gfxv old : Z) : Z :=
  if gfxv =? 80002 then 0x8000
  else if gfxv / 100 * 100 =? 90400 then 4096
  else if 80000 <=? gfxv then 4096 else old.
Definition kfd_queue_ctx_save_restore_size (p : kfd_node_properties) : option kfd_node_properties :=
  let gfxv := gfx_target_version p in
  if gfxv <? 80001 then Some p
  else
    cu ← div_trap (simd_count p) (simd_per_cu p);
    let cu_num := cu / NUM_XCC 0 in
    wave_num ←
      (if gfxv <? 100100 then
         per_engine ← div_trap (array_count p) (simd_arrays_per_engine p);
         Some (Z.min (u32 (cu_num * 40)) (u32 (per_engine * 512)))
       else Some (u32 (cu_num * 32)));
    let wg_data_size := ALIGN (u32 (cu_num * WG_CONTEXT_DATA_SIZE_PER_CU gfxv)) QPAGE_SIZE in
    let ctl := u32 (wave_num * CNTL_STACK_BYTES_PER_WAVE gfxv + 8) in
    let ctl := ALIGN (u32 (SIZEOF_HSA_USER_CONTEXT_SAVE_AREA_HEADER + ctl)) QPAGE_SIZE in
    let ctl := if gfxv / 10000 * 10000 =? 100000 then Z.min ctl 0x7000 else ctl in
    Some (p <| ctl_stack_size := ctl |>
            <| debug_memory_size := ALIGN (u32 (wave_num * DEBUGGER_BYTES_PER_WAVE)) DEBUGGER_BYTES_ALIGN |>
            <| cwsr_size := u32 (ctl + wg_data_size) |>
            <| eop_buffer_size ::= eop_size gfxv |>).

(** ** What the code relies on *)
Definition same_tables {W} `{AmdgpuVm W} (w w' : W) : Prop :=
  (forall vm a, amdgpu_vm_bo_lookup_mapping vm a w' = amdgpu_vm_bo_lookup_mapping vm a w) /\
  (forall vm b, amdgpu_vm_bo_find vm b w' = amdgpu_vm_bo_find vm b w).
(** Taking and dropping a reference changes that object's count only, dropping
    clears the caller's pointer, and none of the four functions changes the
    mappings.  [bo_refs] observes the reference counts. *)
Class AmdgpuVmLaws (W : Type) `{AmdgpuVm W} := {
  bo_refs : W -> Z -> Z;
  ref_same b w : (amdgpu_bo_ref b w).1 = b;
  ref_refs b w c : bo_refs (amdgpu_bo_ref b w).2 c = bo_refs w c + (if c =? b then 1 else 0);
  unref_null b w : (amdgpu_bo_unref b w).1 = 0;
  unref_refs b w c : bo_refs (amdgpu_bo_unref b w).2 c =
    bo_refs w c - (if b =? 0 then 0 else if c =? b then 1 else 0);
  reserve_refs b w c : bo_refs (amdgpu_bo_reserve b w).2 c = bo_refs w c;
  unreserve_refs b w c : bo_refs (amdgpu_bo_unreserve b w) c = bo_refs w c;
  ref_tables b w : same_tables w (amdgpu_bo_ref b w).2;
  unref_tables b w : same_tables w (amdgpu_bo_unref b w).2;
  reserve_tables b w : same_tables w (amdgpu_bo_reserve b w).2;
  unreserve_tables b w : same_tables w (amdgpu_bo_unreserve b w)
}.

(** ** Accounting of the held buffers *)
Definition roles (q : queue_properties) : list Z := [wptr_bo q; rptr_bo q; ring_bo q; eop_buf_bo q; cwsr_bo q].
Definition with_roles (l : list Z) (q : queue_properties) : queue_properties :=
  q <| wptr_bo := l !!! 0%nat |> <| rptr_bo := l !!! 1%nat |> <| ring_bo := l !!! 2%nat |>
    <| eop_buf_bo := l !!! 3%nat |> <| cwsr_bo := l !!! 4%nat |>.
Definition no_roles : list Z := replicate 5 0.

Fixpoint sum_over (f : Z -> Z) (l : list Z) : Z :=
  match l with [] => 0 | b :: l' => f b + sum_over f l' end.
Lemma sum_insert f l i b : (i < length l)%nat ->
  sum_over f (<[i := b]> l) = sum_over f l - f (l !!! i) + f b.
Proof.
  revert i. induction l as [|x l IH]; intros i Hi; simpl in *; [lia|].
  destruct i as [|i]; simpl; [lia|]. rewrite IH by lia. lia.
Qed.
Lemma sum_nonneg f l : (forall b, 0 <= f b) -> 0 <= sum_over f l.
Proof. intros Hf. induction l as [|b l IH]; simpl; [lia|]. specialize (Hf b). lia. Qed.
Lemma elem_insert_inv (l : list Z) i b c : c ∈ <[i := b]> l -> c = b \/ c ∈ l.
Proof.
  intros [j Hj]%list_elem_of_lookup. apply list_lookup_insert_Some in Hj as [(_ & <- & _)|[_ Hj]]; [by left|].
  right. by eapply list_elem_of_lookup_2.
Qed.

Section Accounting.
  Context {W : Type} `{AMD : AmdgpuVm W} `{LAWS : !AmdgpuVmLaws W}.
  Implicit Types s : queue_state W.

(** How often a buffer object in a role counts for the [bo_va] at [p]. *)
Definition va_share (vm : Z) (w : W) (p b : Z) : Z :=
  if b =? 0 then 0 else if amdgpu_vm_bo_find vm b w =? p then 1 else 0.
Definition bo_share (c b : Z) : Z := if b =? 0 then 0 else if c =? b then 1 else 0.
Definition refcount (p : Z) s : Z := queue_refcount (bo_va_at p s).

(** [s] differs from [s0] by the references held for the roles of [props s]. *)
Record held (vm : Z) (s0 s : queue_state W) : Prop := {
  h_tables : same_tables (world s0) (world s);
  h_base p : base_bo (bo_va_at p s) = base_bo (bo_va_at p s0);
  h_count p : refcount p s = refcount p s0 + sum_over (va_share vm (world s0) p) (roles (props s));
  h_refs c : bo_refs (world s) c = bo_refs (world s0) c + sum_over (bo_share c) (roles (props s));
  h_props : with_roles no_roles (props s) = with_roles no_roles (props s0);
  h_found b : b ∈ roles (props s) -> b <> 0 -> amdgpu_vm_bo_find vm b (world s0) <> 0
}.
(** Every mapping of the address space has an object, which the address space
    knows under the mapping's [bo_va]. *)
Definition vm_consistent (vm : Z) s : Prop :=
  forall a m, amdgpu_vm_bo_lookup_mapping vm a (world s) = Some m ->
    let b := base_bo (bo_va_at (bo_va m) s) in
    b <> 0 /\ bo_va m <> 0 /\ amdgpu_vm_bo_find vm b (world s) = bo_va m.

Lemma same_tables_trans (w1 w2 w3 : W) : same_tables w1 w2 -> same_tables w2 w3 -> same_tables w1 w3.
Proof. intros [H1 H2] [H3 H4]. split; intros; by rewrite ?H3, ?H4. Qed.

Lemma bo_va_add_ref d p q s : bo_va_at q (add_ref d p s) =
  if q =? p then mk_bo_va (refcount p s + d) (base_bo (bo_va_at p s)) else bo_va_at q s.
Proof.
  unfold add_ref, refcount, bo_va_at. simpl. destruct (Z.eqb_spec q p) as [->|Hq].
  - by rewrite lookup_insert_eq.
  - by rewrite lookup_insert_ne by done.
Qed.
Lemma refcount_add_ref d p q s : refcount q (add_ref d p s) = refcount q s + if q =? p then d else 0.
Proof.
  unfold refcount at 1. rewrite bo_va_add_ref. destruct (Z.eqb_spec q p) as [->|]; simpl; [done|].
  unfold refcount. lia.
Qed.
Lemma base_add_ref d p q s : base_bo (bo_va_at q (add_ref d p s)) = base_bo (bo_va_at q s).
Proof. rewrite bo_va_add_ref. by destruct (Z.eqb_spec q p) as [->|]. Qed.

(** *** Taking one buffer *)
Definition buffer_ok (vm addr expected_size : Z) (w : W) : bool :=
  let user_addr := Z.shiftr (u64 addr) AMDGPU_GPU_PAGE_SHIFT in
  let size := Z.shiftr (u64 expected_size) AMDGPU_GPU_PAGE_SHIFT in
  match amdgpu_vm_bo_lookup_mapping vm user_addr w with
  | None => false
  | Some m => (user_addr =? map_start m) && ((size =? 0) || (u64 (user_addr + size - 1) =? map_last m))
  end.

(** The object mapped at an address. *)
Definition buffer_at (vm addr : Z) s : Z :=
  match amdgpu_vm_bo_lookup_mapping vm (Z.shiftr (u64 addr) AMDGPU_GPU_PAGE_SHIFT) (world s) with
  | Some m => base_bo (bo_va_at (bo_va m) s)
  | None => 0
  end.

(** [set_bo] is the setter of the [i]-th role. *)
Record is_role (i : nat) (set_bo : Z -> queue_properties -> queue_properties) : Prop := {
  role_lt : (i < 5)%nat;
  role_set b q : roles (set_bo b q) = <[i := b]> (roles q);
  role_rest b q : with_roles no_roles (set_bo b q) = with_roles no_roles q;
  role_same q : set_bo (roles q !!! i) q = q
}.

(** The state after [*pbo = amdgpu_bo_ref(bo); queue_refcount++]. *)
Definition taken (p b : Z) (set_bo : Z -> queue_properties -> queue_properties) s : queue_state W :=
  add_ref 1 p (s <| world := (amdgpu_bo_ref b (world s)).2 |> <| props ::= set_bo b |>).

Lemma taken_held vm p b set_bo i s0 s :
  is_role i set_bo -> held vm s0 s -> roles (props s) !!! i = 0 ->
  b <> 0 -> p <> 0 -> amdgpu_vm_bo_find vm b (world s0) = p -> held vm s0 (taken p b set_bo s).
Proof.
  intros [Hlt Hset Hrest Hsame] [Ht Hb Hc Hr Hp Hf] Hz Hbo Hva Hfind. split.
  - eapply same_tables_trans; [exact Ht|apply ref_tables].
  - intros q. unfold taken. rewrite base_add_ref. apply Hb.
  - intros q. unfold taken. rewrite refcount_add_ref.
    change (refcount q (field_upd _ _)) with (refcount q s).
    change (props (add_ref _ _ _)) with (set_bo b (props s)). rewrite Hset, sum_insert, Hz, Hc by (simpl; lia).
    assert (va_share vm (world s0) q b = if q =? p then 1 else 0) as ->.
    { unfold va_share. rewrite Hfind, (Z.eqb_sym q). by replace (b =? 0) with false by lia. }
    change (va_share vm (world s0) q 0) with 0. lia.
  - intros c. change (bo_refs (amdgpu_bo_ref b (world s)).2 c = bo_refs (world s0) c +
      sum_over (bo_share c) (roles (set_bo b (props s)))).
    rewrite ref_refs, Hr, Hset, sum_insert, Hz by (simpl; lia).
    assert (bo_share c b = if c =? b then 1 else 0) as ->.
    { unfold bo_share. by replace (b =? 0) with false by lia. }
    change (bo_share c 0) with 0. lia.
  - change (with_roles no_roles (set_bo b (props s)) = with_roles no_roles (props s0)). by rewrite Hrest.
  - intros c Hin Hc0. change (c ∈ roles (set_bo b (props s))) in Hin. rewrite Hset in Hin.
    apply elem_insert_inv in Hin as [->|Hin]; [by rewrite Hfind|by apply Hf].
Qed.

Lemma buffer_get_held vm addr set_bo size i s0 s :
  vm_consistent vm s0 -> is_role i set_bo -> held vm s0 s -> roles (props s) !!! i = 0 ->
  match kfd_queue_buffer_get vm addr set_bo size s with
  | (Go ret, s') =>
      ret = (if buffer_ok vm addr size (world s0) then 0 else - EINVAL) /\ held vm s0 s' /\
      roles (props s') = <[i := if buffer_ok vm addr size (world s0) then buffer_at vm addr s0 else 0]> (roles (props s))
  | (Exit _, _) => False
  end.
Proof.
  intros Hvm Hrole Hheld Hz. pose proof Hheld as [[Htl Htf] Hb Hc Hr Hp Hf].
  assert (set_bo 0 (props s) = props s) as H0 by (rewrite <- Hz; apply (role_same i), Hrole).
  assert (held vm s0 (s <| props ::= set_bo 0 |>) /\
    roles (set_bo 0 (props s)) = <[i := 0]> (roles (props s))) as Herr.
  { split; [|by apply role_set].
    assert (s <| props ::= set_bo 0 |> = s) as -> by (destruct s; exact (f_equal (mk_queue_state _ _) H0)). done. }
  unfold kfd_queue_buffer_get, buffer_ok, buffer_at, on_world, mbind, handler_bind.
  generalize (Z.shiftr (u64 addr) AMDGPU_GPU_PAGE_SHIFT). generalize (Z.shiftr (u64 size) AMDGPU_GPU_PAGE_SHIFT).
  generalize u64. intros word64 sz ua.
  simpl. rewrite Htl.
  destruct (amdgpu_vm_bo_lookup_mapping vm _ (world s0)) as [m|] eqn:Em; simpl; [|auto].
  destruct (Hvm _ _ Em) as (Hbo & Hva & Hfind). rewrite Hb.
  pose proof (taken_held vm (bo_va m) (base_bo (bo_va_at (bo_va m) s0)) set_bo i s0 s Hrole Hheld Hz Hbo Hva Hfind) as Hok.
  unfold taken in Hok. pose proof (ref_same (base_bo (bo_va_at (bo_va m) s0)) (world s)) as Hrs.
  destruct (_ =? map_start m); simpl; [|auto].
  unfold truthy. destruct (_ =? 0); simpl; [|destruct (word64 _ =? map_last m); simpl; [|auto]].
  all: rewrite (surjective_pairing (amdgpu_bo_ref _ _)), Hrs; simpl.
  all: split; [done|]; split; [exact Hok|]; by apply role_set.
Qed.

Lemma get_step {B} (P : outcome Z B * queue_state W -> Prop) vm addr set_bo size i s0 s
    (k : unit -> handler (queue_state W) Z B) :
  vm_consistent vm s0 -> is_role i set_bo -> held vm s0 s -> roles (props s) !!! i = 0 ->
  (forall s', buffer_ok vm addr size (world s0) = true -> held vm s0 s' ->
     roles (props s') = <[i := buffer_at vm addr s0]> (roles (props s)) -> P (k tt s')) ->
  (forall s', buffer_ok vm addr size (world s0) = false -> held vm s0 s' -> P (Exit (- EINVAL), s')) ->
  P ((or_goto (kfd_queue_buffer_get vm addr set_bo size) ≫= k) s).
Proof.
  intros Hvm Hrole Hheld Hz Hok Herr. unfold or_goto, require, mbind, handler_bind.
  pose proof (buffer_get_held vm addr set_bo size i s0 s Hvm Hrole Hheld Hz) as Hget.
  destruct (kfd_queue_buffer_get _ _ _ _ s) as [[|ret] s']; [done|].
  destruct Hget as (-> & Hs' & Hb). destruct (buffer_ok _ _ _ _); simpl; eauto.
Qed.

Lemma role_0 : is_role 0 (fun b q => q <| wptr_bo := b |>).
Proof. split; [lia|by intros b []..|by intros []]. Qed.
Lemma role_1 : is_role 1 (fun b q => q <| rptr_bo := b |>).
Proof. split; [lia|by intros b []..|by intros []]. Qed.
Lemma role_2 : is_role 2 (fun b q => q <| ring_bo := b |>).
Proof. split; [lia|by intros b []..|by intros []]. Qed.
Lemma role_3 : is_role 3 (fun b q => q <| eop_buf_bo := b |>).
Proof. split; [lia|by intros b []..|by intros []]. Qed.
Lemma role_4 : is_role 4 (fun b q => q <| cwsr_bo := b |>).
Proof. split; [lia|by intros b []..|by intros []]. Qed.

(** The conditions under which a queue's buffers are accepted. *)
Definition queue_buffers_ok (topo : kfd_node_properties) (node : kfd_node) (vm : Z) (p : queue_properties)
    (w : W) : bool :=
  buffer_ok vm (write_ptr p) QPAGE_SIZE w && buffer_ok vm (read_ptr p) QPAGE_SIZE w &&
  buffer_ok vm (queue_address p) (queue_size p) w &&
  match qp_type p with
  | KFD_QUEUE_TYPE_SDMA => true
  | KFD_QUEUE_TYPE_COMPUTE =>
      (if truthy (eop_ring_buffer_address p) then
         (eop_ring_buffer_size p =? eop_buffer_size topo) &&
         buffer_ok vm (eop_ring_buffer_address p) (eop_ring_buffer_size p) w
       else true) &&
      (qp_ctl_stack_size p =? ctl_stack_size topo) &&
      (ctx_save_restore_area_size p =? cwsr_size topo) &&
      buffer_ok vm (ctx_save_restore_area_address p) (total_cwsr_size topo node) w
  end.

(** The buffer objects of a queue by role; [cwsr] says whether the context save
    area is among them. *)
Definition queue_roles (vm : Z) (p : queue_properties) s (cwsr : bool) : list Z :=
  let compute := match qp_type p with KFD_QUEUE_TYPE_COMPUTE => true | KFD_QUEUE_TYPE_SDMA => false end in
  [buffer_at vm (write_ptr p) s; buffer_at vm (read_ptr p) s; buffer_at vm (queue_address p) s;
   if compute && truthy (eop_ring_buffer_address p) then buffer_at vm (eop_ring_buffer_address p) s else 0;
   if compute && cwsr then buffer_at vm (ctx_save_restore_area_address p) s else 0].
(** The context-save part of [acquire_locked]. *)
Definition acquire_cwsr topo (pdd : kfd_process_device) (vm : Z) (p : queue_properties) :
    handler (queue_state W) Z bool :=
  require (qp_ctl_stack_size p =? ctl_stack_size topo) (- EINVAL);;
  require (ctx_save_restore_area_size p =? cwsr_size topo) (- EINVAL);;
  err ← kfd_queue_buffer_get vm (ctx_save_restore_area_address p)
          (fun b q => q <| cwsr_bo := b |>) (total_cwsr_size topo (pdd_dev pdd));
  mret (err =? 0).

(** [l b]: the roles filled when the section is left with [b]. *)
Definition locked_ok (vm : Z) s0 (l : bool -> list Z) (ok : bool) (r : outcome Z bool * queue_state W) : Prop :=
  match r with
  | (Exit e, s') => e = - EINVAL /\ ok = false /\ held vm s0 s'
  | (Go b, s') => b = ok /\ held vm s0 s' /\ roles (props s') = l b
  end.

Lemma acquire_cwsr_ok topo pdd vm p s0 s :
  vm_consistent vm s0 -> held vm s0 s -> roles (props s) !!! 4%nat = 0 ->
  locked_ok vm s0 (fun b => <[4%nat := if b then buffer_at vm (ctx_save_restore_area_address p) s0 else 0]> (roles (props s)))
    ((qp_ctl_stack_size p =? ctl_stack_size topo) &&
      (ctx_save_restore_area_size p =? cwsr_size topo) &&
      buffer_ok vm (ctx_save_restore_area_address p) (total_cwsr_size topo (pdd_dev pdd)) (world s0))
    (acquire_cwsr topo pdd vm p s).
Proof.
  intros Hvm Hheld Hz. unfold acquire_cwsr, require, mbind, handler_bind, locked_ok.
  destruct (qp_ctl_stack_size p =? _); simpl; [|auto].
  destruct (ctx_save_restore_area_size p =? _); simpl; [|auto].
  pose proof (buffer_get_held vm (ctx_save_restore_area_address p) _ (total_cwsr_size topo (pdd_dev pdd))
    4 s0 s Hvm role_4 Hheld Hz) as Hget.
  destruct (kfd_queue_buffer_get _ _ _ _ s) as [[|ret] s']; [done|].
  destruct Hget as (-> & Hs' & Hr). simpl. destruct (buffer_ok _ _ _ _); by split.
Qed.

Lemma acquire_locked_ok topo pdd vm s :
  vm_consistent vm s -> held vm s s -> roles (props s) = no_roles ->
  locked_ok vm s (queue_roles vm (props s) s) (queue_buffers_ok topo (pdd_dev pdd) vm (props s) (world s))
    (acquire_locked topo pdd vm s).
Proof.
  intros Hvm Hheld Hz. unfold queue_buffers_ok. set (p := props s) in *.
  change (acquire_locked topo pdd vm s) with ((or_goto (kfd_queue_buffer_get vm (write_ptr p) (fun b q => q <| wptr_bo := b |>) QPAGE_SIZE);;
    or_goto (kfd_queue_buffer_get vm (read_ptr p) (fun b q => q <| rptr_bo := b |>) QPAGE_SIZE);;
    or_goto (kfd_queue_buffer_get vm (queue_address p) (fun b q => q <| ring_bo := b |>) (queue_size p));;
    match qp_type p with
    | KFD_QUEUE_TYPE_SDMA => mret true
    | KFD_QUEUE_TYPE_COMPUTE =>
        (if truthy (eop_ring_buffer_address p) then
           require (eop_ring_buffer_size p =? eop_buffer_size topo) (- EINVAL);;
           or_goto (kfd_queue_buffer_get vm (eop_ring_buffer_address p)
                      (fun b q => q <| eop_buf_bo := b |>) (eop_ring_buffer_size p))
         else mret tt);;
        acquire_cwsr topo pdd vm p
    end) s).
  eapply get_step; [exact Hvm|apply role_0|exact Hheld|by rewrite (Hz : roles (props s) = _)| |by intros s1 -> ?].
  intros s1 -> Hs1 Hr1. rewrite (Hz : roles (props s) = _) in Hr1.
  eapply get_step; [exact Hvm|apply role_1|exact Hs1|by rewrite Hr1| |by intros s2 -> ?].
  intros s2 -> Hs2 Hr2. rewrite Hr1 in Hr2.
  eapply get_step; [exact Hvm|apply role_2|exact Hs2|by rewrite Hr2| |by intros s3 -> ?].
  intros s3 -> Hs3 Hr3. rewrite Hr2 in Hr3. simpl.
  unfold queue_roles. destruct (qp_type p); [|exact (conj eq_refl (conj Hs3 Hr3))]. destruct (truthy (eop_ring_buffer_address p)); simpl.
  - destruct (eop_ring_buffer_size p =? eop_buffer_size topo); simpl; [|done].
    match goal with |- locked_ok _ _ ?l ?ok _ => change (locked_ok vm s l ok
      (((or_goto (kfd_queue_buffer_get vm (eop_ring_buffer_address p) (fun b q => q <| eop_buf_bo := b |>)
          (eop_ring_buffer_size p))) ≫= (fun _ => acquire_cwsr topo pdd vm p)) s3)) end.
    eapply get_step; [exact Hvm|apply role_3|exact Hs3|by rewrite Hr3| |by intros s4 -> ?].
    intros s4 -> Hs4 Hr4. rewrite Hr3 in Hr4. simpl.
    pose proof (acquire_cwsr_ok topo pdd vm p s s4 Hvm Hs4 ltac:(by rewrite Hr4)) as Hc. by rewrite Hr4 in Hc.
  - pose proof (acquire_cwsr_ok topo pdd vm p s s3 Hvm Hs3 ltac:(by rewrite Hr3)) as Hc. by rewrite Hr3 in Hc.
Qed.

(** *** Dropping the buffers *)
Lemma unref_bo_va_count vm b p s :
  (b <> 0 -> amdgpu_vm_bo_find vm b (world s) <> 0 /\ 0 < refcount (amdgpu_vm_bo_find vm b (world s)) s) ->
  let s' := kfd_queue_unref_bo_va vm b s in
  world s' = world s /\ props s' = props s /\
  base_bo (bo_va_at p s') = base_bo (bo_va_at p s) /\
  refcount p s' = refcount p s - va_share vm (world s) p b.
Proof.
  intros Hb. unfold kfd_queue_unref_bo_va, va_share, truthy. destruct (Z.eqb_spec b 0) as [->|Hb0]; simpl; [auto with lia|].
  destruct (Hb Hb0) as [Hf Hpos]. set (q := amdgpu_vm_bo_find vm b (world s)) in *.
  change (queue_refcount (bo_va_at q s)) with (refcount q s).
  replace (q =? 0) with false by lia. replace (refcount q s =? 0) with false by lia. simpl.
  rewrite base_add_ref, refcount_add_ref, (Z.eqb_sym p). repeat split. destruct (q =? p); lia.
Qed.

(** Drop the references of a list of roles, in order. *)
Fixpoint unref_list (vm : Z) (l : list Z) s : queue_state W :=
  match l with
  | [] => s
  | b :: l' => unref_list vm l' (kfd_queue_unref_bo_va vm b s)
  end.
Lemma unref_locked_list vm s : kfd_queue_unref_bo_vas_locked vm s = unref_list vm (roles (props s)) s.
Proof. reflexivity. Qed.

Lemma unref_list_count vm l base s :
  (forall p, 0 <= base p) -> (forall p, refcount p s = base p + sum_over (va_share vm (world s) p) l) ->
  (forall b, b ∈ l -> b <> 0 -> amdgpu_vm_bo_find vm b (world s) <> 0) ->
  let s' := unref_list vm l s in
  world s' = world s /\ props s' = props s /\
  forall p, base_bo (bo_va_at p s') = base_bo (bo_va_at p s) /\ refcount p s' = base p.
Proof.
  intros Hbase. revert s. induction l as [|b l IH]; intros s Hc Hf; simpl in *.
  { split; [done|]. split; [done|]. intros p. split; [done|]. rewrite Hc. lia. }
  assert (forall p, 0 <= sum_over (va_share vm (world s) p) l) as Hpos.
  { intros p. apply sum_nonneg. intros c. unfold va_share. by repeat case_match. }
  assert (b <> 0 -> amdgpu_vm_bo_find vm b (world s) <> 0 /\ 0 < refcount (amdgpu_vm_bo_find vm b (world s)) s) as Hb.
  { intros Hb0. split; [apply Hf; [set_solver|done]|]. rewrite Hc.
    specialize (Hbase (amdgpu_vm_bo_find vm b (world s))). specialize (Hpos (amdgpu_vm_bo_find vm b (world s))).
    unfold va_share at 1. replace (b =? 0) with false by lia. rewrite Z.eqb_refl. lia. }
  pose proof (unref_bo_va_count vm b) as Hstep.
  assert (world (kfd_queue_unref_bo_va vm b s) = world s) as Hw by apply (Hstep 0 s Hb).
  destruct (IH (kfd_queue_unref_bo_va vm b s)) as (H1 & H2 & H3).
  - intros p. destruct (Hstep p s Hb) as (_ & _ & _ & ->). rewrite Hw, Hc. lia.
  - intros c Hc'. rewrite Hw. apply Hf. set_solver.
  - split; [congruence|]. split; [destruct (Hstep 0 s Hb) as (_ & <- & _); exact H2|].
    intros p. destruct (H3 p) as [-> ->]. split; [|done]. apply (Hstep p s Hb).
Qed.
Lemma unref_list_frame vm l s : world (unref_list vm l s) = world s /\ props (unref_list vm l s) = props s.
Proof.
  revert s. induction l as [|b l IH]; intros s; simpl; [done|]. destruct (IH (kfd_queue_unref_bo_va vm b s)) as [-> ->].
  unfold kfd_queue_unref_bo_va. by repeat case_match.
Qed.

(** [s'] is [s] again, for everything the driver can observe. *)
Record restored s s' : Prop := {
  rs_tables : same_tables (world s) (world s');
  rs_va p : bo_va_at p s' = bo_va_at p s;
  rs_refs c : bo_refs (world s') c = bo_refs (world s) c;
  rs_props : props s' = props s
}.

Lemma unref_bo_step get set_bo i s :
  is_role i set_bo -> (forall q, get q = roles q !!! i) ->
  let s' := unref_bo get set_bo s in
  same_tables (world s) (world s') /\ bo_vas s' = bo_vas s /\
  roles (props s') = <[i := 0]> (roles (props s)) /\
  with_roles no_roles (props s') = with_roles no_roles (props s) /\
  forall c, bo_refs (world s') c + sum_over (bo_share c) (roles (props s)) =
            bo_refs (world s) c + sum_over (bo_share c) (roles (props s')).
Proof.
  intros [Hlt Hset Hrest _] Hget. unfold unref_bo. rewrite Hget.
  pose proof (unref_null (roles (props s) !!! i) (world s)) as Hn.
  pose proof (unref_refs (roles (props s) !!! i) (world s)) as Hr.
  pose proof (unref_tables (roles (props s) !!! i) (world s)) as Ht.
  rewrite (surjective_pairing (amdgpu_bo_unref _ _)), Hn.
  set (s' := field_upd _ _). assert (props s' = set_bo 0 (props s)) as Ep by done.
  assert (world s' = (amdgpu_bo_unref (roles (props s) !!! i) (world s)).2) as Ew by done.
  assert (bo_vas s' = bo_vas s) as Ev by done. clearbody s'. rewrite Ep, Ew.
  split; [done|]. split; [done|]. split; [apply Hset|]. split; [apply Hrest|]. intros c.
  rewrite Hset, sum_insert, Hr by (simpl; lia).
  change (bo_share c 0) with 0. fold (bo_share c (roles (props s) !!! i)). lia.
Qed.

Lemma release_buffers_ok topo pdd s :
  let s' := (kfd_queue_release_buffers topo pdd s).2 in
  same_tables (world s) (world s') /\ bo_vas s' = bo_vas s /\
  props s' = with_roles no_roles (props s) /\
  forall c, bo_refs (world s') c + sum_over (bo_share c) (roles (props s)) = bo_refs (world s) c.
Proof.
  unfold kfd_queue_release_buffers.
  destruct (unref_bo_step wptr_bo _ 0 s role_0 ltac:(by intros [])) as (T0 & V0 & R0 & P0 & C0).
  set (s1 := unref_bo wptr_bo _ s) in *. clearbody s1.
  destruct (unref_bo_step rptr_bo _ 1 s1 role_1 ltac:(by intros [])) as (T1 & V1 & R1 & P1 & C1).
  set (s2 := unref_bo rptr_bo _ s1) in *. clearbody s2.
  destruct (unref_bo_step ring_bo _ 2 s2 role_2 ltac:(by intros [])) as (T2 & V2 & R2 & P2 & C2).
  set (s3 := unref_bo ring_bo _ s2) in *. clearbody s3.
  destruct (unref_bo_step eop_buf_bo _ 3 s3 role_3 ltac:(by intros [])) as (T3 & V3 & R3 & P3 & C3).
  set (s4 := unref_bo eop_buf_bo _ s3) in *. clearbody s4.
  destruct (unref_bo_step cwsr_bo _ 4 s4 role_4 ltac:(by intros [])) as (T4 & V4 & R4 & P4 & C4).
  set (s5 := unref_bo cwsr_bo _ s4) in *. clearbody s5.
  assert (forall o : option kfd_node_properties, (match o with None => (- EINVAL, s5) | Some _ => (0, s5) end).2 = s5)
    as -> by by intros [].
  assert (roles (props s5) = no_roles) as R5 by (by rewrite R4, R3, R2, R1, R0).
  split; [eauto using same_tables_trans|]. split; [congruence|]. split.
  - transitivity (with_roles no_roles (props s5)); [|congruence].
    rewrite <- R5. by destruct (props s5).
  - intros c. specialize (C0 c); specialize (C1 c); specialize (C2 c); specialize (C3 c); specialize (C4 c).
    rewrite R5 in C4. change (sum_over (bo_share c) no_roles) with 0 in C4. lia.
Qed.

Lemma held_refl vm s : roles (props s) = no_roles -> held vm s s.
Proof.
  intros Hz. split; rewrite ?Hz; try done.
  - intros p. change (sum_over _ no_roles) with 0. lia.
  - intros c. change (sum_over _ no_roles) with 0. lia.
  - intros b Hb Hb0. unfold no_roles in Hb. by apply elem_of_replicate in Hb as [-> _].
Qed.
(** The reservation calls change nothing that is accounted. *)
Lemma held_world vm s0 s w : same_tables (world s) w -> (forall c, bo_refs w c = bo_refs (world s) c) ->
  held vm s0 s -> held vm s0 (s <| world := w |>).
Proof.
  intros Ht Hr [H1 H2 H3 H4 H5 H6].
  refine (Build_held vm s0 (s <| world := w |>) (same_tables_trans _ _ _ H1 Ht) H2 H3 _ H5 H6).
  intros c. change (bo_refs w c = bo_refs (world s0) c + sum_over (bo_share c) (roles (props s))). by rewrite Hr.
Qed.

(** Unreferencing the [bo_va]s of the roles and then the objects undoes
    everything held. *)
Lemma held_undo topo pdd vm s0 s s1 :
  roles (props s0) = no_roles -> (forall p, 0 <= refcount p s0) -> held vm s0 s ->
  bo_vas s1 = bo_vas (unref_list vm (roles (props s)) s) -> props s1 = props s ->
  same_tables (world s) (world s1) -> (forall c, bo_refs (world s1) c = bo_refs (world s) c) ->
  restored s0 (kfd_queue_release_buffers topo pdd s1).2.
Proof.
  intros Hz Hpos [[Htl Htf] Hb Hc Hr Hp Hf] Hv1 Hp1 Ht1 Hr1.
  destruct (unref_list_count vm (roles (props s)) (fun p => refcount p s0) s Hpos) as (_ & _ & Hu).
  { intros p. rewrite Hc. f_equal. clear -Htf. induction (roles (props s)) as [|b l IH]; simpl; [done|].
    f_equal; [|done]. unfold va_share. by rewrite Htf. }
  { intros b Hb' Hb0. rewrite Htf. by apply Hf. }
  destruct (release_buffers_ok topo pdd s1) as (T & V & P & C). set (s' := (kfd_queue_release_buffers topo pdd s1).2) in *.
  split.
  - eapply same_tables_trans; [|exact T]. eapply same_tables_trans; [|exact Ht1]. by split.
  - intros p. destruct (Hu p) as [Hbase Hcount]. unfold refcount, bo_va_at in *. rewrite V, Hv1.
    rewrite Hb in Hbase. destruct (default _ (_ !! p)), (default _ (bo_vas s0 !! p)); simpl in *; by f_equal.
  - intros c. specialize (C c). rewrite Hp1, Hr1, Hr in C. lia.
  - rewrite P, Hp1, Hp, <- Hz. by destruct (props s0).
Qed.

(** A freshly initialised queue over a consistent address space. *)
Record queue_ready (vm : Z) s : Prop := {
  qr_roles : roles (props s) = no_roles;
  qr_count p : 0 <= refcount p s;
  qr_vm : vm_consistent vm s
}.
Lemma ready_world vm s w : same_tables (world s) w -> queue_ready vm s -> queue_ready vm (s <| world := w |>).
Proof.
  intros [Htl Htf] [H1 H2 H3]. split; [exact H1|exact H2|]. intros a m Hm.
  change (amdgpu_vm_bo_lookup_mapping vm a w = Some m) in Hm. rewrite Htl in Hm.
  destruct (H3 a m Hm) as (? & ? & Hf). split; [done|]. split; [done|].
  change (amdgpu_vm_bo_find vm (base_bo (bo_va_at (bo_va m) s)) w = bo_va m). by rewrite Htf.
Qed.
Lemma buffers_ok_world topo node vm p (w w' : W) : same_tables w w' ->
  queue_buffers_ok topo node vm p w' = queue_buffers_ok topo node vm p w.
Proof.
  intros [Htl _]. unfold queue_buffers_ok, buffer_ok.
  by rewrite !Htl.
Qed.
Lemma restored_trans s1 s2 s3 : restored s1 s2 -> restored s2 s3 -> restored s1 s3.
Proof.
  intros [T1 V1 R1 P1] [T2 V2 R2 P2]. split; [by eapply same_tables_trans|..].
  - intros p. by rewrite V2.
  - intros c. by rewrite R2.
  - by rewrite P2.
Qed.
Lemma reserved_restored s b : restored s (s <| world := (amdgpu_bo_reserve b (world s)).2 |>).
Proof. split; [apply reserve_tables|done|apply reserve_refs|done]. Qed.
Lemma held_restored vm s0 s1 s : restored s0 s1 -> held vm s1 s -> held vm s0 s.
Proof.
  intros [[Tl Tf] V R P] [H1 H2 H3 H4 H5 H6]. split.
  - eapply same_tables_trans; [|exact H1]. by split.
  - intros p. by rewrite H2, V.
  - intros p. rewrite H3. unfold refcount. rewrite V. f_equal.
    clear -Tf. induction (roles (props s)) as [|b l IH]; simpl; [done|]. f_equal; [|done].
    unfold va_share. by rewrite Tf.
  - intros c. by rewrite H4, R.
  - by rewrite H5, P.
  - intros b Hb Hb0. rewrite <- Tf. by apply H6.
Qed.

Lemma unref_bo_vas_ok topo pdd s0 s : let vm := drm_priv_to_vm (drm_priv pdd) in
  truthy (amdgpu_bo_reserve (vm_root_bo vm) (world s)).1 = false -> queue_ready vm s0 -> held vm s0 s ->
  (kfd_queue_unref_bo_vas pdd s).1 = 0 /\
  restored s0 (kfd_queue_release_buffers topo pdd (kfd_queue_unref_bo_vas pdd s).2).2.
Proof.
  intros vm Hres Hready Hheld. unfold kfd_queue_unref_bo_vas. fold vm.
  pose proof (reserve_tables (vm_root_bo vm) (world s)) as Ht.
  pose proof (reserve_refs (vm_root_bo vm) (world s)) as Hrf.
  rewrite (surjective_pairing (amdgpu_bo_reserve _ _)), Hres. simpl. split; [done|].
  set (w := (amdgpu_bo_reserve (vm_root_bo vm) (world s)).2) in *.
  assert (held vm s0 (s <| world := w |>)) as Hheld' by by apply held_world.
  rewrite unref_locked_list. set (s1 := s <| world := w |>) in *.
  destruct (unref_list_frame vm (roles (props s1)) s1) as [Ew Ep].
  set (t := unref_list vm (roles (props s1)) s1) in *.
  eapply held_undo; [apply Hready|apply Hready|exact Hheld'|reflexivity|exact Ep| |].
  - change (same_tables (world s1) (amdgpu_bo_unreserve (vm_root_bo vm) (world t))). rewrite Ew. apply unreserve_tables.
  - intros c. change (bo_refs (amdgpu_bo_unreserve (vm_root_bo vm) (world t)) c = bo_refs (world s1) c).
    by rewrite unreserve_refs, Ew.
Qed.

(** The jump to [out_err_unreserve]. *)
Lemma unref_locked_ok topo pdd s0 s : let vm := drm_priv_to_vm (drm_priv pdd) in
  queue_ready vm s0 -> held vm s0 s ->
  restored s0 (kfd_queue_release_buffers topo pdd
    (kfd_queue_unref_bo_vas_locked vm s <| world ::= amdgpu_bo_unreserve (vm_root_bo vm) |>)).2.
Proof.
  intros vm Hready Hheld. rewrite unref_locked_list.
  destruct (unref_list_frame vm (roles (props s)) s) as [Ew Ep]. set (t := unref_list vm (roles (props s)) s) in *.
  eapply held_undo; [apply Hready|apply Hready|exact Hheld|reflexivity|exact Ep| |].
  - change (same_tables (world s) (amdgpu_bo_unreserve (vm_root_bo vm) (world t))). rewrite Ew. apply unreserve_tables.
  - intros c. change (bo_refs (amdgpu_bo_unreserve (vm_root_bo vm) (world t)) c = bo_refs (world s) c).
    by rewrite unreserve_refs, Ew.
Qed.

(** Everything is as before except that the mappings of the buffers [l] keep one
    queue reference each. *)
Record mappings_kept (vm : Z) (l : list Z) s s' : Prop := {
  mk_tables : same_tables (world s) (world s');
  mk_base p : base_bo (bo_va_at p s') = base_bo (bo_va_at p s);
  mk_count p : refcount p s' = refcount p s + sum_over (va_share vm (world s) p) l;
  mk_refs c : bo_refs (world s') c = bo_refs (world s) c;
  mk_same_props : props s' = props s
}.
(** The release without the mappings' references being dropped first. *)
Lemma held_released topo pdd vm s0 s : roles (props s0) = no_roles -> held vm s0 s ->
  mappings_kept vm (roles (props s)) s0 (kfd_queue_release_buffers topo pdd s).2.
Proof.
  intros Hz [Ht Hb Hc Hr Hp Hf]. destruct (release_buffers_ok topo pdd s) as (T & V & P & C).
  set (s' := (kfd_queue_release_buffers topo pdd s).2) in *. unfold bo_va_at in *. split.
  - by eapply same_tables_trans.
  - intros p. unfold bo_va_at. by rewrite V.
  - intros p. unfold refcount, bo_va_at in *. by rewrite V.
  - intros c. specialize (C c). rewrite Hr in C. lia.
  - rewrite P, Hp, <- Hz. by destruct (props s0).
Qed.

(** The outcome of an acquisition; [fails w]: reserving the root object in [w]
    is refused. *)
Definition acquire_outcome topo (pdd : kfd_process_device) s (r : Z * queue_state W) : Prop :=
  let vm := drm_priv_to_vm (drm_priv pdd) in
  let '(ret, s') := r in
  let err := (amdgpu_bo_reserve (vm_root_bo vm) (world s)).1 in
  if truthy err then ret = err /\ restored s s'
  else if queue_buffers_ok topo (pdd_dev pdd) vm (props s) (world s)
  then ret = 0 /\ held vm s s' /\ roles (props s') = queue_roles vm (props s) s true
  else ret = - EINVAL /\
    (restored s s' \/
     (exists w, truthy (amdgpu_bo_reserve (vm_root_bo vm) w).1 = true) /\
       mappings_kept vm (queue_roles vm (props s) s false) s s').
Lemma reserve_held vm s0 s b : held vm s0 s -> held vm s0 (s <| world := (amdgpu_bo_reserve b (world s)).2 |>).
Proof. intros H. apply held_world; [apply reserve_tables|apply reserve_refs|done]. Qed.
Lemma unreserve_held vm s0 s b : held vm s0 s -> held vm s0 (s <| world ::= amdgpu_bo_unreserve b |>).
Proof.
  intros H. change (s <| world ::= amdgpu_bo_unreserve b |>) with (s <| world := amdgpu_bo_unreserve b (world s) |>).
  apply held_world; [apply unreserve_tables|apply unreserve_refs|done].
Qed.
(** The roles read the mappings only. *)
Lemma queue_roles_world vm p s w b : same_tables (world s) w -> queue_roles vm p (s <| world := w |>) b = queue_roles vm p s b.
Proof. intros [Htl _]. unfold queue_roles, buffer_at. cbn [world field_upd]. by rewrite !Htl. Qed.

Lemma acquire_spec topo pdd s :
  queue_ready (drm_priv_to_vm (drm_priv pdd)) s -> node_id (pdd_dev pdd) = 0 ->
  acquire_outcome topo pdd s (kfd_queue_acquire_buffers topo pdd s).
Proof.
  intros Hready Hid. unfold kfd_queue_acquire_buffers, acquire_outcome, kfd_topology_device_by_id.
  set (vm := drm_priv_to_vm (drm_priv pdd)) in *. rewrite Hid. change (0 =? 0) with true. cbv iota.
  pose proof (reserved_restored s (vm_root_bo vm)) as Hrest.
  pose proof (reserve_tables (vm_root_bo vm) (world s)) as Htab.
  destruct (amdgpu_bo_reserve (vm_root_bo vm) (world s)) as [e1 w1]. cbn [fst snd] in *.
  destruct (truthy e1); [by split|]. set (s1 := s <| world := w1 |>) in *.
  assert (queue_ready vm s1) as Hready1 by by apply ready_world.
  rewrite <- (buffers_ok_world topo (pdd_dev pdd) vm (props s) (world s) (world s1)) by done.
  pose proof (acquire_locked_ok topo pdd vm s1 (qr_vm _ _ Hready1) (held_refl vm s1 (qr_roles _ _ Hready1))
    (qr_roles _ _ Hready1)) as Hok. change (props s1) with (props s) in Hok.
  assert (forall b, queue_roles vm (props s) s1 b = queue_roles vm (props s) s b) as Hqr by (intros b; by apply queue_roles_world).
  destruct (acquire_locked topo pdd vm s1) as [[e|[]] s2]; cbv [locked_ok] in Hok.
  - destruct Hok as (-> & -> & Hheld). split; [done|]. left. eapply restored_trans; [exact Hrest|].
    by apply unref_locked_ok.
  - destruct Hok as (<- & Hheld & Hr). split; [done|]. split; [|by rewrite <- Hqr].
    apply (held_restored vm s s1); [done|]. by apply unreserve_held.
  - destruct Hok as (<- & Hheld & Hr). change (truthy kfd_queue_buffer_svm_get) with true. cbv iota.
    split; [done|]. pose proof (unreserve_held vm s1 s2 (vm_root_bo vm) Hheld) as Hheld2.
    set (s3 := s2 <| world ::= _ |>) in *.
    destruct (truthy (amdgpu_bo_reserve (vm_root_bo vm) (world s3)).1) eqn:E3.
    + right. split; [by eexists|]. unfold kfd_queue_unref_bo_vas. fold vm.
      rewrite (surjective_pairing (amdgpu_bo_reserve _ (world s3))), E3. cbn [snd].
      pose proof (held_restored vm s s1 _ Hrest (reserve_held vm s1 s3 (vm_root_bo vm) Hheld2)) as Hh.
      rewrite <- Hqr, <- Hr. exact (held_released topo pdd vm s _ (qr_roles _ _ Hready) Hh).
    + left. eapply restored_trans; [exact Hrest|]. by apply unref_bo_vas_ok.
Qed.

Lemma restored_held vm s s' : queue_ready vm s -> restored s s' -> held vm s s'.
Proof.
  intros Hready [T V R P]. pose proof (held_refl vm s (qr_roles _ _ Hready)) as [H1 H2 H3 H4 H5 H6].
  split; rewrite ?P; try done.
  - intros p. by rewrite V.
  - intros p. unfold refcount. rewrite V. apply H3.
  - intros c. rewrite R. apply H4.
Qed.
Lemma acquired_held topo pdd s : let vm := drm_priv_to_vm (drm_priv pdd) in
  (forall b w, (amdgpu_bo_reserve b w).1 = 0) -> queue_ready vm s -> node_id (pdd_dev pdd) = 0 ->
  held vm s (kfd_queue_acquire_buffers topo pdd s).2.
Proof.
  intros vm Hres Hready Hid. pose proof (acquire_spec topo pdd s Hready Hid) as Ha. unfold acquire_outcome in Ha.
  destruct (kfd_queue_acquire_buffers topo pdd s) as [ret s']. fold vm in Ha. rewrite Hres in Ha. change (truthy 0) with false in Ha.
  destruct (queue_buffers_ok _ _ _ _ _); [apply Ha|]. destruct Ha as [_ [Ha|[[w Hw] _]]]; [|by rewrite Hres in Hw].
  exact (restored_held vm s s' Hready Ha).
Qed.


(** Whatever the outcome of the acquisition, dropping the mappings'
    references and then the buffers brings every count, mapping and pointer
    back to what it was. *)
Theorem acquire_release_roundtrip topo pdd s : let vm := drm_priv_to_vm (drm_priv pdd) in
  (forall b w, (amdgpu_bo_reserve b w).1 = 0) -> queue_ready vm s -> node_id (pdd_dev pdd) = 0 ->
  let s1 := (kfd_queue_acquire_buffers topo pdd s).2 in
  let s2 := (kfd_queue_unref_bo_vas pdd s1).2 in
  restored s (kfd_queue_release_buffers topo pdd s2).2.
Proof.
  intros vm Hres Hready Hid s1 s2. apply unref_bo_vas_ok; [fold vm; by rewrite Hres|done|].
  pose proof (acquired_held topo pdd s Hres Hready Hid) as Ha. exact Ha.
Qed.
End Accounting.

(** ** Sizes *)
Lemma ALIGN_spec x k : 0 <= k < 32 -> 0 <= x -> x + 2 ^ k - 1 < 2 ^ 32 ->
  ALIGN x (2 ^ k) = (x + 2 ^ k - 1) / 2 ^ k * 2 ^ k.
Proof.
  intros Hk Hx Hlt. pose proof (Z.pow_pos_nonneg 2 k ltac:(lia) ltac:(lia)). unfold ALIGN. rewrite u32_id by lia.
  set (y := x + 2 ^ k - 1) in *. unfold u32. rewrite <- (land_ones_mod _ 32) by lia.
  rewrite (Z.land_comm (Z.lnot _)), Z.land_assoc, (land_ones_mod y 32), Z.mod_small by lia.
  rewrite Z.sub_1_r, <- Z.ones_equiv. change (Z.land y (Z.lnot (Z.ones k))) with (Z.land y (Z.lnot (Z.ones k))).
  rewrite <- Z.ldiff_land, Z.ldiff_ones_r, Z.shiftl_mul_pow2, Z.shiftr_div_pow2 by lia. done.
Qed.
Lemma ALIGN_page x : 0 <= x -> x + 4095 < 2 ^ 32 -> ALIGN x QPAGE_SIZE = (x + 4095) / 4096 * 4096.
Proof. intros. unfold QPAGE_SIZE. change 4096 with (2 ^ 12). rewrite ALIGN_spec by lia. do 2 f_equal. lia. Qed.

(** Waves of a device, and when the divisions are defined. *)
Definition cu_count (p : kfd_node_properties) : Z := simd_count p / simd_per_cu p.
Definition wave_count (p : kfd_node_properties) : Z :=
  if gfx_target_version p <? 100100
  then Z.min (cu_count p * 40) (array_count p / simd_arrays_per_engine p * 512) else cu_count p * 32.
Definition divisors_ok (p : kfd_node_properties) : bool :=
  truthy (simd_per_cu p) &&
  ((100100 <=? gfx_target_version p) || truthy (simd_arrays_per_engine p)).
Definition round_up (x a : Z) : Z := (x + a - 1) / a * a.

Lemma per_cu_bounds gfxv :
  0x55000 <= WG_CONTEXT_DATA_SIZE_PER_CU gfxv <= 0x95000 /\ 8 <= CNTL_STACK_BYTES_PER_WAVE gfxv <= 12.
Proof.
  unfold WG_CONTEXT_DATA_SIZE_PER_CU, kfd_get_vgpr_size_per_cu, SGPR_SIZE_PER_CU, LDS_SIZE_PER_CU, HWREG_SIZE_PER_CU,
    CNTL_STACK_BYTES_PER_WAVE.
  repeat case_match; lia.
Qed.
Lemma wave_sizes wv gfxv : 0 <= wv <= 81920 ->
  ALIGN (u32 (SIZEOF_HSA_USER_CONTEXT_SAVE_AREA_HEADER + u32 (wv * CNTL_STACK_BYTES_PER_WAVE gfxv + 8))) QPAGE_SIZE
    = round_up (40 + (wv * CNTL_STACK_BYTES_PER_WAVE gfxv + 8)) 4096 /\
  ALIGN (u32 (wv * DEBUGGER_BYTES_PER_WAVE)) DEBUGGER_BYTES_ALIGN = round_up (wv * 32) 64.
Proof.
  intros Hw. unfold SIZEOF_HSA_USER_CONTEXT_SAVE_AREA_HEADER, DEBUGGER_BYTES_PER_WAVE, DEBUGGER_BYTES_ALIGN.
  pose proof (per_cu_bounds gfxv) as [_ Hb].
  assert (0 <= wv * CNTL_STACK_BYTES_PER_WAVE gfxv <= 983040) by nia.
  rewrite !u32_id, ALIGN_page by (rewrite ?u32_id; lia). split.
  - unfold round_up. f_equal. f_equal. lia.
  - change 64 with (2 ^ 6). rewrite ALIGN_spec by lia. reflexivity.
Qed.
Lemma wg_data_size cu gfxv : 0 <= cu <= 2048 ->
  ALIGN (u32 (cu * WG_CONTEXT_DATA_SIZE_PER_CU gfxv)) QPAGE_SIZE =
    round_up (cu * WG_CONTEXT_DATA_SIZE_PER_CU gfxv) 4096.
Proof.
  intros Hcu. pose proof (per_cu_bounds gfxv) as [Hwg _].
  assert (0 <= cu * WG_CONTEXT_DATA_SIZE_PER_CU gfxv <= 2048 * 0x95000) by nia.
  rewrite u32_id, ALIGN_page by lia. unfold round_up. f_equal. f_equal. lia.
Qed.

(** For a device from GFX 8.0.1 on, the size computation traps exactly when
    it divides by zero; otherwise, for up to 2048 compute units, no product
    wraps and the sizes are the rounded-up sums of the hardware's layout, the
    control stack of a GFX10 device being capped at 0x7000. *)
Theorem ctx_save_sizes p :
  80001 <= gfx_target_version p < 2 ^ 32 -> 0 <= cu_count p <= 2048 ->
  0 <= array_count p / simd_arrays_per_engine p <= 2 ^ 16 ->
  let gfxv := gfx_target_version p in
  let stack := round_up (40 + (wave_count p * CNTL_STACK_BYTES_PER_WAVE gfxv + 8)) 4096 in
  let stack := if gfxv / 10000 =? 10 then Z.min stack 0x7000 else stack in
  let wg := round_up (cu_count p * WG_CONTEXT_DATA_SIZE_PER_CU gfxv) 4096 in
  kfd_queue_ctx_save_restore_size p =
    if divisors_ok p then
      Some (p <| ctl_stack_size := stack |>
              <| debug_memory_size := round_up (wave_count p * 32) 64 |>
              <| cwsr_size := stack + wg |>
              <| eop_buffer_size := if gfxv =? 80002 then 0x8000 else 4096 |>)
    else None.
Proof.
  intros Hg Hcu Har gfxv stack stack' wg. unfold kfd_queue_ctx_save_restore_size, divisors_ok. fold gfxv.
  replace (gfxv <? 80001) with false by lia. unfold div_trap, truthy.
  destruct (Z.eqb_spec (simd_per_cu p) 0); simpl; [done|].
  change (simd_count p / simd_per_cu p) with (cu_count p). rewrite Z.div_1_r.
  pose proof (per_cu_bounds gfxv) as [Hwg Hb].
  assert (0 <= wave_count p <= 81920) as Hw by (unfold wave_count; case_match; lia).
  pose proof (wave_sizes (wave_count p) gfxv Hw) as [E1 E2]. fold stack in E1.
  pose proof (wg_data_size (cu_count p) gfxv Hcu) as Hwg'. fold wg in Hwg'.
  assert (gfxv / 10000 * 10000 =? 100000 = (gfxv / 10000 =? 10)) as Hten by lia.
  assert (0 <= stack' <= 2 ^ 21 /\ 0 <= wg <= 2 ^ 31) as [Hst Hwgr].
  { unfold stack', stack, wg, round_up. assert (0 <= wave_count p * CNTL_STACK_BYTES_PER_WAVE gfxv <= 983040) by nia.
    assert (0 <= cu_count p * WG_CONTEXT_DATA_SIZE_PER_CU gfxv <= 2048 * 0x95000) by nia.
    split; [case_match|]; Z.div_mod_to_equations; lia. }
  assert (eop_size gfxv (eop_buffer_size p) = if gfxv =? 80002 then 0x8000 else 4096) as Heop.
  { unfold eop_size. replace (80000 <=? gfxv) with true by lia. repeat case_match; congruence. }
  assert (forall wv, wv = wave_count p ->
    Some (p <| ctl_stack_size := (let ctl := ALIGN (u32 (SIZEOF_HSA_USER_CONTEXT_SAVE_AREA_HEADER +
              u32 (wv * CNTL_STACK_BYTES_PER_WAVE gfxv + 8))) QPAGE_SIZE in
              if gfxv / 10000 * 10000 =? 100000 then Z.min ctl 0x7000 else ctl) |>
            <| debug_memory_size := ALIGN (u32 (wv * DEBUGGER_BYTES_PER_WAVE)) DEBUGGER_BYTES_ALIGN |>
            <| cwsr_size := u32 ((let ctl := ALIGN (u32 (SIZEOF_HSA_USER_CONTEXT_SAVE_AREA_HEADER +
              u32 (wv * CNTL_STACK_BYTES_PER_WAVE gfxv + 8))) QPAGE_SIZE in
              if gfxv / 10000 * 10000 =? 100000 then Z.min ctl 0x7000 else ctl) +
              ALIGN (u32 (cu_count p * WG_CONTEXT_DATA_SIZE_PER_CU gfxv)) QPAGE_SIZE) |>
            <| eop_buffer_size ::= eop_size gfxv |>) =
    Some (p <| ctl_stack_size := stack' |> <| debug_memory_size := round_up (wave_count p * 32) 64 |>
            <| cwsr_size := stack' + wg |>
            <| eop_buffer_size := if gfxv =? 80002 then 0x8000 else 4096 |>)) as Hall.
  { intros wv ->. cbv zeta. rewrite E1, E2, Hten, Hwg'. fold stack'.
    rewrite u32_id by lia. rewrite <- Heop. by destruct p. }
  destruct (Z.ltb_spec gfxv 100100).
  - replace (100100 <=? gfxv) with false by lia. simpl.
    destruct (Z.eqb_spec (simd_arrays_per_engine p) 0); simpl; [done|]. apply Hall.
    unfold wave_count. fold gfxv. replace (gfxv <? 100100) with true by lia. rewrite !u32_id by lia. done.
  - replace (100100 <=? gfxv) with true by lia. simpl. apply Hall.
    unfold wave_count. fold gfxv. replace (gfxv <? 100100) with false by lia. rewrite u32_id by lia. done.
Qed.

(** ** A concrete address space *)
(** Pages 1 to 5 of every address space map objects 201 to 205 through the
    [bo_va]s 101 to 105; the state counts references. *)
#[export] Instance page_vm : AmdgpuVm (gmap Z Z) := {
  amdgpu_bo_ref b w := (b, <[b := default 0 (w !! b) + 1]> w);
  amdgpu_bo_unref b w := (0, if b =? 0 then w else <[b := default 0 (w !! b) - 1]> w);
  amdgpu_bo_reserve b w := (0, w);
  amdgpu_bo_unreserve b w := w;
  amdgpu_vm_bo_lookup_mapping vm a w := if (1 <=? a) && (a <=? 5) then Some (mk_mapping a a (100 + a)) else None;
  amdgpu_vm_bo_find vm b w := if (201 <=? b) && (b <=? 205) then b - 100 else 0;
  drm_priv_to_vm p := p;
  vm_root_bo vm := vm
}.
#[export] Instance page_vm_laws : AmdgpuVmLaws (gmap Z Z).
Proof.
  refine {| bo_refs w c := default 0 (w !! c) |}; try done.
  - intros b w c. simpl. destruct (Z.eqb_spec c b) as [->|]; [by rewrite lookup_insert_eq|].
    rewrite lookup_insert_ne by done. lia.
  - intros b w c. simpl. destruct (Z.eqb_spec b 0); [lia|]. destruct (Z.eqb_spec c b) as [->|].
    + by rewrite lookup_insert_eq.
    + rewrite lookup_insert_ne by done. lia.
Defined.

Definition demo_props (ty : kfd_queue_type) (ring : Z) : queue_properties :=
  mk_props ty 0 ring 4096 0 100 0x2000 0x1000 0 0 0 0 0 0x5000 8192 4096 0 0 0 0 0.
Definition demo_state (p : queue_properties) : queue_state (gmap Z Z) :=
  mk_queue_state ∅ (list_to_map ((fun a => (100 + a, mk_bo_va 0 (200 + a))) <$> [1; 2; 3; 4; 5])) p.
Definition demo_pdd : kfd_process_device := mk_pdd (mk_kfd_node 64 0 1) 0 9.

Lemma demo_ready ty ring : queue_ready 9 (demo_state (demo_props ty ring)).
Proof.
  split; [done| |].
  - intros p. unfold refcount, bo_va_at, demo_state. simpl.
    repeat (rewrite lookup_insert_Some || rewrite lookup_insert; case_decide; simpl; [lia|]). by rewrite lookup_empty.
  - intros a m. simpl. destruct ((1 <=? a) && (a <=? 5)) eqn:E; [|done]. intros [= <-].
    assert (a = 1 \/ a = 2 \/ a = 3 \/ a = 4 \/ a = 5) as Ha by lia.
    destruct Ha as [->|[->|[->|[->| ->]]]]; vm_compute; done.
Qed.
Lemma demo_reserve b (w : gmap Z Z) : (amdgpu_bo_reserve b w).1 = 0.
Proof. done. Qed.

Lemma acquire_release_roundtrip_witness :
  let s := demo_state (demo_props KFD_QUEUE_TYPE_SDMA 0x3000) in
  let s1 := (kfd_queue_acquire_buffers kfd_static_topo demo_pdd s).2 in
  refcount 101 s1 = 1 /\
  refcount 101 (kfd_queue_release_buffers kfd_static_topo demo_pdd (kfd_queue_unref_bo_vas demo_pdd s1).2).2 = 0.
Proof.
  split; [vm_compute; reflexivity|]. unfold refcount.
  rewrite (rs_va _ _ (acquire_release_roundtrip kfd_static_topo demo_pdd _ demo_reserve
    (demo_ready KFD_QUEUE_TYPE_SDMA 0x3000) eq_refl) 101). reflexivity.
Defined.
Lemma ctx_save_sizes_witness :
  kfd_queue_ctx_save_restore_size (kfd_static_topo <| gfx_target_version := 90006 |>) = None /\
  option_map cwsr_size (kfd_queue_ctx_save_restore_size
    (kfd_static_topo <| gfx_target_version := 90006 |> <| simd_arrays_per_engine := 1 |>)) = Some 352256.
Proof.
  split.
  - rewrite ctx_save_sizes; [reflexivity|simpl; lia|vm_compute; split; discriminate..].
  - rewrite ctx_save_sizes; [reflexivity|simpl; lia|vm_compute; split; discriminate..].
Defined.
(** The target version of the static device is 0x90006 = 589830, not 90006: as
    a decimal version it is newer than GFX 12. *)
Lemma static_topo_version : gfx_target_version kfd_static_topo = 589830 /\
  CNTL_STACK_BYTES_PER_WAVE (gfx_target_version kfd_static_topo) = 12 /\
  CNTL_STACK_BYTES_PER_WAVE 90006 = 8.
Proof. done. Qed.

(** The same address space, whose root object can be reserved once: giving the
    reservation back marks key 0, and later reservations fail. *)
Definition once_vm : AmdgpuVm (gmap Z Z) := {|
  amdgpu_bo_ref := @amdgpu_bo_ref _ page_vm;
  amdgpu_bo_unref := @amdgpu_bo_unref _ page_vm;
  amdgpu_bo_reserve b w := (if decide (is_Some (w !! 0)) then -4 else 0, w);
  amdgpu_bo_unreserve b w := <[0 := 0]> w;
  amdgpu_vm_bo_lookup_mapping := @amdgpu_vm_bo_lookup_mapping _ page_vm;
  amdgpu_vm_bo_find := @amdgpu_vm_bo_find _ page_vm;
  drm_priv_to_vm := @drm_priv_to_vm _ page_vm;
  vm_root_bo := @vm_root_bo _ page_vm
|}.
(** A compute queue refused for its context save area when the root object cannot
    be reserved again: the mappings of its three other buffers keep their
    references. *)
Lemma reserve_again_fails :
  let '(ret, s) := @kfd_queue_acquire_buffers _ once_vm kfd_static_topo demo_pdd (demo_state (demo_props KFD_QUEUE_TYPE_COMPUTE 0x3000)) in
  ret = - EINVAL /\ roles (props s) = no_roles /\
  (fun p => refcount p s) <$> [101; 102; 103; 105] = [1; 1; 1; 0].
Proof. by vm_compute. Qed.
