(* ===== verification/WorkQueue.v ===== *)
(** * The kernel work queue

    [src/kernel/thread/kernel_workqueue.cpp] and [kernel_thread_base.cpp]: a
    queue of tasks served by one worker thread.  The steps of the clients and
    of the worker interleave; each step is a critical section or an atomic
    operation of the code. *)
From S2P Require Import Prelude.

(** Where the worker thread is: in [worker_loop] at the wait or about to test
    it, with a task taken from the queue but not yet counted, running it, out of
    the loop, or not created. *)
Inductive worker_at (T : Type) := NoThread | AtWait | Taken (t : T) | Running (t : T) | Left.
Arguments NoThread {T}. Arguments AtWait {T}. Arguments Taken {T} t. Arguments Running {T} t. Arguments Left {T}.

(** [joining]: a [stop] has cleared [started_] and waits for the worker. *)
Record kernel_workqueue (T : Type) := mk_wq {
  queue_ : list T; started_ : bool; joining : bool; worker_ : worker_at T; in_flight_ : Z
}.
Arguments mk_wq {T}. Arguments queue_ {T}. Arguments started_ {T}. Arguments joining {T}.
Arguments worker_ {T}. Arguments in_flight_ {T}.
#[export] Instance eta_wq T : Eta (kernel_workqueue T) := fun q =>
  mk_wq (queue_ q) (started_ q) (joining q) (worker_ q) (in_flight_ q).

Section WorkQueue.
  Context {T : Type}.
  Implicit Types q : kernel_workqueue T.

Definition new_workqueue : kernel_workqueue T := mk_wq [] false false NoThread 0.

(** ** Client operations *)
Definition enqueue (t : T) q : kernel_workqueue T := q <| queue_ ::= fun l => l ++ [t] |>.
(** [created]: [pthread_create] succeeded. *)
Definition start (created : bool) q : kernel_workqueue T :=
  if started_ q then q
  else q <| started_ := true |> <| worker_ := if created then AtWait else NoThread |>.
(** [stop] up to the join; [None] when it returns at once. *)
Definition stop_signal q : option (kernel_workqueue T) :=
  if started_ q then Some (q <| started_ := false |> <| joining := true |>) else None.
(** The rest of [stop], when there is no thread left to wait for. *)
Definition stop_join q : option (kernel_workqueue T) :=
  match joining q, worker_ q with
  | true, NoThread | true, Left =>
      Some (q <| joining := false |> <| worker_ := NoThread |> <| queue_ := [] |>)
  | _, _ => None
  end.
Definition queue_empty q : bool := bool_decide (length (queue_ q) = 0%nat).
Definition in_flight_empty q : bool := in_flight_ q =? 0.
(** The wait condition of [flush]. *)
Definition flushed q : bool := queue_empty q && in_flight_empty q.

(** ** The worker: one round of [worker_loop], in three steps: the critical
    section, the increment of [in_flight_], the task with the decrement *)
Definition worker_step q : option (kernel_workqueue T) :=
  match worker_ q with
  | AtWait =>
      match queue_ q with
      | t :: l => Some (q <| queue_ := l |> <| worker_ := Taken t |>)
      | [] => if started_ q then None else Some (q <| worker_ := Left |>)
      end
  | Taken t => Some (q <| worker_ := Running t |> <| in_flight_ ::= Z.succ |>)
  | Running _ => Some (q <| worker_ := AtWait |> <| in_flight_ ::= Z.pred |>)
  | NoThread | Left => None
  end.

(** ** Runs *)
(** The label of a step: the task enqueued, the task the worker takes and then
    runs, or the tasks the join throws away. *)
Inductive wq_event := EEnqueue (t : T) | ERun (t : T) | EDiscard (l : list T) | EStart | EStop | EOther.
Inductive wq_step : kernel_workqueue T -> wq_event -> kernel_workqueue T -> Prop :=
| wq_enqueue t q : wq_step q (EEnqueue t) (enqueue t q)
| wq_start created q : joining q = false -> wq_step q EStart (start created q)
| wq_stop q q' : stop_signal q = Some q' -> wq_step q EStop q'
| wq_join q q' : stop_join q = Some q' -> wq_step q (EDiscard (queue_ q)) q'
| wq_take q t l q' : worker_ q = AtWait -> queue_ q = t :: l -> worker_step q = Some q' -> wq_step q (ERun t) q'
| wq_turn q q' : worker_ q <> AtWait \/ queue_ q = [] -> worker_step q = Some q' -> wq_step q EOther q'.
Inductive wq_run : kernel_workqueue T -> list wq_event -> kernel_workqueue T -> Prop :=
| wq_nil q : wq_run q [] q
| wq_snoc q es q' e q'' : wq_run q es q' -> wq_step q' e q'' -> wq_run q (es ++ [e]) q''.

(** What a run enqueued, ran, and threw away. *)
Definition enqueued (es : list wq_event) : list T := omap (fun e => match e with EEnqueue t => Some t | _ => None end) es.
Definition ran (es : list wq_event) : list T := omap (fun e => match e with ERun t => Some t | _ => None end) es.
Definition served (es : list wq_event) : list T :=
  es ≫= fun e => match e with ERun t => [t] | EDiscard l => l | _ => [] end.
Definition discarded (es : list wq_event) : list T := es ≫= fun e => match e with EDiscard l => l | _ => [] end.

(** A thread that left has seen the stop, an idle queue has no thread, and at
    most one task is in flight. *)
Record wq_inv q : Prop := {
  wi_left : worker_ q = Left -> started_ q = false /\ joining q = true;
  wi_idle : started_ q = false -> joining q = false -> worker_ q = NoThread;
  wi_join : joining q = true -> started_ q = false;
  wi_flight : in_flight_ q = match worker_ q with Running _ => 1 | _ => 0 end
}.

Lemma wq_step_inv q e q' : wq_step q e q' -> wq_inv q -> wq_inv q'.
Proof.
  intros Hstep [Hl Hi Hj Hf]. destruct Hstep as [t q|c q Hn|q q' H|q q' H|q t l q' Ew Eq H|q q' Hor H].
  - by split.
  - unfold start. destruct (started_ q) eqn:Es; [by split; rewrite ?Es|]. rewrite (Hi eq_refl Hn) in Hf.
    split; simpl; [by destruct c|done|congruence|by destruct c].
  - unfold stop_signal in H. destruct (started_ q) eqn:Es; [|done]. injection H as <-.
    split; simpl; auto; done.
  - unfold stop_join in H. destruct (joining q) eqn:Ej; [|done].
    destruct (worker_ q) eqn:Ew; try done; injection H as <-; split; simpl; done.
  - unfold worker_step in H. rewrite Ew, Eq in H. injection H as <-. rewrite Ew in *.
    split; simpl; [done| |done|lia]. intros Hs Hnj. by specialize (Hi Hs Hnj).
  - unfold worker_step in H. destruct (worker_ q) eqn:Ew; try done.
    + destruct (queue_ q) eqn:Eq; [|by destruct Hor]. destruct (started_ q) eqn:Es; [done|].
      injection H as <-.
      assert (joining q = true) as Hjq by (destruct (joining q); [done|by specialize (Hi eq_refl eq_refl)]).
      split; simpl; [done|congruence|done|exact Hf].
    + injection H as <-. split; simpl; [done| |done|lia]. intros Hs Hnj. by specialize (Hi Hs Hnj).
    + injection H as <-. split; simpl; [done| |done|lia]. intros Hs Hnj. by specialize (Hi Hs Hnj).
Qed.
Lemma wq_start_inv : wq_inv new_workqueue.
Proof. by split. Qed.
Lemma wq_run_inv q es q' : wq_run q es q' -> wq_inv q -> wq_inv q'.
Proof. induction 1; [done|]. intros Hq. eapply wq_step_inv; [done|]. auto. Qed.

(** ** First in, first out *)
Lemma wq_step_served q e q' : wq_step q e q' -> served [e] ++ queue_ q' = queue_ q ++ enqueued [e].
Proof.
  destruct 1 as [t q|c q Hn|q q' H|q q' H|q t l q' Ew Eq H|q q' Hor H]; simpl.
  - done.
  - unfold start. rewrite app_nil_r. by destruct (started_ q).
  - unfold stop_signal in H. rewrite app_nil_r. destruct (started_ q); [|done]. by injection H as <-.
  - unfold stop_join in H. destruct (joining q); [|done].
    destruct (worker_ q); try done; injection H as <-; by rewrite !app_nil_r.
  - unfold worker_step in H. rewrite Ew, Eq in H. injection H as <-. by rewrite app_nil_r, Eq.
  - unfold worker_step in H. rewrite app_nil_r. destruct (worker_ q) eqn:Ew; try done.
    + destruct (queue_ q) eqn:Eq; [|by destruct Hor]. destruct (started_ q); [done|]. injection H as <-. done.
    + by injection H as <-.
    + by injection H as <-.
Qed.
Lemma served_app es es' : served (es ++ es') = served es ++ served es'.
Proof. unfold served. by rewrite bind_app. Qed.
Lemma enqueued_app es es' : enqueued (es ++ es') = enqueued es ++ enqueued es'.
Proof. unfold enqueued. apply omap_app. Qed.
Lemma ran_app es es' : ran (es ++ es') = ran es ++ ran es'.
Proof. unfold ran. apply omap_app. Qed.
Lemma discarded_app es es' : discarded (es ++ es') = discarded es ++ discarded es'.
Proof. unfold discarded. by rewrite bind_app. Qed.

Lemma wq_run_served q es q' : wq_run q es q' -> served es ++ queue_ q' = queue_ q ++ enqueued es.
Proof.
  induction 1 as [q|q es q1 e q2 Hrun IH Hstep]; [by rewrite app_nil_r|].
  rewrite served_app, enqueued_app, <- app_assoc, (wq_step_served q1 e q2 Hstep), !app_assoc. by rewrite IH.
Qed.
Lemma served_ran es : discarded es = [] -> served es = ran es.
Proof.
  induction es as [|e es IH]; [done|]. change (e :: es) with ([e] ++ es).
  rewrite discarded_app, served_app, ran_app. intros [He Hes]%app_eq_nil. rewrite IH by done. f_equal.
  by destruct e; simpl in *; rewrite ?app_nil_r in *.
Qed.

(** ** Stopping drains *)
(** From a stop on, as long as nobody enqueues, the worker only leaves an empty
    queue behind. *)
Definition draining q : Prop := joining q = true /\ worker_ q <> NoThread /\ (worker_ q = Left -> queue_ q = []).
Lemma draining_step q e q' : wq_step q e q' -> wq_inv q -> draining q -> enqueued [e] = [] ->
  discarded [e] = [] /\ (draining q' \/ e = EDiscard []).
Proof.
  intros Hstep [Hl Hi Hj Hf] (Hjoin & Hw & Hq) He.
  destruct Hstep as [t q|c q Hn|q q' H|q q' H|q t l q' Ew Eq H|q q' Hor H].
  - done.
  - congruence.
  - unfold stop_signal in H. by rewrite (Hj Hjoin) in H.
  - unfold stop_join in H. rewrite Hjoin in H. destruct (worker_ q) eqn:Ew; try done.
    rewrite (Hq eq_refl). split; [done|by right].
  - split; [done|left]. unfold worker_step in H. rewrite Ew, Eq in H. by injection H as <-.
  - split; [done|left]. unfold worker_step in H. destruct (worker_ q) eqn:Ew; try done.
    + destruct (queue_ q) eqn:Eq; [|by destruct Hor]. destruct (started_ q); [done|]. by injection H as <-.
    + by injection H as <-.
    + by injection H as <-.
Qed.

(** The worker alone, until it blocks or leaves. *)
Fixpoint run_worker (n : nat) q : kernel_workqueue T :=
  match n with
  | O => q
  | S n' => match worker_step q with Some q' => run_worker n' q' | None => q end
  end.
(** Steps the worker has left after a stop. *)
Definition worker_fuel q : nat := (3 * length (queue_ q) + match worker_ q with Taken _ => 3 | Running _ => 2 | AtWait => 1 | _ => 0 end)%nat.
Lemma run_worker_leaves n q : started_ q = false -> worker_ q <> NoThread -> (worker_fuel q <= n)%nat ->
  (worker_ q = Left -> queue_ q = []) ->
  worker_ (run_worker n q) = Left /\ queue_ (run_worker n q) = [] /\
  started_ (run_worker n q) = false /\ joining (run_worker n q) = joining q.
Proof.
  revert q. induction n as [|n IH]; intros q Hs Hw Hn Hq.
  - unfold worker_fuel in Hn. destruct (worker_ q) eqn:Ew; try (lia || done). simpl. auto.
  - simpl. unfold worker_step. unfold worker_fuel in Hn. destruct (worker_ q) eqn:Ew; [done| | | |auto].
    + destruct (queue_ q) as [|t l] eqn:Eq; simpl in Hn.
      * rewrite Hs. destruct (IH (q <| worker_ := Left |>)) as (? & ? & ? & ?); try done.
        unfold worker_fuel. simpl. rewrite Eq. simpl. lia.
      * destruct (IH (q <| queue_ := l |> <| worker_ := Taken t |>)) as (? & ? & ? & ?); try done.
        unfold worker_fuel. simpl. lia.
    + destruct (IH (q <| worker_ := Running t |> <| in_flight_ ::= Z.succ |>)) as (? & ? & ? & ?); try done.
      unfold worker_fuel. simpl. lia.
    + destruct (IH (q <| worker_ := AtWait |> <| in_flight_ ::= Z.pred |>)) as (? & ? & ? & ?); try done.
      unfold worker_fuel. simpl. lia.
Qed.

Lemma quiet_run q es q' : wq_run q es q' -> wq_inv q -> draining q -> enqueued es = [] ->
  discarded es = [] /\ (draining q' \/ queue_ q' = []).
Proof.
  induction 1 as [q|q es q1 e q2 Hrun IH Hstep]; [by auto|]. intros Hq Hd.
  rewrite enqueued_app, discarded_app. intros [Hes He]%app_eq_nil. destruct (IH Hq Hd Hes) as [-> Hor].
  pose proof (wq_run_inv _ _ _ Hrun Hq) as Hq1. pose proof (wq_step_served q1 e q2 Hstep) as Hsv.
  rewrite He, app_nil_r in Hsv. destruct Hor as [Hd1|Hempty].
  - destruct (draining_step q1 e q2 Hstep Hq1 Hd1 He) as [-> [Hd2| ->]]; [by auto|]. split; [done|right].
    inversion Hstep as [| | |? ? H| |]; subst. unfold stop_join in H. destruct (joining q1); [|done].
    by destruct (worker_ q1); try done; injection H as <-.
  - rewrite Hempty in Hsv. apply app_eq_nil in Hsv as [Hs Hq2]. split; [|by right].
    destruct e; simpl in Hs |- *; done.
Qed.

(** [stop] when nobody else is active: signal, let the worker leave, join. *)
Definition stop q : kernel_workqueue T :=
  match stop_signal q with
  | None => q
  | Some q1 => let q2 := run_worker (worker_fuel q1) q1 in default q2 (stop_join q2)
  end.

(** C14. Whatever the interleaving of clients and worker, the tasks run, with
    those a join threw away, followed by those still queued are the tasks
    enqueued, each once and in order; the count of tasks in flight is exact,
    and the condition [flush] waits for means that nothing is queued or running
    (but perhaps taken and about to run). *)
Theorem workqueue_fifo es q : wq_run new_workqueue es q ->
  served es ++ queue_ q = enqueued es /\
  in_flight_ q = (match worker_ q with Running _ => 1 | _ => 0 end) /\
  (discarded es = [] -> ran es ++ queue_ q = enqueued es) /\
  (flushed q = true <-> queue_ q = [] /\ forall t, worker_ q <> Running t).
Proof.
  intros Hrun. pose proof (wq_run_inv _ _ _ Hrun wq_start_inv) as Hq. pose proof (wi_flight _ Hq) as Hf.
  pose proof (wq_run_served _ _ _ Hrun) as Hs. simpl in Hs.
  split; [done|]. split; [done|]. split; [intros Hd; by rewrite <- served_ran|].
  unfold flushed, queue_empty, in_flight_empty. rewrite Hf, andb_true_iff, bool_decide_eq_true, Z.eqb_eq.
  destruct (queue_ q); [|split; [by intros [? _]|by intros [? _]]].
  destruct (worker_ q); split; try done; try (by intros [_ ?]). intros [_ Hn]. by destruct (Hn t).
Qed.

(** C37. Once [stop] has signalled a queue whose worker exists, every run in
    which nobody enqueues runs exactly the queued tasks, in order, and throws
    none away; the worker alone leaves the loop, with the queue empty, within
    three steps per task and three more, after which the join succeeds. *)
Theorem workqueue_stop_drains es q : wq_run new_workqueue es q -> started_ q = true -> worker_ q <> NoThread ->
  exists q1, stop_signal q = Some q1 /\
    (forall es' q', wq_run q1 es' q' -> enqueued es' = [] ->
       discarded es' = [] /\ ran es' ++ queue_ q' = queue_ q) /\
    (let q2 := run_worker (3 * length (queue_ q) + 3) q1 in
     worker_ q2 = Left /\ queue_ q2 = [] /\ is_Some (stop_join q2)).
Proof.
  intros Hrun Hs Hw. pose proof (wq_run_inv _ _ _ Hrun wq_start_inv) as Hq.
  assert (worker_ q <> Left) as Hnl by (intros [? _]%(wi_left _ Hq); congruence).
  assert (wq_step q EStop (q <| started_ := false |> <| joining := true |>)) as Hstep
    by (constructor; unfold stop_signal; by rewrite Hs).
  exists (q <| started_ := false |> <| joining := true |>). split; [unfold stop_signal; by rewrite Hs|]. split.
  - intros es' q' Hrun' He. pose proof (wq_run_served _ _ _ Hrun') as Hsv. rewrite He, app_nil_r in Hsv.
    destruct (quiet_run _ _ _ Hrun' (wq_step_inv _ _ _ Hstep Hq)) as [Hd _]; [by repeat split; simpl|done|].
    split; [done|]. by rewrite <- served_ran.
  - destruct (run_worker_leaves (3 * length (queue_ q) + 3) (q <| started_ := false |> <| joining := true |>))
      as (H1 & H2 & H3 & H4); [done|done| |done|].
    + unfold worker_fuel. simpl. destruct (worker_ q); lia.
    + split; [done|]. split; [done|]. unfold stop_join. rewrite H4, H1. by eexists.
Qed.
End WorkQueue.

(** ** Concrete runs *)
(** Two tasks enqueued, one taken. *)
Definition demo_run : list (wq_event (T := Z)) := [EStart; EEnqueue 7; EEnqueue 8; ERun 7].
Definition demo_wq : kernel_workqueue Z := mk_wq [8] true false (Taken 7) 0.
Lemma demo_wq_run : wq_run new_workqueue demo_run demo_wq.
Proof.
  apply (wq_snoc _ [EStart; EEnqueue 7; EEnqueue 8] (mk_wq [7; 8] true false AtWait 0)); [|by eapply wq_take].
  apply (wq_snoc _ [EStart; EEnqueue 7] (mk_wq [7] true false AtWait 0)); [|exact (wq_enqueue 8 _)].
  apply (wq_snoc _ [EStart] (mk_wq [] true false AtWait 0)); [|exact (wq_enqueue 7 _)].
  apply (wq_snoc _ [] new_workqueue); [constructor|exact (wq_start true new_workqueue eq_refl)].
Qed.
Lemma workqueue_fifo_witness : wq_run new_workqueue demo_run demo_wq /\ ran demo_run ++ queue_ demo_wq = [7; 8].
Proof. split; [exact demo_wq_run|]. by destruct (workqueue_fifo demo_run demo_wq demo_wq_run) as (_ & _ & -> & _). Defined.
Lemma workqueue_stop_drains_witness : exists q1, stop_signal demo_wq = Some q1 /\
  queue_ (run_worker 6 q1) = [].
Proof.
  destruct (workqueue_stop_drains demo_run demo_wq demo_wq_run eq_refl) as (q1 & H1 & _ & _ & H2 & _); [done|].
  exists q1. split; [exact H1|exact H2].
Defined.
(** A task enqueued before the thread could be created, and one enqueued after
    the worker has left, are thrown away by the join. *)
Lemma workqueue_discards :
  let q := enqueue 9 (start false (new_workqueue (T := Z))) in
  option_map queue_ (stop_signal q ≫= stop_join) = Some [] /\ run_worker 10 q = q.
Proof. done. Qed.
(** Between taking a task and counting it the worker holds no lock: [flush] can
    return while the last task has not run yet. *)
Lemma flush_misses_taken :
  let q := enqueue 7 (start true (new_workqueue (T := Z))) in
  flushed <$> worker_step q = Some true /\ worker_ <$> worker_step q = Some (Taken 7).
Proof. done. Qed.
