(* ===== verification/KfdEvents.v ===== *)
(** * KFD events, dispatch and MMU entry points

    [plugins/gpu_driver/sim/sim_event.c] (event pages), [drv/kfd/kfd_events.c]
    (signals queued to a worker), [kfd_dispatch.c], [kfd_mmu.c] and
    [kfd_module.c]. *)
From S2P Require Import Prelude GpuTypes HalCalls WorkQueue.
From stdpp Require Import gmap.

#[local] Open Scope Z_scope.

(** ** Event pages ([sim_event.c]) *)
Definition SIM_EVENT_PAGE_MAX_PIDS : Z := 256.
Definition SIM_EVENT_PAGE_SIZE : Z := 4096.
Definition SIM_EVENT_SLOTS : Z := 1024.
Definition SIM_EVENT_PAGE_SLOTS : Z := SIM_EVENT_PAGE_SIZE / 8.

(** An entry in use holds the pid and the 64-bit slots of its page. *)
Record sim_events := mk_sim_events {
  sim_event_pages : list (option (Z * list Z));
  sim_event_page_count : Z;
  sim_signal_count : Z
}.
#[export] Instance eta_sim_events : Eta sim_events := fun s =>
  mk_sim_events (sim_event_pages s) (sim_event_page_count s) (sim_signal_count s).
Definition sim_events_start : sim_events :=
  mk_sim_events (replicate (Z.to_nat SIM_EVENT_PAGE_MAX_PIDS) None) 0 0.

Definition page_of (pid : Z) (e : option (Z * list Z)) : bool :=
  match e with Some (p, _) => p =? pid | None => false end.
Definition free_entry (e : option (Z * list Z)) : bool := match e with None => true | _ => false end.
Fixpoint first_index {A} (p : A -> bool) (l : list A) : option nat :=
  match l with
  | [] => None
  | x :: l' => if p x then Some O else S <$> first_index p l'
  end.
Definition sim_event_page_find_lockless (pid : Z) (s : sim_events) : option nat :=
  first_index (page_of pid) (sim_event_pages s).

(** [alloc_ok] is the answer of [aligned_alloc]. *)
Definition sim_event_page_alloc (alloc_ok : bool) (pid : Z) (s : sim_events) : Z * sim_events :=
  if pid =? 0 then (- EINVAL, s)
  else match sim_event_page_find_lockless pid s with
  | Some _ => (- EEXIST, s)
  | None =>
      if negb alloc_ok then (- ENOMEM, s)
      else match first_index free_entry (sim_event_pages s) with
      | Some i => (0, s <| sim_event_pages ::=
                            <[i := Some (pid, replicate (Z.to_nat SIM_EVENT_PAGE_SLOTS) 0)]> |>
                        <| sim_event_page_count ::= Z.succ |>)
      | None => (- ENOMEM, s)
      end
  end.
Definition sim_event_page_free (pid : Z) (s : sim_events) : Z * sim_events :=
  match sim_event_page_find_lockless pid s with
  | Some i => (0, s <| sim_event_pages ::= <[i := None]> |> <| sim_event_page_count ::= Z.pred |>)
  | None => (- ENOENT, s)
  end.
(** The page's slots; null when the pid has none. *)
Definition sim_event_page_get (pid : Z) (s : sim_events) : option (list Z) :=
  i ← sim_event_page_find_lockless pid s;
  e ← sim_event_pages s !! i;
  snd <$> e.

Definition sim_signal_event (pasid event_id events : Z) (s : sim_events) : Z * sim_events :=
  if 0xFFFF <? pasid then (- EINVAL, s)
  else if SIM_EVENT_SLOTS <? event_id then (- EINVAL, s)
  else if events =? 0 then (- EINVAL, s)
  else
    let s := s <| sim_signal_count ::= fun n => s32 (n + 1) |> in
    (0, if pasid =? 0 then s
        else match sim_event_page_find_lockless pasid s with
        | None => s
        | Some i =>
            let slot_idx := event_id / 64 in
            let bit_off := event_id mod 64 in
            if slot_idx <? SIM_EVENT_PAGE_SLOTS then
              s <| sim_event_pages ::= alter (fmap (fun '(p, slots) =>
                (p, alter (fun w => Z.lor w (u64 (Z.shiftl events bit_off))) (Z.to_nat slot_idx) slots))) i |>
            else s
        end).

(** ** The event subsystem ([kfd_events.c]) *)
Record event := mk_event { ev_pasid : Z; ev_id : Z; ev_mask : Z }.
Record kfd_events := mk_kfd_events { events_wq : option (kernel_workqueue event); sim_ : sim_events }.
#[export] Instance eta_kfd_events : Eta kfd_events := fun s => mk_kfd_events (events_wq s) (sim_ s).

(** What the worker does with a task. *)
Definition run_event (t : event) (s : sim_events) : sim_events :=
  (sim_signal_event (ev_pasid t) (ev_id t) (ev_mask t) s).2.

(** [created]: the answer of [pthread_create]. *)
Definition kfd_events_init (created : bool) (s : kfd_events) : Z * kfd_events :=
  match events_wq s with
  | Some _ => (0, s)
  | None => (0, s <| events_wq := Some (start created new_workqueue) |>)
  end.
Definition kfd_events_signal (pasid event_id events : Z) (s : kfd_events) : Z * kfd_events :=
  match events_wq s with
  | None => (- EAGAIN, s)
  | Some q =>
      if 8 <=? event_id then (- EINVAL, s)
      else if events =? 0 then (- EINVAL, s)
      else (0, s <| events_wq := Some (enqueue (mk_event pasid event_id events) q) |>)
  end.
(** A step of the worker; the task takes effect when it finishes. *)
Definition events_turn (s : kfd_events) : option kfd_events :=
  q ← events_wq s;
  q' ← worker_step q;
  Some (mk_kfd_events (Some q')
    (match worker_ q with Running t => run_event t (sim_ s) | _ => sim_ s end)).
Fixpoint events_drain (n : nat) (s : kfd_events) : kfd_events :=
  match n with
  | O => s
  | S n' => match events_turn s with Some s' => events_drain n' s' | None => s end
  end.
(** [stop], which waits for the worker to leave, and [delete]. *)
Definition kfd_events_exit (s : kfd_events) : kfd_events :=
  match events_wq s with
  | None => s
  | Some q =>
      let s := match stop_signal q with
               | Some q1 => events_drain (worker_fuel q1) (s <| events_wq := Some q1 |>)
               | None => s
               end in
      s <| events_wq := None |>
  end.

(** ** Dispatch ([kfd_dispatch.c]) *)
Definition KFD_IOC_COUNT : Z := 5.
Definition KFD_IOC_CREATE_QUEUE : Z := 0x40.
Definition KFD_IOC_UPDATE_QUEUE : Z := 0x44.
Definition KFD_IOC_MAP_MEMORY : Z := 0x45.
Definition KFD_IOC_UNMAP_MEMORY : Z := 0x46.
Definition KFD_IOC_SET_TRAP_HANDLER : Z := 0x47.
Section Dispatch.
  (** The argument of an ioctl and the state the handlers change. *)
  Context {Arg S : Type}.
Definition kfd_ioctl_handler_t : Type := Z -> Arg -> S -> Z * S.
Definition handler_at (h : list kfd_ioctl_handler_t) (i : Z) : option kfd_ioctl_handler_t := h !! Z.to_nat i.
Record kfd_dispatcher := mk_dispatcher { handlers_ : option (list kfd_ioctl_handler_t); call_count : Z }.
Definition kfd_dispatch_init (handlers : option (list kfd_ioctl_handler_t)) (k : kfd_dispatcher) :
    Z * kfd_dispatcher :=
  match handlers with
  | None => (- EINVAL, k)
  | Some _ => (0, mk_dispatcher handlers 0)
  end.
(** [None]: the array has no entry there, which [kfd_dispatch_init] forbids. *)
Definition kfd_dispatch (cmd : Z) (arg : Arg) (k : kfd_dispatcher) (s : S) : option (Z * kfd_dispatcher * S) :=
  match handlers_ k with
  | None => Some (- EIO, k, s)
  | Some h =>
      let idx := s32 (u32 (cmd - KFD_IOC_CREATE_QUEUE)) in
      if (idx <? 0) || (KFD_IOC_COUNT <=? idx) then Some (- ENOSYS, k, s)
      else
        f ← handler_at h idx;
        let '(ret, s) := f cmd arg s in
        Some (ret, mk_dispatcher (handlers_ k) (s32 (call_count k + 1)), s)
  end.
Definition kfd_dispatch_exit (k : kfd_dispatcher) : kfd_dispatcher := mk_dispatcher None (call_count k).
End Dispatch.
Arguments kfd_dispatcher : clear implicits.

(** ** MMU ([kfd_mmu.c]) *)
(** [hal_ops_] is a file-level pointer; [p_ok] says that the process pointer is
    not null. *)
Record kfd_mmu (H : Type) := mk_kfd_mmu { mmu_wq : option (kernel_workqueue unit); hal_ops : option H }.
Arguments mk_kfd_mmu {H}. Arguments mmu_wq {H}. Arguments hal_ops {H}.
Section Mmu.
  Context {H : Type} `{HAL : GpuHal H}.
Definition kfd_mmu_init (m : kfd_mmu H) : Z * kfd_mmu H :=
  match mmu_wq m with
  | Some _ => (0, m)
  | None => (0, mk_kfd_mmu (Some new_workqueue) None)
  end.
Definition kfd_mmu_exit (m : kfd_mmu H) : kfd_mmu H :=
  match mmu_wq m with
  | None => m
  | Some _ => mk_kfd_mmu None None
  end.
Definition on_hal (op : hal_op Z) (p_ok : bool) (size : Z) (m : kfd_mmu H) : Z * kfd_mmu H :=
  if negb p_ok then (- EINVAL, m)
  else if size =? 0 then (- EINVAL, m)
  else match hal_ops m with
  | None => (- ENODEV, m)
  | Some h => let '(ret, h) := hal_call op h in (ret, mk_kfd_mmu (mmu_wq m) (Some h))
  end.
Definition kfd_mmu_map (p_ok : bool) (va size domain_id : Z) (m : kfd_mmu H) : Z * kfd_mmu H :=
  on_hal (IommuMap va size domain_id) p_ok size m.
Definition kfd_mmu_unmap (p_ok : bool) (va size : Z) (m : kfd_mmu H) : Z * kfd_mmu H :=
  on_hal (IommuUnmap va size) p_ok size m.
End Mmu.

(** ** Pages as a map *)
(** The entries in use; the page of each pid. *)
Definition used (s : sim_events) : list (Z * list Z) := omap (fun e => e) (sim_event_pages s).
Definition page_map (s : sim_events) : gmap Z (list Z) := list_to_map (used s).
Record pages_wf (s : sim_events) : Prop := {
  pw_len : length (sim_event_pages s) = 256%nat;
  pw_pids : NoDup (used s).*1
}.

Lemma first_index_some {A} (p : A -> bool) l i : first_index p l = Some i -> exists x, l !! i = Some x /\ p x = true.
Proof.
  revert i. induction l as [|y l IH]; intros i; simpl; [done|]. destruct (p y) eqn:E; [intros [= <-]; by exists y|].
  destruct (first_index p l) as [j|]; [|done]. intros [= <-]. by apply IH.
Qed.
Lemma first_index_none {A} (p : A -> bool) l : first_index p l = None -> Forall (fun x => p x = false) l.
Proof.
  induction l as [|y l IH]; simpl; [by constructor|]. destruct (p y) eqn:E; [done|].
  destruct (first_index p l); [done|]. intros _. by constructor; [|apply IH].
Qed.
(** An entry replaced. *)
Lemma used_insert {A} (l : list (option A)) i o o' :
  l !! i = Some o -> exists r, omap (fun e => e) l ≡ₚ option_list o ++ r /\
    omap (fun e => e) (<[i := o']> l) ≡ₚ option_list o' ++ r.
Proof.
  intros Hi. exists (omap (fun e => e) (take i l) ++ omap (fun e => e) (drop (S i) l)).
  assert (i < length l)%nat by (by eapply lookup_lt_Some). split.
  - rewrite <- (take_drop_middle l i o Hi) at 1. rewrite omap_app. simpl.
    destruct o; simpl; [by rewrite Permutation_middle|done].
  - rewrite insert_take_drop, omap_app by done. simpl. destruct o'; simpl; [by rewrite Permutation_middle|done].
Qed.

(** There is a free entry exactly when fewer are used. *)
Lemma used_length (l : list (option (Z * list Z))) : (length (omap (fun e => e) l) <= length l)%nat.
Proof. induction l as [|[x|] l IH]; csimpl; lia. Qed.
Lemma used_free (l : list (option (Z * list Z))) :
  first_index free_entry l = None <-> length (omap (fun e => e) l) = length l.
Proof.
  induction l as [|[x|] l IH]; csimpl; [done| |].
  - transitivity (first_index free_entry l = None); [|rewrite IH; lia].
    split; [by destruct (first_index free_entry l)|by intros ->].
  - pose proof (used_length l). split; [done|]. lia.
Qed.

Section Pages.
  Context (s : sim_events) (Hs : pages_wf s).
Lemma find_spec pid :
  match sim_event_page_find_lockless pid s with
  | Some i => exists slots, sim_event_pages s !! i = Some (Some (pid, slots)) /\ page_map s !! pid = Some slots
  | None => page_map s !! pid = None
  end.
Proof.
  unfold sim_event_page_find_lockless. destruct (first_index _ _) as [i|] eqn:E.
  - destruct (first_index_some _ _ _ E) as ([[p slots]|] & Hi & Hp); [|done]. simpl in Hp.
    apply Z.eqb_eq in Hp as ->. exists slots. split; [done|]. apply elem_of_list_to_map_1; [apply Hs|].
    apply list_elem_of_omap. exists (Some (pid, slots)). split; [by eapply list_elem_of_lookup_2|done].
  - apply first_index_none in E. apply not_elem_of_list_to_map_1. intros ([p slots] & -> & Hin)%list_elem_of_fmap.
    apply list_elem_of_omap in Hin as (e & He & ->). rewrite Forall_forall in E. specialize (E _ He). simpl in E. lia.
Qed.
Lemma page_get_map pid : sim_event_page_get pid s = page_map s !! pid.
Proof.
  unfold sim_event_page_get. pose proof (find_spec pid) as H. destruct (sim_event_page_find_lockless pid s) as [i|]; [|done].
  destruct H as (slots & Hi & ->). simpl. by rewrite Hi.
Qed.
(** An entry of a pid set to another value for that pid, or cleared. *)
Lemma set_entry i pid slots (o : option (list Z)) :
  sim_event_pages s !! i = Some (Some (pid, slots)) ->
  let s' := s <| sim_event_pages ::= <[i := pair pid <$> o]> |> in
  pages_wf s' /\ page_map s' = partial_alter (fun _ => o) pid (page_map s).
Proof.
  intros Hi s'. destruct (used_insert (sim_event_pages s) i _ (pair pid <$> o) Hi) as (r & H1 & H2).
  pose proof (pw_pids _ Hs) as Hn. unfold used in Hn. rewrite H1 in Hn. simpl in Hn. apply NoDup_cons in Hn as [Hno Hn].
  assert (NoDup (used s').*1) as Hn'.
  { unfold used. simpl. rewrite H2. destruct o; simpl; [by constructor|done]. }
  split; [split; [simpl; rewrite length_insert; apply Hs|done]|].
  unfold page_map. rewrite (list_to_map_proper (used s') _ Hn' H2), (list_to_map_proper (used s) _ (pw_pids _ Hs) H1). simpl.
  assert (list_to_map (M := gmap Z (list Z)) r !! pid = None) as Hr by (by apply not_elem_of_list_to_map_1).
  apply map_eq. intros j. destruct (decide (j = pid)) as [->|Hj].
  - rewrite lookup_partial_alter_eq. destruct o; simpl; [by rewrite lookup_insert_eq|done].
  - rewrite lookup_partial_alter_ne, lookup_insert_ne by done. destruct o; simpl; [by rewrite lookup_insert_ne|done].
Qed.
(** A free entry taken. *)
Lemma take_entry i pid slots :
  sim_event_pages s !! i = Some None -> page_map s !! pid = None ->
  let s' := s <| sim_event_pages ::= <[i := Some (pid, slots)]> |> in
  pages_wf s' /\ page_map s' = <[pid := slots]> (page_map s).
Proof.
  intros Hi Hp s'. destruct (used_insert (sim_event_pages s) i _ (Some (pid, slots)) Hi) as (r & H1 & H2).
  pose proof (pw_pids _ Hs) as Hn. unfold used in Hn. rewrite H1 in Hn. simpl in Hn, H2.
  assert (page_map s = list_to_map r) as Hr by (apply list_to_map_proper; [apply Hs|done]).
  assert (NoDup (used s').*1) as Hn'.
  { unfold used. simpl. rewrite H2. simpl. constructor; [|done]. rewrite Hr in Hp.
    by apply not_elem_of_list_to_map_2 in Hp. }
  split; [split; [simpl; rewrite length_insert; apply Hs|done]|].
  unfold page_map at 1. rewrite (list_to_map_proper (used s') _ Hn' H2), Hr. done.
Qed.
Lemma map_size_used : size (page_map s) = length (used s).
Proof. unfold page_map. rewrite map_size_list_to_map by apply Hs. done. Qed.
End Pages.
(** ** What the pages say of the events *)
(** The events delivered to each page since it was allocated. *)
Abbreviation deliveries := (gmap Z (list event)).
(** Bit [j] of slot [i] says whether an event of that slot had the bit of its
    mask that the id moves there. *)
Definition page_holds (slots : list Z) (l : list event) : Prop :=
  length slots = 512%nat /\
  forall i w j, slots !! i = Some w -> 0 <= j ->
    Z.testbit w j = bool_decide (j < 64) &&
      existsb (fun t => (ev_id t / 64 =? Z.of_nat i) && Z.testbit (ev_mask t) (j - ev_id t mod 64)) l.
Definition pages_rel (s : sim_events) (m : deliveries) : Prop :=
  pages_wf s /\ map_Forall2 (fun _ => page_holds) (page_map s) m.

Definition deliver (t : event) (m : deliveries) : deliveries :=
  if (1 <=? ev_pasid t) && (ev_pasid t <=? 0xFFFF) then alter (fun l => l ++ [t]) (ev_pasid t) m else m.

Lemma u64_testbit x j : 0 <= j -> Z.testbit (u64 x) j = bool_decide (j < 64) && Z.testbit x j.
Proof.
  intros Hj. unfold u64. destruct (decide (j < 64)) as [H|H].
  - rewrite bool_decide_eq_true_2 by done. apply Z.mod_pow2_bits_low. done.
  - rewrite bool_decide_eq_false_2 by done. apply Z.mod_pow2_bits_high. lia.
Qed.
Lemma page_holds_new : page_holds (replicate (Z.to_nat SIM_EVENT_PAGE_SLOTS) 0) [].
Proof.
  split; [done|]. intros i w j [-> _]%lookup_replicate Hj. simpl. by rewrite Z.bits_0, andb_false_r.
Qed.
Lemma page_holds_signal slots l t : 0 <= ev_id t <= 1024 -> page_holds slots l ->
  page_holds (alter (fun w => Z.lor w (u64 (Z.shiftl (ev_mask t) (ev_id t mod 64)))) (Z.to_nat (ev_id t / 64)) slots) (l ++ [t]).
Proof.
  intros Ht [Hl Hb]. split; [by rewrite length_alter|]. intros i w j Hi Hj.
  rewrite existsb_app. simpl. rewrite orb_false_r, andb_orb_distrib_r.
  assert (0 <= ev_id t / 64) by (apply Z.div_pos; lia).
  destruct (decide (i = Z.to_nat (ev_id t / 64))) as [->|Hne].
  - rewrite list_lookup_alter_eq in Hi. apply fmap_Some in Hi as (w0 & Hw & ->).
    rewrite Z.lor_spec, (Hb _ _ _ Hw Hj), u64_testbit, Z.shiftl_spec by done. f_equal. f_equal.
    rewrite (proj2 (Z.eqb_eq _ _)) by lia. done.
  - rewrite list_lookup_alter_ne in Hi by done. rewrite (Hb _ _ _ Hi Hj). rewrite (proj2 (Z.eqb_neq _ _)) by lia.
    by rewrite andb_false_r, orb_false_r.
Qed.

Lemma pages_start : pages_rel sim_events_start ∅.
Proof.
  assert (used sim_events_start = []) as Hu by (by vm_compute). split; [split; [done|rewrite Hu; constructor]|].
  unfold page_map. rewrite Hu. apply map_Forall2_empty.
Qed.
Section PageOps.
  Context (s : sim_events) (m : deliveries) (Hs : pages_rel s m).
Lemma pages_lookup pid : page_map s !! pid = None <-> m !! pid = None.
Proof. destruct Hs as [_ H]. specialize (H pid). by inv H. Qed.
Lemma alloc_pages ok pid :
  let '(ret, s') := sim_event_page_alloc ok pid s in
  ret = (if pid =? 0 then - EINVAL else if bool_decide (is_Some (m !! pid)) then - EEXIST
         else if ok && (Z.of_nat (size m) <? 256) then 0 else - ENOMEM) /\
  pages_rel s' (if ret =? 0 then <[pid := []]> m else m).
Proof.
  pose proof Hs as [Hw Hr]. unfold sim_event_page_alloc. destruct (Z.eqb_spec pid 0); [done|].
  pose proof (find_spec s Hw pid) as Hf. destruct (sim_event_page_find_lockless pid s) as [i|].
  - destruct Hf as (slots & _ & Hm). rewrite bool_decide_eq_true_2; [done|].
    apply not_eq_None_Some. rewrite <- pages_lookup. by rewrite Hm.
  - rewrite bool_decide_eq_false_2 by (rewrite <- eq_None_not_Some; by apply pages_lookup).
    destruct ok; simpl; [|done].
    assert (Z.of_nat (size m) = Z.of_nat (length (used s))) as ->.
    { rewrite <- map_size_used by done. f_equal. rewrite <- !size_dom. f_equal. symmetry. by eapply map_Forall2_dom_L. }
    destruct (first_index free_entry (sim_event_pages s)) as [i|] eqn:E.
    + destruct (first_index_some _ _ _ E) as ([|] & Hi & Hfree); [done|].
      assert (length (used s) <> 256)%nat as Hn by (rewrite <- (pw_len _ Hw); unfold used; rewrite <- used_free; congruence).
      assert (length (used s) <= 256)%nat by (rewrite <- (pw_len _ Hw); apply used_length).
      rewrite (proj2 (Z.ltb_lt _ _)) by lia. split; [done|].
      destruct (take_entry s Hw i pid (replicate (Z.to_nat SIM_EVENT_PAGE_SLOTS) 0) Hi Hf) as [Hw' Hm'].
      split; [by destruct Hw'; split|]. change (page_map _) with (page_map (s <| sim_event_pages ::= <[i := Some (pid, replicate (Z.to_nat SIM_EVENT_PAGE_SLOTS) 0)]> |>)).
      rewrite Hm'. apply map_Forall2_insert_2; [apply page_holds_new|done].
    + apply used_free in E. fold (used s) in E. rewrite E, (pw_len _ Hw). done.
Qed.
Lemma free_pages pid :
  let '(ret, s') := sim_event_page_free pid s in
  ret = (if bool_decide (is_Some (m !! pid)) then 0 else - ENOENT) /\
  pages_rel s' (if ret =? 0 then delete pid m else m).
Proof.
  pose proof Hs as [Hw Hr]. unfold sim_event_page_free. pose proof (find_spec s Hw pid) as Hf.
  destruct (sim_event_page_find_lockless pid s) as [i|].
  - destruct Hf as (slots & Hi & Hm). rewrite bool_decide_eq_true_2 by (apply not_eq_None_Some; rewrite <- pages_lookup; by rewrite Hm).
    split; [done|]. destruct (set_entry s Hw i pid slots None Hi) as [Hw' Hm']. split; [by destruct Hw'; split|].
    change (page_map _) with (page_map (s <| sim_event_pages ::= <[i := pair pid <$> None]> |>)). rewrite Hm'.
    exact (map_Forall2_delete _ _ _ pid Hr).
  - rewrite bool_decide_eq_false_2; [done|]. rewrite <- eq_None_not_Some. by apply pages_lookup.
Qed.
Lemma signal_pages t : 0 <= ev_pasid t -> 0 <= ev_id t ->
  let '(ret, s') := sim_signal_event (ev_pasid t) (ev_id t) (ev_mask t) s in
  ret = (if (0xFFFF <? ev_pasid t) || (1024 <? ev_id t) || (ev_mask t =? 0) then - EINVAL else 0) /\
  pages_rel s' (if ret =? 0 then deliver t m else m).
Proof.
  intros Hpid Hid. pose proof Hs as [Hw Hr]. unfold sim_signal_event, SIM_EVENT_SLOTS, deliver.
  destruct (Z.ltb_spec 0xFFFF (ev_pasid t)) as [|Hp]; [done|].
  destruct (Z.ltb_spec 1024 (ev_id t)); [done|]. destruct (ev_mask t =? 0); [done|]. split; [done|].
  set (s1 := s <| sim_signal_count ::= fun n => s32 (n + 1) |>).
  assert (pages_rel s1 m) as Hs1 by (destruct Hw; by split; [split|]).
  simpl (0 =? 0). cbv iota. rewrite (proj2 (Z.leb_le (ev_pasid t) 0xFFFF)), andb_true_r by done.
  destruct (Z.eqb_spec (ev_pasid t) 0) as [->|Hp0]; [done|].
  pose proof (find_spec s1 (proj1 Hs1) (ev_pasid t)) as Hf.
  destruct (sim_event_page_find_lockless (ev_pasid t) s1) as [i|].
  - destruct Hf as (slots & Hi & Hm).
    assert (ev_id t / 64 < 17) by (apply Z.div_lt_upper_bound; lia).
    rewrite (proj2 (Z.ltb_lt (ev_id t / 64) SIM_EVENT_PAGE_SLOTS)) by (change (ev_id t / 64 < 512); lia).
    set (slots' := alter (fun w => Z.lor w (u64 (Z.shiftl (ev_mask t) (ev_id t mod 64)))) (Z.to_nat (ev_id t / 64)) slots).
    destruct (set_entry s1 (proj1 Hs1) i (ev_pasid t) slots (Some slots') Hi) as [Hw' Hm'].
    assert (alter (fmap (fun '(p, sl) => (p, alter (fun w => Z.lor w (u64 (Z.shiftl (ev_mask t) (ev_id t mod 64)))) (Z.to_nat (ev_id t / 64)) sl))) i
      (sim_event_pages s1) = <[i := Some (ev_pasid t, slots')]> (sim_event_pages s1)) as Ha
      by (by rewrite (list_alter_insert_at _ _ _ _ Hi)).
    assert (s1 <| sim_event_pages ::= alter (fmap (fun '(p, sl) => (p, alter (fun w => Z.lor w (u64 (Z.shiftl (ev_mask t) (ev_id t mod 64)))) (Z.to_nat (ev_id t / 64)) sl))) i |> =
      s1 <| sim_event_pages ::= <[i := pair (ev_pasid t) <$> Some slots']> |>) as -> by (unfold field_upd; by rewrite Ha).
    destruct Hs1 as [_ Hr1]. split; [exact Hw'|]. rewrite Hm'. rewrite (proj2 (Z.leb_le 1 (ev_pasid t))) by lia.
    intros p. destruct (decide (p = ev_pasid t)) as [->|Hne].
    + rewrite lookup_partial_alter_eq, lookup_alter_eq. specialize (Hr1 (ev_pasid t)). rewrite Hm in Hr1.
      inversion Hr1 as [? l Hl|]; subst. constructor. by apply page_holds_signal; [lia|].
    + rewrite lookup_partial_alter_ne, lookup_alter_ne by done. apply Hr1.
  - rewrite (proj2 (Z.leb_le 1 (ev_pasid t))) by lia. destruct Hs1 as [Hw1 Hr1].
    assert (m !! ev_pasid t = None) as Hm by (by apply pages_lookup). split; [done|].
    intros p. destruct (decide (p = ev_pasid t)) as [->|Hne]; [rewrite lookup_alter_eq, Hm; simpl|by rewrite lookup_alter_ne].
    specialize (Hr1 (ev_pasid t)). by rewrite Hm in Hr1.
Qed.
End PageOps.

(** ** Every accepted signal is applied once, in order *)
(** What happens along a run: a signal is accepted, the worker applies it or an
    exit throws it away; pages come and go, and [sim_signal_event] may be called
    directly. *)
Inductive ev_obs := OAccept (t : event) | OApply (t : event) | ODrop (t : event) | OAlloc (pid : Z) | OFree (pid : Z) | ODirect (t : event).
Definition accepted (l : list ev_obs) : list event := omap (fun o => match o with OAccept t => Some t | _ => None end) l.
Definition applied (l : list ev_obs) : list event := omap (fun o => match o with OApply t => Some t | _ => None end) l.
Definition dropped (l : list ev_obs) : list event := omap (fun o => match o with ODrop t => Some t | _ => None end) l.
(** The events that left the queue, applied or thrown away. *)
Definition handled (l : list ev_obs) : list event := omap (fun o => match o with OApply t | ODrop t => Some t | _ => None end) l.
(** The pages as the observations have them. *)
Definition observe (m : deliveries) (o : ev_obs) : deliveries :=
  match o with
  | OAlloc pid => <[pid := []]> m
  | OFree pid => delete pid m
  | OApply t | ODirect t => deliver t m
  | OAccept _ | ODrop _ => m
  end.

(** The tasks the worker runs or will run. *)
Definition pending (s : kfd_events) : list event :=
  match events_wq s with
  | None => []
  | Some q => (match worker_ q with Taken t | Running t => [t] | _ => [] end) ++ queue_ q
  end.
(** The task a step of the worker applies. *)
Definition turn_obs (s : kfd_events) : list ev_obs :=
  match events_wq s with
  | Some q => match worker_ q with Running t => [OApply t] | _ => [] end
  | None => []
  end.
Fixpoint drain_obs (n : nat) (s : kfd_events) : list ev_obs :=
  match n with
  | O => []
  | S n' => match events_turn s with Some s' => turn_obs s ++ drain_obs n' s' | None => [] end
  end.
(** The worker runs until it leaves; [delete] then throws away what is left. *)
Definition exit_obs (s : kfd_events) : list ev_obs :=
  match events_wq s with
  | None => []
  | Some q =>
      match stop_signal q with
      | Some q1 => let s1 := s <| events_wq := Some q1 |> in
                   drain_obs (worker_fuel q1) s1 ++ (ODrop <$> pending (events_drain (worker_fuel q1) s1))
      | None => ODrop <$> pending s
      end
  end.

(** [created], [mem]: what [pthread_create] and [aligned_alloc] answer. *)
Inductive ev_op :=
| EvInit (created : bool) | EvExit | EvSignal (t : event) | EvTurn
| EvAlloc (mem : bool) (pid : Z) | EvFree (pid : Z) | EvDirect (t : event).
Definition ev_do (o : ev_op) (s : kfd_events) : list ev_obs * kfd_events :=
  let pages (obs : ev_obs) (r : Z * sim_events) := ((if r.1 =? 0 then [obs] else []), s <| sim_ := r.2 |>) in
  match o with
  | EvInit created => ([], (kfd_events_init created s).2)
  | EvExit => (exit_obs s, kfd_events_exit s)
  | EvSignal t => let '(ret, s') := kfd_events_signal (ev_pasid t) (ev_id t) (ev_mask t) s in
                  ((if ret =? 0 then [OAccept t] else []), s')
  | EvTurn => match events_turn s with Some s' => (turn_obs s, s') | None => ([], s) end
  | EvAlloc mem pid => pages (OAlloc pid) (sim_event_page_alloc mem pid (sim_ s))
  | EvFree pid => pages (OFree pid) (sim_event_page_free pid (sim_ s))
  | EvDirect t => pages (ODirect t) (sim_signal_event (ev_pasid t) (ev_id t) (ev_mask t) (sim_ s))
  end.
Fixpoint ev_run (os : list ev_op) (s : kfd_events) : list ev_obs * kfd_events :=
  match os with
  | [] => ([], s)
  | o :: os' => let '(a, s1) := ev_do o s in let '(a', s2) := ev_run os' s1 in (a ++ a', s2)
  end.
Definition kfd_events_start : kfd_events := mk_kfd_events None sim_events_start.

Definition event_ok (t : event) : Prop := is_u32 (ev_pasid t) /\ is_u32 (ev_id t) /\ is_u64 (ev_mask t).
Definition ev_ok (o : ev_op) : Prop := match o with EvSignal t | EvDirect t => event_ok t | _ => True end.

(** *** The queue: first in, first out *)
Lemma turn_fifo s s' : events_turn s = Some s' -> applied (turn_obs s) ++ pending s' = pending s /\
  turn_obs s = OApply <$> applied (turn_obs s).
Proof.
  unfold events_turn, pending, turn_obs. destruct (events_wq s) as [q|]; [|done]. simpl.
  unfold worker_step. destruct (worker_ q) eqn:Ew; simpl; try done.
  - destruct (queue_ q) as [|t l] eqn:Eq; simpl; [destruct (started_ q); [done|]|]; intros [= <-]; simpl; by rewrite ?Eq.
  - by intros [= <-].
  - by intros [= <-].
Qed.
Lemma applied_app l l' : applied (l ++ l') = applied l ++ applied l'.
Proof. apply omap_app. Qed.
Lemma handled_app l l' : handled (l ++ l') = handled l ++ handled l'.
Proof. apply omap_app. Qed.
Lemma accepted_app l l' : accepted (l ++ l') = accepted l ++ accepted l'.
Proof. apply omap_app. Qed.
Lemma dropped_app l l' : dropped (l ++ l') = dropped l ++ dropped l'.
Proof. apply omap_app. Qed.
Lemma obs_applied (l : list event) :
  applied (OApply <$> l) = l /\ handled (OApply <$> l) = l /\ accepted (OApply <$> l) = [] /\ dropped (OApply <$> l) = [].
Proof. induction l as [|t l (H1 & H2 & H3 & H4)]; [done|]. csimpl. by rewrite H1, H2, H3, H4. Qed.
Lemma obs_dropped (l : list event) : handled (ODrop <$> l) = l /\ accepted (ODrop <$> l) = [].
Proof. induction l as [|t l [H1 H2]]; [done|]. csimpl. by rewrite H1, H2. Qed.
Lemma drain_fifo n s : applied (drain_obs n s) ++ pending (events_drain n s) = pending s /\
  drain_obs n s = OApply <$> applied (drain_obs n s).
Proof.
  revert s. induction n as [|n IH]; intros s; simpl; [done|]. destruct (events_turn s) as [s'|] eqn:E; [|done].
  destruct (turn_fifo s s' E) as [H1 H2], (IH s') as [H3 H4].
  rewrite applied_app, fmap_app, <- H2, <- H4, <- app_assoc, H3. done.
Qed.
Lemma drain_worker n s q : events_wq s = Some q -> events_wq (events_drain n s) = Some (run_worker n q).
Proof.
  revert s q. induction n as [|n IH]; intros s q Hq; simpl; [done|]. unfold events_turn. rewrite Hq. simpl.
  destruct (worker_step q); simpl; [by apply IH|done].
Qed.

(** The subsystem is closed, or its queue has been started, with a thread that
    has not left or, when none could be created, without one. *)
Definition events_inv (threads : bool) (s : kfd_events) : Prop :=
  match events_wq s with
  | None => True
  | Some q => started_ q = true /\ worker_ q <> Left /\ (threads = true -> worker_ q <> NoThread)
  end.
Lemma exit_closes s : events_wq (kfd_events_exit s) = None.
Proof. unfold kfd_events_exit. by destruct (events_wq s) eqn:E. Qed.
Lemma exit_fifo threads s : events_inv threads s ->
  handled (exit_obs s) = pending s /\ accepted (exit_obs s) = [] /\
  (threads = true -> exit_obs s = OApply <$> pending s).
Proof.
  unfold events_inv, exit_obs. destruct (events_wq s) as [q|] eqn:Eq; [|by unfold pending; rewrite Eq].
  intros (Hst & Hl & Hth). unfold stop_signal. rewrite Hst.
  set (q1 := q <| started_ := false |> <| joining := true |>). set (s1 := s <| events_wq := Some q1 |>).
  destruct (drain_fifo (worker_fuel q1) s1) as [H1 H2].
  assert (pending s1 = pending s) as Hp by (unfold pending; simpl; by rewrite Eq). rewrite Hp in H1.
  rewrite H2, handled_app, accepted_app. destruct (obs_applied (applied (drain_obs (worker_fuel q1) s1))) as (_ & -> & -> & _).
  destruct (obs_dropped (pending (events_drain (worker_fuel q1) s1))) as [-> ->]. split; [done|]. split; [done|].
  intros Hc. specialize (Hth Hc). assert (pending (events_drain (worker_fuel q1) s1) = []) as Hnil.
  { destruct (run_worker_leaves (worker_fuel q1) q1) as (H3 & H4 & _ & _); [done|done|done|done|].
    unfold pending. rewrite (drain_worker _ s1 q1 eq_refl), H3, H4. done. }
  rewrite Hnil in H1 |- *. rewrite app_nil_r in H1. simpl. by rewrite app_nil_r, H1.
Qed.

(** What an operation does to the queue of signals. *)
Lemma ev_do_fifo threads o s : events_inv threads s -> (threads = true -> o <> EvInit false) ->
  let '(a, s') := ev_do o s in
  events_inv threads s' /\ handled a ++ pending s' = pending s ++ accepted a /\ (threads = true -> dropped a = []).
Proof.
  intros Hs Ho. destruct o as [c| |t| |mem pid|pid|t]; simpl.
  - unfold kfd_events_init. destruct (events_wq s) eqn:Eq; [by rewrite app_nil_r|]. unfold events_inv, pending. simpl.
    rewrite Eq. destruct c; [done|]. split; [|done]. split; [done|]. split; [done|]. intros Ht. by destruct (Ho Ht).
  - destruct (exit_fifo threads s Hs) as (H1 & H2 & H3). unfold events_inv, pending at 1. rewrite exit_closes, H1, H2.
    split; [done|]. split; [done|]. intros Ht. rewrite (H3 Ht). apply obs_applied.
  - unfold kfd_events_signal. unfold events_inv in *. destruct (events_wq s) as [q|] eqn:Eq; [|by rewrite Eq, app_nil_r].
    destruct (8 <=? ev_id t); [by rewrite Eq, app_nil_r|]. destruct (ev_mask t =? 0); [by rewrite Eq, app_nil_r|].
    split; [done|]. split; [|done]. unfold pending. simpl. rewrite Eq, app_assoc. by destruct t.
  - destruct (events_turn s) as [s'|] eqn:Et; [|by rewrite app_nil_r].
    destruct (turn_fifo s s' Et) as [H1 H2]. rewrite H2. destruct (obs_applied (applied (turn_obs s))) as (_ & -> & -> & ->).
    rewrite H1, app_nil_r. split; [|done]. unfold events_turn, events_inv in *. destruct (events_wq s) as [q|]; [|done].
    simpl in Et. unfold worker_step in Et. destruct Hs as (Hst & Hl & Hth). destruct (worker_ q) eqn:Ew; try done.
    + destruct (queue_ q); simpl in Et; [by rewrite Hst in Et|]. by injection Et as <-.
    + by injection Et as <-.
    + by injection Et as <-.
  - case_match; simpl; by rewrite app_nil_r.
  - case_match; simpl; by rewrite app_nil_r.
  - case_match; simpl; by rewrite app_nil_r.
Qed.
Lemma ev_run_fifo threads os s : events_inv threads s -> (threads = true -> EvInit false ∉ os) ->
  let '(a, s') := ev_run os s in
  events_inv threads s' /\ handled a ++ pending s' = pending s ++ accepted a /\ (threads = true -> dropped a = []).
Proof.
  revert s. induction os as [|o os IH]; intros s Hs Ho; simpl; [by rewrite app_nil_r|].
  pose proof (ev_do_fifo threads o s Hs) as Hd. destruct (ev_do o s) as [a s1].
  destruct Hd as (Hs1 & H1 & H2); [intros Ht ->; apply (Ho Ht); left|].
  specialize (IH s1 Hs1). destruct (ev_run os s1) as [a' s2].
  destruct IH as (Hs2 & H3 & H4); [intros Ht Hin; apply (Ho Ht); by right|]. split; [done|].
  rewrite handled_app, accepted_app, dropped_app, <- app_assoc, H3, !app_assoc, H1. split; [done|].
  intros Ht. by rewrite H2, H4.
Qed.
Lemma dropped_none l : dropped l = [] -> handled l = applied l.
Proof. induction l as [|[] l IH]; csimpl; try done. intros H. f_equal. by apply IH. Qed.

(** *** The pages: what was delivered since they were allocated *)
(** The events the queue can hold. *)
Definition queueable (t : event) : Prop := 0 <= ev_pasid t /\ 0 <= ev_id t < 8 /\ ev_mask t <> 0.
Lemma run_event_pages t s m : queueable t -> pages_rel s m -> pages_rel (run_event t s) (deliver t m).
Proof.
  intros (Hp & Hi & Hm) Hs. unfold run_event. pose proof (signal_pages s m Hs t Hp ltac:(lia)) as H.
  destruct (sim_signal_event _ _ _ s) as [ret s']. destruct H as [Hret H]. simpl.
  rewrite (proj2 (Z.ltb_ge 1024 (ev_id t))), orb_false_r in Hret by lia. rewrite (proj2 (Z.eqb_neq _ _) Hm), orb_false_r in Hret.
  destruct (Z.ltb_spec 0xFFFF (ev_pasid t)) as [Hb|Hb]; rewrite Hret in H; [|exact H].
  unfold deliver. rewrite (proj2 (Z.leb_gt (ev_pasid t) 0xFFFF)), andb_false_r by done. exact H.
Qed.
Definition pages_inv (s : kfd_events) (m : deliveries) : Prop := Forall queueable (pending s) /\ pages_rel (sim_ s) m.
Lemma turn_pages s s' m : events_turn s = Some s' -> pages_inv s m -> pages_inv s' (fold_left observe (turn_obs s) m).
Proof.
  intros E [Hp Hm]. pose proof (turn_fifo s s' E) as [Hf _]. rewrite <- Hf, Forall_app in Hp. split; [apply Hp|].
  unfold events_turn, turn_obs in *. destruct (events_wq s) as [q|]; [|done]. simpl in E.
  destruct (worker_step q) as [q'|]; [|done]. injection E as <-. simpl.
  destruct (worker_ q) as [| |t|t|]; try done. simpl. apply run_event_pages; [|done].
  destruct Hp as [Hp _]. by inversion Hp.
Qed.
Lemma drain_pages n s m : pages_inv s m -> pages_inv (events_drain n s) (fold_left observe (drain_obs n s) m).
Proof.
  revert s m. induction n as [|n IH]; intros s m Hs; simpl; [done|]. destruct (events_turn s) as [s'|] eqn:E; [|done].
  rewrite fold_left_app. apply IH. by apply turn_pages.
Qed.
Lemma observe_dropped (l : list event) m : fold_left observe (ODrop <$> l) m = m.
Proof. induction l as [|t l IH]; [done|exact IH]. Qed.
Lemma exit_pages s m : pages_inv s m -> pages_inv (kfd_events_exit s) (fold_left observe (exit_obs s) m).
Proof.
  intros [Hp Hm]. unfold exit_obs, kfd_events_exit. destruct (events_wq s) as [q|] eqn:Eq; [|done].
  destruct (stop_signal q) as [q1|] eqn:Es; [|by rewrite observe_dropped].
  rewrite fold_left_app, observe_dropped. split; [done|].
  apply (drain_pages (worker_fuel q1) (s <| events_wq := Some q1 |>) m). split; [|done].
  unfold pending in *. simpl. rewrite Eq in Hp. unfold stop_signal in Es. destruct (started_ q); [|done]. by injection Es as <-.
Qed.
Lemma ev_do_pages o s m : ev_ok o -> pages_inv s m ->
  let '(a, s') := ev_do o s in pages_inv s' (fold_left observe a m).
Proof.
  intros Ho [Hp Hm]. destruct o as [c| |t| |mem pid|pid|t]; simpl.
  - unfold kfd_events_init. destruct (events_wq s) eqn:Eq; [done|]. split; [|done].
    unfold pending, start. simpl. by destruct c.
  - by apply exit_pages.
  - unfold kfd_events_signal. destruct (events_wq s) as [q|] eqn:Eq; [|done].
    destruct (Z.leb_spec 8 (ev_id t)); [done|]. destruct (Z.eqb_spec (ev_mask t) 0); [done|]. split; [|done].
    unfold pending in *. simpl. rewrite Eq in Hp. rewrite app_assoc. apply Forall_app_2; [done|]. apply Forall_singleton.
    destruct Ho as (H1 & H2 & _). unfold queueable. simpl. split; [apply H1|]. split; [|done]. split; [apply H2|done].
  - destruct (events_turn s) as [s'|] eqn:Et; [|done]. by apply turn_pages.
  - pose proof (alloc_pages (sim_ s) m Hm mem pid) as H. destruct (sim_event_page_alloc mem pid (sim_ s)) as [ret s'].
    destruct H as [_ H]. simpl. destruct (ret =? 0); by split.
  - pose proof (free_pages (sim_ s) m Hm pid) as H. destruct (sim_event_page_free pid (sim_ s)) as [ret s'].
    destruct H as [_ H]. simpl. destruct (ret =? 0); by split.
  - destruct Ho as (H1 & H2 & _). pose proof (signal_pages (sim_ s) m Hm t ltac:(apply H1) ltac:(apply H2)) as H.
    destruct (sim_signal_event _ _ _ (sim_ s)) as [ret s']. destruct H as [_ H]. simpl. destruct (ret =? 0); by split.
Qed.
Lemma ev_run_pages os s m : Forall ev_ok os -> pages_inv s m ->
  let '(a, s') := ev_run os s in pages_inv s' (fold_left observe a m).
Proof.
  intros Hos. revert s m. induction Hos as [|o os Ho Hos IH]; intros s m Hs; simpl; [done|].
  pose proof (ev_do_pages o s m Ho Hs) as Hd. destruct (ev_do o s) as [a s1]. specialize (IH s1 _ Hd).
  destruct (ev_run os s1) as [a' s2]. by rewrite fold_left_app.
Qed.


(** A page allocated between two signals of one process. *)
Definition late_page : list ev_op :=
  [EvInit true; EvSignal (mk_event 5 0 1); EvSignal (mk_event 5 1 3); EvTurn; EvTurn; EvTurn; EvAlloc true 5].

(** *** Observations *)
(** Without a thread the accepted signals are thrown away at the exit. *)
Lemma events_lost_without_thread :
  (ev_run [EvInit false; EvAlloc true 5; EvSignal (mk_event 5 0 1); EvTurn; EvExit] kfd_events_start).1 =
    [OAlloc 5; OAccept (mk_event 5 0 1); ODrop (mk_event 5 0 1)].
Proof. by vm_compute. Qed.
(** The event ids 0 to 7 share the first slot: event 0 with mask 2 and event 1
    with mask 1 are the same bit, and the bits moved past bit 63 are lost. *)
Lemma event_ids_alias :
  let s := (sim_event_page_alloc true 5 sim_events_start).2 in
  sim_event_page_get 5 (run_event (mk_event 5 0 2) s) = sim_event_page_get 5 (run_event (mk_event 5 1 1) s) /\
  sim_event_page_get 5 (run_event (mk_event 5 7 (2 ^ 63)) s) = sim_event_page_get 5 s.
Proof. vm_compute. done. Qed.

(** ** Dispatch and MMU *)
Section Routes.
  Context {Arg S : Type}.
(** The five commands from CREATE_QUEUE to UPDATE_QUEUE reach their handler,
    every other one is refused. *)
Lemma dispatch_routes (h : list (kfd_ioctl_handler_t (Arg := Arg) (S := S))) n cmd arg s :
  is_u32 cmd -> length h = 5%nat ->
  kfd_dispatch cmd arg (mk_dispatcher (Some h) n) s =
    match handler_at h (cmd - 0x40) with
    | Some f => if 0x40 <=? cmd then let '(ret, s') := f cmd arg s in
                  Some (ret, mk_dispatcher (Some h) (s32 (n + 1)), s')
                else Some (- ENOSYS, mk_dispatcher (Some h) n, s)
    | None => Some (- ENOSYS, mk_dispatcher (Some h) n, s)
    end.
Proof.
  intros Hc Hl. unfold kfd_dispatch, KFD_IOC_CREATE_QUEUE, KFD_IOC_COUNT. simpl.
  assert (forall x, 0 <= x < 2 ^ 31 -> s32 (u32 x) = x) as Hs.
  { intros x Hx. unfold s32. rewrite !(u32_id x) by lia. by replace (x <? 2 ^ 31) with true by lia. }
  destruct (Z.leb_spec 0x40 cmd) as [Hge|Hlt].
  - destruct (Z.ltb_spec cmd 0x45) as [H5|H5].
    + rewrite Hs by lia. replace ((cmd - 64 <? 0) || (5 <=? cmd - 64)) with false by lia.
      assert (is_Some (handler_at h (cmd - 64))) as [f Hf] by (apply lookup_lt_is_Some_2; lia). rewrite Hf. done.
    + assert (handler_at h (cmd - 64) = None) as -> by (apply lookup_ge_None_2; lia). unfold s32. rewrite !(u32_id (cmd - 64)) by lia.
      destruct (cmd - 64 <? 2 ^ 31) eqn:E31; [replace ((cmd - 64 <? 0) || (5 <=? cmd - 64)) with true by lia|
        replace ((cmd - 64 - 2 ^ 32 <? 0) || (5 <=? cmd - 64 - 2 ^ 32)) with true by lia]; done.
  - assert (u32 (cmd - 64) = cmd - 64 + 2 ^ 32) as Hu by word. unfold s32. rewrite Hu, u32_id by lia.
    replace (cmd - 64 + 2 ^ 32 <? 2 ^ 31) with false by lia.
    replace ((cmd - 64 + 2 ^ 32 - 2 ^ 32 <? 0) || (5 <=? cmd - 64 + 2 ^ 32 - 2 ^ 32)) with true by lia.
    by case_match.
Qed.
End Routes.

(** Nothing stores a HAL in [hal_ops_]: mapping and unmapping reach no HAL. *)
Section MmuCalls.
  Context {H : Type} `{HAL : GpuHal H}.
Inductive mmu_op := MmuInit | MmuExit | MmuMap (p_ok : bool) (va size domain_id : Z) | MmuUnmap (p_ok : bool) (va size : Z).
Definition mmu_do (o : mmu_op) (m : kfd_mmu H) : kfd_mmu H :=
  match o with
  | MmuInit => (kfd_mmu_init m).2
  | MmuExit => kfd_mmu_exit m
  | MmuMap p va n d => (kfd_mmu_map p va n d m).2
  | MmuUnmap p va n => (kfd_mmu_unmap p va n m).2
  end.
Lemma mmu_never_maps os va size d : let m := fold_left (fun m o => mmu_do o m) os (mk_kfd_mmu None None) in
  0 < size -> kfd_mmu_map true va size d m = (- ENODEV, m) /\ kfd_mmu_unmap true va size m = (- ENODEV, m).
Proof.
  intros m Hs. assert (hal_ops m = None) as Hm.
  { unfold m. assert (hal_ops (H := H) (mk_kfd_mmu None None) = None) as H0 by done.
    clear m. generalize dependent (mk_kfd_mmu (H := H) None None).
    induction os as [|o os IH]; intros m Hm; simpl; [done|]. apply IH.
    destruct o; simpl; unfold kfd_mmu_init, kfd_mmu_exit, kfd_mmu_map, kfd_mmu_unmap, on_hal; rewrite ?Hm;
      repeat case_match; done. }
  unfold kfd_mmu_map, kfd_mmu_unmap, on_hal. rewrite Hm. by replace (size =? 0) with false by lia.
Qed.
End MmuCalls.
