(* ===== verification/Uvm.v ===== *)
(** * Unified virtual memory: notifiers, ranges, page states

    [src/kernel/uvm/mmu_notifier.cpp], [hmm_range.cpp], [page_state_machine.cpp],
    [zone_device.cpp], [fault_inject.cpp] and [migrate.cpp].  Objects the caller
    owns (notifiers, interval notifiers, memory descriptors) are named by their
    addresses, 0 being the null pointer.  What a driver's callback does to the
    driver's own state is the interface [Callbacks]; callbacks do not call the
    framework back. *)
From S2P Require Import Prelude.

(** ** MMU notifiers *)
(** The function pointers of the table, by address. *)
Record mmu_notifier_ops := mk_mn_ops {
  invalidate_range_start : option Z; invalidate_range_end : option Z; release_ : option Z
}.
Record mmu_notifier := mk_mn { mn_ops : option mmu_notifier_ops; mn_mm : Z; mn_priv : Z }.
#[export] Instance eta_mn : Eta mmu_notifier := fun n => mk_mn (mn_ops n) (mn_mm n) (mn_priv n).

Record NotifierEntry := mk_entry { e_mm : Z; e_mn : Z }.
(** The notifiers in memory and the registry, in order of registration. *)
Record notifier_state := mk_notifier_state { notifiers : gmap Z mmu_notifier; g_registry : list NotifierEntry }.
#[export] Instance eta_notifier_state : Eta notifier_state := fun s => mk_notifier_state (notifiers s) (g_registry s).

(** [call_start fn mn mm start end] runs the callback at [fn]. *)
Class Callbacks (D : Type) := {
  call_start : Z -> Z -> Z -> Z -> Z -> D -> Z * D;
  call_end : Z -> Z -> Z -> Z -> Z -> D -> D;
  call_release : Z -> Z -> Z -> D -> D
}.

Definition find_entry (mn : Z) (s : notifier_state) : option NotifierEntry :=
  List.find (fun e => e_mn e =? mn) (g_registry s).
Definition ops_of (mn : Z) (s : notifier_state) : option mmu_notifier_ops := notifiers s !! mn ≫= mn_ops.
Definition set_mm (mn mm : Z) (s : notifier_state) : notifier_state :=
  s <| notifiers ::= alter (fun n => n <| mn_mm := mm |>) mn |>.

Definition mmu_notifier_register (mn mm : Z) (s : notifier_state) : Z * notifier_state :=
  if (mn =? 0) || (mm =? 0) || bool_decide (ops_of mn s = None) then (- EINVAL, s)
  else if bool_decide (is_Some (find_entry mn s)) then (- EINVAL, s)
  else (0, set_mm mn mm s <| g_registry ::= fun l => l ++ [mk_entry mm mn] |>).

(** Remove the first entry of the notifier. *)
Fixpoint erase_entry (mn : Z) (l : list NotifierEntry) : list NotifierEntry :=
  match l with
  | [] => []
  | e :: l' => if e_mn e =? mn then l' else e :: erase_entry mn l'
  end.
Definition mmu_notifier_unregister (mn : Z) (s : notifier_state) : notifier_state :=
  if mn =? 0 then s
  else match find_entry mn s with
  | None => s
  | Some _ => set_mm mn 0 s <| g_registry ::= erase_entry mn |>
  end.

Section Dispatch.
  Context {D : Type} `{CB : Callbacks D}.
Definition mmu_notifier_dispatch_invalidate_start (mn mm start end_ : Z) (s : notifier_state) (d : D) : Z * D :=
  if mn =? 0 then (- EINVAL, d)
  else match find_entry mn s, ops_of mn s ≫= invalidate_range_start with
  | Some _, Some f => call_start f mn mm start end_ d
  | _, _ => (0, d)
  end.
Definition mmu_notifier_dispatch_invalidate_end (mn mm start end_ : Z) (s : notifier_state) (d : D) : D :=
  if mn =? 0 then d
  else match find_entry mn s, ops_of mn s ≫= invalidate_range_end with
  | Some _, Some f => call_end f mn mm start end_ d
  | _, _ => d
  end.
Definition mmu_notifier_dispatch_release (mn mm : Z) (s : notifier_state) (d : D) : D :=
  if mn =? 0 then d
  else match find_entry mn s, ops_of mn s ≫= release_ with
  | Some _, Some f => call_release f mn mm d
  | _, _ => d
  end.
Fixpoint dispatch_loop (mm start end_ last_ret : Z) (l : list NotifierEntry) (s : notifier_state) (d : D) : Z * D :=
  match l with
  | [] => (last_ret, d)
  | e :: l' =>
      if negb (e_mm e =? mm) then dispatch_loop mm start end_ last_ret l' s d
      else
        let '(ret, d) := mmu_notifier_dispatch_invalidate_start (e_mn e) mm start end_ s d in
        dispatch_loop mm start end_ (if ret =? 0 then last_ret else ret) l' s d
  end.
Definition mmu_notifier_dispatch_all_invalidate_start (mm start end_ : Z) (s : notifier_state) (d : D) : Z * D :=
  if mm =? 0 then (- EINVAL, d) else dispatch_loop mm start end_ 0 (g_registry s) s d.

(** ** Fault injection *)
Definition fault_inject_init (count : Z) : Z * Z := (0, 0).
Definition fault_inject_shutdown (count : Z) : Z := 0.
(** The code, [*pfn_out], the fault count and the driver's state. *)
Definition fault_inject_page_fault (mm addr : Z) (s : notifier_state) (count : Z) (d : D) :
    Z * option Z * Z * D :=
  if mm =? 0 then (- EINVAL, None, count, d)
  else
    let page_addr := Z.land addr (u64 (Z.lnot 4095)) in
    let page_end := u64 (page_addr + 4096) in
    let '(_, d) := mmu_notifier_dispatch_all_invalidate_start mm page_addr page_end s d in
    (0, Some addr, s32 (count + 1), d).
End Dispatch.

(** ** HMM ranges *)
Definition HMM_PFN_VALID : Z := Z.shiftl 1 63.
Definition HMM_PFN_WRITE : Z := Z.shiftl 1 62.
Definition HMM_PFN_SHIFT : Z := 12.
Definition UVM_PAGE_SIZE : Z := 4096.
Record mmu_interval_notifier := mk_mni {
  mni_mm : Z; mni_start : Z; mni_end : Z; mni_ops : Z; event_seq : Z
}.
#[export] Instance eta_mni : Eta mmu_interval_notifier := fun n =>
  mk_mni (mni_mm n) (mni_start n) (mni_end n) (mni_ops n) (event_seq n).
Record hmm_state := mk_hmm {
  g_page_tables : gmap Z (gmap Z Z);
  intervals : gmap Z mmu_interval_notifier;
  g_interval_registry : list Z
}.
#[export] Instance eta_hmm : Eta hmm_state := fun s =>
  mk_hmm (g_page_tables s) (intervals s) (g_interval_registry s).

Definition sim_page_table_init (mm : Z) (s : hmm_state) : hmm_state :=
  if mm =? 0 then s else s <| g_page_tables ::= <[mm := ∅]> |>.
Definition sim_page_table_add (mm addr pfn : Z) (s : hmm_state) : hmm_state :=
  if mm =? 0 then s
  else s <| g_page_tables ::= fun t => <[mm := <[addr := pfn]> (default ∅ (t !! mm))]> t |>.
Definition sim_page_table_destroy (mm : Z) (s : hmm_state) : hmm_state :=
  if mm =? 0 then s else s <| g_page_tables ::= delete mm |>.

Definition interval_registered (mni : Z) (s : hmm_state) : bool := bool_decide (mni ∈ g_interval_registry s).
Definition mmu_interval_notifier_insert (mni mm start end_ ops : Z) (s : hmm_state) : Z * hmm_state :=
  if (mni =? 0) || (mm =? 0) then (- EINVAL, s)
  else if end_ <=? start then (- EINVAL, s)
  else if interval_registered mni s then (- EINVAL, s)
  else (0, s <| intervals ::= <[mni := mk_mni mm start end_ ops 1]> |>
             <| g_interval_registry ::= fun l => l ++ [mni] |>).
Fixpoint erase_interval (mni : Z) (l : list Z) : list Z :=
  match l with
  | [] => []
  | x :: l' => if x =? mni then l' else x :: erase_interval mni l'
  end.
Definition mmu_interval_notifier_remove (mni : Z) (s : hmm_state) : hmm_state :=
  if mni =? 0 then s
  else if interval_registered mni s then
    s <| g_interval_registry ::= erase_interval mni |>
      <| intervals ::= alter (fun n => n <| mni_mm := 0 |>) mni |>
  else s.
(** The object read may be unregistered; its memory is the caller's. *)
Definition mmu_interval_read_begin (mni : Z) (s : hmm_state) : Z :=
  if mni =? 0 then 0 else default 0 (event_seq <$> intervals s !! mni).
Definition mmu_interval_read_retry (mni seq : Z) (s : hmm_state) : bool :=
  if mni =? 0 then true else negb (default 0 (event_seq <$> intervals s !! mni) =? seq).
Definition mmu_interval_set_seq (mni seq : Z) (s : hmm_state) : hmm_state :=
  if mni =? 0 then s else s <| intervals ::= alter (fun n => n <| event_seq := seq |>) mni |>.

Record hmm_range := mk_range {
  r_notifier : Z; notifier_seq : Z; r_start : Z; r_end : Z; default_flags : Z
}.
Definition pfn_entry (table : option (gmap Z Z)) (flags addr : Z) : Z :=
  match table ≫= (fun t => t !! addr) with
  | Some pfn => Z.lor (Z.lor (u64 (Z.shiftl pfn HMM_PFN_SHIFT)) HMM_PFN_VALID) HMM_PFN_WRITE
  | None => flags
  end.
Definition range_pages (r : hmm_range) : Z :=
  let npages := u64 (r_end r - r_start r) / UVM_PAGE_SIZE in if npages =? 0 then 1 else npages.
(** The code and the entries written to [hmm_pfns]; [None] for the range pointer
    is null. *)
Definition hmm_range_fault (range : option hmm_range) (flags : Z) (s : hmm_state) : Z * list Z :=
  match range with
  | None => (- EINVAL, [])
  | Some r =>
      if r_notifier r =? 0 then (- EINVAL, [])
      else if r_end r <=? r_start r then (- EINVAL, [])
      else
        let mni := default (mk_mni 0 0 0 0 0) (intervals s !! r_notifier r) in
        if negb (notifier_seq r =? event_seq mni) then (- EBUSY, [])
        else
          let table := g_page_tables s !! mni_mm mni in
          (0, (fun i => pfn_entry table (default_flags r) (u64 (r_start r + Z.of_nat i * UVM_PAGE_SIZE)))
                <$> seq 0 (Z.to_nat (range_pages r)))
  end.

(** ** Page states *)
Definition PAGE_STATE_CPU : Z := 0.
Definition PAGE_STATE_GPU : Z := 1.
Definition PAGE_STATE_MIGRATING : Z := 2.
(** A C enum: any value can be passed. *)
Definition page_state_transition (current target : Z) : Z * Z :=
  if current =? target then (0, current)
  else if (current =? PAGE_STATE_CPU) || (current =? PAGE_STATE_GPU) then
    if target =? PAGE_STATE_MIGRATING then (0, target) else (- EINVAL, current)
  else if current =? PAGE_STATE_MIGRATING then
    if (target =? PAGE_STATE_CPU) || (target =? PAGE_STATE_GPU) then (0, target) else (- EINVAL, current)
  else (- EINVAL, current).

Record ZoneDevice := mk_zone { z_mm : Z; z_start : Z; z_end : Z; pages : gmap Z Z }.
#[export] Instance eta_zone : Eta ZoneDevice := fun z => mk_zone (z_mm z) (z_start z) (z_end z) (pages z).
Definition zone_device_create (mm start end_ : Z) : option ZoneDevice :=
  if mm =? 0 then None else if end_ <=? start then None else Some (mk_zone mm start end_ ∅).
Definition zone_device_get_page_state (addr : Z) (z : ZoneDevice) : Z * option Z :=
  if (addr <? z_start z) || (z_end z <=? addr) then (- EFAULT, None)
  else match pages z !! addr with
  | Some st => (0, Some st)
  | None => (- EFAULT, None)
  end.
Definition zone_device_set_page_state (addr target : Z) (z : ZoneDevice) : Z * ZoneDevice :=
  if (addr <? z_start z) || (z_end z <=? addr) then (- EFAULT, z)
  else match pages z !! addr with
  | None => (0, z <| pages ::= <[addr := target]> |>)
  | Some st =>
      let '(ret, st') := page_state_transition st target in (ret, z <| pages ::= <[addr := st']> |>)
  end.

(** ** Migration by copy; buffers are byte lists, [None] a null pointer. *)
Definition migrate_to_ram (dev_page sys_page : option (list Z)) (size : Z) : Z * option (list Z) :=
  match dev_page, sys_page with
  | Some src, Some dst => (0, Some (take (Z.to_nat size) src ++ drop (Z.to_nat size) dst))
  | _, _ => (- EINVAL, sys_page)
  end.
Definition migrate_to_dev (sys_page dev_page : option (list Z)) (size : Z) : Z * option (list Z) :=
  match sys_page, dev_page with
  | Some src, Some dst => (0, Some (take (Z.to_nat size) src ++ drop (Z.to_nat size) dst))
  | _, _ => (- EINVAL, dev_page)
  end.

(** ** The registry *)
Inductive notifier_op := NRegister (mn mm : Z) | NUnregister (mn : Z).
Definition notifier_do (o : notifier_op) (s : notifier_state) : notifier_state :=
  match o with
  | NRegister mn mm => (mmu_notifier_register mn mm s).2
  | NUnregister mn => mmu_notifier_unregister mn s
  end.
Definition notifier_run (os : list notifier_op) (s : notifier_state) : notifier_state :=
  fold_left (fun s o => notifier_do o s) os s.

(** A notifier is registered at most once, for the [mm] its object records. *)
Definition registry_ok (s : notifier_state) : Prop :=
  NoDup (e_mn <$> g_registry s) /\
  forall e, e ∈ g_registry s -> e_mn e <> 0 /\ e_mm e <> 0 /\
    exists n, notifiers s !! e_mn e = Some n /\ mn_mm n = e_mm e /\ mn_ops n <> None.

Lemma find_entry_spec mn s :
  match find_entry mn s with
  | Some e => e ∈ g_registry s /\ e_mn e = mn
  | None => mn ∉ (e_mn <$> g_registry s)
  end.
Proof.
  unfold find_entry. destruct (List.find _ _) as [e|] eqn:E.
  - apply List.find_some in E as [Hin Heq%Z.eqb_eq]. by apply list_elem_of_In in Hin.
  - intros (e & -> & Hin)%list_elem_of_fmap. apply list_elem_of_In in Hin.
    pose proof (List.find_none _ _ E e Hin) as Hf. simpl in Hf. lia.
Qed.
Lemma erase_entry_subset mn l e : e ∈ erase_entry mn l -> e ∈ l.
Proof. induction l as [|x l IH]; simpl; [done|]. case_match; set_solver. Qed.
Lemma erase_entry_nodup mn l : NoDup (e_mn <$> l) -> NoDup (e_mn <$> erase_entry mn l).
Proof.
  induction l as [|x l IH]; simpl; [done|]. intros [Hx Hl]%NoDup_cons. case_match; [done|]. simpl.
  constructor; [|auto]. contradict Hx. apply list_elem_of_fmap in Hx as (e & -> & He).
  apply list_elem_of_fmap. eauto using erase_entry_subset.
Qed.
Lemma erase_entry_gone mn l e : NoDup (e_mn <$> l) -> e ∈ erase_entry mn l -> e_mn e <> mn.
Proof.
  induction l as [|x l IH]; simpl; [set_solver|]. intros [Hx Hl]%NoDup_cons.
  destruct (Z.eqb_spec (e_mn x) mn) as [<-|Hne].
  - intros He Heq. apply Hx, list_elem_of_fmap. by exists e.
  - intros [->|He]%elem_of_cons; [done|auto].
Qed.

Lemma register_ok mn mm s : registry_ok s -> registry_ok (mmu_notifier_register mn mm s).2.
Proof.
  intros [Hnd Hall]. unfold mmu_notifier_register. destruct (Z.eqb_spec mn 0); [done|].
  destruct (Z.eqb_spec mm 0); [done|]. case_bool_decide as Hops; [done|]. simpl.
  pose proof (find_entry_spec mn s) as Hf. destruct (find_entry mn s); [done|]. simpl.
  unfold registry_ok. simpl. rewrite fmap_app. split.
  - apply NoDup_app. repeat split; [done| |by apply NoDup_singleton].
    intros x Hx. simpl. rewrite list_elem_of_singleton. by intros ->.
  - intros e [He|He]%elem_of_app.
    + destruct (Hall e He) as (? & ? & k & Hk & ? & ?). split; [done|]. split; [done|]. exists k.
      rewrite lookup_alter_ne; [done|]. intros Heq. apply Hf, list_elem_of_fmap. by exists e.
    + apply list_elem_of_singleton in He as ->. simpl. split; [done|]. split; [done|].
      unfold ops_of in Hops. destruct (notifiers s !! mn) as [k|] eqn:Ek; [|done].
      exists (k <| mn_mm := mm |>). by rewrite lookup_alter, decide_True, Ek.
Qed.
Lemma unregister_ok mn s : registry_ok s -> registry_ok (mmu_notifier_unregister mn s).
Proof.
  intros [Hnd Hall]. unfold mmu_notifier_unregister. destruct (Z.eqb_spec mn 0); [done|].
  destruct (find_entry mn s); [|done]. unfold registry_ok. simpl. split; [by apply erase_entry_nodup|].
  intros e He. destruct (Hall e (erase_entry_subset _ _ _ He)) as (? & ? & k & Hk & ? & ?).
  split; [done|]. split; [done|]. exists k. rewrite lookup_alter_ne; [done|].
  intros Heq. by eapply (erase_entry_gone mn).
Qed.
Lemma notifier_run_ok os s : registry_ok s -> registry_ok (notifier_run os s).
Proof.
  revert s. induction os as [|o os IH]; intros s Hs; [done|]. apply IH.
  destruct o; [by apply register_ok|by apply unregister_ok].
Qed.

Section DispatchProps.
  Context {D : Type} `{CB : Callbacks D}.
(** The start callbacks of the notifiers registered for [mm], in order. *)
Definition start_callbacks (mm : Z) (s : notifier_state) : list (Z * Z) :=
  omap (fun e => if e_mm e =? mm then (fun f => (f, e_mn e)) <$> (ops_of (e_mn e) s ≫= invalidate_range_start)
                 else None) (g_registry s).
Fixpoint call_all (mm start end_ last : Z) (cs : list (Z * Z)) (d : D) : Z * D :=
  match cs with
  | [] => (last, d)
  | (f, mn) :: cs' => let '(ret, d) := call_start f mn mm start end_ d in
                      call_all mm start end_ (if ret =? 0 then last else ret) cs' d
  end.

Lemma dispatch_loop_spec mm start end_ last l s (d : D) :
  (forall e, e ∈ l -> e ∈ g_registry s /\ e_mn e <> 0) ->
  dispatch_loop mm start end_ last l s d =
    call_all mm start end_ last
      (omap (fun e => if e_mm e =? mm then (fun f => (f, e_mn e)) <$> (ops_of (e_mn e) s ≫= invalidate_range_start)
                      else None) l) d.
Proof.
  revert last d. induction l as [|e l IH]; intros last d Hl; [done|]. simpl.
  assert (forall e', e' ∈ l -> e' ∈ g_registry s /\ e_mn e' <> 0) as Hl' by (intros; apply Hl; by right).
  destruct (Z.eqb_spec (e_mm e) mm) as [_|_]; simpl; [|by apply IH].
  destruct (Hl e ltac:(by left)) as [Hin Hne]. unfold mmu_notifier_dispatch_invalidate_start.
  replace (e_mn e =? 0) with false by lia. pose proof (find_entry_spec (e_mn e) s) as Hf.
  destruct (find_entry (e_mn e) s); [|by destruct Hf; apply list_elem_of_fmap_2].
  destruct (ops_of (e_mn e) s ≫= invalidate_range_start) as [f|]; simpl; [|by apply IH].
  destruct (call_start _ _ _ _ _ d) as [ret d']. by apply IH.
Qed.
End DispatchProps.

(** After any registrations and unregistrations each notifier is registered
    at most once, and an invalidation of an address space calls the start
    callbacks of the notifiers registered for it, each once and in order of
    registration, and returns the last non-zero result. *)
Theorem notifier_dispatch_exact {D} `{CB : Callbacks D} os ns : let s := notifier_run os (mk_notifier_state ns []) in
  NoDup (e_mn <$> g_registry s) /\
  (forall e, e ∈ g_registry s -> mn_mm <$> notifiers s !! e_mn e = Some (e_mm e)) /\
  (forall mm start end_ (d : D), mm <> 0 ->
     mmu_notifier_dispatch_all_invalidate_start mm start end_ s d =
       call_all mm start end_ 0 (start_callbacks mm s) d).
Proof.
  intros s. assert (registry_ok s) as [Hnd Hall].
  { apply notifier_run_ok. split; simpl; [constructor|set_solver]. }
  clearbody s. split; [done|]. split.
  - intros e He. destruct (Hall e He) as (_ & _ & k & -> & <- & _). done.
  - intros mm start end_ d Hmm. unfold mmu_notifier_dispatch_all_invalidate_start.
    replace (mm =? 0) with false by lia. apply dispatch_loop_spec. intros e He. by destruct (Hall e He).
Qed.

(** The comment in [mmu_notifier_internal.h] promises the first non-zero
    result. *)
#[export] Instance code_callbacks : Callbacks (list Z) := {
  call_start f mn _ _ _ d := (- f, d ++ [mn]);
  call_end _ mn _ _ _ d := d ++ [mn];
  call_release _ mn _ d := d ++ [mn]
}.
Definition two_notifiers : gmap Z mmu_notifier :=
  {[10 := mk_mn (Some (mk_mn_ops (Some 1) None None)) 0 0; 20 := mk_mn (Some (mk_mn_ops (Some 2) None None)) 0 0]}.
Lemma dispatch_last_error :
  let s := notifier_run [NRegister 10 7; NRegister 20 7; NRegister 10 7] (mk_notifier_state two_notifiers []) in
  mmu_notifier_dispatch_all_invalidate_start 7 0 4096 s [] = (-2, [10; 20]).
Proof. reflexivity. Qed.

(** ** Page states *)
Definition legal_transition (a b : Z) : Prop :=
  a = PAGE_STATE_MIGRATING /\ (b = PAGE_STATE_CPU \/ b = PAGE_STATE_GPU) \/
  (a = PAGE_STATE_CPU \/ a = PAGE_STATE_GPU) /\ b = PAGE_STATE_MIGRATING.
Lemma transition_spec a b :
  page_state_transition a b =
    if bool_decide (a = b) then (0, a)
    else if (a =? PAGE_STATE_MIGRATING) && ((b =? PAGE_STATE_CPU) || (b =? PAGE_STATE_GPU)) ||
            ((a =? PAGE_STATE_CPU) || (a =? PAGE_STATE_GPU)) && (b =? PAGE_STATE_MIGRATING)
    then (0, b) else (- EINVAL, a).
Proof.
  unfold page_state_transition, PAGE_STATE_CPU, PAGE_STATE_GPU, PAGE_STATE_MIGRATING.
  case_bool_decide as Hab; [by rewrite (proj2 (Z.eqb_eq a b))|]. replace (a =? b) with false by lia.
  destruct (Z.eqb_spec a 0) as [->|]; [by destruct (b =? 2)|].
  destruct (Z.eqb_spec a 1) as [->|]; [by destruct (b =? 2)|].
  destruct (Z.eqb_spec a 2) as [->|]; simpl; [|done]. by destruct (b =? 0), (b =? 1).
Qed.

(** The state of a page after each of a sequence of calls. *)
Fixpoint history (addr : Z) (calls : list (Z * Z)) (z : ZoneDevice) : list (option Z) :=
  match calls with
  | [] => []
  | (a, t) :: calls' => let z' := (zone_device_set_page_state a t z).2 in pages z' !! addr :: history addr calls' z'
  end.
Definition step_ok (x y : option Z) : Prop :=
  x = y \/ x = None \/ exists a b, x = Some a /\ y = Some b /\ legal_transition a b.
Fixpoint chain_ok (x : option Z) (l : list (option Z)) : Prop :=
  match l with [] => True | y :: l' => step_ok x y /\ chain_ok y l' end.

Lemma set_page_state_step addr a t z :
  step_ok (pages z !! addr) (pages (zone_device_set_page_state a t z).2 !! addr).
Proof.
  unfold zone_device_set_page_state, step_ok.
  destruct ((a <? z_start z) || (z_end z <=? a)); [by left|].
  destruct (pages z !! a) as [st|] eqn:E; simpl.
  - rewrite transition_spec. destruct (Z.eqb_spec a addr) as [->|Hne].
    + case_bool_decide as Hst; simpl; rewrite E.
      * rewrite lookup_insert_eq. by left.
      * destruct (_ || _) eqn:El; simpl; rewrite lookup_insert_eq; [right; right|by left].
        exists st, t. split; [done|]. split; [done|]. unfold legal_transition. lia.
    + destruct (if bool_decide _ then _ else _) as [ret st']. simpl. rewrite lookup_insert_ne by done. by left.
  - destruct (Z.eqb_spec a addr) as [->|Hne]; [right; left; done|].
    rewrite lookup_insert_ne by done. by left.
Qed.

(** However [zone_device_set_page_state] is called, the state of each page
    only ever changes between CPU or GPU and MIGRATING once it is tracked: a
    page reaches the other side through a migration.  A call is refused exactly
    outside the zone and for an illegal transition, and then changes nothing. *)
Theorem page_moves_through_migration z calls addr :
  chain_ok (pages z !! addr) (history addr calls z) /\
  (forall t, let '(ret, z') := zone_device_set_page_state addr t z in
     if (addr <? z_start z) || (z_end z <=? addr) then ret = - EFAULT /\ z' = z
     else match pages z !! addr with
     | None => ret = 0 /\ pages z' = <[addr := t]> (pages z)
     | Some st => (ret = 0 /\ (st = t \/ legal_transition st t) /\ pages z' = <[addr := t]> (pages z)) \/
                  (ret = - EINVAL /\ st <> t /\ ~ legal_transition st t /\ pages z' = pages z)
     end).
Proof.
  split.
  - revert z. induction calls as [|[a t] calls IH]; intros z; simpl; [done|].
    split; [apply set_page_state_step|apply IH].
  - intros t. destruct (zone_device_set_page_state addr t z) as [ret z'] eqn:E. unfold zone_device_set_page_state in E.
    assert (forall st, pages z !! addr = Some st -> <[addr := st]> (pages z) = pages z) as Hid by apply insert_id.
    destruct (pages z !! addr) as [st|] eqn:El; destruct ((addr <? z_start z) || (z_end z <=? addr));
      try (by injection E as <- <-).
    rewrite transition_spec in E. case_bool_decide as Hst.
    + injection E as <- <-. subst t. left. auto.
    + destruct (_ || _) eqn:Eb; injection E as <- <-; [left|right].
      * split; [done|]. split; [right; unfold legal_transition; lia|done].
      * split; [done|]. split; [done|]. split; [unfold legal_transition; lia|by apply Hid].
Qed.

(** ** HMM ranges *)
Definition HMM_PFN_MASK : Z := 0xFFFFFFFFFF.
Lemma pfn_decode pfn flags t addr : t !! addr = Some pfn -> 0 <= pfn < 2 ^ 40 ->
  let e := pfn_entry (Some t) flags addr in
  Z.testbit e 63 = true /\ Z.testbit e 62 = true /\ Z.land (Z.shiftr e HMM_PFN_SHIFT) HMM_PFN_MASK = pfn.
Proof.
  intros Ht Hp. cbv zeta. assert (Some t ≫= (fun t => t !! addr) = Some pfn) as Hb by done.
  unfold pfn_entry. rewrite Hb. unfold HMM_PFN_SHIFT, HMM_PFN_VALID, HMM_PFN_WRITE, HMM_PFN_MASK.
  rewrite u64_id by (rewrite Z.shiftl_mul_pow2; lia). rewrite !Z.shiftl_1_l, !Z.lor_spec.
  rewrite !Z.pow2_bits_eqb by lia. split; [by rewrite orb_true_r|]. split; [by rewrite !orb_true_r|].
  apply Z.bits_inj'. intros i Hi. rewrite Z.land_spec, Z.shiftr_spec, !Z.lor_spec, !Z.pow2_bits_eqb, Z.shiftl_spec by lia.
  replace (i + 12 - 12) with i by lia. change 0xFFFFFFFFFF with (Z.ones 40).
  destruct (Z.ltb_spec i 40) as [Hlt|Hge].
  - rewrite Z.ones_spec_low by lia. replace (63 =? i + 12) with false by lia. replace (62 =? i + 12) with false by lia.
    by rewrite !orb_false_r, andb_true_r.
  - rewrite Z.ones_spec_high, andb_false_r by lia. symmetry.
    apply (proj1 (Z.bounded_iff_bits_nonneg 40 pfn ltac:(lia) ltac:(lia)) ltac:(lia)). lia.
Qed.

Lemma range_pages_bound r : 0 <= r_start r < r_end r -> r_end r < 2 ^ 64 ->
  range_pages r = Z.max 1 ((r_end r - r_start r) / 4096) /\
  forall i, 0 <= i < range_pages r -> u64 (r_start r + i * UVM_PAGE_SIZE) = r_start r + i * 4096.
Proof.
  intros Hr He. unfold range_pages, UVM_PAGE_SIZE. rewrite u64_id by lia.
  assert (0 <= (r_end r - r_start r) / 4096) by (apply Z.div_pos; lia).
  destruct (Z.eqb_spec ((r_end r - r_start r) / 4096) 0); (split; [lia|]); intros i Hi; apply u64_id.
  - lia.
  - pose proof (Z.mul_div_le (r_end r - r_start r) 4096 ltac:(lia)). lia.
Qed.

(** A fault on a range whose sequence number is stale answers -EBUSY and
    writes nothing; otherwise it writes one entry per whole page (one for a
    shorter range): the default flags for an unmapped page, and for a mapped
    page its frame with the VALID and WRITE bits, from which the frame is read
    back with [HMM_PFN_SHIFT] and [HMM_PFN_MASK]. *)
Theorem hmm_range_fault_exact r flags s :
  r_notifier r <> 0 -> 0 <= r_start r < r_end r -> r_end r < 2 ^ 64 ->
  let '(ret, l) := hmm_range_fault (Some r) flags s in
  let table := g_page_tables s !! default 0 (mni_mm <$> intervals s !! r_notifier r) in
  if mmu_interval_read_retry (r_notifier r) (notifier_seq r) s then ret = - EBUSY /\ l = []
  else ret = 0 /\ Z.of_nat (length l) = Z.max 1 ((r_end r - r_start r) / 4096) /\
    forall i e, l !! i = Some e ->
      match table ≫= (fun t => t !! (r_start r + Z.of_nat i * 4096)) with
      | Some pfn => 0 <= pfn < 2 ^ 40 ->
          Z.testbit e 63 = true /\ Z.testbit e 62 = true /\ Z.land (Z.shiftr e HMM_PFN_SHIFT) HMM_PFN_MASK = pfn
      | None => e = default_flags r
      end.
Proof.
  intros Hn Hr He. destruct (range_pages_bound r Hr He) as [Hp Hu]. unfold hmm_range_fault, mmu_interval_read_retry.
  replace (r_notifier r =? 0) with false by lia. replace (r_end r <=? r_start r) with false by lia.
  assert (event_seq (default (mk_mni 0 0 0 0 0) (intervals s !! r_notifier r)) =
    default 0 (event_seq <$> intervals s !! r_notifier r)) as -> by by destruct (intervals s !! _).
  assert (mni_mm (default (mk_mni 0 0 0 0 0) (intervals s !! r_notifier r)) =
    default 0 (mni_mm <$> intervals s !! r_notifier r)) as -> by by destruct (intervals s !! _).
  rewrite (Z.eqb_sym (notifier_seq r)). destruct (_ =? notifier_seq r); simpl; [|done].
  split; [done|]. split; [rewrite length_fmap, length_seq, Hp; lia|].
  intros i e Hi. rewrite list_lookup_fmap in Hi. apply fmap_Some in Hi as (j & Hj & ->).
  apply lookup_seq in Hj as [-> Hj]. simpl. rewrite Hu by lia.
  destruct (g_page_tables s !! _) as [t|] eqn:Et; simpl; [|done].
  destruct (t !! _) as [pfn|] eqn:Ep.
  - intros Hpfn. by apply pfn_decode.
  - unfold pfn_entry. simpl. by rewrite Ep.
Qed.

Definition demo_hmm : hmm_state :=
  (mmu_interval_notifier_insert 9 7 0 8192 0 (sim_page_table_add 7 4096 5 (mk_hmm ∅ ∅ []))).2.
Definition demo_range (seq : Z) : hmm_range := mk_range 9 seq 0 12287 3.
Lemma hmm_range_fault_exact_witness :
  (hmm_range_fault (Some (demo_range 1)) 0 demo_hmm).1 = 0 /\
  (hmm_range_fault (Some (demo_range 2)) 0 demo_hmm).1 = - EBUSY.
Proof.
  split.
  - pose proof (hmm_range_fault_exact (demo_range 1) 0 demo_hmm ltac:(done) ltac:(done) ltac:(done)) as H.
    destruct (hmm_range_fault _ _ _) as [ret l]. exact (proj1 H).
  - pose proof (hmm_range_fault_exact (demo_range 2) 0 demo_hmm ltac:(done) ltac:(done) ltac:(done)) as H.
    destruct (hmm_range_fault _ _ _) as [ret l]. exact (proj1 H).
Defined.
(** The part of a range behind its last whole page is not looked at. *)
Lemma hmm_partial_page : length (hmm_range_fault (Some (demo_range 1)) 0 demo_hmm).2 = 2%nat.
Proof. reflexivity. Qed.
