(* ===== verification/Pci.v ===== *)
(** * The PCI Express endpoint emulation

    [plugins/pci_driver]: configuration space ([pci_access.cpp]), the capability
    chain ([pci_cap.cpp]), MSI-X ([pci_msi.cpp]), the object itself
    ([probe.cpp]), enabling a device ([pcie_enable_device.cpp]).  Offsets of
    configuration accesses are 16-bit, values have the width of the access. *)
From S2P Require Import Prelude Bytes.

(** ** Constants *)
Definition PCI_CAP_ID_PM : Z := 0x01.
Definition PCI_CAP_ID_VENDOR : Z := 0x09.
Definition PCI_CAP_ID_MSI : Z := 0x05.
Definition PCI_CAP_ID_PCIE : Z := 0x10.
Definition PCI_CAP_ID_MSIX : Z := 0x11.
Definition PCI_CAP_ID_ANY : Z := 0xFF.
Definition kCapOffsetPM : Z := 0x40.
Definition kCapOffsetMSI : Z := 0x50.
Definition kCapOffsetPCIe : Z := 0x68.
Definition kCapOffsetMSIX : Z := 0x80.
Definition kCapOffsetVendor : Z := 0xA0.
Definition PCI_CONFIG_SPACE_SIZE : Z := 4096.
Definition PCI_CFG_STATUS : Z := 0x06.
Definition PCI_CFG_CAP_PTR : Z := 0x34.
Definition PCI_CFG_COMMAND : Z := 0x04.
Definition PCI_CFG_HEADER_TYPE : Z := 0x0E.
Definition PCI_CFG_BAR0 : Z := 0x10.
Definition PCI_STATUS_CAP_LIST : Z := Z.shiftl 1 4.
Definition PCI_COMMAND_BME : Z := Z.shiftl 1 2.
Definition PCI_COMMAND_MSE : Z := Z.shiftl 1 1.
Definition PCI_COMMAND_IO : Z := Z.shiftl 1 0.
Definition MSIX_MAX_VECTORS : Z := 2048.
Definition MSIX_DEFAULT_VECTORS : Z := 16.
Definition PBA_SIZE_BYTES : Z := 256.
Definition kDefaultVendorId : Z := 0x1234.
Definition kDefaultDeviceId : Z := 0x5678.
Definition ENXIO : Z := 6.

(** ** State *)
Record MsixEntry := mk_msix { me_addr_lo : Z; me_addr_hi : Z; me_data : Z; me_control : Z }.
Definition msix_zero : MsixEntry := mk_msix 0 0 0 0.
Record PciCapability := mk_cap { cap_id : Z; config_offset : Z; next_offset : Z; cap_data : list Z }.
#[export] Instance eta_cap : Eta PciCapability := fun c => mk_cap (cap_id c) (config_offset c) (next_offset c) (cap_data c).
Record Bar := mk_pci_bar { bar_base : Z; bar_bytes : Z; bar_is_mmio : bool; bar_enabled : bool }.
Definition new_bar : Bar := mk_pci_bar 0 0 true false.
(** A vector of bytes: its length and its contents. *)
Record byte_vec := mk_vec { v_size : Z; v_mem : Z -> Z }.
#[export] Instance eta_vec : Eta byte_vec := fun v => mk_vec (v_size v) (v_mem v).
Definition zero_vec (n : Z) : byte_vec := mk_vec n (fun _ => 0).

(** [config_space_] has 4096 bytes; the handler is named by its address. *)
Record PcieEmuImpl := mk_pcie {
  config_space_ : Z -> Z; capabilities_ : list PciCapability; msix_table_ : list MsixEntry; pba_ : list Z;
  bars_ : list Bar; bar0_mmio_ : byte_vec; bar1_ram_ : byte_vec;
  msix_enabled_ : bool; msix_nr_vectors_ : Z; msix_table_offset_ : Z; msix_handler_ : option Z;
  device_enabled_ : bool; current_power_state_ : Z; vendor_id_ : Z; device_id_ : Z
}.
#[export] Instance eta_pcie : Eta PcieEmuImpl := fun p =>
  mk_pcie (config_space_ p) (capabilities_ p) (msix_table_ p) (pba_ p) (bars_ p) (bar0_mmio_ p) (bar1_ram_ p)
    (msix_enabled_ p) (msix_nr_vectors_ p) (msix_table_offset_ p) (msix_handler_ p)
    (device_enabled_ p) (current_power_state_ p) (vendor_id_ p) (device_id_ p).
Implicit Types p : PcieEmuImpl.

Definition empty_table : list MsixEntry := replicate (Z.to_nat MSIX_MAX_VECTORS) msix_zero.
Definition empty_pba : list Z := replicate (Z.to_nat PBA_SIZE_BYTES) 0.
Definition zero_pcie : PcieEmuImpl :=
  mk_pcie (fun _ => 0) [] empty_table empty_pba (replicate 6 new_bar) (zero_vec 0) (zero_vec 0)
    false 0 0 None false 0 0 0.

(** ** Configuration space *)
Definition cfg_get (o : Z) (n : nat) p : Z := le_val (peek o (Z.of_nat n) (config_space_ p)).
Definition cfg_put (o : Z) (n : nat) (v : Z) p : PcieEmuImpl := p <| config_space_ ::= poke o (le_bytes n v) |>.

Definition read_config_byte (o : Z) p : Z := if PCI_CONFIG_SPACE_SIZE <=? o then 0xFF else cfg_get o 1 p.
Definition read_config_word (o : Z) p : Z := if PCI_CONFIG_SPACE_SIZE - 2 <? o then 0xFFFF else cfg_get o 2 p.
Definition read_config_dword (o : Z) p : Z := if PCI_CONFIG_SPACE_SIZE - 4 <? o then 0xFFFFFFFF else cfg_get o 4 p.
Definition write_config_byte (o v : Z) p : PcieEmuImpl := if PCI_CONFIG_SPACE_SIZE <=? o then p else cfg_put o 1 v p.
Definition write_config_word (o v : Z) p : PcieEmuImpl := if PCI_CONFIG_SPACE_SIZE - 2 <? o then p else cfg_put o 2 v p.
Definition write_config_dword (o v : Z) p : PcieEmuImpl := if PCI_CONFIG_SPACE_SIZE - 4 <? o then p else cfg_put o 4 v p.

(** ** Capabilities *)
Definition find_capability (id : Z) p : Z :=
  match List.find (fun c => (id =? PCI_CAP_ID_ANY) || (cap_id c =? id)) (capabilities_ p) with
  | Some c => config_offset c
  | None => 0
  end.

(** Where a capability goes and its registers behind the two header bytes. *)
Definition cap_block (id : Z) : option (Z * list Z) :=
  if id =? PCI_CAP_ID_PM then Some (kCapOffsetPM, replicate 6 0)
  else if id =? PCI_CAP_ID_MSI then Some (kCapOffsetMSI, replicate 12 0)
  else if id =? PCI_CAP_ID_PCIE then
    Some (kCapOffsetPCIe, <[11%nat := 0]> (<[10%nat := 2]> (<[0%nat := 2]> (replicate 60 0))))
  else if id =? PCI_CAP_ID_MSIX then
    let field := MSIX_DEFAULT_VECTORS - 1 in
    Some (kCapOffsetMSIX,
      <[1%nat := Z.land (Z.shiftr field 8) 7]> (<[0%nat := Z.land field 0xFF]> (replicate 8 0)))
  else if id =? PCI_CAP_ID_VENDOR then Some (kCapOffsetVendor, <[0%nat := 4]> (replicate 4 0))
  else None.

(** Patch the next pointer of the last capability, or the pointer at 0x34. *)
Definition link_capability (off : Z) p : PcieEmuImpl :=
  match last (capabilities_ p) with
  | Some prev =>
      p <| capabilities_ ::= fun l => take (length l - 1) l ++ [prev <| next_offset := off |>] |>
        <| config_space_ ::= poke (config_offset prev + 1) [Z.land off 0xFF] |>
  | None => p <| config_space_ ::= poke PCI_CFG_CAP_PTR [Z.land off 0xFF] |>
  end.
Definition add_capability (id : Z) p : PcieEmuImpl :=
  match cap_block id with
  | None => p
  | Some (off, data) =>
      link_capability off p
        <| config_space_ ::= fun m => poke (off + 2) data (poke (off + 1) [0] (poke off [id] m)) |>
        <| capabilities_ ::= fun l => l ++ [mk_cap id off 0 data] |>
  end.

Definition new_pcie : PcieEmuImpl :=
  let p := zero_pcie <| vendor_id_ := kDefaultVendorId |> <| device_id_ := kDefaultDeviceId |> in
  let p := write_config_word 0x00 (Z.land (vendor_id_ p) 0xFFFF) p in
  let p := write_config_word 0x02 (Z.land (device_id_ p) 0xFFFF) p in
  let p := write_config_byte PCI_CFG_HEADER_TYPE 0 p in
  let p := write_config_word PCI_CFG_STATUS (u16 (Z.lor (read_config_word PCI_CFG_STATUS p) PCI_STATUS_CAP_LIST)) p in
  let p := add_capability PCI_CAP_ID_PM p in
  let p := add_capability PCI_CAP_ID_MSI p in
  let p := add_capability PCI_CAP_ID_PCIE p in
  let p := add_capability PCI_CAP_ID_MSIX p in
  add_capability PCI_CAP_ID_VENDOR p.

(** ** Base address registers *)
Definition get_bar_address (i : Z) p : Z :=
  if (i <? 0) || (6 <=? i) then 0 else default 0 (bar_base <$> bars_ p !! Z.to_nat i).
Definition get_bar_size (i : Z) p : Z :=
  if (i <? 0) || (6 <=? i) then 0 else default 0 (bar_bytes <$> bars_ p !! Z.to_nat i).
Definition assign_bar (i base size : Z) (is_mmio : bool) p : PcieEmuImpl :=
  if (i <? 0) || (6 <=? i) then p
  else
    let p := p <| bars_ ::= <[Z.to_nat i := mk_pci_bar base size is_mmio (0 <? size)]> |> in
    let p :=
      if is_mmio then write_config_dword (u16 (PCI_CFG_BAR0 + i * 4)) (u32 (Z.land base 0xFFFFFFF0)) p
      else write_config_dword (u16 (PCI_CFG_BAR0 + i * 4)) (Z.lor (u32 (Z.land base 0xFFFFFFFC)) 1) p in
    if (i =? 0) && (0 <? size) then p <| bar0_mmio_ := zero_vec size |>
    else if (i =? 1) && (0 <? size) then p <| bar1_ram_ := zero_vec size |>
    else p.

(** The bound is computed in 64 bits; [None]: the copy leaves the vector. *)
Definition vec_read (o n : Z) (v : byte_vec) : option (Z * list Z) :=
  if v_size v <? u64 (o + n) then Some (- EINVAL, [])
  else if o + n <=? v_size v then Some (0, peek o n (v_mem v)) else None.
Definition vec_write (o : Z) (bs : list Z) (v : byte_vec) : option (Z * byte_vec) :=
  if v_size v <? u64 (o + Z.of_nat (length bs)) then Some (- EINVAL, v)
  else if o + Z.of_nat (length bs) <=? v_size v then Some (0, v <| v_mem ::= poke o bs |>) else None.
Definition read_mmio (o n : Z) p : option (Z * list Z) := vec_read o n (bar0_mmio_ p).
Definition write_mmio (o : Z) (bs : list Z) p : option (Z * PcieEmuImpl) :=
  '(r, v) ← vec_write o bs (bar0_mmio_ p); Some (r, p <| bar0_mmio_ := v |>).
Definition read_ram (o n : Z) p : option (Z * list Z) := vec_read o n (bar1_ram_ p).
Definition write_ram (o : Z) (bs : list Z) p : option (Z * PcieEmuImpl) :=
  '(r, v) ← vec_write o bs (bar1_ram_ p); Some (r, p <| bar1_ram_ := v |>).

(** ** Bus mastering and enabling *)
Definition enable_bus_master p : PcieEmuImpl :=
  write_config_word PCI_CFG_COMMAND (u16 (Z.lor (read_config_word PCI_CFG_COMMAND p) PCI_COMMAND_BME)) p
    <| device_enabled_ := true |> <| current_power_state_ := 0 |>.
Definition disable_bus_master p : PcieEmuImpl :=
  write_config_word PCI_CFG_COMMAND (u16 (Z.land (read_config_word PCI_CFG_COMMAND p) (Z.lnot PCI_COMMAND_BME))) p
    <| device_enabled_ := false |>.
(** [is_impl]: the object is a [PcieEmuImpl]. *)
Definition pci_enable_device (emu : option PcieEmuImpl) (is_impl : bool) : Z * option PcieEmuImpl :=
  match emu with
  | None => (- EINVAL, None)
  | Some p =>
      if negb is_impl then (- ENOSYS, emu)
      else
        let cmd := read_config_word PCI_CFG_COMMAND p in
        (0, Some (enable_bus_master
          (write_config_word PCI_CFG_COMMAND (u16 (Z.lor (Z.lor cmd PCI_COMMAND_MSE) PCI_COMMAND_IO)) p)))
  end.

(** ** MSI-X *)
Definition setup_msix (nr_vectors table_offset : Z) p : Z * PcieEmuImpl :=
  if (nr_vectors =? 0) || (MSIX_MAX_VECTORS <? nr_vectors) then (- EINVAL, p)
  else
    let p := p <| msix_table_ := empty_table |> <| pba_ := empty_pba |>
               <| msix_nr_vectors_ := nr_vectors |> <| msix_table_offset_ := table_offset |>
               <| msix_enabled_ := true |> in
    let field := u16 (nr_vectors - 1) in
    let p := p <| config_space_ ::= poke (kCapOffsetMSIX + 2) [Z.land field 0xFF] |> in
    let old := config_space_ p (kCapOffsetMSIX + 3) in
    (0, p <| config_space_ ::= poke (kCapOffsetMSIX + 3)
               [Z.lor (Z.land old 0xF8) (Z.land (Z.shiftr field 8) 7)] |>).
Definition disable_msix p : Z * PcieEmuImpl :=
  if negb (msix_enabled_ p) then (0, p)
  else (0, p <| msix_table_ := empty_table |> <| pba_ := empty_pba |> <| msix_enabled_ := false |>
             <| msix_nr_vectors_ := 0 |> <| msix_table_offset_ := 0 |>).
(** The code, and the handler called with its vector. *)
Definition inject_msix_interrupt (vector_id : Z) p : Z * option (Z * Z) * PcieEmuImpl :=
  if negb (msix_enabled_ p) then (- ENXIO, None, p)
  else if (vector_id <? 0) || (msix_nr_vectors_ p <=? vector_id) then (- EINVAL, None, p)
  else
    (0, (fun h => (h, vector_id)) <$> msix_handler_ p,
     p <| pba_ ::= alter (fun b => Z.lor b (u8 (Z.shiftl 1 (vector_id mod 8)))) (Z.to_nat (vector_id / 8)) |>).
Definition register_msix_handler (h : option Z) p : PcieEmuImpl := p <| msix_handler_ := h |>.

(** ** Configuration accesses *)
Inductive width := BYTE | WORD | DWORD.
Definition bytes_of (w : width) : nat := match w with BYTE => 1 | WORD => 2 | DWORD => 4 end.
Definition config_read (w : width) (o : Z) p : Z :=
  match w with BYTE => read_config_byte o p | WORD => read_config_word o p | DWORD => read_config_dword o p end.
Definition config_write (w : width) (o v : Z) p : PcieEmuImpl :=
  match w with
  | BYTE => write_config_byte o v p | WORD => write_config_word o v p | DWORD => write_config_dword o v p
  end.
Definition in_config (w : width) (o : Z) : Prop := o + Z.of_nat (bytes_of w) <= PCI_CONFIG_SPACE_SIZE.
#[export] Instance in_config_dec w o : Decision (in_config w o).
Proof. unfold in_config. apply _. Defined.

Lemma config_read_in w o p : in_config w o -> config_read w o p = cfg_get o (bytes_of w) p.
Proof.
  unfold in_config, PCI_CONFIG_SPACE_SIZE. intros H.
  destruct w; simpl in *; unfold read_config_byte, read_config_word, read_config_dword, PCI_CONFIG_SPACE_SIZE;
    case_match; [lia|done|lia|done|lia|done].
Qed.
Lemma config_write_in w o v p : in_config w o -> config_write w o v p = cfg_put o (bytes_of w) v p.
Proof.
  unfold in_config, PCI_CONFIG_SPACE_SIZE. intros H.
  destruct w; simpl in *; unfold write_config_byte, write_config_word, write_config_dword, PCI_CONFIG_SPACE_SIZE;
    case_match; [lia|done|lia|done|lia|done].
Qed.
Lemma config_out w o v p : ~ in_config w o ->
  config_write w o v p = p /\ config_read w o p = 2 ^ (8 * Z.of_nat (bytes_of w)) - 1.
Proof.
  unfold in_config, PCI_CONFIG_SPACE_SIZE. intros H.
  destruct w; simpl in *; unfold write_config_byte, write_config_word, write_config_dword,
    read_config_byte, read_config_word, read_config_dword, PCI_CONFIG_SPACE_SIZE; case_match; done || lia.
Qed.
(** A write in or out of range changes at most the bytes it names. *)
Lemma config_write_frame w o v p a : 0 <= o -> ~ (o <= a < o + Z.of_nat (bytes_of w)) ->
  config_space_ (config_write w o v p) a = config_space_ p a.
Proof.
  intros Ho Ha. destruct (decide (in_config w o)) as [Hi|Hi].
  - rewrite config_write_in by done. unfold cfg_put. simpl. unfold poke. rewrite length_le_bytes.
    destruct (Z.leb_spec o a); [|done]. by destruct (Z.ltb_spec a (o + Z.of_nat (bytes_of w))); [lia|].
  - by rewrite (proj1 (config_out w o v p Hi)).
Qed.
Lemma cfg_get_put o n v p : cfg_get o n (cfg_put o n v p) = v mod 2 ^ (8 * Z.of_nat n).
Proof.
  unfold cfg_get, cfg_put. simpl. rewrite <- le_val_bytes. f_equal.
  rewrite <- (length_le_bytes n v) at 1. apply peek_poke.
Qed.
Lemma cfg_get_frame o n m m' p p' : config_space_ p = m -> config_space_ p' = m' ->
  (forall a, o <= a < o + Z.of_nat n -> m' a = m a) -> cfg_get o n p' = cfg_get o n p.
Proof. intros <- <- H. unfold cfg_get. f_equal. by apply peek_ext. Qed.
Lemma le_bytes_lookup n x i : (i < n)%nat -> le_bytes n x !! i = Some (x / 2 ^ (8 * Z.of_nat i) mod 256).
Proof.
  revert x i. induction n as [|n IH]; intros x i Hi; [lia|]. destruct i as [|i]; simpl.
  - by rewrite Z.div_1_r.
  - rewrite IH by lia. do 2 f_equal. rewrite Z.div_div by (apply Z.pow_pos_nonneg || idtac; lia).
    f_equal. replace (8 * Z.of_nat (S i)) with (8 + 8 * Z.of_nat i) by lia. rewrite Z.pow_add_r by lia. done.
Qed.

(** An access that lies inside the 4 KiB of configuration space reads back
    what was written, as little-endian bytes, and leaves every access that does
    not overlap it alone; one that does not fit writes nothing and reads all
    ones. *)
Theorem config_space_exact w o v p : 0 <= o < 2 ^ 16 -> 0 <= v < 2 ^ (8 * Z.of_nat (bytes_of w)) ->
  let p' := config_write w o v p in
  if decide (in_config w o) then
    config_read w o p' = v /\
    (forall i, (i < bytes_of w)%nat -> config_read BYTE (o + Z.of_nat i) p' = v / 2 ^ (8 * Z.of_nat i) mod 256) /\
    (forall w' o', 0 <= o' -> o' + Z.of_nat (bytes_of w') <= o \/ o + Z.of_nat (bytes_of w) <= o' ->
       config_read w' o' p' = config_read w' o' p)
  else p' = p /\ config_read w o p = 2 ^ (8 * Z.of_nat (bytes_of w)) - 1.
Proof.
  intros Ho Hv. cbv zeta. destruct (decide (in_config w o)) as [Hi|Hi]; [|by apply config_out].
  rewrite config_write_in, config_read_in by done. rewrite cfg_get_put, Z.mod_small by done.
  split; [done|]. split.
  - intros i Hlt. rewrite config_read_in by (unfold in_config in *; simpl; lia).
    unfold cfg_get, cfg_put. cbn [bytes_of]. change (Z.of_nat 1) with 1. rewrite peek_1. cbn [config_space_ field_upd le_val].
    erewrite poke_at by (by apply le_bytes_lookup). lia.
  - intros w' o' Ho' Hd. destruct (decide (in_config w' o')) as [Hi'|Hi'].
    + rewrite !config_read_in by done. eapply cfg_get_frame; [done|done|]. intros a Ha.
      rewrite <- config_write_in by done. apply config_write_frame; lia.
    + by rewrite !(proj2 (config_out w' o' 0 _ Hi')).
Qed.
Lemma config_space_exact_witness :
  config_read DWORD 0x3C (config_write DWORD 0x3C 0x12345678 new_pcie) = 0x12345678.
Proof.
  pose proof (config_space_exact DWORD 0x3C 0x12345678 new_pcie ltac:(done) ltac:(done)) as H.
  cbv zeta in H. destruct (decide (in_config DWORD 60)) as [Hi|Hi]; [exact (proj1 H)|].
  exfalso. apply Hi. unfold in_config, PCI_CONFIG_SPACE_SIZE. simpl. lia.
Defined.

(** ** Operations on the device *)
Inductive pci_op :=
| PConfig (w : width) (o v : Z) | PAssign (i base size : Z) (is_mmio : bool)
| PMmio (o : Z) (bs : list Z) | PRam (o : Z) (bs : list Z)
| PBusMaster (on : bool) | PEnable | PSetup (n off : Z) | PDisable | PInject (v : Z) | PHandler (h : option Z).
Definition pci_do (op : pci_op) p : PcieEmuImpl :=
  match op with
  | PConfig w o v => config_write w o v p
  | PAssign i b n m => assign_bar i b n m p
  | PMmio o bs => default p (snd <$> write_mmio o bs p)
  | PRam o bs => default p (snd <$> write_ram o bs p)
  | PBusMaster on => if on then enable_bus_master p else disable_bus_master p
  | PEnable => default p (pci_enable_device (Some p) true).2
  | PSetup n off => (setup_msix n off p).2
  | PDisable => (disable_msix p).2
  | PInject v => (inject_msix_interrupt v p).2
  | PHandler h => register_msix_handler h p
  end.
Definition pci_run (ops : list pci_op) p : PcieEmuImpl := fold_left (fun p op => pci_do op p) ops p.

(** A raw configuration write may not touch the bytes at [as]. *)
Definition spares (as_ : list Z) (op : pci_op) : Prop :=
  match op with
  | PConfig w o _ => 0 <= o /\ forall a, a ∈ as_ -> ~ (o <= a < o + Z.of_nat (bytes_of w))
  | _ => True
  end.
Lemma write_word_frame o v p a : 0 <= o -> ~ (o <= a < o + 2) ->
  config_space_ (write_config_word o v p) a = config_space_ p a.
Proof. intros. by apply (config_write_frame WORD). Qed.
Lemma write_dword_frame o v p a : 0 <= o -> ~ (o <= a < o + 4) ->
  config_space_ (write_config_dword o v p) a = config_space_ p a.
Proof. intros. by apply (config_write_frame DWORD). Qed.

(** What the driver's own operations never write: everything but the command
    register, the BARs and the MSI-X control word. *)
Definition fixed_byte (a : Z) : Prop :=
  ~ (4 <= a < 6) /\ ~ (0x10 <= a < 0x28) /\ ~ (0x82 <= a < 0x84).
Lemma assign_frame i b n m p a : ~ (0x10 <= a < 0x28) ->
  config_space_ (assign_bar i b n m p) a = config_space_ p a.
Proof.
  intros Ha. unfold assign_bar. destruct ((i <? 0) || (6 <=? i)) eqn:E; [done|].
  assert (u16 (PCI_CFG_BAR0 + i * 4) = 16 + i * 4) as Hu by (unfold PCI_CFG_BAR0; word). rewrite Hu.
  assert (forall v q, config_space_ (write_config_dword (16 + i * 4) v q) a = config_space_ q a) as Hw
    by (intros; apply write_dword_frame; lia).
  destruct ((i =? 0) && (0 <? n)); [|destruct ((i =? 1) && (0 <? n))]; destruct m; simpl; by rewrite Hw.
Qed.
Lemma setup_frame n off p a : a <> kCapOffsetMSIX + 2 -> a <> kCapOffsetMSIX + 3 ->
  config_space_ (setup_msix n off p).2 a = config_space_ p a.
Proof.
  intros H1 H2. unfold setup_msix. case_match; [done|]. simpl. rewrite !poke_frame; simpl; lia || done.
Qed.
Lemma command_frame v p a : ~ (4 <= a < 6) ->
  config_space_ (write_config_word PCI_CFG_COMMAND v p) a = config_space_ p a.
Proof. intros Ha. apply write_word_frame; unfold PCI_CFG_COMMAND; lia. Qed.
Lemma enable_frame on p a : ~ (4 <= a < 6) ->
  config_space_ (pci_do (PBusMaster on) p) a = config_space_ p a /\ config_space_ (pci_do PEnable p) a = config_space_ p a.
Proof.
  intros Ha. split; [destruct on; exact (command_frame _ p a Ha)|].
  exact (eq_trans (command_frame _ _ a Ha) (command_frame _ p a Ha)).
Qed.
Lemma pci_do_frame op p a : fixed_byte a -> spares [a] op -> config_space_ (pci_do op p) a = config_space_ p a.
Proof.
  intros (H1 & H2 & H3) Hop. destruct op as [w o v|i b n m|o bs|o bs|on| |n off| |v|h]; cbn [pci_do].
  - apply config_write_frame; [apply Hop|apply Hop; set_solver].
  - by apply assign_frame.
  - unfold write_mmio. by destruct (vec_write _ _ _) as [[? ?]|].
  - unfold write_ram. by destruct (vec_write _ _ _) as [[? ?]|].
  - by apply (enable_frame on).
  - by apply (enable_frame true).
  - apply setup_frame; unfold kCapOffsetMSIX; lia.
  - unfold disable_msix. by destruct (msix_enabled_ p).
  - unfold inject_msix_interrupt. by repeat case_match.
  - done.
Qed.
Lemma write_config_keeps {A} (f : PcieEmuImpl -> A) w o v p :
  (forall m, f (p <| config_space_ := m |>) = f p) -> f (config_write w o v p) = f p.
Proof.
  intros H. destruct (decide (in_config w o)) as [Hi|Hi]; [|by rewrite (proj1 (config_out w o v p Hi))].
  rewrite config_write_in by done. apply H.
Qed.
Lemma assign_keeps {A} (f : PcieEmuImpl -> A) i b n m p :
  (forall q c, f (q <| config_space_ := c |>) = f q) -> (forall q g, f (q <| bars_ ::= g |>) = f q) ->
  (forall q v, f (q <| bar0_mmio_ := v |>) = f q) -> (forall q v, f (q <| bar1_ram_ := v |>) = f q) ->
  f (assign_bar i b n m p) = f p.
Proof.
  intros Hc Hb H0 H1. unfold assign_bar. destruct ((i <? 0) || (6 <=? i)); [done|].
  assert (forall o v q, f (write_config_dword o v q) = f q) as Hd by (intros; by apply (write_config_keeps f DWORD)).
  destruct ((i =? 0) && (0 <? n)); [|destruct ((i =? 1) && (0 <? n))]; destruct m; by rewrite ?H0, ?H1, Hd, Hb.
Qed.
Lemma pci_do_caps op p : capabilities_ (pci_do op p) = capabilities_ p.
Proof.
  destruct op as [w o v|i b n m|o bs|o bs|on| |n off| |v|h]; cbn [pci_do].
  - by apply write_config_keeps.
  - by apply assign_keeps.
  - unfold write_mmio. by destruct (vec_write _ _ _) as [[? ?]|].
  - unfold write_ram. by destruct (vec_write _ _ _) as [[? ?]|].
  - by destruct on.
  - done.
  - unfold setup_msix. by case_match.
  - unfold disable_msix. by destruct (msix_enabled_ p).
  - unfold inject_msix_interrupt. by repeat case_match.
  - done.
Qed.
Lemma spares_mono as_ as' op : (forall a, a ∈ as' -> a ∈ as_) -> spares as_ op -> spares as' op.
Proof. destruct op; simpl; [|done..]. intros Hs [? H]. split; [done|]. intros a Ha. by apply H, Hs. Qed.
Lemma pci_run_frame ops p as_ a : a ∈ as_ -> fixed_byte a -> Forall (spares as_) ops ->
  config_space_ (pci_run ops p) a = config_space_ p a.
Proof.
  intros Ha Hf. revert p. induction ops as [|op ops IH]; intros p; [done|]. intros [Hop Hops]%Forall_cons. simpl.
  rewrite (IH (pci_do op p) Hops). apply pci_do_frame; [done|]. eapply spares_mono; [|done]. set_solver.
Qed.
Lemma pci_run_caps ops p : capabilities_ (pci_run ops p) = capabilities_ p.
Proof. revert p. induction ops as [|op ops IH]; intros p; [done|]. simpl. rewrite IH. apply pci_do_caps. Qed.

(** ** The capability chain *)
(** How a driver walks it: identifier and position of each capability. *)
Fixpoint cap_walk (n : nat) (ptr : Z) p : list (Z * Z) :=
  match n with
  | O => []
  | S n' => if ptr =? 0 then [] else (read_config_byte ptr p, ptr) :: cap_walk n' (read_config_byte (ptr + 1) p) p
  end.
(** The status register, the pointer, and the two header bytes of each. *)
Definition header_bytes : list Z :=
  [0x06; 0x34; 0x40; 0x41; 0x50; 0x51; 0x68; 0x69; 0x80; 0x81; 0xA0; 0xA1].
Definition standard_caps : list (Z * Z) :=
  [(PCI_CAP_ID_PM, kCapOffsetPM); (PCI_CAP_ID_MSI, kCapOffsetMSI); (PCI_CAP_ID_PCIE, kCapOffsetPCIe);
   (PCI_CAP_ID_MSIX, kCapOffsetMSIX); (PCI_CAP_ID_VENDOR, kCapOffsetVendor)].

Lemma read_byte_at a p : a < PCI_CONFIG_SPACE_SIZE -> read_config_byte a p = config_space_ p a.
Proof.
  intros Ha. unfold read_config_byte. replace (PCI_CONFIG_SPACE_SIZE <=? a) with false by lia.
  unfold cfg_get. change (Z.of_nat 1) with 1. rewrite peek_1. cbn [le_val]. lia.
Qed.
Lemma cap_walk_ext n ptr p p' :
  (forall id o, (id, o) ∈ cap_walk n ptr p ->
     read_config_byte o p' = read_config_byte o p /\ read_config_byte (o + 1) p' = read_config_byte (o + 1) p) ->
  cap_walk n ptr p' = cap_walk n ptr p.
Proof.
  revert ptr. induction n as [|n IH]; intros ptr H; [done|]. cbn [cap_walk] in *. destruct (ptr =? 0); [done|].
  destruct (H _ _ ltac:(by left)) as [-> ->]. f_equal. apply IH. intros id o Ho. apply (H id). by right.
Qed.
Lemma find_map {A B} (f : A -> B) (P : B -> bool) l : List.find P (f <$> l) = f <$> List.find (fun x => P (f x)) l.
Proof. induction l as [|x l IH]; [done|]. simpl. by destruct (P (f x)). Qed.
Lemma new_pcie_caps : (fun c => (cap_id c, config_offset c)) <$> capabilities_ new_pcie = standard_caps.
Proof. vm_compute. reflexivity. Qed.
Lemma standard_headers id o : (id, o) ∈ standard_caps -> o ∈ header_bytes /\ o + 1 ∈ header_bytes.
Proof.
  unfold standard_caps, header_bytes. intros Ho.
  repeat (apply elem_of_cons in Ho as [[= -> ->]|Ho]; [split; vm_compute; set_solver|]). by apply elem_of_nil in Ho.
Qed.
Lemma standard_walk_ext p p' : (forall a, a ∈ header_bytes -> read_config_byte a p' = read_config_byte a p) ->
  cap_walk 6 (read_config_byte PCI_CFG_CAP_PTR p) p = standard_caps ->
  cap_walk 6 (read_config_byte PCI_CFG_CAP_PTR p') p' = standard_caps.
Proof.
  intros H Hw. rewrite (H PCI_CFG_CAP_PTR) by (unfold header_bytes; set_solver). transitivity (cap_walk 6 (read_config_byte PCI_CFG_CAP_PTR p) p); [|done].
  apply cap_walk_ext. rewrite Hw. intros id o [H1 H2]%standard_headers. by rewrite !H.
Qed.
Lemma new_pcie_walk : cap_walk 6 (read_config_byte PCI_CFG_CAP_PTR new_pcie) new_pcie = standard_caps.
Proof. vm_compute. reflexivity. Qed.
Lemma new_pcie_status : Z.testbit (read_config_byte PCI_CFG_STATUS new_pcie) 4 = true.
Proof. vm_compute. reflexivity. Qed.
Lemma header_fixed a : a ∈ header_bytes -> fixed_byte a /\ a < PCI_CONFIG_SPACE_SIZE.
Proof.
  unfold fixed_byte, PCI_CONFIG_SPACE_SIZE. intros Ha. unfold header_bytes in Ha.
  repeat (apply elem_of_cons in Ha as [->|Ha]; [lia|]). by apply elem_of_nil in Ha.
Qed.

(** C33. Whatever the driver does with the device, short of writing to the
    header bytes of a capability itself, walking the chain in configuration
    space from the pointer at 0x34 visits the five standard capabilities, each
    once and in order, the status register announces the list, and
    [find_capability] gives the position where the walk finds the capability. *)
Theorem capability_chain ops : Forall (spares header_bytes) ops ->
  let p := pci_run ops new_pcie in
  let walk := cap_walk 6 (read_config_byte PCI_CFG_CAP_PTR p) p in
  walk = standard_caps /\ Z.testbit (read_config_byte PCI_CFG_STATUS p) 4 = true /\
  (forall id, find_capability id p =
     match List.find (fun c => (id =? PCI_CAP_ID_ANY) || (c.1 =? id)) walk with Some c => c.2 | None => 0 end).
Proof.
  intros Hops p.
  assert (forall a, a ∈ header_bytes -> read_config_byte a p = read_config_byte a new_pcie) as Hread.
  { intros a Ha. destruct (header_fixed a Ha) as [Hf Hlt]. rewrite !read_byte_at by done.
    by apply (pci_run_frame ops new_pcie header_bytes). }
  pose proof (standard_walk_ext new_pcie p Hread new_pcie_walk) as Hw.
  cbv zeta. rewrite Hw. split; [done|]. split.
  - rewrite Hread by (unfold header_bytes; set_solver). apply new_pcie_status.
  - intros id. unfold find_capability. unfold p. rewrite pci_run_caps.
    rewrite <- new_pcie_caps, find_map. cbn [fst snd]. by destruct (List.find _ _).
Qed.
Lemma capability_chain_witness :
  let p := pci_run [PConfig DWORD 0x54 0xFEE00000; PSetup 2048 0; PEnable] new_pcie in
  find_capability PCI_CAP_ID_MSIX p = kCapOffsetMSIX.
Proof.
  cbv zeta. destruct (capability_chain [PConfig DWORD 0x54 0xFEE00000; PSetup 2048 0; PEnable]) as (Hw & _ & Hf).
  - repeat constructor; [lia|]. simpl. intros a Ha. unfold header_bytes in Ha.
    repeat (apply elem_of_cons in Ha as [->|Ha]; [lia|]). by apply elem_of_nil in Ha.
  - rewrite Hf, Hw. reflexivity.
Defined.
(** The PCI Express capability is 62 bytes long and reaches over the MSI-X one
    (and two bytes into the vendor one): its registers from 0x18 on are MSI-X
    registers, and configuring MSI-X changes them. *)
Lemma pcie_cap_overlaps :
  config_offset <$> capabilities_ new_pcie !! 2%nat = Some kCapOffsetPCIe /\
  (fun c => config_offset c + 2 + Z.of_nat (length (cap_data c))) <$> capabilities_ new_pcie !! 2%nat = Some (kCapOffsetVendor + 6) /\
  read_config_byte (kCapOffsetPCIe + 0x1A) new_pcie = 15 /\
  read_config_byte (kCapOffsetPCIe + 0x1A) (setup_msix 4 0 new_pcie).2 = 3.
Proof. vm_compute. done. Qed.

(** ** MSI-X *)
(** The vectors of a device and those pending; [None] when disabled. *)
Definition msix_step (op : pci_op) (a : option (Z * gset Z)) : option (Z * gset Z) :=
  match op with
  | PSetup n _ => if (n =? 0) || (MSIX_MAX_VECTORS <? n) then a else Some (n, ∅)
  | PDisable => None
  | PInject v =>
      match a with
      | Some (n, s) => if (v <? 0) || (n <=? v) then a else Some (n, {[v]} ∪ s)
      | None => None
      end
  | _ => a
  end.
Definition msix_abs (ops : list pci_op) : option (Z * gset Z) := fold_left (fun a op => msix_step op a) ops None.
Definition op_words (op : pci_op) : Prop := match op with PSetup n _ => is_u16 n | _ => True end.
Definition pba_bit (v : Z) (pba : list Z) : bool := Z.testbit (default 0 (pba !! Z.to_nat (v / 8))) (v mod 8).

Definition msix_inv (a : option (Z * gset Z)) p : Prop :=
  match a with
  | None => msix_enabled_ p = false
  | Some (n, s) => msix_enabled_ p = true /\ msix_nr_vectors_ p = n /\ 1 <= n <= MSIX_MAX_VECTORS /\
      (forall v, v ∈ s -> 0 <= v < n) /\ length (pba_ p) = Z.to_nat PBA_SIZE_BYTES /\
      (forall v, 0 <= v < MSIX_MAX_VECTORS -> pba_bit v (pba_ p) = bool_decide (v ∈ s)) /\
      Z.land (config_space_ p (kCapOffsetMSIX + 2) + 256 * config_space_ p (kCapOffsetMSIX + 3)) 0x7FF = n - 1
  end.
Lemma pba_bit_empty v : pba_bit v empty_pba = false.
Proof.
  unfold pba_bit. destruct (empty_pba !! Z.to_nat (v / 8)) as [b|] eqn:E; simpl; [|apply Z.bits_0].
  apply lookup_replicate in E as [-> _]. apply Z.bits_0.
Qed.
Lemma pba_bit_set v w pba : 0 <= v -> 0 <= w -> (Z.to_nat (v / 8) < length pba)%nat ->
  pba_bit w (alter (fun b => Z.lor b (u8 (Z.shiftl 1 (v mod 8)))) (Z.to_nat (v / 8)) pba) = bool_decide (w = v) || pba_bit w pba.
Proof.
  intros Hv Hw Hlt. unfold pba_bit. pose proof (Z.mod_pos_bound v 8 ltac:(lia)). pose proof (Z.mod_pos_bound w 8 ltac:(lia)).
  assert (u8 (Z.shiftl 1 (v mod 8)) = 2 ^ (v mod 8)) as Hbit.
  { rewrite Z.shiftl_1_l. apply u8_id. split; [by apply Z.pow_nonneg|]. apply Z.pow_lt_mono_r; lia. }
  destruct (decide (v / 8 = w / 8)) as [He|Hne].
  - rewrite <- He, list_lookup_alter_eq. destruct (lookup_lt_is_Some_2 pba _ Hlt) as [b ->]. simpl.
    rewrite Hbit, Z.lor_spec, Z.pow2_bits_eqb, orb_comm by lia. f_equal.
    case_bool_decide as Hd; [subst; by apply Z.eqb_refl|]. apply Z.eqb_neq. contradict Hd.
    rewrite (Z.div_mod w 8), (Z.div_mod v 8) by lia. lia.
  - assert (0 <= v / 8) by (apply Z.div_pos; lia). assert (0 <= w / 8) by (apply Z.div_pos; lia).
    rewrite list_lookup_alter_ne by lia. rewrite bool_decide_false; [done|]. by intros ->.
Qed.
Lemma size_field n o : 1 <= n <= MSIX_MAX_VECTORS ->
  Z.land (Z.land (u16 (n - 1)) 0xFF + 256 * Z.lor (Z.land o 0xF8) (Z.land (Z.shiftr (u16 (n - 1)) 8) 7)) 0x7FF = n - 1.
Proof.
  unfold MSIX_MAX_VECTORS. intros Hn. rewrite u16_id by lia.
  change 0x7FF with (2 ^ 11 - 1). change 0xFF with (2 ^ 8 - 1). rewrite !land_ones_mod by lia.
  set (h := Z.lor _ _). assert (h mod 8 = (n - 1) / 256) as Hh.
  { change 8 with (2 ^ 3) at 1. rewrite <- land_ones_mod by lia. change (2 ^ 3 - 1) with 7. unfold h.
    rewrite Z.land_lor_distr_l, <- !Z.land_assoc. change (Z.land 248 7) with 0. change (Z.land 7 7) with 7.
    rewrite Z.land_0_r, Z.lor_0_l. change 7 with (2 ^ 3 - 1). rewrite land_ones_mod, Z.shiftr_div_pow2 by lia.
    apply Z.mod_small. change (2 ^ 8) with 256. Z.div_mod_to_equations. lia. }
  change (2 ^ 8) with 256. change (2 ^ 11) with 2048. clearbody h. Z.div_mod_to_equations. lia.
Qed.

Lemma msix_keep a p p' : msix_enabled_ p' = msix_enabled_ p -> msix_nr_vectors_ p' = msix_nr_vectors_ p ->
  pba_ p' = pba_ p -> (forall o, kCapOffsetMSIX + 2 <= o <= kCapOffsetMSIX + 3 -> config_space_ p' o = config_space_ p o) ->
  msix_inv a p -> msix_inv a p'.
Proof.
  intros H1 H2 H3 H4 Ha. destruct a as [[n s]|]; unfold msix_inv in *; [|congruence].
  rewrite H1, H2, H3, !H4 by lia. exact Ha.
Qed.
Lemma setup_inv n off p a : is_u16 n -> msix_inv a p -> msix_inv (msix_step (PSetup n off) a) (setup_msix n off p).2.
Proof.
  intros Hw Ha. unfold msix_step, setup_msix. destruct ((n =? 0) || (MSIX_MAX_VECTORS <? n)) eqn:E; [done|].
  assert (1 <= n <= MSIX_MAX_VECTORS) as Hn by lia. unfold msix_inv. cbn [snd].
  split; [done|]. split; [done|]. split; [done|]. split; [set_solver|]. split; [apply length_replicate|]. split.
  - intros v Hv. cbn [pba_ field_upd]. by rewrite pba_bit_empty.
  - cbn [config_space_ field_upd]. set (m := poke (kCapOffsetMSIX + 2) _ _).
    assert (m (kCapOffsetMSIX + 2) = Z.land (u16 (n - 1)) 0xFF) as H0
      by apply poke_head.
    clearbody m. rewrite poke_frame by (simpl; lia). rewrite H0.
    rewrite poke_head. by apply size_field.
Qed.
Lemma msix_do_inv op p a : op_words op -> spares [kCapOffsetMSIX + 2; kCapOffsetMSIX + 3] op -> msix_inv a p ->
  msix_inv (msix_step op a) (pci_do op p).
Proof.
  intros Hop Hs Ha. assert (forall o, kCapOffsetMSIX + 2 <= o <= kCapOffsetMSIX + 3 ->
    o = kCapOffsetMSIX + 2 \/ o = kCapOffsetMSIX + 3) as Hor by lia.
  destruct op as [w o v|i b n m|o bs|o bs|on| |n off| |v|h]; cbn [pci_do].
  - cbn [msix_step]. destruct Hs as [Ho Hs]. apply (msix_keep a p); [by apply write_config_keeps..| |exact Ha].
    intros a' Ha'. apply config_write_frame; [done|]. apply Hs. destruct (Hor a' Ha') as [->| ->]; set_solver.
  - cbn [msix_step]. apply (msix_keep a p); [by apply assign_keeps..| |exact Ha].
    intros a' Ha'. apply assign_frame. unfold kCapOffsetMSIX in Ha'. lia.
  - unfold write_mmio. by destruct (vec_write _ _ _) as [[? ?]|].
  - unfold write_ram. by destruct (vec_write _ _ _) as [[? ?]|].
  - apply (msix_keep a p); [by destruct on..| |exact Ha]. intros a' Ha'. unfold kCapOffsetMSIX in Ha'.
    apply (enable_frame on); lia.
  - apply (msix_keep a p); [done..| |exact Ha]. intros a' Ha'. unfold kCapOffsetMSIX in Ha'.
    apply (enable_frame true); lia.
  - by apply setup_inv.
  - unfold disable_msix. cbn [msix_step]. unfold msix_inv. by destruct (msix_enabled_ p) eqn:E.
  - unfold inject_msix_interrupt. cbn [msix_step]. destruct a as [[n s]|].
    + pose proof Ha as (He & Hn & Hb & Hsub & Hlen & Hbits & Hf). rewrite He, Hn. cbn [negb].
      destruct ((v <? 0) || (n <=? v)) eqn:E; [exact Ha|]. unfold MSIX_MAX_VECTORS, PBA_SIZE_BYTES in *.
      split; [done|]. split; [done|]. split; [done|]. split; [intros x; rewrite elem_of_union, elem_of_singleton; intros [->|Hx]; [lia|auto]|].
      cbn [pba_ field_upd snd]. split; [by rewrite length_alter|]. split; [|done]. intros x Hx. unfold MSIX_MAX_VECTORS in Hx.
      assert ((Z.to_nat (v / 8) < length (pba_ p))%nat) by (rewrite Hlen; assert (0 <= v / 8) by (apply Z.div_pos; lia);
        assert (v / 8 < 256) by (apply Z.div_lt_upper_bound; lia); lia).
      rewrite pba_bit_set, Hbits by lia. repeat case_bool_decide; set_solver.
    + unfold msix_inv in *. by rewrite Ha.
  - done.
Qed.
Lemma msix_run_inv ops p a : Forall op_words ops -> Forall (spares [kCapOffsetMSIX + 2; kCapOffsetMSIX + 3]) ops ->
  msix_inv a p -> msix_inv (fold_left (fun a op => msix_step op a) ops a) (pci_run ops p).
Proof.
  revert p a. induction ops as [|op ops IH]; intros p a; [done|]. intros [Hw Hws]%Forall_cons [Hs Hss]%Forall_cons Ha.
  simpl. apply IH; [done|done|]. by apply msix_do_inv.
Qed.
Lemma msix_word_read p : read_config_word (kCapOffsetMSIX + 2) p =
  config_space_ p (kCapOffsetMSIX + 2) + 256 * config_space_ p (kCapOffsetMSIX + 3).
Proof.
  change (read_config_word (kCapOffsetMSIX + 2) p) with (cfg_get (kCapOffsetMSIX + 2) 2 p).
  unfold cfg_get. change (Z.of_nat 2) with 2. rewrite peek_2. cbn [le_val]. replace (kCapOffsetMSIX + 2 + 1) with (kCapOffsetMSIX + 3) by lia. lia.
Qed.

(** After any operations, provided raw configuration writes spare the
    MSI-X control word, the pending bit of each of the 2048 vectors is set
    exactly for the vectors injected since MSI-X was last set up, and none is
    while it is disabled; the control word shows the table size; injecting is
    refused with -ENXIO while disabled, with -EINVAL for a vector outside the
    table, and otherwise calls the registered handler with the vector. *)
Theorem msix_pending_exact ops : Forall op_words ops ->
  Forall (spares [kCapOffsetMSIX + 2; kCapOffsetMSIX + 3]) ops ->
  let p := pci_run ops new_pcie in
  match msix_abs ops with
  | None => forall v, inject_msix_interrupt v p = (- ENXIO, None, p)
  | Some (n, pending) =>
      1 <= n <= MSIX_MAX_VECTORS /\
      (forall v, 0 <= v < MSIX_MAX_VECTORS -> pba_bit v (pba_ p) = bool_decide (v ∈ pending)) /\
      Z.land (read_config_word (kCapOffsetMSIX + 2) p) 0x7FF = n - 1 /\
      (forall v, (inject_msix_interrupt v p).1 =
         if (v <? 0) || (n <=? v) then (- EINVAL, None) else (0, (fun h => (h, v)) <$> msix_handler_ p))
  end.
Proof.
  intros Hw Hs p. assert (msix_inv (msix_abs ops) p) as Ha by (by apply msix_run_inv).
  clearbody p. destruct (msix_abs ops) as [[n s]|]; unfold msix_inv in Ha.
  - destruct Ha as (He & Hn & Hb & _ & _ & Hbits & Hf). split; [done|]. split; [done|].
    rewrite msix_word_read. split; [done|]. intros v. unfold inject_msix_interrupt. rewrite He, Hn. cbn [negb].
    by destruct ((v <? 0) || (n <=? v)).
  - intros v. unfold inject_msix_interrupt. by rewrite Ha.
Qed.
Lemma msix_pending_exact_witness :
  let p := pci_run [PHandler (Some 7); PSetup 40 0; PInject 33; PInject 40] new_pcie in
  pba_bit 33 (pba_ p) = true /\ pba_bit 34 (pba_ p) = false.
Proof.
  cbv zeta. destruct (msix_pending_exact [PHandler (Some 7); PSetup 40 0; PInject 33; PInject 40]) as (_ & Hb & _);
    [repeat constructor; done|repeat constructor|].
  rewrite !Hb by (unfold MSIX_MAX_VECTORS; lia). split; [by apply bool_decide_true; set_solver|by apply bool_decide_false; set_solver].
Defined.
(** [setup_msix] does not set the enable bit of the control word, and
    [disable_msix] leaves the table size there. *)
Lemma msix_enable_bit :
  let p := (setup_msix 40 0 new_pcie).2 in
  msix_enabled_ p = true /\ Z.testbit (read_config_word (kCapOffsetMSIX + 2) p) 15 = false /\
  read_config_word (kCapOffsetMSIX + 2) (disable_msix p).2 = 39.
Proof. vm_compute. done. Qed.

(** ** BAR memory *)
(** C40. The bound of the MMIO and RAM windows is exact up to wrap-around: an
    access is refused, served, or leaves the window, which happens exactly when
    its end wraps past 2^64 to a value within the window; what a served write
    stores is what a read of it returns, and other bytes keep their value. *)
Theorem bar_window_exact o bs v : is_u64 o -> is_u64 (Z.of_nat (length bs)) -> 0 <= v_size v < 2 ^ 64 ->
  let n := Z.of_nat (length bs) in
  match vec_write o bs v with
  | Some (0, v') => o + n <= v_size v /\ v_size v' = v_size v /\ vec_read o n v' = Some (0, bs) /\
      (forall o' n', 0 <= o' -> 0 <= n' -> o' + n' <= v_size v -> o' + n' <= o \/ o + n <= o' ->
         vec_read o' n' v' = vec_read o' n' v)
  | Some (r, v') => r = - EINVAL /\ v' = v /\ v_size v < o + n
  | None => 2 ^ 64 <= o + n /\ o + n - 2 ^ 64 <= v_size v /\ vec_read o n v = None
  end.
Proof.
  intros Ho Hn Hv. cbv zeta. unfold vec_write. set (n := Z.of_nat (length bs)) in *.
  assert (u64 (o + n) = if o + n <? 2 ^ 64 then o + n else o + n - 2 ^ 64) as Hu
    by (unfold u64; destruct (Z.ltb_spec (o + n) (2 ^ 64)); Z.div_mod_to_equations; lia).
  destruct (Z.ltb_spec (v_size v) (u64 (o + n))).
  - split; [done|]. split; [done|]. destruct (Z.ltb_spec (o + n) (2 ^ 64)); lia.
  - destruct (Z.leb_spec (o + n) (v_size v)).
    + split; [done|]. split; [done|]. rewrite u64_id in * by lia. split.
      * unfold vec_read. cbn [v_size v_mem field_upd]. rewrite u64_id by lia.
        replace (v_size v <? o + n) with false by lia. replace (o + n <=? v_size v) with true by lia.
        unfold n. by rewrite peek_poke.
      * intros o' n' Ho' Hn' Hin Hd. unfold vec_read. cbn [v_size v_mem field_upd].
        by rewrite peek_poke_disjoint by (unfold n in Hd; lia).
    + destruct (Z.ltb_spec (o + n) (2 ^ 64)); [lia|]. split; [done|]. split; [lia|].
      unfold vec_read. replace (v_size v <? u64 (o + n)) with false by lia. by replace (o + n <=? v_size v) with false by lia.
Qed.
Lemma bar_window_exact_witness :
  vec_write 0x1000 [1; 2] (zero_vec 0x1000) = Some (- EINVAL, zero_vec 0x1000) /\
  vec_write (2 ^ 64 - 1) [1; 2] (zero_vec 0x1000) = None.
Proof.
  pose proof (bar_window_exact 0x1000 [1; 2] (zero_vec 0x1000)) as H1.
  pose proof (bar_window_exact (2 ^ 64 - 1) [1; 2] (zero_vec 0x1000)) as H2.
  split; [|reflexivity]. cbv zeta in H1. destruct H1 as (_ & _ & _); simpl; try lia. reflexivity.
Defined.

(** ** The command register *)
Lemma command_word p : read_config_word PCI_CFG_COMMAND p = cfg_get PCI_CFG_COMMAND 2 p.
Proof. apply (config_read_in WORD). unfold in_config, PCI_CONFIG_SPACE_SIZE, PCI_CFG_COMMAND. simpl. lia. Qed.
Lemma command_written v p : 0 <= v < 2 ^ 16 ->
  read_config_word PCI_CFG_COMMAND (write_config_word PCI_CFG_COMMAND v p) = v.
Proof.
  intros Hv. rewrite command_word, (config_write_in WORD) by (unfold in_config, PCI_CONFIG_SPACE_SIZE, PCI_CFG_COMMAND; simpl; lia).
  rewrite cfg_get_put. simpl Z.of_nat. by apply Z.mod_small.
Qed.
Lemma command_bus_master p :
  read_config_word PCI_CFG_COMMAND (enable_bus_master p) = u16 (Z.lor (read_config_word PCI_CFG_COMMAND p) 4) /\
  read_config_word PCI_CFG_COMMAND (disable_bus_master p) = u16 (Z.land (read_config_word PCI_CFG_COMMAND p) (Z.lnot 4)).
Proof. split; exact (command_written _ p (u16_range _)). Qed.
Lemma testbit_u16 x i : 0 <= i < 16 -> Z.testbit (u16 x) i = Z.testbit x i.
Proof. intros. unfold u16. by rewrite Z.mod_pow2_bits_low by lia. Qed.
(** Enabling sets the I/O, memory and bus-master bits and keeps the others;
    giving up bus mastering clears only that bit. *)
Lemma enable_device_command p i : 0 <= i < 16 ->
  let cmd q := Z.testbit (read_config_word PCI_CFG_COMMAND q) i in
  let p1 := default p (pci_enable_device (Some p) true).2 in
  cmd p1 = (i <? 3) || cmd p /\ cmd (disable_bus_master p1) = negb (i =? 2) && cmd p1 /\
  device_enabled_ p1 = true /\ device_enabled_ (disable_bus_master p1) = false.
Proof.
  intros Hi cmd p1. set (c := read_config_word PCI_CFG_COMMAND p).
  assert (p1 = enable_bus_master (write_config_word PCI_CFG_COMMAND (u16 (Z.lor (Z.lor c 2) 1)) p)) as -> by done.
  unfold cmd. destruct (command_bus_master (write_config_word PCI_CFG_COMMAND (u16 (Z.lor (Z.lor c 2) 1)) p)) as [-> _].
  set (q := enable_bus_master _). destruct (command_bus_master q) as [_ ->].
  assert (read_config_word PCI_CFG_COMMAND q = u16 (Z.lor (u16 (Z.lor (Z.lor c 2) 1)) 4)) as ->
    by (unfold q; by rewrite (proj1 (command_bus_master _)), command_written by apply u16_range).
  rewrite command_written by apply u16_range. rewrite !testbit_u16, Z.land_spec, !testbit_u16, !Z.lor_spec, !testbit_u16, !Z.lor_spec by done.
  rewrite Z.lnot_spec by lia. change 4 with (2 ^ 2). change (Z.testbit 2 i) with (Z.testbit (2 ^ 1) i).
  change (Z.testbit 1 i) with (Z.testbit (2 ^ 0) i). rewrite !Z.pow2_bits_eqb by lia. fold c.
  split; [|split; [|by split]]; destruct (Z.testbit c i); destruct (Z.eqb_spec 2 i), (Z.eqb_spec 1 i), (Z.eqb_spec 0 i); simpl; lia.
Qed.
