(* ===== verification/Topology.v ===== *)
(** * The PCI topology file

    [src/sim_hardware/src/topology.cpp] (loading and writing),
    [src/pcie/host_bridge.cpp] (enumeration) and
    [plugins/pci_driver/pci_setup_bus.cpp] (assigning the BARs found there).
    Reading and printing JSON text is the work of a vendored library; the model
    starts from the document it yields. *)
From S2P Require Import Prelude Bytes Pci.
From Stdlib Require Import Ascii String.
From stdpp Require Import strings.
#[local] Open Scope string_scope.
#[local] Open Scope list_scope.
#[local] Open Scope Z_scope.

(** ** JSON documents as [nlohmann::json] holds them *)
(** Numbers of the parser are unsigned when they have no sign; the members of an
    object have distinct names. *)
Inductive json :=
| JNull | JBool (b : bool) | JUnsigned (n : Z) | JInteger (z : Z) | JFloat
| JString (s : string) | JArray (l : list json) | JObject (l : list (string * json)).

Fixpoint assoc (k : string) (l : list (string * json)) : option json :=
  match l with
  | [] => None
  | (k', v) :: l' => if String.eqb k k' then Some v else assoc k l'
  end.
Definition member (k : string) (j : json) : option json :=
  match j with JObject l => assoc k l | _ => None end.
Definition get_object (j : json) : option (list (string * json)) := match j with JObject l => Some l | _ => None end.
Definition get_array (j : json) : option (list json) := match j with JArray l => Some l | _ => None end.
Definition get_string (j : json) : option string := match j with JString s => Some s | _ => None end.
Definition get_bool (j : json) : option bool := match j with JBool b => Some b | _ => None end.
(** [is_number_integer] holds of both kinds. *)
Definition get_integer (j : json) : option Z := match j with JUnsigned n => Some n | JInteger z => Some z | _ => None end.
Definition get_unsigned (j : json) : option Z := match j with JUnsigned n => Some n | _ => None end.
Definition keys_allowed (allowed : list string) (l : list (string * json)) : bool :=
  forallb (fun kv => existsb (String.eqb kv.1) allowed) l.

(** ** Characters and numbers in text *)
Definition code (c : ascii) : Z := Z.of_nat (nat_of_ascii c).
Definition hex_digit (c : ascii) : option Z :=
  let c := code c in
  if (48 <=? c) && (c <=? 57) then Some (c - 48)
  else if (97 <=? c) && (c <=? 102) then Some (c - 97 + 10)
  else if (65 <=? c) && (c <=? 70) then Some (c - 65 + 10)
  else None.
(** The lambda [hex_byte]: the digits from [pos] on, [0xFFFFFFFF] if one is
    not a digit. *)
Fixpoint hex_byte (s : list ascii) (len : nat) (v : Z) : Z :=
  match len, s with
  | O, _ => v
  | S len', c :: s' => match hex_digit c with
                       | Some d => hex_byte s' len' (Z.lor (u32 (Z.shiftl v 4)) d)
                       | None => 0xFFFFFFFF
                       end
  | S _, [] => 0xFFFFFFFF
  end.
Definition char_at (s : list ascii) (i : nat) (c : ascii) : bool :=
  match s !! i with Some c' => Ascii.eqb c' c | None => false end.
Definition kBdfStrLen : nat := 12.
Definition pack_bdf (bdf : string) : Z :=
  let s := list_ascii_of_string bdf in
  if negb (Nat.eqb (length s) kBdfStrLen) then 0
  else if negb (char_at s 4 ":" && char_at s 7 ":" && char_at s 10 ".") then 0
  else
    let bus := hex_byte s 4 0 in
    let device := hex_byte (drop 5 s) 2 0 in
    let func := hex_byte (drop 8 s) 2 0 in
    if (bus =? 0xFFFFFFFF) || (device =? 0xFFFFFFFF) || (func =? 0xFFFFFFFF) then 0
    else if (0x1F <? bus) || (0x1F <? device) || (0x07 <? func) then 0
    else u16 (Z.lor (Z.lor (Z.shiftl bus 8) (Z.shiftl device 3)) func).

(** [strtoul] of the C library, 64-bit: the value and the rest of the text. *)
Definition is_space (c : ascii) : bool := (code c =? 32) || (9 <=? code c) && (code c <=? 13).
Definition digit (base : Z) (c : ascii) : option Z :=
  match hex_digit c with Some d => if d <? base then Some d else None | None => None end.
Fixpoint digits (base : Z) (s : list ascii) (v : Z) : Z * list ascii :=
  match s with
  | c :: s' => match digit base c with Some d => digits base s' (v * base + d) | None => (v, s) end
  | [] => (v, s)
  end.
Fixpoint skip_space (s : list ascii) : list ascii :=
  match s with c :: s' => if is_space c then skip_space s' else s | [] => [] end.
Definition hex_prefix (s : list ascii) : option (list ascii) :=
  match s with
  | c :: x :: d :: s' =>
      if Ascii.eqb c "0" && (Ascii.eqb x "x" || Ascii.eqb x "X") && bool_decide (is_Some (hex_digit d))
      then Some (d :: s') else None
  | _ => None
  end.
Definition strtoul (base : Z) (s : list ascii) : Z * list ascii :=
  let s1 := skip_space s in
  let '(neg, s2) := match s1 with
                    | c :: s' => if Ascii.eqb c "-" then (true, s') else if Ascii.eqb c "+" then (false, s') else (false, s1)
                    | [] => (false, s1)
                    end in
  let '(b, s3) :=
    match hex_prefix s2 with
    | Some s' => if (base =? 16) || (base =? 0) then (16, s') else (base, s2)
    | None => if base =? 0 then (match s2 with c :: _ => if Ascii.eqb c "0" then 8 else 10 | [] => 10 end, s2) else (base, s2)
    end in
  match s3 with
  | c :: _ => match digit b c with
              | Some _ => let '(v, rest) := digits b s3 0 in
                          (if UINT64_MAX <? v then UINT64_MAX else if neg then u64 (- v) else v, rest)
              | None => (0, s)
              end
  | [] => (0, s)
  end.
(** The characters [c_str] shows before the terminator. *)
Fixpoint c_str (s : list ascii) : list ascii :=
  match s with c :: s' => if Ascii.eqb c zero then [] else c :: c_str s' | [] => [] end.
Definition parse_hex (s : string) : option Z :=
  if String.eqb s "" then None
  else
    let p := c_str (list_ascii_of_string s) in
    let '(v, rest) :=
      if Nat.ltb 2 (String.length s) && char_at p 0 "0" && (char_at p 1 "x" || char_at p 1 "X")
      then strtoul 16 (drop 2 p) else strtoul 0 p in
    match rest with [] => Some v | _ => None end.
Definition parse_hex_u16 (s : string) : option Z := v ← parse_hex s; if 0xFFFF <? v then None else Some v.
Definition parse_hex_u32 (s : string) : option Z := v ← parse_hex s; Some (u32 v).

(** ** The topology *)
Inductive BypassMode := kFull | kBypass | kPartial.
Inductive DrainPolicy := kGracefulDrain | kImmediateAbort.
Record TopologyBar := mk_tbar { tb_index : Z; size_bytes : Z; prefetchable : bool; tb_is_mmio : bool; is_64bit : bool }.
(** [endpoint_kind] is the text before the terminator of the 32 characters. *)
Record TopologyDevice := mk_tdev {
  td_bdf : Z; td_vendor_id : Z; td_device_id : Z; class_code : Z; endpoint_kind : string; td_bars : list TopologyBar
}.
Record Topology := mk_topo {
  schema_version : Z; platform_name : string; enable_root_complex : bool; enable_link_layer : bool; enable_phy : bool;
  default_bypass_mode : BypassMode; default_drain_policy : DrainPolicy; devices : list TopologyDevice
}.

Definition kSchemaVersion : Z := 1.
Definition kMaxDevices : nat := 16.
Definition kMaxBarsPerDevice : nat := 6.
Definition parse_bypass_mode (s : string) : BypassMode :=
  if String.eqb s "Full" then kFull else if String.eqb s "Bypass" then kBypass
  else if String.eqb s "Partial" then kPartial else kFull.
Definition valid_bypass_mode_string (s : string) : bool :=
  String.eqb s "Full" || String.eqb s "Bypass" || String.eqb s "Partial".
Definition parse_drain_policy (s : string) : DrainPolicy :=
  if String.eqb s "GracefulDrain" then kGracefulDrain else if String.eqb s "ImmediateAbort" then kImmediateAbort
  else kGracefulDrain.
Definition valid_drain_policy_string (s : string) : bool :=
  String.eqb s "GracefulDrain" || String.eqb s "ImmediateAbort".

Definition guard_some (b : bool) : option unit := if b then Some tt else None.
(** An absent member takes the default, a member of another type is refused. *)
Definition optional_bool (k : string) (j : json) (d : bool) : option bool :=
  match member k j with None => Some d | Some v => get_bool v end.
(** [link_layer] and [phy]: anything malformed takes the default. *)
Definition lenient_enabled (k : string) (j : json) (d : bool) : bool :=
  default d (v ← member k j; b ← member "enabled" v; get_bool b).

Definition kAllowedTopKeys : list string := ["schema_version"; "platform"; "pcie"; "devices"].
Definition kAllowedPcieKeys : list string := ["root_complex"; "link_layer"; "phy"; "bypass_mux"].
Definition kAllowedDeviceKeys : list string := ["bdf"; "vendor_id"; "device_id"; "class_code"; "endpoint_kind"; "bars"].
Definition kAllowedBarKeys : list string := ["index"; "size_bytes"; "prefetchable"; "is_mmio"; "is_64bit"].

Definition seen (i : Z) (l : list Z) : bool := existsb (Z.eqb i) l.
(** One BAR, with the slots taken so far; [None] is -EINVAL. *)
Definition load_bar (bar : json) (seen_bar_idx : list Z) : option (TopologyBar * list Z) :=
  l ← get_object bar;
  guard_some (keys_allowed kAllowedBarKeys l);;
  idx ← member "index" bar ≫= get_integer;
  let idx := s32 idx in
  guard_some (negb ((idx <? 0) || (5 <? idx)));;
  guard_some (negb (seen idx seen_bar_idx));;
  let seen_bar_idx := idx :: seen_bar_idx in
  size ← member "size_bytes" bar ≫= get_unsigned;
  guard_some (negb (size =? 0));;
  pre ← optional_bool "prefetchable" bar false;
  mmio ← optional_bool "is_mmio" bar true;
  wide ← optional_bool "is_64bit" bar false;
  seen_bar_idx ← (if wide then
                    guard_some (negb (idx =? 5));; guard_some (negb (seen (idx + 1) seen_bar_idx));;
                    Some (idx + 1 :: seen_bar_idx)
                  else Some seen_bar_idx);
  Some (mk_tbar idx size pre mmio wide, seen_bar_idx).
Fixpoint load_bars (bars : list json) (seen_bar_idx : list Z) : option (list TopologyBar) :=
  match bars with
  | [] => Some []
  | b :: bars' => '(tb, seen_bar_idx) ← load_bar b seen_bar_idx; l ← load_bars bars' seen_bar_idx; Some (tb :: l)
  end.
(** [strncpy] into 32 characters, the last one zero. *)
Definition to_kind (s : string) : string := string_of_list_ascii (take 31 (c_str (list_ascii_of_string s))).
Definition load_device (dev : json) (seen_bdfs : list string) : option (TopologyDevice * list string) :=
  l ← get_object dev;
  guard_some (keys_allowed kAllowedDeviceKeys l);;
  bdf ← member "bdf" dev ≫= get_string;
  guard_some (Nat.eqb (String.length bdf) kBdfStrLen);;
  guard_some (negb (existsb (String.eqb bdf) seen_bdfs));;
  let packed := pack_bdf bdf in
  guard_some (negb ((packed =? 0) && negb (String.eqb bdf "0000:00:00.0")));;
  vendor_id ← member "vendor_id" dev ≫= get_string;
  device_id ← member "device_id" dev ≫= get_string;
  vendor_id ← parse_hex_u16 vendor_id;
  device_id ← parse_hex_u16 device_id;
  class_code ← member "class_code" dev ≫= get_string;
  class_code ← parse_hex_u32 class_code;
  ek ← member "endpoint_kind" dev ≫= get_string;
  guard_some (negb (String.eqb ek ""));;
  bars ← member "bars" dev ≫= get_array;
  guard_some (Nat.leb (length bars) kMaxBarsPerDevice);;
  tbs ← load_bars bars [];
  Some (mk_tdev packed vendor_id device_id class_code (to_kind ek) tbs, bdf :: seen_bdfs).
Fixpoint load_devices (devs : list json) (seen_bdfs : list string) : option (list TopologyDevice) :=
  match devs with
  | [] => Some []
  | d :: devs' => '(td, seen_bdfs) ← load_device d seen_bdfs; l ← load_devices devs' seen_bdfs; Some (td :: l)
  end.
Definition load_document (j : json) : option Topology :=
  l ← get_object j;
  guard_some (keys_allowed kAllowedTopKeys l);;
  version ← member "schema_version" j ≫= get_integer;
  guard_some (u32 version =? kSchemaVersion);;
  platform ← member "platform" j ≫= get_string;
  guard_some (negb (String.eqb platform ""));;
  pcie ← member "pcie" j;
  pl ← get_object pcie;
  guard_some (keys_allowed kAllowedPcieKeys pl);;
  rc ← member "root_complex" pcie;
  root ← member "enabled" rc ≫= get_bool;
  bm ← member "bypass_mux" pcie;
  mode ← member "default_mode" bm ≫= get_string;
  policy ← member "default_drain_policy" bm ≫= get_string;
  guard_some (valid_bypass_mode_string mode);;
  guard_some (valid_drain_policy_string policy);;
  devs ← member "devices" j ≫= get_array;
  guard_some (Nat.leb (length devs) kMaxDevices);;
  tds ← load_devices devs [];
  Some (mk_topo kSchemaVersion platform root (lenient_enabled "link_layer" pcie true) (lenient_enabled "phy" pcie false)
          (parse_bypass_mode mode) (parse_drain_policy policy) tds).

(** What opening and parsing the file gives. *)
Inductive file_answer := CannotOpen | ParseError | Parsed (j : json).
(** The code, and [*out] when it is written. *)
Definition topology_load_json (path : string) (out : bool) (f : file_answer) : Z * option Topology :=
  if negb out then (- EINVAL, None)
  else if String.eqb path "" then (- EINVAL, None)
  else match f with
  | CannotOpen => (- ENOENT, None)
  | ParseError => (- EINVAL, None)
  | Parsed j => match load_document j with Some t => (0, Some t) | None => (- EINVAL, None) end
  end.

(** ** Writing *)
Definition hex_char (upper : bool) (d : Z) : ascii :=
  ascii_of_nat (Z.to_nat (if d <? 10 then 48 + d else (if upper then 65 else 97) + (d - 10))).
(** [%0nX] of a value below 16^n. *)
Fixpoint hex_digits (upper : bool) (n : nat) (v : Z) : list ascii :=
  match n with
  | O => []
  | S n' => hex_char upper (v / 16 ^ Z.of_nat n' mod 16) :: hex_digits upper n' v
  end.
Definition hex_u16 (v : Z) : string := "0x" +:+ string_of_list_ascii (hex_digits true 4 v).
Definition hex_u32 (v : Z) : string := "0x" +:+ string_of_list_ascii (hex_digits true 8 v).
Definition bdf_to_str (packed : Z) : string :=
  let bus := Z.land (Z.shiftr packed 8) 0x1F in
  let device := Z.land (Z.shiftr packed 3) 0x1F in
  let func := Z.land packed 0x07 in
  string_of_list_ascii (hex_digits false 4 bus ++ [":"%char] ++ hex_digits false 2 device ++ [":"%char] ++
                        hex_digits false 2 func ++ ["."%char; "0"%char]).
Definition write_bar (b : TopologyBar) : json :=
  JObject [("index", JInteger (tb_index b)); ("size_bytes", JUnsigned (size_bytes b));
           ("prefetchable", JBool (prefetchable b)); ("is_mmio", JBool (tb_is_mmio b)); ("is_64bit", JBool (is_64bit b))].
Definition write_device (d : TopologyDevice) : json :=
  JObject [("bdf", JString (bdf_to_str (td_bdf d))); ("vendor_id", JString (hex_u16 (td_vendor_id d)));
           ("device_id", JString (hex_u16 (td_device_id d))); ("class_code", JString (hex_u32 (class_code d)));
           ("endpoint_kind", JString (endpoint_kind d)); ("bars", JArray (write_bar <$> td_bars d))].
Definition mode_text (m : BypassMode) : string :=
  match m with kFull => "Full" | kBypass => "Bypass" | kPartial => "Partial" end.
Definition policy_text (p : DrainPolicy) : string :=
  match p with kGracefulDrain => "GracefulDrain" | kImmediateAbort => "ImmediateAbort" end.
Definition write_document (t : Topology) : json :=
  let part ty on := JObject [("type", JString ty); ("enabled", JBool on)] in
  JObject [("schema_version", JInteger 1); ("platform", JString (platform_name t));
           ("pcie", JObject [("root_complex", part "PcieRootComplexMock" (enable_root_complex t));
                             ("link_layer", part "PcieLinkLayer" (enable_link_layer t));
                             ("phy", part "PciePhyDigitalCtrl" (enable_phy t));
                             ("bypass_mux", JObject [("default_mode", JString (mode_text (default_bypass_mode t)));
                                                     ("default_drain_policy", JString (policy_text (default_drain_policy t)))])]);
           ("devices", JArray (write_device <$> devices t))].
(** The code and what the file then holds; [opened]: it could be created. *)
Definition topology_write_default_json (path : string) (opened : bool) (src : option Topology) : Z * option json :=
  match src with
  | None => (- EINVAL, None)
  | Some t => if String.eqb path "" then (- EINVAL, None)
              else if negb opened then (- ENOENT, None) else (0, Some (write_document t))
  end.
(** What parsing the printed document gives: a number without a sign comes back
    unsigned. *)
Fixpoint reparse (j : json) : json :=
  match j with
  | JInteger z => if 0 <=? z then JUnsigned z else j
  | JArray l => JArray (map reparse l)
  | JObject l => JObject (map (fun kv => (kv.1, reparse kv.2)) l)
  | _ => j
  end.

(** ** Enumeration ([host_bridge.cpp]) *)
Record DiscoveredDevice := mk_found { bdf : Z; vendor_id : Z; device_id : Z; dd_class_code : Z; dd_endpoint_kind : string }.
Definition discovered (td : TopologyDevice) : DiscoveredDevice :=
  mk_found (td_bdf td) (td_vendor_id td) (td_device_id td) (class_code td) (endpoint_kind td).
(** The code, [*out_count] and the entries written; [bufs] and [out_count] say
    that the pointers are not null. *)
Definition host_bridge_enumerate (bufs : bool) (max_devices : Z) (out_count : bool) (path : option string) (f : file_answer) :
    Z * option Z * list DiscoveredDevice :=
  match out_count, path with
  | true, Some path =>
      if (max_devices =? 0) && bufs then (- EINVAL, None, [])
      else if (0 <? max_devices) && negb bufs then (- EINVAL, None, [])
      else match topology_load_json path true f with
      | (0, Some t) =>
          let n := Z.of_nat (length (devices t)) in
          if max_devices =? 0 then (0, Some n, [])
          else (0, Some n, discovered <$> take (Z.to_nat (if n <? max_devices then n else max_devices)) (devices t))
      | (rc, _) => (rc, Some 0, [])
      end
  | _, _ => (- EINVAL, None, [])
  end.
Definition pci_probe_enumerate_from_sim_hardware := host_bridge_enumerate.

(** ** Assigning BARs ([pci_setup_bus.cpp]) *)
Fixpoint assign_loop (bars : list TopologyBar) (mmio_base io_base : Z) (emu : PcieEmuImpl) : PcieEmuImpl :=
  match bars with
  | [] => emu
  | b :: bars' =>
      if (tb_index b <? 0) || (6 <=? tb_index b) then assign_loop bars' mmio_base io_base emu
      else if size_bytes b =? 0 then assign_loop bars' mmio_base io_base emu
      else
        let base := if tb_is_mmio b then mmio_base else io_base in
        let emu := assign_bar (tb_index b) base (size_bytes b) (tb_is_mmio b) emu in
        if tb_is_mmio b then assign_loop bars' (u64 (mmio_base + size_bytes b)) io_base emu
        else assign_loop bars' mmio_base (u64 (io_base + size_bytes b)) emu
  end.
Definition MMIO_BASE : Z := 0xF0000000.
Definition IO_BASE : Z := 0xE000.
Definition matches (dev : DiscoveredDevice) (td : TopologyDevice) : bool :=
  (td_vendor_id td =? vendor_id dev) && (td_device_id td =? device_id dev) && (td_bdf td =? bdf dev).
Definition pci_bus_assign_resources (emu : option PcieEmuImpl) (dev : option DiscoveredDevice) (path : option string)
    (f : file_answer) : Z * option PcieEmuImpl :=
  match emu, dev, path with
  | Some e, Some dev, Some path =>
      match topology_load_json path true f with
      | (0, Some t) =>
          match List.find (matches dev) (devices t) with
          | None => (- ENOENT, emu)
          | Some td => (0, Some (assign_loop (td_bars td) MMIO_BASE IO_BASE e))
          end
      | (rc, _) => (rc, emu)
      end
  | _, _, _ => (- EINVAL, emu)
  end.

(** ** Well-formed topologies *)
(** The BAR registers a BAR takes. *)
Definition slots (b : TopologyBar) : list Z := if is_64bit b then [tb_index b; tb_index b + 1] else [tb_index b].
Definition bar_ok (b : TopologyBar) : Prop := 0 <= tb_index b <= 5 /\ 0 < size_bytes b < 2 ^ 64 /\ (is_64bit b = true -> tb_index b <> 5).
Definition no_nul (s : string) : Prop := Forall (fun c => c <> zero) (list_ascii_of_string s).
Record device_ok (d : TopologyDevice) : Prop := {
  do_bdf : 0 <= td_bdf d < 2 ^ 13; do_vendor : is_u16 (td_vendor_id d); do_device : is_u16 (td_device_id d);
  do_class : is_u32 (class_code d); do_kind : (String.length (endpoint_kind d) <= 31)%nat /\ no_nul (endpoint_kind d);
  do_count : (length (td_bars d) <= kMaxBarsPerDevice)%nat; do_bars : Forall bar_ok (td_bars d);
  do_slots : NoDup (td_bars d ≫= slots)
}.
Record topology_ok (t : Topology) : Prop := {
  to_version : schema_version t = kSchemaVersion; to_platform : platform_name t <> "";
  to_count : (length (devices t) <= kMaxDevices)%nat; to_devices : Forall device_ok (devices t)
}.
(** The numbers of a parsed document. *)
Fixpoint json_words (j : json) : Prop :=
  match j with
  | JUnsigned n => 0 <= n < 2 ^ 64
  | JInteger z => - 2 ^ 63 <= z < 2 ^ 63
  | JArray l => fold_right (fun j P => json_words j /\ P) True l
  | JObject l => fold_right (fun kv P => json_words kv.2 /\ P) True l
  | _ => True
  end.

(** ** Hexadecimal text *)
Definition plain_digit (c : ascii) (d : Z) : bool :=
  bool_decide (hex_digit c = Some d) && negb (is_space c) && negb (Ascii.eqb c "-") && negb (Ascii.eqb c "+") &&
  negb (Ascii.eqb c "x") && negb (Ascii.eqb c "X") && negb (Ascii.eqb c zero).
Lemma hex_char_plain up d : 0 <= d < 16 -> plain_digit (hex_char up d) d = true.
Proof.
  intros Hd. assert (forallb (fun d => plain_digit (hex_char up d) d) (seqZ 0 16) = true) as H
    by (destruct up; vm_compute; reflexivity).
  rewrite forallb_forall in H. apply H. apply list_elem_of_In, elem_of_seqZ. lia.
Qed.
Lemma hex_char_spec up v : hex_digit (hex_char up (v mod 16)) = Some (v mod 16) /\
  is_space (hex_char up (v mod 16)) = false /\ Ascii.eqb (hex_char up (v mod 16)) "-" = false /\
  Ascii.eqb (hex_char up (v mod 16)) "+" = false /\ Ascii.eqb (hex_char up (v mod 16)) "x" = false /\
  Ascii.eqb (hex_char up (v mod 16)) "X" = false /\ Ascii.eqb (hex_char up (v mod 16)) zero = false.
Proof.
  pose proof (hex_char_plain up (v mod 16) (Z.mod_pos_bound v 16 ltac:(lia))) as H. unfold plain_digit in H.
  rewrite !andb_true_iff, !negb_true_iff, bool_decide_eq_true in H. tauto.
Qed.
Lemma digits_hex up n v acc : 0 <= v -> digits 16 (hex_digits up n v) acc = (acc * 16 ^ Z.of_nat n + v mod 16 ^ Z.of_nat n, []).
Proof.
  intros Hv. revert acc. induction n as [|n IH]; intros acc.
  - simpl. rewrite Z.mod_1_r. f_equal. lia.
  - cbn [hex_digits digits]. unfold digit. destruct (hex_char_spec up (v / 16 ^ Z.of_nat n)) as [-> _].
    pose proof (Z.mod_pos_bound (v / 16 ^ Z.of_nat n) 16 ltac:(lia)).
    replace (_ <? 16) with true by lia. rewrite IH. f_equal.
    rewrite Nat2Z.inj_succ, Z.pow_succ_r, (Z.mul_comm 16), Z.rem_mul_r by lia. lia.
Qed.
Lemma c_str_hex up n v : c_str (hex_digits up n v) = hex_digits up n v.
Proof.
  induction n as [|n IH]; [done|]. cbn [hex_digits c_str].
  destruct (hex_char_spec up (v / 16 ^ Z.of_nat n)) as (_ & _ & _ & _ & _ & _ & ->). by rewrite IH.
Qed.
Lemma strtoul_hex up n v : 0 <= v < 16 ^ Z.of_nat (S n) -> 16 ^ Z.of_nat (S n) <= 2 ^ 64 ->
  strtoul 16 (hex_digits up (S n) v) = (v, []).
Proof.
  intros Hv Hn. unfold strtoul.
  assert (hex_prefix (hex_digits up (S n) v) = None) as Hp.
  { destruct n as [|n]; [done|]. cbn [hex_digits hex_prefix].
    destruct (hex_char_spec up (v / 16 ^ Z.of_nat n)) as (_ & _ & _ & _ & -> & -> & _).
    rewrite andb_false_r. simpl. by destruct (hex_digits up n v). }
  assert (skip_space (hex_digits up (S n) v) = hex_digits up (S n) v) as ->.
  { cbn [hex_digits skip_space]. by destruct (hex_char_spec up (v / 16 ^ Z.of_nat n)) as (_ & -> & _). }
  pose proof (digits_hex up (S n) v 0 ltac:(lia)) as Hd. cbn [hex_digits] in *.
  destruct (hex_char_spec up (v / 16 ^ Z.of_nat n)) as (H1 & _ & H3 & H4 & _).
  rewrite H3, H4, Hp. cbn [Z.eqb]. unfold digit at 1. rewrite H1.
  pose proof (Z.mod_pos_bound (v / 16 ^ Z.of_nat n) 16 ltac:(lia)).
  replace (_ <? 16) with true by lia. rewrite Hd, Z.mul_0_l, Z.add_0_l, Z.mod_small by lia.
  replace (UINT64_MAX <? v) with false by (unfold UINT64_MAX; lia). done.
Qed.
Lemma parse_hex_text n v : (1 <= n)%nat -> 0 <= v < 16 ^ Z.of_nat n -> 16 ^ Z.of_nat n <= 2 ^ 64 ->
  parse_hex ("0x" +:+ string_of_list_ascii (hex_digits true n v)) = Some v.
Proof.
  intros Hn Hv Hb. destruct n as [|n]; [lia|]. unfold parse_hex.
  assert (forall s, list_ascii_of_string ("0x" +:+ s) = "0"%char :: "x"%char :: list_ascii_of_string s) as -> by done.
  rewrite list_ascii_of_string_of_list_ascii. pose proof (strtoul_hex true n v Hv Hb) as Hs.
  pose proof (c_str_hex true (S n) v) as Hc. set (D := hex_digits true (S n) v) in *.
  assert (Nat.ltb 2 (String.length ("0x" +:+ string_of_list_ascii D)) = true) as -> by done.
  change (String.eqb ("0x" +:+ string_of_list_ascii D) "") with false. clearbody D.
  assert (c_str ("0"%char :: "x"%char :: D) = "0"%char :: "x"%char :: D) as ->
    by (change (c_str ("0"%char :: "x"%char :: D)) with ("0"%char :: "x"%char :: c_str D); by rewrite Hc).
  change (drop 2 ("0"%char :: "x"%char :: D)) with D. simpl. by rewrite Hs.
Qed.

(** ** Ranges of parsed numbers *)
Lemma hex_digit_nonneg c d : hex_digit c = Some d -> 0 <= d.
Proof. unfold hex_digit. repeat case_match; intros [= <-]; lia. Qed.
Lemma digits_nonneg b s v : 0 <= b -> 0 <= v -> 0 <= (digits b s v).1.
Proof.
  intros Hb. revert v. induction s as [|c s IH]; intros v Hv; [done|]. simpl.
  destruct (digit b c) as [d|] eqn:E; [|done]. apply IH. unfold digit in E. destruct (hex_digit c) as [d'|] eqn:Eh; [|done].
  pose proof (hex_digit_nonneg c d' Eh). destruct (d' <? b); [|done]. injection E as <-. nia.
Qed.
Lemma strtoul_nonneg b s : 0 <= b -> 0 <= (strtoul b s).1.
Proof.
  intros Hb. unfold strtoul. destruct (match skip_space s with [] => _ | _ => _ end) as [neg s2].
  destruct (match hex_prefix s2 with Some _ => _ | None => _ end) as [b' s3] eqn:E.
  assert (0 <= b') as Hb'.
  { destruct (hex_prefix s2); [destruct (_ || _); by injection E as <- <-|].
    destruct (b =? 0); injection E as <- <-; [|done]. destruct s2 as [|c ?]; [done|]. by destruct (Ascii.eqb c "0"). }
  destruct s3 as [|c s3]; [done|]. destruct (digit b' c); [|done].
  pose proof (digits_nonneg b' (c :: s3) 0 Hb' ltac:(lia)). destruct (digits b' (c :: s3) 0) as [v rest]. simpl in *.
  destruct (UINT64_MAX <? v); [done|]. destruct neg; [apply u64_range|done].
Qed.
Lemma parse_hex_nonneg s v : parse_hex s = Some v -> 0 <= v.
Proof.
  unfold parse_hex. destruct (String.eqb s ""); [done|].
  destruct (if _ && _ && _ then _ else _) as [v' rest] eqn:E. destruct rest; [|done]. intros [= <-].
  destruct (_ && _ && _); [pose proof (strtoul_nonneg 16 (drop 2 (c_str (list_ascii_of_string s))) ltac:(lia)) as H
                          |pose proof (strtoul_nonneg 0 (c_str (list_ascii_of_string s)) ltac:(lia)) as H];
    by rewrite E in H.
Qed.
Lemma hex_byte_nonneg s n v : 0 <= v -> 0 <= hex_byte s n v.
Proof.
  revert s v. induction n as [|n IH]; intros s v Hv; [by destruct s|]. destruct s as [|c s]; simpl; [lia|].
  destruct (hex_digit c) as [d|] eqn:E; [|lia]. apply IH. apply Z.lor_nonneg.
  split; [apply u32_range|by eapply hex_digit_nonneg].
Qed.
Lemma pack_bdf_range s : 0 <= pack_bdf s < 2 ^ 13.
Proof.
  unfold pack_bdf. destruct (negb _); [lia|]. destruct (negb _); [lia|]. cbv zeta.
  set (bus := hex_byte _ 4 0). set (dev := hex_byte _ 2 0). set (func := hex_byte (drop 8 _) 2 0).
  assert (0 <= bus /\ 0 <= dev /\ 0 <= func) as (? & ? & ?) by (repeat split; by apply hex_byte_nonneg).
  destruct (_ || _); [lia|]. destruct ((31 <? bus) || (31 <? dev) || (7 <? func)) eqn:E; [lia|].
  assert (0 <= Z.lor (Z.lor (Z.shiftl bus 8) (Z.shiftl dev 3)) func < 2 ^ 13) as Hr.
  { rewrite !Z.shiftl_mul_pow2 by lia. apply lor_range; [lia| |lia]. apply lor_range; lia. }
  rewrite u16_id by lia. exact Hr.
Qed.

(** ** What loading accepts is well-formed *)
Lemma bind_guard {A} b (m : option A) v : (guard_some b;; m) = Some v -> b = true /\ m = Some v.
Proof. by destruct b. Qed.
Lemma seen_spec i l : seen i l = false <-> i ∉ l.
Proof.
  unfold seen. rewrite <- not_true_iff_false, existsb_exists. split.
  - intros H Hi. apply H. exists i. split; [by apply list_elem_of_In|apply Z.eqb_refl].
  - intros H (x & Hx & ->%Z.eqb_eq). by apply H, list_elem_of_In.
Qed.
Lemma assoc_words k l v : json_words (JObject l) -> assoc k l = Some v -> json_words v.
Proof.
  induction l as [|[k' v'] l IH]; simpl; [done|]. intros [Hv Hl]. destruct (String.eqb k k'); [|by apply IH].
  by intros [= <-].
Qed.
Lemma member_words k j v : json_words j -> member k j = Some v -> json_words v.
Proof. destruct j; try done. apply assoc_words. Qed.
Lemma array_words l : json_words (JArray l) -> Forall json_words l.
Proof. induction l as [|j l IH]; simpl; [constructor|]. intros [Hj Hl]. constructor; auto. Qed.

Lemma load_bar_ok bar seen_idx tb seen' : json_words bar -> load_bar bar seen_idx = Some (tb, seen') ->
  bar_ok tb /\ NoDup (slots tb) /\ (forall x, x ∈ slots tb -> x ∉ seen_idx) /\ (forall x, x ∈ seen' <-> x ∈ slots tb \/ x ∈ seen_idx).
Proof.
  intros Hw H. unfold load_bar in H. apply bind_Some in H as (l & Hl & H). apply bind_guard in H as [_ H].
  apply bind_Some in H as (z & _ & H). cbv zeta in H. set (idx := s32 z) in *. clearbody idx.
  apply bind_guard in H as [Hi H]. apply bind_guard in H as [Hs H]. apply negb_true_iff, seen_spec in Hs.
  apply bind_Some in H as (size & Hsize & H). apply bind_guard in H as [Hz H].
  apply bind_Some in H as (pre & _ & H). apply bind_Some in H as (mmio & _ & H). apply bind_Some in H as (wide & _ & H).
  assert (0 <= size < 2 ^ 64) as Hb.
  { apply bind_Some in Hsize as (v & Hv & Hu). pose proof (member_words _ _ _ Hw Hv) as Hvw.
    destruct v; try done. injection Hu as ->. exact Hvw. }
  destruct wide; apply bind_Some in H as (seen2 & Hseen & H); injection H as <- <-.
  - apply bind_guard in Hseen as [H5 Hseen]. apply bind_guard in Hseen as [Hn Hseen]. injection Hseen as <-.
    apply negb_true_iff, seen_spec in Hn. unfold bar_ok, slots. simpl.
    split; [split; [lia|]; split; [lia|]; intros _; lia|]. split.
    + constructor; [|apply NoDup_singleton]. rewrite list_elem_of_singleton. lia.
    + split; intros x; set_solver.
  - injection Hseen as <-. unfold bar_ok, slots. simpl. split; [split; [lia|]; split; [lia|done]|].
    split; [apply NoDup_singleton|]. split; intros x; set_solver.
Qed.
Lemma load_bars_ok bars seen_idx tbs : Forall json_words bars -> load_bars bars seen_idx = Some tbs ->
  Forall bar_ok tbs /\ NoDup (tbs ≫= slots) /\ (forall x, x ∈ tbs ≫= slots -> x ∉ seen_idx) /\ length tbs = length bars.
Proof.
  revert seen_idx tbs. induction bars as [|b bars IH]; intros seen_idx tbs Hw H; simpl in H.
  - injection H as <-. repeat split; [constructor..|set_solver].
  - apply Forall_cons in Hw as [Hb Hw]. apply bind_Some in H as ([tb seen2] & Hl & H).
    apply bind_Some in H as (l & Hr & H). injection H as <-. destruct (load_bar_ok _ _ _ _ Hb Hl) as (H1 & H2 & H3 & H4).
    destruct (IH _ _ Hw Hr) as (I1 & I2 & I3 & I4). split; [by constructor|].
    change ((tb :: l) ≫= slots) with (slots tb ++ (l ≫= slots)). split; [|split; [|simpl; lia]].
    + apply NoDup_app. split; [done|]. split; [|done]. intros x Hx Hx'. apply (I3 x Hx'). apply H4. by left.
    + intros x [Hx|Hx]%elem_of_app; [by apply H3|]. intros Hs. apply (I3 x Hx), H4. by right.
Qed.
Lemma c_str_no_nul s : Forall (fun c => c <> zero) (c_str s).
Proof.
  induction s as [|c s IH]; simpl; [constructor|]. destruct (Ascii.eqb c zero) eqn:E; constructor; [|done].
  by apply Ascii.eqb_neq.
Qed.
Lemma length_ascii s : length (list_ascii_of_string s) = String.length s.
Proof. induction s as [|c s IH]; simpl; [done|by rewrite IH]. Qed.
Lemma to_kind_ok s : (String.length (to_kind s) <= 31)%nat /\ no_nul (to_kind s).
Proof.
  unfold to_kind, no_nul. rewrite list_ascii_of_string_of_list_ascii. split.
  - rewrite <- length_ascii, list_ascii_of_string_of_list_ascii, length_take. lia.
  - apply Forall_take, c_str_no_nul.
Qed.
Lemma parse_u16_range s v : parse_hex_u16 s = Some v -> is_u16 v.
Proof.
  unfold parse_hex_u16. intros (w & Hw & H)%bind_Some. pose proof (parse_hex_nonneg s w Hw).
  destruct (Z.ltb_spec 0xFFFF w); [done|]. injection H as <-. lia.
Qed.
Lemma parse_u32_range s v : parse_hex_u32 s = Some v -> is_u32 v.
Proof. unfold parse_hex_u32. intros (w & _ & [= <-])%bind_Some. apply u32_range. Qed.
Lemma array_member_words k j l : json_words j -> (member k j ≫= get_array) = Some l -> Forall json_words l.
Proof.
  intros Hw (v & Hv & Hg)%bind_Some. pose proof (member_words _ _ _ Hw Hv) as Hvw.
  destruct v; try done. injection Hg as <-. by apply array_words.
Qed.
Lemma load_device_ok dev seen_bdfs td seen' : json_words dev -> load_device dev seen_bdfs = Some (td, seen') -> device_ok td.
Proof.
  intros Hw H. unfold load_device in H. apply bind_Some in H as (l & _ & H). apply bind_guard in H as [_ H].
  apply bind_Some in H as (bdf & _ & H). apply bind_guard in H as [_ H]. apply bind_guard in H as [_ H]. cbv zeta in H.
  pose proof (pack_bdf_range bdf) as Hp. set (packed := pack_bdf bdf) in *. clearbody packed. apply bind_guard in H as [_ H].
  apply bind_Some in H as (vs & _ & H). apply bind_Some in H as (ds & _ & H).
  apply bind_Some in H as (v & Hv%parse_u16_range & H). apply bind_Some in H as (d & Hd%parse_u16_range & H).
  apply bind_Some in H as (cs & _ & H). apply bind_Some in H as (c & Hc%parse_u32_range & H).
  apply bind_Some in H as (ek & _ & H). apply bind_guard in H as [_ H].
  apply bind_Some in H as (bars & Hbars & H). apply bind_guard in H as [Hn H]. apply bind_Some in H as (tbs & Htbs & H).
  injection H as <- _. apply array_member_words in Hbars; [|done].
  destruct (load_bars_ok _ _ _ Hbars Htbs) as (H1 & H2 & _ & H4). apply Nat.leb_le in Hn.
  split; simpl; try done; [apply to_kind_ok|lia].
Qed.
Lemma load_devices_ok devs seen_bdfs tds : Forall json_words devs -> load_devices devs seen_bdfs = Some tds ->
  Forall device_ok tds /\ length tds = length devs.
Proof.
  revert seen_bdfs tds. induction devs as [|d devs IH]; intros seen_bdfs tds Hw H; simpl in H.
  - injection H as <-. split; [constructor|done].
  - apply Forall_cons in Hw as [Hd Hw]. apply bind_Some in H as ([td seen2] & Hl & H).
    apply bind_Some in H as (l & Hr & H). injection H as <-. destruct (IH _ _ Hw Hr) as [I1 I2].
    split; [constructor; [by eapply load_device_ok|done]|simpl; lia].
Qed.

Lemma load_document_ok j t : json_words j -> load_document j = Some t -> topology_ok t.
Proof.
  intros Hw H. unfold load_document in H. apply bind_Some in H as (l & _ & H). apply bind_guard in H as [_ H].
  apply bind_Some in H as (version & _ & H). apply bind_guard in H as [_ H].
  apply bind_Some in H as (platform & _ & H). apply bind_guard in H as [Hp H].
  apply bind_Some in H as (pcie & _ & H). apply bind_Some in H as (pl & _ & H). apply bind_guard in H as [_ H].
  apply bind_Some in H as (rc & _ & H). apply bind_Some in H as (root & _ & H).
  apply bind_Some in H as (bm & _ & H). apply bind_Some in H as (mode & _ & H). apply bind_Some in H as (policy & _ & H).
  apply bind_guard in H as [_ H]. apply bind_guard in H as [_ H].
  apply bind_Some in H as (devs & Hdevs & H). apply bind_guard in H as [Hn H]. apply bind_Some in H as (tds & Htds & H).
  injection H as <-. apply array_member_words in Hdevs; [|done]. destruct (load_devices_ok _ _ _ Hdevs Htds) as [H1 H2].
  apply Nat.leb_le in Hn. apply negb_true_iff, String.eqb_neq in Hp. split; simpl; [done|done|lia|done].
Qed.

(** C23. Whatever parsed document is in the file, a topology that loading
    accepts is well-formed: 1 to 16 bits wide identifiers, a bus, device and
    function within their ranges, kinds of at most 31 characters, at most 16
    devices of at most 6 non-empty BARs each, no two of which share a BAR
    register, the second half of a 64-bit BAR included; otherwise the answer is
    -ENOENT for a file that cannot be opened and -EINVAL for anything else, and
    nothing is stored. *)
Theorem topology_load_typed path f : (forall j, f = Parsed j -> json_words j) ->
  match topology_load_json path true f with
  | (ret, Some t) => ret = 0 /\ topology_ok t
  | (ret, None) => ret = (if negb (String.eqb path "") && match f with CannotOpen => true | _ => false end then - ENOENT else - EINVAL)
  end.
Proof.
  intros Hw. unfold topology_load_json. cbn [negb]. destruct (String.eqb path ""); [done|].
  destruct f as [| |j]; [done|done|]. specialize (Hw j eq_refl). destruct (load_document j) as [t|] eqn:H; [|done].
  split; [done|]. by eapply load_document_ok.
Qed.

(** ** Writing and loading again *)
Definition slots_seen (b : TopologyBar) (seen_idx : list Z) : list Z := reverse (slots b) ++ seen_idx.
Lemma s32_small i : 0 <= i <= 5 -> s32 i = i.
Proof. intros. unfold s32. rewrite u32_id by lia. by destruct (Z.ltb_spec i (2 ^ 31)); [|lia]. Qed.
Lemma reload_bar b seen_idx : bar_ok b -> (forall x, x ∈ slots b -> x ∉ seen_idx) ->
  load_bar (reparse (write_bar b)) seen_idx = Some (b, slots_seen b seen_idx).
Proof.
  intros ([H0 H5] & Hs & Hw) Hd. destruct b as [i n p m w]. unfold slots_seen, slots in *. simpl in *.
  replace (0 <=? i) with true by lia. unfold load_bar. cbn [get_object mbind option_bind].
  pose proof (s32_small i ltac:(lia)) as Hi.
  cbn. rewrite Hi. replace (i <? 0) with false by lia. replace (5 <? i) with false by lia. cbn.
  rewrite (proj2 (seen_spec i seen_idx)) by (apply Hd; destruct w; set_solver). cbn.
  replace (n =? 0) with false by lia. cbn. destruct w; [|done]. cbn.
  assert (i <> 5) by auto. replace (i =? 5) with false by lia. cbn.
  replace (i + 1 =? i) with false by lia. cbn.
  pose proof (proj2 (seen_spec (i + 1) seen_idx)) as Hseen. unfold seen in Hseen. rewrite Hseen by (apply Hd; set_solver).
  done.
Qed.
Lemma reload_bars bars seen_idx : Forall bar_ok bars -> NoDup (bars ≫= slots) ->
  (forall x, x ∈ bars ≫= slots -> x ∉ seen_idx) -> load_bars (map reparse (write_bar <$> bars)) seen_idx = Some bars.
Proof.
  revert seen_idx. induction bars as [|b bars IH]; intros seen_idx Hok Hnd Hd; [done|].
  apply Forall_cons in Hok as [Hb Hok]. change ((b :: bars) ≫= slots) with (slots b ++ (bars ≫= slots)) in *.
  apply NoDup_app in Hnd as (_ & Hx & Hnd).
  change (map reparse (write_bar <$> b :: bars)) with (reparse (write_bar b) :: map reparse (write_bar <$> bars)).
  cbn [load_bars]. rewrite reload_bar; [|done|intros; apply Hd; set_solver]. cbn [mbind option_bind].
  rewrite IH; [done|done|done|]. intros x Hxb. unfold slots_seen. rewrite elem_of_app, elem_of_reverse.
  intros [Hxs|Hxs]; [by apply (Hx x)|]. apply (Hd x); [|done]. set_solver.
Qed.
Lemma hex_u16_reload v : is_u16 v -> parse_hex_u16 (hex_u16 v) = Some v.
Proof.
  intros Hv. unfold parse_hex_u16, hex_u16. rewrite parse_hex_text by (simpl; lia). simpl.
  by destruct (Z.ltb_spec 65535 v); [lia|].
Qed.
Lemma hex_u32_reload v : is_u32 v -> parse_hex_u32 (hex_u32 v) = Some v.
Proof. intros Hv. unfold parse_hex_u32, hex_u32. rewrite parse_hex_text by (simpl; lia). simpl. by rewrite u32_id. Qed.
Lemma bdf_reload p : 0 <= p < 2 ^ 13 -> pack_bdf (bdf_to_str p) = p /\ String.length (bdf_to_str p) = kBdfStrLen /\
  (p = 0 -> bdf_to_str p = "0000:00:00.0").
Proof.
  intros Hp. assert (forallb (fun p => (pack_bdf (bdf_to_str p) =? p) && Nat.eqb (String.length (bdf_to_str p)) kBdfStrLen)
    (seqZ 0 8192) = true) as H by (vm_compute; reflexivity).
  rewrite forallb_forall in H. specialize (H p). rewrite andb_true_iff, Z.eqb_eq, Nat.eqb_eq in H.
  destruct H as [H1 H2]; [apply list_elem_of_In, elem_of_seqZ; lia|]. split; [done|]. split; [done|]. by intros ->.
Qed.
Lemma c_str_id s : Forall (fun c => c <> zero) s -> c_str s = s.
Proof.
  induction 1 as [|c s Hc Hs IH]; [done|]. simpl. apply Ascii.eqb_neq in Hc. by rewrite Hc, IH.
Qed.
Lemma to_kind_id s : (String.length s <= 31)%nat -> no_nul s -> to_kind s = s.
Proof.
  intros Hl Hn. unfold to_kind. rewrite c_str_id by done. rewrite take_ge by (rewrite length_ascii; lia).
  apply string_of_list_ascii_of_string.
Qed.
Lemma guard_true {A} b (m : option A) : b = true -> (guard_some b;; m) = m.
Proof. by intros ->. Qed.
Lemma reload_device d seen_bdfs : device_ok d -> endpoint_kind d <> "" -> bdf_to_str (td_bdf d) ∉ seen_bdfs ->
  load_device (reparse (write_device d)) seen_bdfs = Some (d, bdf_to_str (td_bdf d) :: seen_bdfs).
Proof.
  intros Hd Hk Hs. destruct (do_kind d Hd) as [Hkl Hkn]. destruct (bdf_reload (td_bdf d) (do_bdf d Hd)) as (Hb & Hlen & Hz).
  set (J := reparse (write_device d)).
  assert (exists l, get_object J = Some l /\ keys_allowed kAllowedDeviceKeys l = true) as (l & Hl & Hkeys) by by eexists.
  assert ((member "bdf" J ≫= get_string) = Some (bdf_to_str (td_bdf d)) /\
    (member "vendor_id" J ≫= get_string) = Some (hex_u16 (td_vendor_id d)) /\
    (member "device_id" J ≫= get_string) = Some (hex_u16 (td_device_id d)) /\
    (member "class_code" J ≫= get_string) = Some (hex_u32 (class_code d)) /\
    (member "endpoint_kind" J ≫= get_string) = Some (endpoint_kind d) /\
    (member "bars" J ≫= get_array) = Some (map reparse (write_bar <$> td_bars d))) as (H1 & H2 & H3 & H4 & H5 & H6) by done.
  clearbody J. unfold load_device. rewrite Hl. cbn [mbind option_bind]. rewrite guard_true by done. rewrite H1.
  cbn [mbind option_bind]. rewrite guard_true by (apply Nat.eqb_eq; done).
  rewrite guard_true.
  2: { apply negb_true_iff, not_true_iff_false. rewrite existsb_exists. intros (x & Hx & Hxe). apply String.eqb_eq in Hxe. rewrite <- Hxe in Hx. by apply Hs, list_elem_of_In. }
  cbv zeta. rewrite Hb. rewrite guard_true.
  2: { apply negb_true_iff. destruct (Z.eqb_spec (td_bdf d) 0) as [E|]; [|done]. by rewrite Hz. }
  rewrite H2. cbn [mbind option_bind]. rewrite H3. cbn [mbind option_bind].
  rewrite !hex_u16_reload by apply Hd. cbn [mbind option_bind].
  rewrite H4. cbn [mbind option_bind]. rewrite hex_u32_reload by apply Hd. cbn [mbind option_bind].
  rewrite H5. cbn [mbind option_bind]. rewrite guard_true by (by apply negb_true_iff, String.eqb_neq).
  rewrite H6. cbn [mbind option_bind].
  rewrite guard_true by (apply Nat.leb_le; rewrite length_map, length_fmap; apply Hd).
  rewrite reload_bars by (apply Hd || (intros; set_solver)). cbn [mbind option_bind]. rewrite to_kind_id by done.
  by destruct d.
Qed.
Lemma bdf_text_inj p q : 0 <= p < 2 ^ 13 -> 0 <= q < 2 ^ 13 -> bdf_to_str p = bdf_to_str q -> p = q.
Proof. intros Hp Hq H. destruct (bdf_reload p Hp) as [<- _]. rewrite H. by destruct (bdf_reload q Hq) as [-> _]. Qed.
Lemma reload_devices ds seen_bdfs : Forall device_ok ds -> Forall (fun d => endpoint_kind d <> "") ds ->
  NoDup (td_bdf <$> ds) -> (forall d, d ∈ ds -> bdf_to_str (td_bdf d) ∉ seen_bdfs) ->
  load_devices (map reparse (write_device <$> ds)) seen_bdfs = Some ds.
Proof.
  revert seen_bdfs. induction ds as [|d ds IH]; intros seen_bdfs Hok Hk Hnd Hs; [done|].
  apply Forall_cons in Hok as [Hd Hok]. apply Forall_cons in Hk as [Hkd Hk]. rewrite fmap_cons in Hnd.
  apply NoDup_cons in Hnd as [Hx Hnd].
  change (map reparse (write_device <$> d :: ds)) with (reparse (write_device d) :: map reparse (write_device <$> ds)).
  cbn [load_devices]. rewrite reload_device; [|done|done|apply Hs; by left]. cbn [mbind option_bind].
  rewrite IH; [done|done|done|done|]. intros d' Hd'. apply not_elem_of_cons. split; [|apply Hs; by right].
  intros Heq%bdf_text_inj; [|by eapply do_bdf, Forall_forall|apply Hd]. apply Hx. rewrite <- Heq. by apply list_elem_of_fmap_2.
Qed.

(** C39. A well-formed topology of distinct devices with non-empty kinds,
    written and read back, is loaded unchanged. *)
Theorem topology_write_load t path : topology_ok t -> NoDup (td_bdf <$> devices t) ->
  Forall (fun d => endpoint_kind d <> "") (devices t) -> path <> "" ->
  exists j, topology_write_default_json path true (Some t) = (0, Some j) /\
    topology_load_json path true (Parsed (reparse j)) = (0, Some t).
Proof.
  intros [Hv Hp Hn Hd] Hnd Hk Hpath%String.eqb_neq. exists (write_document t). unfold topology_write_default_json, topology_load_json.
  rewrite Hpath. split; [done|]. cbn [negb].
  assert (load_document (reparse (write_document t)) = Some t) as ->; [|done].
  set (J := reparse (write_document t)).
  assert (exists l, get_object J = Some l /\ keys_allowed kAllowedTopKeys l = true) as (l & Hl & Hkeys) by by eexists.
  assert (exists pcie pl rc bm, member "pcie" J = Some pcie /\ get_object pcie = Some pl /\ keys_allowed kAllowedPcieKeys pl = true /\
    member "root_complex" pcie = Some rc /\ (member "enabled" rc ≫= get_bool) = Some (enable_root_complex t) /\
    member "bypass_mux" pcie = Some bm /\ (member "default_mode" bm ≫= get_string) = Some (mode_text (default_bypass_mode t)) /\
    (member "default_drain_policy" bm ≫= get_string) = Some (policy_text (default_drain_policy t)) /\
    lenient_enabled "link_layer" pcie true = enable_link_layer t /\ lenient_enabled "phy" pcie false = enable_phy t)
    as (pcie & pl & rc & bm & H1 & H2 & H3 & H4 & H5 & H6 & H7 & H8 & H9 & H10) by by do 4 eexists.
  assert ((member "schema_version" J ≫= get_integer) = Some 1 /\ (member "platform" J ≫= get_string) = Some (platform_name t) /\
    (member "devices" J ≫= get_array) = Some (map reparse (write_device <$> devices t))) as (H11 & H12 & H13) by done.
  clearbody J. unfold load_document. rewrite Hl. cbn [mbind option_bind]. rewrite guard_true by done.
  rewrite H11. cbn [mbind option_bind]. rewrite guard_true by done. rewrite H12. cbn [mbind option_bind].
  rewrite guard_true by (by apply negb_true_iff, String.eqb_neq). rewrite H1. cbn [mbind option_bind].
  rewrite H2. cbn [mbind option_bind]. rewrite guard_true by done. rewrite H4. cbn [mbind option_bind].
  rewrite H5. cbn [mbind option_bind]. rewrite H6. cbn [mbind option_bind]. rewrite H7. cbn [mbind option_bind].
  rewrite H8. cbn [mbind option_bind]. rewrite guard_true by (by destruct (default_bypass_mode t)).
  rewrite guard_true by (by destruct (default_drain_policy t)). rewrite H13. cbn [mbind option_bind].
  rewrite guard_true by (apply Nat.leb_le; by rewrite length_map, length_fmap).
  rewrite reload_devices by (done || (intros; set_solver)). cbn [mbind option_bind]. rewrite H9, H10.
  destruct t as [? ? ? ? ? m p ?]. simpl in *. subst. by destruct m, p.
Qed.

(** ** Where the BARs go *)
Fixpoint bar_bases (bars : list TopologyBar) (mmio_base io_base : Z) : list Z :=
  match bars with
  | [] => []
  | b :: bars' => if tb_is_mmio b then mmio_base :: bar_bases bars' (mmio_base + size_bytes b) io_base
                  else io_base :: bar_bases bars' mmio_base (io_base + size_bytes b)
  end.
Definition total (m : bool) (bars : list TopologyBar) : Z :=
  fold_right (fun b t => (if eqb (tb_is_mmio b) m then size_bytes b else 0) + t) 0 bars.
Definition bar_register (base : Z) (m : bool) : Z :=
  if m then u32 (Z.land base 0xFFFFFFF0) else Z.lor (u32 (Z.land base 0xFFFFFFFC)) 1.

Lemma total_nonneg m bars : Forall bar_ok bars -> 0 <= total m bars.
Proof. induction 1 as [|b bars (_ & Hs & _) _ IH]; simpl; [done|]. destruct (eqb _ _); lia. Qed.
Lemma indexes_nodup bars : NoDup (bars ≫= slots) -> NoDup (tb_index <$> bars).
Proof.
  induction bars as [|b bars IH]; [done|]. change ((b :: bars) ≫= slots) with (slots b ++ (bars ≫= slots)).
  intros (_ & Hd & Hn)%NoDup_app. rewrite fmap_cons. apply NoDup_cons. split; [|by apply IH].
  intros (b' & Hb & Hin)%list_elem_of_fmap. apply (Hd (tb_index b)); [unfold slots; destruct (is_64bit b); set_solver|].
  apply list_elem_of_bind. exists b'. split; [|done]. rewrite Hb. unfold slots. destruct (is_64bit b'); set_solver.
Qed.
(** The registers and the recorded range of a BAR. *)
Record bar_at (i base size : Z) (m : bool) (e : PcieEmuImpl) : Prop := {
  ba_address : get_bar_address i e = base; ba_size : get_bar_size i e = size;
  ba_register : read_config_dword (PCI_CFG_BAR0 + i * 4) e = bar_register base m
}.
Lemma bar_offset i : 0 <= i <= 5 -> u16 (PCI_CFG_BAR0 + i * 4) = PCI_CFG_BAR0 + i * 4.
Proof. intros. unfold PCI_CFG_BAR0. word. Qed.
Lemma bar_register_range base m : 0 <= bar_register base m < 2 ^ 32.
Proof. unfold bar_register. destruct m; [apply u32_range|]. apply lor_range; [lia|apply u32_range|lia]. Qed.
Lemma assign_bar_at i base size m e : 0 <= i <= 5 -> length (bars_ e) = 6%nat ->
  let e' := assign_bar i base size m e in
  bar_at i base size m e' /\ length (bars_ e') = 6%nat /\
  (forall j base' size' m', 0 <= j <= 5 -> j <> i -> bar_at j base' size' m' e -> bar_at j base' size' m' e').
Proof.
  intros Hi Hlen e'.
  assert (config_space_ e' = config_space_ (config_write DWORD (PCI_CFG_BAR0 + i * 4) (bar_register base m) e) /\
    bars_ e' = <[Z.to_nat i := mk_pci_bar base size m (0 <? size)]> (bars_ e)) as [Hc Hb].
  { unfold e', assign_bar. replace (i <? 0) with false by lia. replace (6 <=? i) with false by lia. cbn [orb].
    rewrite bar_offset by done. unfold bar_register.
    rewrite config_write_in by (unfold in_config, PCI_CONFIG_SPACE_SIZE, PCI_CFG_BAR0; simpl; lia).
    assert (forall v q, write_config_dword (PCI_CFG_BAR0 + i * 4) v q = cfg_put (PCI_CFG_BAR0 + i * 4) 4 v q) as Hw
      by (intros; apply (config_write_in DWORD); unfold in_config, PCI_CONFIG_SPACE_SIZE, PCI_CFG_BAR0; simpl; lia).
    rewrite !Hw. destruct m; destruct ((i =? 0) && (0 <? size)); [done| |done|];
      by destruct ((i =? 1) && (0 <? size)). }
  assert (forall j, 0 <= j <= 5 -> read_config_dword (PCI_CFG_BAR0 + j * 4) e' =
    if j =? i then bar_register base m else read_config_dword (PCI_CFG_BAR0 + j * 4) e) as Hr.
  { intros j Hj. assert (forall q, read_config_dword (PCI_CFG_BAR0 + j * 4) q = cfg_get (PCI_CFG_BAR0 + j * 4) 4 q) as Hg
      by (intros; apply (config_read_in DWORD); unfold in_config, PCI_CONFIG_SPACE_SIZE, PCI_CFG_BAR0; simpl; lia).
    rewrite !Hg. assert (cfg_get (PCI_CFG_BAR0 + j * 4) 4 e' = cfg_get (PCI_CFG_BAR0 + j * 4) 4
      (config_write DWORD (PCI_CFG_BAR0 + i * 4) (bar_register base m) e)) as -> by (unfold cfg_get; by rewrite Hc).
    destruct (Z.eqb_spec j i) as [->|Hne].
    - rewrite config_write_in by (unfold in_config, PCI_CONFIG_SPACE_SIZE, PCI_CFG_BAR0; simpl; lia).
      rewrite cfg_get_put. apply Z.mod_small, bar_register_range.
    - unfold cfg_get. f_equal. apply peek_ext. intros a Ha. apply config_write_frame; unfold PCI_CFG_BAR0 in *; simpl bytes_of; lia. }
  split; [|split; [by rewrite Hb, length_insert|]].
  - split; unfold get_bar_address, get_bar_size; [..|by rewrite Hr, Z.eqb_refl];
      replace (i <? 0) with false by lia; replace (6 <=? i) with false by lia; cbn [orb];
      by rewrite Hb, list_lookup_insert_eq by lia.
  - intros j base' size' m' Hj Hne [H1 H2 H3]. unfold get_bar_address, get_bar_size in *.
    split; unfold get_bar_address, get_bar_size; [rewrite Hb, list_lookup_insert_ne by lia; done..|].
    rewrite Hr by done. by replace (j =? i) with false by lia.
Qed.
Lemma assign_loop_at bars mm io e : Forall bar_ok bars -> NoDup (tb_index <$> bars) -> length (bars_ e) = 6%nat ->
  0 <= mm -> mm + total true bars < 2 ^ 64 -> 0 <= io -> io + total false bars < 2 ^ 64 ->
  let e' := assign_loop bars mm io e in
  (forall k b base, bars !! k = Some b -> bar_bases bars mm io !! k = Some base ->
     bar_at (tb_index b) base (size_bytes b) (tb_is_mmio b) e') /\
  (forall j base size m, 0 <= j <= 5 -> j ∉ tb_index <$> bars -> bar_at j base size m e -> bar_at j base size m e').
Proof.
  revert mm io e. induction bars as [|b bars IH]; intros mm io e Hok Hnd Hlen H1 H2 H3 H4; [by split|].
  apply Forall_cons in Hok as [(Hi & Hs & _) Hok]. rewrite fmap_cons in *. apply NoDup_cons in Hnd as [Hni Hnd].
  cbn [assign_loop bar_bases]. replace (tb_index b <? 0) with false by lia. replace (6 <=? tb_index b) with false by lia.
  replace (size_bytes b =? 0) with false by lia. cbn [orb].
  set (base := if tb_is_mmio b then mm else io). set (e1 := assign_bar (tb_index b) base (size_bytes b) (tb_is_mmio b) e).
  destruct (assign_bar_at (tb_index b) base (size_bytes b) (tb_is_mmio b) e Hi Hlen) as (Hat & Hlen1 & Hother).
  fold e1 in Hat, Hlen1, Hother. set (mm' := if tb_is_mmio b then mm + size_bytes b else mm).
  set (io' := if tb_is_mmio b then io else io + size_bytes b). cbn [total fold_right] in H2, H4.
  fold (total true bars) in H2. fold (total false bars) in H4.
  pose proof (total_nonneg true bars Hok). pose proof (total_nonneg false bars Hok).
  destruct (IH mm' io' e1 Hok Hnd Hlen1) as [IH1 IH2]; [unfold mm', io'; destruct (tb_is_mmio b); simpl in *; lia..|].
  assert ((if tb_is_mmio b then assign_loop bars (u64 (mm + size_bytes b)) io e1
           else assign_loop bars mm (u64 (io + size_bytes b)) e1) = assign_loop bars mm' io' e1) as ->
    by (unfold mm', io'; destruct (tb_is_mmio b); simpl in *; by rewrite u64_id by lia).
  assert ((if tb_is_mmio b then mm :: bar_bases bars (mm + size_bytes b) io else io :: bar_bases bars mm (io + size_bytes b))
    = base :: bar_bases bars mm' io') as -> by (unfold base, mm', io'; by destruct (tb_is_mmio b)).
  split.
  - intros [|k] b' base' Hb Hbase; [|by eapply IH1]. injection Hb as <-. injection Hbase as <-. by apply IH2.
  - intros j base' size m Hj [Hne Hj']%not_elem_of_cons Hold. apply IH2; [done|done|]. by apply Hother.
Qed.
Lemma bar_bases_order bars mm io : Forall bar_ok bars -> forall k l b b' base base', (k < l)%nat ->
  bars !! k = Some b -> bars !! l = Some b' -> bar_bases bars mm io !! k = Some base -> bar_bases bars mm io !! l = Some base' ->
  tb_is_mmio b = tb_is_mmio b' -> base + size_bytes b <= base'.
Proof.
  assert (forall bars mm io, Forall bar_ok bars -> forall l b base, bars !! l = Some b -> bar_bases bars mm io !! l = Some base ->
    (if tb_is_mmio b then mm else io) <= base) as Hge.
  { clear. intros bars. induction bars as [|b bars IH]; intros mm io Hok l b' base; [done|].
    apply Forall_cons in Hok as [(_ & Hs & _) Hok]. destruct l as [|l]; simpl.
    - intros [= ->]. by destruct (tb_is_mmio b'); intros [= <-].
    - intros Hl. destruct (tb_is_mmio b); simpl; intros Hb; generalize (IH _ _ Hok _ _ _ Hl Hb); destruct (tb_is_mmio b'); lia. }
  revert mm io. induction bars as [|b0 bars IH]; intros mm io Hok k l b b' base base' Hkl; [done|].
  apply Forall_cons in Hok as [_ Hok]. destruct l as [|l]; [lia|]. destruct k as [|k]; simpl.
  - intros [= ->] Hl. destruct (tb_is_mmio b) eqn:Em; simpl; intros [= <-] Hb' Hm;
      pose proof (Hge _ _ _ Hok _ _ _ Hl Hb') as H; rewrite <- Hm in H; lia.
  - intros Hk Hl. destruct (tb_is_mmio b0); simpl; intros Hb Hb' Hm; (eapply (IH _ _ Hok k l); [lia|done..]).
Qed.

(** For a device of a loadable topology whose BARs fit below 2^64, the BARs
    are packed in the order of the file from 0xF0000000 (memory) and 0xE000
    (ports), so BARs of a kind never overlap; each is recorded with its base
    and size, and its configuration register shows the low 32 bits of the base
    with the type bits; an unknown device gets -ENOENT and no BARs. *)
Theorem bar_assignment_exact emu dev path j t : json_words j -> length (bars_ emu) = 6%nat ->
  topology_load_json path true (Parsed j) = (0, Some t) ->
  match List.find (matches dev) (devices t) with
  | None => pci_bus_assign_resources (Some emu) (Some dev) (Some path) (Parsed j) = (- ENOENT, Some emu)
  | Some td => MMIO_BASE + total true (td_bars td) < 2 ^ 64 -> IO_BASE + total false (td_bars td) < 2 ^ 64 ->
      exists e, pci_bus_assign_resources (Some emu) (Some dev) (Some path) (Parsed j) = (0, Some e) /\
        let bases := bar_bases (td_bars td) MMIO_BASE IO_BASE in
        (forall k b base, td_bars td !! k = Some b -> bases !! k = Some base ->
           get_bar_address (tb_index b) e = base /\ get_bar_size (tb_index b) e = size_bytes b /\
           read_config_dword (PCI_CFG_BAR0 + tb_index b * 4) e = bar_register base (tb_is_mmio b)) /\
        (forall k l b b' base base', (k < l)%nat -> td_bars td !! k = Some b -> td_bars td !! l = Some b' ->
           bases !! k = Some base -> bases !! l = Some base' -> tb_is_mmio b = tb_is_mmio b' -> base + size_bytes b <= base')
  end.
Proof.
  intros Hw Hlen Hload. unfold pci_bus_assign_resources. rewrite Hload.
  assert (topology_ok t) as Hok.
  { unfold topology_load_json in Hload. cbn [negb] in Hload. destruct (String.eqb path ""); [done|].
    destruct (load_document j) as [t'|] eqn:Hd; [|done]. injection Hload as <-. by eapply load_document_ok. }
  destruct (List.find (matches dev) (devices t)) as [td|] eqn:Hf; [|done].
  apply List.find_some in Hf as [Hin _]. apply list_elem_of_In in Hin.
  pose proof (proj1 (Forall_forall _ _) (to_devices t Hok) td Hin) as Htd. intros H1 H2. eexists. split; [done|].
  destruct (assign_loop_at (td_bars td) MMIO_BASE IO_BASE emu (do_bars td Htd) (indexes_nodup _ (do_slots td Htd)) Hlen)
    as [Hat _]; [done..|]. split.
  - intros k b base Hb Hbase. by destruct (Hat k b base Hb Hbase).
  - apply bar_bases_order, Htd.
Qed.

(** ** Concrete files *)
Definition demo_device : TopologyDevice :=
  mk_tdev 0x118 0x1234 0x5678 0x030000 "PcieEndpointMock" [mk_tbar 0 24 false true true; mk_tbar 2 4096 false true false; mk_tbar 3 256 false false false].
Definition demo_topology : Topology := mk_topo 1 "demo" true true false kPartial kGracefulDrain [demo_device].
Definition demo_json : json := reparse (write_document demo_topology).
Lemma demo_topology_ok : topology_ok demo_topology.
Proof.
  split; [done|done|simpl; unfold kMaxDevices; lia|]. constructor; [|constructor]. split; simpl; try lia.
  - split; [simpl; lia|]. repeat constructor; done.
  - unfold kMaxBarsPerDevice. lia.
  - repeat constructor; simpl; lia || done.
  - apply (bool_decide_unpack _). vm_compute. done.
Qed.
Lemma topology_load_typed_witness : exists t,
  topology_load_json "topology.json" true (Parsed demo_json) = (0, Some t) /\ topology_ok t.
Proof.
  pose proof (topology_load_typed "topology.json" (Parsed demo_json) ltac:(intros j [= <-]; vm_compute; repeat split; discriminate)) as H.
  assert (topology_load_json "topology.json" true (Parsed demo_json) = (0, Some demo_topology)) as E by (vm_compute; reflexivity).
  rewrite E in H. exists demo_topology. split; [exact E|exact (proj2 H)].
Defined.
Lemma topology_write_load_witness : exists j, topology_write_default_json "t.json" true (Some demo_topology) = (0, Some j) /\
  topology_load_json "t.json" true (Parsed (reparse j)) = (0, Some demo_topology).
Proof.
  apply topology_write_load; [exact demo_topology_ok|apply (bool_decide_unpack _); vm_compute; done|repeat constructor; done|done].
Defined.
Lemma bar_assignment_exact_witness :
  exists e, pci_bus_assign_resources (Some new_pcie) (Some (discovered demo_device)) (Some "t.json") (Parsed demo_json) = (0, Some e) /\
    get_bar_address 2 e = 0xF0000018.
Proof.
  pose proof (bar_assignment_exact new_pcie (discovered demo_device) "t.json" demo_json demo_topology) as H.
  destruct H as (e & He & Hat & _).
  - vm_compute. repeat split; discriminate.
  - vm_compute. reflexivity.
  - vm_compute. reflexivity.
  - vm_compute. reflexivity.
  - vm_compute. reflexivity.
  - exists e. split; [exact He|]. by destruct (Hat 1%nat (mk_tbar 2 4096 false true false) 0xF0000018).
Defined.
(** Nothing aligns the bases to the sizes: the second BAR of the device above
    starts at 0xF0000018 but its register can only show 0xF0000010. *)
Lemma bar_register_loses_base : bar_register 0xF0000018 true = 0xF0000010.
Proof. reflexivity. Qed.

(** The text of the address is read at fixed columns as bus, device and
    function: the function digit is ignored, and what lspci writes as bus 3,
    device 0, function 1 of domain 0 becomes device 3 of bus 0. *)
Lemma bdf_columns : pack_bdf "0000:03:00.1" = 0x18 /\ pack_bdf "0000:03:00.0" = 0x18.
Proof. vm_compute. done. Qed.
(** Duplicates are found by text: the same address in other letters, or with
    another function digit, is accepted twice. *)
Lemma duplicate_bdfs :
  let dev s := JObject [("bdf", JString s); ("vendor_id", JString "0x1"); ("device_id", JString "0x1");
                        ("class_code", JString "0x0"); ("endpoint_kind", JString "x"); ("bars", JArray [])] in
  (option_map (map td_bdf)) (load_devices [dev "0000:0a:00.0"; dev "0000:0A:00.0"; dev "0000:0a:00.1"] []) = Some [0x50; 0x50; 0x50].
Proof. vm_compute. done. Qed.
(** Numbers are cut to the width of their field before they are checked. *)
Lemma numbers_truncated :
  parse_hex_u32 "0x100000003" = Some 3 /\
  load_bar (JObject [("index", JUnsigned (2 ^ 32 + 1)); ("size_bytes", JUnsigned 16)]) [] = Some (mk_tbar 1 16 false true false, [1]).
Proof. vm_compute. done. Qed.

(** ** Enumeration *)
(** The count is that of the file however short the buffer; the buffer gets the
    first entries; bad arguments leave the count alone, a bad file zeroes it. *)
Lemma enumerate_exact max_devices path f : 0 <= max_devices ->
  let r := host_bridge_enumerate (0 <? max_devices) max_devices true (Some path) f in
  match topology_load_json path true f with
  | (0, Some t) => r = (0, Some (Z.of_nat (length (devices t))), discovered <$> take (Z.to_nat max_devices) (devices t))
  | (rc, _) => r = (rc, Some 0, [])
  end.
Proof.
  intros Hm. unfold host_bridge_enumerate. destruct (Z.ltb_spec 0 max_devices) as [Hlt|Hge].
  - replace (max_devices =? 0) with false by lia. cbn [andb negb].
    destruct (topology_load_json path true f) as [[| |] [t|]]; try done. f_equal. f_equal.
    destruct (Z.ltb_spec (Z.of_nat (length (devices t))) max_devices); [|done].
    rewrite Nat2Z.id, firstn_all, take_ge by lia. done.
  - replace max_devices with 0 by lia. cbn [Z.eqb andb negb Z.ltb Z.compare].
    destruct (topology_load_json path true f) as [[| |] [t|]]; done.
Qed.
