(* ===== verification/Iommu.v ===== *)
(** * The IOMMU driver: domains, translation, invalidation

    [plugins/iommu_driver]: [iommu_domain.cpp], [dma_remap.cpp],
    [invalidate.cpp], [ats_protocol.cpp] and the attach functions of
    [iommu.cpp].  Domains, page-migration trackers and notifiers are objects
    named by their addresses, 0 being null; the notifier framework is [Uvm], the
    tracker [SimMem].  The answer of the VFIO bridge is an argument.  [None] is a
    call that dereferences an address at which no domain lives: never allocated,
    or freed. *)
From S2P Require Import Prelude Bytes SimMem Uvm.

Definition IOMMU_ERR_EINVAL : Z := -22.
Definition IOMMU_ERR_ENOMEM : Z := -12.
Definition IOMMU_ERR_EREMOTEIO : Z := -121.
Definition IOMMU_ERR_ENOKEY : Z := -126.
Definition IOMMU_ERR_ENOSYS : Z := -38.
Definition IOMMU_ERR_ENODEV : Z := -19.
Definition IOMMU_ERR_EBUSY : Z := -16.
Definition IOMMU_PAGE_SHIFT : Z := 12.
Definition IOMMU_PAGE_SIZE : Z := Z.shiftl 1 IOMMU_PAGE_SHIFT.
Definition IOMMU_PAGE_MASK : Z := IOMMU_PAGE_SIZE - 1.

(** ** Objects *)
Record iommu_domain_state := mk_domain_state {
  iova_to_phys : gmap Z Z; aperture_start : Z; aperture_end : Z; capacity_bytes : Z;
  d_mm : Z; d_mm_shim : Z; d_sim_pm : Z; notifier_list : list Z
}.
#[export] Instance eta_domain_state : Eta iommu_domain_state := fun s =>
  mk_domain_state (iova_to_phys s) (aperture_start s) (aperture_end s) (capacity_bytes s)
    (d_mm s) (d_mm_shim s) (d_sim_pm s) (notifier_list s).
(** [ops]: the table is null or the default one. *)
Record domain := mk_domain { d_type : Z; d_ops : bool; pgsize_bitmap : Z; d_priv : option iommu_domain_state }.
#[export] Instance eta_domain : Eta domain := fun d => mk_domain (d_type d) (d_ops d) (pgsize_bitmap d) (d_priv d).

(** The geometry and fault handler of a domain are not read again. The memory the driver works on: [drv] is what the notifiers' callbacks
    change. *)
Record iommu_world (D : Type) := mk_iommu {
  doms : gmap Z domain; g_domains : list Z; mns : notifier_state; pms : gmap Z SimPageMigration; drv : D
}.
Arguments mk_iommu {D}. Arguments doms {D}. Arguments g_domains {D}. Arguments mns {D}. Arguments pms {D}. Arguments drv {D}.
#[export] Instance eta_iommu D : Eta (iommu_world D) := fun w =>
  mk_iommu (doms w) (g_domains w) (mns w) (pms w) (drv w).

(** What [malloc] answered for the object and [new] for its state. *)
Definition new_domain_state : iommu_domain_state := mk_domain_state ∅ 0 0x00FFFFFF 0x1000000 0 0 0 [].

Section Driver.
  Context {D : Type} `{CB : Callbacks D}.
  Implicit Types w : iommu_world D.

(** [Some None]: the null domain, or a null [priv]. *)
Definition iommu_domain_priv (d : Z) w : option (option iommu_domain_state) :=
  if d =? 0 then Some None else d_priv <$> doms w !! d.
(** [domain->ops], of a non-null domain. *)
Definition ops_set (d : Z) w : option bool := d_ops <$> doms w !! d.
Definition upd_state (d : Z) (f : iommu_domain_state -> iommu_domain_state) w : iommu_world D :=
  w <| doms ::= alter (fun x => x <| d_priv ::= fmap f |>) d |>.

(** ** Lifecycle *)
Definition iommu_domain_alloc (type : Z) (object : option Z) (state : bool) w : Z * iommu_world D :=
  match object with
  | None => (0, w)
  | Some d =>
      if negb state then (0, w)
      else (d, w <| doms ::= <[d := mk_domain type false 0x1000 (Some new_domain_state)]> |>
                 <| g_domains ::= fun l => l ++ [d] |>)
  end.
Fixpoint erase_value (d : Z) (l : list Z) : list Z :=
  match l with [] => [] | x :: l' => if x =? d then l' else x :: erase_value d l' end.
Definition iommu_domain_free (d : Z) w : option (iommu_world D) :=
  if d =? 0 then Some w
  else _ ← doms w !! d; Some (w <| g_domains ::= erase_value d |> <| doms ::= delete d |>).

(** What the three attach functions share: the state, or -EINVAL. *)
Definition with_state (d : Z) (f : iommu_domain_state -> iommu_domain_state) w : option (Z * iommu_world D) :=
  s ← iommu_domain_priv d w;
  Some match s with None => (-22, w) | Some _ => (0, upd_state d f w) end.
Definition iommu_domain_attach_mm_shim (d shim : Z) w : option (Z * iommu_world D) :=
  if (d =? 0) || (shim =? 0) then Some (-22, w) else with_state d (fun s => s <| d_mm_shim := shim |>) w.
Definition iommu_domain_attach_sim_pm (d pm : Z) w : option (Z * iommu_world D) :=
  if d =? 0 then Some (-22, w) else with_state d (fun s => s <| d_sim_pm := pm |>) w.
(** [domain->ops = iommu_default_ops_get()], or null. *)
Definition set_ops (d : Z) (ops : bool) w : option (iommu_world D) :=
  _ ← doms w !! d; Some (w <| doms ::= alter (fun x => x <| d_ops := ops |>) d |>).
Definition iommu_domain_attach_mm (d mm : Z) w : option (Z * iommu_world D) :=
  if (d =? 0) || (mm =? 0) then Some (-22, w) else with_state d (fun s => s <| d_mm := mm |>) w.

(** ** Translation *)
Definition iommu_map (d iova paddr size prot : Z) w : option (Z * iommu_world D) :=
  s ← iommu_domain_priv d w;
  Some match s with
  | None => (IOMMU_ERR_EINVAL, w)
  | Some s =>
      if negb (size =? IOMMU_PAGE_SIZE) then (IOMMU_ERR_EINVAL, w)
      else if truthy (Z.land iova IOMMU_PAGE_MASK) then (IOMMU_ERR_EINVAL, w)
      else if truthy (Z.land paddr IOMMU_PAGE_MASK) then (IOMMU_ERR_EINVAL, w)
      else if bool_decide (is_Some (iova_to_phys s !! iova)) then (IOMMU_ERR_EREMOTEIO, w)
      else (0, upd_state d (fun s => s <| iova_to_phys ::= <[iova := paddr]> |>) w)
  end.
Definition iommu_iova_to_phys (d iova : Z) w : option Z :=
  s ← iommu_domain_priv d w;
  Some match s with None => 0 | Some s => default 0 (iova_to_phys s !! iova) end.

(** [vfio]: the result of [us_iommu_vfio_invalidate]; [flushed]: the evicted
    entries, when the caller has any. *)
Definition default_flush_iotlb (d : Z) (flushed : option (list (Z * Z))) (vfio : Z) w : option (iommu_world D) :=
  if d =? 0 then Some w
  else if vfio =? 0 then Some w
  else
  s ← iommu_domain_priv d w;
  Some match s, flushed with
  | Some s, Some entries =>
      if d_sim_pm s =? 0 then w
      else w <| pms ::= alter (fun p => fold_left (fun p e => sim_pm_invalidate e.1 p) entries p) (d_sim_pm s) |>
  | _, _ => w
  end.
(** [if (domain->ops && domain->ops->flush_iotlb) domain->ops->flush_iotlb(...)] *)
Definition flush_by_ops (d : Z) (flushed : option (list (Z * Z))) (vfio : Z) w : option (iommu_world D) :=
  ops ← ops_set d w; if (ops : bool) then default_flush_iotlb d flushed vfio w else Some w.
(** The two loops over the domain's notifiers. *)
Definition notify_start (mm a b : Z) (l : list Z) (ns : notifier_state) (x : D) : D :=
  fold_left (fun x mn => match (if mn =? 0 then None else ops_of mn ns ≫= invalidate_range_start) with
                         | Some f => (call_start f mn mm a b x).2
                         | None => x
                         end) l x.
Definition notify_end (mm a b : Z) (l : list Z) (ns : notifier_state) (x : D) : D :=
  fold_left (fun x mn => match (if mn =? 0 then None else ops_of mn ns ≫= invalidate_range_end) with
                         | Some f => call_end f mn mm a b x
                         | None => x
                         end) l x.
Definition iommu_unmap (d iova size vfio : Z) w : option (Z * iommu_world D) :=
  s ← iommu_domain_priv d w;
  match s with
  | None => Some (IOMMU_ERR_EINVAL, w)
  | Some s =>
      if negb (size =? IOMMU_PAGE_SIZE) then Some (IOMMU_ERR_EINVAL, w)
      else match iova_to_phys s !! iova with
      | None => Some (IOMMU_ERR_ENOKEY, w)
      | Some paddr =>
          w ← flush_by_ops d (Some [(iova, paddr)]) vfio
                (upd_state d (fun s => s <| iova_to_phys ::= delete iova |>) w);
          let last := u64 (iova + size) in
          let w := w <| drv ::= notify_start (d_mm s) iova last (notifier_list s) (mns w) |> in
          Some (size, w <| drv ::= notify_end (d_mm s) iova last (notifier_list s) (mns w) |>)
      end
  end.
Definition default_unmap_page (d iova size vfio : Z) w : option (Z * iommu_world D) :=
  '(ret, w) ← iommu_unmap d iova size vfio w; Some (if ret <? 0 then ret else 0, w).
Definition iommu_flush_iotlb (d iova size vfio : Z) w : option (Z * iommu_world D) :=
  if d =? 0 then Some (IOMMU_ERR_EINVAL, w)
  else w ← flush_by_ops d None vfio w; Some (0, w).

(** ** Notifiers *)
Definition iommu_invalidate_register_notifier_internal (d mnp : Z) w : option (Z * iommu_world D) :=
  if (d =? 0) || (mnp =? 0) then Some (IOMMU_ERR_EINVAL, w)
  else
  s ← iommu_domain_priv d w;
  Some match s with
  | None => (IOMMU_ERR_EINVAL, w)
  | Some s =>
      if d_mm s =? 0 then (IOMMU_ERR_EINVAL, w)
      else
        let '(ret, ns) := mmu_notifier_register mnp (d_mm s) (mns w) in
        if negb (ret =? 0) then (ret, w <| mns := ns |>)
        else
          let w := upd_state d (fun s => s <| notifier_list ::= fun l => l ++ [mnp] |>) w <| mns := ns |> in
          (0, if d_mm_shim s =? 0 then w
              else w <| mns ::= fun ns => ns <| notifiers ::= alter (fun n => n <| mn_priv := d_mm_shim s |>) mnp |> |>)
  end.
Definition iommu_invalidate_unregister_notifier_internal (d mnp : Z) w : option (Z * iommu_world D) :=
  if (d =? 0) || (mnp =? 0) then Some (IOMMU_ERR_EINVAL, w)
  else
  _ ← iommu_domain_priv d w;
  Some (0, upd_state d (fun s => s <| notifier_list ::= erase_value mnp |>) w <| mns ::= mmu_notifier_unregister mnp |>).

(** ** ATS messages *)
Definition ATS_COMPLETION_SUCCESS : Z := 0.
Definition ATS_COMPLETION_UNMAPPED : Z := 1.
Definition ATS_COMPLETION_INVALID : Z := 2.
Definition ATS_INVALIDATION_SUCCESS : Z := 0.
Record ats_translation_request := mk_ats_req { ats_iova : Z; ats_pasid : Z }.
(** The code, and [translated_address] and [completion_status]. *)
Definition ats_handle_translation_request (d : Z) (req : option ats_translation_request) (completion : bool) w :
    option (Z * option (Z * Z)) :=
  match req with
  | Some r =>
      if (d =? 0) || negb completion then Some (IOMMU_ERR_EINVAL, None)
      else if negb (ats_pasid r =? 0) then Some (0, Some (0, ATS_COMPLETION_INVALID))
      else
        paddr ← iommu_iova_to_phys d (ats_iova r) w;
        Some (0, if paddr =? 0 then Some (0, ATS_COMPLETION_UNMAPPED) else Some (paddr, ATS_COMPLETION_SUCCESS))
  | None => Some (IOMMU_ERR_EINVAL, None)
  end.
(** [req]: address and size. *)
Definition ats_handle_invalidation_request (d : Z) (req : option (Z * Z)) (completion : bool) (vfio : Z) w :
    option (Z * option Z * iommu_world D) :=
  match req with
  | Some _ =>
      if (d =? 0) || negb completion then Some (IOMMU_ERR_EINVAL, None, w)
      else w ← flush_by_ops d None vfio w; Some (0, Some ATS_INVALIDATION_SUCCESS, w)
  | None => Some (IOMMU_ERR_EINVAL, None, w)
  end.
End Driver.

(** ** The driver as a set of translation tables *)
Inductive iommu_op :=
| OAlloc (type : Z) (object : option Z) (state : bool) | OFree (d : Z)
| OMap (d iova paddr size prot : Z) | OUnmap (d iova size vfio : Z) | OFlush (d iova size vfio : Z)
| OAttachMm (d mm : Z) | OAttachShim (d shim : Z) | OAttachPm (d pm : Z)
| ORegister (d mn : Z) | OUnregister (d mn : Z) | OSetOps (d : Z) (ops : bool).
Section Refinement.
  Context {D : Type} `{CB : Callbacks D}.
  Implicit Types w : iommu_world D.
Definition iommu_do (o : iommu_op) w : option (Z * iommu_world D) :=
  match o with
  | OAlloc t object state => Some (iommu_domain_alloc t object state w)
  | OFree d => w ← iommu_domain_free d w; Some (0, w)
  | OMap d iova paddr size prot => iommu_map d iova paddr size prot w
  | OUnmap d iova size vfio => iommu_unmap d iova size vfio w
  | OFlush d iova size vfio => iommu_flush_iotlb d iova size vfio w
  | OAttachMm d mm => iommu_domain_attach_mm d mm w
  | OAttachShim d shim => iommu_domain_attach_mm_shim d shim w
  | OAttachPm d pm => iommu_domain_attach_sim_pm d pm w
  | ORegister d mn => iommu_invalidate_register_notifier_internal d mn w
  | OUnregister d mn => iommu_invalidate_unregister_notifier_internal d mn w
  | OSetOps d ops => w ← set_ops d ops w; Some (0, w)
  end.

(** A table per domain. *)
Definition tables w : gmap Z (gmap Z Z) := omap (fun x => iova_to_phys <$> d_priv x) (doms w).
Definition page (x : Z) : bool := negb (truthy (Z.land x IOMMU_PAGE_MASK)).
(** The table after a call and, for a map or unmap, its answer. *)
Definition table_do (o : iommu_op) (ts : gmap Z (gmap Z Z)) : option Z * gmap Z (gmap Z Z) :=
  match o with
  | OAlloc _ (Some d) true => (Some d, <[d := ∅]> ts)
  | OAlloc _ _ _ => (Some 0, ts)
  | OFree d => (None, delete d ts)
  | OMap d iova paddr size _ =>
      match ts !! d with
      | None => (Some (- 22), ts)
      | Some t => if negb ((size =? 4096) && page iova && page paddr) then (Some (- 22), ts)
                  else if decide (is_Some (t !! iova)) then (Some (- 121), ts)
                  else (Some 0, <[d := <[iova := paddr]> t]> ts)
      end
  | OUnmap d iova size _ =>
      match ts !! d with
      | None => (Some (- 22), ts)
      | Some t => if negb (size =? 4096) then (Some (- 22), ts)
                  else if decide (is_Some (t !! iova)) then (Some size, <[d := delete iova t]> ts)
                  else (Some (- 126), ts)
      end
  | _ => (None, ts)
  end.
(** The domain a call dereferences, if any. *)
Definition uses (o : iommu_op) : option Z :=
  match o with
  | OAlloc _ _ _ => None
  | OFree d | OMap d _ _ _ _ | OUnmap d _ _ _ | OFlush d _ _ _ | OAttachPm d _ => if d =? 0 then None else Some d
  | OAttachMm d x | OAttachShim d x | ORegister d x | OUnregister d x =>
      if (d =? 0) || (x =? 0) then None else Some d
  | OSetOps d _ => Some d
  end.
Definition table_step (o : iommu_op) (ts : gmap Z (gmap Z Z)) : option (option Z * gmap Z (gmap Z Z)) :=
  match uses o with
  | Some d => _ ← ts !! d; Some (table_do o ts)
  | None => Some (table_do o ts)
  end.
(** [malloc] returns non-null addresses in no current use. *)
Definition op_ok (o : iommu_op) w : Prop :=
  match o with OAlloc _ (Some d) _ => d <> 0 /\ doms w !! d = None | _ => True end.
Fixpoint ops_fresh (os : list iommu_op) w : Prop :=
  match os with
  | [] => True
  | o :: os' => op_ok o w /\ match iommu_do o w with Some (_, w') => ops_fresh os' w' | None => True end
  end.

Record world_ok w : Prop := {
  wo_null : doms w !! 0 = None;
  wo_priv : forall d x, doms w !! d = Some x -> is_Some (d_priv x)
}.
(** A non-null address names no domain, or one with its state. *)
Lemma live_cases d w : world_ok w -> d <> 0 ->
  (doms w !! d = None /\ iommu_domain_priv d w = None /\ tables w !! d = None) \/
  exists x s, doms w !! d = Some x /\ d_priv x = Some s /\ iommu_domain_priv d w = Some (Some s) /\
    tables w !! d = Some (iova_to_phys s).
Proof.
  intros Hw Hd. unfold iommu_domain_priv, tables. rewrite lookup_omap. replace (d =? 0) with false by lia.
  destruct (doms w !! d) as [x|] eqn:E; [right|by left]. destruct (wo_priv w Hw d x E) as [s Hs].
  exists x, s. simpl. by rewrite Hs.
Qed.
Lemma tables_null w : world_ok w -> tables w !! 0 = None.
Proof. intros Hw. unfold tables. by rewrite lookup_omap, (wo_null w Hw). Qed.
Lemma priv_table d w : world_ok w -> iommu_domain_priv d w =
    (if d =? 0 then Some None else d_priv <$> doms w !! d) /\
  forall iova, iommu_iova_to_phys d iova w = if d =? 0 then Some 0 else (fun t => default 0 (t !! iova)) <$> tables w !! d.
Proof.
  intros Hw. split; [done|]. intros iova. unfold iommu_iova_to_phys. destruct (Z.eqb_spec d 0) as [->|Hd]; [done|].
  destruct (live_cases d w Hw Hd) as [(_ & -> & ->)|(x & s & _ & _ & -> & ->)]; done.
Qed.
Lemma priv_live d w s : iommu_domain_priv d w = Some (Some s) -> d <> 0 /\ exists x, doms w !! d = Some x /\ d_priv x = Some s.
Proof.
  unfold iommu_domain_priv. destruct (Z.eqb_spec d 0); [done|]. destruct (doms w !! d) as [x|]; [|done].
  intros [= E]. split; [done|]. by exists x.
Qed.
Lemma tables_upd d f w x s : doms w !! d = Some x -> d_priv x = Some s ->
  tables (upd_state d f w) = <[d := iova_to_phys (f s)]> (tables w).
Proof.
  intros E Es. apply map_eq. intros i. unfold tables, upd_state. cbn [doms field_upd]. rewrite lookup_omap.
  destruct (decide (i = d)) as [->|Hne].
  - rewrite lookup_alter_eq, E. simpl. by rewrite Es, lookup_insert_eq.
  - by rewrite lookup_alter_ne, lookup_insert_ne, lookup_omap by done.
Qed.
Lemma tables_same w w' : doms w' = doms w -> tables w' = tables w.
Proof. unfold tables. by intros ->. Qed.
Lemma upd_ok d f w : world_ok w -> world_ok (upd_state d f w).
Proof.
  intros [H0 Hp]. split; unfold upd_state; cbn [doms field_upd].
  - destruct (decide (d = 0)) as [->|]; [by rewrite lookup_alter_eq, H0|by rewrite lookup_alter_ne].
  - intros i x. destruct (decide (i = d)) as [->|]; [|rewrite lookup_alter_ne by done; apply Hp].
    rewrite lookup_alter_eq. destruct (doms w !! d) as [y|] eqn:E; [|done]. intros [= <-]. simpl.
    by apply fmap_is_Some, (Hp d).
Qed.
Lemma doms_ok w w' : doms w' = doms w -> world_ok w -> world_ok w'.
Proof. intros E [H0 Hp]. split; rewrite E; done. Qed.
(** Attaching and registering do not touch the tables. *)
Lemma upd_keeps_tables d f w x s : doms w !! d = Some x -> d_priv x = Some s ->
  iova_to_phys (f s) = iova_to_phys s -> tables (upd_state d f w) = tables w.
Proof.
  intros E Es Hf. rewrite (tables_upd d f w x s E Es), Hf. apply insert_id. unfold tables. rewrite lookup_omap, E. simpl. by rewrite Es.
Qed.
(** The flush of a live domain changes at most a tracker. *)
Lemma flush_live d fl v w x : doms w !! d = Some x -> exists w', flush_by_ops d fl v w = Some w' /\
  doms w' = doms w /\ mns w' = mns w /\ drv w' = drv w.
Proof.
  intros E. unfold flush_by_ops, ops_set. rewrite E. simpl. destruct (d_ops x); [|by exists w].
  unfold default_flush_iotlb, iommu_domain_priv. destruct (d =? 0); [by exists w|]. destruct (v =? 0); [by exists w|].
  rewrite E. simpl. destruct (d_priv x) as [s|], fl; try by exists w. eexists. split; [done|]. by destruct (d_sim_pm s =? 0).
Qed.
Lemma unmap_doms d iova vfio w s paddr : iommu_domain_priv d w = Some (Some s) -> iova_to_phys s !! iova = Some paddr ->
  exists w', iommu_unmap d iova 4096 vfio w = Some (4096, w') /\
  doms w' = doms (upd_state d (fun s => s <| iova_to_phys ::= delete iova |>) w).
Proof.
  intros Hs Hi. destruct (priv_live d w s Hs) as (_ & x & Hx & _). unfold iommu_unmap. rewrite Hs. simpl. rewrite Hi.
  set (w1 := upd_state d (fun s => s <| iova_to_phys ::= delete iova |>) w).
  assert (exists y, doms w1 !! d = Some y) as [y Hy] by (unfold w1, upd_state; cbn [doms field_upd]; rewrite lookup_alter_eq, Hx; by eexists).
  destruct (flush_live d (Some [(iova, paddr)]) vfio w1 y Hy) as (w2 & -> & Hd & _). simpl. by eexists.
Qed.
Definition agrees (m : option (Z * iommu_world D)) (t : option (option Z * gmap Z (gmap Z Z))) : Prop :=
  match m, t with
  | None, None => True
  | Some (r, w), Some (r', ts) => tables w = ts /\ (forall x, r' = Some x -> r = x) /\ world_ok w
  | _, _ => False
  end.
Lemma agrees_same r r' w : world_ok w -> (forall x, r' = Some x -> r = x) -> agrees (Some (r, w)) (Some (r', tables w)).
Proof. by split. Qed.
(** An update of a domain's state that keeps its table. *)
Lemma agrees_upd d f w w' x s r : world_ok w -> doms w !! d = Some x -> d_priv x = Some s ->
  iova_to_phys (f s) = iova_to_phys s -> doms w' = doms (upd_state d f w) ->
  agrees (Some (r, w')) (Some (None, tables w)).
Proof.
  intros Hw Hx Hs Hf E. split; [|split; [done|]].
  - by rewrite (tables_same _ _ E), (upd_keeps_tables d f w x s).
  - eapply doms_ok; [exact E|by apply upd_ok].
Qed.
Lemma agrees_set d t r r' w w' x s f : world_ok w -> doms w !! d = Some x -> d_priv x = Some s ->
  iova_to_phys (f s) = t -> doms w' = doms (upd_state d f w) -> (forall z, r' = Some z -> r = z) ->
  agrees (Some (r, w')) (Some (r', <[d := t]> (tables w))).
Proof.
  intros Hw Hx Hs <- E Hr. split; [|split; [done|]].
  - by rewrite (tables_same _ _ E), (tables_upd d f w x s).
  - eapply doms_ok; [exact E|by apply upd_ok].
Qed.
Ltac same_tables Hw := apply agrees_same; [exact Hw|try (intros ? [= <-]); done].
(** Split on the domain a call names: null, dead or live. *)
Ltac by_domain d Hw :=
  let Hd := fresh "Hd" in let x := fresh "x" in let s := fresh "s" in let Hx := fresh "Hx" in
  let Hs := fresh "Hs" in let Hp := fresh "Hp" in let Ht := fresh "Ht" in
  destruct (Z.eqb_spec d 0) as [->|Hd];
  [|destruct (live_cases d _ Hw Hd) as [(Hx & Hp & Ht)|(x & s & Hx & Hs & Hp & Ht)]].
Lemma alloc_tables t object state w : world_ok w -> op_ok (OAlloc t object state) w ->
  agrees (iommu_do (OAlloc t object state) w) (table_step (OAlloc t object state) (tables w)).
Proof.
  intros Hw Ho. unfold table_step. cbn [uses iommu_do table_do]. unfold iommu_domain_alloc.
  destruct object as [d|]; [|same_tables Hw]. destruct state; cbn [negb]; [|same_tables Hw].
  destruct Ho as [Hd Hf]. split; [|split; [by intros x [= <-]|]].
  - unfold tables. cbn [doms field_upd]. by rewrite omap_insert.
  - split; cbn [doms field_upd]; [rewrite lookup_insert_ne by done; apply Hw|].
    intros i x. destruct (decide (i = d)) as [->|]; [rewrite lookup_insert_eq; intros [= <-]; by eexists|].
    rewrite lookup_insert_ne by done. apply Hw.
Qed.
Lemma map_tables d iova paddr size prot w : world_ok w ->
  agrees (iommu_map d iova paddr size prot w) (table_step (OMap d iova paddr size prot) (tables w)).
Proof.
  intros Hw. unfold table_step, iommu_map. cbn [uses table_do]. by_domain d Hw.
  { rewrite (tables_null w Hw). same_tables Hw. } { by rewrite Hp, Ht. }
  rewrite Hp, Ht. simpl. change (size =? IOMMU_PAGE_SIZE) with (size =? 4096). unfold page.
  destruct (size =? 4096); cbn [negb andb]; [|same_tables Hw].
  destruct (truthy (Z.land iova _)); cbn [negb andb]; [same_tables Hw|].
  destruct (truthy (Z.land paddr _)); cbn [negb andb]; [same_tables Hw|].
  case_bool_decide as Hm; destruct (decide (is_Some (iova_to_phys s !! iova))); try done; [same_tables Hw|].
  by eapply (agrees_set d _ 0 _ w _ x s (fun s => s <| iova_to_phys ::= <[iova:=paddr]> |>)); [..|intros ? [= <-]].
Qed.
Lemma unmap_tables d iova size vfio w : world_ok w ->
  agrees (iommu_unmap d iova size vfio w) (table_step (OUnmap d iova size vfio) (tables w)).
Proof.
  intros Hw. unfold table_step. cbn [uses table_do]. by_domain d Hw.
  { unfold iommu_unmap. rewrite (tables_null w Hw). same_tables Hw. } { unfold iommu_unmap. by rewrite Hp, Ht. }
  rewrite Ht. simpl. destruct (Z.eqb_spec size 4096) as [->|Hne]; cbn [negb].
  2: { unfold iommu_unmap. rewrite Hp. simpl. change (size =? IOMMU_PAGE_SIZE) with (size =? 4096).
       apply Z.eqb_neq in Hne. rewrite Hne. same_tables Hw. }
  destruct (iova_to_phys s !! iova) as [paddr|] eqn:Ei.
  - rewrite decide_True by by eexists. destruct (unmap_doms d iova vfio w s paddr Hp Ei) as (w' & -> & E).
    by eapply (agrees_set d _ 4096 _ w w' x s _ Hw Hx Hs eq_refl E); intros ? [= <-].
  - rewrite decide_False by by intros [? ?]. unfold iommu_unmap. rewrite Hp. simpl. rewrite Ei. same_tables Hw.
Qed.
Lemma attach_tables d f w : world_ok w -> (forall s, iova_to_phys (f s) = iova_to_phys s) -> d <> 0 ->
  agrees (with_state d f w) (_ ← tables w !! d; Some (None, tables w)).
Proof.
  intros Hw Hf Hd. unfold with_state. destruct (live_cases d w Hw Hd) as [(Hx & -> & ->)|(x & s & Hx & Hs & -> & ->)]; [done|].
  simpl. by apply (agrees_upd d f w _ x s).
Qed.
Lemma iommu_do_tables o w : world_ok w -> op_ok o w -> agrees (iommu_do o w) (table_step o (tables w)).
Proof.
  intros Hw Ho.
  destruct o as [t object state|d|d iova paddr size prot|d iova size vfio|d iova size vfio|d mm|d shim|d pm|d mn|d mn|d ops];
    cbn [iommu_do]; [by apply alloc_tables| |by apply map_tables|by apply unmap_tables|..];
    unfold table_step; cbn [uses table_do].
  - unfold iommu_domain_free. by_domain d Hw; [|by rewrite Hx, Ht|].
    { rewrite delete_id by by apply tables_null. same_tables Hw. }
    rewrite Hx, Ht. simpl. split; [|split; [done|]].
    + unfold tables. cbn [doms field_upd]. by rewrite omap_delete.
    + split; cbn [doms field_upd]; [apply lookup_delete_None; right; apply Hw|]. intros i y [_ H]%lookup_delete_Some. by eapply wo_priv.
  - unfold iommu_flush_iotlb. by_domain d Hw; [same_tables Hw|unfold flush_by_ops, ops_set; by rewrite Hx, Ht|].
    rewrite Ht. simpl. destruct (flush_live d None vfio w x Hx) as (w' & -> & E & _). simpl.
    rewrite <- (tables_same _ _ E). apply agrees_same; [by eapply doms_ok|done].
  - unfold iommu_domain_attach_mm. destruct (Z.eqb_spec d 0); cbn [orb]; [same_tables Hw|].
    destruct (mm =? 0); [same_tables Hw|by apply attach_tables].
  - unfold iommu_domain_attach_mm_shim. destruct (Z.eqb_spec d 0); cbn [orb]; [same_tables Hw|].
    destruct (shim =? 0); [same_tables Hw|by apply attach_tables].
  - unfold iommu_domain_attach_sim_pm. destruct (Z.eqb_spec d 0); [same_tables Hw|by apply attach_tables].
  - unfold iommu_invalidate_register_notifier_internal. destruct (d =? 0) eqn:Ed; cbn [orb]; [same_tables Hw|].
    destruct (mn =? 0); [same_tables Hw|]. by_domain d Hw; [done|by rewrite Hp, Ht|]. rewrite Hp, Ht. simpl.
    destruct (d_mm s =? 0); [same_tables Hw|]. destruct (mmu_notifier_register _ _ _) as [ret ns].
    destruct (negb (ret =? 0)); [by repeat split; try apply Hw|].
    apply (agrees_upd d (fun s => s <| notifier_list ::= fun l => l ++ [mn] |>) w _ x s); try done. by destruct (d_mm_shim s =? 0).
  - unfold iommu_invalidate_unregister_notifier_internal. destruct (d =? 0) eqn:Ed; cbn [orb]; [same_tables Hw|].
    destruct (mn =? 0); [same_tables Hw|]. by_domain d Hw; [done|by rewrite Hp, Ht|]. rewrite Hp, Ht. simpl.
    by apply (agrees_upd d (fun s => s <| notifier_list ::= erase_value mn |>) w _ x s).
  - unfold set_ops. destruct (decide (d = 0)) as [->|Hd]; [by rewrite (wo_null w Hw), tables_null|].
    destruct (live_cases d w Hw Hd) as [(Hx & _ & ->)|(x & s & Hx & Hs & _ & ->)]; rewrite Hx; [done|]. simpl. split; [|split; [done|]].
    + apply map_eq. intros i. unfold tables. cbn [doms field_upd]. rewrite !lookup_omap.
      destruct (decide (i = d)) as [->|]; [rewrite lookup_alter_eq, Hx; done|by rewrite lookup_alter_ne].
    + split; cbn [doms field_upd]; [rewrite lookup_alter_ne by done; apply Hw|].
      intros i y. destruct (decide (i = d)) as [->|]; [|rewrite lookup_alter_ne by done; apply Hw].
      rewrite lookup_alter_eq, Hx. intros [= <-]. by exists s.
Qed.

(** The answers of the map, unmap and allocation calls, and the last state. *)
Fixpoint iommu_run (os : list iommu_op) w : option (list Z * iommu_world D) :=
  match os with
  | [] => Some ([], w)
  | o :: os' => '(r, w) ← iommu_do o w; '(rs, w) ← iommu_run os' w; Some (r :: rs, w)
  end.
Fixpoint table_run (os : list iommu_op) (ts : gmap Z (gmap Z Z)) : option (list (option Z) * gmap Z (gmap Z Z)) :=
  match os with
  | [] => Some ([], ts)
  | o :: os' => '(r, ts) ← table_step o ts; '(rs, ts) ← table_run os' ts; Some (r :: rs, ts)
  end.
Definition answers (rs : list Z) (rs' : list (option Z)) : Prop := Forall2 (fun r r' => forall x, r' = Some x -> r = x) rs rs'.
Lemma iommu_run_tables os w : world_ok w -> ops_fresh os w ->
  match iommu_run os w, table_run os (tables w) with
  | None, None => True
  | Some (rs, w'), Some (rs', ts) => answers rs rs' /\ tables w' = ts /\ world_ok w'
  | _, _ => False
  end.
Proof.
  revert w. induction os as [|o os IH]; intros w Hw Hf; simpl; [split; [constructor|by split]|].
  destruct Hf as [Ho Hf]. pose proof (iommu_do_tables o w Hw Ho) as Hd. unfold agrees in Hd.
  destruct (iommu_do o w) as [[r w1]|], (table_step o (tables w)) as [[r' ts]|]; try done. destruct Hd as (<- & Hr & Hw').
  simpl. specialize (IH w1 Hw' Hf). destruct (iommu_run os w1) as [[rs w']|], (table_run os (tables w1)) as [[rs' ts']|]; try done.
  simpl. destruct IH as (Ha & Htab & Hok). split; [by constructor|by split].
Qed.

(** C13. Whatever is called, in any order, on any domains, the driver implements
    one finite table per domain: a map is accepted exactly for one aligned 4 KiB
    page on an aligned frame (-EINVAL otherwise) that is not mapped already
    (-EREMOTEIO) and an unmap exactly for a mapped one (-ENOKEY); the null domain
    is refused; nothing else changes a table; a lookup or an ATS translation
    without PASID reads it (frame 0 and an unmapped page look the same); and a
    call is undefined exactly when it dereferences a domain that was never
    allocated or has been freed. *)
Theorem iommu_refines_tables os ns pm x : let w0 := mk_iommu ∅ [] ns pm x in
  ops_fresh os w0 ->
  match iommu_run os w0, table_run os ∅ with
  | Some (rs, w), Some (rs', ts) =>
      answers rs rs' /\
      (forall d iova, iommu_iova_to_phys d iova w =
         if d =? 0 then Some 0 else t ← ts !! d; Some (default 0 (t !! iova))) /\
      (forall d iova, d <> 0 -> ats_handle_translation_request d (Some (mk_ats_req iova 0)) true w =
         t ← ts !! d; Some (0, Some (let paddr := default 0 (t !! iova) in
                                     (paddr, if paddr =? 0 then ATS_COMPLETION_UNMAPPED else ATS_COMPLETION_SUCCESS))))
  | None, None => True
  | _, _ => False
  end.
Proof.
  intros w0 Hf. assert (world_ok w0) as Hw0 by (split; [apply lookup_empty|intros ? ? H; unfold w0 in H; cbn [doms] in H; by rewrite lookup_empty in H]).
  pose proof (iommu_run_tables os w0 Hw0 Hf) as H. change (tables w0) with (omap (fun x => iova_to_phys <$> d_priv x) (∅ : gmap Z domain)) in H.
  rewrite omap_empty in H. destruct (iommu_run os w0) as [[rs w]|], (table_run os ∅) as [[rs' ts]|]; try done.
  destruct H as (Ha & <- & Hw). split; [done|]. split.
  - intros d iova. rewrite (proj2 (priv_table d w Hw)). by destruct (tables w !! d).
  - intros d iova Hd. unfold ats_handle_translation_request. cbn [ats_pasid ats_iova].
    replace (d =? 0) with false by lia. cbn [negb orb Z.eqb]. rewrite (proj2 (priv_table d w Hw)). replace (d =? 0) with false by lia.
    destruct (tables w !! d) as [t|]; [|done]. simpl. by destruct (Z.eqb_spec (default 0 (t !! iova)) 0) as [->|].
Qed.

(** ** Invalidation *)
(** The callbacks of a domain's notifiers. *)
Definition starts_of (l : list Z) (ns : notifier_state) : list (Z * Z) :=
  omap (fun mn => (fun f => (f, mn)) <$> (if mn =? 0 then None else ops_of mn ns ≫= invalidate_range_start)) l.
Definition ends_of (l : list Z) (ns : notifier_state) : list (Z * Z) :=
  omap (fun mn => (fun f => (f, mn)) <$> (if mn =? 0 then None else ops_of mn ns ≫= invalidate_range_end)) l.
Lemma notify_start_all mm a b l ns x :
  notify_start mm a b l ns x = fold_left (fun x c => (call_start c.1 c.2 mm a b x).2) (starts_of l ns) x.
Proof.
  unfold notify_start. revert x. induction l as [|mn l IH]; intros x; [done|]. simpl.
  destruct (if mn =? 0 then None else _) as [f|]; simpl; apply IH.
Qed.
Lemma notify_end_all mm a b l ns x :
  notify_end mm a b l ns x = fold_left (fun x c => call_end c.1 c.2 mm a b x) (ends_of l ns) x.
Proof.
  unfold notify_end. revert x. induction l as [|mn l IH]; intros x; [done|]. simpl.
  destruct (if mn =? 0 then None else _) as [f|]; simpl; apply IH.
Qed.
Lemma invalidate_gone iova p : sim_pm_is_page_on_device iova (sim_pm_invalidate iova p) = 0 /\
  forall o, o <> iova -> sim_pm_is_page_on_device o (sim_pm_invalidate iova p) = sim_pm_is_page_on_device o p /\
    sim_pm_lookup_pfn o (sim_pm_invalidate iova p) = sim_pm_lookup_pfn o p.
Proof.
  unfold sim_pm_invalidate, sim_pm_is_page_on_device, sim_pm_lookup_pfn. destruct (resident_state (page_state p !! iova)) eqn:E.
  - cbn [page_state page_table field_upd]. split; [by rewrite lookup_insert_eq|]. intros o Ho.
    by rewrite lookup_insert_ne, lookup_delete_ne by done.
  - rewrite E. split; [done|]. by intros.
Qed.

(** C34. Unmapping a mapped page returns the page size, removes that translation
    and no other; with the default operations and a tracker attached, and no
    VFIO device taking over, the page is no longer on the device and no other
    page of any tracker changes; every start callback of the domain's notifiers,
    in order of registration, runs before the first end callback, on the page's
    range and the domain's address space; and a second unmap is refused with
    -ENOKEY. *)
Theorem iommu_unmap_invalidates d iova vfio w s paddr : world_ok w -> iommu_domain_priv d w = Some (Some s) ->
  iova_to_phys s !! iova = Some paddr ->
  exists w', iommu_unmap d iova 4096 vfio w = Some (4096, w') /\
  iommu_iova_to_phys d iova w' = Some 0 /\ fst <$> iommu_unmap d iova 4096 vfio w' = Some IOMMU_ERR_ENOKEY /\
  (forall d' iova', (d', iova') <> (d, iova) -> iommu_iova_to_phys d' iova' w' = iommu_iova_to_phys d' iova' w) /\
  drv w' = fold_left (fun x c => call_end c.1 c.2 (d_mm s) iova (u64 (iova + 4096)) x) (ends_of (notifier_list s) (mns w))
    (fold_left (fun x c => (call_start c.1 c.2 (d_mm s) iova (u64 (iova + 4096)) x).2) (starts_of (notifier_list s) (mns w)) (drv w)) /\
  (forall pm t, pms w !! pm = Some t -> exists t', pms w' !! pm = Some t' /\
     (forall o, (pm, o) <> (d_sim_pm s, iova) -> sim_pm_is_page_on_device o t' = sim_pm_is_page_on_device o t /\
        sim_pm_lookup_pfn o t' = sim_pm_lookup_pfn o t) /\
     (pm = d_sim_pm s -> pm <> 0 -> vfio <> 0 -> d_ops <$> doms w !! d = Some true ->
        sim_pm_is_page_on_device iova t' = 0)).
Proof.
  intros Hw Hs Hi. destruct (unmap_doms d iova vfio w s paddr Hs Hi) as (w' & E & Hd). exists w'. split; [done|].
  destruct (priv_live d w s Hs) as (Hd0 & x & Hx & Hxs).
  pose proof (upd_ok d (fun s => s <| iova_to_phys ::= delete iova |>) w Hw) as Hok1.
  assert (world_ok w') as Hok by (eapply doms_ok; [exact Hd|done]).
  assert (tables w' = <[d := delete iova (iova_to_phys s)]> (tables w)) as Htab
    by (rewrite (tables_same _ _ Hd), (tables_upd d _ w x s Hx Hxs); reflexivity).
  assert (tables w !! d = Some (iova_to_phys s)) as Htd by (unfold tables; rewrite lookup_omap, Hx; simpl; by rewrite Hxs).
  assert (exists s', iommu_domain_priv d w' = Some (Some s') /\ iova_to_phys s' = delete iova (iova_to_phys s)) as (s' & Hs' & Hi').
  { destruct (live_cases d w' Hok Hd0) as [(_ & _ & H)|(y & s' & _ & _ & Hp & H)]; rewrite Htab, lookup_insert_eq in H; [done|].
    exists s'. split; [done|]. by injection H. }
  split; [rewrite (proj2 (priv_table d w' Hok)), Htab, lookup_insert_eq; replace (d =? 0) with false by lia; simpl; by rewrite lookup_delete_eq|].
  split; [unfold iommu_unmap; rewrite Hs'; simpl; by rewrite Hi', lookup_delete_eq|].
  split.
  { intros d' iova' Hne. rewrite (proj2 (priv_table d' w' Hok)), (proj2 (priv_table d' w Hw)), Htab.
    destruct (d' =? 0); [done|]. destruct (decide (d' = d)) as [->|]; [|by rewrite lookup_insert_ne].
    rewrite lookup_insert_eq, Htd. simpl. rewrite lookup_delete_ne; [done|congruence]. }
  unfold iommu_unmap in E. rewrite Hs in E. simpl in E. rewrite Hi in E.
  set (w1 := upd_state d (fun s => s <| iova_to_phys ::= delete iova |>) w) in E.
  assert (doms w1 !! d = Some (x <| d_priv := Some (s <| iova_to_phys ::= delete iova |>) |>)) as Hx1
    by (unfold w1, upd_state; cbn [doms field_upd]; rewrite lookup_alter_eq, Hx; clear -Hxs; destruct x as [? ? ? q]; simpl in *; by subst q).
  assert (mns w1 = mns w /\ drv w1 = drv w /\ pms w1 = pms w) as (Hm1 & Hv1 & Hp1) by done. clearbody w1.
  destruct (flush_live d (Some [(iova, paddr)]) vfio w1 _ Hx1) as (w2 & E2 & _ & Hm2 & Hv2). rewrite E2 in E. simpl in E.
  injection E as <-. cbn [drv pms mns field_upd]. split.
  { rewrite notify_end_all, notify_start_all. cbn [mns field_upd]. by rewrite Hm2, Hv2, Hm1, Hv1. }
  intros pm t Ht. rewrite <- Hp1 in Ht. rewrite Hx. change (pms (w2 <| drv ::= _ |> <| drv ::= _ |>)) with (pms w2).
  unfold flush_by_ops, ops_set, default_flush_iotlb, iommu_domain_priv in E2. rewrite Hx1 in E2.
  replace (d =? 0) with false in E2 by lia. simpl in E2.
  destruct (d_ops x) eqn:Eo; [|injection E2 as <-; exists t; split; [done|]; split; [by intros|intros _ _ _ [= E]; congruence]].
  destruct (Z.eqb_spec vfio 0) as [->|]; [injection E2 as <-; exists t; split; [done|]; by split|]. injection E2 as <-.
  destruct (Z.eqb_spec (d_sim_pm s) 0) as [He|]; [exists t; split; [done|]; split; [by intros|by intros -> ?]|].
  cbn [pms field_upd]. destruct (invalidate_gone iova t) as [Hg Ho].
  destruct (decide (pm = d_sim_pm s)) as [->|Hne].
  - rewrite lookup_alter_eq, Ht. exists (sim_pm_invalidate iova t). split; [done|]. split; [|done].
    intros o Hne. apply Ho. congruence.
  - rewrite lookup_alter_ne by done. exists t. split; [done|]. split; [done|]. by intros ->.
Qed.
End Refinement.

(** Two domains at 100 and 200, the notifiers of [Uvm] and a tracker at 50. *)
Definition small_tracker : SimPageMigration := mk_pm 0x10000 (fun _ => 0) {[0x3000 := PAGE_CLEAN]} {[0x3000 := 3]} 0 None ∅ [].
Definition small_world : iommu_world (list Z) :=
  mk_iommu ∅ [] (mk_notifier_state two_notifiers []) {[50 := small_tracker]} [].
Definition small_ops : list iommu_op :=
  [OAlloc 1 (Some 100) true; OAlloc 1 (Some 200) true; OSetOps 100 true; OAttachMm 100 7; OAttachPm 100 50;
   ORegister 100 10; ORegister 100 20; OMap 100 0x3000 0x8000 4096 3].
Definition small_tail : list iommu_op := [OMap 100 0x3000 0x9000 4096 3; OUnmap 100 0x3000 4096 1].
Lemma small_fresh : ops_fresh (small_ops ++ small_tail) small_world.
Proof. vm_compute. by repeat split. Qed.
Lemma iommu_refines_tables_witness :
  option_map fst (iommu_run (small_ops ++ small_tail) small_world) = Some [100; 200; 0; 0; 0; 0; 0; 0; -121; 4096] /\
  match iommu_run (small_ops ++ small_tail) small_world, table_run (small_ops ++ small_tail) ∅ with
  | Some (rs, w), Some (rs', ts) =>
      answers rs rs' /\
      (forall d iova, iommu_iova_to_phys d iova w =
         if d =? 0 then Some 0 else t ← ts !! d; Some (default 0 (t !! iova))) /\
      (forall d iova, d <> 0 -> ats_handle_translation_request d (Some (mk_ats_req iova 0)) true w =
         t ← ts !! d; Some (0, Some (let paddr := default 0 (t !! iova) in
                                     (paddr, if paddr =? 0 then ATS_COMPLETION_UNMAPPED else ATS_COMPLETION_SUCCESS))))
  | None, None => True
  | _, _ => False
  end.
Proof. split; [vm_compute; reflexivity|]. apply (iommu_refines_tables _ _ _ _ small_fresh). Defined.

Definition world_after (os : list iommu_op) : iommu_world (list Z) := default small_world (snd <$> iommu_run os small_world).
Definition mapped_world : iommu_world (list Z) := world_after small_ops.
Definition mapped_state : iommu_domain_state := mk_domain_state {[0x3000 := 0x8000]} 0 0x00FFFFFF 0x1000000 7 0 50 [10; 20].
Lemma mapped_world_ok : world_ok mapped_world.
Proof.
  pose proof (iommu_run_tables small_ops small_world) as H. unfold mapped_world, world_after.
  assert (ops_fresh small_ops small_world) as Hf by (vm_compute; by repeat split).
  assert (world_ok small_world) as Hw by (split; [done|]; unfold small_world; cbn [doms]; intros ? ? E; by rewrite lookup_empty in E).
  specialize (H Hw Hf). destruct (iommu_run _ _) as [[rs w]|]; [|done]. destruct (table_run _ _) as [[]|]; [|done]. apply H.
Qed.
Lemma iommu_unmap_invalidates_witness :
  exists w', iommu_unmap 100 0x3000 4096 1 mapped_world = Some (4096, w') /\
  iommu_iova_to_phys 100 0x3000 w' = Some 0 /\ fst <$> iommu_unmap 100 0x3000 4096 1 w' = Some IOMMU_ERR_ENOKEY /\
  (forall d' iova', (d', iova') <> (100, 0x3000) -> iommu_iova_to_phys d' iova' w' = iommu_iova_to_phys d' iova' mapped_world) /\
  drv w' = [10; 20] /\
  (forall pm t, pms mapped_world !! pm = Some t -> exists t', pms w' !! pm = Some t' /\
     (forall o, (pm, o) <> (50, 0x3000) -> sim_pm_is_page_on_device o t' = sim_pm_is_page_on_device o t /\
        sim_pm_lookup_pfn o t' = sim_pm_lookup_pfn o t) /\
     (pm = 50 -> pm <> 0 -> 1 <> 0 -> d_ops <$> doms mapped_world !! 100 = Some true ->
        sim_pm_is_page_on_device 0x3000 t' = 0)).
Proof. exact (iommu_unmap_invalidates 100 0x3000 1 mapped_world mapped_state 0x8000 mapped_world_ok eq_refl eq_refl). Defined.

(** ** What an invalidation does not do *)
(** An ATS invalidation and [iommu_flush_iotlb] hand the flush operation no
    entries: success is reported and nothing has changed. *)
Lemma flush_changes_nothing {D : Type} `{CB : Callbacks D} d a n vfio (w : iommu_world D) : d <> 0 -> is_Some (doms w !! d) ->
  iommu_flush_iotlb d a n vfio w = Some (0, w) /\
  ats_handle_invalidation_request d (Some (a, n)) true vfio w = Some (0, Some ATS_INVALIDATION_SUCCESS, w).
Proof.
  intros Hd [x Hx]. unfold iommu_flush_iotlb, ats_handle_invalidation_request. replace (d =? 0) with false by lia. cbn [negb orb].
  assert (flush_by_ops d None vfio w = Some w) as ->; [|done]. unfold flush_by_ops, ops_set. rewrite Hx. simpl.
  destruct (d_ops x); [|done]. unfold default_flush_iotlb, iommu_domain_priv. replace (d =? 0) with false by lia.
  destruct (vfio =? 0); [done|]. rewrite Hx. simpl. by destruct (d_priv x).
Qed.
(** The page of frame 0 is mapped, and a translation says it is not. *)
Lemma frame_zero_unmapped :
  let w := world_after [OAlloc 1 (Some 100) true; OMap 100 0 0 4096 3] in
  fst <$> iommu_map 100 0 0x1000 4096 3 w = Some IOMMU_ERR_EREMOTEIO /\
  ats_handle_translation_request 100 (Some (mk_ats_req 0 0)) true w = Some (0, Some (0, ATS_COMPLETION_UNMAPPED)).
Proof. vm_compute. by split. Qed.
(** The protection bits are not looked at. *)
Lemma prot_ignored {D : Type} d iova paddr size prot prot' (w : iommu_world D) :
  iommu_map d iova paddr size prot w = iommu_map d iova paddr size prot' w.
Proof. done. Qed.
(** A page beyond the aperture of 16 MiB is mapped and translated, and a request
    for an address without any mapping, aligned or not, succeeds as unmapped. *)
Lemma aperture_not_checked :
  let w := world_after [OAlloc 1 (Some 100) true; OMap 100 0x10000000 0x5000 4096 3] in
  ats_handle_translation_request 100 (Some (mk_ats_req 0x10000000 0)) true w = Some (0, Some (0x5000, ATS_COMPLETION_SUCCESS)) /\
  ats_handle_translation_request 100 (Some (mk_ats_req 0xFFFFFFFFFFFFFFFF 0)) true w = Some (0, Some (0, ATS_COMPLETION_UNMAPPED)).
Proof. vm_compute. by split. Qed.
(** A translation looks its address up as it is: inside a mapped page it finds
    nothing. *)
Lemma offset_not_translated :
  let w := world_after [OAlloc 1 (Some 100) true; OMap 100 0x2000 0x200000 4096 3] in
  ats_handle_translation_request 100 (Some (mk_ats_req 0x2010 0)) true w = Some (0, Some (0, ATS_COMPLETION_UNMAPPED)).
Proof. by vm_compute. Qed.
(** A notifier unregistered through another domain is still called by the
    first. *)
Lemma stale_notifier :
  let w := world_after (small_ops ++ [OUnregister 200 10]) in
  find_entry 10 (mns w) = None /\ (drv ∘ snd) <$> iommu_unmap 100 0x3000 4096 1 w = Some [10; 20].
Proof. vm_compute. by split. Qed.
(** Freeing a domain leaves its notifiers in the registry, where a second
    registration is refused. *)
Lemma free_keeps_notifiers :
  let w := world_after (small_ops ++ [OFree 100; OAttachMm 200 8]) in
  fst <$> iommu_invalidate_register_notifier_internal 200 10 w = Some (-22) /\
  find_entry 10 (mns w) = Some (mk_entry 7 10).
Proof. vm_compute. by split. Qed.
(** A call on a freed domain, and a second free, read freed memory. *)
Lemma freed_domain_undefined :
  let w := world_after (small_ops ++ [OFree 100]) in
  iommu_map 100 0x3000 0x8000 4096 3 w = None /\ iommu_unmap 100 0x3000 4096 1 w = None /\ iommu_domain_free 100 w = None.
Proof. vm_compute. by repeat split. Qed.
