(* ===== verification/IommuGroups.v ===== *)
(** * IOMMU groups, device registration and IOASIDs

    [plugins/iommu_driver/iommu_group.cpp], [ioasid.cpp], the start and stop of
    [iommu.cpp], [vfio_bridge.cpp], and
    [plugins/pci_driver/pci_iommu_integration.cpp].  Groups, members, devices
    and IOASIDs are named by their addresses; what [malloc] and [new] answer are
    arguments.  [None] is undefined behaviour: a freed object dereferenced, or a
    vector changed under a loop over it. *)
From S2P Require Import Prelude Bytes SimMem Uvm Iommu.

Record iommu_group_state := mk_group_state { st_group_id : Z; st_members : list Z }.
(** [members]: the linked list from its head, each member with its device. *)
Record iommu_group := mk_group {
  g_id : Z; ndevices : Z; members : list (Z * Z); default_domain : Z; g_priv : option iommu_group_state
}.
#[export] Instance eta_group : Eta iommu_group := fun g =>
  mk_group (g_id g) (ndevices g) (members g) (default_domain g) (g_priv g).

Record iommu_emu_state (D : Type) := mk_emu {
  initialized : bool; iommu : iommu_world D; grps : gmap Z iommu_group; g_groups : list Z;
  device_to_group : gmap Z Z; g_next_group_id : Z;
  ioasid_table : gmap Z Z; ioasid_next : Z; g_ioasid_next : Z; ioasids : gmap Z Z
}.
Arguments mk_emu {D}. Arguments initialized {D}. Arguments iommu {D}. Arguments grps {D}. Arguments g_groups {D}.
Arguments device_to_group {D}. Arguments g_next_group_id {D}. Arguments ioasid_table {D}. Arguments ioasid_next {D}.
Arguments g_ioasid_next {D}. Arguments ioasids {D}.
#[export] Instance eta_emu D : Eta (iommu_emu_state D) := fun s =>
  mk_emu (initialized s) (iommu s) (grps s) (g_groups s) (device_to_group s) (g_next_group_id s)
    (ioasid_table s) (ioasid_next s) (g_ioasid_next s) (ioasids s).
Definition emu_start {D} (w : iommu_world D) : iommu_emu_state D := mk_emu false w ∅ [] ∅ 0 ∅ 0 1 ∅.

Section Groups.
  Context {D : Type}.
  Implicit Types s : iommu_emu_state D.

(** ** Groups *)
Definition iommu_group_alloc (object : option Z) (state : bool) s : Z * iommu_emu_state D :=
  match object with
  | None => (0, s)
  | Some g =>
      let id := g_next_group_id s in
      let s := s <| g_next_group_id ::= fun n => s32 (n + 1) |> in
      if negb state then (0, s)
      else (g, s <| grps ::= <[g := mk_group id 0 [] 0 (Some (mk_group_state id []))]> |>
                 <| g_groups ::= fun l => l ++ [g] |>)
  end.
Definition iommu_group_free (g : Z) s : option (iommu_emu_state D) :=
  if g =? 0 then Some s
  else gr ← grps s !! g;
  w ← if default_domain gr =? 0 then Some (iommu s) else iommu_domain_free (default_domain gr) (iommu s);
  Some (s <| iommu := w |> <| g_groups ::= erase_value g |> <| grps ::= delete g |>).
Definition upd_group (g : Z) (f : iommu_group -> iommu_group) s : iommu_emu_state D := s <| grps ::= alter f g |>.
Definition iommu_group_add_device (g dev : Z) (member : option Z) s : option (Z * iommu_emu_state D) :=
  if (g =? 0) || (dev =? 0) then Some (IOMMU_ERR_EINVAL, s)
  else if bool_decide (is_Some (device_to_group s !! dev)) then Some (IOMMU_ERR_EBUSY, s)
  else match member with
  | None => Some (IOMMU_ERR_ENOMEM, s)
  | Some m =>
      gr ← grps s !! g;
      Some (0, upd_group g (fun gr => gr <| members ::= cons (m, dev) |> <| ndevices ::= Z.succ |>
                 <| g_priv ::= fmap (fun st => mk_group_state (st_group_id st) (st_members st ++ [m])) |>) s
               <| device_to_group ::= <[dev := g]> |>)
  end.
(** The walk along the list: the list without the first member for [dev]. *)
Fixpoint unlink (dev : Z) (l : list (Z * Z)) : option (list (Z * Z)) :=
  match l with
  | [] => None
  | m :: l' => if m.2 =? dev then Some l' else cons m <$> unlink dev l'
  end.
Definition iommu_group_remove_device (g dev : Z) s : option (Z * iommu_emu_state D) :=
  if (g =? 0) || (dev =? 0) then Some (IOMMU_ERR_EINVAL, s)
  else gr ← grps s !! g;
  match unlink dev (members gr) with
  | None => Some (IOMMU_ERR_ENODEV, s)
  | Some l => Some (0, upd_group g (fun gr => gr <| members := l |> <| ndevices ::= Z.pred |>) s
                       <| device_to_group ::= delete dev |>)
  end.
Definition iommu_group_get (dev : Z) s : Z := if dev =? 0 then 0 else default 0 (device_to_group s !! dev).
Definition iommu_group_default_domain (g : Z) s : option Z :=
  if g =? 0 then Some 0 else default_domain <$> grps s !! g.
Definition iommu_group_set_default_domain (g d : Z) s : option (Z * iommu_emu_state D) :=
  if g =? 0 then Some (IOMMU_ERR_EINVAL, s)
  else gr ← grps s !! g; Some (0, upd_group g (fun gr => gr <| default_domain := d |>) s).

(** ** Start and stop *)
Definition iommu_emu_init s : Z * iommu_emu_state D :=
  if initialized s then (0, s)
  else (0, s <| ioasid_table := ∅ |> <| ioasid_next := 1 |> <| initialized := true |>).
(** [iommu_group_free] and [iommu_domain_free] take the object out of the very
    vector the loop runs over. *)
Definition iommu_emu_shutdown s : option (iommu_emu_state D) :=
  if negb (initialized s) then Some s
  else match g_groups s, g_domains (iommu s) with
  | [], [] =>
      let freed := seqZ 1 0xFFFE in
      Some (s <| ioasids ::= filter (fun o => ioasid_table s !! o.2 <> Some o.1 \/ o.2 ∉ freed) |>
              <| ioasid_table ::= filter (fun e => e.1 ∉ freed) |>
              <| device_to_group := ∅ |> <| initialized := false |>)
  | _, _ => None
  end.

(** ** PCI devices *)
Definition IOMMU_DOMAIN_DMA : Z := 1.
Definition iommu_register_pci_device (dev : Z) (gobject : option Z) (gstate : bool) (member dobject : option Z) (dstate : bool)
    s : option (Z * iommu_emu_state D) :=
  if dev =? 0 then Some (0, s)
  else if negb (initialized s) then Some (0, s)
  else match device_to_group s !! dev with
  | Some g => Some (g, s)
  | None =>
      let '(g, s) := iommu_group_alloc gobject gstate s in
      if g =? 0 then Some (0, s)
      else '(ret, s) ← iommu_group_add_device g dev member s;
      if negb (ret =? 0) then s ← iommu_group_free g s; Some (0, s)
      else
        let '(d, w) := iommu_domain_alloc IOMMU_DOMAIN_DMA dobject dstate (iommu s) in
        let s := s <| iommu := w |> in
        if d =? 0 then s ← iommu_group_free g s; Some (0, s)
        else
        w ← set_ops d true (iommu s);
        '(_, s) ← iommu_group_set_default_domain g d (s <| iommu := w |>); Some (g, s)
  end.
Definition iommu_unregister_pci_device (dev : Z) s : option (Z * iommu_emu_state D) :=
  if dev =? 0 then Some (IOMMU_ERR_EINVAL, s)
  else if negb (initialized s) then Some (IOMMU_ERR_ENOSYS, s)
  else match device_to_group s !! dev with
  | None => Some (IOMMU_ERR_ENODEV, s)
  | Some g => iommu_group_remove_device g dev s
  end.

(** ** IOASIDs *)
Definition free_id (id : Z) (t : gmap Z Z) : bool := bool_decide (t !! id = None).
(** The loop: the slot found, and the cursor left behind. *)
Fixpoint ioasid_search (n : nat) (start next : Z) (t : gmap Z Z) : option Z * Z :=
  match n with
  | O => (None, next)
  | S n' =>
      let candidate := next in
      let next := Z.land (u32 (next + 1)) 0xFFFF in
      let next := if next =? 0 then 1 else next in
      if free_id candidate t then (Some candidate, next)
      else if next =? start then (None, next)
      else ioasid_search n' start next t
  end.
Definition ioasid_alloc (object : option Z) s : Z * iommu_emu_state D :=
  match object with
  | None => (0, s)
  | Some o =>
      let '(found, next) := ioasid_search (Z.to_nat 0xFFFF) (g_ioasid_next s) (g_ioasid_next s) (ioasid_table s) in
      let s := s <| g_ioasid_next := next |> in
      match found with
      | None => (0, s)
      | Some id => (o, s <| ioasid_table ::= <[id := o]> |> <| ioasids ::= <[o := id]> |>)
      end
  end.
Definition ioasid_alloc_id (id : Z) (object : option Z) s : Z * iommu_emu_state D :=
  if (id =? 0) || (0xFFFF <=? id) then (0, s)
  else if negb (free_id id (ioasid_table s)) then (0, s)
  else match object with
  | None => (0, s)
  | Some o => (o, s <| ioasid_table ::= <[id := o]> |> <| ioasids ::= <[o := id]> |>)
  end.
Definition ioasid_free (o : Z) s : option (Z * iommu_emu_state D) :=
  if o =? 0 then Some (IOMMU_ERR_EINVAL, s)
  else id ← ioasids s !! o;
  if (id =? 0) || (0xFFFF <=? id) then Some (IOMMU_ERR_ENODEV, s)
  else if negb (bool_decide (ioasid_table s !! id = Some o)) then Some (IOMMU_ERR_ENODEV, s)
  else Some (0, s <| ioasid_table ::= delete id |> <| ioasids ::= delete o |>).
Definition ioasid_find (id : Z) s : Z :=
  if (id =? 0) || (0xFFFF <=? id) then 0 else default 0 (ioasid_table s !! id).
Definition ioasid_id (o : Z) s : option Z := if o =? 0 then Some 0 else ioasids s !! o.
End Groups.

(** ** The VFIO bridge *)
Record vfio_state := mk_vfio { g_vfio_fd : Z; g_vfio_warned : bool }.
(** [env]: the variable is set; [opened]: what [open] answers. *)
Definition us_iommu_vfio_available (env : bool) (opened : Z) (v : vfio_state) : Z * vfio_state :=
  if negb env then (0, v)
  else if 0 <=? g_vfio_fd v then (1, v)
  else if opened <? 0 then (0, mk_vfio opened true)
  else (1, mk_vfio opened (g_vfio_warned v)).
Definition us_iommu_vfio_invalidate (env : bool) (opened : Z) (ioctl : Z -> Z) (v : vfio_state) : Z * vfio_state :=
  let '(ok, v) := us_iommu_vfio_available env opened v in
  if ok =? 0 then (IOMMU_ERR_ENOSYS, v) else (ioctl (g_vfio_fd v), v).
Definition us_iommu_vfio_reset (v : vfio_state) : vfio_state :=
  mk_vfio (if 0 <=? g_vfio_fd v then -1 else g_vfio_fd v) false.

(** ** The group registry *)
Section Registry.
  Context {D : Type}.
  Implicit Types s : iommu_emu_state D.

Definition devices (gr : iommu_group) : list Z := (members gr).*2.
Record groups_ok s : Prop := {
  go_null : grps s !! 0 = None;
  go_device : forall dev g, device_to_group s !! dev = Some g <-> exists gr, grps s !! g = Some gr /\ dev ∈ devices gr;
  go_dev : device_to_group s !! 0 = None;
  go_members : forall g gr, grps s !! g = Some gr -> NoDup (devices gr) /\ ndevices gr = Z.of_nat (length (members gr));
  go_ids : forall g g' gr gr', grps s !! g = Some gr -> grps s !! g' = Some gr' -> g_id gr = g_id gr' -> g = g';
  go_next : forall g gr, grps s !! g = Some gr -> g_id gr < g_next_group_id s;
  go_count : 0 <= g_next_group_id s < 2 ^ 31;
  go_list : NoDup (g_groups s) /\ forall g, g ∈ g_groups s <-> is_Some (grps s !! g)
}.
(** What the groups depend on. *)
Definition same_groups s s' : Prop :=
  grps s' = grps s /\ g_groups s' = g_groups s /\ device_to_group s' = device_to_group s /\ g_next_group_id s' = g_next_group_id s.
Lemma groups_ok_same s s' : same_groups s s' -> groups_ok s -> groups_ok s'.
Proof. intros (E1 & E2 & E3 & E4) []. split; rewrite ?E1, ?E2, ?E3, ?E4; done. Qed.

Lemma unlink_spec dev l : match unlink dev l with
  | Some l' => exists l1 m l2, l = l1 ++ (m, dev) :: l2 /\ l' = l1 ++ l2
  | None => dev ∉ l.*2
  end.
Proof.
  induction l as [|[m x] l IH]; simpl; [set_solver|]. destruct (Z.eqb_spec x dev) as [->|Hne]; [by exists [], m, l|].
  destruct (unlink dev l) as [l'|]; simpl; [|set_solver]. destruct IH as (l1 & m' & l2 & -> & ->). by exists ((m, x) :: l1), m', l2.
Qed.
Lemma erase_value_perm d l : NoDup l -> NoDup (erase_value d l) /\ forall x, x ∈ erase_value d l <-> x ∈ l /\ x <> d.
Proof.
  induction 1 as [|x l Hx Hnd [IHn IHe]]; simpl; [split; [constructor|set_solver]|].
  destruct (Z.eqb_spec x d) as [->|]; [set_solver|]. split; [constructor; set_solver|set_solver].
Qed.

Lemma alloc_group_ok g s : groups_ok s -> g <> 0 -> grps s !! g = None -> g_next_group_id s + 1 < 2 ^ 31 ->
  groups_ok (iommu_group_alloc (Some g) true s).2.
Proof.
  intros [Hn Hd H0 Hm Hi Hx Hc [Hl He]] Hg Hf Hr. split; cbn [snd grps device_to_group g_groups g_next_group_id field_upd iommu_group_alloc negb].
  - by rewrite lookup_insert_ne.
  - intros dev g'. rewrite Hd. destruct (decide (g' = g)) as [->|]; [|by rewrite lookup_insert_ne].
    rewrite lookup_insert_eq, Hf. split; [by intros (? & ? & _)|]. intros (? & [= <-] & H). unfold devices in H; simpl in H. set_solver.
  - done.
  - intros g' gr. destruct (decide (g' = g)) as [->|]; [|rewrite lookup_insert_ne by done; apply Hm].
    rewrite lookup_insert_eq. intros [= <-]. split; [constructor|done].
  - intros a b x y. destruct (decide (a = g)) as [->|], (decide (b = g)) as [->|];
      rewrite ?lookup_insert_eq, ?lookup_insert_ne by done; try done; try apply Hi.
    + intros [= <-] Hb E. apply Hx in Hb. simpl in E. lia.
    + intros Ha [= <-] E. apply Hx in Ha. simpl in E. lia.
  - intros g' gr. destruct (decide (g' = g)) as [->|]; [rewrite lookup_insert_eq; intros [= <-]; simpl; rewrite s32_id; lia|].
    rewrite lookup_insert_ne by done. intros H%Hx. rewrite s32_id; lia.
  - rewrite s32_id; lia.
  - split; [apply NoDup_app; split; [done|]; split; [|apply NoDup_singleton]|].
    + intros x H%He ->%list_elem_of_singleton. rewrite Hf in H. by destruct H.
    + intros x. rewrite elem_of_app, list_elem_of_singleton, He. destruct (decide (x = g)) as [->|];
        rewrite ?lookup_insert_eq, ?lookup_insert_ne by done; [|tauto].
      split; [by eexists|by right].
Qed.
(** The default domain of a group to be freed: none, or a live one. *)
Definition domain_live (gr : iommu_group) s : Prop := default_domain gr = 0 \/ is_Some (doms (iommu s) !! default_domain gr).
Lemma free_group_run g s gr : g <> 0 -> grps s !! g = Some gr -> domain_live gr s ->
  exists w, iommu_group_free g s = Some (s <| iommu := w |> <| g_groups ::= erase_value g |> <| grps ::= delete g |>).
Proof.
  intros Hg0 Hg Hdd. unfold iommu_group_free. replace (g =? 0) with false by lia. rewrite Hg. simpl.
  destruct (Z.eqb_spec (default_domain gr) 0); simpl; [by eexists|]. unfold iommu_domain_free.
  replace (default_domain gr =? 0) with false by lia. destruct Hdd as [|[x ->]]; [done|]. simpl. by eexists.
Qed.
Lemma free_group_ok g s gr : groups_ok s -> grps s !! g = Some gr -> members gr = [] -> domain_live gr s ->
  exists s', iommu_group_free g s = Some s' /\ groups_ok s' /\ grps s' = delete g (grps s) /\
    device_to_group s' = device_to_group s /\ initialized s' = initialized s /\ g_next_group_id s' = g_next_group_id s.
Proof.
  intros [Hn Hd H0 Hm Hi Hx Hc [Hl He]] Hg Hmem Hdd. destruct (free_group_run g s gr) as [w ->]; [congruence|done..|].
  set (t := s <| iommu := w |>).
  assert (same_groups s t /\ initialized t = initialized s) as ((E1 & E2 & E3 & E4) & E5) by done.
  clearbody t. eexists. split; [done|]. cbn [grps device_to_group initialized g_next_group_id field_upd]. rewrite E1, E3, E4, E5.
  split; [|done]. destruct (erase_value_perm g (g_groups s) Hl) as [Hnd Hel].
  split; cbn [grps device_to_group g_groups g_next_group_id field_upd]; rewrite ?E1, ?E2, ?E3, ?E4.
  - apply lookup_delete_None. by right.
  - intros dev g'. rewrite Hd. apply exist_proper. intros x. rewrite lookup_delete_Some. split; [|naive_solver].
    intros [H1 H2]. split; [split; [|done]|done]. intros ->. rewrite Hg in H1. injection H1 as <-. unfold devices in H2. rewrite Hmem in H2. set_solver.
  - done.
  - intros g' x [_ H]%lookup_delete_Some. by eapply Hm.
  - intros a b x y [_ Ha]%lookup_delete_Some [_ Hb]%lookup_delete_Some. by eapply Hi.
  - intros g' x [_ H]%lookup_delete_Some. by eapply Hx.
  - done.
  - split; [done|]. intros x. rewrite Hel, He. destruct (decide (x = g)) as [->|].
    + rewrite lookup_delete_eq. split; [naive_solver|by intros []].
    + rewrite lookup_delete_ne by done. naive_solver.
Qed.
(** A group changes its members, and the device map with it. *)
Lemma members_ok s g gr gr' dv : groups_ok s -> grps s !! g = Some gr -> g_id gr' = g_id gr ->
  NoDup (devices gr') -> ndevices gr' = Z.of_nat (length (members gr')) -> dv !! 0 = None ->
  (forall dev h, dv !! dev = Some h <-> h = g /\ dev ∈ devices gr' \/ h <> g /\ device_to_group s !! dev = Some h) ->
  forall s', grps s' = <[g := gr']> (grps s) -> device_to_group s' = dv -> g_groups s' = g_groups s ->
    g_next_group_id s' = g_next_group_id s -> groups_ok s'.
Proof.
  intros [Hn Hd H0 Hm Hi Hx Hc [Hl He]] Hg Hid Hnd Hlen Hdv0 Hdv s' E1 E2 E3 E4.
  assert (g <> 0) as Hg0 by congruence. split; rewrite ?E1, ?E2, ?E3, ?E4.
  - by rewrite lookup_insert_ne.
  - intros dev h. rewrite Hdv. destruct (decide (h = g)) as [->|].
    + rewrite lookup_insert_eq. naive_solver.
    + rewrite lookup_insert_ne, Hd by done. naive_solver.
  - done.
  - intros h x. destruct (decide (h = g)) as [->|]; [rewrite lookup_insert_eq; by intros [= <-]|].
    rewrite lookup_insert_ne by done. apply Hm.
  - intros a b x y. destruct (decide (a = g)) as [->|], (decide (b = g)) as [->|];
      rewrite ?lookup_insert_eq, ?lookup_insert_ne by done; try done; [intros [= <-] ?|intros ? [= <-]|by apply Hi];
      rewrite Hid; by eapply Hi.
  - intros h x. destruct (decide (h = g)) as [->|]; [rewrite lookup_insert_eq; intros [= <-]; rewrite Hid; by eapply Hx|].
    rewrite lookup_insert_ne by done. apply Hx.
  - done.
  - split; [done|]. intros h. rewrite He. destruct (decide (h = g)) as [->|]; [|by rewrite lookup_insert_ne].
    rewrite lookup_insert_eq, Hg. split; intros _; by eexists.
Qed.

Lemma alter_insert_Some {A} (f : A -> A) (m : gmap Z A) i x : m !! i = Some x -> alter f i m = <[i := f x]> m.
Proof. intros E. apply map_eq. intros j. destruct (decide (j = i)) as [->|]; by rewrite ?lookup_alter_eq, ?lookup_insert_eq, ?E, ?lookup_alter_ne, ?lookup_insert_ne. Qed.
Lemma upd_group_at g f s gr : grps s !! g = Some gr -> grps (upd_group g f s) = <[g := f gr]> (grps s).
Proof. apply alter_insert_Some. Qed.
Lemma add_device_ok g dev member s gr : groups_ok s -> grps s !! g = Some gr ->
  exists r s', iommu_group_add_device g dev member s = Some (r, s') /\ groups_ok s' /\ initialized s' = initialized s /\
    iommu s' = iommu s /\
    (dev <> 0 -> device_to_group s !! dev = None -> forall m, member = Some m ->
       r = 0 /\ device_to_group s' = <[dev := g]> (device_to_group s) /\
       exists gr', grps s' = <[g := gr']> (grps s) /\ members gr' = (m, dev) :: members gr) /\
    (r <> 0 -> s' = s) /\ (member = None -> r <> 0).
Proof.
  intros Hok Hg. assert (g <> 0) as Hg0 by (intros ->; rewrite go_null in Hg; done).
  unfold iommu_group_add_device. replace (g =? 0) with false by lia. destruct (Z.eqb_spec dev 0) as [->|Hdev]; cbn [orb].
  { by exists IOMMU_ERR_EINVAL, s. }
  case_bool_decide as Hb; [exists IOMMU_ERR_EBUSY, s; split; [done|]; split; [done|]; split; [done|]; split; [done|]; split; [|done];
    intros _ E; rewrite E in Hb; by destruct Hb|].
  destruct member as [m|]; [|by exists IOMMU_ERR_ENOMEM, s]. rewrite Hg. simpl.
  assert (device_to_group s !! dev = None) as Hf by (destruct (device_to_group s !! dev); [by destruct Hb|done]).
  set (gr' := gr <| members ::= cons (m, dev) |> <| ndevices ::= Z.succ |>
                 <| g_priv ::= fmap (fun st => mk_group_state (st_group_id st) (st_members st ++ [m])) |>).
  eexists 0, _. split; [done|]. destruct (go_members s Hok g gr Hg) as [Hnd Hlen].
  assert (dev ∉ devices gr) as Hni.
  { intros Hin. assert (device_to_group s !! dev = Some g) as E by (apply (go_device s Hok); by exists gr). congruence. }
  split; [|split; [done|split; [done|split; [|done]]]].
  - eapply (members_ok s g gr gr' (<[dev := g]> (device_to_group s)) Hok Hg eq_refl); try done.
    + unfold devices, gr'; simpl. by constructor.
    + unfold gr'; simpl. lia.
    + rewrite lookup_insert_ne by done. apply go_dev, Hok.
    + intros x h. unfold devices, gr'; simpl. fold (devices gr). rewrite elem_of_cons. destruct (decide (x = dev)) as [->|Hx].
      * rewrite lookup_insert_eq, Hf. naive_solver.
      * rewrite lookup_insert_ne, (go_device s Hok) by done. split; [|naive_solver]. intros (y & Hy & Hin).
        destruct (decide (h = g)) as [->|]; [left|right; split; [done|]; by exists y].
        split; [done|]. right. by replace gr with y by congruence.
    + exact (upd_group_at _ _ _ _ Hg).
  - intros _ _ ? [= <-]. split; [done|]. split; [done|]. exists gr'. split; [|done]. exact (upd_group_at _ _ _ _ Hg).
Qed.
Lemma remove_device_ok g dev s gr : groups_ok s -> grps s !! g = Some gr ->
  exists r s', iommu_group_remove_device g dev s = Some (r, s') /\ groups_ok s' /\ initialized s' = initialized s /\
    iommu s' = iommu s /\ dom (grps s') = dom (grps s) /\
    (dev ∈ devices gr -> r = 0 /\ device_to_group s' = delete dev (device_to_group s)) /\ (dev ∉ devices gr -> r <> 0 /\ s' = s).
Proof.
  intros Hok Hg. assert (g <> 0) as Hg0 by (intros ->; rewrite go_null in Hg; done).
  destruct (go_members s Hok g gr Hg) as [Hnd Hlen].
  unfold iommu_group_remove_device. replace (g =? 0) with false by lia. destruct (Z.eqb_spec dev 0) as [->|Hdev]; cbn [orb].
  { exists IOMMU_ERR_EINVAL, s. do 5 (split; [done|]). split; [|done]. intros Hin.
    assert (device_to_group s !! 0 = Some g) as E by (apply (go_device s Hok); by exists gr). by rewrite (go_dev s Hok) in E. }
  rewrite Hg. simpl. pose proof (unlink_spec dev (members gr)) as Hu. destruct (unlink dev (members gr)) as [l|].
  2: { by exists IOMMU_ERR_ENODEV, s. }
  destruct Hu as (l1 & m & l2 & Hl & ->).
  assert (devices gr = l1.*2 ++ dev :: l2.*2) as Hds by (unfold devices; by rewrite Hl, fmap_app).
  set (gr' := gr <| members := l1 ++ l2 |> <| ndevices ::= Z.pred |>).
  assert (devices gr' = l1.*2 ++ l2.*2) as Hds' by (unfold devices; simpl; apply fmap_app).
  rewrite Hds in Hnd |- *. apply NoDup_app in Hnd as (Hn1 & Hn12 & [Hd2 Hn2]%NoDup_cons).
  eexists 0, _. split; [done|]. split; [|split; [done|split; [done|split; [|split]]]].
  - eapply (members_ok s g gr gr' (delete dev (device_to_group s)) Hok Hg eq_refl); try done.
    + rewrite Hds'. apply NoDup_app. split; [done|]. split; [|done]. intros x Hx Hx'. apply (Hn12 x Hx). by right.
    + unfold gr'; simpl. rewrite Hlen, Hl, !length_app. simpl. lia.
    + apply lookup_delete_None. right. apply go_dev, Hok.
    + intros x h. rewrite Hds', elem_of_app. destruct (decide (x = dev)) as [->|Hx].
      * rewrite lookup_delete_eq. split; [done|]. intros [[-> [Hin|Hin]]|[Hne Hin]].
        { exfalso. apply (Hn12 dev Hin). by left. } { done. }
        apply (go_device s Hok) in Hin as (y & Hy & Hin).
        assert (device_to_group s !! dev = Some g) as E1 by (apply (go_device s Hok); exists gr; rewrite Hds; set_solver).
        assert (device_to_group s !! dev = Some h) as E2 by (apply (go_device s Hok); by exists y). congruence.
      * rewrite lookup_delete_ne, (go_device s Hok) by done. split.
        2: { intros [[-> Hin]|(_ & y & Hy & Hin)]; [exists gr; split; [done|]; rewrite Hds; set_solver|by exists y]. }
        intros (y & Hy & Hin). destruct (decide (h = g)) as [->|]; [left|right; split; [done|]; by exists y].
        replace y with gr in Hin by congruence. rewrite Hds in Hin. set_solver.
    + exact (upd_group_at _ _ _ _ Hg).
  - unfold upd_group; simpl. by rewrite dom_alter_L.
  - intros _. done.
  - intros H. exfalso. apply H. set_solver.
Qed.
Lemma set_default_ok g d s gr : groups_ok s -> grps s !! g = Some gr ->
  exists s', iommu_group_set_default_domain g d s = Some (0, s') /\ groups_ok s' /\ initialized s' = initialized s /\
    iommu s' = iommu s /\ device_to_group s' = device_to_group s /\
    grps s' = <[g := gr <| default_domain := d |>]> (grps s).
Proof.
  intros Hok Hg. assert (g <> 0) as Hg0 by (intros ->; rewrite go_null in Hg; done).
  unfold iommu_group_set_default_domain. replace (g =? 0) with false by lia. rewrite Hg. simpl.
  eexists. split; [done|]. split; [|do 3 (split; [done|]); exact (upd_group_at _ _ _ _ Hg)].
  destruct (go_members s Hok g gr Hg) as [Hnd Hlen].
  set (gr' := gr <| default_domain := d |>).
  eapply (members_ok s g gr gr' (device_to_group s) Hok Hg eq_refl); try done.
  - apply go_dev, Hok.
  - intros x h. change (devices gr') with (devices gr). rewrite (go_device s Hok).
    destruct (decide (h = g)) as [->|]; naive_solver.
  - exact (upd_group_at _ _ _ _ Hg).
Qed.

(** The addresses [malloc] answers are in no use. *)
Definition fresh_group (g : option Z) s : Prop := forall x, g = Some x -> x <> 0 /\ grps s !! x = None.
Definition registered (dev g m d : Z) s s' : Prop :=
  device_to_group s' = <[dev := g]> (device_to_group s) /\
  (exists gr, grps s' = <[g := gr]> (grps s) /\ members gr = [(m, dev)] /\ default_domain gr = d) /\
  doms (iommu s') = <[d := mk_domain IOMMU_DOMAIN_DMA true 0x1000 (Some new_domain_state)]> (doms (iommu s)).
Lemma failed_group_ok s : groups_ok s -> g_next_group_id s + 1 < 2 ^ 31 ->
  groups_ok (s <| g_next_group_id ::= fun n => s32 (n + 1) |>).
Proof.
  intros [H1 H2 H3 H4 H5 H6 H7 H8] Hr. split; try done; cbn [grps g_next_group_id field_upd]; rewrite s32_id by lia; [|lia].
  intros x gr Hx%H6. lia.
Qed.
Lemma register_device_ok dev go gs m d ds s : groups_ok s -> fresh_group go s -> g_next_group_id s + 1 < 2 ^ 31 -> d <> Some 0 ->
  (is_Some m -> exists x, d = Some x /\ ds = true) ->
  exists r s', iommu_register_pci_device dev go gs m d ds s = Some (r, s') /\ groups_ok s' /\ initialized s' = initialized s /\
    (dev <> 0 -> initialized s = true ->
       match device_to_group s !! dev with
       | Some g => r = g /\ s' = s
       | None => forall g m' d', go = Some g -> gs = true -> m = Some m' -> d = Some d' -> r = g /\ registered dev g m' d' s s'
       end).
Proof.
  intros Hok Hgo Hr Hd Hm. unfold iommu_register_pci_device. destruct (Z.eqb_spec dev 0) as [->|Hdev]; [by exists 0, s|].
  destruct (initialized s) eqn:Hi; cbn [negb]; [|by exists 0, s]. destruct (device_to_group s !! dev) as [g|] eqn:Ed; [by exists g, s|].
  unfold iommu_group_alloc. destruct go as [g|]; [|by exists 0, s]. destruct (Hgo g eq_refl) as [Hg Hf].
  destruct gs; cbn [negb].
  2: { eexists 0, _. split; [done|]. split; [|by split]. by apply failed_group_ok. }
  replace (g =? 0) with false by lia.
  pose proof (alloc_group_ok g s Hok Hg Hf Hr) as Hok1. unfold iommu_group_alloc in Hok1. cbn [negb snd] in Hok1.
  set (gr := mk_group _ 0 [] 0 _) in *. set (s1 := s <| g_next_group_id ::= _ |> <| grps ::= _ |> <| g_groups ::= _ |>) in *.
  assert (grps s1 = <[g := gr]> (grps s) /\ device_to_group s1 = device_to_group s /\ iommu s1 = iommu s /\ initialized s1 = true)
    as (E1 & E2 & E3 & E4) by (unfold s1; done). clearbody s1.
  assert (grps s1 !! g = Some gr) as Hg1 by (rewrite E1; apply lookup_insert_eq).
  destruct (add_device_ok g dev m s1 gr Hok1 Hg1) as (r & s2 & -> & Hok2 & Hi2 & Hw2 & Hadd & Hsame & Hfail). simpl. destruct m as [m|].
  - destruct (Hm ltac:(by eexists)) as (d' & -> & ->). rewrite E2 in Hadd.
    destruct (Hadd Hdev Ed m eq_refl) as (-> & Hdt & gr2 & Hgr2 & Hmem). change (negb (0 =? 0)) with false. cbv iota.
    unfold iommu_domain_alloc. cbn [negb]. replace (d' =? 0) with false by (symmetry; apply Z.eqb_neq; congruence).
    unfold set_ops at 1. cbn [iommu doms field_upd]. rewrite lookup_insert_eq. simpl.
    set (s3 := s2 <| iommu := _ |> <| iommu := _ |>).
    assert (same_groups s2 s3) as Hs by done. pose proof (groups_ok_same _ _ Hs Hok2) as Hok3. destruct Hs as (F1 & _ & F3 & _).
    assert (doms (iommu s3) = <[d' := mk_domain IOMMU_DOMAIN_DMA true 0x1000 (Some new_domain_state)]> (doms (iommu s))) as Hw3.
    { unfold s3. cbn [iommu doms field_upd]. rewrite Hw2, E3, (alter_insert_Some _ _ d' _ (lookup_insert_eq _ _ _)), insert_insert_eq. done. }
    assert (initialized s3 = true) as Hi3 by (unfold s3; cbn; congruence). clearbody s3.
    assert (grps s3 !! g = Some gr2) as Hg3 by (rewrite F1, Hgr2; apply lookup_insert_eq).
    destruct (set_default_ok g d' s3 gr2 Hok3 Hg3) as (s4 & -> & Hok4 & Hi4 & Hw4 & Hdt4 & Hgr4). simpl.
    exists g, s4. split; [done|]. split; [done|]. split; [congruence|]. intros _ _ g' m' d'' [= <-] _ [= <-] [= <-].
    split; [done|]. split; [congruence|]. split; [|congruence].
    eexists. split; [rewrite Hgr4, F1, Hgr2, E1, !insert_insert_eq; reflexivity|]. by split.
  - specialize (Hfail eq_refl). rewrite (Hsame Hfail). replace (r =? 0) with false by lia. cbn [negb].
    destruct (free_group_ok g s1 gr Hok1 Hg1 eq_refl (or_introl eq_refl)) as (s3 & -> & Hok3 & _ & _ & Hi3 & _). simpl.
    exists 0, s3. split; [done|]. split; [done|]. split; [congruence|]. by intros.
Qed.

(** ** Runs *)
Inductive group_op :=
| GInit | GAlloc (object : option Z) (state : bool) | GFree (g : Z)
| GAdd (g dev : Z) (member : option Z) | GRemove (g dev : Z) | GSetDefault (g d : Z)
| GRegister (dev : Z) (gobject : option Z) (gstate : bool) (member dobject : option Z) (dstate : bool)
| GUnregister (dev : Z).
Definition emu_do (o : group_op) s : option (Z * iommu_emu_state D) :=
  match o with
  | GInit => Some (iommu_emu_init s)
  | GAlloc object state => Some (iommu_group_alloc object state s)
  | GFree g => s' ← iommu_group_free g s; Some (0, s')
  | GAdd g dev member => iommu_group_add_device g dev member s
  | GRemove g dev => iommu_group_remove_device g dev s
  | GSetDefault g d => iommu_group_set_default_domain g d s
  | GRegister dev go gs m d ds => iommu_register_pci_device dev go gs m d ds s
  | GUnregister dev => iommu_unregister_pci_device dev s
  end.
(** [malloc] returns unused non-null addresses, callers pass live groups, free
    only empty ones ([Caller must have removed all members first]) whose default
    domain has not been freed with another group, and a registration that gets
    its member gets its domain: [groups_exact] says what happens else. *)
Definition live_group (g : Z) s : Prop := g <> 0 -> is_Some (grps s !! g).
Definition gop_ok (o : group_op) s : Prop :=
  match o with
  | GInit | GUnregister _ => True
  | GAlloc go _ => fresh_group go s
  | GFree g => g <> 0 -> exists gr, grps s !! g = Some gr /\ members gr = [] /\ domain_live gr s
  | GAdd g _ _ | GRemove g _ | GSetDefault g _ => live_group g s
  | GRegister _ go _ m d ds => fresh_group go s /\ d <> Some 0 /\ (is_Some m -> exists x, d = Some x /\ ds = true)
  end.
Fixpoint gops_ok (os : list group_op) s : Prop :=
  match os with
  | [] => True
  | o :: os' => gop_ok o s /\ forall r s', emu_do o s = Some (r, s') -> gops_ok os' s'
  end.
Fixpoint emu_run (os : list group_op) s : option (list Z * iommu_emu_state D) :=
  match os with
  | [] => Some ([], s)
  | o :: os' => '(r, s) ← emu_do o s; '(rs, s) ← emu_run os' s; Some (r :: rs, s)
  end.

Lemma start_groups_ok w : groups_ok (emu_start w).
Proof.
  split; unfold emu_start; cbn [grps device_to_group g_groups g_next_group_id]; try apply lookup_empty.
  - intros dev g. rewrite lookup_empty. split; [done|]. by intros (? & ? & _).
  - intros g gr. by rewrite lookup_empty.
  - intros g g' gr gr'. by rewrite lookup_empty.
  - intros g gr. by rewrite lookup_empty.
  - done.
  - split; [constructor|]. intros g. rewrite lookup_empty. split; [intros H; by apply elem_of_nil in H|by intros []].
Qed.
Lemma null_group_free s : iommu_group_free 0 s = Some s.
Proof. done. Qed.
Lemma unregister_device_ok dev s : groups_ok s ->
  exists r s', iommu_unregister_pci_device dev s = Some (r, s') /\ groups_ok s' /\ initialized s' = initialized s /\
    iommu s' = iommu s /\ dom (grps s') = dom (grps s) /\
    (dev <> 0 -> initialized s = true -> is_Some (device_to_group s !! dev) ->
       r = 0 /\ device_to_group s' = delete dev (device_to_group s)).
Proof.
  intros Hok. unfold iommu_unregister_pci_device. destruct (Z.eqb_spec dev 0) as [->|Hdev]; [by exists IOMMU_ERR_EINVAL, s|].
  destruct (initialized s) eqn:Hi; cbn [negb]; [|by exists IOMMU_ERR_ENOSYS, s].
  destruct (device_to_group s !! dev) as [g|] eqn:Ed.
  - pose proof Ed as Ed'. apply (go_device s Hok) in Ed' as (gr & Hg & Hin).
    destruct (remove_device_ok g dev s gr Hok Hg) as (r & s' & E & Hok' & Hi' & Hw & Hdom & Hyes & _).
    exists r, s'. split; [done|]. split; [done|]. split; [congruence|]. split; [done|]. split; [done|]. intros _ _ _. by apply Hyes.
  - exists IOMMU_ERR_ENODEV, s. do 5 (split; [done|]). intros _ _ H. by destruct H.
Qed.
(** A call counts at most one group id. *)
Lemma emu_do_next o s r s' : emu_do o s = Some (r, s') -> 0 <= g_next_group_id s -> g_next_group_id s + 1 < 2 ^ 31 ->
  g_next_group_id s' <= g_next_group_id s + 1.
Proof.
  intros E Hn Hr. pose proof (s32_id (g_next_group_id s + 1) ltac:(lia)) as H32.
  destruct o; cbn [emu_do] in E; unfold iommu_emu_init, iommu_group_free, iommu_group_add_device,
    iommu_group_remove_device, iommu_group_set_default_domain, iommu_register_pci_device, iommu_unregister_pci_device,
    iommu_group_free, iommu_group_add_device, iommu_group_remove_device, iommu_group_set_default_domain,
    iommu_group_alloc, upd_group in E.
  all: repeat (first [progress simplify_option_eq | case_match]; cbn [g_next_group_id field_upd]); try lia.
Qed.
Lemma emu_do_ok o s : groups_ok s -> gop_ok o s -> g_next_group_id s + 1 < 2 ^ 31 ->
  exists r s', emu_do o s = Some (r, s') /\ groups_ok s'.
Proof.
  intros Hok Ho Hr. destruct o as [|go gs|g|g dev m|g dev|g d|dev go gs m d ds|dev]; cbn [emu_do].
  - destruct (iommu_emu_init s) as [r s'] eqn:E. exists r, s'. split; [done|]. eapply groups_ok_same; [|exact Hok].
    unfold iommu_emu_init in E. destruct (initialized s); injection E as <- <-; done.
  - destruct (iommu_group_alloc go gs s) as [r s'] eqn:E. exists r, s'. split; [done|].
    destruct go as [g|]; [|by injection E as <- <-]. destruct (Ho g eq_refl). destruct gs.
    + replace s' with (iommu_group_alloc (Some g) true s).2 by by rewrite E. by apply alloc_group_ok.
    + injection E as <- <-. by apply failed_group_ok.
  - destruct (decide (g = 0)) as [->|Hg]; [rewrite null_group_free; simpl; by exists 0, s|].
    destruct (Ho Hg) as (gr & Hgr & Hm & Hl). destruct (free_group_ok g s gr Hok Hgr Hm Hl) as (s' & -> & Hs & _). simpl. by exists 0, s'.
  - destruct (decide (g = 0)) as [->|Hg]; [by exists IOMMU_ERR_EINVAL, s|]. destruct (Ho Hg) as [gr Hgr].
    destruct (add_device_ok g dev m s gr Hok Hgr) as (r & s' & -> & Hs & _). by exists r, s'.
  - destruct (decide (g = 0)) as [->|Hg]; [by exists IOMMU_ERR_EINVAL, s|]. destruct (Ho Hg) as [gr Hgr].
    destruct (remove_device_ok g dev s gr Hok Hgr) as (r & s' & -> & Hs & _). by exists r, s'.
  - destruct (decide (g = 0)) as [->|Hg]; [by exists IOMMU_ERR_EINVAL, s|]. destruct (Ho Hg) as [gr Hgr].
    destruct (set_default_ok g d s gr Hok Hgr) as (s' & -> & Hs & _). by exists 0, s'.
  - destruct Ho as (H1 & H2 & H3). destruct (register_device_ok dev go gs m d ds s Hok H1 Hr H2 H3) as (r & s' & -> & Hs & _). by exists r, s'.
  - destruct (unregister_device_ok dev s Hok) as (r & s' & -> & Hs & _). by exists r, s'.
Qed.
Lemma emu_run_ok os n s : groups_ok s -> gops_ok os s -> g_next_group_id s + Z.of_nat (length os + n) < 2 ^ 31 ->
  exists rs s', emu_run os s = Some (rs, s') /\ groups_ok s' /\ g_next_group_id s' + Z.of_nat n < 2 ^ 31.
Proof.
  revert s. induction os as [|o os IH]; intros s Hok Ho Hr; simpl; [by exists [], s|]. cbn [length Nat.add] in Hr.
  destruct Ho as [Ho Hos]. destruct (emu_do_ok o s Hok Ho ltac:(lia)) as (r & s1 & E & Hok1).
  pose proof (emu_do_next o s r s1 E (proj1 (go_count s Hok)) ltac:(lia)). rewrite E. simpl.
  destruct (IH s1 Hok1 (Hos _ _ E) ltac:(lia)) as (rs & s2 & -> & Hok2 & Hn). simpl. by exists (r :: rs), s2.
Qed.
Lemma group_get_spec dev g s : groups_ok s -> g <> 0 ->
  iommu_group_get dev s = g <-> exists gr, grps s !! g = Some gr /\ dev ∈ devices gr.
Proof.
  intros Hok Hg. rewrite <- (go_device s Hok). unfold iommu_group_get. destruct (Z.eqb_spec dev 0) as [->|].
  - rewrite (go_dev s Hok). split; [congruence|done].
  - destruct (device_to_group s !! dev); simpl; split; congruence.
Qed.

(** A registration that gets its group and member and no domain frees the group
    with the device still mapped to it. *)
Lemma failed_registration_frees dev g m dob ds s : groups_ok s -> initialized s = true -> dev <> 0 ->
  iommu_group_get dev s = 0 -> g <> 0 -> grps s !! g = None -> dob = None \/ ds = false ->
  exists s', iommu_register_pci_device dev (Some g) true (Some m) dob ds s = Some (0, s') /\
    iommu_group_get dev s' = g /\ grps s' !! g = None /\ iommu_unregister_pci_device dev s' = None.
Proof.
  intros Hok Hi Hdev Hget Hg Hf Hd. unfold iommu_register_pci_device. replace (dev =? 0) with false by lia. rewrite Hi. cbn [negb].
  assert (device_to_group s !! dev = None) as Hn.
  { unfold iommu_group_get in Hget. replace (dev =? 0) with false in Hget by lia.
    destruct (device_to_group s !! dev) as [g'|] eqn:E; [|done]. simpl in Hget. subst g'.
    apply (go_device s Hok) in E as (gr & Hgr & _). by rewrite (go_null s Hok) in Hgr. }
  rewrite Hn. unfold iommu_group_alloc. cbn [negb]. replace (g =? 0) with false by lia.
  set (s1 := s <| g_next_group_id ::= _ |> <| grps ::= _ |> <| g_groups ::= _ |>).
  unfold iommu_group_add_device. replace ((g =? 0) || (dev =? 0)) with false by lia.
  change (device_to_group s1) with (device_to_group s). rewrite Hn. rewrite bool_decide_eq_false_2 by by intros [].
  assert (grps s1 !! g = Some (mk_group (g_next_group_id s) 0 [] 0 (Some (mk_group_state (g_next_group_id s) []))))
    as Hg1 by apply lookup_insert_eq. rewrite Hg1. simpl.
  assert (iommu_domain_alloc IOMMU_DOMAIN_DMA dob ds (iommu s) = (0, iommu s)) as Ha.
  { unfold iommu_domain_alloc. destruct dob as [x|]; [|done]. by destruct Hd as [| ->]. }
  change (iommu s1) with (iommu s). rewrite Ha. simpl.
  unfold iommu_group_free, upd_group. replace (g =? 0) with false by lia. cbn [grps field_upd].
  rewrite lookup_alter_eq, Hg1. simpl. eexists. split; [done|].
  unfold iommu_group_get, iommu_unregister_pci_device, iommu_group_remove_device.
  cbn [device_to_group grps initialized field_upd]. change (initialized s1) with (initialized s).
  rewrite Hi. replace (dev =? 0) with false by lia. rewrite lookup_insert_eq. replace (g =? 0) with false by lia. cbn [negb orb].
  by rewrite !lookup_delete_eq.
Qed.


(** A device registered with an initialised driver, the allocations
    succeeding, is alone in a new group whose default domain has the default
    operations, translates nothing and accepts any aligned page; registering it
    again returns the same group and changes nothing; unregistering it succeeds
    and leaves it without a group, the group and its domain staying allocated. *)
Theorem pci_registration dev g m d w os rs s : gops_ok os (emu_start w) -> Z.of_nat (length os) < 2 ^ 31 - 1 -> emu_run os (emu_start w) = Some (rs, s) ->
  initialized s = true -> dev <> 0 -> iommu_group_get dev s = 0 -> g <> 0 -> grps s !! g = None -> d <> 0 ->
  exists s', iommu_register_pci_device dev (Some g) true (Some m) (Some d) true s = Some (g, s') /\
    iommu_group_get dev s' = g /\
    (exists gr, grps s' !! g = Some gr /\ members gr = [(m, dev)]) /\ iommu_group_default_domain g s' = Some d /\
    (d_ops <$> doms (iommu s') !! d) = Some true /\
    (forall iova, iommu_iova_to_phys d iova (iommu s') = Some 0) /\
    (forall iova paddr prot, page iova = true -> page paddr = true ->
       fst <$> iommu_map d iova paddr 4096 prot (iommu s') = Some 0) /\
    (forall go gs m' d' ds, iommu_register_pci_device dev go gs m' d' ds s' = Some (g, s')) /\
    exists s'', iommu_unregister_pci_device dev s' = Some (0, s'') /\ iommu_group_get dev s'' = 0 /\
      is_Some (grps s'' !! g) /\ iommu s'' = iommu s'.
Proof.
  intros Ho Hl Er Hi Hdev Hget Hg Hf Hd.
  destruct (emu_run_ok os 1 _ (start_groups_ok w) Ho) as (? & ? & E & Hok & Hr); [cbn [g_next_group_id emu_start]; lia|].
  rewrite Er in E. injection E as <- <-.
  assert (device_to_group s !! dev = None) as Hn.
  { unfold iommu_group_get in Hget. replace (dev =? 0) with false in Hget by lia.
    destruct (device_to_group s !! dev) as [g'|] eqn:E; [|done]. simpl in Hget. subst g'.
    apply (go_device s Hok) in E as (gr & Hgr & _). by rewrite (go_null s Hok) in Hgr. }
  destruct (register_device_ok dev (Some g) true (Some m) (Some d) true s Hok) as (r & s' & E & Hok' & Hi' & Hreg);
    [by intros ? [= <-]|lia|congruence|by intros _; exists d|].
  rewrite Hn in Hreg. destruct (Hreg Hdev Hi g m d eq_refl eq_refl eq_refl eq_refl) as (-> & Hdt & (gr & Hgr & Hm & Hdd) & Hw).
  assert (grps s' !! g = Some gr) as Hg' by (rewrite Hgr; apply lookup_insert_eq).
  assert (device_to_group s' !! dev = Some g) as Hdg by (rewrite Hdt; apply lookup_insert_eq).
  assert (iommu_domain_priv d (iommu s') = Some (Some new_domain_state)) as Hp.
  { unfold iommu_domain_priv. replace (d =? 0) with false by lia. by rewrite Hw, lookup_insert_eq. }
  exists s'. split; [done|]. split; [unfold iommu_group_get; replace (dev =? 0) with false by lia; by rewrite Hdg|].
  split; [by exists gr|]. split; [unfold iommu_group_default_domain; replace (g =? 0) with false by lia; rewrite Hg'; simpl; by rewrite Hdd|].
  split; [by rewrite Hw, lookup_insert_eq|]. split; [intros iova; unfold iommu_iova_to_phys; by rewrite Hp|].
  split; [|split].
  - intros iova paddr prot H1 H2. unfold iommu_map. rewrite Hp. simpl. change (4096 =? IOMMU_PAGE_SIZE) with true. cbn [negb].
    unfold page in H1, H2. apply negb_true_iff in H1, H2. by rewrite H1, H2.
  - intros. unfold iommu_register_pci_device. replace (dev =? 0) with false by lia. by rewrite Hi', Hi, Hdg.
  - destruct (unregister_device_ok dev s' Hok') as (r & s'' & Eu & Hok'' & _ & Hw'' & Hdom & Hu).
    destruct (Hu Hdev ltac:(congruence) ltac:(by eexists)) as [-> Hdel]. exists s''. split; [done|]. split; [|split; [|done]].
    + unfold iommu_group_get. replace (dev =? 0) with false by lia. by rewrite Hdel, lookup_delete_eq.
    + apply elem_of_dom. rewrite Hdom. apply elem_of_dom. by eexists.
Qed.
End Registry.

(** ** The IOASID allocator *)
Section Ioasids.
  Context {D : Type}.
  Implicit Types s : iommu_emu_state D.

Lemma cyc_succ h i : cyc h (S i) = if cyc h i =? 0xFFFF then 1 else cyc h i + 1.
Proof.
  unfold cyc. set (a := h - 1 + Z.of_nat i). replace (h - 1 + Z.of_nat (S i)) with (a + 1) by lia. clearbody a.
  pose proof (Z_div_mod_eq_full a 0xFFFF). pose proof (Z.mod_pos_bound a 0xFFFF ltac:(lia)).
  destruct (Z.eqb_spec (1 + a mod 0xFFFF) 0xFFFF).
  - rewrite <- (Z.mod_unique_pos (a + 1) 0xFFFF (a / 0xFFFF + 1) 0); lia.
  - rewrite <- (Z.mod_unique_pos (a + 1) 0xFFFF (a / 0xFFFF) (a mod 0xFFFF + 1)); lia.
Qed.
(** The masked increment that skips 0. *)
Lemma cursor_next c : 1 <= c <= 0xFFFF ->
  (let n := Z.land (u32 (c + 1)) 0xFFFF in if n =? 0 then 1 else n) = if c =? 0xFFFF then 1 else c + 1.
Proof.
  intros Hc. cbv zeta. unfold u32. rewrite Z.mod_small by lia. change 0xFFFF with (Z.ones 16). rewrite Z.land_ones by lia.
  change (Z.ones 16) with 0xFFFF. destruct (Z.eqb_spec c 0xFFFF) as [->|]; [done|].
  rewrite Z.mod_small by lia. by replace (c + 1 =? 0) with false by lia.
Qed.
Lemma cyc_period h : 1 <= h <= 0xFFFF -> cyc h (Z.to_nat 0xFFFF) = h.
Proof. intros Hh. unfold cyc. rewrite Z2Nat.id by lia. replace (h - 1 + 0xFFFF) with (h - 1 + 1 * 0xFFFF) by lia. rewrite Z_mod_plus_full, Z.mod_small; lia. Qed.
Lemma free_id_spec id (t : gmap Z Z) : free_id id t = bool_decide (id ∉ dom t).
Proof. unfold free_id. apply bool_decide_ext. by rewrite not_elem_of_dom. Qed.

Lemma ioasid_search_spec n i h t : 1 <= h <= 0xFFFF -> (i + n = Z.to_nat 0xFFFF)%nat ->
  (forall j, (j < i)%nat -> cyc h j ∈ dom t) ->
  match ioasid_search n h (cyc h i) t with
  | (Some id, next) => first_free_from h (dom t) id /\ 1 <= id <= 0xFFFF /\ next = cyc id 1
  | (None, next) => (forall p, 1 <= p <= 0xFFFF -> p ∈ dom t) /\ next = h
  end.
Proof.
  intros Hh. revert i. induction n as [|n IH]; intros i Hi Hall; cbn [ioasid_search].
  - replace i with (Z.to_nat 0xFFFF) in * by lia. split; [|by apply cyc_period].
    intros p Hp. destruct (cyc_surj h p Hh Hp) as (k & Hk & ->). by apply Hall.
  - pose proof (cyc_range h i) as Hc. pose proof (cursor_next (cyc h i) Hc) as Hn. cbv zeta in Hn. rewrite Hn. clear Hn.
    rewrite <- (cyc_succ h i). rewrite free_id_spec. case_bool_decide as Hf.
    + split; [by exists i|]. split; [done|]. by rewrite !cyc_succ, cyc_0.
    + destruct (decide (S i = Z.to_nat 0xFFFF)) as [HS|HS].
      * rewrite HS, cyc_period, Z.eqb_refl by done. split; [|done]. intros p Hp.
        destruct (cyc_surj h p Hh Hp) as (k & Hk & ->). destruct (decide (k = i)) as [->|]; [|apply Hall; lia].
        exact Hf.
      * replace (cyc h (S i) =? h) with false.
        2: { symmetry. apply Z.eqb_neq. rewrite <- (cyc_0 h) at 2 by done. intros E. apply cyc_inj in E; lia. }
        apply IH; [lia|]. intros j Hj. destruct (decide (j = i)) as [->|]; [exact Hf|apply Hall; lia].
Qed.

Inductive ioasid_op := IInit | IShutdown | IAlloc (o : option Z) | IAllocId (id : Z) (o : option Z) | IFree (o : Z).
Definition ioasid_do (c : ioasid_op) s : option (Z * iommu_emu_state D) :=
  match c with
  | IInit => Some (iommu_emu_init s)
  | IShutdown => s' ← iommu_emu_shutdown s; Some (0, s')
  | IAlloc o => Some (ioasid_alloc o s)
  | IAllocId id o => Some (ioasid_alloc_id id o s)
  | IFree o => ioasid_free o s
  end.
Definition fresh_ioasid (o : option Z) s : Prop := forall x, o = Some x -> x <> 0 /\ ioasids s !! x = None.
Definition iop_ok (c : ioasid_op) s : Prop :=
  match c with
  | IInit => True
  | IShutdown => g_groups s = [] /\ g_domains (iommu s) = []
  | IAlloc o => fresh_ioasid o s
  | IAllocId id o => is_u32 id /\ fresh_ioasid o s
  | IFree o => o <> 0 -> is_Some (ioasids s !! o)
  end.
Fixpoint iops_ok (cs : list ioasid_op) s : Prop :=
  match cs with
  | [] => True
  | c :: cs' => iop_ok c s /\ forall r s', ioasid_do c s = Some (r, s') -> iops_ok cs' s'
  end.
Fixpoint ioasid_run (cs : list ioasid_op) s : option (list Z * iommu_emu_state D) :=
  match cs with
  | [] => Some ([], s)
  | c :: cs' => '(r, s) ← ioasid_do c s; '(rs, s) ← ioasid_run cs' s; Some (r :: rs, s)
  end.
Record ioasids_ok s : Prop := {
  io_next : 1 <= g_ioasid_next s <= 0xFFFF;
  io_table : forall id o, ioasid_table s !! id = Some o -> 1 <= id <= 0xFFFF /\ o <> 0 /\ ioasids s !! o = Some id
}.
Lemma put_ok id o s next : ioasids_ok s -> 1 <= next <= 0xFFFF -> 1 <= id <= 0xFFFF -> o <> 0 -> ioasids s !! o = None ->
  ioasids_ok (s <| g_ioasid_next := next |> <| ioasid_table ::= <[id := o]> |> <| ioasids ::= <[o := id]> |>).
Proof.
  intros [Hn Ht] Hnext Hid Ho Hf. split; cbn [g_ioasid_next ioasid_table ioasids field_upd]; [done|].
  intros i x. destruct (decide (i = id)) as [->|]; [rewrite lookup_insert_eq; intros [= <-]; by rewrite lookup_insert_eq|].
  rewrite lookup_insert_ne by done. intros (H1 & H2 & H3)%Ht. split; [done|]. split; [done|].
  rewrite lookup_insert_ne; [done|]. intros ->. congruence.
Qed.
Lemma ioasid_alloc_ok o s : ioasids_ok s -> o <> 0 -> ioasids s !! o = None ->
  let '(r, s') := ioasid_alloc (Some o) s in ioasids_ok s' /\
  ((exists id, r = o /\ first_free_from (g_ioasid_next s) (dom (ioasid_table s)) id /\ 1 <= id <= 0xFFFF /\
      g_ioasid_next s' = cyc id 1 /\ ioasid_table s' = <[id := o]> (ioasid_table s) /\ ioasids s' = <[o := id]> (ioasids s)) \/
   (r = 0 /\ s' = s /\ forall id, 1 <= id <= 0xFFFF -> id ∈ dom (ioasid_table s))).
Proof.
  intros Hok Ho Hf. unfold ioasid_alloc. pose proof (io_next s Hok) as Hn.
  pose proof (ioasid_search_spec (Z.to_nat 0xFFFF) 0 _ (ioasid_table s) Hn eq_refl) as H.
  rewrite cyc_0 in H by done. specialize (H ltac:(lia)). destruct (ioasid_search _ _ _ _) as [[id|] next].
  - destruct H as (H1 & H2 & H3). split; [apply put_ok; try done; rewrite H3; apply cyc_range|]. left. by exists id.
  - destruct H as [H ->]. assert (s <| g_ioasid_next := g_ioasid_next s |> = s) as -> by by destruct s. split; [done|]. by right.
Qed.
Lemma ioasid_do_ok c s : ioasids_ok s -> iop_ok c s -> exists r s', ioasid_do c s = Some (r, s') /\ ioasids_ok s'.
Proof.
  intros Hok Hc. destruct c as [| |o|id o|o]; cbn [ioasid_do].
  - destruct (iommu_emu_init s) as [r s'] eqn:E. exists r, s'. split; [done|]. unfold iommu_emu_init in E.
    destruct (initialized s); injection E as <- <-; [done|]. split; [apply Hok|]. cbn [ioasid_table field_upd]. intros id o H. by rewrite lookup_empty in H.
  - destruct Hc as [E1 E2]. unfold iommu_emu_shutdown. destruct (initialized s); cbn [negb]; simpl; [|by exists 0, s].
    rewrite E1, E2. simpl. eexists 0, _. split; [done|]. split; [apply Hok|].
    cbn [ioasid_table ioasids field_upd]. intros id o [H Hf]%map_lookup_filter_Some. destruct (io_table s Hok id o H) as (H1 & H2 & H3).
    split; [done|]. split; [done|]. apply map_lookup_filter_Some. split; [done|]. by right.
  - destruct o as [o|]; [|by exists 0, s]. destruct (Hc o eq_refl) as [Ho Hf].
    pose proof (ioasid_alloc_ok o s Hok Ho Hf) as H. destruct (ioasid_alloc (Some o) s) as [r s']. exists r, s'. split; [done|]. apply H.
  - unfold ioasid_alloc_id. destruct (_ || _) eqn:Eb; [by exists 0, s|]. apply orb_false_iff in Eb as [E1 E2].
    destruct (free_id id _); cbn [negb]; [|by exists 0, s]. destruct o as [o|]; [|by exists 0, s].
    destruct Hc as [Hu Hc]. destruct (Hc o eq_refl) as [Ho Hf]. eexists o, _. split; [done|].
    pose proof (put_ok id o s (g_ioasid_next s) Hok (io_next s Hok) ltac:(lia) Ho Hf) as H. by destruct s.
  - unfold ioasid_free. destruct (Z.eqb_spec o 0) as [->|Ho]; [by exists IOMMU_ERR_EINVAL, s|].
    destruct (Hc Ho) as [id Hid]. rewrite Hid. simpl. destruct (_ || _); [by exists IOMMU_ERR_ENODEV, s|].
    case_bool_decide as Ht; cbn [negb]; [|by exists IOMMU_ERR_ENODEV, s]. eexists 0, _. split; [done|].
    split; [apply Hok|]. cbn [ioasid_table ioasids field_upd]. intros i x [Hne H]%lookup_delete_Some.
    destruct (io_table s Hok i x H) as (H1 & H2 & H3). split; [done|]. split; [done|]. rewrite lookup_delete_ne; [done|]. congruence.
Qed.

Lemma ioasid_run_ok cs s : ioasids_ok s -> iops_ok cs s -> exists rs s', ioasid_run cs s = Some (rs, s') /\ ioasids_ok s'.
Proof.
  revert s. induction cs as [|c cs IH]; intros s Hok Hc; simpl; [by exists [], s|].
  destruct Hc as [Hc Hcs]. destruct (ioasid_do_ok c s Hok Hc) as (r & s1 & E & Hok1). rewrite E. simpl.
  destruct (IH s1 Hok1 (Hcs _ _ E)) as (rs & s2 & -> & Hok2). simpl. by exists (r :: rs), s2.
Qed.

(** After any initialisations, allocations, releases and shutdowns, an
    allocation returns the first id free at or after the cursor, cyclically in
    1 .. 0xFFFF, and null exactly when all of them are taken; the id is then
    found under its object and released again, the table as before; but an id of
    0xFFFF, which the search hands out, can be neither found nor released. *)
Theorem ioasid_first_free cs w : iops_ok cs (emu_start w) ->
  exists rs s, ioasid_run cs (emu_start w) = Some (rs, s) /\ forall o, o <> 0 -> ioasids s !! o = None ->
    let '(r, s1) := ioasid_alloc (Some o) s in
    (r = 0 /\ s1 = s /\ forall id, 1 <= id <= 0xFFFF -> id ∈ dom (ioasid_table s)) \/
    exists id, r = o /\ first_free_from (g_ioasid_next s) (dom (ioasid_table s)) id /\ 1 <= id <= 0xFFFF /\
      ioasid_id o s1 = Some id /\ ioasid_find id s1 = (if id <? 0xFFFF then o else 0) /\
      exists ret s2, ioasid_free o s1 = Some (ret, s2) /\
        if id <? 0xFFFF then ret = 0 /\ ioasid_table s2 = ioasid_table s else ret = IOMMU_ERR_ENODEV /\ s2 = s1.
Proof.
  intros Hc. destruct (ioasid_run_ok cs (emu_start w)) as (rs & s & E & Hok); [|done|].
  { split; [done|]. unfold emu_start; cbn [ioasid_table]. intros id o H. by rewrite lookup_empty in H. }
  exists rs, s. split; [done|]. intros o Ho Hf. pose proof (ioasid_alloc_ok o s Hok Ho Hf) as H.
  destruct (ioasid_alloc (Some o) s) as [r s1]. destruct H as [_ [H|H]]; [right|by left].
  destruct H as (id & -> & Hff & Hid & _ & Ht & Hi). exists id. split; [done|]. split; [done|]. split; [done|].
  split; [unfold ioasid_id; replace (o =? 0) with false by lia; rewrite Hi; apply lookup_insert_eq|].
  split; [unfold ioasid_find; replace (id =? 0) with false by lia; cbn [orb]; destruct (Z.leb_spec 0xFFFF id), (Z.ltb_spec id 0xFFFF); try lia; by rewrite Ht, lookup_insert_eq|].
  unfold ioasid_free. replace (o =? 0) with false by lia. rewrite Hi, lookup_insert_eq. simpl.
  replace (id =? 0) with false by lia. cbn [orb]. destruct (Z.leb_spec 0xFFFF id), (Z.ltb_spec id 0xFFFF); try lia; [by exists IOMMU_ERR_ENODEV, s1|].
  rewrite Ht, bool_decide_eq_true_2 by apply lookup_insert_eq. cbn [negb]. eexists 0, _. split; [done|]. split; [done|].
  cbn [ioasid_table field_upd]. rewrite Ht. apply delete_insert_id. destruct Hff as (k & _ & Hni & _). by apply not_elem_of_dom.
Qed.
End Ioasids.

(** ** Concrete runs *)
Definition empty_world : iommu_world (list Z) := mk_iommu ∅ [] (mk_notifier_state ∅ []) ∅ [].
Definition group_ops : list group_op :=
  [GInit; GRegister 71 (Some 1000) true (Some 2000) (Some 3000) true; GAlloc (Some 1008) true; GAdd 1008 72 (Some 2008);
   GAdd 1008 71 (Some 2016); GAdd 1008 73 (Some 2024); GRemove 1008 72; GRegister 71 None false None None false].
(** Run the operations one by one, each side condition by evaluation. *)
Ltac side_condition :=
  vm_compute; repeat split; intros; simplify_eq; try done; naive_solver.
Ltac run_ok :=
  repeat (split; [side_condition|let E := fresh in intros ? ? E; vm_compute in E; injection E as <- <-]); exact I.
Lemma group_ops_ok : gops_ok group_ops (emu_start empty_world).
Proof. run_ok. Qed.

Definition group_state : iommu_emu_state (list Z) :=
  match emu_run group_ops (emu_start empty_world) with Some (_, s) => s | None => emu_start empty_world end.
Lemma pci_registration_witness :
  exists s', iommu_register_pci_device 75 (Some 1016) true (Some 2032) (Some 3008) true group_state = Some (1016, s') /\
    iommu_group_get 75 s' = 1016 /\
    (exists gr, grps s' !! 1016 = Some gr /\ members gr = [(2032, 75)]) /\ iommu_group_default_domain 1016 s' = Some 3008 /\
    (d_ops <$> doms (iommu s') !! 3008) = Some true /\
    (forall iova, iommu_iova_to_phys 3008 iova (iommu s') = Some 0) /\
    (forall iova paddr prot, page iova = true -> page paddr = true ->
       fst <$> iommu_map 3008 iova paddr 4096 prot (iommu s') = Some 0) /\
    (forall go gs m' d' ds, iommu_register_pci_device 75 go gs m' d' ds s' = Some (1016, s')) /\
    exists s'', iommu_unregister_pci_device 75 s' = Some (0, s'') /\ iommu_group_get 75 s'' = 0 /\
      is_Some (grps s'' !! 1016) /\ iommu s'' = iommu s'.
Proof.
  refine (pci_registration 75 1016 2032 3008 empty_world group_ops [0; 1000; 1008; 0; -16; 0; 0; 1000] group_state
    group_ops_ok eq_refl _ _ _ _ _ _ _); vm_compute; congruence.
Defined.

Definition ioasid_ops : list ioasid_op := [IInit; IAlloc (Some 500); IAllocId 2 (Some 508); IAlloc (Some 516); IFree 500].
Lemma ioasid_ops_ok : iops_ok ioasid_ops (emu_start empty_world).
Proof. run_ok. Qed.
Lemma ioasid_first_free_witness :
  option_map fst (ioasid_run ioasid_ops (emu_start empty_world)) = Some [0; 500; 508; 516; 0] /\
  exists rs s, ioasid_run ioasid_ops (emu_start empty_world) = Some (rs, s) /\ forall o, o <> 0 -> ioasids s !! o = None ->
    let '(r, s1) := ioasid_alloc (Some o) s in
    (r = 0 /\ s1 = s /\ forall id, 1 <= id <= 0xFFFF -> id ∈ dom (ioasid_table s)) \/
    exists id, r = o /\ first_free_from (g_ioasid_next s) (dom (ioasid_table s)) id /\ 1 <= id <= 0xFFFF /\
      ioasid_id o s1 = Some id /\ ioasid_find id s1 = (if id <? 0xFFFF then o else 0) /\
      exists ret s2, ioasid_free o s1 = Some (ret, s2) /\
        if id <? 0xFFFF then ret = 0 /\ ioasid_table s2 = ioasid_table s else ret = IOMMU_ERR_ENODEV /\ s2 = s1.
Proof. split; [vm_compute; reflexivity|]. exact (ioasid_first_free ioasid_ops empty_world ioasid_ops_ok). Defined.

(** Shutting down with a group or a domain left removes it from the vector the
    loop is running over. *)
Lemma shutdown_undefined : iommu_emu_shutdown group_state = None.
Proof. by vm_compute. Qed.
(** Initialising starts the member [ioasid_next], which nothing reads: the
    cursor goes on where it was. *)
Lemma init_keeps_cursor {D} (s : iommu_emu_state D) : g_ioasid_next (iommu_emu_init s).2 = g_ioasid_next s.
Proof. unfold iommu_emu_init. by destruct (initialized s). Qed.
(** A registration whose default domain cannot be allocated frees the group with
    the device still in it: the next call for that device uses the freed group. *)
Lemma failed_registration_dangles :
  let s := (iommu_emu_init (emu_start empty_world)).2 in
  exists s', iommu_register_pci_device 71 (Some 1000) true (Some 2000) None false s = Some (0, s') /\
    iommu_group_get 71 s' = 1000 /\ grps s' !! 1000 = None /\ iommu_unregister_pci_device 71 s' = None.
Proof. eexists. split; [vm_compute; reflexivity|]. vm_compute. repeat split. Qed.
(** The default domain of two groups is freed with each: twice. *)
Lemma default_domain_freed_twice :
  exists rs s, emu_run [GInit; GRegister 71 (Some 1000) true (Some 2000) (Some 3000) true; GUnregister 71;
                        GAlloc (Some 1008) true; GSetDefault 1008 3000; GFree 1000] (emu_start empty_world) = Some (rs, s) /\
    iommu_group_default_domain 1008 s = Some 3000 /\ emu_do (GFree 1008) s = None.
Proof. eexists _, _. split; [vm_compute; reflexivity|]. by vm_compute. Qed.
