(* ===== verification/SimBridge.v ===== *)
(** * The bridge to the timing simulator

    [sim_hardware/src]: the bridge object ([cpptlm/bridge.cpp]), the debug
    endpoint ([cpptlm/backdoor_endpoint.cpp], [endpoint.cpp]), the bypass
    switch with its drain ([pcie/bypass.cpp]), the bypassing accesses of
    [pcie/host_bridge.cpp], [platform.cpp]; and the adapter calls of
    [plugins/gpu_driver/hal/hal_cpptlm.cpp].  The simulator itself is outside
    the repository: its C interface is the class [Emulator] over a state [E] of
    its own, and whether its library loads is an argument.  Bridges, callbacks
    and emulators are named by their addresses. *)
From S2P Require Import Prelude Bytes Topology.
From Stdlib Require Import Ascii String.
From stdpp Require Import strings.
#[local] Open Scope list_scope.
#[local] Open Scope Z_scope.

Definition EOPNOTSUPP : Z := 95.

(** ** The simulator's interface *)
Record CpptlmDeviceInfo := mk_info {
  i_vendor_id : Z; i_device_id : Z; i_gpu_id : Z; i_gfx_version : Z; i_bdf : Z;
  i_visible_vram_size : Z; i_invisible_vram_size : Z; i_va_region_size : Z; i_bar_sizes : list Z
}.
(** Emulators are named by address; reads answer a code and the bytes written
    to the caller's buffer. *)
Class Emulator (E : Type) := {
  emu_create : string -> E -> Z * E;
  emu_create_by_id : Z -> E -> Z * E;
  emu_destroy : Z -> E -> E;
  emu_mmio_read : Z -> Z -> Z -> Z -> E -> Z * list Z * E;
  emu_mmio_write : Z -> Z -> Z -> list Z -> E -> Z * E;
  emu_backdoor_read : Z -> Z -> Z -> Z -> E -> Z * list Z * E;
  emu_backdoor_write : Z -> Z -> Z -> list Z -> E -> Z * E;
  emu_config_read : Z -> Z -> Z -> E -> Z * Z * E;
  emu_config_write : Z -> Z -> Z -> Z -> E -> Z * E;
  emu_device_info : Z -> E -> Z * CpptlmDeviceInfo * E
}.

(** ** The bypass switch *)
Record bypass_state := mk_bypass {
  g_mode : BypassMode; g_in_flight_tlps : Z; g_drain_timeout_ms : Z; g_test_scope : bool
}.
#[export] Instance eta_bypass : Eta bypass_state := fun s =>
  mk_bypass (g_mode s) (g_in_flight_tlps s) (g_drain_timeout_ms s) (g_test_scope s).
Definition bypass_start : bypass_state := mk_bypass kFull 0 0 false.
Definition bypass_enter_tlp (s : bypass_state) : bypass_state := s <| g_in_flight_tlps ::= fun n => u64 (n + 1) |>.
Definition bypass_exit_tlp (s : bypass_state) : bypass_state := s <| g_in_flight_tlps ::= fun n => u64 (n - 1) |>.
Definition bypass_in_flight_count (s : bypass_state) : Z := g_in_flight_tlps s.
Definition bypass_set_drain_timeout_ms (ms : Z) (s : bypass_state) : bypass_state := s <| g_drain_timeout_ms := ms |>.
Definition bypass_set_test_scope (b : bool) (s : bypass_state) : bypass_state := s <| g_test_scope := b |>.
Definition bypass_is_test_scope (s : bypass_state) : bool := g_test_scope s.
Definition bypass_get_mode (s : bypass_state) : BypassMode := g_mode s.
(** [bypass_apply_mode], an atomic access at a time: what the calling thread
    does next. *)
Inductive applier :=
| Idle
| CheckScope (m : BypassMode) | ZeroCount (m : BypassMode)
| LoadTimeout (m : BypassMode) | Waiting (m : BypassMode) (timeout : Z)
| StoreMode (m : BypassMode)
| Returned (rc : Z).
Definition apply_enter (m : BypassMode) (p : DrainPolicy) : applier :=
  match p with kImmediateAbort => CheckScope m | kGracefulDrain => LoadTimeout m end.
(** One access; [late]: the deadline has passed. *)
Definition apply_step (late : bool) (a : applier) (s : bypass_state) : applier * bypass_state :=
  match a with
  | Idle | Returned _ => (a, s)
  | CheckScope m => (if bypass_is_test_scope s then ZeroCount m else Returned (- EACCES), s)
  | ZeroCount m => (StoreMode m, s <| g_in_flight_tlps := 0 |>)
  | LoadTimeout m => (Waiting m (g_drain_timeout_ms s), s)
  | Waiting m timeout =>
      if 0 <? g_in_flight_tlps s
      then (if negb (timeout =? 0) && late then Returned (- EBUSY) else Waiting m timeout, s)
      else (StoreMode m, s)
  | StoreMode m => (Returned 0, s <| g_mode := m |>)
  end.

(** ** The bridge object *)
Inductive CpptlmBackendKind := kMock | kCpptlm.
#[export] Instance backend_eq_dec : EqDecision CpptlmBackendKind.
Proof. solve_decision. Defined.
Record Impl := mk_impl {
  initialized : bool; backend : CpptlmBackendKind; topology_path : string; flags : Z; endpoint : Z; emu : Z;
  config_space : Z -> Z; bars : Z -> Z -> Z; msix_cb : Z; msix_ctx : Z
}.
#[export] Instance eta_impl : Eta Impl := fun b =>
  mk_impl (initialized b) (backend b) (topology_path b) (flags b) (endpoint b) (emu b)
    (config_space b) (bars b) (msix_cb b) (msix_ctx b).
Definition new_impl : Impl := mk_impl false kMock "" 0 0 0 (fun _ => 0) (fun _ _ => 0) 0 0.
Record CpptlmBridgeInitParams := mk_params { p_backend : CpptlmBackendKind; p_topology_path : option string; p_flags : Z }.

(** The debug endpoint's state: live emulators with their device ids. *)
Record GlobalState := mk_global {
  syms_resolved : bool; load_failed : bool; live_emulators : gmap Z (Z * Z); next_handle_id : Z
}.
#[export] Instance eta_global : Eta GlobalState := fun g =>
  mk_global (syms_resolved g) (load_failed g) (live_emulators g) (next_handle_id g).
Record sim_world (E : Type) := mk_world {
  impls : gmap Z Impl; g_active_bridge : Z; bs_resolved : bool; bs_load_failed : bool;
  bypass : bypass_state; global : GlobalState; ext : E
}.
Arguments mk_world {E}. Arguments impls {E}. Arguments g_active_bridge {E}. Arguments bs_resolved {E}.
Arguments bs_load_failed {E}. Arguments bypass {E}. Arguments global {E}. Arguments ext {E}.
#[export] Instance eta_world E : Eta (sim_world E) := fun w =>
  mk_world (impls w) (g_active_bridge w) (bs_resolved w) (bs_load_failed w) (bypass w) (global w) (ext w).
Definition global_start : GlobalState := mk_global false false ∅ 1.
Definition world_start {E} (x : E) : sim_world E := mk_world ∅ 0 false false bypass_start global_start x.

Definition valid_mmio (bar offset len : Z) : bool :=
  if 6 <=? bar then false
  else if len =? 0 then false
  else if 4096 <? len then false
  else if 4096 <? offset then false
  else if 4096 - offset <? len then false
  else if negb (len =? 1) && negb (len =? 2) && negb (len =? 4) && negb (len =? 8) then false
  else if negb (offset mod len =? 0) then false
  else if u64 (offset + len) <? offset then false
  else true.

Section Bridge.
  Context {E : Type} `{EM : Emulator E}.
  Implicit Types w : sim_world E.

(** [lib]: the library and its 22 functions can be loaded. *)
Definition ensure_bridge_loaded (lib : bool) w : bool * sim_world E :=
  if bs_resolved w then (true, w)
  else if bs_load_failed w then (false, w)
  else if lib then (true, w <| bs_resolved := true |>)
  else (false, w <| bs_load_failed := true |>).
Definition CpptlmBridge_new (b : Z) w : sim_world E := w <| impls ::= <[b := new_impl]> |>.
Definition upd_impl (b : Z) (f : Impl -> Impl) w : sim_world E := w <| impls ::= alter f b |>.
(** [strncpy] into 256 characters. *)
Definition to_path (s : string) : string := string_of_list_ascii (take 255 (c_str (list_ascii_of_string s))).
(** The methods of the bridge at [b]; [None]: there is no such object. *)
Definition bridge_init (b : Z) (params : CpptlmBridgeInitParams) (lib : bool) w : option (Z * sim_world E) :=
  i ← impls w !! b;
  if initialized i then Some (- EBUSY, w)
  else
    let '(ok, w) := match p_backend params with kCpptlm => ensure_bridge_loaded lib w | kMock => (true, w) end in
    if negb ok then Some (- ENOSYS, w)
    else
      let path := match p_topology_path params with Some p => to_path p | None => ""%string end in
      let w := upd_impl b (fun i => i <| backend := p_backend params |> <| flags := p_flags params |>
                 <| topology_path := path |> <| config_space := (fun _ => 0) |> <| bars := (fun _ _ => 0) |>) w in
      let '(ok, w) :=
        match p_backend params with
        | kMock => (true, w)
        | kCpptlm =>
            let '(e, x) := if negb (String.eqb path "") then emu_create path (ext w) else emu_create_by_id 1 (ext w) in
            (negb (e =? 0), upd_impl b (fun i => i <| emu := e |>) w <| ext := x |>)
        end in
      if negb ok then Some (- ENOSYS, w)
      else
        let w := upd_impl b (fun i => i <| initialized := true |>) w in
        Some (0, if g_active_bridge w =? 0 then w <| g_active_bridge := b |> else w).
Definition bridge_destroy (b : Z) w : option (sim_world E) :=
  i ← impls w !! b;
  let w := match backend i with
           | kCpptlm => if emu i =? 0 then w
                        else (if bs_resolved w then w <| ext ::= emu_destroy (emu i) |> else w)
                             <| impls ::= alter (fun i => i <| emu := 0 |>) b |>
           | kMock => w
           end in
  let w := upd_impl b (fun i => i <| initialized := false |>) w in
  Some (if g_active_bridge w =? b then w <| g_active_bridge := 0 |> else w).
(** [~CpptlmBridge]. *)
Definition CpptlmBridge_delete (b : Z) w : option (sim_world E) :=
  w ← bridge_destroy b w; Some (w <| impls ::= delete b |>).

(** A TLP is counted around each access to the arrays of the mock. *)
Definition tlp_guard w : sim_world E := w <| bypass ::= fun s => bypass_exit_tlp (bypass_enter_tlp s) |>.
(** The checks the four accesses share; [buf]: the buffer is not null. *)
Definition access_checks (i : Impl) (bar offset len : Z) (buf : bool) : Z :=
  if negb (initialized i) then - ENODEV
  else if negb buf || negb (valid_mmio bar offset len) then - EINVAL else 0.
Definition mmio_read (b bar offset len : Z) (buf : bool) w : option (Z * list Z * sim_world E) :=
  i ← impls w !! b;
  let rc := access_checks i bar offset len buf in
  if negb (rc =? 0) then Some (rc, [], w)
  else match backend i with
  | kCpptlm =>
      if negb (bs_resolved w) || (emu i =? 0) then Some (- ENOSYS, [], w)
      else let '(rc, bs, x) := emu_mmio_read (emu i) bar offset len (ext w) in Some (rc, bs, w <| ext := x |>)
  | kMock => Some (0, peek offset len (bars i bar), tlp_guard w)
  end.
Definition set_bar (bar offset : Z) (bs : list Z) (i : Impl) : Impl :=
  i <| bars ::= fun m k => if k =? bar then poke offset bs (m k) else m k |>.
Definition mmio_write (b bar offset : Z) (bs : list Z) (buf : bool) w : option (Z * sim_world E) :=
  i ← impls w !! b;
  let rc := access_checks i bar offset (Z.of_nat (length bs)) buf in
  if negb (rc =? 0) then Some (rc, w)
  else match backend i with
  | kCpptlm =>
      if negb (bs_resolved w) || (emu i =? 0) then Some (- ENOSYS, w)
      else let '(rc, x) := emu_mmio_write (emu i) bar offset bs (ext w) in Some (rc, w <| ext := x |>)
  | kMock => Some (0, tlp_guard (upd_impl b (set_bar bar offset bs) w))
  end.
Definition backdoor_read (b bar offset len : Z) (buf : bool) w : option (Z * list Z * sim_world E) :=
  i ← impls w !! b;
  let rc := access_checks i bar offset len buf in
  if negb (rc =? 0) then Some (rc, [], w)
  else match backend i with
  | kCpptlm =>
      if negb (bs_resolved w) || (emu i =? 0) then Some (- ENOSYS, [], w)
      else let '(rc, bs, x) := emu_backdoor_read (emu i) bar offset len (ext w) in Some (rc, bs, w <| ext := x |>)
  | kMock => Some (- ENOSYS, [], w)
  end.
Definition backdoor_write (b bar offset : Z) (bs : list Z) (buf : bool) w : option (Z * sim_world E) :=
  i ← impls w !! b;
  let rc := access_checks i bar offset (Z.of_nat (length bs)) buf in
  if negb (rc =? 0) then Some (rc, w)
  else match backend i with
  | kCpptlm =>
      if negb (bs_resolved w) || (emu i =? 0) then Some (- ENOSYS, w)
      else let '(rc, x) := emu_backdoor_write (emu i) bar offset bs (ext w) in Some (rc, w <| ext := x |>)
  | kMock => Some (- ENOSYS, w)
  end.
Definition config_read (b offset : Z) (value : bool) w : option (Z * Z * sim_world E) :=
  i ← impls w !! b;
  if negb (initialized i) then Some (- ENODEV, 0, w)
  else if negb value || (4092 <? offset) then Some (- EINVAL, 0, w)
  else Some (0, le_val (peek offset 4 (config_space i)), tlp_guard w).
Definition config_write (b offset value : Z) w : option (Z * sim_world E) :=
  i ← impls w !! b;
  if negb (initialized i) then Some (- ENODEV, w)
  else if 4092 <? offset then Some (- EINVAL, w)
  else Some (0, tlp_guard (upd_impl b (fun i => i <| config_space ::= poke offset (le_bytes 4 value) |>) w)).
Definition register_msix_callback (b cb ctx : Z) w : option (Z * sim_world E) :=
  i ← impls w !! b;
  if negb (initialized i) then Some (- ENODEV, w)
  else Some (0, upd_impl b (fun i => i <| msix_cb := cb |> <| msix_ctx := ctx |>) w).
Definition attach_endpoint (b ep : Z) w : option (Z * sim_world E) :=
  i ← impls w !! b;
  if ep =? 0 then Some (- EINVAL, w)
  else if negb (initialized i) then Some (- ENODEV, w)
  else Some (0, upd_impl b (fun i => i <| endpoint := ep |>) w).
(** The callback called, with its vector and context. *)
Definition inject_msix_for_test (b vector : Z) w : option (option (Z * Z * Z)) :=
  i ← impls w !! b;
  Some (if negb (initialized i) then None else if msix_cb i =? 0 then None else Some (msix_cb i, vector, msix_ctx i)).
Definition CpptlmBridge_get w : Z := g_active_bridge w.
Definition CpptlmBridge_set_active (b : Z) w : Z * sim_world E := (0, w <| g_active_bridge := b |>).
Definition bridge_inject_msix_shim (vector : Z) w : option (option (Z * Z * Z)) :=
  if g_active_bridge w =? 0 then Some None else inject_msix_for_test (g_active_bridge w) vector w.

(** ** Accesses through the active bridge *)
Definition host_bridge_bypass_write (bar offset : Z) (src : list Z) (buf : bool) w : option (Z * sim_world E) :=
  let b := CpptlmBridge_get w in
  if b =? 0 then Some (- EINVAL, w)
  else match bypass_get_mode (bypass w) with
  | kFull | kPartial => mmio_write b bar offset src buf w
  | kBypass => backdoor_write b bar offset src buf w
  end.
Definition host_bridge_bypass_read (bar offset len : Z) (buf : bool) w : option (Z * list Z * sim_world E) :=
  let b := CpptlmBridge_get w in
  if b =? 0 then Some (- EINVAL, [], w)
  else match bypass_get_mode (bypass w) with
  | kFull | kPartial => mmio_read b bar offset len buf w
  | kBypass => backdoor_read b bar offset len buf w
  end.

(** ** The debug endpoint *)
Definition ensure_loaded (lib : bool) (g : GlobalState) : bool * GlobalState :=
  if syms_resolved g then (true, g)
  else if load_failed g then (false, g)
  else if lib then (true, g <| syms_resolved := true |>)
  else (false, g <| load_failed := true |>).
Definition lookup_emu (h : Z) (g : GlobalState) : Z := default 0 (fst <$> live_emulators g !! h).
Definition lookup_dev_id (h : Z) (g : GlobalState) : Z := default 0 (snd <$> live_emulators g !! h).
(** The code, and [*out_handle]; [out]: it is not null. *)
Definition ule_dgpu_acquire (dev_id : Z) (out lib : bool) w : Z * option Z * sim_world E :=
  if negb out then (- EINVAL, None, w)
  else
    let '(ok, g) := ensure_loaded lib (global w) in
    let w := w <| global := g |> in
    if negb ok then (- ENOSYS, None, w)
    else if dev_id =? 0 then (- EINVAL, None, w)
    else
      let '(e, x) := emu_create_by_id dev_id (ext w) in
      let w := w <| ext := x |> in
      if e =? 0 then (- ENOSYS, None, w)
      else
        let h := next_handle_id (global w) in
        (0, Some h, w <| global ::= fun g => g <| next_handle_id := u64 (h + 1) |> <| live_emulators ::= <[h := (e, dev_id)]> |> |>).
Definition ule_dgpu_release (h : Z) w : Z * sim_world E :=
  if h =? 0 then (- EINVAL, w)
  else if negb (syms_resolved (global w)) then (- ENOSYS, w)
  else
    let e := lookup_emu h (global w) in
    let w := w <| global ::= fun g => g <| live_emulators ::= delete h |> |> in
    (0, if e =? 0 then w else w <| ext ::= emu_destroy e |>).
Definition ule_dgpu_get_adapter_info (h : Z) (out : bool) w : Z * option CpptlmDeviceInfo * sim_world E :=
  if negb out then (- EINVAL, None, w)
  else if h =? 0 then (- EINVAL, None, w)
  else if negb (syms_resolved (global w)) then (- ENOSYS, None, w)
  else if lookup_emu h (global w) =? 0 then (- EINVAL, None, w)
  else
    let dev_id := lookup_dev_id h (global w) in
    if dev_id =? 0 then (- EINVAL, None, w)
    else
      let '(ret, info, x) := emu_device_info dev_id (ext w) in
      (ret, if ret =? 0 then Some info else None, w <| ext := x |>).
Inductive ule_dgpu_space := kConfig | kBarMmio | kBarVram | kAxiDirect | OtherSpace (n : Z).
Definition config_refused (offset len : Z) : bool :=
  (4096 <? offset) || (4096 <? len) || (negb (len =? 1) && negb (len =? 2) && negb (len =? 4)).
Definition config_width (len : Z) : Z := if len =? 4 then 4 else if len =? 2 then 2 else 1.
Definition ule_dgpu_read (h : Z) (space : ule_dgpu_space) (offset len : Z) (buf : bool) w : Z * list Z * sim_world E :=
  if negb buf || (len =? 0) then (- EINVAL, [], w)
  else if h =? 0 then (- EINVAL, [], w)
  else if negb (syms_resolved (global w)) then (- ENOSYS, [], w)
  else
    let e := lookup_emu h (global w) in
    if e =? 0 then (- EINVAL, [], w)
    else match space with
    | kConfig =>
        if config_refused offset len then (- EINVAL, [], w)
        else
          let '(ret, val, x) := emu_config_read e (u16 offset) (config_width len) (ext w) in
          (ret, if ret =? 0 then le_bytes (Z.to_nat len) val else [], w <| ext := x |>)
    | kBarMmio => let '(ret, bs, x) := emu_mmio_read e 0 offset len (ext w) in (ret, bs, w <| ext := x |>)
    | kBarVram => let '(ret, bs, x) := emu_backdoor_read e 0 offset len (ext w) in (ret, bs, w <| ext := x |>)
    | kAxiDirect => (- EOPNOTSUPP, [], w)
    | OtherSpace _ => (- EINVAL, [], w)
    end.
Definition ule_dgpu_write (h : Z) (space : ule_dgpu_space) (offset : Z) (bs : list Z) (buf : bool) w : Z * sim_world E :=
  let len := Z.of_nat (length bs) in
  if negb buf || (len =? 0) then (- EINVAL, w)
  else if h =? 0 then (- EINVAL, w)
  else if negb (syms_resolved (global w)) then (- ENOSYS, w)
  else
    let e := lookup_emu h (global w) in
    if e =? 0 then (- EINVAL, w)
    else match space with
    | kConfig =>
        if config_refused offset len then (- EINVAL, w)
        else let '(ret, x) := emu_config_write e (u16 offset) (config_width len) (le_val bs) (ext w) in (ret, w <| ext := x |>)
    | kBarMmio => let '(ret, x) := emu_mmio_write e 0 offset bs (ext w) in (ret, w <| ext := x |>)
    | kBarVram => let '(ret, x) := emu_backdoor_write e 0 offset bs (ext w) in (ret, w <| ext := x |>)
    | kAxiDirect => (- EOPNOTSUPP, w)
    | OtherSpace _ => (- EINVAL, w)
    end.

(** ** The adapter calls of the CppTLM back end *)
Definition cpptlm_adapter_get_info (out lib : bool) w : Z * option CpptlmDeviceInfo * sim_world E :=
  if negb out then (- EINVAL, None, w)
  else
    let '(rc, handle, w) := ule_dgpu_acquire 1 true lib w in
    match handle with
    | Some h =>
        let '(rc, info, w) := ule_dgpu_get_adapter_info h true w in
        let w := (ule_dgpu_release h w).2 in
        match info with Some i => (0, Some i, w) | None => (rc, None, w) end
    | None => (rc, None, w)
    end.
Definition cpptlm_adapter_open (out lib : bool) w : Z * option Z * sim_world E :=
  if negb out then (- EINVAL, None, w) else ule_dgpu_acquire 1 true lib w.
Definition cpptlm_adapter_close (h : Z) w : Z * sim_world E :=
  if h =? 0 then (- EINVAL, w) else ule_dgpu_release h w.
End Bridge.

(** ** Endpoints and the platform configuration *)
(** The four handles of an endpoint are its own address. *)
Record PcieEndpointIP := mk_ep { ep_vendor_id : Z; ep_device_id : Z; ep_class_code : Z; ep_handles : list Z }.
Definition pcie_endpoint_create (addr vid did cc : Z) (eps : gmap Z PcieEndpointIP) : Z * gmap Z PcieEndpointIP :=
  (addr, <[addr := mk_ep vid did cc [addr; addr; addr; addr]]> eps).
Definition pcie_endpoint_destroy (addr : Z) (eps : gmap Z PcieEndpointIP) : gmap Z PcieEndpointIP := delete addr eps.
Inductive PlatformType := kPcX86Mock | kAmdNavi | kNvidiaAda.
Record PlatformConfig := mk_platform {
  pl_type : PlatformType; pl_topology_path : string; enable_pcie_root_complex : bool;
  pl_enable_link_layer : bool; enable_phy_digital : bool
}.
Definition default_platform : PlatformConfig :=
  mk_platform kPcX86Mock "sim_hardware/topology/default_topology.json" true true false.
(** One configuration per thread. *)
Definition platform_load (t : Z) (cfg : PlatformConfig) (g_cfg : gmap Z PlatformConfig) : Z * gmap Z PlatformConfig :=
  (0, <[t := cfg]> g_cfg).
Definition platform_get (t : Z) (g_cfg : gmap Z PlatformConfig) : PlatformConfig := default default_platform (g_cfg !! t).
(** [gpu_hal_select_backend]: which back end is initialised. *)
Inductive hal_backend := UserBackend | CpptlmBackend.
Definition gpu_hal_select_backend (env : option string) (hal : bool) : Z * option hal_backend :=
  if negb hal then (- EINVAL, None)
  else match env with
  | Some s => if String.eqb (string_of_list_ascii (c_str (list_ascii_of_string s))) "cpptlm" then (0, Some CpptlmBackend)
              else (0, Some UserBackend)
  | None => (0, Some UserBackend)
  end.

(** ** The mock bridge is memory *)
Definition access_ok (bar offset len : Z) : Prop :=
  bar < 6 /\ (len = 1 \/ len = 2 \/ len = 4 \/ len = 8) /\ offset mod len = 0 /\ offset + len <= 4096.
Lemma valid_mmio_spec bar offset len : 0 <= offset -> valid_mmio bar offset len = true <-> access_ok bar offset len.
Proof.
  intros Ho. unfold valid_mmio, access_ok.
  destruct (Z.leb_spec 6 bar); [by split; [|lia]|].
  destruct (Z.eqb_spec len 0); [by split; [|lia]|]. destruct (Z.ltb_spec 4096 len); [by split; [|lia]|].
  destruct (Z.ltb_spec 4096 offset); [by split; [|lia]|]. destruct (Z.ltb_spec (4096 - offset) len); [by split; [|lia]|].
  destruct (negb (len =? 1) && _ && _ && _) eqn:E; [split; [done|]; intros (_ & [->|[->|[->| ->]]] & _); done|].
  assert (len = 1 \/ len = 2 \/ len = 4 \/ len = 8) as Hlen.
  { rewrite !andb_false_iff, !negb_false_iff, !Z.eqb_eq in E. tauto. }
  destruct (Z.eqb_spec (offset mod len) 0); cbn [negb]; [|by split; [|intros (_ & _ & ? & _)]].
  rewrite u64_id by lia. destruct (Z.ltb_spec (offset + len) offset); [lia|]. split; [|done]. intros _. split; [lia|]. split; [done|]. lia.
Qed.

Section Mock.
  Context {E : Type} `{EM : Emulator E}.
  Implicit Types w : sim_world E.

Definition counted w : Prop := is_u64 (g_in_flight_tlps (bypass w)).
Lemma enter_exit s : is_u64 (g_in_flight_tlps s) -> bypass_exit_tlp (bypass_enter_tlp s) = s.
Proof.
  intros H. destruct s as [m n t sc]. change (mk_bypass m (u64 (u64 (n + 1) - 1)) t sc = mk_bypass m n t sc).
  f_equal. unfold u64. rewrite Zminus_mod_idemp_l. replace (n + 1 - 1) with n by lia. by apply Z.mod_small.
Qed.
Lemma tlp_guard_id w : counted w -> tlp_guard w = w.
Proof.
  intros H. destruct w as [im ga br bl s g x].
  change (mk_world im ga br bl (bypass_exit_tlp (bypass_enter_tlp s)) g x = mk_world im ga br bl s g x). by rewrite enter_exit.
Qed.
Lemma checks_mock i bar offset n : initialized i = true ->
  access_checks i bar offset n true = if valid_mmio bar offset n then 0 else - EINVAL.
Proof. intros H. unfold access_checks. rewrite H. cbn [negb orb]. by destruct (valid_mmio bar offset n). Qed.
Lemma mock_read b i bar offset n w : impls w !! b = Some i -> initialized i = true -> backend i = kMock -> counted w ->
  mmio_read b bar offset n true w =
    if valid_mmio bar offset n then Some (0, peek offset n (bars i bar), w) else Some (- EINVAL, [], w).
Proof.
  intros Hi Hin Hk Hc. unfold mmio_read. rewrite Hi. cbn [mbind option_bind]. rewrite checks_mock, Hk, tlp_guard_id by done.
  by destruct (valid_mmio bar offset n).
Qed.
(** An initialised mock bridge. *)
Definition is_mock (b : Z) w : Prop := exists i, impls w !! b = Some i /\ initialized i = true /\ backend i = kMock.

(** On an initialised mock bridge a write of 1, 2, 4 or 8 bytes, aligned and
    inside the 4 KiB of one of the six BARs, succeeds and is read back; no other
    byte of any BAR, nor the configuration space, nor the count of transactions
    in flight changes; any other access is refused with -EINVAL without effect;
    and the back door of a mock is refused. *)
Theorem mock_bridge_memory b bar offset bs w : is_mock b w -> counted w -> 0 <= bar -> 0 <= offset ->
  let len := Z.of_nat (length bs) in
  (access_ok bar offset len ->
     exists w', mmio_write b bar offset bs true w = Some (0, w') /\ is_mock b w' /\
       mmio_read b bar offset len true w' = Some (0, bs, w') /\
       (forall bar' o n, 0 <= bar' -> access_ok bar' o n -> 0 <= o ->
          (bar' <> bar \/ o + n <= offset \/ offset + len <= o) ->
          option_map (fun r => r.1) (mmio_read b bar' o n true w') = option_map (fun r => r.1) (mmio_read b bar' o n true w)) /\
       (forall o, option_map (fun r => r.1) (config_read b o true w') = option_map (fun r => r.1) (config_read b o true w)) /\
       bypass w' = bypass w) /\
  (~ access_ok bar offset len ->
     mmio_write b bar offset bs true w = Some (- EINVAL, w) /\ mmio_read b bar offset len true w = Some (- EINVAL, [], w)) /\
  (exists rc, backdoor_write b bar offset bs true w = Some (rc, w) /\ rc <> 0).
Proof.
  intros (i & Hi & Hin & Hk) Hc Hbar Hoff len. split; [|split].
  - intros Hok. pose proof (proj2 (valid_mmio_spec bar offset len Hoff) Hok) as Hv.
    set (w' := upd_impl b (set_bar bar offset bs) w). set (i' := set_bar bar offset bs i).
    assert (impls w' !! b = Some i') as Hi' by (unfold w', upd_impl; cbn [impls field_upd]; by rewrite lookup_alter_eq, Hi).
    assert (counted w') as Hc' by exact Hc. exists w'. split; [|split; [by exists i'|split; [|split; [|split; [|done]]]]].
    + unfold mmio_write. rewrite Hi. cbn [mbind option_bind]. fold len. rewrite checks_mock, Hv, Hk by done.
      change (negb (0 =? 0)) with false. cbv iota. fold w'. by rewrite tlp_guard_id.
    + rewrite (mock_read b i') by done. rewrite Hv. unfold i', set_bar. cbn [bars field_upd]. rewrite Z.eqb_refl.
      unfold len. by rewrite peek_poke.
    + intros bar' o n Hbar' Hok' Ho Hdis. rewrite (mock_read b i'), (mock_read b i) by done.
      destruct (valid_mmio bar' o n); [|done]. cbn [option_map fst]. f_equal. f_equal. unfold i', set_bar. cbn [bars field_upd].
      destruct (Z.eqb_spec bar' bar) as [->|]; [|done]. apply peek_poke_disjoint. unfold access_ok in Hok'. lia.
    + intros o. unfold config_read. rewrite Hi, Hi'. cbn [mbind option_bind]. unfold i', set_bar. cbn [initialized config_space field_upd].
      by destruct (initialized i), (negb true || (4092 <? o)).
  - intros Hno. assert (valid_mmio bar offset len = false) as Hv by (apply not_true_iff_false; by rewrite valid_mmio_spec).
    rewrite (mock_read b i), Hv by done. split; [|done].
    unfold mmio_write. rewrite Hi. cbn [mbind option_bind]. fold len. by rewrite checks_mock, Hv.
  - unfold backdoor_write. rewrite Hi. cbn [mbind option_bind]. fold len. rewrite checks_mock, Hk by done.
    destruct (valid_mmio bar offset len); eexists; by split.
Qed.
End Mock.

(** ** Draining *)
(** Threads that start and end transactions, and one that switches the mode.
    [dr_open]: transactions begun and not ended; [dr_since]: begun since the
    switching thread last saw none. *)
Record drain := mk_drain { dr_state : bypass_state; dr_open : Z; dr_since : Z; dr_app : applier }.
Definition drain_start : drain := mk_drain bypass_start 0 0 Idle.
Inductive drain_event :=
| TlpEnter | TlpExit | Apply (m : BypassMode) (p : DrainPolicy) | Access (late : bool)
| SetTimeout (ms : Z) | SetScope (b : bool).
Definition saw_none (a : applier) (s : bypass_state) : bool :=
  match a with Waiting _ _ => negb (0 <? g_in_flight_tlps s) | _ => false end.
Definition drain_do (e : drain_event) (d : drain) : option drain :=
  let '(mk_drain s n k a) := d in
  match e with
  | TlpEnter => Some (mk_drain (bypass_enter_tlp s) (n + 1) (k + 1) a)
  | TlpExit => if n =? 0 then None else Some (mk_drain (bypass_exit_tlp s) (n - 1) k a)
  | Apply m p => match a with Idle | Returned _ => Some (mk_drain s n k (apply_enter m p)) | _ => None end
  | Access late => let '(a', s') := apply_step late a s in Some (mk_drain s' n (if saw_none a s then 0 else k) a')
  | SetTimeout ms => Some (mk_drain (bypass_set_drain_timeout_ms ms s) n k a)
  | SetScope b => Some (mk_drain (bypass_set_test_scope b s) n k a)
  end.
Fixpoint drain_run (es : list drain_event) (d : drain) : option drain :=
  match es with [] => Some d | e :: es' => d ← drain_do e d; drain_run es' d end.
Definition no_scope (e : drain_event) : Prop := e <> SetScope true.

Record drain_inv (bound : Z) (d : drain) : Prop := {
  di_count : g_in_flight_tlps (dr_state d) = dr_open d;
  di_open : 0 <= dr_open d <= bound;
  di_since : 0 <= dr_since d;
  di_scope : g_test_scope (dr_state d) = false;
  di_zero : forall m, dr_app d <> ZeroCount m;
  di_store : forall m, dr_app d = StoreMode m -> dr_open d <= dr_since d
}.
Lemma drain_do_inv e d d' n : drain_inv n d -> n + 1 < 2 ^ 64 -> no_scope e -> drain_do e d = Some d' -> drain_inv (n + 1) d'.
Proof.
  intros [H1 H2 H3 H4 H5 H6] Hn He E. destruct d as [s o k a]. cbn [dr_state dr_open dr_since dr_app] in *.
  destruct e as [| |m p|late|ms|b]; cbn [drain_do] in E.
  - injection E as <-. split; cbn; try done; try lia; [unfold u64; rewrite Z.mod_small; lia|]. intros m Ha. specialize (H6 m Ha). lia.
  - destruct (Z.eqb_spec o 0); [done|]. injection E as <-. split; cbn; try done; try lia; [unfold u64; rewrite Z.mod_small; lia|].
    intros m Ha. specialize (H6 m Ha). lia.
  - assert (d' = mk_drain s o k (apply_enter m p)) as -> by (destruct a; congruence).
    split; cbn; try done; try lia; by destruct p.
  - destruct (apply_step late a s) as [a' s'] eqn:Ea. injection E as <-.
    destruct a as [|m|m|m|m t|m|rc]; cbn [saw_none]; cbn in Ea.
    + injection Ea as <- <-. split; cbn; try done; lia.
    + unfold bypass_is_test_scope in Ea. rewrite H4 in Ea. injection Ea as <- <-. split; cbn; try done; lia.
    + by destruct (H5 m).
    + injection Ea as <- <-. split; cbn; try done; lia.
    + rewrite H1 in *. destruct (Z.ltb_spec 0 o); injection Ea as <- <-; cbn [negb].
      * destruct (negb _ && late); split; cbn; try done; lia.
      * split; cbn; try done; lia.
    + injection Ea as <- <-. split; cbn; try done; lia.
    + injection Ea as <- <-. split; cbn; try done; lia.
  - injection E as <-. split; cbn; try done; lia.
  - injection E as <-. destruct b; [by destruct He|]. split; cbn; try done; lia.
Qed.
Lemma drain_run_inv es d d' n : drain_inv n d -> n + Z.of_nat (length es) < 2 ^ 64 -> Forall no_scope es ->
  drain_run es d = Some d' -> drain_inv (n + Z.of_nat (length es)) d'.
Proof.
  revert d n. induction es as [|e es IH]; intros d n Hd Hn He E; simpl in *.
  - injection E as <-. by rewrite Z.add_0_r.
  - apply Forall_cons in He as [He Hes]. destruct (drain_do e d) as [d1|] eqn:E1; [|done]. simpl in E.
    replace (n + Z.of_nat (S (length es))) with (n + 1 + Z.of_nat (length es)) by lia.
    eapply IH; [|lia|done|exact E]. eapply drain_do_inv; [done|lia|done|done].
Qed.

(** C35. Outside the test scope, in every interleaving of transactions with a
    thread that switches the mode, the counter is the number of transactions in
    flight; an immediate abort is refused with -EACCES and changes nothing; the
    mode changes only in the last access of a graceful switch, and every
    transaction then in flight began after the switch last saw none; a switch
    that waits past its deadline with transactions in flight gives up with -EBUSY
    and the old mode; and once none is in flight two accesses complete it. *)
Theorem drain_exact es d : drain_run es drain_start = Some d -> Forall no_scope es -> Z.of_nat (length es) < 2 ^ 64 ->
  bypass_in_flight_count (dr_state d) = dr_open d /\
  (forall e d', no_scope e -> drain_do e d = Some d' -> g_mode (dr_state d') <> g_mode (dr_state d) ->
     exists m late, e = Access late /\ dr_app d = StoreMode m /\ g_mode (dr_state d') = m /\ dr_app d' = Returned 0 /\
       dr_open d <= dr_since d) /\
  (forall m, (dr_app d = Idle \/ exists rc, dr_app d = Returned rc) -> forall late,
     drain_run [Apply m kImmediateAbort; Access late] d = Some (mk_drain (dr_state d) (dr_open d) (dr_since d) (Returned (- EACCES)))) /\
  (forall m t, dr_app d = Waiting m t -> 0 < dr_open d -> t <> 0 ->
     drain_do (Access true) d = Some (mk_drain (dr_state d) (dr_open d) (dr_since d) (Returned (- EBUSY)))) /\
  (forall m t late late', dr_app d = Waiting m t -> dr_open d = 0 ->
     exists d', drain_run [Access late; Access late'] d = Some d' /\ dr_app d' = Returned 0 /\ bypass_get_mode (dr_state d') = m /\
       dr_open d' = 0).
Proof.
  intros E He Hn. assert (drain_inv 0 drain_start) as H0 by (split; try done; simpl; lia).
  pose proof (drain_run_inv es drain_start d 0 H0 ltac:(lia) He E) as [H1 H2 H3 H4 H5 H6]. destruct d as [s o k a].
  cbn [dr_state dr_open dr_since dr_app] in *. split; [done|]. split; [|split; [|split]].
  - intros e d' Hne Ed Hm. destruct e as [| |m p|late|ms|b]; cbn [drain_do] in Ed.
    + by injection Ed as <-.
    + destruct (o =? 0); [done|]. by injection Ed as <-.
    + destruct a; try done; by injection Ed as <-.
    + destruct a as [|m|m|m|m t|m|rc]; cbn [apply_step] in Ed; try (injection Ed as <-; done).
      * destruct (0 <? g_in_flight_tlps s); [destruct (negb _ && late)|]; by injection Ed as <-.
      * injection Ed as <-. exists m, late. split; [done|]. split; [done|]. split; [done|]. split; [done|]. by apply (H6 m).
    + by injection Ed as <-.
    + by injection Ed as <-.
  - intros m Ha late. cbn [drain_run drain_do]. assert (match a with Idle | Returned _ => true | _ => false end = true) as Hc
      by (destruct Ha as [->|[rc ->]]; done).
    destruct a; try done; destruct s as [md fl dt sc]; simpl in H4; by subst sc.
  - intros m t -> Ho Ht. cbn [drain_do apply_step saw_none]. rewrite H1. replace (0 <? o) with true by lia.
    apply Z.eqb_neq in Ht. by rewrite Ht.
  - intros m t late late' -> ->. cbn [drain_run drain_do apply_step saw_none]. rewrite H1. change (0 <? 0) with false. cbn.
    by eexists.
Qed.
Lemma drain_exact_witness :
  let es := [TlpEnter; Apply kBypass kGracefulDrain; Access false; Access false; TlpExit] in
  match drain_run es drain_start with
  | Some d =>
    bypass_in_flight_count (dr_state d) = dr_open d /\
    (forall e d', no_scope e -> drain_do e d = Some d' -> g_mode (dr_state d') <> g_mode (dr_state d) ->
       exists m late, e = Access late /\ dr_app d = StoreMode m /\ g_mode (dr_state d') = m /\ dr_app d' = Returned 0 /\
         dr_open d <= dr_since d) /\
    (forall m, (dr_app d = Idle \/ exists rc, dr_app d = Returned rc) -> forall late,
       drain_run [Apply m kImmediateAbort; Access late] d = Some (mk_drain (dr_state d) (dr_open d) (dr_since d) (Returned (- EACCES)))) /\
    (forall m t, dr_app d = Waiting m t -> 0 < dr_open d -> t <> 0 ->
       drain_do (Access true) d = Some (mk_drain (dr_state d) (dr_open d) (dr_since d) (Returned (- EBUSY)))) /\
    (forall m t late late', dr_app d = Waiting m t -> dr_open d = 0 ->
       exists d', drain_run [Access late; Access late'] d = Some d' /\ dr_app d' = Returned 0 /\ bypass_get_mode (dr_state d') = m /\
         dr_open d' = 0)
  | None => False
  end.
Proof.
  cbv zeta. destruct (drain_run _ _) as [d|] eqn:E; [|vm_compute in E; done].
  apply (drain_exact _ d E); [by repeat constructor|done].
Defined.

(** A transaction that begins between the last poll and the store is in flight
    when the mode changes. *)
Lemma mode_changes_in_flight : exists d,
  drain_run [Apply kBypass kGracefulDrain; Access false; Access false; TlpEnter; Access false] drain_start = Some d /\
  dr_open d = 1 /\ bypass_get_mode (dr_state d) = kBypass /\ dr_app d = Returned 0.
Proof. by eexists. Qed.
(** An abort zeroes the counter under a transaction, whose end then wraps it: the
    next graceful switch without a deadline never returns. *)
Lemma abort_wraps_counter : exists d,
  drain_run [SetScope true; TlpEnter; Apply kBypass kImmediateAbort; Access false; Access false; Access false; TlpExit;
             Apply kFull kGracefulDrain; Access false] drain_start = Some d /\
  dr_open d = 0 /\ bypass_in_flight_count (dr_state d) = UINT64_MAX /\
  forall n late, drain_run (replicate n (Access late)) d = Some d.
Proof.
  eexists. split; [vm_compute; reflexivity|]. split; [done|]. split; [done|]. intros n late.
  induction n as [|n IH]; [done|]. simpl. exact IH.
Qed.

(** ** The handles of the debug endpoint *)
(** Every handle ever given out, in order: the emulator and device of a live
    one, [None] once it is released; handle [h] is at [h - 1]. [ht_lib]: whether
    the library loaded, once that was tried. *)
Record handle_table (E : Type) := mk_table { ht_lib : option bool; ht_slots : list (option (Z * Z)); ht_ext : E }.
Arguments mk_table {E}. Arguments ht_lib {E}. Arguments ht_slots {E}. Arguments ht_ext {E}.
#[export] Instance eta_table E : Eta (handle_table E) := fun t => mk_table (ht_lib t) (ht_slots t) (ht_ext t).
Inductive dgpu_op :=
| DAcquire (dev : Z) (out lib : bool) | DRelease (h : Z) | DInfo (h : Z) (out : bool)
| DRead (h : Z) (space : ule_dgpu_space) (offset len : Z) (buf : bool)
| DWrite (h : Z) (space : ule_dgpu_space) (offset : Z) (bs : list Z) (buf : bool)
| AdapterInfo (out lib : bool) | AdapterOpen (out lib : bool) | AdapterClose (h : Z).
(** The code, a handle, bytes, a description. *)
Definition dgpu_answer : Type := Z * option Z * list Z * option CpptlmDeviceInfo.
Definition only (rc : Z) : dgpu_answer := (rc, None, [], None).

Section Handles.
  Context {E : Type} `{EM : Emulator E}.
  Implicit Types (w : sim_world E) (t : handle_table E).

Definition slot (h : Z) t : option (Z * Z) := if h <=? 0 then None else mjoin (ht_slots t !! Z.to_nat (h - 1)).
Definition spec_acquire (dev : Z) (lib : bool) t : Z * option (Z * Z) * handle_table E :=
  let ok := default lib (ht_lib t) in
  let t := t <| ht_lib := Some ok |> in
  if negb ok then (- ENOSYS, None, t)
  else if dev =? 0 then (- EINVAL, None, t)
  else let '(e, x) := emu_create_by_id dev (ht_ext t) in
       (if e =? 0 then (- ENOSYS, None, t <| ht_ext := x |>) else (0, Some (e, dev), t <| ht_ext := x |>)).
(** An operation on a live handle; [ret] keeps the table. *)
Definition on_live (h : Z) t (f : Z -> Z -> E -> dgpu_answer * E) : dgpu_answer * handle_table E :=
  if h =? 0 then (only (- EINVAL), t)
  else if negb (bool_decide (ht_lib t = Some true)) then (only (- ENOSYS), t)
  else match slot h t with
  | None => (only (- EINVAL), t)
  | Some (e, dev) => let '(a, x) := f e dev (ht_ext t) in (a, t <| ht_ext := x |>)
  end.
Definition spec_read (space : ule_dgpu_space) (offset len : Z) (e : Z) (x : E) : dgpu_answer * E :=
  match space with
  | kConfig => if config_refused offset len then (only (- EINVAL), x)
               else let '(ret, val, x) := emu_config_read e (u16 offset) (config_width len) x in
                    ((ret, None, if ret =? 0 then le_bytes (Z.to_nat len) val else [], None), x)
  | kBarMmio => let '(ret, bs, x) := emu_mmio_read e 0 offset len x in ((ret, None, bs, None), x)
  | kBarVram => let '(ret, bs, x) := emu_backdoor_read e 0 offset len x in ((ret, None, bs, None), x)
  | kAxiDirect => (only (- EOPNOTSUPP), x)
  | OtherSpace _ => (only (- EINVAL), x)
  end.
Definition spec_write (space : ule_dgpu_space) (offset : Z) (bs : list Z) (e : Z) (x : E) : dgpu_answer * E :=
  match space with
  | kConfig => if config_refused offset (Z.of_nat (length bs)) then (only (- EINVAL), x)
               else let '(ret, x) := emu_config_write e (u16 offset) (config_width (Z.of_nat (length bs))) (le_val bs) x in (only ret, x)
  | kBarMmio => let '(ret, x) := emu_mmio_write e 0 offset bs x in (only ret, x)
  | kBarVram => let '(ret, x) := emu_backdoor_write e 0 offset bs x in (only ret, x)
  | kAxiDirect => (only (- EOPNOTSUPP), x)
  | OtherSpace _ => (only (- EINVAL), x)
  end.
Definition spec_release (h : Z) t : dgpu_answer * handle_table E :=
  if h =? 0 then (only (- EINVAL), t)
  else if negb (bool_decide (ht_lib t = Some true)) then (only (- ENOSYS), t)
  else match slot h t with
  | None => (only 0, t)
  | Some (e, _) => (only 0, t <| ht_slots ::= <[Z.to_nat (h - 1) := None]> |> <| ht_ext ::= emu_destroy e |>)
  end.
Definition spec_open (dev : Z) (out lib : bool) t : dgpu_answer * handle_table E :=
  if negb out then (only (- EINVAL), t)
  else match spec_acquire dev lib t with
  | (rc, Some s, t) => ((rc, Some (1 + Z.of_nat (length (ht_slots t))), [], None), t <| ht_slots ::= fun l => l ++ [Some s] |>)
  | (rc, None, t) => (only rc, t)
  end.
(** Asking for a description makes an emulator and destroys it: its handle is
    spent. *)
Definition spec_info (out lib : bool) t : dgpu_answer * handle_table E :=
  if negb out then (only (- EINVAL), t)
  else match spec_acquire 1 lib t with
  | (_, Some (e, _), t) =>
      let '(ret, info, x) := emu_device_info 1 (ht_ext t) in
      ((ret, None, [], if ret =? 0 then Some info else None),
       t <| ht_slots ::= fun l => l ++ [None] |> <| ht_ext := emu_destroy e x |>)
  | (rc, None, t) => (only rc, t)
  end.
Definition spec_do (o : dgpu_op) t : dgpu_answer * handle_table E :=
  match o with
  | DAcquire dev out lib => spec_open dev out lib t
  | DRelease h | AdapterClose h => spec_release h t
  | DInfo h out =>
      if negb out then (only (- EINVAL), t)
      else on_live h t (fun _ dev x =>
             let '(ret, info, x) := emu_device_info dev x in ((ret, None, [], if ret =? 0 then Some info else None), x))
  | DRead h sp off len buf =>
      if negb buf || (len =? 0) then (only (- EINVAL), t) else on_live h t (fun e _ x => spec_read sp off len e x)
  | DWrite h sp off bs buf =>
      if negb buf || (Z.of_nat (length bs) =? 0) then (only (- EINVAL), t) else on_live h t (fun e _ x => spec_write sp off bs e x)
  | AdapterInfo out lib => spec_info out lib t
  | AdapterOpen out lib => spec_open 1 out lib t
  end.
Definition dgpu_do (o : dgpu_op) w : dgpu_answer * sim_world E :=
  match o with
  | DAcquire dev out lib => let '(rc, h, w) := ule_dgpu_acquire dev out lib w in ((rc, h, [], None), w)
  | DRelease h => let '(rc, w) := ule_dgpu_release h w in (only rc, w)
  | DInfo h out => let '(rc, i, w) := ule_dgpu_get_adapter_info h out w in ((rc, None, [], i), w)
  | DRead h sp off len buf => let '(rc, bs, w) := ule_dgpu_read h sp off len buf w in ((rc, None, bs, None), w)
  | DWrite h sp off bs buf => let '(rc, w) := ule_dgpu_write h sp off bs buf w in (only rc, w)
  | AdapterInfo out lib => let '(rc, i, w) := cpptlm_adapter_get_info out lib w in ((rc, None, [], i), w)
  | AdapterOpen out lib => let '(rc, h, w) := cpptlm_adapter_open out lib w in ((rc, h, [], None), w)
  | AdapterClose h => let '(rc, w) := cpptlm_adapter_close h w in (only rc, w)
  end.

(** The table a state holds. *)
Record holds w t : Prop := {
  ho_resolved : syms_resolved (global w) = bool_decide (ht_lib t = Some true);
  ho_failed : load_failed (global w) = bool_decide (ht_lib t = Some false);
  ho_next : next_handle_id (global w) = 1 + Z.of_nat (length (ht_slots t));
  ho_live : forall h, live_emulators (global w) !! h = slot h t;
  ho_emu : forall h e dev, slot h t = Some (e, dev) -> e <> 0 /\ dev <> 0;
  ho_ext : ext w = ht_ext t
}.

Lemma holds_ext w t x : holds w t -> holds (w <| ext := x |>) (t <| ht_ext := x |>).
Proof. intros []. by split. Qed.
Lemma holds_emu w t h : holds w t -> lookup_emu h (global w) = default 0 (fst <$> slot h t) /\
  lookup_dev_id h (global w) = default 0 (snd <$> slot h t).
Proof. intros H. unfold lookup_emu, lookup_dev_id. by rewrite (ho_live w t H). Qed.
Lemma slot_push s h t t' : ht_slots t' = ht_slots t ++ [s] ->
  slot h t' = if h =? 1 + Z.of_nat (length (ht_slots t)) then s else slot h t.
Proof.
  intros E1. unfold slot. rewrite E1. set (l := ht_slots t). clearbody l. destruct (Z.leb_spec h 0); destruct (Z.eqb_spec h (1 + Z.of_nat (length l))); try lia; [done| |].
  - subst h. replace (Z.to_nat (1 + Z.of_nat (length l) - 1)) with (length l) by lia.
    by rewrite list_lookup_middle.
  - destruct (decide (h <= Z.of_nat (length l))).
    + by rewrite lookup_app_l by lia.
    + rewrite lookup_ge_None_2, (lookup_ge_None_2 l) by (rewrite ?length_app; simpl; lia). done.
Qed.
Lemma slot_clear h h' t t' : 0 < h -> ht_slots t' = <[Z.to_nat (h - 1) := None]> (ht_slots t) ->
  slot h' t' = if h' =? h then None else slot h' t.
Proof.
  intros Hh E1. unfold slot. rewrite E1. set (l := ht_slots t). clearbody l. destruct (Z.leb_spec h' 0); [by destruct (h' =? h)|].
  destruct (Z.eqb_spec h' h) as [->|].
  - rewrite list_lookup_insert. case_decide as Hd; [done|]. rewrite lookup_ge_None_2; [done|]. apply not_and_l in Hd as [?|?]; [done|lia].
  - rewrite list_lookup_insert_ne by lia. done.
Qed.
Lemma slot_far t h : Z.of_nat (length (ht_slots t)) < h -> slot h t = None.
Proof. intros H. unfold slot. destruct (h <=? 0); [done|]. by rewrite lookup_ge_None_2 by lia. Qed.

Lemma acquire_holds dev lib w t : holds w t -> 1 + Z.of_nat (length (ht_slots t)) < 2 ^ 64 - 1 ->
  let '(rc, h, w') := ule_dgpu_acquire dev true lib w in
  match spec_acquire dev lib t with
  | (rc', Some s, t') => rc = rc' /\ rc' = 0 /\ h = Some (1 + Z.of_nat (length (ht_slots t))) /\ ht_slots t' = ht_slots t /\
      holds w' (t' <| ht_slots ::= fun l => l ++ [Some s] |>)
  | (rc', None, t') => rc = rc' /\ h = None /\ ht_slots t' = ht_slots t /\ holds w' t'
  end.
Proof.
  intros [H1 H2 H3 H4 H5 H6] Hn. unfold ule_dgpu_acquire, spec_acquire. cbn [negb].
  assert (ensure_loaded lib (global w) = (default lib (ht_lib t), if ht_lib t then global w
    else if lib then global w <| syms_resolved := true |> else global w <| load_failed := true |>)) as ->.
  { unfold ensure_loaded. rewrite H1, H2. destruct (ht_lib t) as [[]|]; [done..|]. by destruct lib. }
  set (g := if ht_lib t then _ else _). set (ok := default lib (ht_lib t)).
  assert (syms_resolved g = bool_decide (Some ok = Some true) /\ load_failed g = bool_decide (Some ok = Some false) /\
    next_handle_id g = next_handle_id (global w) /\ live_emulators g = live_emulators (global w)) as (G1 & G2 & G3 & G4).
  { unfold g, ok. destruct (ht_lib t) as [b|] eqn:Et; [by rewrite H1, H2|]. destruct lib; by split; rewrite ?H1, ?H2. }
  assert (holds (w <| global := g |>) (t <| ht_lib := Some ok |>)) as Hg
    by (split; cbn [global ext ht_lib ht_slots ht_ext field_upd]; rewrite ?G1, ?G2, ?G3, ?G4; done).
  clearbody g ok. destruct ok; cbn [negb]; [|done]. destruct (Z.eqb_spec dev 0); [done|].
  cbn [ext ht_ext field_upd]. rewrite H6. destruct (emu_create_by_id dev (ht_ext t)) as [e x].
  destruct (Z.eqb_spec e 0); [by apply holds_ext with (x := x) in Hg|].
  cbn [global field_upd]. rewrite G3, H3. split; [done|]. split; [done|]. split; [done|]. split; [done|].
  split; cbn [global ext syms_resolved load_failed next_handle_id live_emulators ht_lib ht_slots ht_ext field_upd]; try done.
  - rewrite u64_id by lia. rewrite length_app. simpl. lia.
  - intros h. rewrite (slot_push (Some (e, dev)) h t) by done. rewrite G4. destruct (Z.eqb_spec h (1 + Z.of_nat (length (ht_slots t)))) as [->|];
      [by rewrite lookup_insert_eq|]. rewrite lookup_insert_ne by done. by rewrite H4.
  - intros h e' dev'. rewrite (slot_push (Some (e, dev)) h t) by done. destruct (h =? _); [by intros [= <- <-]|]. apply H5.
Qed.
Lemma release_holds h w t : holds w t ->
  let '(rc, w') := ule_dgpu_release h w in let '(a, t') := spec_release h t in
  a = only rc /\ holds w' t' /\ length (ht_slots t') = length (ht_slots t).
Proof.
  intros Hw. pose proof Hw as [H1 H2 H3 H4 H5 H6]. unfold ule_dgpu_release, spec_release. destruct (Z.eqb_spec h 0); [done|].
  rewrite H1. destruct (bool_decide _) eqn:Eb; cbn [negb]; [|done]. destruct (holds_emu w t h Hw) as [-> _].
  destruct (slot h t) as [[e dev]|] eqn:Es; simpl.
  - assert (0 < h) as Hh by (unfold slot in Es; destruct (Z.leb_spec h 0); [done|lia]).
    destruct (H5 _ _ _ Es) as [He _]. replace (e =? 0) with false by lia. split; [done|].
    split; [|by rewrite length_insert]. split; cbn [global ext syms_resolved load_failed next_handle_id live_emulators ht_lib ht_slots ht_ext field_upd]; try done.
    + congruence.
    + by rewrite length_insert.
    + intros h'. rewrite (slot_clear h h' t) by done. destruct (Z.eqb_spec h' h) as [->|]; [by rewrite lookup_delete_eq|].
      rewrite lookup_delete_ne by done. by rewrite H4.
    + intros h' e' dev'. rewrite (slot_clear h h' t) by done. destruct (h' =? h); [done|]. apply H5.
    + by rewrite H6.
  - split; [done|]. split; [|done]. split; cbn [global ext syms_resolved load_failed next_handle_id live_emulators field_upd]; try done; [congruence|].
    intros h'. rewrite <- H4. destruct (decide (h' = h)) as [->|]; [by rewrite lookup_delete_eq, H4|by rewrite lookup_delete_ne].
Qed.

Lemma holds_same w t : holds w t -> holds w (t <| ht_ext := ht_ext t |>).
Proof. by destruct t. Qed.
(** The answer is the same and the table keeps its size. *)
Ltac agree Hw := cbn [fst snd]; split; [done|split; [first [exact Hw | exact (holds_ext _ _ _ Hw) | exact (holds_same _ _ Hw)]|cbn; lia]].
Ltac live_op h Hw :=
  unfold on_live; destruct (h =? 0); [agree Hw|]; rewrite (ho_resolved _ _ Hw);
  destruct (bool_decide _); cbn [negb]; [|agree Hw];
  let H1 := fresh in let H2 := fresh in destruct (holds_emu _ _ h Hw) as [H1 H2]; rewrite H1, ?H2; clear H1 H2;
  let e := fresh "e" in let dev := fresh "dev" in let Es := fresh in
  destruct (slot h _) as [[e dev]|] eqn:Es; cbn [fmap option_fmap option_map default fst snd]; unfold id; [|agree Hw];
  destruct (ho_emu _ _ Hw h e dev Es); replace (e =? 0) with false by lia; replace (dev =? 0) with false by lia;
  rewrite ?(ho_ext _ _ Hw); clear Es.
Lemma spec_acquire_some dev lib t rc s t' : spec_acquire dev lib t = (rc, Some s, t') ->
  s.2 = dev /\ s.1 <> 0 /\ dev <> 0 /\ ht_lib t' = Some true.
Proof.
  unfold spec_acquire. destruct (default lib (ht_lib t)); cbn [negb]; [|done]. destruct (Z.eqb_spec dev 0); [done|].
  destruct (emu_create_by_id dev _) as [e x]. destruct (Z.eqb_spec e 0); [done|]. by intros [= <- <- <-].
Qed.
Lemma open_holds dev out lib w t : holds w t -> 1 + Z.of_nat (length (ht_slots t)) < 2 ^ 64 - 1 ->
  let '(rc, h, w') := ule_dgpu_acquire dev out lib w in let '(a, t') := spec_open dev out lib t in
  (rc, h, [], None) = a /\ holds w' t' /\ (length (ht_slots t') <= S (length (ht_slots t)))%nat.
Proof.
  intros Hw Hn. unfold spec_open. destruct out; cbn [negb]; [|unfold ule_dgpu_acquire; cbn [negb]; split; [done|]; split; [done|]; lia].
  pose proof (acquire_holds dev lib w t Hw Hn) as H. destruct (ule_dgpu_acquire dev true lib w) as [[rc h] w'].
  destruct (spec_acquire dev lib t) as [[rc' [s|]] t'].
  - destruct H as (-> & -> & -> & Hs & H). rewrite Hs. split; [done|]. split; [exact H|].
    cbn [ht_slots field_upd]. rewrite Hs, length_app. simpl. lia.
  - destruct H as (-> & -> & Hs & H). split; [done|]. split; [done|]. rewrite Hs. lia.
Qed.
Lemma info_holds out lib w t : holds w t -> 1 + Z.of_nat (length (ht_slots t)) < 2 ^ 64 - 1 ->
  let '(rc, i, w') := cpptlm_adapter_get_info out lib w in let '(a, t') := spec_info out lib t in
  (rc, None, [], i) = a /\ holds w' t' /\ (length (ht_slots t') <= S (length (ht_slots t)))%nat.
Proof.
  intros Hw Hn. unfold cpptlm_adapter_get_info, spec_info. destruct out; cbn [negb]; [|split; [done|]; split; [done|]; lia].
  pose proof (acquire_holds 1 lib w t Hw Hn) as H. destruct (ule_dgpu_acquire 1 true lib w) as [[rc h] w1].
  destruct (spec_acquire 1 lib t) as [[rc' [[e dev]|]] t1] eqn:Ea.
  2: { destruct H as (-> & -> & Hs & H). split; [done|]. split; [done|]. rewrite Hs. lia. }
  destruct H as (-> & -> & -> & Hs & H). destruct (spec_acquire_some _ _ _ _ _ _ Ea) as (Hd & He & _ & Hl). simpl in Hd, He. subst dev.
  set (h := 1 + Z.of_nat (length (ht_slots t))) in *. set (t2 := t1 <| ht_slots ::= fun l => l ++ [Some (e, 1)] |>) in *.
  assert (slot h t2 = Some (e, 1)) as Hsl.
  { rewrite (slot_push (Some (e, 1)) h t1) by done. rewrite Hs. fold h. by rewrite Z.eqb_refl. }
  assert (syms_resolved (global w1) = true) as Hr by (rewrite (ho_resolved _ _ H); unfold t2; cbn [ht_lib field_upd]; by rewrite Hl).
  destruct (holds_emu w1 t2 h H) as [H1 H2]. rewrite Hsl in H1, H2. simpl in H1, H2.
  unfold ule_dgpu_get_adapter_info. cbn [negb]. replace (h =? 0) with false by lia. rewrite Hr, H1, H2. cbn [negb].
  replace (e =? 0) with false by lia. change (1 =? 0) with false. cbv iota. rewrite (ho_ext _ _ H). unfold t2 at 1. cbn [ht_ext field_upd].
  destruct (emu_device_info 1 (ht_ext t1)) as [[ret info] x].
  pose proof (release_holds h _ _ (holds_ext _ _ x H)) as Hrel. unfold spec_release in Hrel. replace (h =? 0) with false in Hrel by lia.
  change (slot h (t2 <| ht_ext := x |>)) with (slot h t2) in Hrel. rewrite Hsl in Hrel.
  replace (bool_decide (ht_lib (t2 <| ht_ext := x |>) = Some true)) with true in Hrel
    by (symmetry; apply bool_decide_eq_true; unfold t2; cbn [ht_lib field_upd]; exact Hl).
  cbn [negb] in Hrel. destruct (ule_dgpu_release h (w1 <| ext := x |>)) as [rc2 w2]. destruct Hrel as (_ & Hrel & _).
  assert (holds w2 (t1 <| ht_slots ::= fun l => l ++ [None] |> <| ht_ext := emu_destroy e x |>)) as Hfin.
  { destruct Hrel as [R1 R2 R3 R4 R5 R6]. unfold t2 in *. cbn [ht_lib ht_slots ht_ext field_upd] in *.
    assert (<[Z.to_nat (h - 1) := None]> (ht_slots t1 ++ [Some (e, 1)]) = ht_slots t1 ++ [None]) as Hi.
    { replace (Z.to_nat (h - 1)) with (length (ht_slots t1) + 0)%nat by (rewrite Hs; unfold h; lia). by rewrite insert_app_r. }
    rewrite Hi in R3. split; try done.
    - intros k. rewrite R4. unfold slot. cbn [ht_slots field_upd]. by rewrite Hi.
    - intros k e' dev'. specialize (R5 k e' dev'). unfold slot in *. cbn [ht_slots field_upd] in *. by rewrite Hi in R5. }
  assert (length (ht_slots t1 ++ [None]) <= S (length (ht_slots t)))%nat as Hlen by (rewrite Hs, length_app; simpl; lia).
  destruct (Z.eqb_spec ret 0) as [->|]; (split; [done|]; split; [exact Hfin|exact Hlen]).
Qed.

Lemma dgpu_do_holds o w t : holds w t -> 1 + Z.of_nat (length (ht_slots t)) < 2 ^ 64 - 1 ->
  (dgpu_do o w).1 = (spec_do o t).1 /\ holds (dgpu_do o w).2 (spec_do o t).2 /\
  (length (ht_slots (spec_do o t).2) <= S (length (ht_slots t)))%nat.
Proof.
  intros Hw Hn. assert (forall h, let '(rc, w') := ule_dgpu_release h w in let '(a, t') := spec_release h t in
    only rc = a /\ holds w' t' /\ (length (ht_slots t') <= S (length (ht_slots t)))%nat) as Hrel.
  { intros h. pose proof (release_holds h w t Hw) as H. destruct (ule_dgpu_release h w), (spec_release h t).
    destruct H as (-> & H & E1). split; [done|]. split; [done|]. lia. }
  destruct o as [dev out lib|h|h out|h sp off len buf|h sp off bs buf|out lib|out lib|h]; cbn [dgpu_do spec_do].
  - pose proof (open_holds dev out lib w t Hw Hn) as H.
    destruct (ule_dgpu_acquire dev out lib w) as [[rc k] w'], (spec_open dev out lib t). exact H.
  - specialize (Hrel h). destruct (ule_dgpu_release h w), (spec_release h t). exact Hrel.
  - unfold ule_dgpu_get_adapter_info. destruct out; cbn [negb]; [|agree Hw].
    live_op h Hw. destruct (emu_device_info dev (ht_ext t)) as [[ret info] x]. agree Hw.
  - unfold ule_dgpu_read. destruct (_ || _); [agree Hw|]. live_op h Hw.
    destruct sp; cbn [spec_read]; [destruct (config_refused _ _); [agree Hw|]| | | |];
      [destruct (emu_config_read _ _ _ _) as [[ret v] x]|destruct (emu_mmio_read _ _ _ _ _) as [[ret v] x]
      |destruct (emu_backdoor_read _ _ _ _ _) as [[ret v] x]| |]; agree Hw.
  - unfold ule_dgpu_write. destruct (_ || _); [agree Hw|]. live_op h Hw.
    destruct sp; cbn [spec_write]; [destruct (config_refused _ _); [agree Hw|]| | | |];
      [destruct (emu_config_write _ _ _ _ _) as [ret x]|destruct (emu_mmio_write _ _ _ _ _) as [ret x]
      |destruct (emu_backdoor_write _ _ _ _ _) as [ret x]| |]; agree Hw.
  - pose proof (info_holds out lib w t Hw Hn) as H.
    destruct (cpptlm_adapter_get_info out lib w) as [[rc k] w'], (spec_info out lib t). exact H.
  - unfold cpptlm_adapter_open. pose proof (open_holds 1 out lib w t Hw Hn) as H.
    destruct out; cbn [negb]; [|agree Hw].
    destruct (ule_dgpu_acquire 1 true lib w) as [[rc k] w'], (spec_open 1 true lib t). exact H.
  - unfold cpptlm_adapter_close. specialize (Hrel h). unfold ule_dgpu_release in *. destruct (h =? 0); [|].
    + destruct (spec_release h t). exact Hrel.
    + destruct (if negb _ then _ else _), (spec_release h t). exact Hrel.
Qed.

Fixpoint run_all {A : Type} (step : dgpu_op -> A -> dgpu_answer * A) (os : list dgpu_op) (s : A) : list dgpu_answer * A :=
  match os with
  | [] => ([], s)
  | o :: os' => let '(a, s) := step o s in let '(l, s) := run_all step os' s in (a :: l, s)
  end.
Lemma run_all_holds os w t : holds w t -> 1 + Z.of_nat (length (ht_slots t)) + Z.of_nat (length os) < 2 ^ 64 - 1 ->
  (run_all dgpu_do os w).1 = (run_all spec_do os t).1 /\ holds (run_all dgpu_do os w).2 (run_all spec_do os t).2.
Proof.
  revert w t. induction os as [|o os IH]; intros w t Hw Hn; simpl in *; [done|].
  destruct (dgpu_do_holds o w t Hw ltac:(lia)) as (Ha & Hw' & Hlen).
  destruct (dgpu_do o w) as [a w1], (spec_do o t) as [a' t1]. simpl in *. subst a'.
  specialize (IH w1 t1 Hw' ltac:(lia)). destruct (run_all dgpu_do os w1), (run_all spec_do os t1). simpl in *.
  destruct IH as [-> IH]. done.
Qed.
Definition table_start (x : E) : handle_table E := mk_table None [] x.
Lemma start_holds x : holds (world_start x) (table_start x).
Proof.
  assert (forall h, slot h (table_start x) = None) as Hs by (intros h; unfold slot; by destruct (h <=? 0)).
  split; cbn; try done. intros h e dev. by rewrite Hs.
Qed.

(** C24. The debug endpoint and the adapter calls of the CppTLM back end
    implement an append-only list of handles: the k-th emulator made gets handle
    k, which no other ever gets; a call on a handle reaches the simulator, with
    that handle's emulator, exactly while the handle is live (-EINVAL
    otherwise); a release destroys the emulator once; a description makes an
    emulator and destroys it; and when the library does not load every call is
    refused with -ENOSYS for good. *)
Theorem dgpu_refines_handles os x : Z.of_nat (length os) < 2 ^ 64 - 2 ->
  let '(l, w) := run_all dgpu_do os (world_start x) in
  let '(l', t) := run_all spec_do os (table_start x) in
  l = l' /\ ext w = ht_ext t /\ (forall h, live_emulators (global w) !! h = slot h t) /\
  next_handle_id (global w) = 1 + Z.of_nat (length (ht_slots t)).
Proof.
  intros Hn. destruct (run_all_holds os _ _ (start_holds x) ltac:(cbn; lia)) as [Hl [H1 H2 H3 H4 H5 H6]].
  destruct (run_all dgpu_do os (world_start x)) as [l w], (run_all spec_do os (table_start x)) as [l' t].
  by split; [|split; [|split]].
Qed.
End Handles.

(** ** Concrete runs *)
(** A simulator that numbers its emulators and logs what it is asked. *)
#[export] Instance log_emulator : Emulator (Z * list (Z * Z)) := {
  emu_create _ x := (1000 + x.1, (x.1 + 1, x.2));
  emu_create_by_id dev x := (1000 + x.1, (x.1 + 1, x.2));
  emu_destroy e x := (x.1, x.2 ++ [(e, 0)]);
  emu_mmio_read e bar o n x := (0, replicate (Z.to_nat n) 7, (x.1, x.2 ++ [(e, 1)]));
  emu_mmio_write e bar o bs x := (0, (x.1, x.2 ++ [(e, 2)]));
  emu_backdoor_read e bar o n x := (0, replicate (Z.to_nat n) 8, (x.1, x.2 ++ [(e, 3)]));
  emu_backdoor_write e bar o bs x := (0, (x.1, x.2 ++ [(e, 4)]));
  emu_config_read e o n x := (0, 0x1002, (x.1, x.2 ++ [(e, o)]));
  emu_config_write e o n v x := (0, (x.1, x.2 ++ [(e, o)]));
  emu_device_info dev x := (0, mk_info 0x1002 0x744c dev 11 0 0 0 0 [], x)
}.
Definition demo_dgpu : list dgpu_op :=
  [DAcquire 3 true true; AdapterInfo true true; AdapterOpen true true; DRead 1 kBarMmio 0 4 true; DRelease 1; DRelease 1;
   DRead 1 kBarMmio 0 4 true; DRead 3 kConfig 4096 4 true].
Lemma dgpu_refines_handles_witness :
  (run_all dgpu_do demo_dgpu (world_start (0, []))).1.*1.*1.*1 = [0; 0; 0; 0; 0; 0; -22; 0] /\
  let '(l, w) := run_all dgpu_do demo_dgpu (world_start (0, [])) in
  let '(l', t) := run_all spec_do demo_dgpu (table_start (0, [])) in
  l = l' /\ ext w = ht_ext t /\ (forall h, live_emulators (global w) !! h = slot h t) /\
  next_handle_id (global w) = 1 + Z.of_nat (length (ht_slots t)).
Proof. split; [vm_compute; reflexivity|]. apply (dgpu_refines_handles demo_dgpu (0, [])). vm_compute. reflexivity. Defined.

Definition mock_params : CpptlmBridgeInitParams := mk_params kMock None 0.
Definition mock_world : sim_world (Z * list (Z * Z)) :=
  default (world_start (0, [])) (snd <$> bridge_init 77 mock_params false (CpptlmBridge_new 77 (world_start (0, [])))).
Lemma mock_world_mock : is_mock 77 mock_world.
Proof. eexists. by split; [vm_compute; reflexivity|split]. Qed.
Lemma mock_bridge_memory_witness :
  let bs := [1; 2; 3; 4] in let len := 4 in
  (access_ok 2 0x40 len ->
     exists w', mmio_write 77 2 0x40 bs true mock_world = Some (0, w') /\ is_mock 77 w' /\
       mmio_read 77 2 0x40 len true w' = Some (0, bs, w') /\
       (forall bar' o n, 0 <= bar' -> access_ok bar' o n -> 0 <= o ->
          (bar' <> 2 \/ o + n <= 0x40 \/ 0x40 + len <= o) ->
          option_map (fun r => r.1) (mmio_read 77 bar' o n true w') = option_map (fun r => r.1) (mmio_read 77 bar' o n true mock_world)) /\
       (forall o, option_map (fun r => r.1) (config_read 77 o true w') = option_map (fun r => r.1) (config_read 77 o true mock_world)) /\
       bypass w' = bypass mock_world) /\
  (~ access_ok 2 0x40 len ->
     mmio_write 77 2 0x40 bs true mock_world = Some (- EINVAL, mock_world) /\
     mmio_read 77 2 0x40 len true mock_world = Some (- EINVAL, [], mock_world)) /\
  (exists rc, backdoor_write 77 2 0x40 bs true mock_world = Some (rc, mock_world) /\ rc <> 0).
Proof. apply (mock_bridge_memory 77 2 0x40 [1; 2; 3; 4] mock_world mock_world_mock); [vm_compute; by split|lia|lia]. Defined.

(** The configuration accesses of a bridge over the simulator never reach it. *)
Definition cpptlm_world : sim_world (Z * list (Z * Z)) :=
  default (world_start (0, [])) (snd <$> bridge_init 77 (mk_params kCpptlm None 0) true (CpptlmBridge_new 77 (world_start (0, [])))).
Lemma config_stays_local : exists w',
  config_write 77 4 0xABCD cpptlm_world = Some (0, w') /\ ext w' = ext cpptlm_world /\
  option_map (fun r => r.1) (config_read 77 4 true w') = Some (0, 0xABCD) /\
  option_map (fun r => (r.1, (ext r.2).2)) (mmio_write 77 0 0 [1] true cpptlm_world) = Some (0, [(1000, 2)]).
Proof. eexists. by split; [vm_compute; reflexivity|]. Qed.
(** The configuration check lets an access begin at the end of the space. *)
Lemma config_bound_off : config_refused 4096 4 = false /\ config_refused 4095 4 = false.
Proof. done. Qed.

(** ** The two mutexes *)
Inductive mutex := ImplMutex | ActiveMutex.
#[export] Instance mutex_eq_dec : EqDecision mutex.
Proof. solve_decision. Defined.
Inductive lock_op := Lock (m : mutex) | Unlock (m : mutex).
(** What a call does to them; the interrupt shim delivers the vector with the
    mutex of the active bridge held. *)
Definition destroy_locks : list lock_op := [Lock ImplMutex; Lock ActiveMutex; Unlock ActiveMutex; Unlock ImplMutex].
Definition shim_locks : list lock_op := [Lock ActiveMutex; Lock ImplMutex; Unlock ImplMutex; Unlock ActiveMutex].
(** Threads with what they have still to do, and the mutexes held. *)
Record lock_state := mk_locks { todo : list (list lock_op); held : list mutex }.
Definition lock_step (k : nat) (s : lock_state) : option lock_state :=
  match todo s !! k with
  | Some (Lock m :: ops) => if decide (m ∈ held s) then None else Some (mk_locks (<[k := ops]> (todo s)) (m :: held s))
  | Some (Unlock m :: ops) => Some (mk_locks (<[k := ops]> (todo s)) (filter (fun x => x <> m) (held s)))
  | _ => None
  end.
(** Destroying a bridge while an interrupt is injected can block both threads. *)
Lemma destroy_and_inject_block : exists s,
  (lock_step 0 (mk_locks [destroy_locks; shim_locks] []) ≫= lock_step 1) = Some s /\
  (forall k, lock_step k s = None) /\ Forall (fun ops => ops <> []) (todo s).
Proof.
  eexists. split; [vm_compute; reflexivity|]. split; [|by repeat constructor].
  intros [|[|k]]; [done..|]. by destruct k.
Qed.
