(* ===== verification/HalMock.v ===== *)
(** * The mock back end of the HAL

    [plugins/gpu_driver/hal/hal_mock.cpp]: the table of [HalCalls] with results
    a test chooses.  The data path counts its calls and returns what is scripted
    in [hal_mock_state]; events work as in the user-space back end; mappings go
    to a page migration object; everything else succeeds, with handles from
    counters that live as long as the process.

    [mk_overrun] is a ghost: the code has read or written past one of its
    4096-byte buffers on the stack. *)
From S2P Require Import Prelude Bytes GpuTypes SimHw StreamCapture HalUser MemPool SimMem HalCalls HalMachine.

#[local] Open Scope Z_scope.

(** ** State *)
Record hal_mock_state := mk_mock_state {
  register_read_count : Z;
  register_write_count : Z;
  mem_read_count : Z;
  mem_write_count : Z;
  mem_alloc_count : Z;
  mem_free_count : Z;
  fence_create_count : Z;
  fence_read_count : Z;
  doorbell_ring_count : Z;
  interrupt_raise_count : Z;
  interrupt_register_count : Z;
  interrupt_raise_ex_count : Z;
  time_wait_count : Z;
  iommu_map_count : Z;
  iommu_unmap_count : Z;
  event_signal_count : Z;
  event_wait_count : Z;
  event_notify_count : Z;
  last_event_id : Z;
  last_event_events : Z;
  register_read_result : Z;
  register_write_result : Z;
  mem_read_result : Z;
  mem_write_result : Z;
  mem_alloc_result : Z;
  mem_free_result : Z;
  fence_create_result : Z;
  fence_read_result : Z;
  register_read_out : Z;
  mem_alloc_out_addr : Z;
  fence_create_out_id : Z;
  fence_read_out_val : Z;
  last_reg_write_val : Z;
  last_mem_write_addr : Z;
  last_doorbell_queue : Z;
  last_interrupt_vector : Z;
  last_register_vector : Z;
  last_raise_ex_vector : Z;
  last_raise_ex_data : Z;
  last_time_wait_us : Z;
  mock_handlers : list (option Z);
  event_state : option (list bool)
}.
#[export] Instance eta_mock_state : Eta hal_mock_state := fun r =>
  mk_mock_state (register_read_count r) (register_write_count r) (mem_read_count r)
    (mem_write_count r) (mem_alloc_count r) (mem_free_count r) (fence_create_count r)
    (fence_read_count r) (doorbell_ring_count r) (interrupt_raise_count r)
    (interrupt_register_count r) (interrupt_raise_ex_count r) (time_wait_count r)
    (iommu_map_count r) (iommu_unmap_count r) (event_signal_count r) (event_wait_count r)
    (event_notify_count r) (last_event_id r) (last_event_events r) (register_read_result r)
    (register_write_result r) (mem_read_result r) (mem_write_result r) (mem_alloc_result r)
    (mem_free_result r) (fence_create_result r) (fence_read_result r) (register_read_out r)
    (mem_alloc_out_addr r) (fence_create_out_id r) (fence_read_out_val r) (last_reg_write_val r)
    (last_mem_write_addr r) (last_doorbell_queue r) (last_interrupt_vector r)
    (last_register_vector r) (last_raise_ex_vector r) (last_raise_ex_data r) (last_time_wait_us r)
    (mock_handlers r) (event_state r).
(** The counters that are static variables of the functions. *)
Record mock_statics := mk_statics {
  next_sem : Z;
  next_green : Z;
  next_pdl : Z;
  next_fence_id : Z;
  next_graph : Z;
  next_exec : Z;
  next_pool : Z;
  next_pool_alloc : Z;
  next_queue : Z;
  next_puller : Z;
  next_module : Z
}.
#[export] Instance eta_statics : Eta mock_statics := fun r =>
  mk_statics (next_sem r) (next_green r) (next_pdl r) (next_fence_id r) (next_graph r) (next_exec r)
    (next_pool r) (next_pool_alloc r) (next_queue r) (next_puller r) (next_module r).
(** The state of the test, the statics of the process, the page migration
    object made by the first mapping, the VRAM store, and the interrupt handlers
    started on threads of their own. *)
Record mock_machine := mk_mock {
  mk_state : hal_mock_state;
  mk_static : mock_statics;
  mock_pm_ : option SimPageMigration;
  mock_vram : GpuVramStore;
  mk_handled : list (Z * Z);
  mk_overrun : bool
}.
#[export] Instance eta_mock : Eta mock_machine := fun m =>
  mk_mock (mk_state m) (mk_static m) (mock_pm_ m) (mock_vram m) (mk_handled m) (mk_overrun m).

(** [hal_mock_init]: everything zero, a fresh event state. *)
Definition mock_state_init : hal_mock_state :=
  mk_mock_state 0 0 0 0 0 0 0 0 0 0 0 0 0 0 0 0 0 0 0 0
    0 0 0 0 0 0 0 0 0 0 0 0 0 0 0 0 0 0 0 0 (replicate 4 None) (Some (replicate 256 false)).
Definition statics_init : mock_statics :=
  mk_statics 1 0x1000 0x2000 0x1000 0x2000 0x3000 0x4000 0x5000 0x6000 0x7000 0x9000.
Definition hal_mock_init (m : mock_machine) : mock_machine := m <| mk_state := mock_state_init |>.
Definition hal_mock_destroy (m : mock_machine) : mock_machine := m <| mk_state ::= fun s => s <| event_state := None |> |>.

(** ** The data path: count, record, answer as scripted *)
Definition touch (f : hal_mock_state -> hal_mock_state) (m : mock_machine) : mock_machine := m <| mk_state ::= f |>.
Definition inc (x : Z) : Z := x + 1.

Definition mock_reg_read (m : mock_machine) : (Z * Z) * mock_machine :=
  ((register_read_result (mk_state m), register_read_out (mk_state m)), touch (fun s => s <| register_read_count ::= inc |>) m).
Definition mock_reg_write (val : Z) (m : mock_machine) : Z * mock_machine :=
  (register_write_result (mk_state m), touch (fun s => s <| register_write_count ::= inc |> <| last_reg_write_val := val |>) m).
(** The buffer of the caller is left as it is. *)
Definition mock_mem_read (m : mock_machine) : (Z * list Z) * mock_machine :=
  ((mem_read_result (mk_state m), []), touch (fun s => s <| mem_read_count ::= inc |>) m).
Definition mock_mem_write (dev_addr : Z) (m : mock_machine) : Z * mock_machine :=
  (mem_write_result (mk_state m), touch (fun s => s <| mem_write_count ::= inc |> <| last_mem_write_addr := dev_addr |>) m).
Definition mock_mem_alloc (m : mock_machine) : (Z * option Z) * mock_machine :=
  ((mem_alloc_result (mk_state m), Some (mem_alloc_out_addr (mk_state m))), touch (fun s => s <| mem_alloc_count ::= inc |>) m).
Definition mock_mem_free (m : mock_machine) : Z * mock_machine :=
  (mem_free_result (mk_state m), touch (fun s => s <| mem_free_count ::= inc |>) m).
Definition mock_fence_create (m : mock_machine) : (Z * option Z) * mock_machine :=
  ((fence_create_result (mk_state m), Some (fence_create_out_id (mk_state m))), touch (fun s => s <| fence_create_count ::= inc |>) m).
Definition mock_fence_read (m : mock_machine) : (Z * option Z) * mock_machine :=
  ((fence_read_result (mk_state m), Some (fence_read_out_val (mk_state m))), touch (fun s => s <| fence_read_count ::= inc |>) m).
Definition mock_doorbell_ring (queue_id : Z) (m : mock_machine) : unit * mock_machine :=
  (tt, touch (fun s => s <| doorbell_ring_count ::= inc |> <| last_doorbell_queue := queue_id |>) m).
Definition mock_interrupt_raise (vector : Z) (m : mock_machine) : unit * mock_machine :=
  (tt, touch (fun s => s <| interrupt_raise_count ::= inc |> <| last_interrupt_vector := vector |>) m).
Definition mock_interrupt_register (vector : Z) (handler : option Z) (m : mock_machine) : Z * mock_machine :=
  if 4 <=? vector then (-1, m)
  else (0, touch (fun s => s <| mock_handlers ::= <[Z.to_nat vector := handler]> |>
                             <| interrupt_register_count ::= inc |> <| last_register_vector := vector |>) m).
Definition mock_interrupt_raise_ex (vector user_data : Z) (m : mock_machine) : unit * mock_machine :=
  if 4 <=? vector then (tt, m)
  else let m := touch (fun s => s <| interrupt_raise_ex_count ::= inc |> <| last_raise_ex_vector := vector |>
                                  <| last_raise_ex_data := user_data |>) m in
       (tt, match mjoin (mock_handlers (mk_state m) !! Z.to_nat vector) with
            | Some h => m <| mk_handled ::= fun l => l ++ [(h, user_data)] |>
            | None => m
            end).
Definition mock_time_wait (us : Z) (m : mock_machine) : unit * mock_machine :=
  (tt, touch (fun s => s <| time_wait_count ::= inc |> <| last_time_wait_us := us |>) m).

(** ** Mappings, through page migration *)
Definition mock_device_memory : Z := 16 * 1024 * 1024.
Definition mock_pm_init_if_needed (m : mock_machine) : mock_machine :=
  match mock_pm_ m with Some _ => m | None => m <| mock_pm_ := sim_pm_create mock_device_memory |> end.
Definition low_offset (va : Z) : Z := Z.land va 0xFFFFFFFF.
(** [src] is 4096 zero bytes; a longer copy reads on from the stack. *)
Definition mock_iommu_map (va size : Z) (m : mock_machine) : Z * mock_machine :=
  let m := mock_pm_init_if_needed m in
  match mock_pm_ m with
  | None => (- ENOMEM, m)
  | Some pm =>
      let offset := low_offset va in
      if mock_device_memory <? u64 (offset + size) then (- EINVAL, m)
      else
        let '(rc, pm) := sim_pm_migrate_to_device offset (Some (replicate (Z.to_nat size) 0)) pm in
        (rc, m <| mock_pm_ := Some pm |> <| mk_overrun ::= fun b => b || (4096 <? size) |>)
  end.
(** [dst] has 4096 bytes; a longer copy writes over the stack. *)
Definition mock_iommu_unmap (va size : Z) (m : mock_machine) : Z * mock_machine :=
  match mock_pm_ m with
  | None => (0, m)
  | Some pm =>
      let offset := low_offset va in
      if mock_device_memory <? u64 (offset + size) then (- EINVAL, m)
      else
        let '(rc, _, pm) := sim_pm_migrate_to_system offset true size pm in
        (rc, m <| mock_pm_ := Some pm |> <| mk_overrun ::= fun b => b || (4096 <? size) |>)
  end.

(** ** Events *)
Definition set_event (event_id : Z) (m : mock_machine) : Z * mock_machine :=
  match event_state (mk_state m) with
  | None => (- ENOMEM, m)
  | Some l => (0, touch (fun s => s <| event_state := Some (<[Z.to_nat event_id := true]> l) |>) m)
  end.
Definition mock_event_signal (event_id events : Z) (m : mock_machine) : Z * mock_machine :=
  let m := touch (fun s => s <| event_signal_count ::= inc |> <| last_event_id := event_id |> <| last_event_events := events |>) m in
  if 256 <=? event_id then (- EINVAL, m)
  else if events =? 0 then (- EINVAL, m)
  else set_event event_id m.
(** [None]: blocks for ever when no other thread signals. *)
Definition mock_event_wait (event_id timeout_us : Z) (m : mock_machine) : option Z * mock_machine :=
  let m := touch (fun s => s <| event_wait_count ::= inc |>) m in
  if 256 <=? event_id then (Some (- EINVAL), m)
  else match event_state (mk_state m) with
  | None => (Some (- ENOMEM), m)
  | Some l =>
      (if default false (l !! Z.to_nat event_id) then Some 0
       else if timeout_us =? UINT64_MAX then None else Some (- ETIMEDOUT), m)
  end.
Definition mock_event_notify (event_id : Z) (m : mock_machine) : Z * mock_machine :=
  let m := touch (fun s => s <| event_notify_count ::= inc |> <| last_event_id := event_id |>) m in
  if 256 <=? event_id then (- EINVAL, m) else set_event event_id m.

(** No bound on the offset is checked. *)
Definition mock_mem_map_bo (bo_offset : Z) (m : mock_machine) : Z * option Z :=
  if negb (vram_initialized (mock_vram m)) then (- ENODEV, None)
  else (0, Some (default 0 (pool_backing (mock_vram m)) + bo_offset)).

(** ** The injection hooks, which nothing else reads *)
Record ptxemu_hooks := Hooks_ {
  error_inject : gmap Z Z;
  unload_counts : gmap Z Z
}.
Definition mock_cuda_error_to_errno (cuda_error : Z) : Z :=
  if cuda_error =? 0 then 0
  else if cuda_error =? 2 then - ENOMEM
  else if cuda_error =? 11 then - EINVAL
  else if cuda_error =? 400 then - EINVAL
  else if cuda_error =? 719 then - EIO
  else if cuda_error =? 700 then - EAGAIN
  else - EINVAL.
Definition hal_mock_inject_ptxemu_error (handle cuda_error : Z) (h : ptxemu_hooks) : ptxemu_hooks :=
  Hooks_ (<[handle := cuda_error]> (error_inject h)) (unload_counts h).
Definition hal_mock_clear_ptxemu_errors (h : ptxemu_hooks) : ptxemu_hooks := Hooks_ ∅ ∅.
Definition hal_mock_get_ptxemu_unload_call_count (handle : Z) (h : ptxemu_hooks) : Z :=
  default 0 (unload_counts h !! handle).
Definition hal_mock_reset_ptxemu_unload_counter (handle : Z) (h : ptxemu_hooks) : ptxemu_hooks :=
  Hooks_ (error_inject h) (delete handle (unload_counts h)).

(** ** Handles from counters *)
Definition take_static (get : mock_statics -> Z) (set : Z -> mock_statics -> mock_statics) (m : mock_machine) : Z * mock_machine :=
  let h := u64 (get (mk_static m) + 1) in (h, m <| mk_static ::= set h |>).
Definition handle_out (get : mock_statics -> Z) (set : Z -> mock_statics -> mock_statics) (m : mock_machine) : (Z * option Z) * mock_machine :=
  let '(h, m) := take_static get set m in ((0, Some h), m).
(** The counter of semaphores is read before it is raised. *)
Definition mock_sem_create (m : mock_machine) : (Z * option Z) * mock_machine :=
  ((0, Some (next_sem (mk_static m))), m <| mk_static ::= fun s => s <| next_sem ::= fun n => u64 (n + 1) |> |>).

(** ** The table *)
Definition pure {A} (a : A) (m : mock_machine) : A * mock_machine := (a, m).
Definition mock_call {A} (op : hal_op A) : mock_machine -> A * mock_machine :=
  match op in hal_op T return mock_machine -> T * mock_machine with
  | RegisterRead _ => mock_reg_read
  | RegisterWrite _ v => mock_reg_write v
  | MemRead _ _ => mock_mem_read
  | MemWrite dev _ => mock_mem_write dev
  | MemAlloc _ => mock_mem_alloc
  | MemFree _ => mock_mem_free
  | FenceCreate => mock_fence_create
  | FenceRead _ => mock_fence_read
  | DoorbellRing q => mock_doorbell_ring q
  | InterruptRaise v => mock_interrupt_raise v
  | TimeWait us => mock_time_wait us
  | HalCalls.IommuMap va size _ => mock_iommu_map va size
  | HalCalls.IommuUnmap va size => mock_iommu_unmap va size
  | EventSignal _ e evs => mock_event_signal e evs
  | EventWait e t => mock_event_wait e t
  | EventNotify e => mock_event_notify e
  | MemMapBo o _ => fun m => (mock_mem_map_bo o m, m)
  | InterruptRegister v f => mock_interrupt_register v f
  | InterruptRaiseEx v d => mock_interrupt_raise_ex v d
  | Preempt _ => pure 0
  | Resume _ => pure 0
  | SemCreate _ => mock_sem_create
  | SemSignal _ _ => pure 0
  | SemWait _ _ _ _ => pure 0
  | SemQuery _ => pure (0, Some 0)
  | GreenCreate _ => handle_out next_green (fun h s => s <| next_green := h |>)
  | GreenDestroy h => pure (if h =? 0 then - EINVAL else 0)
  | PdlLaunch _ _ _ _ => handle_out next_pdl (fun h s => s <| next_pdl := h |>)
  | PdlSignal _ _ => pure 0
  | SemDestroy _ => pure 0
  | FenceIdAlloc => take_static next_fence_id (fun h s => s <| next_fence_id := h |>)
  | FenceIdSignal _ => pure tt
  | FenceIdCheck _ => pure (0, Some true)
  | MethodEncode _ => pure 0
  | HeapPtr _ => pure 0
  | GraphCreate => handle_out next_graph (fun h s => s <| next_graph := h |>)
  | GraphDestroy _ => pure 0
  | GraphAddKernelNode _ _ _ _ _ _ _ _ _ => pure 0
  | GraphAddMemcpyNode _ _ _ _ _ => pure 0
  | GraphInstantiate _ => handle_out next_exec (fun h s => s <| next_exec := h |>)
  | GraphLaunch _ _ => pure (0, None)
  | GraphDestroyExec _ => pure 0
  (* the address range of the request stays as the caller cleared it *)
  | PoolCreate _ _ => fun m =>
      let '(h, m) := take_static next_pool (fun h s => s <| next_pool := h |>) m in ((0, Some (h, 0, 0)), m)
  | PoolDestroy _ => pure 0
  | PoolAlloc _ _ => handle_out next_pool_alloc (fun h s => s <| next_pool_alloc := h |>)
  | PoolAllocAsync _ _ => pure (0, Some 0)
  | PoolFree _ _ => pure 0
  | PoolFreeAsync _ _ => pure (0, Some 0)
  | PoolSetAttr _ _ _ => pure 0
  | PoolGetAttr _ _ _ => pure (0, None)
  | PoolTrim _ _ => pure 0
  | PoolExport _ _ _ _ => pure (0, Some (-1))
  | CaptureBegin _ _ => pure 0
  | CaptureEnd _ => pure (0, Some 0)
  | CaptureStatus _ => pure (0, Some 0)
  | QueueCreate _ _ _ _ => handle_out next_queue (fun h s => s <| next_queue := h |>)
  | QueueAttachShmem _ _ _ _ => pure 0
  | QueueSubmit _ _ _ => pure (0, Some 0)
  | QueueDestroy _ => pure 0
  | QueueRegisterPuller _ _ => pure 0
  | PullerCreate _ _ => handle_out next_puller (fun h s => s <| next_puller := h |>)
  | PullerDestroy _ => pure 0
  | PullerSetPuller _ _ => pure 0
  | PullerRegisterQueue _ _ => pure 0
  | PullerUnregisterQueue _ _ => pure 0
  | KernelModuleLoad _ _ => handle_out next_module (fun h s => s <| next_module := h |>)
  | KernelModuleExecute => pure (- ENOSYS, Some (- ENOSYS))
  | KernelModuleUnload => pure (- ENOSYS, Some (- ENOSYS))
  | AdapterGetInfo => pure (- ENOSYS, None)
  | AdapterOpen => pure (- ENOSYS, None)
  | AdapterClose _ => pure (- ENOSYS)
  end.
#[export] Instance mock_hal : GpuHal mock_machine := @mock_call.

(** ** Counting calls *)
Inductive counter :=
| CRegRead | CRegWrite | CMemRead | CMemWrite | CMemAlloc | CMemFree | CFenceCreate | CFenceRead
| CDoorbell | CRaise | CRegister | CRaiseEx | CTimeWait | CMap | CUnmap | CSignal | CWait | CNotify.
#[export] Instance counter_eq_dec : EqDecision counter.
Proof. solve_decision. Defined.
Definition read_counter (c : counter) (s : hal_mock_state) : Z :=
  match c with
  | CRegRead => register_read_count s | CRegWrite => register_write_count s
  | CMemRead => mem_read_count s | CMemWrite => mem_write_count s
  | CMemAlloc => mem_alloc_count s | CMemFree => mem_free_count s
  | CFenceCreate => fence_create_count s | CFenceRead => fence_read_count s
  | CDoorbell => doorbell_ring_count s | CRaise => interrupt_raise_count s
  | CRegister => interrupt_register_count s | CRaiseEx => interrupt_raise_ex_count s
  | CTimeWait => time_wait_count s | CMap => iommu_map_count s | CUnmap => iommu_unmap_count s
  | CSignal => event_signal_count s | CWait => event_wait_count s | CNotify => event_notify_count s
  end.
(** The counter a call raises. *)
Definition counted_by {A} (op : hal_op A) : option counter :=
  match op with
  | RegisterRead _ => Some CRegRead | RegisterWrite _ _ => Some CRegWrite
  | MemRead _ _ => Some CMemRead | MemWrite _ _ => Some CMemWrite
  | MemAlloc _ => Some CMemAlloc | MemFree _ => Some CMemFree
  | FenceCreate => Some CFenceCreate | FenceRead _ => Some CFenceRead
  | DoorbellRing _ => Some CDoorbell | InterruptRaise _ => Some CRaise
  | InterruptRegister v _ => if v <? 4 then Some CRegister else None
  | InterruptRaiseEx v _ => if v <? 4 then Some CRaiseEx else None
  | TimeWait _ => Some CTimeWait
  | EventSignal _ _ _ => Some CSignal | EventWait _ _ => Some CWait | EventNotify _ => Some CNotify
  | _ => None
  end.
(** A sequence of calls, of whatever result types. *)
Definition any_op : Type := { A : Type & hal_op A }.
Definition run_any {H} `{GpuHal H} (ops : list any_op) (h : H) : H :=
  foldl (fun h op => (hal_call (projT2 op) h).2) h ops.
Definition times (c : counter) (ops : list any_op) : Z :=
  Z.of_nat (length (List.filter (fun op => bool_decide (counted_by (projT2 op) = Some c)) ops)).

Lemma map_keeps_state va size m : mk_state (mock_iommu_map va size m).2 = mk_state m.
Proof.
  unfold mock_iommu_map. assert (mk_state (mock_pm_init_if_needed m) = mk_state m) as <-
    by (unfold mock_pm_init_if_needed; by case_match).
  destruct (mock_pm_ _); [|done]. cbv zeta. destruct (_ <? _); [done|].
  by destruct (sim_pm_migrate_to_device _ _ _).
Qed.
Lemma unmap_keeps_state va size m : mk_state (mock_iommu_unmap va size m).2 = mk_state m.
Proof.
  unfold mock_iommu_unmap. destruct (mock_pm_ m); [|done]. case_match; [done|].
  by destruct (sim_pm_migrate_to_system _ _ _ _) as [[? ?] ?].
Qed.
(** Setting an event touches no counter. *)
Lemma set_event_counts e m c : read_counter c (mk_state (set_event e m).2) = read_counter c (mk_state m).
Proof. unfold set_event. destruct (event_state (mk_state m)); [by destruct c|done]. Qed.

(** Each counter against the call just made. *)
Ltac counters c := destruct c; case_bool_decide; try congruence; cbn; unfold inc; lia.
Lemma mock_call_counts {A} (op : hal_op A) c m :
  read_counter c (mk_state (mock_call op m).2) =
    read_counter c (mk_state m) + (if bool_decide (counted_by op = Some c) then 1 else 0).
Proof.
  destruct op; cbn [mock_call counted_by]; try (rewrite (bool_decide_eq_false_2 (None = _)) by done; cbn; lia).
  all: try (counters c).
  - rewrite map_keeps_state, bool_decide_eq_false_2 by done. lia.
  - rewrite unmap_keeps_state, bool_decide_eq_false_2 by done. lia.
  - unfold mock_event_signal. repeat case_match; rewrite ?set_event_counts; counters c.
  - unfold mock_event_wait. repeat case_match; counters c.
  - unfold mock_event_notify. repeat case_match; rewrite ?set_event_counts; counters c.
  - unfold mock_interrupt_register. destruct (Z.leb_spec 4 vector), (Z.ltb_spec vector 4); try lia; counters c.
  - unfold mock_interrupt_raise_ex. destruct (Z.leb_spec 4 vector), (Z.ltb_spec vector 4); try lia; [counters c|].
    cbn zeta. case_match; counters c.
Qed.

(** The counters of the mock tell exactly how often each function was called,
    whatever the calls were and in whatever order; the counters of the two
    mapping functions stay as they are. *)
Theorem mock_counters_exact (ops : list any_op) (m : mock_machine) (c : counter) :
  read_counter c (mk_state (run_any ops m)) = read_counter c (mk_state m) + times c ops /\
  ((c = CMap \/ c = CUnmap) -> times c ops = 0).
Proof.
  split.
  - revert m. unfold run_any, times. induction ops as [|op ops IH]; intros m; cbn; [lia|].
    rewrite IH. change ((hal_call (projT2 op) m).2) with ((mock_call (projT2 op) m).2).
    rewrite mock_call_counts. case_bool_decide; cbn [length]; lia.
  - intros Hc. unfold times. induction ops as [|[A op] ops IH]; [done|]. cbn.
    rewrite bool_decide_eq_false_2; [done|]. by destruct Hc as [-> | ->], op; cbn; repeat case_match.
Qed.

(** ** Events: the mock against the user-space back end *)
Inductive event_call :=
| EvSignal (pasid event_id events : Z)
| EvWait (event_id timeout_us : Z)
| EvNotify (event_id : Z).
Definition event_do {H} `{GpuHal H} (c : event_call) (h : H) : option Z * H :=
  match c with
  | EvSignal p e evs => let '(r, h) := hal_call (EventSignal p e evs) h in (Some r, h)
  | EvWait e t => hal_call (EventWait e t) h
  | EvNotify e => let '(r, h) := hal_call (EventNotify e) h in (Some r, h)
  end.
Fixpoint event_run {H} `{GpuHal H} (cs : list event_call) (h : H) : list (option Z) :=
  match cs with
  | [] => []
  | c :: cs => let '(r, h) := event_do c h in r :: event_run cs h
  end.

(** The same events are signalled. *)
Definition same_events (m : mock_machine) (u : hal_machine) : Prop :=
  event_state (mk_state m) = Some (event_signaled (hm_user u)).
Lemma event_do_agrees c m u :
  same_events m u -> (event_do c m).1 = (event_do c u).1 /\ same_events (event_do c m).2 (event_do c u).2.
Proof.
  intros Hs. destruct c as [p e evs|e t|e]; cbn.
  - unfold mock_event_signal, user_event_signal, on_user, set_event, same_events in *. cbn.
    destruct (256 <=? e); [done|]. destruct (evs =? 0); [done|]. cbn. by rewrite Hs.
  - unfold mock_event_wait, user_event_wait, same_events in *. cbn. destruct (256 <=? e); [done|]. cbn. by rewrite Hs.
  - unfold mock_event_notify, user_event_notify, on_user, set_event, same_events in *. cbn.
    destruct (256 <=? e); [done|]. cbn. by rewrite Hs.
Qed.

(** A client that only signals, waits for and notifies events gets the same
    answers from the mock as from the user-space back end, call for call. *)
Theorem mock_events_agree (cs : list event_call) (m : mock_machine) (u : hal_machine)
    (Hm : mk_state m = mock_state_init) (Hu : event_signaled (hm_user u) = replicate 256 false) :
  event_run cs m = event_run cs u.
Proof.
  assert (same_events m u) as Hs by (unfold same_events; by rewrite Hm, Hu).
  clear Hm Hu. revert m u Hs. induction cs as [|c cs IH]; intros m u Hs; [done|]. cbn [event_run].
  destruct (event_do_agrees c m u Hs) as [Ha Hs'].
  destruct (event_do c m) as [a m'], (event_do c u) as [a' u']. simpl in *. subst. f_equal. by apply IH.
Qed.

Definition mock_start : mock_machine := mk_mock mock_state_init statics_init None new_vram_store [] false.
Lemma mock_events_agree_witness :
  let u := init_machine (fun _ => 0) 1048576 new_vram_store in
  let cs := [EvWait 3 10; EvSignal 1 3 7; EvWait 3 10; EvNotify 300; EvSignal 1 4 0] in
  event_run cs mock_start = event_run cs u /\ event_run cs mock_start = [Some (-110); Some 0; Some 0; Some (-22); Some (-22)].
Proof. split; [apply mock_events_agree; reflexivity|vm_compute; reflexivity]. Defined.

(** *** Observations *)
(** Once an allocation is scripted to succeed, the mock cannot meet the laws the
    drivers rely on: it gives the same address twice. *)
Lemma mock_not_lawful (L : GpuHalLaws mock_machine) : ~ hal_ok mock_start.
Proof.
  intros Hok.
  pose proof (hal_alloc_law 16 mock_start Hok ltac:(unfold SIMULATED_VRAM_SIZE; lia)) as H1.
  destruct (hal_call (MemAlloc 16) mock_start) as [[r1 o1] m1] eqn:E1. injection E1 as <- <- Hm1.
  destruct H1 as (Hok1 & _ & n1 & Hn1 & Hl1).
  pose proof (hal_alloc_law 16 m1 Hok1 ltac:(unfold SIMULATED_VRAM_SIZE; lia)) as H2.
  destruct (hal_call (MemAlloc 16) m1) as [[r2 o2] m2] eqn:E2. subst m1. injection E2 as <- <- Hm2.
  destruct H2 as (Hok2 & _ & n2 & Hn2 & Hl2).
  pose proof (hal_live_disjoint m2 (0, n2) (0, n1) (hal_live mock_start) Hok2) as Hd. rewrite Hl2, Hl1 in Hd.
  specialize (Hd ltac:(done)). unfold ranges_disjoint, covers in *. cbn in Hd. lia.
Qed.
(** Mapping two pages reads past the buffer of one page, unmapping them writes
    past it. *)
Lemma mock_map_overruns :
  let '(rc, m) := mock_iommu_map 0 8192 mock_start in
  rc = 0 /\ mk_overrun m = true /\
  let '(rc, m) := mock_iommu_unmap 0 8192 (m <| mk_overrun := false |>) in rc = 0 /\ mk_overrun m = true.
Proof. vm_compute. split; [reflexivity|]. split; [reflexivity|]. split; reflexivity. Qed.
Inductive hook_call :=
| HInject (handle cuda_error : Z)
| HClear
| HReset (handle : Z).
Definition hook_do (h : ptxemu_hooks) (c : hook_call) : ptxemu_hooks :=
  match c with
  | HInject handle e => hal_mock_inject_ptxemu_error handle e h
  | HClear => hal_mock_clear_ptxemu_errors h
  | HReset handle => hal_mock_reset_ptxemu_unload_counter handle h
  end.
(** No call raises an unload count: it is 0 whatever is called. *)
Lemma unload_count_zero calls handle :
  hal_mock_get_ptxemu_unload_call_count handle (foldl hook_do (Hooks_ ∅ ∅) calls) = 0.
Proof.
  assert (forall h, unload_counts h = ∅ -> unload_counts (foldl hook_do h calls) = ∅) as H.
  { induction calls as [|c calls IH]; intros h Hh; simpl; [done|]. apply IH. destruct c; simpl; [done..|].
    rewrite Hh. apply delete_empty. }
  unfold hal_mock_get_ptxemu_unload_call_count. by rewrite H.
Qed.
(** The mock hands out pointers behind the end of video memory. *)
Lemma mock_map_bo_unchecked :
  let v := mk_vram 4096 (Some 65536) [] true in
  mock_mem_map_bo 8192 (mock_start <| mock_vram := v |>) = (0, Some 73728) /\ user_mem_map_bo 8192 4096 v = (- EINVAL, None).
Proof. by vm_compute. Qed.
