(* ===== verification/Bar0.v ===== *)
(** * The BAR0 register window

    [plugins/gpu_driver/sim/bar_sim.cpp]: 32-bit register accesses.  Offsets from
    0x4000 on are the queue registers, 64 bytes for each channel, laid over the
    first half of the channel's 128-byte [MQD] (shared/mqd.h); the rest is memory
    behind a BAR of the VRAM store.

    A descriptor of the pool is its 128 bytes, so that registers may cut through
    its fields; [mqd_of_bytes] and [mqd_bytes] go between the bytes and the
    structure of [MqdState].  An access outside the memory of the BAR is
    undefined ([None]). *)
From S2P Require Import Prelude Bytes GpuTypes MqdState SimMem.

#[local] Open Scope Z_scope.

(** ** The 128 bytes of a descriptor *)
Definition MQD_SIZE : nat := 128.
Definition mqd_of_bytes (bs : list Z) : MQD :=
  {| ring_base_va := field_at bs 0 8;
     mqd_ring_size := field_at bs 8 8;
     wptr := field_at bs 16 8;
     rptr := field_at bs 24 8;
     mqd_gpfifo_addr := field_at bs 32 8;
     entry_count := field_at bs 40 4;
     mqd_current_index := field_at bs 44 4;
     mqd_priority := field_at bs 48 1;
     timeslice_remaining := field_at bs 50 2;
     doorbell_id := field_at bs 52 4;
     saved_gpfifo_addr := field_at bs 56 8;
     saved_index := field_at bs 64 4;
     saved_entries := field_at bs 68 4;
     ts_queries := (fun i => field_at bs (80 + 8 * i) 8) <$> seq 0 4;
     cycle_count := field_at bs 112 4;
     mqd_state := field_at bs 116 4;
     mqd_context_type := field_at bs 120 1 |}.
(** The structure over the bytes [old], whose padding stays. *)
Definition mqd_bytes (m : MQD) (old : list Z) : list Z :=
  le_bytes 8 (ring_base_va m) ++ le_bytes 8 (mqd_ring_size m) ++ le_bytes 8 (wptr m) ++ le_bytes 8 (rptr m) ++
  le_bytes 8 (mqd_gpfifo_addr m) ++ le_bytes 4 (entry_count m) ++ le_bytes 4 (mqd_current_index m) ++
  le_bytes 1 (mqd_priority m) ++ le_bytes 1 (field_at old 49 1) ++ le_bytes 2 (timeslice_remaining m) ++
  le_bytes 4 (doorbell_id m) ++ le_bytes 8 (saved_gpfifo_addr m) ++ le_bytes 4 (saved_index m) ++
  le_bytes 4 (saved_entries m) ++ le_bytes 8 (field_at old 72 8) ++ mjoin (le_bytes 8 <$> ts_queries m) ++
  le_bytes 4 (cycle_count m) ++ le_bytes 4 (mqd_state m) ++ le_bytes 1 (mqd_context_type m) ++
  le_bytes 7 (field_at old 121 7).

(** ** The window *)
Definition BAR0_HQD_BASE : Z := 0x4000.
Definition BAR0_HQD_STRIDE : Z := 64.
Definition BAR0_HQD_WINDOW_SIZE : Z := 0x4000.
Definition BAR0_HQD_MAX_CHANNELS : Z := 32.
Definition BAR0_SIZE : Z := 0x8000.

Record bar0 := mk_bar0 {
  g_hqd_pool : list (list Z);
  bar_store : GpuVramStore;
  bar_ram : Z -> Z
}.
#[export] Instance eta_bar0 : Eta bar0 := fun b => mk_bar0 (g_hqd_pool b) (bar_store b) (bar_ram b).

Definition is_hqd_offset (offset : Z) : bool :=
  (BAR0_HQD_BASE <=? offset) && (offset <? BAR0_HQD_BASE + BAR0_HQD_WINDOW_SIZE).
(** The channel and the register within its window. *)
Definition hqd_for_offset (offset : Z) : option (nat * Z) :=
  let rel := offset - BAR0_HQD_BASE in
  let channel := rel / BAR0_HQD_STRIDE in
  let reg := rel mod BAR0_HQD_STRIDE in
  if BAR0_HQD_MAX_CHANNELS <=? channel then None else Some (Z.to_nat channel, reg).

(** A transition on the bytes of a descriptor; its result is not looked at. *)
Definition on_mqd (f : option MQD -> Z * option MQD) (bs : list Z) : list Z :=
  match f (Some (mqd_of_bytes bs)) with
  | (_, Some m) => mqd_bytes m bs
  | (_, None) => bs
  end.
Definition hqd_control (value : Z) (bs : list Z) : list Z :=
  let bs := if truthy (Z.land value 1) then on_mqd mqd_state_activate bs else bs in
  let bs := if truthy (Z.land value 2) then on_mqd mqd_state_preempt bs else bs in
  if Z.land value 3 =? 0 then on_mqd mqd_state_deactivate bs else bs.
(** [*dst = value] at a byte offset. *)
Definition store_u32 (reg : Z) (value : Z) (bs : list Z) : list Z :=
  take (Z.to_nat reg) bs ++ le_bytes 4 value ++ drop (Z.to_nat reg + 4) bs.

(** The size of the mapping behind the first BAR at address 0. *)
Fixpoint mapped_size (l : list PciBarSim) : Z :=
  match l with
  | [] => 0
  | b :: l => if phys_base b =? 0 then bar_size b else mapped_size l
  end.

(** [mapping]: what [mmap] answers if the BAR is not mapped yet. *)
Definition sim_bar0_writel (offset value : Z) (mapping : option Z) (b : bar0) : option bar0 :=
  if is_hqd_offset offset then
    match hqd_for_offset offset with
    | None => Some b
    | Some (channel, reg) =>
        let upd := if reg =? 0 then hqd_control value else store_u32 reg value in
        Some (b <| g_hqd_pool ::= alter upd channel |>)
    end
  else
    let '(backing, v) := bar_ioremap 0 BAR0_SIZE mapping (bar_store b) in
    let b := b <| bar_store := v |> in
    match backing with
    | None => Some b
    | Some p => if mapped_size (bars v) <? offset + 4 then None
                else Some (b <| bar_ram ::= poke (p + offset) (le_bytes 4 value) |>)
    end.
Definition sim_bar0_readl (offset : Z) (mapping : option Z) (b : bar0) : option (Z * bar0) :=
  if is_hqd_offset offset then
    match hqd_for_offset offset with
    | None => Some (0, b)
    | Some (channel, reg) =>
        let bs := default [] (g_hqd_pool b !! channel) in
        Some (if reg =? 4 then mqd_state (mqd_of_bytes bs) else field_at bs (Z.to_nat reg) 4, b)
    end
  else
    let '(backing, v) := bar_ioremap 0 BAR0_SIZE mapping (bar_store b) in
    let b := b <| bar_store := v |> in
    match backing with
    | None => Some (0, b)
    | Some p => if mapped_size (bars v) <? offset + 4 then None
                else Some (le_val (peek (p + offset) 4 (bar_ram b)), b)
    end.

(** ** Descriptors and their bytes *)
Definition image_ok (bs : list Z) : Prop := length bs = MQD_SIZE /\ Forall (fun b => is_u8 b) bs.
Record mqd_fields_ok (m : MQD) : Prop := {
  mo_ring : is_u64 (ring_base_va m); mo_size : is_u64 (mqd_ring_size m);
  mo_wptr : is_u64 (wptr m); mo_rptr : is_u64 (rptr m); mo_addr : is_u64 (mqd_gpfifo_addr m);
  mo_count : is_u32 (entry_count m); mo_index : is_u32 (mqd_current_index m);
  mo_prio : is_u8 (mqd_priority m); mo_slice : is_u16 (timeslice_remaining m);
  mo_bell : is_u32 (doorbell_id m); mo_saddr : is_u64 (saved_gpfifo_addr m);
  mo_sindex : is_u32 (saved_index m); mo_sentries : is_u32 (saved_entries m);
  mo_ts : length (ts_queries m) = 4%nat /\ Forall (fun q => is_u64 q) (ts_queries m);
  mo_cycles : is_u32 (cycle_count m); mo_state : is_u32 (mqd_state m); mo_ctx : is_u8 (mqd_context_type m)
}.

Lemma le_val_range bs : Forall (fun b => is_u8 b) bs -> 0 <= le_val bs < 2 ^ (8 * Z.of_nat (length bs)).
Proof.
  intros H. rewrite <- (le_bytes_val bs H) at 1 2. rewrite le_val_bytes.
  apply Z.mod_pos_bound. lia.
Qed.
Lemma field_at_range bs o n :
  Forall (fun b => is_u8 b) bs -> (o + n <= length bs)%nat -> 0 <= field_at bs o n < 2 ^ (8 * Z.of_nat n).
Proof.
  intros Hb Hl. unfold field_at.
  pose proof (le_val_range (take n (drop o bs)) ltac:(by apply Forall_take, Forall_drop)) as H.
  rewrite length_take, length_drop, Nat.min_l in H by lia. done.
Qed.
Lemma field_at_bytes bs o n :
  Forall (fun b => is_u8 b) bs -> (o + n <= length bs)%nat -> le_bytes n (field_at bs o n) = take n (drop o bs).
Proof.
  intros Hb Hl. unfold field_at. rewrite <- (le_bytes_val (take n (drop o bs))) at 2 by (by apply Forall_take, Forall_drop).
  by rewrite length_take, length_drop, Nat.min_l by lia.
Qed.

Lemma of_bytes_ok bs : image_ok bs -> mqd_fields_ok (mqd_of_bytes bs).
Proof.
  intros [Hl Hb]. unfold MQD_SIZE in Hl.
  split; cbn [mqd_of_bytes ring_base_va mqd_ring_size wptr rptr mqd_gpfifo_addr entry_count mqd_current_index mqd_priority
    timeslice_remaining doorbell_id saved_gpfifo_addr saved_index saved_entries ts_queries cycle_count mqd_state mqd_context_type].
  all: try (match goal with |- 0 <= field_at _ ?o ?n < _ => apply (field_at_range bs o n Hb); lia end).
  split; [done|]. simpl. repeat constructor; match goal with |- context [field_at _ ?o ?n] => apply (field_at_range bs o n Hb); lia end.
Qed.

#[local] Opaque le_bytes field_at.
Lemma mqd_decode_encode m old : mqd_fields_ok m -> image_ok old -> mqd_of_bytes (mqd_bytes m old) = m.
Proof.
  intros [] [Hl Hb]. unfold MQD_SIZE in Hl.
  pose proof (field_at_range old 49 1 Hb ltac:(lia)). pose proof (field_at_range old 72 8 Hb ltac:(lia)).
  pose proof (field_at_range old 121 7 Hb ltac:(lia)).
  unfold mqd_bytes. generalize dependent (field_at old 49 1). generalize dependent (field_at old 72 8).
  generalize dependent (field_at old 121 7). intros p3 H3 p2 H2 p1 H1. destruct m; simpl in *.
  destruct mo_ts0 as [Ht Hts]. do 5 (destruct ts_queries as [|? ts_queries]; simpl in Ht; try lia).
  rewrite !Forall_cons_iff in Hts. destruct_and! Hts. cbn [fmap list_fmap mjoin list_join]. repeat rewrite <- app_assoc. rewrite ?app_nil_l.
  unfold mqd_of_bytes. simpl seq. cbn [fmap list_fmap Nat.mul Nat.add].
  repeat f_equal; try done; read_field; done.
Qed.

Lemma take_drop_join {A} n o (l : list A) : take n (drop o l) ++ drop (o + n) l = drop o l.
Proof. rewrite <- drop_drop. apply take_drop. Qed.
Lemma mqd_encode_decode bs : image_ok bs -> mqd_bytes (mqd_of_bytes bs) bs = bs.
Proof.
  intros [Hl Hb]. unfold MQD_SIZE in Hl. unfold mqd_bytes.
  cbn [mqd_of_bytes ring_base_va mqd_ring_size wptr rptr mqd_gpfifo_addr entry_count mqd_current_index mqd_priority
    timeslice_remaining doorbell_id saved_gpfifo_addr saved_index saved_entries ts_queries cycle_count mqd_state mqd_context_type].
  simpl seq. cbn [fmap list_fmap Nat.mul Nat.add mjoin list_join]. rewrite !field_at_bytes by (done || lia).
  rewrite <- !app_assoc, app_nil_l. rewrite (take_ge (drop 121 bs)) by (rewrite length_drop; lia).
  rewrite (take_drop_join 1 120), (take_drop_join 4 116), (take_drop_join 4 112), (take_drop_join 8 104), (take_drop_join 8 96),
    (take_drop_join 8 88), (take_drop_join 8 80), (take_drop_join 8 72), (take_drop_join 4 68), (take_drop_join 4 64),
    (take_drop_join 8 56), (take_drop_join 4 52), (take_drop_join 2 50), (take_drop_join 1 49), (take_drop_join 1 48),
    (take_drop_join 4 44), (take_drop_join 4 40), (take_drop_join 8 32), (take_drop_join 8 24), (take_drop_join 8 16),
    (take_drop_join 8 8), (take_drop_join 8 0). by rewrite drop_0.
Qed.
Lemma mqd_bytes_ok m old : length (ts_queries m) = 4%nat -> image_ok (mqd_bytes m old).
Proof.
  intros Ht. destruct (ts_queries m) as [|a [|b [|c [|d [|]]]]] eqn:E; simpl in Ht; try lia.
  unfold image_ok, mqd_bytes, MQD_SIZE. rewrite E. cbn [fmap list_fmap mjoin list_join]. split.
  - repeat first [rewrite length_app | rewrite length_le_bytes]. reflexivity.
  - repeat first [apply Forall_app_2 | apply le_bytes_range | apply Forall_nil_2].
Qed.

#[global] Arguments mqd_of_bytes : simpl never.
(** ** Control writes are the transitions of the state machine *)
(** A transition on a descriptor, its result dropped. *)
Definition apply_mqd (f : option MQD -> Z * option MQD) (m : MQD) : MQD := default m (f (Some m)).2.
Definition control (value : Z) (m : MQD) : MQD :=
  let m := if truthy (Z.land value 1) then apply_mqd mqd_state_activate m else m in
  let m := if truthy (Z.land value 2) then apply_mqd mqd_state_preempt m else m in
  if Z.land value 3 =? 0 then apply_mqd mqd_state_deactivate m else m.

(** A transition that keeps descriptors within their widths. *)
Definition keeps_fields (f : option MQD -> Z * option MQD) : Prop :=
  forall m, mqd_fields_ok m -> mqd_fields_ok (apply_mqd f m) /\ is_Some (f (Some m)).2.
Lemma keeps_activate : keeps_fields mqd_state_activate.
Proof. intros m Hm. unfold apply_mqd. simpl. case_match; [done|]. simpl. split; [|done]. destruct Hm. split; done. Qed.
Lemma keeps_preempt : keeps_fields mqd_state_preempt.
Proof. intros m Hm. unfold apply_mqd. simpl. repeat case_match; try done. simpl. split; [|done]. destruct Hm. split; done. Qed.
Lemma keeps_deactivate : keeps_fields mqd_state_deactivate.
Proof. intros m Hm. unfold apply_mqd. simpl. case_match; [done|]. simpl. split; [|done]. destruct Hm. split; done. Qed.

Lemma on_mqd_spec f bs :
  keeps_fields f -> image_ok bs ->
  image_ok (on_mqd f bs) /\ mqd_of_bytes (on_mqd f bs) = apply_mqd f (mqd_of_bytes bs).
Proof.
  intros Hf Hbs. destruct (Hf _ (of_bytes_ok bs Hbs)) as [Hok [m Hm]]. unfold on_mqd, apply_mqd in *.
  destruct (f (Some (mqd_of_bytes bs))) as [rc o]. simpl in *. subst o. simpl in *.
  split; [apply mqd_bytes_ok; by apply (mo_ts _ Hok)|by apply mqd_decode_encode].
Qed.
Lemma hqd_control_spec value bs :
  image_ok bs ->
  image_ok (hqd_control value bs) /\ mqd_of_bytes (hqd_control value bs) = control value (mqd_of_bytes bs).
Proof.
  intros Hbs. unfold hqd_control, control.
  set (b1 := if truthy (Z.land value 1) then _ else bs).
  set (m1 := if truthy (Z.land value 1) then apply_mqd _ _ else _).
  assert (image_ok b1 /\ mqd_of_bytes b1 = m1) as [H1 E1]
    by (unfold b1, m1; destruct (truthy _); [by apply on_mqd_spec; [apply keeps_activate|]|done]).
  clearbody b1 m1. subst m1.
  set (b2 := if truthy (Z.land value 2) then _ else b1).
  set (m2 := if truthy (Z.land value 2) then _ else mqd_of_bytes b1).
  assert (image_ok b2 /\ mqd_of_bytes b2 = m2) as [H2 E2]
    by (unfold b2, m2; destruct (truthy _); [by apply on_mqd_spec; [apply keeps_preempt|]|done]).
  clearbody b2 m2. subst m2. destruct (_ =? 0); [by apply on_mqd_spec; [apply keeps_deactivate|]|done].
Qed.

Lemma store_u32_spec reg value bs :
  0 <= reg < 64 -> is_u32 value -> image_ok bs ->
  image_ok (store_u32 reg value bs) /\ field_at (store_u32 reg value bs) (Z.to_nat reg) 4 = value.
Proof.
  intros Hr Hv [Hl Hb]. unfold MQD_SIZE in Hl. unfold store_u32, image_ok, MQD_SIZE. split; [split|].
  - rewrite !length_app, length_take, length_drop, length_le_bytes. lia.
  - apply Forall_app_2; [by apply Forall_take|]. apply Forall_app_2; [apply le_bytes_range|by apply Forall_drop].
  - pose proof (field_at_skip (take (Z.to_nat reg) bs) (le_bytes 4 value ++ drop (Z.to_nat reg + 4) bs) 0 4) as H.
    rewrite length_take, Nat.min_l, Nat.add_0_r in H by lia. rewrite H. by apply field_at_here.
Qed.

(** A register cannot reach the state, at byte 116. *)
Lemma store_u32_state reg value bs : 0 <= reg < 64 -> image_ok bs ->
  mqd_state (mqd_of_bytes bs) = mqd_state (mqd_of_bytes (store_u32 reg value bs)).
Proof.
  intros Hr [Hl _]. unfold MQD_SIZE in Hl. change (field_at bs 116 4 = field_at (store_u32 reg value bs) 116 4).
  with_strategy transparent [field_at] unfold field_at. unfold store_u32. do 2 f_equal. rewrite app_assoc, drop_app_ge by (rewrite length_app, length_take, length_le_bytes; lia).
  rewrite length_app, length_take, length_le_bytes, drop_drop. f_equal. lia.
Qed.

(** Offsets of the window. *)
Definition HQD_REG_OFFSET (channel : Z) : Z := BAR0_HQD_BASE + channel * 64.
Lemma hqd_offset c reg :
  0 <= c < 32 -> 0 <= reg < 64 ->
  is_hqd_offset (HQD_REG_OFFSET c + reg) = true /\ hqd_for_offset (HQD_REG_OFFSET c + reg) = Some (Z.to_nat c, reg).
Proof.
  intros Hc Hr. unfold is_hqd_offset, hqd_for_offset, HQD_REG_OFFSET, BAR0_HQD_BASE, BAR0_HQD_WINDOW_SIZE, BAR0_HQD_STRIDE, BAR0_HQD_MAX_CHANNELS.
  replace (0x4000 + c * 64 + reg - 0x4000) with (reg + c * 64) by lia.
  rewrite Z.div_add, Z.mod_add, Z.div_small, Z.mod_small, Z.add_0_l by lia.
  destruct (Z.leb_spec 0x4000 (0x4000 + c * 64 + reg)); [|lia].
  destruct (Z.ltb_spec (0x4000 + c * 64 + reg) (0x4000 + 0x4000)); [|lia].
  destruct (Z.leb_spec 32 c); [lia|done].
Qed.

(** The descriptor after a control write, by its two low bits and the state:
    start alone starts an idle queue, stop alone preempts a running one and saves
    its position, both together start and preempt, neither makes it idle. *)
Definition preempted (m : MQD) : MQD :=
  m <| saved_gpfifo_addr := mqd_gpfifo_addr m |> <| saved_index := mqd_current_index m |>
    <| saved_entries := entry_count m |> <| mqd_state := MQD_STATE_PREEMPTED |>.
Definition hqd_next (start stop : bool) (m : MQD) : MQD :=
  let idle := mqd_state m =? MQD_STATE_IDLE in
  let already := mqd_state m =? MQD_STATE_PREEMPTED in
  match start, stop with
  | false, false => m <| mqd_state := MQD_STATE_IDLE |>
  | true, false => if idle then m <| mqd_state := MQD_STATE_ACTIVE |> else m
  | false, true => if idle || already then m else preempted m
  | true, true => if already then m else preempted m
  end.
Lemma land_low value : truthy (Z.land value 1) = Z.testbit value 0 /\ truthy (Z.land value 2) = Z.testbit value 1 /\
  (Z.land value 3 =? 0) = negb (Z.testbit value 0 || Z.testbit value 1).
Proof.
  assert (forall k, 0 <= k -> Z.land value (2 ^ k) = if Z.testbit value k then 2 ^ k else 0) as Hb.
  { intros k Hk. apply Z.bits_inj'. intros i Hi. rewrite Z.land_spec, Z.pow2_bits_eqb by done.
    destruct (Z.eqb_spec k i) as [<-|Hne]; destruct (Z.testbit value k) eqn:E;
      rewrite ?E, ?Z.bits_0, ?Z.pow2_bits_true, ?Z.pow2_bits_false, ?andb_false_r by lia; done. }
  pose proof (Hb 0 ltac:(lia)) as H0. pose proof (Hb 1 ltac:(lia)) as H1. change (2 ^ 0) with 1 in H0. change (2 ^ 1) with 2 in H1.
  replace (Z.land value 3) with (Z.lor (Z.land value 1) (Z.land value 2)) by (rewrite <- Z.land_lor_distr_r; done).
  rewrite H0, H1. by destruct (Z.testbit value 0), (Z.testbit value 1).
Qed.
Lemma control_next value m : control value m = hqd_next (Z.testbit value 0) (Z.testbit value 1) m.
Proof.
  unfold control. destruct (land_low value) as (-> & -> & ->). unfold hqd_next, apply_mqd, mqd_state_activate, mqd_state_preempt,
    mqd_state_deactivate, preempted.
  destruct (Z.testbit value 0), (Z.testbit value 1); cbn [negb orb].
  - destruct (Z.eqb_spec (mqd_state m) MQD_STATE_IDLE) as [E|E]; simpl; [by rewrite E|].
    replace (mqd_state m =? MQD_STATE_IDLE) with false by lia. by destruct (mqd_state m =? MQD_STATE_PREEMPTED).
  - by destruct (mqd_state m =? MQD_STATE_IDLE).
  - destruct (mqd_state m =? MQD_STATE_IDLE); simpl; [done|]. by destruct (mqd_state m =? MQD_STATE_PREEMPTED).
  - destruct (Z.eqb_spec (mqd_state m) MQD_STATE_IDLE) as [E|]; simpl; [|done]. destruct m; simpl in *. by subst.
Qed.
(** The bytes of a store: its four at [reg], the others as before. *)
Lemma store_u32_bytes reg value bs i : 0 <= reg < 64 -> image_ok bs ->
  store_u32 reg value bs !! i =
    if bool_decide (Z.to_nat reg <= i < Z.to_nat reg + 4)%nat then le_bytes 4 value !! (i - Z.to_nat reg)%nat else bs !! i.
Proof.
  intros Hr [Hl _]. unfold MQD_SIZE in Hl. unfold store_u32. set (r := Z.to_nat reg). assert (r < 64)%nat as Hr' by lia.
  destruct (decide (i < r)%nat) as [Hi|Hi].
  - rewrite bool_decide_eq_false_2 by lia. rewrite lookup_app_l by (rewrite length_take; lia). by rewrite lookup_take_lt by lia.
  - rewrite lookup_app_r, length_take, Nat.min_l by (rewrite ?length_take; lia).
    destruct (decide (i < r + 4)%nat) as [Hi2|Hi2].
    + rewrite bool_decide_eq_true_2 by lia. rewrite lookup_app_l; [done|]. rewrite length_le_bytes. lia.
    + rewrite bool_decide_eq_false_2 by lia. rewrite lookup_app_r, length_le_bytes by (rewrite ?length_le_bytes; lia).
      rewrite lookup_drop. f_equal. lia.
Qed.

(** C28. The queue registers of BAR0, for the 32 channels: a write to the control
    register makes the transition its two low bits ask for on the descriptor of
    that channel, keeps the descriptor's other fields, and the status register
    then reads the new state; a write to any other offset of the channel's window
    stores its four bytes there and changes no other byte, and is read back, save
    at the status register, which goes on reading the state.  No write changes
    another channel or the memory behind the BAR. *)
Theorem hqd_registers_exact (b : bar0) (c value : Z) (bs : list Z) (mapping : option Z)
    (Hc : 0 <= c < 32) (Hpool : g_hqd_pool b !! Z.to_nat c = Some bs) (Hbs : image_ok bs) :
  (exists b' bs', sim_bar0_writel (HQD_REG_OFFSET c) value mapping b = Some b' /\
     g_hqd_pool b' = <[Z.to_nat c := bs']> (g_hqd_pool b) /\ bar_store b' = bar_store b /\ bar_ram b' = bar_ram b /\
     image_ok bs' /\ mqd_of_bytes bs' = hqd_next (Z.testbit value 0) (Z.testbit value 1) (mqd_of_bytes bs) /\
     sim_bar0_readl (HQD_REG_OFFSET c + 4) mapping b' = Some (mqd_state (mqd_of_bytes bs'), b')) /\
  (forall reg w, 0 < reg < 64 -> is_u32 w ->
     exists b' bs', sim_bar0_writel (HQD_REG_OFFSET c + reg) w mapping b = Some b' /\
       g_hqd_pool b' = <[Z.to_nat c := bs']> (g_hqd_pool b) /\ bar_store b' = bar_store b /\ bar_ram b' = bar_ram b /\
       image_ok bs' /\
       (forall i, bs' !! i = if bool_decide (Z.to_nat reg <= i < Z.to_nat reg + 4)%nat
                             then le_bytes 4 w !! (i - Z.to_nat reg)%nat else bs !! i) /\
       sim_bar0_readl (HQD_REG_OFFSET c + reg) mapping b' =
         Some (if reg =? 4 then mqd_state (mqd_of_bytes bs) else w, b')).
Proof.
  split.
  - destruct (hqd_offset c 0 Hc ltac:(lia)) as [Hi Ho]. rewrite Z.add_0_r in Hi, Ho.
    destruct (hqd_offset c 4 Hc ltac:(lia)) as [Hi4 Ho4]. unfold sim_bar0_writel, sim_bar0_readl. rewrite Hi, Ho, Hi4, Ho4. simpl.
    destruct (hqd_control_spec value bs Hbs) as [Hok Hm].
    eexists _, (hqd_control value bs). split; [done|]. simpl. split; [by apply list_alter_insert_at|].
    split; [done|]. split; [done|]. split; [done|]. split; [by rewrite Hm, control_next|].
    by rewrite list_lookup_alter_eq, Hpool.
  - intros reg w Hr Hw. destruct (hqd_offset c reg Hc ltac:(lia)) as [Hi Ho].
    unfold sim_bar0_writel, sim_bar0_readl. rewrite Hi, Ho. destruct (Z.eqb_spec reg 0); [lia|].
    destruct (store_u32_spec reg w bs ltac:(lia) Hw Hbs) as [Hok Hf].
    eexists _, (store_u32 reg w bs). split; [done|]. simpl. split; [by apply list_alter_insert_at|].
    split; [done|]. split; [done|]. split; [done|]. split; [intros i; apply store_u32_bytes; [lia|done]|].
    rewrite list_lookup_alter_eq, Hpool. simpl. rewrite Hf. destruct (Z.eqb_spec reg 4) as [->|]; [|done].
    do 2 f_equal. symmetry. apply (store_u32_state 4); [lia|done].
Qed.

Definition bar0_start : bar0 := mk_bar0 (replicate 32 (replicate 128 0)) new_vram_store (fun _ => 0).
Lemma hqd_registers_exact_witness :
  exists b', sim_bar0_writel (HQD_REG_OFFSET 3) 1 None bar0_start = Some b' /\
    sim_bar0_readl (HQD_REG_OFFSET 3 + 4) None b' = Some (MQD_STATE_ACTIVE, b').
Proof.
  destruct (hqd_registers_exact bar0_start 3 1 (replicate 128 0) None) as [(b' & bs' & H1 & _ & _ & _ & _ & H2 & H3) _];
    [lia|reflexivity|split; [reflexivity|by apply Forall_replicate]|].
  exists b'. split; [exact H1|]. rewrite H3, H2. reflexivity.
Defined.

(** *** Observations *)
(** The states after a sequence of control writes to channel 0. *)
Definition control_run (l : list Z) : Z := mqd_state (foldl (fun m v => control v m) (mqd_of_bytes (replicate 128 0)) l).
(** A preempted queue cannot be started again through its control register:
    activating it is refused, only deactivating works. *)
Lemma hqd_no_resume : control_run [1; 2] = MQD_STATE_PREEMPTED /\ control_run [1; 2; 1] = MQD_STATE_PREEMPTED.
Proof. by vm_compute. Qed.
(** The status register is not the word written at its offset: a write there
    lands in the upper half of [ring_base_va]. *)
Lemma hqd_status_write :
  match sim_bar0_writel (HQD_REG_OFFSET 0 + 4) 7 None bar0_start with
  | Some b => option_map fst (sim_bar0_readl (HQD_REG_OFFSET 0 + 4) None b) = Some 0 /\
      ring_base_va <$> (mqd_of_bytes <$> g_hqd_pool b !! 0%nat) = Some (7 * 2 ^ 32)
  | None => False
  end.
Proof. vm_compute. by split. Qed.
(** Past the 32 KiB of the mapping an access leaves it. *)
Lemma bar0_out_of_range :
  sim_bar0_writel 0x8000 1 (Some 65536) bar0_start = None /\
  is_Some (sim_bar0_writel 0x3FFC 1 (Some 65536) bar0_start).
Proof. split; [by vm_compute|]. vm_compute. by eexists. Qed.
