(* ===== verification/Vfs.v ===== *)
(** * Device nodes and per-process contexts

    [src/src/kernel/vfs.cpp] and [service_registry.cpp], the three nodes of
    [drm/render_node.cpp], and the table of [process/isolated_device.cpp].

    A [shared_ptr<Device>] is a key of the heap of device objects: the tables of
    the file system and of the service registry share the objects, so what
    [chmod] writes is seen through both.  The file operations of a device are an
    argument ([fops_open]); a device without any has [None]. *)
From S2P Require Import Prelude.
From stdpp Require Import gmap.

#[local] Open Scope Z_scope.

(** ** The device table *)
Section Vfs.
Context {F W : Type} (fops_open : F -> string -> Z -> W -> Z * W).

Record Device := Device_ {
  d_name : string;
  d_dev_id : Z;
  d_plugin_handle : option nat;
  d_fops : option F;
  d_mode : Z;
  d_uid : Z;
  d_gid : Z;
}.
#[global] Instance eta_Device : Eta Device :=
  fun r => Device_ (d_name r) (d_dev_id r) (d_plugin_handle r) (d_fops r) (d_mode r) (d_uid r) (d_gid r).

(** [objects]: the devices the program has made; [devices_] and [services_]
    hold pointers to them. *)
Record VFS := VFS_ {
  objects : gmap nat Device;
  devices : gmap string nat;
  services : gmap string nat;
}.
#[global] Instance eta_VFS : Eta VFS := fun r => VFS_ (objects r) (devices r) (services r).

Definition path_to_name (path : string) : string :=
  if String.prefix "/dev/" path then String.substring 5 (String.length path - 5) path else path.

Definition shutdown (v : VFS) : VFS := v <| devices := ∅ |>.

(** [None]: the pointer is null. *)
Definition register_device (p : nat) (v : VFS) : option (Z * VFS) :=
  match objects v !! p with
  | None => None
  | Some dev =>
      match devices v !! d_name dev with
      | Some _ => Some (-1, v)
      | None => Some (0, v <| devices ::= <[d_name dev := p]> |> <| services ::= <[d_name dev := p]> |>)
      end
  end.

Definition lookup_device (name : string) (v : VFS) : option nat := devices v !! name.

Definition check_permission (dev : Device) (flags : Z) : bool := true.

Inductive open_result :=
  | NoDevice
  | Refused
  | Opened (p : nat)
  | NullFops.
Definition open (path : string) (flags : Z) (v : VFS) (w : W) : open_result * W :=
  match lookup_device (path_to_name path) v with
  | None => (NoDevice, w)
  | Some p =>
      match objects v !! p with
      | None => (NoDevice, w)
      | Some dev =>
          if negb (check_permission dev flags) then (Refused, w)
          else match d_fops dev with
               | None => (NullFops, w)
               | Some f =>
                   let '(rc, w) := fops_open f path flags w in
                   (if rc <? 0 then Refused else Opened p, w)
               end
      end
  end.

(** [lookup_device] and the object behind it. *)
Definition with_device (path : string) (v : VFS) : option (nat * Device) :=
  p ← lookup_device (path_to_name path) v; dev ← objects v !! p; Some (p, dev).

Definition chmod (path : string) (mode : Z) (v : VFS) : Z * VFS :=
  match with_device path v with
  | None => (- ENOENT, v)
  | Some (p, dev) => (0, v <| objects ::= <[p := dev <| d_mode := mode |>]> |>)
  end.
Definition chown (path : string) (uid gid : Z) (v : VFS) : Z * VFS :=
  match with_device path v with
  | None => (- ENOENT, v)
  | Some (p, dev) => (0, v <| objects ::= <[p := dev <| d_uid := uid |> <| d_gid := gid |>]> |>)
  end.
Definition fchmod (fd mode : Z) (v : VFS) : Z * VFS := (0, v).

Definition lacks (amode want mode bit : Z) : bool := truthy (Z.land amode want) && negb (truthy (Z.land mode bit)).
  (** The owner bits 0400, 0200 and 0100. *)
Definition access_bits (amode mode : Z) : Z :=
  if amode =? 0 then 0
  else if lacks amode 4 mode 256 then - EACCES
  else if lacks amode 2 mode 128 then - EACCES
  else if lacks amode 1 mode 64 then - EACCES
  else 0.
Definition access (path : string) (amode : Z) (v : VFS) : Z :=
  match with_device path v with
  | None => - ENOENT
  | Some (_, dev) => access_bits amode (d_mode dev)
  end.

Definition list_devices (v : VFS) : list string := map fst (map_to_list (devices v)).

Definition unregister_device (name : string) (v : VFS) : Z * VFS :=
  match devices v !! name with
  | None => (-1, v)
  | Some _ => (0, v <| devices ::= delete name |> <| services ::= delete name |>)
  end.
Definition clear_devices (v : VFS) : VFS := v <| devices := ∅ |> <| services := ∅ |>.

(** [std::make_shared<Device>]. *)
Definition make_device (dev : Device) (v : VFS) : nat * VFS :=
  let p := fresh (dom (objects v)) in (p, v <| objects ::= <[p := dev]> |>).

(** [render_node_register_all]: [null_fops] has only an [ioctl]. *)
Definition render_nodes (null_fops : F) : list Device :=
  [Device_ "dri/renderD128" 128 None (Some null_fops) 438 0 0;
   Device_ "dri/card0" 0 None (Some null_fops) 438 0 0;
   Device_ "kfd" 242 None (Some null_fops) 438 0 0].
Fixpoint register_nodes (nodes : list Device) (count : Z) (v : VFS) : Z * VFS :=
  match nodes with
  | [] => (count, v)
  | dev :: nodes =>
      let '(p, v) := make_device dev v in
      match register_device p v with
      | Some (rc, v) => register_nodes nodes (if rc =? 0 then count + 1 else count) v
      | None => register_nodes nodes count v
      end
  end.
Definition render_node_register_all (null_fops : F) (v : VFS) : Z * VFS :=
  register_nodes (render_nodes null_fops) 0 v.
End Vfs.
Arguments Device : clear implicits.
Arguments VFS : clear implicits.

(** ** What the table promises *)
Section VfsSpec.
Context {F W : Type} (fops_open : F -> string -> Z -> W -> Z * W).
Implicit Types (v : VFS F) (w : W).

(** The calls reach the table through [VFS::instance()], which sets
    [instance_ptr]: when [shutdown] finds it null, the table is empty. *)
Inductive vfs_call :=
  | VRegister (dev : Device F)
  | VUnregister (name : string)
  | VLookup (name : string)
  | VOpen (path : string) (flags : Z)
  | VChmod (path : string) (mode : Z)
  | VFchmod (fd mode : Z)
  | VChown (path : string) (uid gid : Z)
  | VAccess (path : string) (amode : Z)
  | VClear
  | VShutdown.
(** A code, a device object as it is found, or the null pointer. *)
Inductive vfs_answer := ACode (rc : Z) | ADevice (dev : Device F) | ANull.

Definition answer_pointer v (p : option nat) : vfs_answer :=
  match p ≫= fun p => objects v !! p with Some dev => ADevice dev | None => ANull end.
(** The calls on the state of the code, and on what the file operations change;
    a driver makes the device it registers.  [None]: a null pointer is
    dereferenced. *)
Definition vfs_step (s : VFS F * W) (c : vfs_call) : option (vfs_answer * (VFS F * W)) :=
  let '(v, w) := s in
  let code r := Some (ACode r.1, (r.2, w)) in
  match c with
  | VRegister dev => let '(p, v) := make_device dev v in r ← register_device p v; code r
  | VUnregister name => code (unregister_device name v)
  | VLookup name => Some (answer_pointer v (lookup_device name v), s)
  | VOpen path flags =>
      match open fops_open path flags v w with
      | (NullFops, _) => None
      | (Opened p, w) => Some (answer_pointer v (Some p), (v, w))
      | (NoDevice, w) | (Refused, w) => Some (ANull, (v, w))
      end
  | VChmod path mode => code (chmod path mode v)
  | VFchmod fd mode => code (fchmod fd mode v)
  | VChown path uid gid => code (chown path uid gid v)
  | VAccess path amode => Some (ACode (access path amode v), s)
  | VClear => code (0, clear_devices v)
  | VShutdown => code (0, shutdown v)
  end.

(** The specification: the devices by name, and the services by name, as values.
    Nothing of the heap of objects is left. *)
Record tables := mk_tables { t_devices : gmap string (Device F); t_services : gmap string (Device F) }.
(** Reading, writing and executing are bits 2, 1 and 0 of the question, and bits
    8, 7 and 6 of the mode. *)
Definition permitted (mode amode : Z) : bool :=
  forallb (fun bit => implb (Z.testbit amode bit) (Z.testbit mode (bit + 6))) [0; 1; 2].
Definition update_device (path : string) (f : Device F -> Device F) (t : tables) : vfs_answer * tables :=
  let name := path_to_name path in
  match t_devices t !! name with
  | None => (ACode (- ENOENT), t)
  | Some dev => (ACode 0, mk_tables (<[name := f dev]> (t_devices t)) (<[name := f dev]> (t_services t)))
  end.
Definition table_step (s : tables * W) (c : vfs_call) : option (vfs_answer * (tables * W)) :=
  let '(t, w) := s in
  match c with
  | VRegister dev =>
      Some (match t_devices t !! d_name dev with
            | Some _ => (ACode (-1), s)
            | None => (ACode 0, (mk_tables (<[d_name dev := dev]> (t_devices t)) (<[d_name dev := dev]> (t_services t)), w))
            end)
  | VUnregister name =>
      Some (match t_devices t !! name with
            | Some _ => (ACode 0, (mk_tables (delete name (t_devices t)) (delete name (t_services t)), w))
            | None => (ACode (-1), s)
            end)
  | VLookup name => Some (match t_devices t !! name with Some dev => ADevice dev | None => ANull end, s)
  | VOpen path flags =>
      match t_devices t !! path_to_name path with
      | None => Some (ANull, s)
      | Some dev =>
          f ← d_fops dev;
          let '(rc, w) := fops_open f path flags w in
          Some (if rc <? 0 then ANull else ADevice dev, (t, w))
      end
  | VChmod path mode => Some (prod_map id (fun t => (t, w)) (update_device path (fun dev => dev <| d_mode := mode |>) t))
  | VFchmod _ _ => Some (ACode 0, s)
  | VChown path uid gid =>
      Some (prod_map id (fun t => (t, w)) (update_device path (fun dev => dev <| d_uid := uid |> <| d_gid := gid |>) t))
  | VAccess path amode =>
      Some (ACode match t_devices t !! path_to_name path with
                  | None => - ENOENT
                  | Some dev => if permitted (d_mode dev) amode then 0 else - EACCES
                  end, s)
  | VClear => Some (ACode 0, (mk_tables ∅ ∅, w))
  | VShutdown => Some (ACode 0, (mk_tables ∅ (t_services t), w))
  end.

Fixpoint run {S C A} (step : S -> C -> option (A * S)) (s : S) (cs : list C) : option (list A * S) :=
  match cs with
  | [] => Some ([], s)
  | c :: cs => '(a, s) ← step s c; '(rest, s) ← run step s cs; Some (a :: rest, s)
  end.

(** *** The tables a state stands for *)
Definition view (objs : gmap nat (Device F)) (m : gmap string nat) : gmap string (Device F) := omap (fun p => objs !! p) m.
Definition stands_for v : tables := mk_tables (view (objects v) (devices v)) (view (objects v) (services v)).
(** Every name leads to an object of that name. *)
Definition named (objs : gmap nat (Device F)) (m : gmap string nat) : Prop :=
  forall name p, m !! name = Some p -> exists dev, objs !! p = Some dev /\ d_name dev = name.
(** What is registered as a device is the service of that name. *)
Record vfs_wf v : Prop := {
  vw_named : named (objects v) (services v);
  vw_services : devices v ⊆ services v
}.
Lemma vw_devices v : vfs_wf v -> named (objects v) (devices v).
Proof. intros [Hn Hs] name p Hp. eapply Hn, lookup_weaken; [exact Hp|done]. Qed.

Lemma view_lookup objs m name : view objs m !! name = (m !! name ≫= fun p => objs !! p).
Proof. unfold view. by rewrite lookup_omap. Qed.
Lemma view_is_Some objs m name : named objs m -> is_Some (view objs m !! name) <-> is_Some (m !! name).
Proof.
  intros Hn. rewrite view_lookup. destruct (m !! name) as [p|] eqn:E; simpl; [|done].
  destruct (Hn _ _ E) as (dev & -> & _). split; by eexists.
Qed.
(** Writing through a pointer changes the one name that holds it. *)
Lemma view_write objs m p dev dev' :
  named objs m -> m !! d_name dev = Some p -> objs !! p = Some dev -> d_name dev' = d_name dev ->
  named (<[p := dev']> objs) m /\ view (<[p := dev']> objs) m = <[d_name dev := dev']> (view objs m).
Proof.
  intros Hm Hd Hp Hn. split.
  - intros name q Hq. destruct (Hm _ _ Hq) as (dq & Hdq & <-). rewrite lookup_insert. case_decide; [|by exists dq].
    subst. exists dev'. split; [done|]. by simplify_eq.
  - apply map_eq. intros name. rewrite view_lookup. destruct (decide (name = d_name dev)) as [->|Hne].
    + by rewrite lookup_insert_eq, Hd; simpl; rewrite lookup_insert_eq.
    + rewrite lookup_insert_ne, view_lookup by done. destruct (m !! name) as [q|] eqn:Eq; [|done]. simpl.
      destruct (Hm _ _ Eq) as (dq & Hdq & He). rewrite lookup_insert_ne; [done|]. intros ->. by simplify_eq.
Qed.
(** A new object is seen through no name. *)
Lemma view_alloc objs m p dev : named objs m -> objs !! p = None ->
  named (<[p := dev]> objs) m /\ view (<[p := dev]> objs) m = view objs m.
Proof.
  intros Hm Hp. split.
  - intros name q Hq. destruct (Hm _ _ Hq) as (dq & Hdq & <-). exists dq. by rewrite lookup_insert_ne by congruence.
  - apply map_eq. intros name. rewrite !view_lookup. destruct (m !! name) as [q|] eqn:Eq; [|done]. simpl.
    destruct (Hm _ _ Eq) as (dq & Hdq & _). by rewrite lookup_insert_ne by congruence.
Qed.
Lemma view_insert objs m p dev : named objs m -> objs !! p = Some dev ->
  named objs (<[d_name dev := p]> m) /\ view objs (<[d_name dev := p]> m) = <[d_name dev := dev]> (view objs m).
Proof.
  intros Hm Hp. split; [|unfold view; by apply omap_insert_Some].
  intros name q. rewrite lookup_insert. case_decide; [intros [= <-]; by exists dev|]. apply Hm.
Qed.
Lemma view_delete objs m name : named objs m -> named objs (delete name m) /\ view objs (delete name m) = delete name (view objs m).
Proof. intros Hm. split; [|apply omap_delete]. intros n q [_ H]%lookup_delete_Some. by apply Hm. Qed.

Lemma with_device_view path v :
  match with_device path v with
  | Some (p, dev) => devices v !! path_to_name path = Some p /\ objects v !! p = Some dev /\
      view (objects v) (devices v) !! path_to_name path = Some dev
  | None => view (objects v) (devices v) !! path_to_name path = None
  end.
Proof.
  unfold with_device, lookup_device. rewrite view_lookup.
  destruct (devices v !! path_to_name path) as [p|] eqn:E; simpl; [|done].
  by destruct (objects v !! p) eqn:E'; simpl.
Qed.
Lemma update_refines path f v :
  vfs_wf v -> (forall dev, d_name (f dev) = d_name dev) ->
  let r := match with_device path v with
           | None => (- ENOENT, v)
           | Some (p, dev) => (0, v <| objects ::= <[p := f dev]> |>)
           end in
  vfs_wf r.2 /\ update_device path f (stands_for v) = (ACode r.1, stands_for r.2).
Proof.
  intros Hwf Hf. pose proof (with_device_view path v) as Hw. unfold update_device, stands_for at 1. simpl.
  destruct (with_device path v) as [[p dev]|]; simpl; [|by rewrite Hw].
  destruct Hw as (Hd & Hp & ->). destruct (vw_devices _ Hwf _ _ Hd) as (dev' & Hp' & Hn). simplify_eq. rewrite <- Hn in Hd |- *.
  destruct (view_write _ _ p dev (f dev) (vw_devices _ Hwf) Hd Hp (Hf dev)) as [_ Hv1].
  pose proof (lookup_weaken _ _ _ _ Hd (vw_services _ Hwf)) as Hs.
  destruct (view_write _ _ p dev (f dev) (vw_named _ Hwf) Hs Hp (Hf dev)) as [Hn2 Hv2].
  split; [split; [done|apply Hwf]|]. unfold stands_for. cbn [objects devices services field_upd]. by rewrite Hv1, Hv2.
Qed.

(** *** The access check *)
Lemma land_bit a k : 0 <= k -> truthy (Z.land a (2 ^ k)) = Z.testbit a k.
Proof.
  intros Hk. unfold truthy. destruct (Z.testbit a k) eqn:E.
  - replace (Z.land a (2 ^ k)) with (2 ^ k); [apply negb_true_iff, Z.eqb_neq; pose proof (Z.pow_pos_nonneg 2 k); lia|].
    apply Z.bits_inj'. intros i Hi. rewrite Z.land_spec, Z.pow2_bits_eqb by done.
    destruct (Z.eqb_spec k i) as [<-|]; [by rewrite E|by rewrite andb_false_r].
  - replace (Z.land a (2 ^ k)) with 0; [done|]. apply Z.bits_inj'. intros i Hi.
    rewrite Z.land_spec, Z.pow2_bits_eqb, Z.bits_0 by done. destruct (Z.eqb_spec k i) as [<-|]; [by rewrite E|by rewrite andb_false_r].
Qed.
Lemma access_permitted amode mode : access_bits amode mode = if permitted mode amode then 0 else - EACCES.
Proof.
  unfold access_bits, permitted, lacks. cbn [forallb].
  change 256 with (2 ^ 8). change 128 with (2 ^ 7). change 64 with (2 ^ 6). change 4 with (2 ^ 2).
  replace (Z.land amode 2) with (Z.land amode (2 ^ 1)) by done. replace (Z.land amode 1) with (Z.land amode (2 ^ 0)) by done.
  rewrite !land_bit by lia. destruct (Z.eqb_spec amode 0) as [->|_]; [by rewrite !Z.bits_0|].
  change (0 + 6) with 6. change (1 + 6) with 7. change (2 + 6) with 8.
  by destruct (Z.testbit amode 0), (Z.testbit amode 1), (Z.testbit amode 2), (Z.testbit mode 6), (Z.testbit mode 7), (Z.testbit mode 8).
Qed.

(** *** The steps agree *)
Definition agree (m : option (vfs_answer * (VFS F * W))) (t : option (vfs_answer * (tables * W))) : Prop :=
  match m, t with
  | None, None => True
  | Some (a, (v, w)), Some (a', (t, w')) => a = a' /\ w = w' /\ t = stands_for v /\ vfs_wf v
  | _, _ => False
  end.
Lemma register_refines v w p dev :
  vfs_wf v -> objects v !! p = Some dev ->
  agree (r ← register_device p v; Some (ACode r.1, (r.2, w))) (table_step (stands_for v, w) (VRegister dev)).
Proof.
  intros Hwf Hp. unfold register_device. rewrite Hp. cbn [table_step]. cbn [t_devices stands_for].
  pose proof (view_is_Some _ _ (d_name dev) (vw_devices v Hwf)) as Hs.
  destruct (devices v !! d_name dev) as [q|] eqn:E.
  - destruct (proj2 Hs ltac:(done)) as [d ->]. by simpl.
  - destruct (view _ _ !! d_name dev) as [d|]; [by destruct (proj1 Hs ltac:(done))|]. simpl.
    destruct (view_insert _ _ p dev (vw_devices v Hwf) Hp) as [_ H1].
    destruct (view_insert _ _ p dev (vw_named v Hwf) Hp) as [H2 H3].
    split; [done|]. split; [done|]. split; [unfold stands_for; cbn [objects devices services field_upd t_services]; by rewrite H1, H3|].
    split; [done|]. cbn [devices services field_upd]. by apply insert_mono, Hwf.
Qed.
Lemma open_refines path flags v w : vfs_wf v ->
  agree (vfs_step (v, w) (VOpen path flags)) (table_step (stands_for v, w) (VOpen path flags)).
Proof.
  intros Hwf. cbn [vfs_step table_step]. unfold open, lookup_device. cbn [t_devices stands_for]. rewrite view_lookup.
  destruct (devices v !! path_to_name path) as [p|]; simpl; [|done].
  destruct (objects v !! p) as [dev|] eqn:Ep; simpl; [|done].
  destruct (d_fops dev) as [f|]; simpl; [|done]. destruct (fops_open f path flags w) as [rc w']. destruct (rc <? 0); simpl; [done|].
  unfold answer_pointer. simpl. by rewrite Ep.
Qed.
Lemma vfs_step_refines v w c : vfs_wf v -> agree (vfs_step (v, w) c) (table_step (stands_for v, w) c).
Proof.
  intros Hwf. destruct c as [dev|name|name|path flags|path mode|fd mode|path uid gid|path amode| |];
    [..|by apply open_refines| | | | | |]; cbn [vfs_step].
  - unfold make_device. set (p := fresh (dom (objects v))).
    assert (objects v !! p = None) as Hp by (apply not_elem_of_dom, is_fresh).
    destruct (view_alloc _ _ p dev (vw_devices v Hwf) Hp) as [_ H1]. destruct (view_alloc _ _ p dev (vw_named v Hwf) Hp) as [H2 H3].
    set (v1 := v <| objects ::= <[p := dev]> |>).
    assert (stands_for v = stands_for v1) as ->
      by (unfold stands_for, v1; cbn [objects devices services field_upd]; by rewrite H1, H3).
    apply register_refines; [|apply lookup_insert_eq]. split; [done|apply Hwf].
  - unfold unregister_device. cbn [table_step t_devices stands_for].
    pose proof (view_is_Some _ _ name (vw_devices v Hwf)) as Hs.
    destruct (devices v !! name) as [p|] eqn:E.
    + destruct (proj2 Hs ltac:(done)) as [dev ->]. simpl.
      destruct (view_delete _ _ name (vw_devices v Hwf)) as [_ H1]. destruct (view_delete _ _ name (vw_named v Hwf)) as [H2 H3].
      split; [done|]. split; [done|]. split; [unfold stands_for; cbn [objects devices services field_upd t_services]; by rewrite H1, H3|].
      split; [done|]. cbn [devices services field_upd]. apply delete_mono, Hwf.
    + destruct (view _ _ !! name) as [d|]; [|done]. by destruct (proj1 Hs ltac:(done)).
  - cbn [table_step t_devices stands_for agree]. split; [|done]. unfold answer_pointer, lookup_device. rewrite view_lookup.
    by destruct (devices v !! name).
  - destruct (update_refines path (fun dev => dev <| d_mode := mode |>) v Hwf ltac:(done)) as [H1 H2].
    cbn [table_step]. rewrite H2. by split.
  - done.
  - destruct (update_refines path (fun dev => dev <| d_uid := uid |> <| d_gid := gid |>) v Hwf ltac:(done)) as [H1 H2].
    cbn [table_step]. rewrite H2. by split.
  - cbn [table_step t_devices stands_for agree]. split; [|done]. f_equal. unfold access. pose proof (with_device_view path v) as Hw.
    destruct (with_device path v) as [[p dev]|]; [|by rewrite Hw]. destruct Hw as (_ & _ & ->). apply access_permitted.
  - simpl. split; [done|]. split; [done|]. split; [done|]. split; [|done]. intros ? ?. cbn [services field_upd clear_devices]. by rewrite lookup_empty.
  - simpl. split; [done|]. split; [done|]. split; [done|]. split; [apply Hwf|]. apply map_empty_subseteq.
Qed.

Lemma run_refines cs v w :
  vfs_wf v ->
  match run vfs_step (v, w) cs, run table_step (stands_for v, w) cs with
  | None, None => True
  | Some (answers, (v', w')), Some (answers', (t, w'')) => answers = answers' /\ w' = w'' /\ t = stands_for v' /\ vfs_wf v'
  | _, _ => False
  end.
Proof.
  revert v w. induction cs as [|c cs IH]; intros v w Hwf; [done|]. cbn [run].
  pose proof (vfs_step_refines v w c Hwf) as Hs. unfold agree in Hs.
  destruct (vfs_step (v, w) c) as [[a [v1 w1]]|], (table_step (stands_for v, w) c) as [[a' [t1 w1']]|]; try done.
  destruct Hs as (-> & <- & -> & Hwf1). simpl. specialize (IH v1 w1 Hwf1).
  destruct (run vfs_step (v1, w1) cs) as [[rest [v2 w2]]|], (run table_step (stands_for v1, w1) cs) as [[rest' [t2 w2']]|]; try done.
  destruct IH as (-> & -> & -> & Hwf2). done.
Qed.
End VfsSpec.

(** ** Contexts of processes
  [contexts_] is an array of [kMaxContexts] entries. *)
Definition kMaxContexts : nat := 1024.
Record IsolatedDeviceContext := Ctx_ {
  ctx_pid : Z;
  ctx_bo_count : Z;
  ctx_va_space_count : Z;
  ctx_queue_count : Z;
  ctx_fence_count : Z;
  ctx_in_use : bool;
}.
#[export] Instance eta_ctx : Eta IsolatedDeviceContext :=
  fun r => Ctx_ (ctx_pid r) (ctx_bo_count r) (ctx_va_space_count r) (ctx_queue_count r) (ctx_fence_count r) (ctx_in_use r).
Definition ctx_zero : IsolatedDeviceContext := Ctx_ 0 0 0 0 0 false.
Definition registry : Type := list IsolatedDeviceContext.
Definition clear_for_test : registry := replicate kMaxContexts ctx_zero.

(** The first index whose entry satisfies [P]. *)
Definition first_ctx (P : IsolatedDeviceContext -> bool) (r : registry) : option nat :=
  fst <$> list_find (fun c => P c = true) r.
Definition held_by (pid : Z) (c : IsolatedDeviceContext) : bool := ctx_in_use c && (ctx_pid c =? pid).

Definition register_process (pid : Z) (r : registry) : Z * registry :=
  if pid <=? 0 then (- EINVAL, r)
  else match first_ctx (fun c => negb (ctx_in_use c)) r with
       | Some i => (Z.of_nat i, <[i := Ctx_ pid 0 0 0 0 true]> r)
       | None => (- EAGAIN, r)
       end.
Definition unregister_process (pid : Z) (r : registry) : Z * registry :=
  match first_ctx (held_by pid) r with
  | Some i => (0, <[i := ctx_zero]> r)
  | None => (- ENOENT, r)
  end.
Definition lookup_process (pid : Z) (r : registry) : option nat := first_ctx (held_by pid) r.
(** The four [increment_*]: [f] adds one to the counter. *)
Definition increment (f : IsolatedDeviceContext -> IsolatedDeviceContext) (pid : Z) (r : registry) : Z * registry :=
  match lookup_process pid r with
  | Some i => (0, alter f i r)
  | None => (- ENOENT, r)
  end.
Definition increment_bo := increment (fun c => c <| ctx_bo_count ::= fun n => u64 (n + 1) |>).
Definition increment_va_space := increment (fun c => c <| ctx_va_space_count ::= fun n => u64 (n + 1) |>).
Definition increment_queue := increment (fun c => c <| ctx_queue_count ::= fun n => u64 (n + 1) |>).
Definition increment_fence := increment (fun c => c <| ctx_fence_count ::= fun n => u64 (n + 1) |>).
Definition registry_size (r : registry) : nat := length (List.filter ctx_in_use r).

Lemma first_ctx_Some P r i : first_ctx P r = Some i -> exists c, r !! i = Some c /\ P c = true.
Proof.
  unfold first_ctx. intros ([j c] & H & ->)%fmap_Some. apply list_find_Some in H as (? & ? & _). by exists c.
Qed.
Lemma filter_replace r i c c' :
  r !! i = Some c ->
  (length (List.filter ctx_in_use (<[i := c']> r)) + Nat.b2n (ctx_in_use c) =
   length (List.filter ctx_in_use r) + Nat.b2n (ctx_in_use c'))%nat.
Proof.
  revert i. induction r as [|x r IH]; intros [|i] H; simplify_eq/=.
  - destruct (ctx_in_use c), (ctx_in_use c'); simpl; lia.
  - specialize (IH i H). destruct (ctx_in_use x); simpl; lia.
Qed.
Lemma register_size pid r rc r' :
  register_process pid r = (rc, r') ->
  registry_size r' = (if 0 <=? rc then S (registry_size r) else registry_size r).
Proof.
  unfold register_process, registry_size, registry in *. destruct (Z.leb_spec pid 0); [by intros [= <- <-]|].
  destruct (first_ctx _ r) as [i|] eqn:E; [|by intros [= <- <-]].
  intros [= <- <-]. apply first_ctx_Some in E as (c & Hc & Hu). apply negb_true_iff in Hu.
  pose proof (filter_replace r i c (Ctx_ pid 0 0 0 0 true) Hc) as H'. rewrite Hu in H'. cbn [Nat.b2n ctx_in_use ctx_zero] in H'.
  rewrite (proj2 (Z.leb_le 0 (Z.of_nat i))) by lia. lia.
Qed.
Lemma unregister_size pid r :
  registry_size (unregister_process pid r).2 =
    (if (unregister_process pid r).1 =? 0 then pred (registry_size r) else registry_size r).
Proof.
  unfold unregister_process, registry_size, registry in *. destruct (first_ctx _ r) as [i|] eqn:E; [|done]. simpl.
  apply first_ctx_Some in E as (c & Hc & Hu). apply andb_true_iff in Hu as [Hu _].
  pose proof (filter_replace r i c ctx_zero Hc) as H'. rewrite Hu in H'. cbn [Nat.b2n ctx_in_use ctx_zero] in H'. lia.
Qed.
(** A process that registers twice stays registered after it unregisters. *)
Lemma register_twice :
  let r := (register_process 7 (register_process 7 clear_for_test).2).2 in
  let r' := (unregister_process 7 r).2 in
  lookup_process 7 r' = Some 1%nat.
Proof. by vm_compute. Qed.

(** C17. The device table of the file system: registering, unregistering, looking
    up, opening, changing mode and owner, the access check, clearing and shutting
    down, in any sequence and for any file operations, answer and act as two
    finite maps from names to devices do, one for the devices and one for the
    registry of services: a name is registered once; what is written through a
    path changes the device of that name only, and the service of that name with
    it; a shutdown takes the devices and leaves the services; access checks the
    three owner bits; and a call is undefined exactly when it opens a device
    without file operations. *)
Theorem vfs_refines_table {F W} (fops_open : F -> string -> Z -> W -> Z * W) (calls : list (@vfs_call F)) w :
  match run (vfs_step fops_open) (VFS_ ∅ ∅ ∅, w) calls, run (table_step fops_open) (mk_tables ∅ ∅, w) calls with
  | Some (answers, (v, w')), Some (answers', (t, w'')) =>
      answers = answers' /\ w' = w'' /\ t = stands_for v /\ devices v ⊆ services v /\
      forall name p, services v !! name = Some p -> exists dev, objects v !! p = Some dev /\ d_name dev = name
  | None, None => True
  | _, _ => False
  end.
Proof.
  assert (vfs_wf (VFS_ (F := F) ∅ ∅ ∅)) as Hwf by (split; [intros name p H; cbn in H; by apply lookup_empty_Some in H|done]).
  pose proof (run_refines fops_open calls _ w Hwf) as H. assert (stands_for (VFS_ ∅ ∅ ∅) = mk_tables (F := F) ∅ ∅) as E by (unfold stands_for, view; cbn [objects devices services]; by rewrite omap_empty).
  rewrite E in H. clear E.
  destruct (run (vfs_step fops_open) _ calls) as [[answers [v w']]|], (run (table_step fops_open) _ calls) as [[answers' [t w'']]|]; try done.
  destruct H as (-> & -> & -> & Hwf'). do 3 (split; [done|]). split; apply Hwf'.
Qed.

(** *** Observations *)
(** The mode of a device decides nothing about opening it. *)
Lemma open_ignores_mode {F W} (fops_open : F -> string -> Z -> W -> Z * W) path flags p dev mode (v : VFS F) w :
  with_device path v = Some (p, dev) ->
  (open fops_open path flags (chmod path mode v).2 w) = open fops_open path flags v w.
Proof.
  intros H. unfold chmod, open. rewrite H. unfold with_device in H. simpl.
  destruct (lookup_device (path_to_name path) v) as [q|] eqn:E; [|done]. simpl in H.
  destruct (objects v !! q) as [d|] eqn:Ed; [|done]. simpl in H. injection H as -> ->.
  unfold lookup_device in *. simpl. by rewrite ?E; simpl; rewrite ?Ed, lookup_insert_eq.
Qed.
(** [shutdown] empties the table and leaves the registry of services. *)
Lemma shutdown_keeps_services :
  let v := (render_node_register_all tt (VFS_ ∅ ∅ ∅)).2 in
  list_devices (shutdown v) = [] /\ is_Some (services (shutdown v) !! "kfd").
Proof. vm_compute. split; [done|]. by eexists. Qed.
(** The network and storage plug-ins register their device without file
  operations: opening it calls through a null pointer. *)
Definition net_plugin_device : Device unit := Device_ "net0" 0 (Some 0%nat) None 438 0 0.
Lemma open_net0_null :
  run (vfs_step (fun _ _ _ w => (0, w))) (VFS_ ∅ ∅ ∅, tt) [VRegister net_plugin_device; VOpen "/dev/net0" 0] = None.
Proof. by vm_compute. Qed.
Lemma render_nodes_once :
  (render_node_register_all tt (VFS_ ∅ ∅ ∅)).1 = 3 /\
  (render_node_register_all tt (render_node_register_all tt (VFS_ ∅ ∅ ∅)).2).1 = 0.
Proof. vm_compute. by split. Qed.
