(* ===== verification/Modules.v ===== *)
(** * The plug-in loader

    [src/src/kernel/module_loader.cpp], [plugin_manager.cpp] and [module.cpp]:
    the scan of a plug-in directory, the cycle check and the ordering of the
    candidates, the table of loaded plug-ins with its reference counts, and the
    older manager and module class beside it.

    What the dynamic linker answers for a path is an argument ([dlopen_mod]);
    a plug-in's [init] and [exit] are functions over the rest of the process
    ([W]).  The order in which [std::pop_heap] gives equal priorities is that
    of any [HeapPick]. *)
From S2P Require Import Prelude.
From stdpp Require Import relations gmap sets fin_sets.

#[local] Open Scope Z_scope.

(** ** The order of loading *)
Record Candidate := Candidate_ {
  c_path : string;
  c_name : string;
  c_load_priority : Z;
  c_depends : list string;
}.

(** Which of the waiting candidates [std::pop_heap] moves to the end: one of
  least priority.  Which one, when several are, may depend on how the heap
  was built, so on what was taken out before. *)
Class HeapPick := {
  heap_pick : (nat -> Z) -> list nat -> list nat -> nat;
  heap_pick_spec prio before pq : pq <> [] ->
    heap_pick prio before pq ∈ pq /\ forall v, v ∈ pq -> prio (heap_pick prio before pq) <= prio v
}.

(** Take out one occurrence. *)
Fixpoint remove_one {A} `{EqDecision A} (u : A) (l : list A) : list A :=
  match l with
  | [] => []
  | x :: r => if bool_decide (x = u) then r else x :: remove_one u r
  end.

Section Order.
Context (cs : list Candidate).

(** [idx[cs[i].name] = i], in order: of equal names the last one counts. *)
Definition name_index : gmap string nat :=
  foldl (fun m ic => <[c_name ic.2 := ic.1]> m) ∅ (imap pair cs).

Definition depends_of (name : string) : list string :=
  match name_index !! name with
  | Some i => match cs !! i with Some c => c_depends c | None => [] end
  | None => []
  end.

(** Depth-first search; the two sets are [visited] and [stack].  [None]: out
    of fuel.  [search_children] is the loop over the dependencies and what
    follows it. *)
Definition search : Type := gset string * gset string -> option (bool * (gset string * gset string)).
Fixpoint search_children (rec : string -> search) (name : string) (ds : list string) : search :=
  fun s =>
  match ds with
  | [] => Some (false, ({[name]} ∪ s.1, s.2 ∖ {[name]}))
  | d :: ds =>
      match rec d s with
      | Some (false, s) => search_children rec name ds s
      | r => r
      end
  end.
Fixpoint detect_cycle (fuel : nat) (name : string) : search :=
  fun s =>
  match fuel with
  | O => None
  | S fuel =>
      if bool_decide (name ∈ s.2) then Some (true, s)
      else if bool_decide (name ∈ s.1) then Some (false, s)
      else search_children (detect_cycle fuel) name (depends_of name) (s.1, {[name]} ∪ s.2)
  end.

(** The loop over all candidates. *)
Fixpoint any_cycle (fuel : nat) (l : list Candidate) (s : gset string * gset string) : option bool :=
  match l with
  | [] => Some false
  | c :: l =>
      match detect_cycle fuel (c_name c) s with
      | Some (false, s) => any_cycle fuel l s
      | Some (true, _) => Some true
      | None => None
      end
  end.

(** The candidates [cs[i]] depends on, one entry per entry of [depends]. *)
Definition targets (i : nat) : list nat :=
  match cs !! i with
  | Some c => omap (fun d => name_index !! d) (c_depends c)
  | None => []
  end.
Definition in_degrees : list Z := map (fun i => Z.of_nat (length (targets i))) (seq 0 (length cs)).
Definition priority (i : nat) : Z := match cs !! i with Some c => c_load_priority c | None => 0 end.

(** [--indeg[i]] where [cs[i]] depends on [u], and the push at zero. *)
Definition relax (u : nat) (st : list Z * list nat) (i : nat) : list Z * list nat :=
  let '(indeg, pq) := st in
  if bool_decide (u ∈ targets i) then
    let d := indeg !!! i - 1 in
    (<[i := d]> indeg, if d =? 0 then pq ++ [i] else pq)
  else (indeg, pq).

Context `{HeapPick}.

Fixpoint kahn (fuel : nat) (indeg : list Z) (pq load_order : list nat) : option (list nat) :=
  match fuel with
  | O => None
  | S fuel =>
      match pq with
      | [] => Some load_order
      | _ =>
          let u := heap_pick priority load_order pq in
          let '(indeg, pq) := foldl (relax u) (indeg, remove_one u pq) (seq 0 (length cs)) in
          kahn fuel indeg pq (load_order ++ [u])
      end
  end.

(** The return value and the load order. *)
Definition topo_sort : option (Z * list nat) :=
  match any_cycle (S (length cs)) cs (∅, ∅) with
  | None => None
  | Some true => Some (- ELOOP, [])
  | Some false =>
      let indeg := in_degrees in
      let pq := List.filter (fun i => indeg !!! i =? 0) (seq 0 (length cs)) in
      match kahn (S (length cs)) indeg pq [] with
      | Some order => Some (0, order)
      | None => None
      end
  end.
End Order.

(** *** The graph of dependencies *)
Definition depends_on (cs : list Candidate) (n m : string) : Prop := m ∈ depends_of cs n.
(** Some name depends on itself through other names. *)
Definition cyclic (cs : list Candidate) : Prop := exists n, tc (depends_on cs) n n.

(** A finite set in which everything has a successor has a cycle. *)
Lemma successors_cycle {A} `{EqDecision A} (R : relation A) (P : A -> Prop) (U : list A) x :
  (forall y, P y -> y ∈ U) -> P x -> (forall y, P y -> exists z, P z /\ R y z) -> exists y, tc R y y.
Proof.
  intros HU Hx Hs.
  cut (forall k p y, (length U - length p <= k)%nat -> P y -> NoDup (y :: p) -> y :: p ⊆ U ->
         (forall z, z ∈ p -> tc R z y) -> exists y, tc R y y).
  { intros H. apply (H (length U) [] x); [simpl; lia|done|..].
    - apply NoDup_singleton.
    - intros z ->%list_elem_of_singleton. by apply HU.
    - by intros z ?%not_elem_of_nil. }
  induction k as [|k IH]; intros p y Hk Hy Hnd Hsub Hp.
  - apply (NoDup_submseteq _ U) in Hnd; [|set_solver]. apply submseteq_length in Hnd. simpl in Hnd. lia.
  - destruct (Hs y Hy) as (z & Hz & Hyz).
    destruct (decide (z ∈ y :: p)) as [[->|Hin]%elem_of_cons|Hout].
    + exists y. by apply tc_once.
    + exists z. eapply tc_r; [by apply Hp|done].
    + apply (IH (y :: p) z); [simpl; lia|done|by constructor| |].
      * pose proof (HU z Hz). set_solver.
      * intros w [->|Hw]%elem_of_cons; [by apply tc_once|]. eapply tc_r; [by apply Hp|done].
Qed.

(** [order] puts dependencies first. *)
Definition deps_before (cs : list Candidate) (order : list nat) : Prop :=
  forall k i u, order !! k = Some i -> u ∈ targets cs i -> u ∈ take k order.
(** Each in its turn has the least priority number of those that could be
  loaded then. *)
Definition least_first (cs : list Candidate) (order : list nat) : Prop :=
  forall k u v, order !! k = Some u -> (v < length cs)%nat -> v ∉ take k order ->
    NoDup (targets cs v) -> targets cs v ⊆ take k order -> priority cs u <= priority cs v.

(** Neither the candidate nor anything it depends on, in any number of steps,
    names a dependency twice. *)
Definition orderable (cs : list Candidate) (i : nat) : Prop :=
  (i < length cs)%nat /\ forall j, rtc (fun a b => b ∈ targets cs a) i j -> NoDup (targets cs j).

Lemma take_snoc_prefix {A} (P : list A -> A -> Prop) l x :
  (forall k i, l !! k = Some i -> P (take k l) i) -> P l x ->
  forall k i, (l ++ [x]) !! k = Some i -> P (take k (l ++ [x])) i.
Proof.
  intros Hl Hx k i [Hi|[Hk Hi]]%lookup_app_Some.
  - rewrite take_app_le by (apply lookup_lt_Some in Hi; lia). by apply Hl.
  - apply list_lookup_singleton_Some in Hi as [Hk' <-]. by rewrite take_app_length' by lia.
Qed.
Lemma remove_one_perm {A} `{EqDecision A} (u : A) l : u ∈ l -> l ≡ₚ u :: remove_one u l.
Proof.
  induction l as [|x l IH]; simpl; [by intros ?%not_elem_of_nil|].
  intros Hu. case_bool_decide as He; [by subst|].
  apply elem_of_cons in Hu as [->|Hu]; [done|]. rewrite (IH Hu) at 1. apply Permutation_swap.
Qed.

Section OrderLemmas.
Context (cs : list Candidate).
Let n := length cs.

Lemma name_index_spec d i : name_index cs !! d = Some i -> exists c, cs !! i = Some c /\ c_name c = d.
Proof.
  unfold name_index.
  enough (forall l m, (forall e, e ∈ l -> cs !! e.1 = Some e.2) ->
    (forall d i, (m : gmap string nat) !! d = Some i -> exists c, cs !! i = Some c /\ c_name c = d) ->
    foldl (fun (m : gmap string nat) (ic : nat * Candidate) => <[c_name ic.2 := ic.1]> m) m l !! d = Some i ->
    exists c, cs !! i = Some c /\ c_name c = d) as H.
  { apply H; [|by intros ? ?; rewrite lookup_empty]. intros [j c] Hj.
    apply list_elem_of_lookup in Hj as [k Hk]. rewrite list_lookup_imap in Hk.
    destruct (cs !! k) eqn:?; by simplify_eq/=. }
  induction l as [|[j c] l IH]; intros m Hl Hm; [apply Hm|]. simpl. apply IH; [set_solver|].
  intros e k. rewrite lookup_insert. case_decide; [intros; simplify_eq|apply Hm].
  exists c. split; [|done]. by apply (Hl (k, c)); left.
Qed.
Lemma name_index_total c : c ∈ cs -> is_Some (name_index cs !! c_name c).
Proof.
  unfold name_index. intros Hc.
  enough (forall l m, (exists i, (i, c) ∈ l) \/ is_Some (m !! c_name c) ->
    is_Some (foldl (fun (m : gmap string nat) (ic : nat * Candidate) => <[c_name ic.2 := ic.1]> m) m l !! c_name c)) as H.
  { apply H. left. apply list_elem_of_lookup in Hc as [i Hi]. exists i.
    apply list_elem_of_lookup. exists i. by rewrite list_lookup_imap, Hi. }
  induction l as [|[j c'] l IH]; intros m [[i Hi]|Hm]; simpl; try done.
  - by apply not_elem_of_nil in Hi.
  - apply IH. apply elem_of_cons in Hi as [[= -> ->]|Hi]; [right; by rewrite lookup_insert_eq|eauto].
  - apply IH. right. rewrite lookup_insert. case_decide; [done|done].
Qed.
Lemma name_index_inj d e i : name_index cs !! d = Some i -> name_index cs !! e = Some i -> d = e.
Proof. intros (c & Hc & <-)%name_index_spec (c' & Hc' & <-)%name_index_spec. by simplify_eq. Qed.
Lemma name_index_lt d i : name_index cs !! d = Some i -> (i < n)%nat.
Proof. intros (c & Hc & _)%name_index_spec. by apply lookup_lt_Some in Hc. Qed.
Lemma name_index_size : (size (name_index cs) <= n)%nat.
Proof.
  unfold name_index.
  enough (forall l (m : gmap string nat),
    (size (foldl (fun m (ic : nat * Candidate) => <[c_name ic.2 := ic.1]> m) m l) <= size m + length l)%nat) as H.
  { specialize (H (imap pair cs) ∅). by rewrite length_imap, map_size_empty in H. }
  induction l as [|ic l IH]; intros m; simpl; [lia|]. specialize (IH (<[c_name ic.2 := ic.1]> m)).
  rewrite map_size_insert in IH. case_match; unfold id in IH; lia.
Qed.
Lemma depends_of_candidate name d : d ∈ depends_of cs name -> is_Some (name_index cs !! name).
Proof. unfold depends_of. destruct (name_index cs !! name); [done|]. by intros ?%not_elem_of_nil. Qed.

(** *** The search finds the cycles *)
(** Names of candidates not on the stack. *)
Definition off_stack (st : gset string) : nat := size (dom (name_index cs) ∖ st).
  (** What has been left is closed and without cycles. *)
Record searched (s : gset string * gset string) : Prop := {
  se_closed u d : u ∈ s.1 -> depends_on cs u d -> d ∈ s.1;
  se_acyclic u : u ∈ s.1 -> ~ tc (depends_on cs) u u;
  se_disjoint u : u ∈ s.1 -> u ∉ s.2
}.
  (** What is on the stack leads to [name]. *)
Definition leads_to (name : string) (st : gset string) : Prop :=
  forall u, u ∈ st -> tc (depends_on cs) u name.
Definition search_post (name : string) (s : gset string * gset string)
  (r : option (bool * (gset string * gset string))) : Prop :=
  match r with
  | None => False
  | Some (true, _) => cyclic cs
  | Some (false, s') => s'.2 = s.2 /\ s.1 ⊆ s'.1 /\ name ∈ s'.1 /\ searched s'
  end.

Lemma closed_tc (V : gset string) u w :
  (forall u d, u ∈ V -> depends_on cs u d -> d ∈ V) -> u ∈ V -> tc (depends_on cs) u w -> w ∈ V.
Proof. intros Hc Hu Ht. induction Ht; eauto. Qed.

(** Leaving [name]: all it depends on has been left. *)
Lemma searched_leave name s :
  searched s -> name ∈ s.2 -> (forall d, depends_on cs name d -> d ∈ s.1) ->
  searched ({[name]} ∪ s.1, s.2 ∖ {[name]}).
Proof.
  intros [Hc Ha Hd] Hin Hdeps.
  assert (forall u d, u ∈ {[name]} ∪ s.1 -> depends_on cs u d -> d ∈ s.1) as Hc'
    by (intros u d [->%elem_of_singleton|]%elem_of_union; eauto).
  assert (forall u, u ∈ {[name]} ∪ s.1 -> ~ tc (depends_on cs) u name) as Hout.
  { intros u Hu Ht. apply (Hd name); [|done]. inversion Ht; subst; [eauto|].
    eapply closed_tc; [apply Hc| |done]. eauto. }
  split; simpl; [set_solver| |set_solver].
  intros u [->%elem_of_singleton|Hu]%elem_of_union; [apply Hout; set_solver|by apply Ha].
Qed.

Lemma search_children_spec rec name st ds s :
  (forall d s, depends_on cs name d -> s.2 = st -> searched s -> search_post d s (rec d s)) ->
  (forall d, d ∈ ds -> depends_on cs name d) ->
  searched s -> s.2 = st -> name ∈ st ->
  (forall d, depends_on cs name d -> d ∈ ds \/ d ∈ s.1) ->
  match search_children rec name ds s with
  | None => False
  | Some (true, _) => cyclic cs
  | Some (false, s') => s'.2 = st ∖ {[name]} /\ s.1 ⊆ s'.1 /\ name ∈ s'.1 /\ searched s'
  end.
Proof.
  intros Hrec. revert s. induction ds as [|d ds IH]; intros s Hds Hs Hst Hname Hcov; simpl.
  - split; [by rewrite Hst|]. split; [set_solver|]. split; [set_solver|].
    apply searched_leave; [done|by rewrite Hst|]. intros d Hd. destruct (Hcov d Hd); [set_solver|done].
  - pose proof (Hrec d s (Hds d ltac:(left)) Hst Hs) as Hr. destruct (rec d s) as [[[] s']|]; [done| |done].
    destruct Hr as (Hst' & Hsub & Hd & Hs').
    specialize (IH s' ltac:(set_solver) Hs' ltac:(congruence) Hname).
    ospecialize (IH _).
    { intros e He. destruct (Hcov e He) as [[->|]%elem_of_cons|]; set_solver. }
    destruct (search_children rec name ds s') as [[[] s'']|]; [done| |done].
    destruct IH as (?&?&?&?). split; [done|]. split; [set_solver|done].
Qed.

Lemma off_stack_push name st :
  is_Some (name_index cs !! name) -> name ∉ st -> (off_stack ({[name]} ∪ st) < off_stack st)%nat.
Proof.
  intros Hn Hst. unfold off_stack. apply subset_size. apply elem_of_dom in Hn.
  split; [set_solver|]. intros H. specialize (H name). set_solver.
Qed.

Lemma detect_cycle_spec fuel name s :
  searched s -> leads_to name s.2 -> (off_stack s.2 < fuel)%nat ->
  search_post name s (detect_cycle cs fuel name s).
Proof.
  revert name s. induction fuel as [|fuel IH]; intros name s Hs Hl Hf; [lia|]. simpl.
  case_bool_decide as Hst; [by exists name; apply Hl|].
  case_bool_decide as Hv; [done|].
  pose proof (search_children_spec (detect_cycle cs fuel) name ({[name]} ∪ s.2) (depends_of cs name)
    (s.1, {[name]} ∪ s.2)) as H. simpl in H.
  destruct Hs as [Hc Ha Hd].
  ospecialize (H _ _ _ _ _ _); [|done|split; set_solver|done|set_solver|by left|].
  { intros d s' Hdep Hst' Hs'. apply IH; rewrite ?Hst'; [done|..].
    - intros u [->%elem_of_singleton|Hu]%elem_of_union; [by apply tc_once|]. eapply tc_r; [by apply Hl|done].
    - pose proof (off_stack_push name s.2 (depends_of_candidate _ _ Hdep) Hst). lia. }
  unfold search_post. destruct (search_children _ _ _ _) as [[[] s']|]; [done| |done].
  destruct H as (-> & Hsub & Hn & Hs'). split; [set_solver|done].
Qed.

Lemma any_cycle_spec fuel l s :
  (off_stack ∅ < fuel)%nat -> searched s -> s.2 = ∅ ->
  match any_cycle cs fuel l s with
  | None => False
  | Some true => cyclic cs
  | Some false => exists V, s.1 ⊆ V /\ searched (V, ∅) /\ forall c, c ∈ l -> c_name c ∈ V
  end.
Proof.
  intros Hf. revert s. induction l as [|c l IH]; intros s Hs Hst; simpl.
  - exists s.1. split; [done|]. split; [by destruct s; simplify_eq/=|]. by intros c ?%not_elem_of_nil.
  - pose proof (detect_cycle_spec fuel (c_name c) s Hs) as H. rewrite Hst in H.
    ospecialize (H _ Hf); [by intros u ?%elem_of_empty|].
    unfold search_post in H. destruct (detect_cycle _ _ _ _) as [[[] s']|]; [done| |done].
    destruct H as (Hst' & Hsub & Hn & Hs'). specialize (IH s' Hs' ltac:(congruence)).
    destruct (any_cycle _ _ _ _) as [[]|]; [done| |done]. destruct IH as (V & HV & HsV & Hl).
    exists V. split; [set_solver|]. split; [done|]. intros c' [->|Hc']%elem_of_cons; [set_solver|by apply Hl].
Qed.

Lemma any_cycle_exact :
  match any_cycle cs (S n) cs (∅, ∅) with
  | None => False
  | Some b => b = true <-> cyclic cs
  end.
Proof.
  pose proof (any_cycle_spec (S n) cs (∅, ∅)) as H.
  ospecialize (H _ _ eq_refl).
  - unfold off_stack. rewrite difference_empty_L, size_dom. pose proof name_index_size. lia.
  - split; simpl; set_solver.
  - destruct (any_cycle _ _ _ _) as [[]|]; [done| |done].
    split; [done|]. intros [name Hc]. destruct H as (V & _ & Hs & Hl). exfalso.
    apply (se_acyclic _ Hs name); [|done]. simpl.
    assert (exists d, depends_on cs name d) as [d Hd] by (inversion Hc; eauto).
    destruct (depends_of_candidate _ _ Hd) as [i (c & Hi & <-)%name_index_spec].
    apply Hl. by eapply list_elem_of_lookup_2.
Qed.

(** *** The order *)
Definition unmet (order : list nat) (i : nat) : Z :=
  Z.of_nat (length (targets cs i)) - Z.of_nat (length (List.filter (fun u => bool_decide (u ∈ targets cs i)) order)).

Lemma targets_lt i u : u ∈ targets cs i -> (u < n)%nat.
Proof.
  unfold targets. destruct (cs !! i); [|by intros ?%not_elem_of_nil].
  intros (d & _ & Hd)%list_elem_of_omap. by eapply name_index_lt.
Qed.
Lemma filter_target i order : List.filter (fun u => bool_decide (u ∈ targets cs i)) order ⊆ targets cs i.
Proof. intros u [_ H]%filter_In_iff. by apply bool_decide_eq_true in H. Qed.
Lemma unmet_nonneg order i : NoDup order -> 0 <= unmet order i.
Proof.
  intros Hnd. unfold unmet.
  assert (NoDup (List.filter (fun u => bool_decide (u ∈ targets cs i)) order)) as H
    by (apply NoDup_ListNoDup, List.NoDup_filter, NoDup_ListNoDup; done).
  eapply NoDup_submseteq, submseteq_length in H; [|apply filter_target]. lia.
Qed.
Lemma unmet_zero order i : NoDup order -> unmet order i = 0 -> targets cs i ⊆ order.
Proof.
  intros Hnd Hz. unfold unmet in Hz.
  assert (NoDup (List.filter (fun u => bool_decide (u ∈ targets cs i)) order)) as H
    by (apply NoDup_ListNoDup, List.NoDup_filter, NoDup_ListNoDup; done).
  eapply NoDup_submseteq in H; [|apply filter_target].
  apply submseteq_length_Permutation in H; [|lia]. intros u Hu. rewrite <- H in Hu.
  by apply filter_In_iff in Hu as [? _].
Qed.
(** With no dependency listed twice, all met means none unmet. *)
Lemma unmet_met order i : NoDup order -> NoDup (targets cs i) -> targets cs i ⊆ order -> unmet order i = 0.
Proof.
  intros Hnd Ht Hsub. pose proof (unmet_nonneg order i Hnd). unfold unmet in *.
  eapply NoDup_submseteq in Ht; [apply submseteq_length in Ht|].
  - instantiate (1 := List.filter (fun u => bool_decide (u ∈ targets cs i)) order) in Ht. lia.
  - intros u Hu. apply filter_In_iff. split; [by apply Hsub|by apply bool_decide_eq_true].
Qed.
Lemma unmet_snoc order u i :
  unmet (order ++ [u]) i = unmet order i - (if bool_decide (u ∈ targets cs i) then 1 else 0).
Proof.
  unfold unmet. rewrite List.filter_app, length_app. simpl. case_bool_decide; simpl; lia.
Qed.

(** The decrements for one candidate taken out. *)
Lemma relax_all u indeg pq k :
  length indeg = n -> (k <= n)%nat ->
  let st := foldl (relax cs u) (indeg, pq) (seq 0 k) in
  length st.1 = n /\
  (forall i, (i < n)%nat ->
     st.1 !!! i = indeg !!! i - (if bool_decide (u ∈ targets cs i) && bool_decide (i < k)%nat then 1 else 0)) /\
  st.2 = pq ++ List.filter (fun i => bool_decide (u ∈ targets cs i) && (indeg !!! i =? 1)) (seq 0 k).
Proof.
  intros Hlen. induction k as [|k IH]; intros Hk.
  - simpl. split; [done|]. split; [|by rewrite app_nil_r].
    intros i Hi. rewrite andb_false_r. lia.
  - specialize (IH ltac:(lia)). rewrite seq_S, foldl_app. cbn zeta in *.
    destruct (foldl _ _ _) as [indeg' pq']. simpl in *. destruct IH as (Hl & Hi & ->).
    rewrite List.filter_app. simpl. pose proof (Hi k ltac:(lia)) as Hik.
    rewrite (bool_decide_eq_false_2 (k < k)%nat), andb_false_r, Z.sub_0_r in Hik by lia.
    case_bool_decide as Hu; simpl.
    + split; [by rewrite length_insert|]. split.
      * intros i Hin. destruct (decide (i = k)) as [->|Hne].
        -- rewrite list_lookup_total_insert_eq by lia. rewrite Hik, !bool_decide_eq_true_2 by (done || lia). done.
        -- rewrite list_lookup_total_insert_ne by done. rewrite Hi by done.
           destruct (decide (i < k)%nat); [rewrite !(bool_decide_eq_true_2 (i < _)%nat) by lia|
             rewrite !(bool_decide_eq_false_2 (i < _)%nat) by lia]; done.
      * rewrite Hik. replace (indeg !!! k - 1 =? 0) with (indeg !!! k =? 1) by (apply eq_bool_prop_intro; rewrite !Is_true_true, !Z.eqb_eq; lia).
        case_match; [by rewrite app_assoc|by rewrite app_nil_r].
    + split; [done|]. split; [|by rewrite app_nil_r]. intros i Hin. rewrite Hi by done.
      destruct (decide (i = k)) as [->|Hne]; [by rewrite (bool_decide_eq_false_2 (u ∈ _)) by done|].
      destruct (decide (i < k)%nat); [rewrite !(bool_decide_eq_true_2 (i < _)%nat) by lia|
             rewrite !(bool_decide_eq_false_2 (i < _)%nat) by lia]; done.
Qed.

Record kahn_inv (indeg : list Z) (pq order : list nat) : Prop := {
  ki_length : length indeg = n;
  ki_indeg i : (i < n)%nat -> indeg !!! i = unmet order i;
  ki_nodup : NoDup (order ++ pq);
  ki_ready i : i ∈ order ++ pq <-> (i < n)%nat /\ unmet order i = 0;
  ki_deps : deps_before cs order;
  ki_least : least_first cs order
}.

Lemma kahn_inv_init :
  kahn_inv (in_degrees cs) (List.filter (fun i => in_degrees cs !!! i =? 0) (seq 0 n)) [].
Proof.
  assert (forall i, (i < n)%nat -> in_degrees cs !!! i = unmet [] i) as Hi.
  { intros i Hi. unfold in_degrees, unmet. simpl. rewrite Z.sub_0_r.
    apply list_lookup_total_correct. rewrite list_lookup_fmap, lookup_seq_lt by done. done. }
  split; simpl.
  - unfold in_degrees. by rewrite length_map, length_seq.
  - done.
  - apply NoDup_ListNoDup, List.NoDup_filter, NoDup_ListNoDup, NoDup_seq.
  - intros i. rewrite filter_In_iff, elem_of_seq, Z.eqb_eq. split.
    + intros [? Hz]. rewrite Hi in Hz by lia. split; [lia|done].
    + intros [? Hz]. rewrite Hi by done. split; [lia|done].
  - by intros k i u ?.
  - by intros k u v ?.
Qed.

Lemma kahn_inv_bound indeg pq order : kahn_inv indeg pq order -> (length order + length pq <= n)%nat.
Proof.
  intros Hi. pose proof (ki_nodup _ _ _ Hi) as Hnd.
  eapply (NoDup_submseteq _ (seq 0 n)) in Hnd.
  - apply submseteq_length in Hnd. by rewrite length_app, length_seq in Hnd.
  - intros i [Hlt _]%(ki_ready _ _ _ Hi). apply elem_of_seq. lia.
Qed.

Lemma kahn_step indeg pq order u :
  kahn_inv indeg pq order -> u ∈ pq -> (forall v, v ∈ pq -> priority cs u <= priority cs v) ->
  let st := foldl (relax cs u) (indeg, remove_one u pq) (seq 0 n) in
  kahn_inv st.1 st.2 (order ++ [u]).
Proof.
  intros Hi Hu Hmin. destruct (relax_all u indeg (remove_one u pq) n (ki_length _ _ _ Hi) ltac:(done)) as (Hl & Hd & Hq).
  cbn zeta in *. destruct (foldl _ _ _) as [indeg' pq']. simpl in *. subst pq'.
  destruct Hi as [_ Hid Hnd Hr Hdep Hle]. pose proof (NoDup_app order pq) as [Hndo _]. specialize (Hndo Hnd).
  destruct Hndo as (Hndo & Hdis & Hndq).
  assert (Hperm := remove_one_perm u pq Hu).
  assert (forall i, (i < n)%nat -> unmet (order ++ [u]) i = indeg' !!! i) as Hid'.
  { intros i Hi. rewrite Hd, unmet_snoc, Hid by done.
    rewrite (bool_decide_eq_true_2 (i < n)%nat), andb_true_r by done. done. }
  assert (forall i, i ∈ List.filter (fun i => bool_decide (u ∈ targets cs i) && (indeg !!! i =? 1)) (seq 0 n) <->
            (i < n)%nat /\ unmet order i = 1 /\ u ∈ targets cs i) as Hnew.
  { intros i. rewrite filter_In_iff, elem_of_seq, andb_true_iff, bool_decide_eq_true, Z.eqb_eq.
    split; [intros (?&?&Hz); rewrite Hid in Hz by lia; repeat split; (lia || done)|].
    intros (?&?&?). rewrite Hid by done. repeat split; (lia || done). }
  split.
  - done.
  - intros i Hi. by rewrite Hid'.
  - rewrite app_assoc. apply NoDup_app. split; [|split].
    + rewrite <- app_assoc. simpl. by rewrite <- Hperm.
    + intros i Hin [Hlt [H1 _]]%Hnew. rewrite <- app_assoc in Hin. simpl in Hin. rewrite <- Hperm in Hin.
      apply Hr in Hin as [_ ?]. lia.
    + apply NoDup_ListNoDup, List.NoDup_filter, NoDup_ListNoDup, NoDup_seq.
  - intros i. rewrite app_assoc, elem_of_app, Hnew, <- app_assoc. simpl. rewrite <- Hperm, Hr, unmet_snoc.
    pose proof (unmet_zero order i Hndo) as Hsub. specialize (Hdis u).
    case_bool_decide as Hut; split.
    + intros [[? Hz]|(?&?&_)]; [|lia]. exfalso. specialize (Hsub Hz u Hut). by apply Hdis.
    + intros [? Hz]. right. repeat split; [done|lia|done].
    + intros [[? Hz]|(?&?&?)]; [|done]. lia.
    + intros [? Hz]. left. lia.
  - intros k i v Hk. revert k i Hk v. apply (take_snoc_prefix (fun l i => forall v, v ∈ targets cs i -> v ∈ l)).
    + intros k i Hk v. by apply Hdep.
    + intros v Hv. apply (unmet_zero order u Hndo); [|done]. apply Hr. set_solver.
  - intros k i v Hk. revert k i Hk v.
    apply (take_snoc_prefix (fun l u => forall v, (v < n)%nat -> v ∉ l -> NoDup (targets cs v) ->
      targets cs v ⊆ l -> priority cs u <= priority cs v)).
    + intros k i Hk v. by apply Hle.
    + intros v Hv Hout Hndt Hsub. apply Hmin. pose proof (unmet_met order v Hndo Hndt Hsub) as Hz.
      specialize (Hr v). set_solver.
Qed.

Lemma kahn_spec `{HeapPick} fuel indeg pq order :
  kahn_inv indeg pq order -> (n - length order < fuel)%nat ->
  exists indeg' order', kahn cs fuel indeg pq order = Some order' /\ kahn_inv indeg' [] order'.
Proof.
  revert indeg pq order. induction fuel as [|fuel IH]; intros indeg pq order Hi Hf; [lia|]. simpl.
  destruct pq as [|v pq0] eqn:Epq; [by eexists _, _|]. rewrite <- Epq in *.
  destruct (heap_pick_spec (priority cs) order pq ltac:(by rewrite Epq)) as [Hu Hmin].
  pose proof (kahn_step _ _ _ _ Hi Hu Hmin) as Hi'. pose proof (kahn_inv_bound _ _ _ Hi) as Hb.
  cbn zeta in Hi'. fold n. destruct (foldl _ _ _) as [indeg' pq']. simpl in Hi'.
  apply (IH _ _ _ Hi'). rewrite length_app. rewrite Epq in Hb. simpl in *. lia.
Qed.

(** *** Cycles of candidates are cycles of names *)
Lemma targets_named i j : j ∈ targets cs i -> exists a, name_index cs !! a = Some j.
Proof.
  unfold targets. destruct (cs !! i); [|by intros ?%not_elem_of_nil]. intros (d & _ & ?)%list_elem_of_omap. by exists d.
Qed.
Lemma targets_depends i j a :
  j ∈ targets cs i -> name_index cs !! a = Some i -> exists b, name_index cs !! b = Some j /\ depends_on cs a b.
Proof.
  unfold targets, depends_on, depends_of. intros Hj ->. destruct (cs !! i); [|by apply not_elem_of_nil in Hj].
  apply list_elem_of_omap in Hj as (d & ? & ?). by exists d.
Qed.
Lemma targets_tc i j :
  tc (fun i j => j ∈ targets cs i) i j ->
  forall a, name_index cs !! a = Some i -> exists b, name_index cs !! b = Some j /\ tc (depends_on cs) a b.
Proof.
  induction 1 as [i j Hij|i k j Hik _ IH]; intros a Ha.
  - destruct (targets_depends _ _ _ Hij Ha) as (b & ? & ?). exists b. split; [done|by apply tc_once].
  - destruct (targets_depends _ _ _ Hik Ha) as (b & Hb & Hab). destruct (IH b Hb) as (d & ? & ?).
    exists d. split; [done|by eapply tc_l].
Qed.

(** A candidate taken out names no dependency twice, and what it depends on has
    been taken out. *)
Lemma unmet_zero_unique order i : NoDup order -> unmet order i = 0 -> NoDup (targets cs i).
Proof.
  intros Hnd Hz. unfold unmet in Hz.
  assert (NoDup (List.filter (fun u => bool_decide (u ∈ targets cs i)) order)) as H
    by (apply NoDup_ListNoDup, List.NoDup_filter, NoDup_ListNoDup; done).
  pose proof H as H'. eapply NoDup_submseteq in H; [|apply filter_target].
  apply submseteq_length_Permutation in H; [|lia]. by rewrite <- H.
Qed.
Lemma kahn_orderable indeg order i : kahn_inv indeg [] order -> i ∈ order -> orderable cs i.
Proof.
  intros Hi Hin. pose proof (ki_nodup _ _ _ Hi) as Hnd. rewrite app_nil_r in Hnd.
  pose proof (fun i => ki_ready _ _ _ Hi i) as Hr. setoid_rewrite app_nil_r in Hr.
  split; [by apply Hr|]. intros j Hj. induction Hj as [i|i u j Hu _ IH].
  - by apply (unmet_zero_unique order), Hr.
  - apply IH. apply (unmet_zero order i); [done|by apply Hr|done].
Qed.

(** A candidate left over names a dependency twice, or lies on a cycle, or
    depends on one of these. *)
Lemma kahn_all indeg order :
  kahn_inv indeg [] order -> ~ cyclic cs -> forall x, orderable cs x -> x ∈ order.
Proof.
  intros Hi Hac x Hx. pose proof (ki_nodup _ _ _ Hi) as Hndo. rewrite app_nil_r in Hndo.
  pose proof (fun i => ki_ready _ _ _ Hi i) as Hr. setoid_rewrite app_nil_r in Hr.
  destruct (decide (x ∈ order)) as [|Hout]; [done|]. exfalso. apply Hac.
  set (R := fun i j => j ∈ targets cs i).
  destruct (successors_cycle R (fun i => orderable cs i /\ i ∉ order) (seq 0 n) x) as [y Hy].
  - intros i [[? _] _]. apply elem_of_seq. lia.
  - done.
  - intros i [[Hil Ho] Hio].
    destruct (decide (Forall (fun u => u ∈ order) (targets cs i))) as [Hall|Hex].
    + exfalso. apply Hio, Hr. split; [done|]. apply unmet_met; [done|by apply Ho|].
      by intros u Hu; rewrite Forall_forall in Hall; apply Hall.
    + apply not_Forall_Exists in Hex; [|apply _]. apply Exists_exists in Hex as (u & Hu & Hno).
      exists u. split; [|done]. split; [|done]. split; [by eapply targets_lt|]. intros j Hj. apply Ho. by eapply rtc_l.
  - assert (exists a, name_index cs !! a = Some y) as [a Ha].
    { revert Hy. generalize y at 1. intros x0 Hy. induction Hy as [? ? Hr'|]; [by eapply targets_named|done]. }
    destruct (targets_tc _ _ Hy a Ha) as (b & Hb & Ht). exists a.
    by rewrite (name_index_inj _ _ _ Hb Ha) in Ht.
Qed.

Lemma topo_sort_spec `{HeapPick} :
  (cyclic cs -> topo_sort cs = Some (- ELOOP, [])) /\
  (~ cyclic cs -> exists order, topo_sort cs = Some (0, order) /\ NoDup order /\ order ⊆ seq 0 n /\
     deps_before cs order /\ least_first cs order /\
     (forall i, i ∈ order <-> orderable cs i)).
Proof.
  unfold topo_sort. pose proof any_cycle_exact as Hc. fold n. destruct (any_cycle _ _ _ _) as [[]|]; [| |done].
  - split; [done|]. intros Hno. exfalso. by apply Hno, Hc.
  - split; [by intros H'%Hc|]. intros Hno.
    destruct (kahn_spec (S n) _ _ _ kahn_inv_init ltac:(simpl; lia)) as (indeg & order & -> & Hi).
    exists order. split; [done|]. pose proof (ki_nodup _ _ _ Hi) as Hnd. rewrite app_nil_r in Hnd.
    split; [done|]. split; [|split; [|split]].
    + intros i Hin. apply elem_of_seq.
      destruct (proj1 (ki_ready _ _ _ Hi i)) as [? _]; [by rewrite app_nil_r|lia].
    + by eapply ki_deps.
    + by eapply ki_least.
    + intros i. split; [by eapply kahn_orderable|]. by eapply kahn_all.
Qed.
End OrderLemmas.

Lemma acyclic_by_search cs : any_cycle cs (S (length cs)) cs (∅, ∅) = Some false -> ~ cyclic cs.
Proof. intros H Hc. pose proof (any_cycle_exact cs) as He. rewrite H in He. by apply He in Hc. Qed.

(** ** Plug-ins and what the dynamic linker answers *)
Section Loader.
Context {W : Type}.

(** [struct module] of module_loader.h; [None] is a null pointer. *)
Record module := Module_ {
  m_name : option string;
  m_load_priority : Z;
  m_depends : option (list string);
  m_init : option (W -> Z * W);
  m_exit : option (W -> W);
}.

(** [dlopen] fails, or succeeds and [dlsym "mod"] is null or an object. *)
Inductive dl_answer :=
  | DlFails
  | DlNoSymbol
  | DlModule (m : module).

Context (dlopen_mod : string -> dl_answer).

(** ** Scanning a directory *)
Definition dot : Ascii.ascii := Ascii.ascii_of_nat 46.
  (** The text after the last dot of a file name, the dot included;
      a leading dot does not count. *)
Fixpoint extension_from (s : string) : option string :=
  match s with
  | EmptyString => None
  | String a r =>
      match extension_from r with
      | Some e => Some e
      | None => if Ascii.eqb a dot then Some s else None
      end
  end.
Definition extension (filename : string) : string :=
  match filename with
  | EmptyString => EmptyString
  | String _ r => if bool_decide (filename = "..") then EmptyString else default EmptyString (extension_from r)
  end.

(** One entry of the directory: its path and file name. *)
Definition scan_entry (entry : string * string) : list Candidate :=
    let '(path, filename) := entry in
    if negb (bool_decide (extension filename = ".so")) then []
    else if negb (String.prefix "plugin_" filename) then []
    else match dlopen_mod path with
         | DlFails => []
         | DlNoSymbol => []
         | DlModule m =>
             match m_name m with
             | None => []
             | Some name =>
                 [Candidate_ path name (m_load_priority m) (default [] (m_depends m))]
             end
         end.
  (** [entries] is [None] when the directory does not exist. *)
Definition scan_candidates (entries : option (list (string * string))) : option (list Candidate) :=
  match entries with
  | None => None
  | Some es => Some (concat (map scan_entry es))
  end.

(** ** Loaded plug-ins *)
(** [PluginInfo]: the handle is an open of [pi_path]. *)
Record PluginInfo := PluginInfo_ {
  pi_path : string;
  pi_mod : module;
  pi_ref_count : Z;
}.
#[global] Instance eta_PluginInfo : Eta PluginInfo := fun r => PluginInfo_ (pi_path r) (pi_mod r) (pi_ref_count r).

(** [loaded_plugins_], the handles the process holds (one entry per open), and
    the rest of the process. *)
Record loader := Loader_ {
  loaded : gmap string PluginInfo;
  opens : list string;
  world : W;
}.
#[global] Instance eta_loader : Eta loader := fun r => Loader_ (loaded r) (opens r) (world r).

Definition increase_ref (name : string) (m : gmap string PluginInfo) : gmap string PluginInfo :=
  alter (fun info => info <| pi_ref_count ::= Z.add 1 |>) name m.

(** The loop stops at the first dependency that is not loaded; the counts
    raised before it stay raised. *)
Fixpoint resolve_dependencies (ds : list string) (m : gmap string PluginInfo) : Z * gmap string PluginInfo :=
  match ds with
  | [] => (0, m)
  | d :: ds =>
      match m !! d with
      | None => (-1, m)
      | Some _ => resolve_dependencies ds (increase_ref d m)
      end
  end.

Definition dlclose (path : string) (st : loader) : loader := st <| opens ::= remove_one path |>.

Definition decrease_ref (name : string) (st : loader) : loader :=
  match loaded st !! name with
  | None => st
  | Some info =>
      let r := pi_ref_count info - 1 in
      if r <=? 0 then
        let st := match m_exit (pi_mod info) with
                  | Some ex => st <| world ::= ex |>
                  | None => st
                  end in
        dlclose (pi_path info) st <| loaded ::= delete name |>
      else st <| loaded ::= <[name := info <| pi_ref_count := r |>]> |>
  end.

(** [None]: a null [mod->name] is dereferenced. *)
Definition load_plugin (path : string) (st : loader) : option (Z * loader) :=
  match dlopen_mod path with
  | DlFails => Some (-1, st)
  | DlNoSymbol => Some (-1, dlclose path (st <| opens ::= cons path |>))
  | DlModule m =>
      let st := st <| opens ::= cons path |> in
      match m_name m with
      | None => None
      | Some name =>
          match loaded st !! name with
          | Some _ => Some (0, dlclose path (st <| loaded ::= increase_ref name |>))
          | None =>
              let '(rc, l) := resolve_dependencies (default [] (m_depends m)) (loaded st) in
              let st := st <| loaded := l |> in
              if negb (rc =? 0) then Some (-1, dlclose path st)
              else
                let '(irc, w) := match m_init m with Some f => f (world st) | None => (0, world st) end in
                let st := st <| world := w |> in
                if negb (irc =? 0) then Some (-1, dlclose path st)
                else Some (0, st <| loaded ::= <[name := PluginInfo_ path m 0]> |>)
          end
      end
  end.

(** The loop over the load order; what [load_plugin] returns is only logged. *)
Fixpoint load_in_order (cs : list Candidate) (order : list nat) (st : loader) : option loader :=
  match order with
  | [] => Some st
  | i :: order =>
      match cs !! i with
      | None => None
      | Some c =>
          match load_plugin (c_path c) st with
          | None => None
          | Some (_, st) => load_in_order cs order st
          end
      end
  end.

Definition load_plugins `{HeapPick} (entries : option (list (string * string))) (st : loader) : option (Z * loader) :=
  match scan_candidates entries with
  | None => Some (-1, st)
  | Some cs =>
      match topo_sort cs with
      | None => None
      | Some (rc, order) =>
          if negb (rc =? 0) then Some (rc, st)
          else match load_in_order cs order st with
               | None => None
               | Some st => Some (0, st)
               end
      end
  end.

(** [names]: the keys of [loaded_plugins_] in the order of the hash table. *)
Definition unload_plugins (names : list string) (st : loader) : loader :=
  foldl (fun st name => decrease_ref name st) st names.
Definition unload_plugin (name : string) (st : loader) : Z * loader :=
  match loaded st !! name with
  | None => (-1, st)
  | Some _ => (0, decrease_ref name st)
  end.
Definition plugin_ref_count (name : string) (st : loader) : Z :=
  match loaded st !! name with
  | None => -1
  | Some info => pi_ref_count info
  end.

(** ** The plug-in manager
    It keeps a table of its own and resolves dependencies in the loader's. *)
Definition pm_load_plugin (exists_ : bool) (path : string) (plugins : gmap string PluginInfo) (st : loader)
  : option (Z * gmap string PluginInfo * loader) :=
  if negb exists_ then Some (-1, plugins, st)
  else match dlopen_mod path with
  | DlFails => Some (-1, plugins, st)
  | DlNoSymbol => Some (-1, plugins, dlclose path (st <| opens ::= cons path |>))
  | DlModule m =>
      let st := st <| opens ::= cons path |> in
      match m_name m with
      | None => None
      | Some name =>
          let '(rc, l) := resolve_dependencies (default [] (m_depends m)) (loaded st) in
          let st := st <| loaded := l |> in
          if negb (rc =? 0) then Some (-1, plugins, dlclose path st)
          else
            let plugins := <[name := PluginInfo_ path m 0]> plugins in
            let '(irc, w) := match m_init m with Some f => f (world st) | None => (0, world st) end in
            let st := st <| world := w |> in
            if negb (irc =? 0) then Some (-1, delete name plugins, dlclose path st)
            else Some (0, plugins, st)
      end
  end.
Definition pm_unload_plugin (name : string) (plugins : gmap string PluginInfo) (st : loader)
  : Z * gmap string PluginInfo * loader :=
  match plugins !! name with
  | None => (-1, plugins, st)
  | Some info =>
      if 0 <? pi_ref_count info then (-1, plugins, st)
      else
        let st := match m_exit (pi_mod info) with Some ex => st <| world ::= ex |> | None => st end in
        (0, delete name plugins, dlclose (pi_path info) st)
  end.

(** ** The module class of module.h
    Its own [loaded] flag; what [init] returns is not looked at. *)
Definition kmodule_load (init : option (W -> Z * W)) (s : bool * W) : Z * (bool * W) :=
  if s.1 then (0, s)
  else (0, (true, match init with Some f => (f s.2).2 | None => s.2 end)).
Definition kmodule_unload (ex : option (W -> W)) (s : bool * W) : bool * W :=
  if negb s.1 then s
  else (false, match ex with Some f => f s.2 | None => s.2 end).
End Loader.

(** ** Theorems *)
Section LoaderProps.
Context {W : Type} (dlopen_mod : string -> @dl_answer W).
Implicit Types (m : gmap string (@PluginInfo W)) (st : @loader W).

(** Paths of the handles the table holds. *)
Definition held m : list string := (fun ni => pi_path ni.2) <$> map_to_list m.

(** The process holds exactly the handles of the table, and each entry is the
    module its path has, under its own name. *)
Record loader_wf st : Prop := {
  lw_opens : opens st ≡ₚ held (loaded st);
  lw_info name info : loaded st !! name = Some info ->
    dlopen_mod (pi_path info) = DlModule (pi_mod info) /\
    m_name (pi_mod info) = Some name /\ 0 <= pi_ref_count info
}.

Lemma held_insert m name info : m !! name = None -> held (<[name := info]> m) ≡ₚ pi_path info :: held m.
Proof. intros H. unfold held. by rewrite map_to_list_insert. Qed.
Lemma held_delete m name info : m !! name = Some info -> held m ≡ₚ pi_path info :: held (delete name m).
Proof.
  intros H. rewrite <- (insert_delete_id m name info H) at 1.
  apply held_insert. apply lookup_delete_eq.
Qed.
Lemma held_update m name info info' :
  m !! name = Some info -> pi_path info' = pi_path info -> held (<[name := info']> m) ≡ₚ held m.
Proof.
  intros H Hp. rewrite (held_delete m name info H), <- insert_delete_eq, <- Hp.
  apply held_insert. apply lookup_delete_eq.
Qed.

Lemma lookup_increase_ref name x m :
  increase_ref name m !! x = (if decide (x = name) then fun info => info <| pi_ref_count ::= Z.add 1 |> else id) <$> m !! x.
Proof.
  unfold increase_ref. case_decide as H; [subst; by rewrite lookup_alter_eq|].
  rewrite lookup_alter_ne by congruence. by destruct (m !! x).
Qed.

Lemma held_increase_ref name m : held (increase_ref name m) ≡ₚ held m.
Proof.
  unfold increase_ref. destruct (m !! name) as [info|] eqn:E.
  - replace (alter _ name m) with (<[name := info <| pi_ref_count ::= Z.add 1 |>]> m); [by eapply held_update|].
    apply map_eq. intros x. destruct (decide (x = name)) as [->|].
    + by rewrite lookup_insert_eq, lookup_alter_eq, E.
    + by rewrite lookup_insert_ne, lookup_alter_ne.
  - replace (alter _ name m) with m; [done|]. apply map_eq. intros x.
    destruct (decide (x = name)) as [->|]; [by rewrite lookup_alter_eq, E|by rewrite lookup_alter_ne].
Qed.

(** Raising counts changes nothing the invariant speaks of. *)
Definition same_but_counts m m' : Prop :=
  held m' ≡ₚ held m /\
  forall name info', m' !! name = Some info' -> exists info, m !! name = Some info /\
    pi_path info' = pi_path info /\ pi_mod info' = pi_mod info /\ pi_ref_count info <= pi_ref_count info'.
Lemma same_but_counts_refl m : same_but_counts m m.
Proof. split; [done|]. intros name info' H. by exists info'. Qed.
Lemma same_but_counts_increase name m m' : same_but_counts m m' -> same_but_counts m (increase_ref name m').
Proof.
  intros [Hh Hi]. split; [by rewrite held_increase_ref|].
  intros x info'. rewrite lookup_increase_ref. intros (i0 & (info & ? & ? & ? & ?)%Hi & ->)%fmap_Some.
  exists info. case_decide; simpl; repeat split; try done. lia.
Qed.
Lemma same_but_counts_resolve ds m m' : same_but_counts m m' -> same_but_counts m (resolve_dependencies ds m').2.
Proof.
  revert m'. induction ds as [|d ds IH]; intros m' H; simpl; [done|].
  destruct (m' !! d); simpl; [|done]. by apply IH, same_but_counts_increase.
Qed.
Lemma wf_same_but_counts st l : loader_wf st -> same_but_counts (loaded st) l -> loader_wf (st <| loaded := l |>).
Proof.
  intros [Ho Hi] [Hh Hs]. split; simpl; [by rewrite Ho, Hh|].
  intros name info' (info & Hx & -> & -> & Hr)%Hs. destruct (Hi _ _ Hx) as (? & ? & ?). repeat split; try done. lia.
Qed.
Lemma wf_world st w : loader_wf st -> loader_wf (st <| world := w |>).
Proof. intros [Ho Hi]. by split. Qed.

(** Opening and closing a handle leaves the state as it was. *)
Lemma remove_one_hd path (l : list string) : remove_one path (path :: l) = l.
Proof. simpl. by rewrite bool_decide_eq_true_2. Qed.
Lemma dlclose_opens path st l : opens st = path :: l -> dlclose path st = st <| opens := l |>.
Proof.
  destruct st as [m o w]. intros [= ->]. change (dlclose path (Loader_ m (path :: l) w))
    with (Loader_ m (remove_one path (path :: l)) w). by rewrite remove_one_hd.
Qed.

Lemma wf_load_plugin path st rc st' :
  loader_wf st -> load_plugin dlopen_mod path st = Some (rc, st') -> loader_wf st'.
Proof.
  intros Hwf. unfold load_plugin. destruct (dlopen_mod path) as [| |m] eqn:Em.
  - by intros [= _ <-].
  - intros [= _ <-]. erewrite dlclose_opens by done. by destruct st.
  - destruct (m_name m) as [name|] eqn:En; [|done]. simpl. destruct (loaded st !! name) as [info|] eqn:El.
    + intros [= _ <-]. apply (wf_same_but_counts st (increase_ref name (loaded st))) in Hwf;
        [|apply same_but_counts_increase, same_but_counts_refl].
      erewrite dlclose_opens by done. by destruct st.
    + pose proof (same_but_counts_resolve (default [] (m_depends m)) _ _ (same_but_counts_refl (loaded st))) as Hs.
      destruct (resolve_dependencies _ _) as [rc' l] eqn:Er. simpl in Hs.
      pose proof (wf_same_but_counts _ _ Hwf Hs) as Hwf'.
      destruct (negb (rc' =? 0)); [intros [= _ <-]; erewrite dlclose_opens by done; by destruct st|].
      set (iw := match m_init m with Some f => _ | None => _ end). destruct iw as [irc w].
      apply (wf_world _ w) in Hwf'.
      destruct (negb (irc =? 0)); [intros [= _ <-]; erewrite dlclose_opens by done; by destruct st|].
      intros [= _ <-]. assert (l !! name = None) as Hl.
      { destruct (l !! name) as [i|] eqn:E; [|done]. apply Hs in E as (? & ? & _). congruence. }
      destruct Hwf' as [Ho Hi]. split; simpl in *.
      * rewrite held_insert by done. simpl. by rewrite Ho.
      * intros x info. rewrite lookup_insert. case_decide; [|apply Hi]. intros [= <-]. subst. simpl. done.
Qed.

Lemma wf_decrease_ref name st : loader_wf st -> loader_wf (decrease_ref name st).
Proof.
  intros Hwf. unfold decrease_ref. destruct (loaded st !! name) as [info|] eqn:E; [|done].
  destruct Hwf as [Ho Hi]. destruct (Z.leb_spec (pi_ref_count info - 1) 0).
  - assert (remove_one (pi_path info) (opens st) ≡ₚ held (delete name (loaded st))) as Ho'.
    { apply (Permutation_cons_inv (a := pi_path info)). rewrite <- held_delete by done. rewrite <- Ho.
      symmetry. apply remove_one_perm. rewrite Ho, (held_delete _ _ _ E). by left. }
    split; [by destruct (m_exit (pi_mod info))|]. intros x i Hx. apply (Hi x i).
    assert (delete name (loaded st) !! x = Some i) as Hd by (destruct (m_exit (pi_mod info)); exact Hx).
    by apply lookup_delete_Some in Hd as [_ ?].
  - split; simpl.
    + by rewrite (held_update _ _ info).
    + intros x i. rewrite lookup_insert. case_decide; [|apply Hi]. intros [= <-]. subst. simpl.
      destruct (Hi _ _ E) as (? & ? & ?). repeat split; try done. lia.
Qed.

Lemma wf_load_in_order cs order st st' :
  loader_wf st -> load_in_order dlopen_mod cs order st = Some st' -> loader_wf st'.
Proof.
  revert st. induction order as [|i order IH]; intros st Hwf; simpl; [by intros [= <-]|].
  destruct (cs !! i); [|done]. destruct (load_plugin _ _ _) as [[rc st1]|] eqn:E; [|done].
  apply IH. by eapply wf_load_plugin.
Qed.
Lemma wf_unload_plugins names st : loader_wf st -> loader_wf (unload_plugins names st).
Proof. revert st. induction names; intros st H; simpl; [done|]. by apply IHnames, wf_decrease_ref. Qed.

(** *** Loading a whole directory *)
(** How many of [done] list [name] among their dependencies. *)
Definition dependants (done : list Candidate) (name : string) : Z :=
    Z.of_nat (length (List.filter (fun c => bool_decide (name ∈ c_depends c)) done)).
  (** The table holds exactly [done], each with the number of its dependants,
      and everything they depend on. *)
Record loaded_exactly (done : list Candidate) m : Prop := {
  le_entry c : c ∈ done -> exists md, dlopen_mod (c_path c) = DlModule md /\
    m !! c_name c = Some (PluginInfo_ (c_path c) md (dependants done (c_name c)));
  le_only name : is_Some (m !! name) -> name ∈ map c_name done;
  le_closed c : c ∈ done -> c_depends c ⊆ map c_name done
}.
  (** What scanning found out about a candidate. *)
Definition candidate_of (c : Candidate) : Prop :=
    exists md, dlopen_mod (c_path c) = DlModule md /\ m_name md = Some (c_name c) /\ default [] (m_depends md) = c_depends c.
  (** [init] of the module at a path. *)
Definition init_at (path : string) (w : W) : Z * W :=
  match dlopen_mod path with
  | DlModule md => match m_init md with Some f => f w | None => (0, w) end
  | _ => (0, w)
  end.
Definition run_init (w : W) (c : Candidate) : W := (init_at (c_path c) w).2.

Lemma scan_candidate_of es cs c : scan_candidates dlopen_mod (Some es) = Some cs -> c ∈ cs -> candidate_of c.
Proof.
  intros [= <-] Hc. apply list_elem_of_In, in_concat in Hc as (l & ([path fname] & <- & _)%in_map_iff & Hc).
  unfold scan_entry in Hc. repeat case_match; simpl in Hc; try done. destruct Hc as [<-|[]]. by exists m.
Qed.

Lemma resolve_all ds m :
  NoDup ds -> (forall d, d ∈ ds -> is_Some (m !! d)) ->
  exists l, resolve_dependencies ds m = (0, l) /\
    forall x, l !! x = (if decide (x ∈ ds) then fun info => info <| pi_ref_count ::= Z.add 1 |> else id) <$> m !! x.
Proof.
  revert m. induction ds as [|d ds IH]; intros m Hnd Hds; simpl.
  - exists m. split; [done|]. intros x. by rewrite option_fmap_id.
  - apply NoDup_cons in Hnd as [Hd Hnd]. destruct (Hds d ltac:(left)) as [info ->].
    destruct (IH (increase_ref d m) Hnd) as (l & Hl & Hx).
    { intros e He. rewrite lookup_increase_ref. apply fmap_is_Some, Hds. by right. }
    exists l. split; [done|]. intros x. rewrite Hx, lookup_increase_ref.
    destruct (m !! x); repeat case_decide; simpl; try done; set_solver.
Qed.

Lemma dependants_snoc done c name :
  dependants (done ++ [c]) name = (if bool_decide (name ∈ c_depends c) then 1 else 0) + dependants done name.
Proof. unfold dependants. rewrite List.filter_app, length_app. simpl. case_bool_decide; simpl; lia. Qed.

Lemma dependants_perm done done' name : done ≡ₚ done' -> dependants done name = dependants done' name.
Proof.
  unfold dependants. intros H. f_equal. apply Permutation_length.
  induction H as [|c l l' _ IH|c c' l|l l' l'' _ IH1 _ IH2]; simpl; [done|..].
  - case_match; [by apply perm_skip|done].
  - repeat case_match; try done. apply perm_swap.
  - by etransitivity.
Qed.

Lemma load_one done c st :
  candidate_of c -> loaded_exactly done (loaded st) -> c_name c ∉ map c_name done ->
  NoDup (c_depends c) -> c_depends c ⊆ map c_name done -> (init_at (c_path c) (world st)).1 = 0 ->
  exists st', load_plugin dlopen_mod (c_path c) st = Some (0, st') /\
    loaded_exactly (done ++ [c]) (loaded st') /\ world st' = run_init (world st) c.
Proof.
  intros (md & Hd & Hn & Hdep) Hle Hnew Hnd Hsub Hinit.
  unfold load_plugin, run_init, init_at in *. rewrite Hd, Hn in *. simpl.
  destruct (loaded st !! c_name c) as [info|] eqn:E.
  { exfalso. apply Hnew, (le_only _ _ Hle). by rewrite E. }
  destruct (resolve_all (c_depends c) (loaded st) Hnd) as (l & Hl & Hx).
  { intros d (c' & -> & Hc')%Hsub%list_elem_of_fmap. destruct (le_entry _ _ Hle c' Hc') as (md' & _ & ->). done. }
  rewrite Hdep, Hl. simpl. change (world (st <| opens ::= cons (c_path c) |> <| loaded := l |>)) with (world st).
  set (iw := match m_init md with Some f => f (world st) | None => (0, world st) end) in *.
  destruct iw as [irc w]. simpl in Hinit. subst irc. simpl. eexists. split; [done|]. split; [|done].
  assert (c_name c ∉ c_depends c) as Hself by (by intros H%Hsub).
  assert (dependants done (c_name c) = 0) as Hzero.
  { unfold dependants. replace (List.filter _ done) with (@nil Candidate); [done|]. symmetry.
    apply length_zero_iff_nil. destruct (List.filter _ done) as [|c' r] eqn:Ef; [done|]. exfalso.
    assert (c' ∈ List.filter (fun c0 => bool_decide (c_name c ∈ c_depends c0)) done) as [Hc' Hb]%filter_In_iff
      by (rewrite Ef; by left).
    apply bool_decide_eq_true in Hb. by apply Hnew, (le_closed _ _ Hle c' Hc'). }
  split; simpl.
  - intros c' [Hc'| ->%list_elem_of_singleton]%elem_of_app.
    + destruct (le_entry _ _ Hle c' Hc') as (md' & Hd' & Hm'). exists md'. split; [done|].
      rewrite lookup_insert_ne; [|by intros Heq; apply Hnew; rewrite Heq; apply list_elem_of_fmap_2].
      rewrite Hx, Hm', dependants_snoc. simpl. case_decide; [rewrite bool_decide_eq_true_2 by done|rewrite bool_decide_eq_false_2 by done]; done.
    + exists md. split; [done|]. rewrite lookup_insert_eq, dependants_snoc, Hzero.
      by rewrite bool_decide_eq_false_2.
  - intros name. rewrite lookup_insert, map_app. case_decide as Hc; [subst; set_solver|].
    rewrite Hx, fmap_is_Some. intros H%(le_only _ _ Hle). apply elem_of_app. by left.
  - intros c' Hc' d Hd'. rewrite map_app. apply elem_of_app. left.
    apply elem_of_app in Hc' as [Hc'| ->%list_elem_of_singleton]; [by apply (le_closed _ _ Hle c')|by apply Hsub].
Qed.

Definition picked (cs : list Candidate) (order : list nat) : list Candidate := omap (fun i => cs !! i) order.
Lemma picked_prefix cs cs' l : (forall i, i ∈ l -> (i < length cs)%nat) -> picked (cs ++ cs') l = picked cs l.
Proof.
  unfold picked. induction l as [|i l IH]; intros Hl; [done|]. cbn. rewrite lookup_app_l by (apply Hl; by left).
  destruct (cs !! i); [f_equal|]; apply IH; intros; apply Hl; by right.
Qed.
Lemma picked_all cs order : order ≡ₚ seq 0 (length cs) -> picked cs order ≡ₚ cs.
Proof.
  intros H. unfold picked. rewrite H. clear H. fold (picked cs (seq 0 (length cs))).
  induction cs as [|c cs IH] using rev_ind; [done|].
  rewrite length_app, Nat.add_1_r, seq_S. unfold picked. rewrite omap_app. apply Permutation_app.
  - fold (picked (cs ++ [c]) (seq 0 (length cs))). rewrite picked_prefix; [done|].
    intros i ?%elem_of_seq. lia.
  - cbn. by rewrite lookup_app_r, Nat.sub_diag by done.
Qed.

Lemma picked_lookup cs order k :
  order ⊆ seq 0 (length cs) ->
  picked cs order !! k = (order !! k ≫= fun i => cs !! i) /\ take k (picked cs order) = picked cs (take k order).
Proof.
  unfold picked. revert k. induction order as [|i order IH]; intros k Hsub; [by destruct k|].
  assert (i ∈ seq 0 (length cs)) as Hi by (apply Hsub; by left). apply elem_of_seq in Hi.
  destruct (lookup_lt_is_Some_2 cs i ltac:(lia)) as [c Hc]. cbn. rewrite Hc.
  destruct k as [|k]; cbn; rewrite ?Hc; [done|].
  destruct (IH k) as [H1 H2]; [set_solver|]. split; [apply H1|]. f_equal. apply H2.
Qed.

Lemma targets_unique cs i : (forall c, c ∈ cs -> NoDup (c_depends c)) -> NoDup (targets cs i).
Proof.
  intros H. unfold targets. destruct (cs !! i) as [c|] eqn:E; [|constructor].
  specialize (H c ltac:(by eapply list_elem_of_lookup_2)). revert H. generalize (c_depends c). clear E c.
  induction l as [|d l IH]; [constructor|]. intros [Hd Hl]%NoDup_cons. cbn.
  destruct (name_index cs !! d) as [j|] eqn:Ej; [|by apply IH]. constructor; [|by apply IH].
  intros (e & He & Hej)%list_elem_of_omap. by rewrite (name_index_inj _ _ _ _ Ej Hej) in Hd.
Qed.

Lemma unique_orders_all cs order : NoDup order -> (forall i, i ∈ order <-> orderable cs i) ->
  (forall c, c ∈ cs -> NoDup (c_depends c)) -> order ≡ₚ seq 0 (length cs).
Proof.
  intros Hnd Ho Hu. apply NoDup_Permutation; [done|apply NoDup_seq|]. intros i. rewrite Ho, elem_of_seq.
  split; [intros [? _]; lia|]. intros Hi. split; [lia|]. intros j _. by apply targets_unique.
Qed.

Section Directory.
Context (cs : list Candidate).
  Hypothesis Hcand : forall c, c ∈ cs -> candidate_of c.
  Hypothesis Hnames : NoDup (map c_name cs).
  Hypothesis Hunique : forall c, c ∈ cs -> NoDup (c_depends c).
  Hypothesis Hinternal : forall c, c ∈ cs -> c_depends c ⊆ map c_name cs.
  Hypothesis Hinit : forall c w, c ∈ cs -> (init_at (c_path c) w).1 = 0.

Lemma picked_in order c : c ∈ picked cs order -> exists i, i ∈ order /\ cs !! i = Some c.
  Proof. intros (i & ? & ?)%list_elem_of_omap. by exists i. Qed.
Lemma same_name i j c c' : cs !! i = Some c -> cs !! j = Some c' -> c_name c = c_name c' -> i = j.
  Proof.
    intros Hi Hj He. eapply (NoDup_lookup (map c_name cs)); [done| |].
    - by rewrite list_lookup_fmap, Hi.
    - rewrite list_lookup_fmap, Hj. simpl. by rewrite He.
  Qed.
  (** In an order that puts dependencies first, they are there by name. *)
Lemma deps_picked order k i c :
    deps_before cs order -> order !! k = Some i -> cs !! i = Some c ->
    c_depends c ⊆ map c_name (picked cs (take k order)).
  Proof.
    intros Hb Hk Hi d Hd. assert (c ∈ cs) as Hc by (by eapply list_elem_of_lookup_2).
    apply Hinternal in Hd as Hin; [|done]. apply list_elem_of_fmap in Hin as (c' & -> & Hc').
    destruct (name_index_total cs c' Hc') as [j Hj].
    assert (j ∈ targets cs i) as Ht by (unfold targets; rewrite Hi; apply list_elem_of_omap; by exists (c_name c')).
    apply (Hb k i j Hk) in Ht. apply name_index_spec in Hj as (c'' & Hj & <-).
    apply list_elem_of_fmap_2, list_elem_of_omap. by exists j.
  Qed.

Lemma load_in_order_all post pre st :
      NoDup (pre ++ post) -> deps_before cs (pre ++ post) -> pre ++ post ⊆ seq 0 (length cs) ->
      loaded_exactly (picked cs pre) (loaded st) ->
      exists st', load_in_order dlopen_mod cs post st = Some st' /\
        loaded_exactly (picked cs (pre ++ post)) (loaded st') /\
        world st' = foldl run_init (world st) (picked cs post).
    Proof.
      revert pre st. induction post as [|i post IH]; intros pre st Hnd Hb Hsub Hle; simpl.
      - exists st. by rewrite app_nil_r.
      - assert (i ∈ seq 0 (length cs)) as Hi by (apply Hsub; set_solver). apply elem_of_seq in Hi.
        destruct (lookup_lt_is_Some_2 cs i ltac:(lia)) as [c Hc]. rewrite Hc.
        assert (c ∈ cs) as Hcc by (by eapply list_elem_of_lookup_2).
        assert (picked cs (pre ++ [i]) = picked cs pre ++ [c]) as Hp by (unfold picked; rewrite omap_app; cbn; by rewrite Hc).
        destruct (load_one (picked cs pre) c st) as (st1 & -> & Hle1 & Hw); try by auto.
        { intros (c' & He & (j & Hj & Hcj)%picked_in)%list_elem_of_fmap.
          pose proof (same_name _ _ _ _ Hc Hcj He) as ->. apply NoDup_app in Hnd as (_ & Hd & _).
          apply (Hd j Hj). by left. }
        { pose proof (deps_picked (pre ++ i :: post) (length pre) i c Hb) as H. rewrite take_app_length in H.
          apply H; [|done]. by rewrite list_lookup_middle. }
        rewrite <- Hp in Hle1.
        assert (pre ++ i :: post = (pre ++ [i]) ++ post) as Happ by (by rewrite <- app_assoc). rewrite Happ in *.
        destruct (IH (pre ++ [i]) st1 Hnd Hb Hsub Hle1) as (st' & -> & Hle' & Hw').
        exists st'. split; [done|]. split; [done|]. rewrite Hw', Hw. done.
    Qed.
  End Directory.

(** *** Sequences of calls *)
Inductive loader_call :=
  | CallLoad (path : string)
  | CallLoadPlugins (entries : option (list (string * string)))
  | CallUnload (name : string)
  | CallUnloadPlugins (names : list string).
Definition loader_step `{HeapPick} (st : @loader W) (c : loader_call) : option (@loader W) :=
  match c with
  | CallLoad path => option_map snd (load_plugin dlopen_mod path st)
  | CallLoadPlugins entries => option_map snd (load_plugins dlopen_mod entries st)
  | CallUnload name => Some (unload_plugin name st).2
  | CallUnloadPlugins names => Some (unload_plugins names st)
  end.
Definition loader_run `{HeapPick} (calls : list loader_call) (st : @loader W) : option (@loader W) :=
  foldl (fun o c => o ≫= fun st => loader_step st c) (Some st) calls.

Lemma wf_loader_step `{HeapPick} st c st' : loader_wf st -> loader_step st c = Some st' -> loader_wf st'.
Proof.
  intros Hwf. destruct c as [path|entries|name|names]; simpl.
  - destruct (load_plugin _ _ _) as [[rc s]|] eqn:E; [|done]. intros [= <-]. by eapply wf_load_plugin.
  - unfold load_plugins. destruct (scan_candidates _ _) as [cs|]; [|by intros [= <-]].
    destruct (topo_sort cs) as [[rc order]|]; [|done]. case_match; [by intros [= <-]|].
    destruct (load_in_order _ _ _ _) as [s|] eqn:E; [|done]. intros [= <-]. by eapply wf_load_in_order.
  - intros [= <-]. unfold unload_plugin. case_match; [|done]. by apply wf_decrease_ref.
  - intros [= <-]. by apply wf_unload_plugins.
Qed.

(** One pass of [unload_plugins] takes one off each count. *)
Lemma unload_plugins_spec names st x :
  NoDup names ->
  loaded (unload_plugins names st) !! x =
    if decide (x ∈ names) then
      loaded st !! x ≫= fun info => if pi_ref_count info - 1 <=? 0 then None
                                    else Some (info <| pi_ref_count := pi_ref_count info - 1 |>)
    else loaded st !! x.
Proof.
  assert (forall name st, loaded (decrease_ref name st) !! x =
    if decide (x = name) then
      loaded st !! x ≫= fun info => if pi_ref_count info - 1 <=? 0 then None
                                    else Some (info <| pi_ref_count := pi_ref_count info - 1 |>)
    else loaded st !! x) as Hone.
  { clear. intros name st. unfold decrease_ref. destruct (loaded st !! name) as [info|] eqn:E.
    - destruct (Z.leb_spec (pi_ref_count info - 1) 0) as [Hr|Hr].
      + replace (loaded _) with (delete name (loaded st)) by (by destruct (m_exit (pi_mod info))).
        case_decide; [subst; rewrite lookup_delete_eq, E; simpl; by rewrite (proj2 (Z.leb_le _ _) Hr)|by rewrite lookup_delete_ne].
      + simpl. case_decide; [subst; rewrite lookup_insert_eq, E; simpl; by rewrite (proj2 (Z.leb_gt _ _) Hr)|by rewrite lookup_insert_ne].
    - case_decide; [subst; by rewrite E|done]. }
  revert st. induction names as [|name names IH]; intros st Hnd; [done|].
  apply NoDup_cons in Hnd as [Hn Hnd]. simpl. rewrite IH, Hone by done.
  destruct (decide (x = name)) as [->|Hne].
  - rewrite decide_False by done. by rewrite decide_True by (by left).
  - destruct (decide (x ∈ names)); [by rewrite decide_True by (by right)|].
    by rewrite decide_False by (by intros [?|?]%elem_of_cons).
Qed.
End LoaderProps.

(** A heap that gives the first of the least. *)
Fixpoint first_min (prio : nat -> Z) (x : nat) (l : list nat) : nat :=
  match l with
  | [] => x
  | y :: l => first_min prio (if prio y <? prio x then y else x) l
  end.
Lemma first_min_spec prio x l :
  first_min prio x l ∈ x :: l /\ forall v, v ∈ x :: l -> prio (first_min prio x l) <= prio v.
Proof.
  revert x. induction l as [|y l IH]; intros x; simpl.
  - split; [by left|]. by intros v ->%list_elem_of_singleton.
  - destruct (Z.ltb_spec (prio y) (prio x)) as [Hlt|Hge].
    + destruct (IH y) as [Hin Hle]. split; [by right|].
      intros v [->|Hv]%elem_of_cons; [|by apply Hle]. specialize (Hle y ltac:(by left)). lia.
    + destruct (IH x) as [Hin Hle]. split; [apply elem_of_cons in Hin as [->|]; [by left|by do 2 right]|].
      intros v [->|[->|Hv]%elem_of_cons]%elem_of_cons; [apply Hle; by left| |apply Hle; by right].
      specialize (Hle x ltac:(by left)). lia.
Qed.
Definition first_min_pick (prio : nat -> Z) (before pq : list nat) : nat :=
  match pq with [] => O | x :: l => first_min prio x l end.
Lemma first_min_pick_spec prio before pq : pq <> [] ->
  first_min_pick prio before pq ∈ pq /\ forall v, v ∈ pq -> prio (first_min_pick prio before pq) <= prio v.
Proof. destruct pq as [|x l]; [done|]. intros _. apply first_min_spec. Qed.
Definition first_min_heap : HeapPick := {| heap_pick := first_min_pick; heap_pick_spec := first_min_pick_spec |}.

(** C8. Ordering the candidates always comes to an end.  With a dependency
  cycle the answer is -ELOOP; without one, the order lists once each candidate
  of which neither itself nor anything it depends on, in any number of steps,
  names a candidate twice, and no other; each is after all the candidates it
  depends on and in its turn of least priority number among those that could be
  loaded.  So it holds all of them when no candidate names a dependency twice. *)
Theorem topo_sort_exact `{HeapPick} (cs : list Candidate) :
  (cyclic cs <-> topo_sort cs = Some (- ELOOP, [])) /\
  (~ cyclic cs <-> exists order, topo_sort cs = Some (0, order)) /\
  forall order, topo_sort cs = Some (0, order) ->
    NoDup order /\ (forall i, i ∈ order <-> orderable cs i) /\ deps_before cs order /\ least_first cs order /\
    ((forall c, c ∈ cs -> NoDup (c_depends c)) -> order ≡ₚ seq 0 (length cs)).
Proof.
  destruct (topo_sort_spec cs) as [Hc Hn].
  assert (forall rc order, topo_sort cs = Some (rc, order) -> rc = 0 -> ~ cyclic cs) as Hok
    by (intros rc order He -> Hcy; by rewrite (Hc Hcy) in He).
  assert (cyclic cs \/ ~ cyclic cs) as Hdec.
  { pose proof (any_cycle_exact cs) as He. destruct (any_cycle _ _ _ _) as [[]|]; [|right|done].
    - left. by apply He.
    - intros H1. by apply He in H1. }
  split; [split; [done|]|split; [split|]].
  - intros He. destruct Hdec as [|Hno]; [done|]. destruct (Hn Hno) as (order & He' & _). by rewrite He in He'.
  - intros Hno. destruct (Hn Hno) as (order & ? & _). by exists order.
  - intros [order He]. by eapply Hok.
  - intros order He. destruct (Hn (Hok _ _ He eq_refl)) as (order' & He' & Hnd & _ & Hb & Hl & Hp).
    rewrite He in He'. injection He' as <-. do 4 (split; [done|]). intros Hu. by apply unique_orders_all.
Qed.

(** C9. Loading a directory into an empty table: when the plug-ins have
  distinct names, depend on each other without a cycle and without naming a
  dependency twice, and their [init] succeeds, all are loaded; [init] runs
  once for each, after those of its dependencies; and each has as its reference
  count the number of plug-ins that depend on it. *)
Theorem load_plugins_all `{HeapPick} {W} (dlopen_mod : string -> @dl_answer W) es cs (w : W)
    (Hscan : scan_candidates dlopen_mod (Some es) = Some cs)
    (Hnames : NoDup (map c_name cs))
    (Hunique : forall c, c ∈ cs -> NoDup (c_depends c))
    (Hinternal : forall c, c ∈ cs -> c_depends c ⊆ map c_name cs)
    (Hacyclic : ~ cyclic cs)
    (Hinit : forall c w, c ∈ cs -> (init_at dlopen_mod (c_path c) w).1 = 0) :
  exists st' loads,
    load_plugins dlopen_mod (Some es) (Loader_ ∅ [] w) = Some (0, st') /\
    loads ≡ₚ cs /\
    (forall k c, loads !! k = Some c -> c_depends c ⊆ map c_name (take k loads)) /\
    world st' = foldl (run_init dlopen_mod) w loads /\
    (forall c, c ∈ cs -> exists m, dlopen_mod (c_path c) = DlModule m /\
       loaded st' !! c_name c = Some (PluginInfo_ (c_path c) m (dependants cs (c_name c)))) /\
    (forall name, is_Some (loaded st' !! name) -> name ∈ map c_name cs).
Proof.
  destruct (topo_sort_spec cs) as [_ Hn]. destruct (Hn Hacyclic) as (order & He & Hnd & Hsub & Hb & _ & Hp).
  apply (unique_orders_all cs order Hnd) in Hp; [|done].
  destruct (load_in_order_all dlopen_mod cs (fun c => scan_candidate_of dlopen_mod es cs c Hscan)
    Hnames Hunique Hinternal Hinit order [] (Loader_ ∅ [] w)) as (st' & Hl & Hle & Hw); [done..| |].
  { split; [by intros c ?%not_elem_of_nil| |by intros c ?%not_elem_of_nil].
    simpl. intros name [i Hi]. by rewrite lookup_empty in Hi. }
  pose proof (picked_all cs order Hp) as Hperm. simpl in Hle.
  exists st', (picked cs order). split.
  { unfold load_plugins. rewrite Hscan, He. simpl. by rewrite Hl. }
  split; [done|]. split; [|split; [done|split]].
  - intros k c Hk. destruct (picked_lookup cs order k Hsub) as [Hlk ->]. rewrite Hlk in Hk.
    apply bind_Some in Hk as (i & Hi & Hc). by apply (deps_picked cs Hinternal order k i c).
  - intros c Hc. rewrite <- Hperm in Hc. destruct (le_entry _ _ _ Hle c Hc) as (m & Hm & Hx).
    exists m. split; [done|]. by rewrite Hx, (dependants_perm _ _ _ Hperm).
  - intros name Hx. apply (le_only _ _ _ Hle) in Hx. by rewrite Hperm in Hx.
Qed.

(** Whatever is loaded and unloaded, from the empty table on: each entry is
  the module found at its path, under its own name, with a count that is not
  negative, and the process holds one handle of the dynamic linker for each
  entry and no other. *)
Theorem loader_well_formed `{HeapPick} {W} (dlopen_mod : string -> @dl_answer W) calls (w : W) st
    (Hrun : loader_run dlopen_mod calls (Loader_ ∅ [] w) = Some st) :
  loader_wf dlopen_mod st.
Proof.
  assert (loader_wf dlopen_mod (Loader_ ∅ [] w)) as Hwf
    by (split; [done|]; intros name info Hx; cbn in Hx; by apply lookup_empty_Some in Hx).
  revert Hrun Hwf. unfold loader_run. generalize (Loader_ (∅ : gmap string (@PluginInfo W)) [] w).
  induction calls as [|c calls IH]; intros s; cbn; [by intros [= <-]|].
  destruct (loader_step dlopen_mod s c) as [s'|] eqn:E.
  - intros Hrun Hwf. by eapply IH, wf_loader_step.
  - intros Hrun. exfalso. clear IH. by induction calls.
Qed.

(** ** The plug-ins of the repository, on a log of what was initialised *)
Module Samples.
Definition logged (name : string) (prio : Z) (deps : list string) (rc : Z) : @dl_answer (list string) :=
  DlModule (Module_ (Some name) prio (Some deps) (Some (fun log => (rc, log ++ [name]))) (Some (fun log => log ++ ["exit " +:+ name]))).
Definition dl (path : string) : @dl_answer (list string) :=
  if bool_decide (path = "p/plugin_net.so") then logged "net_driver" 300 [] 0
  else if bool_decide (path = "p/plugin_iommu.so") then logged "iommu_driver" 200 ["pci_driver"] 0
  else if bool_decide (path = "p/plugin_pci.so") then logged "pci_driver" 100 [] 0
  else if bool_decide (path = "p/plugin_vfio.so") then logged "vfio" 50 ["iommu_driver"; "pci_driver"] 0
  else if bool_decide (path = "p/plugin_broken.so") then logged "broken" 10 ["net_driver"] (-1)
  else DlFails.
Definition dir : list (string * string) :=
  [("p/plugin_vfio.so", "plugin_vfio.so"); ("p/README.md", "README.md"); ("p/plugin_net.so", "plugin_net.so");
   ("p/plugin_iommu.so", "plugin_iommu.so"); ("p/plugin_pci.so", "plugin_pci.so"); ("p/libx.so", "libx.so")].
Definition cands : list Candidate := default [] (scan_candidates dl (Some dir)).
Definition empty : @loader (list string) := Loader_ ∅ [] [].
#[export] Existing Instance first_min_heap.
(** The state after loading [dir]. *)
Definition after : @loader (list string) :=
  match load_plugins dl (Some dir) empty with Some (_, st) => st | None => empty end.
End Samples.
Import Samples.

Example samples_order : map c_name cands = ["vfio"; "net_driver"; "iommu_driver"; "pci_driver"] /\
  topo_sort cands = Some (0, [3; 2; 0; 1]%nat) /\
  world after = ["pci_driver"; "iommu_driver"; "vfio"; "net_driver"] /\
  plugin_ref_count "pci_driver" after = 2.
Proof. vm_compute. by split. Qed.

Lemma samples_acyclic : ~ cyclic cands.
Proof. apply acyclic_by_search. by vm_compute. Qed.

Lemma topo_sort_exact_witness :
  (forall c, c ∈ cands -> NoDup (c_depends c)) /\
  exists order, topo_sort cands = Some (0, order) /\ order ≡ₚ seq 0 (length cands) /\ deps_before cands order /\ least_first cands order.
Proof.
  assert (forall c, c ∈ cands -> NoDup (c_depends c)) as H.
  { apply Forall_forall. apply (bool_decide_unpack _). by vm_compute. }
  split; [exact H|]. destruct (topo_sort_exact cands) as (_ & He & Ho).
  destruct (proj1 He samples_acyclic) as [order Hs]. exists order. split; [exact Hs|].
  destruct (Ho order Hs) as (_ & _ & Hd & Hl & Hall). split; [by apply Hall|split; [exact Hd|exact Hl]].
Defined.

Lemma load_plugins_all_witness :
  exists st' loads, load_plugins dl (Some dir) (Loader_ ∅ [] []) = Some (0, st') /\ loads ≡ₚ cands /\
    world st' = foldl (run_init dl) [] loads.
Proof.
  destruct (load_plugins_all dl dir cands []) as (st' & loads & H1 & H2 & _ & H3 & _).
  - by vm_compute.
  - apply (bool_decide_unpack _). by vm_compute.
  - apply Forall_forall. apply (bool_decide_unpack _). by vm_compute.
  - apply Forall_forall. apply (bool_decide_unpack _). by vm_compute.
  - apply samples_acyclic.
  - intros c w Hc. vm_compute in Hc. repeat (apply elem_of_cons in Hc as [->|Hc]; [vm_compute; reflexivity|]). by apply not_elem_of_nil in Hc.
  - exists st', loads. split; [exact H1|split; [exact H2|exact H3]].
Defined.

Lemma loader_well_formed_witness :
  exists st, loader_run dl [CallLoadPlugins (Some dir); CallUnload "vfio"; CallLoad "p/plugin_broken.so"] empty = Some st /\
    loader_wf dl st.
Proof.
  destruct (loader_run dl [CallLoadPlugins (Some dir); CallUnload "vfio"; CallLoad "p/plugin_broken.so"] empty) as [st|] eqn:E.
  - exists st. split; [done|]. by apply (loader_well_formed dl _ [] st E).
  - exfalso. vm_compute in E. discriminate.
Defined.

(** *** What the counts allow *)
(** A dependency with a single dependant is unloaded under it. *)
Lemma unload_under_dependant :
  let '(rc, st) := unload_plugin "iommu_driver" after in
  rc = 0 /\ loaded st !! "iommu_driver" = None /\ is_Some (loaded st !! "vfio").
Proof. vm_compute. split; [done|]. split; [done|]. by eexists. Qed.
(** A dependency with two dependants outlives [unload_plugins]. *)
Lemma unload_all_leaves :
  let st := unload_plugins (map fst (map_to_list (loaded after))) after in
  map fst (map_to_list (loaded st)) = ["pci_driver"] /\ opens st = ["p/plugin_pci.so"].
Proof. by vm_compute. Qed.
(** A plug-in whose [init] fails keeps its dependencies referenced. *)
Lemma failed_init_keeps_refs :
  match load_plugin dl "p/plugin_broken.so" after with
  | Some (rc, st) => rc = -1 /\ plugin_ref_count "net_driver" after = 0 /\ plugin_ref_count "net_driver" st = 1
  | None => False
  end.
Proof. vm_compute. by split. Qed.
(** A dependency named twice keeps its candidate out of the order, and nothing
  is reported. *)
Lemma duplicate_depends_left_out :
  topo_sort [Candidate_ "a.so" "a" 1 ["b"; "b"]; Candidate_ "b.so" "b" 2 []] = Some (0, [1%nat]).
Proof. by vm_compute. Qed.
(** The manager keeps a handle for each time a path is loaded and gives back
  one. *)
Lemma manager_leaks_handle :
  match pm_load_plugin dl true "p/plugin_net.so" ∅ empty with
  | Some (_, plugins, st) =>
      match pm_load_plugin dl true "p/plugin_net.so" plugins st with
      | Some (rc, plugins, st) =>
          rc = 0 /\ let '(rc, plugins, st) := pm_unload_plugin "net_driver" plugins st in
          rc = 0 /\ plugins !! "net_driver" = None /\ opens st = ["p/plugin_net.so"]
      | None => False
      end
  | None => False
  end.
Proof. vm_compute. done. Qed.
