(* ===== verification/Plugins.v ===== *)
(** * The plug-ins of the repository

    The modules that [plugin.cpp] of each driver exports: their names, load
    priorities, dependencies, and what [init] and [exit] do to the device table
    ([Vfs]); [src/plugins/gpu_driver/plugin.cpp] with the way back out of each of
    its failures; and the two sample drivers of [src/drivers].

    What the components below answer while the GPU plug-in starts is an
    argument ([gpu_answers]). *)
From S2P Require Import Prelude SimMem KfdBridge Vfs Modules.
From stdpp Require Import gmap pretty.

#[local] Open Scope Z_scope.

(** What serves a device node: the GPU device over a puller, or one of the two
    sample devices. *)
Inductive plugin_fops := GpgpuDevice (puller : Z) | SampleMemory | SampleSerialDriver.

(** ** The process *)
Record process := Process_ {
  vfs : VFS plugin_fops;
  (** [g_device_entry] of the network and of the storage plug-in *)
  net_entry : bool;
  storage_entry : bool;
  (** [hal_holders], by their puller handles *)
  hal_holders : list Z;
  g_plugin_initialized : bool;
  g_mm_shim_inited : bool;
  (** the singletons of the simulator, which live as long as the process; the
      shim of the plug-in is the one the bridge holds *)
  g_vram_store : GpuVramStore;
  g_dma_pool : DmaCoherentPool;
  g_bridge : KfdSimState;
  (** pullers and HAL contexts that have been made and not destroyed *)
  live_pullers : list Z;
  live_contexts : Z
}.
#[export] Instance eta_process : Eta process := fun p =>
  Process_ (vfs p) (net_entry p) (storage_entry p) (hal_holders p) (g_plugin_initialized p) (g_mm_shim_inited p)
    (g_vram_store p) (g_dma_pool p) (g_bridge p) (live_pullers p) (live_contexts p).
Definition process_start : process := Process_ (VFS_ ∅ ∅ ∅) false false [] false false
  new_vram_store new_dma_pool (mk_kfd_sim None ∅ ∅ 0 GPU_VA_BASE 0 None None None) [] 0.

(** ** Registering a device for a plug-in; the result is not looked at *)
Definition plugin_device (name : string) (fops : option plugin_fops) : Device plugin_fops :=
  Device_ name 0 None fops 438 0 0.
Definition register_new (dev : Device plugin_fops) (v : VFS plugin_fops) : Z * VFS plugin_fops :=
  let '(p, v) := make_device dev v in default (0, v) (register_device p v).

(** ** Network and storage *)
Definition net_init (w : process) : Z * process :=
  (0, w <| vfs ::= fun v => (register_new (plugin_device "net0" None) v).2 |> <| net_entry := true |>).
Definition net_fini (w : process) : process :=
  if net_entry w then w <| vfs ::= fun v => (unregister_device "net0" v).2 |> <| net_entry := false |> else w.
Definition storage_init (w : process) : Z * process :=
  (0, w <| vfs ::= fun v => (register_new (plugin_device "sda0" None) v).2 |> <| storage_entry := true |>).
Definition storage_fini (w : process) : process :=
  if storage_entry w then w <| vfs ::= fun v => (unregister_device "sda0" v).2 |> <| storage_entry := false |> else w.

(** ** The sample drivers of [src/drivers] *)
Definition sample_device (name : string) (dev_id : Z) (f : plugin_fops) : Device plugin_fops :=
  Device_ name dev_id None (Some f) 438 0 0.
Definition sample_init (name : string) (dev_id : Z) (f : plugin_fops) (w : process) : Z * process :=
  (0, w <| vfs ::= fun v => (register_new (sample_device name dev_id f) v).2 |>).
Definition sample_exit (name : string) (w : process) : process :=
  w <| vfs ::= fun v => (unregister_device name v).2 |>.

(** ** The GPU *)
Record gpu_answers := Answers_ {
  a_vram : option Z;          (* the mappings of the two memory pools *)
  a_dma : option Z;
  a_probe : Z;                (* pci_probe_enumerate_from_sim_hardware *)
  a_count : Z;                (* the devices it found *)
  a_puller : Z -> Z * Z;      (* hal_puller_create: result and handle *)
  a_doorbell : Z -> Z         (* hal_user_set_doorbell_cb *)
}.
Definition gpu_name (i : nat) : string := "gpgpu" +:+ pretty i.
Definition pop_back (l : list Z) : list Z := take (pred (length l)) l.
(** [hal_user_destroy] of the holder at the back, and [pop_back]. *)
Definition drop_holder (w : process) : process :=
  w <| live_contexts ::= Z.pred |> <| hal_holders ::= pop_back |>.
Definition destroy_puller (h : Z) (w : process) : process := w <| live_pullers ::= remove_one h |>.

(** One round of the loop over the discovered devices. *)
Definition gpu_bridge (a : gpu_answers) (i : nat) (w : process) : Z * process :=
  let w := w <| hal_holders ::= fun l => l ++ [0] |> <| live_contexts ::= Z.succ |> in
  let '(ret, h) := a_puller a (Z.of_nat i) in
  if negb (ret =? 0) then (ret, drop_holder w)
  else
    let w := w <| live_pullers ::= cons h |> <| hal_holders ::= fun l => pop_back l ++ [h] |> in
    let db := a_doorbell a (Z.of_nat i) in
    if negb (db =? 0) then (db, drop_holder (destroy_puller h w))
    else
      let '(rc, v) := register_new (plugin_device (gpu_name i) (Some (GpgpuDevice h))) (vfs w) in
      let w := w <| vfs := v |> in
      if negb (rc =? 0) then (rc, drop_holder (destroy_puller h w)) else (0, w).
Fixpoint gpu_loop (a : gpu_answers) (i n : nat) (w : process) : Z * process :=
  match n with
  | O => (0, w)
  | S n => let '(rc, w) := gpu_bridge a i w in if negb (rc =? 0) then (rc, w) else gpu_loop a (S i) n w
  end.
(** The stubs of [kfd_module.c]. *)
Definition kfd_module_init : Z := 0.
Definition kfd_module_exit (w : process) : process := w.

(** The pools of 256 MiB and of coherent memory, whose failures are only
    reported, and the bridge with the shim of the plug-in, which is made once. *)
Definition init_singletons (a : gpu_answers) (w : process) : process :=
  let w := w <| g_vram_store ::= fun v => (vram_init 256 (a_vram a) v).2 |> in
  let w := w <| g_dma_pool ::= fun d => (dma_init (a_dma a) d).2 |> in
  let shim := if g_mm_shim_inited w then ks_mm_shim (g_bridge w) else Some (us_mm_shim_init 0) in
  let w := w <| g_mm_shim_inited := true |> in
  w <| g_bridge ::= fun s => kfd_sim_reset (kfd_sim_set_mm_shim shim s) |>.
Definition gpu_init (a : gpu_answers) (w : process) : Z * process :=
  if g_plugin_initialized w then (0, w)
  else if negb (kfd_module_init =? 0) then (kfd_module_init, w)
  else
    let w := init_singletons a w in
    if negb (a_probe a =? 0) then (a_probe a, w)
    else
      let devices_to_bridge := if 1 <? a_count a then 1 else a_count a in
      let '(rc, w) := gpu_loop a 0 (Z.to_nat devices_to_bridge) w in
      if negb (rc =? 0) then (rc, w) else (0, w <| g_plugin_initialized := true |>).

Fixpoint unregister_gpus (n : nat) (v : VFS plugin_fops) : VFS plugin_fops :=
  match n with O => v | S n => (unregister_device (gpu_name n) (unregister_gpus n v)).2 end.
Definition destroy_holder (w : process) (h : Z) : process :=
  let w := if negb (h =? 0) then destroy_puller h w else w in w <| live_contexts ::= Z.pred |>.
Definition gpu_fini (w : process) : process :=
  let w := w <| vfs ::= unregister_gpus (length (hal_holders w)) |> in
  let w := kfd_module_exit w in
  let w := foldl destroy_holder w (hal_holders w) in
  w <| hal_holders := [] |> <| g_plugin_initialized := false |>.

(** ** The modules *)
Definition gpu_module (a : gpu_answers) : @module process :=
  Module_ (Some "gpu_driver") 50 None (Some (gpu_init a)) (Some gpu_fini).
Definition pci_module : @module process :=
  Module_ (Some "pci_driver") 100 (Some []) (Some (fun w => (0, w))) (Some (fun w => w)).
Definition iommu_module : @module process :=
  Module_ (Some "iommu_driver") 200 (Some ["pci_driver"]) (Some (fun w => (0, w))) (Some (fun w => w)).
Definition net_module : @module process :=
  Module_ (Some "net_driver") 300 None (Some net_init) (Some net_fini).
Definition storage_module : @module process :=
  Module_ (Some "storage_driver") 400 None (Some storage_init) (Some storage_fini).
(** No priority is given, so it is 0. *)
Definition sample_memory_module : @module process :=
  Module_ (Some "sample") 0 None (Some (sample_init "sample" 12345 SampleMemory)) (Some (sample_exit "sample")).
Definition sample_serial_module : @module process :=
  Module_ (Some "serial") 0 None (Some (sample_init "ttyS0" 12346 SampleSerialDriver)) (Some (sample_exit "ttyS0")).

(** ** Starting is all or nothing *)
Lemma pop_back_snoc l x : pop_back (l ++ [x]) = l.
Proof. unfold pop_back. rewrite length_app, Nat.add_1_r. simpl. by rewrite take_app_length. Qed.
Lemma remove_one_head h (l : list Z) : remove_one h (h :: l) = l.
Proof. simpl. by rewrite bool_decide_eq_true_2. Qed.

(** A device of a fresh name goes in, and out again. *)
Lemma register_new_spec dev (v : VFS plugin_fops) :
  let '(rc, v') := register_new dev v in
  match devices v !! d_name dev with
  | Some _ => rc = -1 /\ devices v' = devices v /\ services v' = services v
  | None => rc = 0 /\ exists p, devices v' = <[d_name dev := p]> (devices v) /\ services v' = <[d_name dev := p]> (services v)
  end.
Proof.
  unfold register_new, make_device. set (p := fresh _). unfold register_device. simpl.
  rewrite lookup_insert_eq. destruct (devices v !! d_name dev); simpl; [done|]. split; [done|]. by exists p.
Qed.

(** What a failed start must leave as it was. *)
Definition same_resources (w w' : process) : Prop :=
  devices (vfs w') = devices (vfs w) /\ services (vfs w') = services (vfs w) /\ hal_holders w' = hal_holders w /\
  live_pullers w' = live_pullers w /\ live_contexts w' = live_contexts w /\
  g_plugin_initialized w' = g_plugin_initialized w.

Lemma gpu_bridge_spec a i w :
  let '(rc, w') := gpu_bridge a i w in
  if rc =? 0 then
    exists h p, a_puller a (Z.of_nat i) = (0, h) /\ devices (vfs w) !! gpu_name i = None /\
      devices (vfs w') = <[gpu_name i := p]> (devices (vfs w)) /\ services (vfs w') = <[gpu_name i := p]> (services (vfs w)) /\
      hal_holders w' = hal_holders w ++ [h] /\ live_pullers w' = h :: live_pullers w /\
      live_contexts w' = live_contexts w + 1 /\ g_plugin_initialized w' = g_plugin_initialized w
  else same_resources w w'.
Proof.
  unfold gpu_bridge. destruct (a_puller a (Z.of_nat i)) as [ret h]. destruct (Z.eqb_spec ret 0) as [->|Hr].
  - cbn [negb]. destruct (Z.eqb_spec (a_doorbell a (Z.of_nat i)) 0) as [Hd|Hd]; cbn [negb].
    + pose proof (register_new_spec (plugin_device (gpu_name i) (Some (GpgpuDevice h))) (vfs w)) as H.
      cbn [vfs d_name plugin_device field_upd] in *. simpl vfs.
      destruct (register_new _ (vfs w)) as [rc v]. cbn in H. destruct (devices (vfs w) !! gpu_name i) eqn:E.
      * destruct H as (-> & Hv & Hs). simpl. unfold same_resources. simpl.
        rewrite bool_decide_eq_true_2, !pop_back_snoc by done. repeat split; try done. lia.
      * destruct H as (-> & p & Hv & Hs). simpl. exists h, p. rewrite pop_back_snoc. repeat split; try done.
    + rewrite (proj2 (Z.eqb_neq _ _) Hd). unfold same_resources. simpl.
      rewrite bool_decide_eq_true_2, !pop_back_snoc by done. repeat split; try done. lia.
  - cbn [negb]. rewrite (proj2 (Z.eqb_neq _ _) Hr). unfold same_resources. simpl. rewrite pop_back_snoc. repeat split; try done. lia.
Qed.

(** C21. Starting the GPU plug-in is all or nothing.  When a step fails, its code
    is returned and no holder, puller, HAL context or device node is left
    behind.  When all succeed, the plug-in bridges at most one device, its node
    is registered, and stopping the plug-in gives everything back. *)
Theorem gpu_init_all_or_nothing (a : gpu_answers) (w : process)
    (Hidle : g_plugin_initialized w = false) (Hempty : hal_holders w = [])
    (Hsync : services (vfs w) = devices (vfs w)) (Hcount : 0 <= a_count a)
    (Hhandle : forall i, (a_puller a i).1 = 0 -> (a_puller a i).2 <> 0) :
  let '(rc, w') := gpu_init a w in
  if rc =? 0 then
    g_plugin_initialized w' = true /\ length (hal_holders w') = Nat.min 1 (Z.to_nat (a_count a)) /\
    (0 < a_count a -> is_Some (devices (vfs w') !! gpu_name 0)) /\
    same_resources w (gpu_fini w')
  else same_resources w w'.
Proof.
  unfold gpu_init. rewrite Hidle. cbn [negb Z.eqb kfd_module_init].
  destruct (Z.eqb_spec (a_probe a) 0) as [Hp|Hp]; cbn [negb]; [|rewrite (proj2 (Z.eqb_neq _ _) Hp); by repeat split].
  set (w0 := init_singletons a w).
  assert (same_resources w w0) as Hw0 by (by repeat split).
  set (n := Z.to_nat (if 1 <? a_count a then 1 else a_count a)).
  assert (n = Nat.min 1 (Z.to_nat (a_count a))) as Hn by (unfold n; destruct (Z.ltb_spec 1 (a_count a)); lia).
  clearbody n. rewrite <- Hn. assert (n = 0%nat \/ n = 1%nat) as [-> | ->] by lia; cbn [gpu_loop].
  - cbn. split; [done|]. rewrite Hempty. split; [done|]. split; [lia|]. unfold same_resources. simpl. by rewrite Hempty, Hidle.
  - pose proof (gpu_bridge_spec a 0 w0) as H. destruct (gpu_bridge a 0 w0) as [rc w1].
    destruct (Z.eqb_spec rc 0) as [->|Hr]; cbn [negb].
    + destruct H as (h & p & Hh & Hfree & Hd & Hs & Hl & Hlp & Hlc & Hi). simpl in Hfree, Hd, Hs, Hl, Hlp, Hlc.
      rewrite Hempty in Hl. simpl in Hl. cbn. split; [done|]. rewrite Hl. split; [done|]. split.
      * intros _. rewrite Hd. exists p. apply lookup_insert_eq.
      * assert (h <> 0) as Hh0 by (specialize (Hhandle (Z.of_nat 0)); rewrite Hh in Hhandle; by apply Hhandle).
        unfold gpu_fini, same_resources. cbn. rewrite Hl. cbn. rewrite (proj2 (Z.eqb_neq _ _) Hh0). cbn.
        unfold unregister_device. rewrite Hd, lookup_insert_eq. cbn. rewrite Hd, Hs, Hlp, Hlc, Hsync.
        rewrite delete_insert_id by done. rewrite Hidle, Hempty. repeat split; try done; [apply remove_one_head|lia].
    + rewrite ?(proj2 (Z.eqb_neq _ _) Hr); cbn [negb]; cbv beta iota; rewrite ?(proj2 (Z.eqb_neq _ _) Hr). exact H.
Qed.

Definition good_answers : gpu_answers := Answers_ (Some 65536) None 0 3 (fun i => (0, Z.abs i + 1)) (fun _ => 0).
Definition bad_doorbell : gpu_answers := Answers_ (Some 65536) None 0 1 (fun i => (0, Z.abs i + 1)) (fun _ => -22).
Lemma gpu_init_all_or_nothing_witness :
  same_resources process_start (gpu_init bad_doorbell process_start).2 /\
  same_resources process_start (gpu_fini (gpu_init good_answers process_start).2).
Proof.
  assert (Hh : forall i, (Z.abs i + 1) <> 0) by lia.
  split.
  - assert (Hr : ((gpu_init bad_doorbell process_start).1 =? 0) = false) by (vm_compute; reflexivity).
    pose proof (gpu_init_all_or_nothing bad_doorbell process_start eq_refl eq_refl eq_refl ltac:(vm_compute; discriminate)
      (fun i _ => Hh i)) as H.
    destruct (gpu_init bad_doorbell process_start) as [rc w]. simpl in Hr |- *. rewrite Hr in H. exact H.
  - assert (Hr : ((gpu_init good_answers process_start).1 =? 0) = true) by (vm_compute; reflexivity).
    pose proof (gpu_init_all_or_nothing good_answers process_start eq_refl eq_refl eq_refl ltac:(vm_compute; discriminate)
      (fun i _ => Hh i)) as H.
    destruct (gpu_init good_answers process_start) as [rc w]. simpl in Hr |- *. rewrite Hr in H.
    exact (proj2 (proj2 (proj2 H))).
Defined.
