(* ===== verification/Net.v ===== *)
(** * Packets, datagram sockets and the network driver

    [src/src/kernel/net/sk_buff.cpp] and [socket.cpp], and the loopback card of
    [src/plugins/net_driver/drv/net_driver.cpp].

    Packet buffers live in a heap of reference-counted blocks; touching a block
    that has been freed is undefined ([None]).  Sockets are kept in a
    [std::map], in increasing order of descriptors. *)
From S2P Require Import Prelude.
From stdpp Require Import gmap.

#[local] Open Scope Z_scope.

(** ** Packet buffers *)
Record sk_buff_impl := Skb_ {
  skb_payload : list Z;
  skb_refcount : Z;
}.
#[export] Instance eta_skb : Eta sk_buff_impl := fun r => Skb_ (skb_payload r) (skb_refcount r).
Abbreviation skb_heap := (gmap nat sk_buff_impl).
Definition skb_data_len (s : sk_buff_impl) : Z := Z.of_nat (length (skb_payload s)).

(** [mem]: whether [malloc] gives memory. *)
Definition skb_alloc (mem : bool) (data_len : nat) (h : skb_heap) : option nat * skb_heap :=
  if (data_len =? 0)%nat then (None, h)
  else if negb mem then (None, h)
  else let p := fresh (dom h) in (Some p, <[p := Skb_ (replicate data_len 0) 1]> h).

Definition skb_free (skb : option nat) (h : skb_heap) : option skb_heap :=
  match skb with
  | None => Some h
  | Some p =>
      s ← h !! p;
      let r := u64 (skb_refcount s - 1) in
      Some (if r =? 0 then delete p h else <[p := s <| skb_refcount := r |>]> h)
  end.
#[global] Arguments skb_free : simpl never.
(** [memcpy (data skb) buf (length bytes)]. *)
Definition skb_write (p : nat) (bytes : list Z) (h : skb_heap) : option skb_heap :=
  s ← h !! p; Some (<[p := s <| skb_payload ::= fun old => bytes ++ drop (length bytes) old |>]> h).
Definition skb_len (skb : option nat) (h : skb_heap) : option Z :=
  match skb with None => Some 0 | Some p => s ← h !! p; Some (skb_data_len s) end.
Definition skb_ref_up (skb : option nat) (h : skb_heap) : option (option nat * skb_heap) :=
  match skb with
  | None => Some (None, h)
  | Some p => s ← h !! p; Some (skb, <[p := s <| skb_refcount ::= fun r => u64 (r + 1) |>]> h)
  end.
Definition skb_ref_down (skb : option nat) (h : skb_heap) : option (option nat * skb_heap) :=
  match skb with
  | None => Some (None, h)
  | Some p =>
      s ← h !! p;
      if skb_refcount s <=? 1 then h ← skb_free skb h; Some (None, h)
      else Some (skb, <[p := s <| skb_refcount ::= fun r => u64 (r - 1) |>]> h)
  end.
Definition sk_buff_get_refcount (skb : option nat) (h : skb_heap) : option Z :=
  match skb with None => Some 0 | Some p => s ← h !! p; Some (skb_refcount s) end.

(** Taking and dropping a reference. *)
Lemma ref_up_down p s (h : skb_heap) :
  h !! p = Some s -> 1 <= skb_refcount s < UINT64_MAX ->
  exists h', skb_ref_up (Some p) h = Some (Some p, h') /\ skb_ref_down (Some p) h' = Some (Some p, h).
Proof.
  intros Hp Hr. unfold UINT64_MAX in Hr. simpl. rewrite Hp. simpl. eexists. split; [done|].
  rewrite lookup_insert_eq. simpl. rewrite (u64_id (skb_refcount s + 1)) by lia.
  destruct (Z.leb_spec (skb_refcount s + 1) 1); [lia|]. do 2 f_equal. rewrite insert_insert_eq.
  unfold field_upd. simpl. rewrite !u64_id by (rewrite ?u64_id; lia). rewrite Z.add_simpl_r.
  apply insert_id. by destruct s.
Qed.

(** ** Sockets *)
Record socket_state := Socket_ {
  so_bound : bool;
  so_addr : Z;
  so_port : Z;
}.
Record skb_meta := Meta_ {
  m_src_addr : Z;
  m_src_port : Z;
  m_skb : nat;
}.
Record net := Net_ {
  g_sockets : list (Z * socket_state);
  g_rx_queues : gmap Z (list skb_meta);
  g_next_fd : Z;
  heap : skb_heap;
}.
#[export] Instance eta_net : Eta net := fun r => Net_ (g_sockets r) (g_rx_queues r) (g_next_fd r) (heap r).
Definition net_init : net := Net_ [] ∅ 1000 ∅.

(** [std::map]: lookup, and assignment in the order of the keys. *)
Fixpoint assoc_get {V} (k : Z) (l : list (Z * V)) : option V :=
  match l with
  | [] => None
  | (k', v) :: l => if k' =? k then Some v else assoc_get k l
  end.
Fixpoint assoc_set {V} (k : Z) (v : V) (l : list (Z * V)) : list (Z * V) :=
  match l with
  | [] => [(k, v)]
  | (k', v') :: r => if k' =? k then (k, v) :: r else if k <? k' then (k, v) :: l else (k', v') :: assoc_set k v r
  end.
Definition assoc_del {V} (k : Z) (l : list (Z * V)) : list (Z * V) := List.filter (fun kv => negb (kv.1 =? k)) l.

(** The first bound socket, in the order of descriptors, with that address. *)
Fixpoint find_bound (dst_addr dst_port : Z) (l : list (Z * socket_state)) : option Z :=
  match l with
  | [] => None
  | (fd, s) :: l =>
      if so_bound s && (so_addr s =? dst_addr) && (so_port s =? dst_port) then Some fd
      else find_bound dst_addr dst_port l
  end.

Definition us_net_socket (n : net) : Z * net :=
  let fd := g_next_fd n in
  let n := n <| g_next_fd := s32 (fd + 1) |> in
  if fd <? 0 then (- ENOMEM, n)
  else (fd, n <| g_sockets ::= assoc_set fd (Socket_ false 0 0) |> <| g_rx_queues ::= <[fd := []]> |>).

Definition us_net_bind (fd addr port : Z) (n : net) : Z * net :=
  match assoc_get fd (g_sockets n) with
  | None => (- EBADF, n)
  | Some _ =>
      if (addr =? 0) || (port =? 0) then (- EINVAL, n)
      else (0, n <| g_sockets ::= assoc_set fd (Socket_ true addr port) |>)
  end.

(** [buf] is [None] when the pointer is null; otherwise the [len] bytes. *)
Definition us_net_sendto (mem : bool) (fd : Z) (buf : option (list Z)) (dst_addr dst_port : Z) (n : net) : option (Z * net) :=
  match assoc_get fd (g_sockets n) with
  | None => Some (- EBADF, n)
  | Some s =>
      if negb (so_bound s) then Some (-1, n)
      else match buf with
      | None | Some [] => Some (- EINVAL, n)
      | Some bytes =>
          let '(skb, h) := skb_alloc mem (length bytes) (heap n) in
          match skb with
          | None => Some (- ENOMEM, n <| heap := h |>)
          | Some p =>
              h ← skb_write p bytes h;
              match find_bound dst_addr dst_port (g_sockets n) with
              | None => h ← skb_free skb h; Some (-1, n <| heap := h |>)
              | Some dst_fd =>
                  Some (s32 (Z.of_nat (length bytes)),
                        n <| heap := h |>
                          <| g_rx_queues ::= fun q =>
                               <[dst_fd := default [] (q !! dst_fd) ++ [Meta_ (so_addr s) (so_port s) p]]> q |>)
              end
          end
      end
  end.

(** What [recvfrom] gives: the value returned, and the bytes copied out with
    the source address when there was a datagram. *)
Definition us_net_recvfrom (fd : Z) (buf : bool) (max_len : nat) (n : net)
    : option (Z * option (list Z * Z * Z) * net) :=
  match assoc_get fd (g_sockets n) with
  | None => Some (- EBADF, None, n)
  | Some _ =>
      if negb buf || (max_len =? 0)%nat then Some (- EINVAL, None, n)
      else match default [] (g_rx_queues n !! fd) with
      | [] => Some (- EAGAIN, None, n)
      | m :: q =>
          s ← heap n !! m_skb m;
          let bytes := take max_len (skb_payload s) in
          h ← skb_free (Some (m_skb m)) (heap n);
          Some (s32 (Z.of_nat (length bytes)), Some (bytes, m_src_addr m, m_src_port m),
                n <| g_rx_queues ::= <[fd := q]> |> <| heap := h |>)
      end
  end.

Fixpoint free_all (q : list skb_meta) (h : skb_heap) : option skb_heap :=
  match q with
  | [] => Some h
  | m :: q => h ← skb_free (Some (m_skb m)) h; free_all q h
  end.
Definition us_net_close (fd : Z) (n : net) : option (Z * net) :=
  match assoc_get fd (g_sockets n) with
  | None => Some (- EBADF, n)
  | Some _ =>
      let n := n <| g_sockets ::= assoc_del fd |> in
      match g_rx_queues n !! fd with
      | None => Some (0, n)
      | Some q => h ← free_all q (heap n); Some (0, n <| heap := h |> <| g_rx_queues ::= delete fd |>)
      end
  end.

(** ** What the sockets promise
    Datagrams as values in the mailbox of a socket, without a heap. *)
Definition letter : Type := list Z * Z * Z.
Record mailboxes := Mail_ {
  mb_sockets : list (Z * socket_state);
  mb_queues : gmap Z (list letter);
  mb_next_fd : Z;
}.
#[export] Instance eta_mail : Eta mailboxes := fun r => Mail_ (mb_sockets r) (mb_queues r) (mb_next_fd r).
Definition mail_init : mailboxes := Mail_ [] ∅ 1000.

Inductive net_call :=
| NSocket
| NBind (fd addr port : Z)
| NSend (mem : bool) (fd : Z) (buf : option (list Z)) (dst_addr dst_port : Z)
| NRecv (fd : Z) (buf : bool) (max_len : nat)
| NClose (fd : Z).
(** The value returned and the datagram received. *)
Definition net_answer : Type := Z * option letter.

Definition net_step (n : net) (c : net_call) : option (net_answer * net) :=
  match c with
  | NSocket => let '(rc, n) := us_net_socket n in Some (rc, None, n)
  | NBind fd addr port => let '(rc, n) := us_net_bind fd addr port n in Some (rc, None, n)
  | NSend mem fd buf a p => '(rc, n) ← us_net_sendto mem fd buf a p n; Some (rc, None, n)
  | NRecv fd buf max_len => us_net_recvfrom fd buf max_len n
  | NClose fd => '(rc, n) ← us_net_close fd n; Some (rc, None, n)
  end.

Definition mail_step (b : mailboxes) (c : net_call) : net_answer * mailboxes :=
  match c with
  | NSocket =>
      let fd := mb_next_fd b in
      let b := b <| mb_next_fd := fd + 1 |> in
      if fd <? 0 then (- ENOMEM, None, b)
      else (fd, None, b <| mb_sockets ::= assoc_set fd (Socket_ false 0 0) |> <| mb_queues ::= <[fd := []]> |>)
  | NBind fd addr port =>
      match assoc_get fd (mb_sockets b) with
      | None => (- EBADF, None, b)
      | Some _ => if (addr =? 0) || (port =? 0) then (- EINVAL, None, b)
                  else (0, None, b <| mb_sockets ::= assoc_set fd (Socket_ true addr port) |>)
      end
  | NSend mem fd buf a p =>
      match assoc_get fd (mb_sockets b) with
      | None => (- EBADF, None, b)
      | Some s =>
          match so_bound s, buf, mem with
          | false, _, _ => (-1, None, b)
          | true, (None | Some []), _ => (- EINVAL, None, b)
          | true, Some _, false => (- ENOMEM, None, b)
          | true, Some bytes, true =>
              match find_bound a p (mb_sockets b) with
              | None => (-1, None, b)
              | Some dst => (s32 (Z.of_nat (length bytes)), None,
                             b <| mb_queues ::= fun q => <[dst := default [] (q !! dst) ++ [(bytes, so_addr s, so_port s)]]> q |>)
              end
          end
      end
  | NRecv fd buf max_len =>
      match assoc_get fd (mb_sockets b) with
      | None => (- EBADF, None, b)
      | Some _ =>
          if negb buf || (max_len =? 0)%nat then (- EINVAL, None, b)
          else match default [] (mb_queues b !! fd) with
          | [] => (- EAGAIN, None, b)
          | (bytes, sa, sp) :: q =>
              (s32 (Z.of_nat (length (take max_len bytes))), Some (take max_len bytes, sa, sp),
               b <| mb_queues ::= <[fd := q]> |>)
          end
      end
  | NClose fd =>
      match assoc_get fd (mb_sockets b) with
      | None => (- EBADF, None, b)
      | Some _ => (0, None, b <| mb_sockets ::= assoc_del fd |> <| mb_queues ::= delete fd |>)
      end
  end.

(** *** The heap holds the queued datagrams and nothing else *)
Definition queued (q : gmap Z (list skb_meta)) : list nat := map m_skb (concat (map snd (map_to_list q))).
Record net_wf (n : net) : Prop := {
  nw_blocks : queued (g_rx_queues n) ≡ₚ map fst (map_to_list (heap n));
  nw_once p s : heap n !! p = Some s -> skb_refcount s = 1;
  nw_socks fd : fd ∈ map fst (g_sockets n) -> fd < g_next_fd n;
  nw_fds fd : is_Some (g_rx_queues n !! fd) -> fd < g_next_fd n
}.
Definition letter_of (h : skb_heap) (m : skb_meta) : letter :=
  (default [] (skb_payload <$> h !! m_skb m), m_src_addr m, m_src_port m).
Definition mail_of (n : net) : mailboxes :=
  Mail_ (g_sockets n) (map (letter_of (heap n)) <$> g_rx_queues n) (g_next_fd n).

Lemma queued_insert q fd l : q !! fd = None -> queued (<[fd := l]> q) ≡ₚ map m_skb l ++ queued q.
Proof. intros H. unfold queued. rewrite map_to_list_insert by done. simpl. by rewrite map_app. Qed.
Lemma queued_split q fd : queued q ≡ₚ map m_skb (default [] (q !! fd)) ++ queued (delete fd q).
Proof.
  destruct (q !! fd) as [l|] eqn:E; simpl.
  - rewrite <- (insert_delete_id q fd l E) at 1. apply queued_insert. apply lookup_delete_eq.
  - by rewrite delete_id.
Qed.
Lemma queued_update q fd l : queued (<[fd := l]> q) ≡ₚ map m_skb l ++ queued (delete fd q).
Proof. rewrite <- insert_delete_eq. apply queued_insert. apply lookup_delete_eq. Qed.

Lemma queued_member q fd l m : q !! fd = Some l -> m ∈ l -> m_skb m ∈ queued q.
Proof.
  intros Hq Hm. rewrite (queued_split q fd), Hq. apply elem_of_app. left. by apply list_elem_of_fmap_2.
Qed.

Section NetWf.
  Context (n : net) (Hwf : net_wf n).

Lemma queued_nodup : NoDup (queued (g_rx_queues n)).
  Proof. rewrite (nw_blocks _ Hwf). apply NoDup_fst_map_to_list. Qed.
Lemma queued_alloc p : p ∈ queued (g_rx_queues n) -> exists s, heap n !! p = Some s /\ skb_refcount s = 1.
  Proof.
    rewrite (nw_blocks _ Hwf). intros ([q s] & -> & Hs%elem_of_map_to_list)%list_elem_of_fmap.
    exists s. split; [done|by eapply nw_once].
  Qed.
Lemma queue_queued fd m : m ∈ default [] (g_rx_queues n !! fd) -> m_skb m ∈ queued (g_rx_queues n).
  Proof.
    destruct (g_rx_queues n !! fd) as [l|] eqn:E; simpl; [by apply queued_member with (fd := fd)|by intros ?%not_elem_of_nil].
  Qed.
End NetWf.

(** A heap that differs only outside the queued blocks tells the same letters. *)
Lemma letters_same (q : gmap Z (list skb_meta)) (h h' : skb_heap) :
  (forall fd l m, q !! fd = Some l -> m ∈ l -> h' !! m_skb m = h !! m_skb m) ->
  (map (letter_of h') <$> q) = (map (letter_of h) <$> q).
Proof.
  intros H. apply map_eq. intros fd. rewrite !lookup_fmap. destruct (q !! fd) as [l|] eqn:E; [|done]. simpl. f_equal.
  apply map_ext_in. intros m Hm%list_elem_of_In. unfold letter_of. by rewrite (H fd l m).
Qed.

Lemma assoc_set_keys {V} k (v : V) l fd : fd ∈ map fst (assoc_set k v l) -> fd = k \/ fd ∈ map fst l.
Proof.
  induction l as [|[k' v'] l IH]; simpl; [set_solver|].
  repeat case_match; simpl; rewrite ?elem_of_cons; intuition.
Qed.
Lemma assoc_del_keys {V} k (l : list (Z * V)) fd : fd ∈ map fst (assoc_del k l) -> fd ∈ map fst l.
Proof.
  intros ([k' v] & -> & [H _]%filter_In_iff)%list_elem_of_fmap. by apply (list_elem_of_fmap_2 fst) in H.
Qed.
Lemma assoc_get_keys {V} k (l : list (Z * V)) v : assoc_get k l = Some v -> k ∈ map fst l.
Proof.
  induction l as [|[k' v'] l IH]; simpl; [done|].
  destruct (Z.eqb_spec k' k) as [->|]; intros; [by left|right; auto].
Qed.
Lemma find_bound_keys a p l fd : find_bound a p l = Some fd -> fd ∈ map fst l.
Proof.
  induction l as [|[k s] l IH]; simpl; [done|]. case_match; [intros [= ->]; by left|intros; right; auto].
Qed.

(** Freeing a block that is queued once. *)
Lemma free_once (h : skb_heap) p s : h !! p = Some s -> skb_refcount s = 1 -> skb_free (Some p) h = Some (delete p h).
Proof. intros Hp Hr. unfold skb_free. rewrite Hp. simpl. by rewrite Hr. Qed.

Lemma alloc_write mem bytes (h : skb_heap) p h1 :
  skb_alloc mem (length bytes) h = (Some p, h1) ->
  h !! p = None /\ skb_write p bytes h1 = Some (<[p := Skb_ bytes 1]> h).
Proof.
  unfold skb_alloc. repeat case_match; try done. intros [= <- <-].
  split; [apply not_elem_of_dom, is_fresh|]. unfold skb_write. rewrite lookup_insert_eq. simpl.
  rewrite insert_insert_eq. unfold field_upd. simpl. by rewrite drop_ge, app_nil_r by (by rewrite length_replicate).
Qed.

Lemma heap_keys_insert (h : skb_heap) p s :
  h !! p = None -> map fst (map_to_list (<[p := s]> h)) ≡ₚ p :: map fst (map_to_list h).
Proof. intros H. by rewrite map_to_list_insert. Qed.
Lemma heap_keys_delete (h : skb_heap) p s :
  h !! p = Some s -> map fst (map_to_list h) ≡ₚ p :: map fst (map_to_list (delete p h)).
Proof.
  intros H. rewrite <- (insert_delete_id h p s H) at 1. rewrite heap_keys_insert; [done|apply lookup_delete_eq].
Qed.

(** Freeing all datagrams of one queue. *)
Lemma free_all_spec q (h : skb_heap) rest :
  map m_skb q ++ rest ≡ₚ map fst (map_to_list h) -> (forall p s, h !! p = Some s -> skb_refcount s = 1) ->
  exists h', free_all q h = Some h' /\ rest ≡ₚ map fst (map_to_list h') /\
    (forall p s, h' !! p = Some s -> skb_refcount s = 1) /\ (forall p, p ∈ rest -> h' !! p = h !! p).
Proof.
  revert h. induction q as [|m q IH]; intros h Hperm Hone; cbn [free_all map app] in *; [by exists h|].
  assert (m_skb m ∈ map fst (map_to_list h)) as Hin by (rewrite <- Hperm; by left).
  apply list_elem_of_fmap in Hin as ([p s] & Hp & Hs%elem_of_map_to_list). simpl in Hp.
  rewrite (free_once h (m_skb m) s) by (by rewrite ?Hp; eauto). simpl.
  destruct (IH (delete (m_skb m) h)) as (h' & -> & Hr & Ho & Hsame).
  - apply (Permutation_cons_inv (a := m_skb m)). rewrite Hperm. apply (heap_keys_delete h (m_skb m) s). by rewrite Hp.
  - intros p' s' [_ Hp']%lookup_delete_Some. by eapply Hone.
  - exists h'. split; [done|]. split; [done|]. split; [done|]. intros p' Hp'. rewrite Hsame by done.
    apply lookup_delete_ne. intros <-.
    pose proof (NoDup_fst_map_to_list h) as Hnd. rewrite <- Hperm in Hnd.
    apply NoDup_cons in Hnd as [Hno _]. apply Hno, elem_of_app. by right.
Qed.

Section NetRefine.
  Context (n : net) (Hwf : net_wf n).

Lemma socket_refines :
    0 <= g_next_fd n < 2 ^ 31 - 1 ->
    net_wf (us_net_socket n).2 /\
    mail_step (mail_of n) NSocket = ((us_net_socket n).1, None, mail_of (us_net_socket n).2).
  Proof.
    intros Hn. unfold us_net_socket, mail_step. rewrite s32_id by lia. simpl. destruct (Z.ltb_spec (g_next_fd n) 0) as [Hl|Hl]; simpl.
    - split; [|done]. destruct Hwf as [Hb Ho Hs Hf]. split; [done..| |]; intros fd H; [apply Hs in H|apply Hf in H]; simpl; lia.
    - destruct Hwf as [Hb Ho Hs Hf]. split.
      + assert (g_rx_queues n !! g_next_fd n = None) as Hno.
        { destruct (g_rx_queues n !! g_next_fd n) eqn:E; [|done]. specialize (Hf (g_next_fd n) ltac:(by rewrite E)). lia. }
        split; simpl; [by rewrite queued_insert|done|by intros fd [->|Hk%Hs]%assoc_set_keys; lia|].
        intros fd. rewrite lookup_insert. case_decide; [lia|]. intros Hq%Hf. lia.
      + f_equal. unfold mail_of. simpl. by rewrite fmap_insert.
  Qed.

Lemma send_refines mem fd buf a p :
    exists rc n', us_net_sendto mem fd buf a p n = Some (rc, n') /\ net_wf n' /\
      mail_step (mail_of n) (NSend mem fd buf a p) = (rc, None, mail_of n').
  Proof.
    unfold us_net_sendto, mail_step. simpl. destruct (assoc_get fd (g_sockets n)) as [s|]; [|by eexists _, _].
    destruct (so_bound s); simpl; [|by eexists _, _]. destruct buf as [[|b bytes]|]; [by eexists _, _| |by eexists _, _].
    set (data := b :: bytes).
    destruct (skb_alloc mem (length data) (heap n)) as [[p0|] h1] eqn:Ea.
    - assert (mem = true) as -> by (revert Ea; unfold skb_alloc; simpl; by destruct mem).
      destruct (alloc_write _ _ _ _ _ Ea) as [Hfree ->]. simpl.
      destruct (find_bound a p (g_sockets n)) as [dst|] eqn:Efb.
      + eexists _, _. split; [done|]. split.
        * destruct Hwf as [Hb Ho Hs Hf]. split; simpl.
          -- rewrite queued_update, map_app, heap_keys_insert by done. simpl.
             rewrite <- Hb, (queued_split (g_rx_queues n) dst), <- app_assoc. simpl. by rewrite Permutation_middle.
          -- intros p' s'. rewrite lookup_insert. case_decide; [by intros [= <-]|apply Ho].
          -- done.
          -- intros fd'. rewrite lookup_insert. case_decide; [intros _; subst|apply Hf]. by apply Hs, find_bound_keys in Efb || (apply Hs; by eapply find_bound_keys).
        * f_equal. unfold mail_of. simpl. f_equal. rewrite fmap_insert, map_app. simpl.
          set (h' := <[p0:=Skb_ data 1]> (heap n)).
          assert ((map (letter_of h') <$> g_rx_queues n) = (map (letter_of (heap n)) <$> g_rx_queues n)) as Hq.
          { apply letters_same. intros fd' l m Hl Hm. unfold h'. apply lookup_insert_ne. intros ->.
            destruct (queued_alloc n Hwf (m_skb m)) as (s' & Hs' & _); [|congruence].
            apply (queue_queued n fd'). by rewrite Hl. }
          rewrite <- Hq. unfold field_upd. cbn [mb_sockets mb_queues mb_next_fd]. do 2 f_equal.
          rewrite lookup_fmap. assert (letter_of h' (Meta_ (so_addr s) (so_port s) p0) = (data, so_addr s, so_port s)) as ->
            by (unfold letter_of, h'; simpl; by rewrite lookup_insert_eq).
          by destruct (g_rx_queues n !! dst).
      + rewrite (free_once _ _ (Skb_ data 1)) by (done || apply lookup_insert_eq). simpl.
        rewrite delete_insert_id by done. exists (-1), n. destruct n. split; [done|]. by split.
    - assert (mem = false /\ h1 = heap n) as [-> ->] by (revert Ea; unfold skb_alloc; simpl; destruct mem; simpl; intros [= <-]; done).
      eexists _, _. split; [done|]. destruct n. by split.
  Qed.

  (** The head of a queue is a block of the heap, and in no other place. *)
Lemma queue_head fd m q :
    default [] (g_rx_queues n !! fd) = m :: q ->
    exists s, heap n !! m_skb m = Some s /\ skb_refcount s = 1 /\
      m_skb m ∉ map m_skb q ++ queued (delete fd (g_rx_queues n)) /\
      map m_skb q ++ queued (delete fd (g_rx_queues n)) ≡ₚ map fst (map_to_list (delete (m_skb m) (heap n))).
  Proof.
    intros Hq. destruct (queued_alloc n Hwf (m_skb m)) as (s & Hs & Hr).
    { apply (queue_queued n fd). rewrite Hq. by left. }
    pose proof (queued_nodup n Hwf) as Hnd. pose proof (nw_blocks _ Hwf) as Hb.
    rewrite (queued_split _ fd), Hq in Hnd, Hb. cbn [map app] in *. apply NoDup_cons in Hnd as [Hno _].
    exists s. split; [done|]. split; [done|]. split; [done|].
    apply (Permutation_cons_inv (a := m_skb m)). by rewrite Hb, (heap_keys_delete _ _ _ Hs).
  Qed.

  (** Queues that keep clear of the blocks given back tell the same letters. *)
Lemma letters_clear (h' : skb_heap) (q : gmap Z (list skb_meta)) :
    (forall p, p ∈ queued q -> h' !! p = heap n !! p) ->
    (map (letter_of h') <$> q) = (map (letter_of (heap n)) <$> q).
  Proof. intros Hh. apply letters_same. intros fd l m Hl Hm. by eapply Hh, queued_member. Qed.

Lemma recv_refines fd buf max_len :
    exists a n', us_net_recvfrom fd buf max_len n = Some (a, n') /\ net_wf n' /\
      mail_step (mail_of n) (NRecv fd buf max_len) = (a, mail_of n').
  Proof.
    unfold us_net_recvfrom, mail_step. simpl. destruct (assoc_get fd (g_sockets n)) as [s|] eqn:Eg; [|by eexists _, _].
    destruct (negb buf || _); [by eexists _, _|]. rewrite lookup_fmap.
    destruct (default [] (g_rx_queues n !! fd)) as [|m q] eqn:Eq.
    { exists (- EAGAIN, None), n. split; [done|]. split; [done|]. destruct (g_rx_queues n !! fd) as [[|]|]; by simplify_eq/=. }
    destruct (g_rx_queues n !! fd) as [l|] eqn:El; simplify_eq/=.
    destruct (queue_head fd m q ltac:(by rewrite El)) as (s' & Hs' & Hr & Hno & Hperm).
    rewrite Hs'. simpl. rewrite (free_once _ _ _ Hs' Hr).  simpl.
    eexists _, _. split; [done|]. split.
    - destruct Hwf as [Hb Ho Hs Hf]. split; simpl; [by rewrite queued_update| |done|].
      + intros p s0 [_ Hp]%lookup_delete_Some. by eapply Ho.
      + intros fd'. rewrite lookup_insert. case_decide; [intros _; subst; apply Hf; by rewrite El|apply Hf].
    - pose proof (letters_clear (delete (m_skb m) (heap n)) (<[fd:=q]> (g_rx_queues n))) as He.
      unfold mail_of. simpl. rewrite He, fmap_insert; [done|].
      intros p Hp. apply lookup_delete_ne. intros <-. apply Hno. by rewrite queued_update in Hp.
  Qed.

Lemma close_refines fd :
    exists rc n', us_net_close fd n = Some (rc, n') /\ net_wf n' /\
      mail_step (mail_of n) (NClose fd) = (rc, None, mail_of n').
  Proof.
    unfold us_net_close, mail_step. simpl. destruct (assoc_get fd (g_sockets n)) as [s|] eqn:Eg; [|by eexists _, _].
    assert (forall fd', fd' ∈ map fst (assoc_del fd (g_sockets n)) -> fd' < g_next_fd n) as Hks
      by (intros fd' H%assoc_del_keys; by apply (nw_socks _ Hwf)).
    pose proof Hwf as [Hb Ho Hs Hf].
    destruct (g_rx_queues n !! fd) as [q|] eqn:El.
    - destruct (free_all_spec q (heap n) (queued (delete fd (g_rx_queues n)))) as (h' & -> & Hr & Ho' & Hsame); [|done|].
      { rewrite <- Hb, (queued_split (g_rx_queues n) fd), El. done. }
      simpl. eexists _, _. split; [done|]. split.
      + split; simpl; [done..|]. intros fd' [? [_ H]%lookup_delete_Some]. by apply Hf.
      + unfold mail_of. simpl. rewrite (letters_clear h' (delete fd (g_rx_queues n))) by done. by rewrite fmap_delete.
    - eexists _, _. split; [done|]. split; [by split|].
      unfold mail_of, field_upd. simpl. rewrite delete_id; [done|]. by rewrite lookup_fmap, El.
  Qed.

Lemma net_step_refines c :
    0 <= g_next_fd n < 2 ^ 31 - 1 ->
    exists a n', net_step n c = Some (a, n') /\ net_wf n' /\ mail_step (mail_of n) c = (a, mail_of n').
  Proof.
    intros Hn. destruct c as [|fd addr port|mem fd buf a p|fd buf max_len|fd].
    - destruct (socket_refines Hn) as [Hw Hm]. cbn [net_step]. destruct (us_net_socket n) as [rc n']. by eexists _, _.
    - simpl. unfold us_net_bind. destruct (assoc_get fd (g_sockets n)) as [s|] eqn:Eg; [|by eexists _, _].
      destruct (_ || _); [by eexists _, _|]. eexists _, _. split; [done|]. split; [|done].
      destruct Hwf as [Hb Ho Hs Hf]. split; simpl; [done..| |done].
      intros fd' [->|H]%assoc_set_keys; [|by apply Hs]. by eapply Hs, assoc_get_keys.
    - destruct (send_refines mem fd buf a p) as (rc & n' & H & ? & ?). cbn [net_step]. rewrite H. by eexists _, _.
    - apply recv_refines.
    - destruct (close_refines fd) as (rc & n' & H & ? & ?). cbn [net_step]. rewrite H. by eexists _, _.
  Qed.
End NetRefine.

(** ** Sequences of calls *)
Fixpoint net_run (n : net) (cs : list net_call) : option (list net_answer * net) :=
  match cs with
  | [] => Some ([], n)
  | c :: cs => '(a, n) ← net_step n c; '(l, n) ← net_run n cs; Some (a :: l, n)
  end.
Fixpoint mail_run (b : mailboxes) (cs : list net_call) : list net_answer * mailboxes :=
  match cs with
  | [] => ([], b)
  | c :: cs => let '(a, b) := mail_step b c in let '(l, b) := mail_run b cs in (a :: l, b)
  end.

(** Descriptors are numbered upwards, one for each socket. *)
Lemma mail_step_fd b c : 0 <= mb_next_fd b -> mb_next_fd b <= mb_next_fd (mail_step b c).2 <= mb_next_fd b + 1.
Proof. intros Hb. destruct c; simpl; repeat case_match; simpl; lia. Qed.

Lemma net_run_refines cs n :
  net_wf n -> 0 <= g_next_fd n -> g_next_fd n + Z.of_nat (length cs) < 2 ^ 31 -> exists l n', net_run n cs = Some (l, n') /\ net_wf n' /\ mail_run (mail_of n) cs = (l, mail_of n').
Proof.
  revert n. induction cs as [|c cs IH]; intros n Hwf H0 Hn; [by exists [], n|]. rewrite length_cons in Hn.
  destruct (net_step_refines n Hwf c ltac:(lia)) as (a & n1 & Hs & Hwf1 & Hm).
  pose proof (mail_step_fd (mail_of n) c H0) as Hfd. rewrite Hm in Hfd. simpl in Hfd. cbn [net_run mail_run]. rewrite Hs, Hm. simpl.
  destruct (IH n1 Hwf1 ltac:(lia) ltac:(lia)) as (l & n' & -> & Hwf' & ->). by exists (a :: l), n'.
Qed.

(** C18. Datagram sockets over counted packet buffers behave as mailboxes of
    values: for every sequence of calls that leaves descriptors to give (the
    counter is an [int]), no freed buffer is touched or freed
    again, each answer is the one the mailboxes give, a datagram is delivered
    with its bytes and source in the order sent, and the heap holds exactly the
    datagrams that wait to be received, each with one reference. *)
Theorem sockets_refine_mailboxes (calls : list net_call) (Hcalls : Z.of_nat (length calls) < 2 ^ 31 - 1000) :
  exists answers n, net_run net_init calls = Some (answers, n) /\
    mail_run mail_init calls = (answers, mail_of n) /\
    queued (g_rx_queues n) ≡ₚ map fst (map_to_list (heap n)) /\
    forall p s, heap n !! p = Some s -> skb_refcount s = 1.
Proof.
  assert (net_wf net_init) as Hwf.
  { split; [done|by intros p s H; cbn in H; apply lookup_empty_Some in H|by intros fd ?%not_elem_of_nil|].
    intros fd [l H]. cbn in H. by apply lookup_empty_Some in H. }
  destruct (net_run_refines calls net_init Hwf ltac:(done) ltac:(simpl; lia)) as (l & n & Hr & Hn & Hm).
  exists l, n. split; [done|]. split; [exact Hm|]. split; [apply (nw_blocks _ Hn)|apply (nw_once _ Hn)].
Qed.

Lemma sockets_refine_mailboxes_witness :
  exists n, net_run net_init [NSocket; NBind 1000 5 80; NSend true 1000 (Some [1; 2]) 5 80; NRecv 1000 true 8] =
    Some ([(1000, None); (0, None); (2, None); (2, Some ([1; 2], 5, 80))], n) /\ heap n = ∅.
Proof.
  destruct (sockets_refine_mailboxes [NSocket; NBind 1000 5 80; NSend true 1000 (Some [1; 2]) 5 80; NRecv 1000 true 8])
    as (answers & n & Hr & Hm & Hq & _); [by vm_compute|].
  exists n. vm_compute in Hr. injection Hr as <- <-. split; reflexivity.
Defined.

(** Two sockets bound to one address: the older gets the datagrams. *)
Example bound_twice :
  (mail_run mail_init [NSocket; NSocket; NSocket; NBind 1002 1 1; NBind 1001 5 80; NBind 1000 5 80;
     NSend true 1002 (Some [1; 2; 3]) 5 80; NRecv 1001 true 8; NRecv 1000 true 2]).1 =
  [(1000, None); (1001, None); (1002, None); (0, None); (0, None); (0, None); (3, None); (-11, None); (2, Some ([1; 2], 1, 1))].
Proof. by vm_compute. Qed.

(** ** The network driver and its loopback card *)
Record LoopbackNic := Nic_ {
  captured : list (list Z);
  tx_count : Z;
  rx_count : Z;
}.
#[export] Instance eta_nic : Eta LoopbackNic := fun r => Nic_ (captured r) (tx_count r) (rx_count r).
Definition nic_init : LoopbackNic := Nic_ [] 0 0.
Definition nic_xmit (payload : list Z) (c : LoopbackNic) : Z * LoopbackNic :=
  (0, c <| captured ::= fun l => l ++ [payload] |> <| tx_count ::= Z.add 1 |>).
Definition nic_recv (max_len : nat) (c : LoopbackNic) : Z * option (list Z) * LoopbackNic :=
  match captured c with
  | [] => (- EAGAIN, None, c)
  | p :: l =>
      (s32 (Z.of_nat (length (take max_len p))), Some (take max_len p),
       c <| captured := l |> <| rx_count ::= Z.add 1 |>)
  end.
Definition nic_reset (c : LoopbackNic) : LoopbackNic := nic_init.

Record NetDevice := NetDev_ {
  nd_name : string;
  nd_nic : LoopbackNic;
  nd_opened : bool;
}.
#[export] Instance eta_netdev : Eta NetDevice := fun r => NetDev_ (nd_name r) (nd_nic r) (nd_opened r).
Definition net_device_create (name : option string) : NetDevice := NetDev_ (default "net0" name) nic_init false.
Definition net_device_open (dev : option NetDevice) : Z * option NetDevice :=
  match dev with None => (- EINVAL, None) | Some d => (0, Some (d <| nd_opened := true |>)) end.
Definition net_device_close (dev : option NetDevice) : Z * option NetDevice :=
  match dev with None => (- EINVAL, None) | Some d => (0, Some (d <| nd_opened := false |>)) end.
Definition net_start_xmit (d : NetDevice) (payload : list Z) : Z * NetDevice :=
  if negb (nd_opened d) then (-1, d)
  else let '(rc, c) := nic_xmit payload (nd_nic d) in (rc, d <| nd_nic := c |>).
(** The buffer stays the caller's. *)
Definition net_device_xmit (dev : option NetDevice) (skb : option nat) (h : skb_heap) : option (Z * option NetDevice) :=
  match dev, skb with
  | Some d, Some p => s ← h !! p; let '(rc, d) := net_start_xmit d (skb_payload s) in Some (rc, Some d)
  | _, _ => Some (- EINVAL, dev)
  end.
Definition net_device_recv (dev : option NetDevice) (buf : bool) (max_len : nat) : Z * option (list Z) * option NetDevice :=
  match dev with
  | Some d => if negb buf then (- EINVAL, None, dev)
              else let '(rc, out, c) := nic_recv max_len (nd_nic d) in (rc, out, Some (d <| nd_nic := c |>))
  | None => (- EINVAL, None, None)
  end.
Definition net_device_nic_tx_count (dev : option NetDevice) : Z := match dev with Some d => tx_count (nd_nic d) | None => 0 end.
Definition net_device_nic_reset (dev : option NetDevice) : option NetDevice :=
  match dev with Some d => Some (d <| nd_nic ::= nic_reset |>) | None => None end.

(** What was transmitted comes back in order, and the counters tell how much. *)
Fixpoint xmit_all (d : NetDevice) (ps : list (list Z)) : NetDevice :=
  match ps with [] => d | p :: ps => xmit_all (net_start_xmit d p).2 ps end.
Lemma xmit_all_captured ps d :
  nd_opened d = true ->
  captured (nd_nic (xmit_all d ps)) = captured (nd_nic d) ++ ps /\
  tx_count (nd_nic (xmit_all d ps)) = tx_count (nd_nic d) + Z.of_nat (length ps).
Proof.
  revert d. induction ps as [|p ps IH]; intros d Ho; simpl; [rewrite app_nil_r; split; [done|lia]|].
  destruct (IH (net_start_xmit d p).2) as [H1 H2]; [unfold net_start_xmit; by rewrite Ho|].
  rewrite H1, H2. unfold net_start_xmit. rewrite Ho. simpl. rewrite <- app_assoc. split; [done|lia].
Qed.
Lemma recv_returns_first d p l max_len :
  captured (nd_nic d) = p :: l -> (length p <= max_len)%nat ->
  exists d', net_device_recv (Some d) true max_len = (s32 (Z.of_nat (length p)), Some p, Some d') /\ captured (nd_nic d') = l.
Proof. intros Hc Hl. simpl. unfold nic_recv. rewrite Hc, take_ge by done. by eexists. Qed.
