(* ===== verification/Storage.v ===== *)
(** * Block files and the storage driver

    [src/src/kernel/block/bio_compat.cpp] and
    [src/plugins/storage_driver/drv/storage_driver.cpp].

    The C streams they use are modelled as far as they are used: files are byte
    lists by path, a stream has a position and a mode, a write takes effect at
    once, and reading after a write with no [fseek] between is undefined
    ([None]), as the C standard has it. *)
From S2P Require Import Prelude.
From stdpp Require Import gmap.

#[local] Open Scope Z_scope.

(** ** C streams *)
Inductive fmode := ModeR | ModeRPlus | ModeWPlus | ModeA.
Inductive last_op := LastNone | LastRead | LastWrite.
Record FILE := File_ {
  f_path : string;
  f_mode : fmode;
  f_pos : nat;
  f_last : last_op;
}.
#[export] Instance eta_FILE : Eta FILE := fun r => File_ (f_path r) (f_mode r) (f_pos r) (f_last r).
Abbreviation files := (gmap string (list Z)).

Definition readable (m : fmode) : bool := match m with ModeA => false | _ => true end.
Definition writable (m : fmode) : bool := match m with ModeR => false | _ => true end.

(** [allowed]: what the operating system says to the access. *)
Definition fopen (allowed : bool) (path : string) (m : fmode) (fs : files) : option FILE * files :=
  if negb allowed then (None, fs)
  else match m, fs !! path with
  | (ModeR | ModeRPlus), None => (None, fs)
  | (ModeR | ModeRPlus), Some _ => (Some (File_ path m 0 LastNone), fs)
  | ModeWPlus, _ => (Some (File_ path m 0 LastNone), <[path := []]> fs)
  | ModeA, None => (Some (File_ path m 0 LastNone), <[path := []]> fs)
  | ModeA, Some _ => (Some (File_ path m 0 LastNone), fs)
  end.
Definition contents (f : FILE) (fs : files) : list Z := default [] (fs !! f_path f).

(** Bytes [at] a position of a file, the gap before it filled with zeros. *)
Definition splice (pos : nat) (bytes old : list Z) : list Z :=
  take pos old ++ replicate (pos - length old) 0 ++ bytes ++ drop (pos + length bytes) old.

Definition fread (count : nat) (f : FILE) (fs : files) : option (list Z * FILE) :=
  match f_last f with
  | LastWrite => None
  | _ =>
      if negb (readable (f_mode f)) then Some ([], f)
      else let bytes := take count (drop (f_pos f) (contents f fs)) in
           Some (bytes, f <| f_pos ::= fun p => (p + length bytes)%nat |> <| f_last := LastRead |>)
  end.
(** Writing after a read needs an [fseek] too, unless the read met the end. *)
Definition fwrite (bytes : list Z) (f : FILE) (fs : files) : option (nat * FILE * files) :=
  let old := contents f fs in
  match f_last f with
  | LastRead => if (f_pos f <? length old)%nat then None else
      if negb (writable (f_mode f)) then Some (0%nat, f, fs)
      else Some (length bytes, f <| f_pos := (f_pos f + length bytes)%nat |> <| f_last := LastWrite |>,
                 <[f_path f := splice (f_pos f) bytes old]> fs)
  | _ =>
      if negb (writable (f_mode f)) then Some (0%nat, f, fs)
      else let pos := match f_mode f with ModeA => length old | _ => f_pos f end in
           Some (length bytes, f <| f_pos := (pos + length bytes)%nat |> <| f_last := LastWrite |>,
                 <[f_path f := splice pos bytes old]> fs)
  end.
(** [whence]: 0 from the start, 1 from the position, 2 from the end. *)
Definition fseek (offset whence : Z) (f : FILE) (fs : files) : option FILE :=
  let base := if whence =? 0 then Some 0 else if whence =? 1 then Some (Z.of_nat (f_pos f))
              else if whence =? 2 then Some (Z.of_nat (length (contents f fs))) else None in
  b ← base;
  if b + offset <? 0 then None
  else Some (f <| f_pos := Z.to_nat (b + offset) |> <| f_last := LastNone |>).

(** ** Block files *)
Record block_file := BF_ {
  bf_fp : FILE;
  bf_path : string;
  bf_size : Z;
}.
#[export] Instance eta_bf : Eta block_file := fun r => BF_ (bf_fp r) (bf_path r) (bf_size r).
Record blocks := Blocks_ {
  g_files : gmap Z block_file;
  g_next_fd : Z;
  fs : files;
}.
#[export] Instance eta_blocks : Eta blocks := fun r => Blocks_ (g_files r) (g_next_fd r) (fs r).
Definition blocks_init (fs : files) : blocks := Blocks_ ∅ 2000 fs.

Definition open_mode (flags : Z) : fmode :=
  if flags =? 0 then ModeR
  else if truthy (Z.land flags 0x40) then ModeWPlus
  else if truthy (Z.land flags 0x200) then ModeA
  else ModeRPlus.

Definition us_block_open (allowed : bool) (path : option string) (flags : Z) (b : blocks) : Z * blocks :=
  match path with
  | None => (- EINVAL, b)
  | Some path =>
      let '(fp, d) := fopen allowed path (open_mode flags) (fs b) in
      match fp with
      | None => (- ENOENT, b <| fs := d |>)
      | Some fp =>
          let sz := Z.of_nat (length (contents fp d)) in
          let fd := g_next_fd b in
          (fd, b <| fs := d |> <| g_next_fd := s32 (fd + 1) |> <| g_files ::= <[fd := BF_ fp path sz]> |>)
      end
  end.
Definition us_block_close (fd : Z) (b : blocks) : Z * blocks :=
  match g_files b !! fd with
  | None => (- EBADF, b)
  | Some _ => (0, b <| g_files ::= delete fd |>)
  end.
(** The value returned and the bytes read. *)
Definition us_block_read (fd : Z) (buf : bool) (count : nat) (b : blocks) : option (Z * list Z * blocks) :=
  if negb buf || (count =? 0)%nat then Some (- EINVAL, [], b)
  else match g_files b !! fd with
  | None => Some (- EBADF, [], b)
  | Some bf =>
      '(bytes, fp) ← fread count (bf_fp bf) (fs b);
      Some (Z.of_nat (length bytes), bytes, b <| g_files ::= <[fd := bf <| bf_fp := fp |>]> |>)
  end.
Definition us_block_write (fd : Z) (buf : option (list Z)) (b : blocks) : option (Z * blocks) :=
  match buf with
  | None | Some [] => Some (- EINVAL, b)
  | Some bytes =>
      match g_files b !! fd with
      | None => Some (- EBADF, b)
      | Some bf =>
          '(n, fp, d) ← fwrite bytes (bf_fp bf) (fs b);
          let pos := Z.of_nat (f_pos fp) in
          let size := if (0 <? n)%nat && (bf_size bf <? pos) then pos else bf_size bf in
          Some (Z.of_nat n, b <| fs := d |> <| g_files ::= <[fd := bf <| bf_fp := fp |> <| bf_size := size |>]> |>)
      end
  end.
Definition us_block_seek (fd offset whence : Z) (b : blocks) : Z * blocks :=
  match g_files b !! fd with
  | None => (- EBADF, b)
  | Some bf =>
      match fseek offset whence (bf_fp bf) (fs b) with
      | None => (- EIO, b)
      | Some fp => (Z.of_nat (f_pos fp), b <| g_files ::= <[fd := bf <| bf_fp := fp |>]> |>)
      end
  end.
Definition us_block_size (fd : Z) (b : blocks) : Z :=
  match g_files b !! fd with None => 0 | Some bf => bf_size bf end.
Definition us_block_path (fd : Z) (b : blocks) : option string := bf_path <$> g_files b !! fd.

(** ** The storage driver *)
Record BlockDevice := BlockDev_ {
  bd_name : string;
  sim_fd : Z;
  bd_opened : bool;
}.
#[export] Instance eta_bd : Eta BlockDevice := fun r => BlockDev_ (bd_name r) (sim_fd r) (bd_opened r).
Definition disk_path : string := "/tmp/storage_drv_test.dat".

Definition sim_open (allowed : bool) (path : string) (flags : Z) (d : BlockDevice) (b : blocks) : Z * BlockDevice * blocks :=
  let '(fd, b) := us_block_open allowed (Some path) flags b in
  let d := d <| sim_fd := fd |> in
  if fd <? 0 then (fd, d, b) else (0, d, b).
Definition sim_close (d : BlockDevice) (b : blocks) : Z * BlockDevice * blocks :=
  if sim_fd d <? 0 then (- EBADF, d, b)
  else let '(rc, b) := us_block_close (sim_fd d) b in (rc, d <| sim_fd := -1 |>, b).
Definition sim_size (d : BlockDevice) (b : blocks) : Z := if sim_fd d <? 0 then 0 else us_block_size (sim_fd d) b.

Definition block_device_create (name : option string) : BlockDevice := BlockDev_ (default "sda0" name) (-1) false.
Definition block_device_open (allowed : bool) (dev : option BlockDevice) (b : blocks) : Z * option BlockDevice * blocks :=
  match dev with
  | None => (- EINVAL, None, b)
  | Some d =>
      let '(rc, d, b) := sim_open allowed disk_path 0x40 d b in
      (rc, Some (if rc =? 0 then d <| bd_opened := true |> else d), b)
  end.
Definition block_device_close (dev : option BlockDevice) (b : blocks) : Z * option BlockDevice * blocks :=
  match dev with
  | None => (- EINVAL, None, b)
  | Some d =>
      let '(rc, d, b) := sim_close d b in
      (rc, Some (if rc =? 0 then d <| bd_opened := false |> else d), b)
  end.
Definition block_device_read (dev : option BlockDevice) (buf : bool) (count : nat) (b : blocks) : option (Z * list Z * blocks) :=
  match dev with
  | None => Some (- EINVAL, [], b)
  | Some d =>
      if negb (bd_opened d) then Some (-1, [], b)
      else if sim_fd d <? 0 then Some (- EBADF, [], b)
      else us_block_read (sim_fd d) buf count b
  end.
Definition block_device_write (dev : option BlockDevice) (buf : option (list Z)) (b : blocks) : option (Z * blocks) :=
  match dev with
  | None => Some (- EINVAL, b)
  | Some d =>
      if negb (bd_opened d) then Some (-1, b)
      else if sim_fd d <? 0 then Some (- EBADF, b)
      else us_block_write (sim_fd d) buf b
  end.
Definition block_device_size (dev : option BlockDevice) (b : blocks) : Z :=
  match dev with None => 0 | Some d => sim_size d b end.
Definition block_device_destroy (dev : option BlockDevice) (b : blocks) : blocks :=
  match dev with
  | None => b
  | Some d => if bd_opened d then (sim_close d b).2 else b
  end.

(** ** Theorems *)
Lemma splice_read pos bytes old : take (length bytes) (drop pos (splice pos bytes old)) = bytes.
Proof.
  unfold splice. rewrite !app_assoc, <- (app_assoc _ bytes).
  rewrite drop_app_length' by (rewrite length_app, length_take, length_replicate; lia).
  by rewrite take_app_length.
Qed.
Lemma splice_length pos bytes old : length (splice pos bytes old) = Nat.max (length old) (pos + length bytes).
Proof. unfold splice. rewrite !length_app, length_take, length_drop, length_replicate. lia. Qed.

Lemma splice_bytes pos bytes old i :
  splice pos bytes old !! i =
    if bool_decide (pos <= i < pos + length bytes)%nat then bytes !! (i - pos)%nat
    else if bool_decide (i < length old)%nat then old !! i
    else if bool_decide (i < pos)%nat then Some 0 else None.
Proof.
  unfold splice. rewrite !app_assoc, <- (app_assoc _ bytes).
  set (l := take pos old ++ replicate (pos - length old) 0).
  assert (length l = pos) as Hl by (unfold l; rewrite length_app, length_take, length_replicate; lia).
  destruct (decide (i < pos)%nat) as [Hi|Hi].
  - rewrite bool_decide_eq_false_2 by lia. rewrite lookup_app_l by lia. unfold l.
    destruct (decide (i < length old)%nat) as [Ho|Ho].
    + rewrite bool_decide_eq_true_2 by done. rewrite lookup_app_l by (rewrite length_take; lia). by apply lookup_take_lt.
    + rewrite bool_decide_eq_false_2, bool_decide_eq_true_2 by lia.
      rewrite lookup_app_r, length_take by (rewrite length_take; lia). apply lookup_replicate. split; [done|lia].
  - rewrite lookup_app_r, Hl by lia. destruct (decide (i < pos + length bytes)%nat) as [Hb|Hb].
    + rewrite bool_decide_eq_true_2 by lia. apply lookup_app_l. lia.
    + rewrite bool_decide_eq_false_2 by lia. rewrite lookup_app_r, lookup_drop by lia.
      replace (pos + length bytes + (i - pos - length bytes))%nat with i by lia.
      destruct (decide (i < length old)%nat) as [Ho|Ho]; [by rewrite bool_decide_eq_true_2 by done|].
      rewrite !bool_decide_eq_false_2 by lia. apply lookup_ge_None. lia.
Qed.

(** The three calls, on a descriptor that may read and write. *)
Section WriteRead.
Context (fd : Z) (bf : block_file) (b : blocks).
Context (Hmode : f_mode (bf_fp bf) = ModeRPlus \/ f_mode (bf_fp bf) = ModeWPlus).
Lemma write_exact bytes : g_files b !! fd = Some bf -> f_last (bf_fp bf) <> LastRead -> bytes <> [] ->
  bf_size bf = Z.of_nat (length (contents (bf_fp bf) (fs b))) ->
  let new := splice (f_pos (bf_fp bf)) bytes (contents (bf_fp bf) (fs b)) in
  us_block_write fd (Some bytes) b = Some (Z.of_nat (length bytes),
    b <| fs ::= <[f_path (bf_fp bf) := new]> |>
      <| g_files ::= <[fd := bf <| bf_fp := bf_fp bf <| f_pos := (f_pos (bf_fp bf) + length bytes)%nat |> <| f_last := LastWrite |> |>
                                <| bf_size := Z.of_nat (length new) |>]> |>).
Proof.
  intros Hfd Hfresh Hne Hsize new. unfold us_block_write. destruct bytes as [|x xs]; [done|]. rewrite Hfd.
  set (bytes := x :: xs) in *.
  assert (fwrite bytes (bf_fp bf) (fs b) =
    Some (length bytes, bf_fp bf <| f_pos := (f_pos (bf_fp bf) + length bytes)%nat |> <| f_last := LastWrite |>,
          <[f_path (bf_fp bf) := new]> (fs b))) as ->.
  { unfold fwrite. assert (writable (f_mode (bf_fp bf)) = true) as -> by (by destruct Hmode as [-> | ->]).
    simpl. destruct (f_last (bf_fp bf)); [|done|]; by destruct Hmode as [-> | ->]. }
  cbn [mbind option_bind]. do 2 f_equal. unfold new. rewrite splice_length.
  replace (Z.of_nat (Nat.max (length (contents (bf_fp bf) (fs b))) (f_pos (bf_fp bf) + length bytes))) with
    (if (0 <? length bytes)%nat && (bf_size bf <? Z.of_nat (f_pos (bf_fp bf) + length bytes))
     then Z.of_nat (f_pos (bf_fp bf) + length bytes) else bf_size bf); [done|].
  rewrite Hsize. assert ((0 <? length bytes)%nat = true) as -> by done.
  cbn [andb]. generalize (length bytes) (length (contents (bf_fp bf) (fs b))). intros l m.
  destruct (Z.ltb_spec (Z.of_nat m) (Z.of_nat (f_pos (bf_fp bf) + l))); lia.
Qed.
Lemma seek_exact p : g_files b !! fd = Some bf ->
  us_block_seek fd (Z.of_nat p) 0 b =
    (Z.of_nat p, b <| g_files ::= <[fd := bf <| bf_fp := bf_fp bf <| f_pos := p |> <| f_last := LastNone |> |>]> |>).
Proof.
  intros Hfd. unfold us_block_seek. rewrite Hfd. unfold fseek. cbn.
  destruct (Z.ltb_spec (0 + Z.of_nat p) 0); [lia|]. by rewrite ?Z.add_0_l, ?Nat2Z.id.
Qed.
Lemma read_exact bytes : g_files b !! fd = Some bf -> f_last (bf_fp bf) <> LastWrite -> bytes <> [] ->
  take (length bytes) (drop (f_pos (bf_fp bf)) (contents (bf_fp bf) (fs b))) = bytes ->
  us_block_read fd true (length bytes) b = Some (Z.of_nat (length bytes), bytes,
    b <| g_files ::= <[fd := bf <| bf_fp := bf_fp bf <| f_pos ::= fun p => (p + length bytes)%nat |> <| f_last := LastRead |> |>]> |>).
Proof.
  intros Hfd Hfresh Hne Hc. unfold us_block_read. destruct (Nat.eqb_spec (length bytes) 0) as [Hz|_]; [by destruct bytes|].
  simpl. rewrite Hfd. unfold fread.
  assert (readable (f_mode (bf_fp bf)) = true) as -> by (by destruct Hmode as [-> | ->]). rewrite Hc.
  by destruct (f_last (bf_fp bf)).
Qed.
End WriteRead.



(** *** Observations *)
(** The driver has no [seek]: reading what was written is undefined. *)
Lemma driver_read_back_undefined :
  let '(_, dev, b) := block_device_open true (Some (block_device_create None)) (blocks_init ∅) in
  match block_device_write dev (Some [1; 2]) b with
  | Some (_, b) => block_device_read dev true 2 b = None
  | None => False
  end.
Proof. by vm_compute. Qed.
(** Opening the device empties the disk. *)
Lemma driver_open_truncates :
  let b := blocks_init {[ disk_path := [1; 2; 3] ]} in
  fs (block_device_open true (Some (block_device_create None)) b).2 !! disk_path = Some [].
Proof. by vm_compute. Qed.
(** A second open forgets the descriptor of the first. *)
Lemma driver_reopen_leaks :
  let '(_, dev, b) := block_device_open true (Some (block_device_create None)) (blocks_init ∅) in
  let '(_, dev, b) := block_device_open true dev b in
  let '(rc, _, b) := block_device_close dev b in
  rc = 0 /\ is_Some (g_files b !! 2000).
Proof. vm_compute. split; [done|]. by eexists. Qed.
