(* ===== verification/Chardev.v ===== *)
(** * Wait queues, event watchers and character devices

    [src/src/kernel/wait_queue.cpp], [poll_watcher.cpp], [file_ops.cpp], the two
    devices of [device/] and the sample driver [src/drivers/sample_memory.cpp].

    A call that waits is split where it waits: it answers [Waits], and its
    second part runs when the flag of the wait queue is up.  An interleaving of
    threads is a sequence of such steps. *)
From S2P Require Import Prelude.
From stdpp Require Import gmap.

#[local] Open Scope Z_scope.

(** ** Wait queues: [flag_] *)
Definition wake_up (flag : bool) : bool := true.
(** The end of [wait]: enabled when the flag is up, which it takes down. *)
Definition wait_end (flag : bool) : option bool := if flag then Some false else None.
(** [signalled]: the flag came up before the time was over. *)
Definition wait_for (signalled flag : bool) : bool * bool := let flag := flag || signalled in (flag, flag).

(** ** Watchers of file descriptors *)
Inductive EventType := Readable | Writable.
#[export] Instance EventType_eq_dec : EqDecision EventType.
Proof. solve_decision. Defined.
(** [events_]: for each descriptor, the callbacks by kind of event. *)
Abbreviation watcher C := (gmap Z (list (EventType * C))).
Section PollWatcher.
  Context {Callback : Type}.
Definition kind_set (ty : EventType) (cb : Callback) (l : list (EventType * Callback)) : list (EventType * Callback) :=
    (ty, cb) :: List.filter (fun e => negb (bool_decide (e.1 = ty))) l.
Definition kind_get (ty : EventType) (l : list (EventType * Callback)) : option Callback :=
    snd <$> head (List.filter (fun e => bool_decide (e.1 = ty)) l).
Definition add_event (fd : Z) (ty : EventType) (cb : Callback) (w : watcher Callback) : watcher Callback :=
    <[fd := kind_set ty cb (default [] (w !! fd))]> w.
Definition remove_event (fd : Z) (ty : EventType) (w : watcher Callback) : watcher Callback :=
    match List.filter (fun e => negb (bool_decide (e.1 = ty))) (default [] (w !! fd)) with
    | [] => delete fd w
    | l => <[fd := l]> w
    end.
  (** The callback that is called. *)
Definition trigger_event (fd : Z) (ty : EventType) (w : watcher Callback) : option Callback :=
    w !! fd ≫= kind_get ty.

Lemma kind_get_remove ty ty' (l : list (EventType * Callback)) :
    kind_get ty' (List.filter (fun e => negb (bool_decide (e.1 = ty))) l) = if decide (ty' = ty) then None else kind_get ty' l.
  Proof.
    unfold kind_get. induction l as [|[t c] l IH]; simpl; [by case_decide|].
    repeat (case_bool_decide || case_decide || simpl); subst; simplify_eq; try done.
    all: repeat (case_bool_decide || case_decide || simpl); subst; simplify_eq; try done.
  Qed.
Lemma trigger_add fd ty cb fd' ty' (w : watcher Callback) :
    trigger_event fd' ty' (add_event fd ty cb w) =
      if decide (fd' = fd /\ ty' = ty) then Some cb else trigger_event fd' ty' w.
  Proof.
    unfold trigger_event, add_event. rewrite lookup_insert. case_decide as Hfd; [subst|].
    - simpl. unfold kind_set, kind_get at 1. simpl. case_bool_decide as Ht; simpl.
      + subst. by rewrite decide_True.
      + rewrite decide_False by (intros [_ ->]; done). fold (kind_get ty' (List.filter (fun e => negb (bool_decide (e.1 = ty))) (default [] (w !! fd')))).
        rewrite kind_get_remove, decide_False by congruence. by destruct (w !! fd').
    - by rewrite decide_False by (intros [-> _]; done).
  Qed.
Lemma trigger_remove fd ty fd' ty' (w : watcher Callback) :
    trigger_event fd' ty' (remove_event fd ty w) =
      if decide (fd' = fd /\ ty' = ty) then None else trigger_event fd' ty' w.
  Proof.
    unfold trigger_event, remove_event. pose proof (kind_get_remove ty ty' (default [] (w !! fd))) as Hk.
    destruct (List.filter _ _) as [|e l] eqn:E.
    - destruct (decide (fd' = fd)) as [->|Hfd].
      + rewrite lookup_delete_eq. simpl in *. case_decide as Ht; [by rewrite decide_True|].
        rewrite decide_False by (intros [_ ?]; done). by destruct (w !! fd).
      + rewrite lookup_delete_ne by done. by rewrite decide_False by (intros [? _]; done).
    - destruct (decide (fd' = fd)) as [->|Hfd].
      + rewrite lookup_insert_eq. simpl in *. rewrite Hk. case_decide as Ht; [by rewrite decide_True|].
        rewrite decide_False by (intros [_ ?]; done). by destruct (w !! fd).
      + rewrite lookup_insert_ne by done. by rewrite decide_False by (intros [? _]; done).
  Qed.
End PollWatcher.

(** ** The default file operations *)
Inductive answer :=
| Returns (rc : Z) (out : list Z)
| Waits.
Record FileOperations := FO_ {
  fo_flag : bool;
  has_data : bool;
}.
Definition fo_init : FileOperations := FO_ false false.
Section FileOps.
  (** The value of the macro [O_NONBLOCK]; the descriptor is tested for it. *)
  Context (O_NONBLOCK : Z).
Definition nonblocking (fd : Z) : bool := truthy (Z.land fd O_NONBLOCK).
Definition fo_read_end (f : FileOperations) : answer * FileOperations := (Returns 0 [], FO_ (fo_flag f) false).
Definition fo_read (fd : Z) (f : FileOperations) : answer * FileOperations :=
    if negb (has_data f) then
      if nonblocking fd then (Returns (- EAGAIN) [], f) else (Waits, f)
    else fo_read_end f.
Definition fo_read_resume (f : FileOperations) : option (answer * FileOperations) :=
    flag ← wait_end (fo_flag f); Some (fo_read_end (FO_ flag (has_data f))).
Definition fo_write (count : Z) (f : FileOperations) : Z * FileOperations := (count, FO_ (wake_up (fo_flag f)) true).

  (** The anonymous mappings by address: [g_mapped_blocks].  [mapping] is the
      answer of [mmap] and [rc] the one of [munmap]. *)
Definition fo_mmap (mapping : option Z) (g_mapped_blocks : gset Z) : option Z * gset Z :=
    match mapping with
    | None => (None, g_mapped_blocks)
    | Some p => (Some p, {[p]} ∪ g_mapped_blocks)
    end.
Definition fo_munmap (rc addr : Z) (g_mapped_blocks : gset Z) : Z * gset Z :=
    (rc, g_mapped_blocks ∖ {[addr]}).

(** ** The memory device *)
Definition mem_read (count : nat) (buffer : list Z) : Z * list Z :=
    let actual := Nat.min count (length buffer) in (Z.of_nat actual, take actual buffer).
Definition mem_write (bytes : list Z) (buffer : list Z) : Z * list Z :=
    let actual := Nat.min (length bytes) (length buffer) in
    (Z.of_nat actual, take actual bytes ++ drop actual buffer).

Lemma mem_write_read bytes buffer :
    mem_read (length bytes) (mem_write bytes buffer).2 =
      ((mem_write bytes buffer).1, take (length buffer) bytes).
  Proof.
    unfold mem_read, mem_write. simpl.
    assert (length (take (length bytes `min` length buffer) bytes ++ drop (length bytes `min` length buffer) buffer) = length buffer)%nat as ->
      by (rewrite length_app, length_take, length_drop; lia).
    f_equal. rewrite take_app_le, take_take by (rewrite length_take; lia). rewrite Nat.min_id.
    destruct (Nat.le_ge_cases (length bytes) (length buffer)).
    - rewrite Nat.min_l, (take_ge bytes (length bytes)), take_ge by lia. done.
    - by rewrite Nat.min_r by lia.
  Qed.
End FileOps.

(** ** The serial device *)
Record SerialDevice := Serial_ {
  rx_buffer : list Z;
  sd_flag : bool;
  baud_rate : Z;
  sd_watch : watcher unit;
}.
#[export] Instance eta_serial : Eta SerialDevice := fun r => Serial_ (rx_buffer r) (sd_flag r) (baud_rate r) (sd_watch r).
Section Serial.
  Context (O_NONBLOCK SERIAL_SET_BAUDRATE SERIAL_GET_BAUDRATE SERIAL_FLUSH : Z).

  (** The copying loop, and the value returned whatever was copied. *)
Definition serial_copy (count : nat) (d : SerialDevice) : answer * SerialDevice :=
    (Returns (Z.of_nat count) (take count (rx_buffer d)), d <| rx_buffer ::= drop count |>).
Definition serial_read (fd : Z) (count : nat) (d : SerialDevice) : answer * SerialDevice :=
    match rx_buffer d with
    | [] => if nonblocking O_NONBLOCK fd then (Returns (- EAGAIN) [], d)
            else (Waits, d <| sd_watch ::= add_event fd Readable tt |>)
    | _ => serial_copy count d
    end.
Definition serial_resume (fd : Z) (count : nat) (d : SerialDevice) : option (answer * SerialDevice) :=
    flag ← wait_end (sd_flag d);
    Some (serial_copy count (d <| sd_flag := flag |> <| sd_watch ::= remove_event fd Readable |>)).
  (** [write] and [push_data]. *)
Definition serial_push (bytes : list Z) (d : SerialDevice) : SerialDevice :=
    d <| rx_buffer ::= fun l => l ++ bytes |> <| sd_flag ::= wake_up |>.
Definition serial_write (bytes : list Z) (d : SerialDevice) : Z * SerialDevice :=
    (Z.of_nat (length bytes), serial_push bytes d).
  (** The value returned and what is stored through [argp]. *)
Definition serial_ioctl (request arg : Z) (d : SerialDevice) : Z * option Z * SerialDevice :=
    if request =? SERIAL_SET_BAUDRATE then (0, None, d <| baud_rate := arg |>)
    else if request =? SERIAL_GET_BAUDRATE then (0, Some (baud_rate d), d)
    else if request =? SERIAL_FLUSH then (0, None, d <| rx_buffer := [] |>)
    else (-1, None, d).
  (** The callback of the watcher. *)
Definition serial_trigger (fd : Z) (d : SerialDevice) : SerialDevice :=
    match trigger_event fd Readable (sd_watch d) with Some _ => d <| sd_flag ::= wake_up |> | None => d end.

Inductive serial_step :=
  | SRead (fd : Z) (count : nat)
  | SResume (fd : Z) (count : nat)
  | SPush (bytes : list Z)
  | STrigger (fd : Z).
  (** The bytes given to a reader; a step that is not enabled does nothing. *)
Definition serial_run1 (d : SerialDevice) (s : serial_step) : list Z * SerialDevice :=
    match s with
    | SRead fd count => match serial_read fd count d with (Returns _ out, d) => (out, d) | (Waits, d) => ([], d) end
    | SResume fd count =>
        match serial_resume fd count d with
        | Some (Returns _ out, d) => (out, d)
        | _ => ([], d)
        end
    | SPush bytes => ([], serial_push bytes d)
    | STrigger fd => ([], serial_trigger fd d)
    end.
Fixpoint serial_run (d : SerialDevice) (l : list serial_step) : list Z * SerialDevice :=
    match l with
    | [] => ([], d)
    | s :: l => let '(out, d) := serial_run1 d s in let '(outs, d) := serial_run d l in (out ++ outs, d)
    end.
Fixpoint pushed (l : list serial_step) : list Z :=
    match l with [] => [] | SPush b :: l => b ++ pushed l | _ :: l => pushed l end.

  (** Readers get the bytes in the order they were written, each once. *)
Lemma serial_fifo l d : (serial_run d l).1 ++ rx_buffer (serial_run d l).2 = rx_buffer d ++ pushed l.
  Proof.
    revert d. induction l as [|s l IH]; intros d; [by rewrite app_nil_r|]. cbn.
    destruct (serial_run1 d s) as [out d1] eqn:E. specialize (IH d1).
    destruct (serial_run d1 l) as [outs d2]. simpl in *. rewrite <- app_assoc, IH.
    assert (out ++ rx_buffer d1 = rx_buffer d ++ match s with SPush b => b | _ => [] end) as H.
    { destruct s as [fd count|fd count|bytes|fd]; simpl in E.
      - unfold serial_read in E. rewrite app_nil_r. destruct (rx_buffer d) eqn:Er; [destruct (nonblocking O_NONBLOCK fd); injection E as <- <-; exact Er|].
        unfold serial_copy in E. simplify_eq/=. rewrite <- Er. apply take_drop.
      - unfold serial_resume in E. destruct (wait_end (sd_flag d)); simplify_eq/=; rewrite app_nil_r; [apply take_drop|done].
      - by simplify_eq/=.
      - rewrite app_nil_r. unfold serial_trigger in E. case_match; by simplify_eq/=. }
    rewrite app_assoc, H, <- app_assoc. by destruct s.
  Qed.
End Serial.

(** ** The sample memory driver
    A memory device with a mode; the constants are those of its ioctls. *)
Record SampleMemory := SM_ {
  sm_buffer : list Z;
  sm_mode : Z;
  sm_status : Z
}.
#[export] Instance eta_sm : Eta SampleMemory := fun r => SM_ (sm_buffer r) (sm_mode r) (sm_status r).
Definition sample_memory (size : nat) : SampleMemory := SM_ (replicate size 0) 0 0.
Definition sample_read (count : nat) (d : SampleMemory) : Z * list Z := mem_read count (sm_buffer d).
Definition sample_write (bytes : list Z) (d : SampleMemory) : Z * SampleMemory :=
  let '(n, b) := mem_write bytes (sm_buffer d) in (n, d <| sm_buffer := b |>).
Definition sample_ioctl (SAMPLE_SET_MODE SAMPLE_GET_STATUS request arg : Z) (d : SampleMemory)
    : Z * option Z * SampleMemory :=
  if request =? SAMPLE_SET_MODE then (0, None, d <| sm_mode := arg |>)
  else if request =? SAMPLE_GET_STATUS then (0, Some (sm_status d), d)
  else (-1, None, d).
(** The mode that is set shows nowhere: the status stays 0. *)
Lemma sample_status_zero set_ get_ request arg d : sm_status d = 0 ->
  sm_status (sample_ioctl set_ get_ request arg d).2 = 0.
Proof. unfold sample_ioctl. by repeat case_match. Qed.

(** *** Observations *)
Definition serial_init : SerialDevice := Serial_ [] false 9600 ∅.
(** A read that finds fewer bytes than asked for returns the number asked
    for. *)
Lemma serial_short_read :
  serial_read 2048 3 8 (serial_push [1; 2] serial_init) = (Returns 8 [1; 2], (serial_push [1; 2] serial_init) <| rx_buffer := [] |>).
Proof. reflexivity. Qed.
(** The flag of a write that nobody waited for lets a later blocking read go on
    with nothing to read. *)
Lemma serial_stale_wakeup :
  let '(_, d) := serial_read 2048 3 2 (serial_push [1; 2] serial_init) in
  let '(a, d) := serial_read 2048 3 4 d in
  a = Waits /\ match serial_resume 3 4 d with Some (a, _) => a = Returns 4 [] | None => False end.
Proof. vm_compute. by split. Qed.
