(* ===== verification/KernelCompat.v ===== *)
(** * Kernel services for driver code

    What the user-space kernel offers the drivers beside the device table:
    error pointers and allocation ([include/linux_compat/types.h], [memory.h]),
    the forwarding of [ioremap] and of coherent DMA ([src/src/kernel/compat]),
    the thread class ([thread/kernel_thread_base.cpp]) and the DRM objects
    ([drm/drm_file.cpp], [drm_gem.cpp], [drm_prime.cpp], [errno_to_linux.cpp]).

    The C library and the operating system are arguments: what [malloc],
    [calloc], [mmap] and [pthread_create] answer. *)
From S2P Require Import Prelude SimMem.
From stdpp Require Import gmap.

#[local] Open Scope Z_scope.

(** ** Error pointers *)
Definition MAX_ERRNO : Z := 4095.
Definition IS_ERR_VALUE (x : Z) : bool := u64 (- MAX_ERRNO) <=? x.
Definition ERR_PTR (error : Z) : Z := u64 error.
Definition PTR_ERR (ptr : Z) : Z := s64 ptr.
Definition IS_ERR (ptr : Z) : bool := IS_ERR_VALUE ptr.
Definition IS_ERR_OR_NULL (ptr : Z) : bool := (ptr =? 0) || IS_ERR_VALUE ptr.

(** An error code goes through a pointer unchanged, and a pointer is an error
    exactly when it carries one of the codes from -4095 to -1. *)
Lemma err_ptr_exact e : - 2 ^ 63 <= e < 2 ^ 63 ->
  PTR_ERR (ERR_PTR e) = e /\ (IS_ERR (ERR_PTR e) = true <-> - MAX_ERRNO <= e < 0).
Proof.
  intros He. unfold PTR_ERR, ERR_PTR, IS_ERR, IS_ERR_VALUE, s64, MAX_ERRNO.
  rewrite (u64_id (u64 e)) by apply u64_range. assert (u64 (- (4095)) = 2 ^ 64 - 4095) as -> by reflexivity. unfold u64.
  destruct (Z.ltb_spec e 0) as [H|H].
  - assert (e mod 2 ^ 64 = e + 2 ^ 64) as -> by (symmetry; apply (Z.mod_unique_pos _ _ (-1)); lia).
    destruct (Z.ltb_spec (e + 2 ^ 64) (2 ^ 63)); [lia|]. split; [lia|]. rewrite Z.leb_le. lia.
  - rewrite Z.mod_small by lia. destruct (Z.ltb_spec e (2 ^ 63)); [|lia]. split; [done|]. rewrite Z.leb_le. lia.
Qed.

(** ** Allocation
    A block is its address and its size; the arguments are the allocators of
    the C library, which may fail. *)
Section Alloc.
  Context (malloc : Z -> option (Z * Z)) (calloc : Z -> Z -> option (Z * Z)).
Definition kmalloc (size flags : Z) : option (Z * Z) := if size =? 0 then None else malloc size.
Definition kzalloc (size flags : Z) : option (Z * Z) := if size =? 0 then None else calloc 1 size.
Definition kcalloc (n size flags : Z) : option (Z * Z) :=
    if (n =? 0) || (size =? 0) then None
    else if UINT64_MAX / size <? n then None
    else calloc n size.
Definition vmalloc (size : Z) : option (Z * Z) := if size =? 0 then None else malloc size.

  (** No block of an array that does not fit the address space, and never a
      block smaller than asked for. *)
Lemma kcalloc_exact n size flags :
    is_u64 n -> is_u64 size -> (forall a b, 0 < a -> 0 < b -> a * b <= UINT64_MAX -> is_Some (calloc a b)) ->
    is_Some (kcalloc n size flags) <-> 0 < n * size <= UINT64_MAX.
  Proof.
    intros Hn Hs Hc. unfold kcalloc.
    destruct (Z.eqb_spec n 0) as [->|Hn0]; [split; [intros [? [=]]|lia]|].
    destruct (Z.eqb_spec size 0) as [->|Hs0]; [split; [intros [? [=]]|lia]|]. simpl.
    destruct (Z.ltb_spec (UINT64_MAX / size) n) as [H|H].
    - split; [intros [? [=]]|]. intros [_ Hle]. exfalso.
      apply (Z.div_le_mono _ _ size) in Hle; [|lia]. rewrite Z.div_mul in Hle by done. lia.
    - assert (n * size <= UINT64_MAX) as Hle.
      { pose proof (Z.mul_div_le UINT64_MAX size ltac:(lia)). nia. }
      split; [nia|]. intros _. apply Hc; lia.
  Qed.
End Alloc.

(** ** Device memory
    [vm]: the mappings of the process, by address and size.  [munmap] of length
    0 is an error and unmaps nothing. *)
Definition munmap (addr size : Z) (vm : gmap Z Z) : Z * gmap Z Z :=
  if size =? 0 then (- EINVAL, vm) else (0, delete addr vm).
Definition ioremap (phys_addr size : Z) (mapping : option Z) (s : GpuVramStore * gmap Z Z)
    : option Z * (GpuVramStore * gmap Z Z) :=
  let '(v, vm) := s in
  let fresh_ := existsb (fun b => (phys_base b =? phys_addr) && bool_decide (backing b = None)) (bars v) in
  let '(p, v) := bar_ioremap phys_addr size mapping v in
  (p, (v, match p with Some a => if fresh_ then <[a := size]> vm else vm | None => vm end)).
(** The size passed on is 0. *)
Definition iounmap (addr : Z) (s : GpuVramStore * gmap Z Z) : GpuVramStore * gmap Z Z :=
  let '(v, vm) := s in
  if existsb (fun b => bool_decide (backing b = Some addr)) (bars v)
  then (bar_iounmap (Some addr) v, (munmap addr 0 vm).2) else s.
Definition dma_alloc_coherent (size : Z) (d : DmaCoherentPool) : Z * option Z * DmaCoherentPool :=
  let '(cpu, a, d) := dma_allocate size d in
  (cpu, if cpu =? 0 then None else a, d).
Definition dma_free_coherent (dma_handle : Z) (d : DmaCoherentPool) : DmaCoherentPool := dma_free dma_handle d.
Definition dma_map_single : Z := 0.

(** Remapping a BAR forgets its memory without unmapping it. *)
Definition bar_start : GpuVramStore * gmap Z Z := (mk_vram 0 None [mk_bar 4096 0 None (-1)] true, ∅).
Lemma iounmap_leaks :
  let '(p, s) := ioremap 4096 8192 (Some 65536) bar_start in
  let s := iounmap 65536 s in
  let '(q, s) := ioremap 4096 8192 (Some 131072) s in
  p = Some 65536 /\ q = Some 131072 /\ map fst (map_to_list s.2) ≡ₚ [65536; 131072].
Proof. vm_compute. split; [done|]. split; [done|]. apply (bool_decide_unpack _). by vm_compute. Qed.

(** ** Threads: [kernel_thread_base]
    One client calls [start] and [stop], as the header of the class asks.  Its
    calls are split at each access another thread can observe; [kt_pc] is where
    the client is. *)
Inductive client_pc := CIdle | CCreating | CRollBack | CStopping.
Record kthread := KT_ {
  running : bool;
  (** [thread_], [None] for 0 *)
  thread : option nat;
  (** the threads that have been created and whose [run] has not returned *)
  live_threads : gset nat;
  kt_pc : client_pc
}.
#[export] Instance eta_kthread : Eta kthread := fun k => KT_ (running k) (thread k) (live_threads k) (kt_pc k).
Definition kthread_new : kthread := KT_ false None ∅ CIdle.

Inductive kthread_step : kthread -> kthread -> Prop :=
| kt_started k : kt_pc k = CIdle -> running k = true -> kthread_step k k
| kt_start k : kt_pc k = CIdle -> running k = false ->
    kthread_step k (k <| running := true |> <| kt_pc := CCreating |>)
| kt_created k t : kt_pc k = CCreating -> t ∉ live_threads k ->
    kthread_step k (k <| thread := Some t |> <| live_threads ::= fun l => {[t]} ∪ l |> <| kt_pc := CIdle |>)
| kt_create_failed k : kt_pc k = CCreating ->
    kthread_step k (k <| running := false |> <| kt_pc := CRollBack |>)
| kt_rolled_back k : kt_pc k = CRollBack ->
    kthread_step k (k <| thread := None |> <| kt_pc := CIdle |>)
| kt_stopped k : kt_pc k = CIdle -> running k = false -> kthread_step k k
| kt_stop k : kt_pc k = CIdle -> running k = true ->
    kthread_step k (k <| running := false |> <| kt_pc := CStopping |>)
| kt_join k t : kt_pc k = CStopping -> thread k = Some t -> t ∉ live_threads k ->
    kthread_step k (k <| thread := None |> <| kt_pc := CIdle |>)
| kt_no_thread k : kt_pc k = CStopping -> thread k = None -> kthread_step k (k <| kt_pc := CIdle |>)
(** [run] of a thread returns; the derived class decides when. *)
| kt_run_ends k t : t ∈ live_threads k -> kthread_step k (k <| live_threads ::= fun l => l ∖ {[t]} |>).
Definition kthread_reachable : kthread -> Prop := rtc kthread_step kthread_new.

Record kthread_ok (k : kthread) : Prop := {
  kt_one : forall t, t ∈ live_threads k -> thread k = Some t;
  kt_where : match kt_pc k with
             | CIdle => running k = bool_decide (is_Some (thread k))
             | CCreating => running k = true /\ thread k = None
             | CRollBack => running k = false /\ thread k = None
             | CStopping => running k = false /\ is_Some (thread k)
             end
}.
Lemma kthread_step_ok k k' : kthread_step k k' -> kthread_ok k -> kthread_ok k'.
Proof.
  intros H [Hone Hw]. destruct H as [k Hp Hr|k Hp Hr|k t Hp Ht|k Hp|k Hp|k Hp Hr|k Hp Hr|k t Hp Hth Ht|k Hp Hth|k t Ht]; rewrite ?Hp in Hw.
  - split; [done|by rewrite Hp].
  - rewrite Hr in Hw. symmetry in Hw. apply bool_decide_eq_false in Hw. split; simpl; [done|].
    split; [done|]. destruct (thread k); [by destruct Hw; eexists|done].
  - destruct Hw as [Hr Hth]. split; simpl.
    + intros t' [->%elem_of_singleton|Ht']%elem_of_union; [done|]. apply Hone in Ht'. congruence.
    + exact Hr.
  - split; simpl; [done|]. by destruct Hw.
  - destruct Hw as [Hr Hth]. split; simpl; [intros t Ht; apply Hone in Ht; congruence|]. by rewrite Hr.
  - split; [done|by rewrite Hp].
  - rewrite Hr in Hw. symmetry in Hw. apply bool_decide_eq_true in Hw. by split.
  - split; simpl; [|by destruct Hw as [-> _]]. intros t' Ht'. pose proof (Hone t' Ht') as H. rewrite Hth in H. by injection H as ->.
  - destruct Hw as [_ [t Ht]]. congruence.
  - split; simpl; [|done]. intros t' Ht'. apply Hone. set_solver.
Qed.

(** Over any run of one client and of the threads it starts: at most one thread
    is alive; between calls the flag says whether there is a thread to join,
    and once [stop] or a failed [start] has returned none is alive; and a
    [stop] that waits always gets on: the thread's end is a step, and after it
    the join is. *)
Theorem thread_lifecycle (k : kthread) (Hk : kthread_reachable k) :
  (forall t u, t ∈ live_threads k -> u ∈ live_threads k -> t = u) /\
  (kt_pc k = CIdle -> running k = true <-> is_Some (thread k)) /\
  (kt_pc k = CIdle -> running k = false -> live_threads k = ∅) /\
  (kt_pc k = CStopping -> exists k', rtc kthread_step k k' /\ kt_pc k' = CIdle /\ running k' = false /\ live_threads k' = ∅).
Proof.
  assert (kthread_ok k) as [Hone Hw].
  { apply (rtc_ind_r (R := kthread_step) kthread_ok kthread_new); [split; simpl; [set_solver|done]| |exact Hk].
    intros k1 k2 _ Hs. by apply kthread_step_ok. }
  assert (thread k = None -> live_threads k = ∅) as Hnone.
  { intros H. apply set_eq. intros t. split; [intros Ht; apply Hone in Ht; congruence|set_solver]. }
  split; [intros t u Ht Hu; apply Hone in Ht, Hu; congruence|].
  split; [intros Hp; rewrite Hp in Hw; rewrite Hw; apply bool_decide_eq_true|].
  split.
  - intros Hp Hr. rewrite Hp, Hr in Hw. symmetry in Hw. apply bool_decide_eq_false in Hw. apply Hnone.
    destruct (thread k); [by destruct Hw; eexists|done].
  - intros Hp. rewrite Hp in Hw. destruct Hw as [Hr [t Ht]].
    set (k1 := k <| live_threads ::= fun l => l ∖ {[t]} |>).
    assert (live_threads k1 = ∅) as Hl.
    { apply set_eq. intros u. simpl. rewrite elem_of_difference, elem_of_singleton. split; [|set_solver].
      intros [Hu Hne]. apply Hone in Hu. congruence. }
    exists (k1 <| thread := None |> <| kt_pc := CIdle |>). split; [|split; [done|split; [exact Hr|exact Hl]]].
    assert (kthread_step k1 (k1 <| thread := None |> <| kt_pc := CIdle |>)) as Hj
      by (apply (kt_join _ t); [exact Hp|exact Ht|rewrite Hl; apply not_elem_of_empty]).
    destruct (decide (t ∈ live_threads k)) as [Hin|Hout].
    + apply (rtc_l _ _ k1); [by apply kt_run_ends|]. by apply rtc_once.
    + assert (live_threads k ∖ {[t]} = live_threads k) as El.
      { apply set_eq. intros u. rewrite elem_of_difference, elem_of_singleton. split; [by intros []|]. intros Hu. split; [done|by intros ->]. }
      assert (k1 = k) as Hk1 by (unfold k1; destruct k as [r th l pc]; simpl in El; change (KT_ r th (l ∖ {[t]}) pc = KT_ r th l pc); by rewrite El).
      rewrite Hk1 in Hj |- *. by apply rtc_once.
Qed.
Definition kthread_waiting : kthread := KT_ false (Some 7%nat) {[7%nat]} CStopping.
Lemma thread_lifecycle_witness :
  exists k', rtc kthread_step kthread_waiting k' /\ kt_pc k' = CIdle /\ running k' = false /\ live_threads k' = ∅.
Proof.
  assert (kthread_reachable kthread_waiting) as H.
  { apply (rtc_l _ _ (KT_ true None ∅ CCreating)); [by apply (kt_start kthread_new)|].
    apply (rtc_l _ _ (KT_ true (Some 7%nat) {[7%nat]} CIdle)).
    - replace {[7%nat]} with ({[7%nat]} ∪ ∅ : gset nat) by set_solver.
      apply (kt_created (KT_ true None ∅ CCreating) 7); [done|set_solver].
    - apply rtc_once. exact (kt_stop (KT_ true (Some 7%nat) {[7%nat]} CIdle) eq_refl eq_refl). }
  apply (proj2 (proj2 (proj2 (thread_lifecycle kthread_waiting H)))). reflexivity.
Defined.

(** ** DRM files
    A file and a device are keys of the two maps. *)
Record drm_file := DFile_ {
  df_dev : option nat;
  df_driver_priv : option Z;
  df_is_master : Z
}.
Record drm_state := Drm_ {
  file_count : gmap nat Z;
  drm_files : gmap nat drm_file
}.
Definition drm_file_init (f dev : nat) (s : drm_state) : drm_state :=
  Drm_ (alter Z.succ dev (file_count s)) (<[f := DFile_ (Some dev) None 0]> (drm_files s)).
(** [None]: a null pointer. *)
Definition drm_file_release (f : option nat) (s : drm_state) : drm_state :=
  match f ≫= fun f => drm_files s !! f ≫= fun d => (fun dev => (f, d, dev)) <$> df_dev d with
  | None => s
  | Some (f, d, dev) =>
      Drm_ (alter Z.pred dev (file_count s)) (<[f := DFile_ None None (df_is_master d)]> (drm_files s))
  end.

Inductive drm_call := DrmInit (f dev : nat) | DrmRelease (f : option nat).
Definition drm_do (s : drm_state) (c : drm_call) : drm_state :=
  match c with DrmInit f dev => drm_file_init f dev s | DrmRelease f => drm_file_release f s end.
(** The file may be initialised: it is not open. *)
Definition closed (f : nat) (s : drm_state) : Prop :=
  match drm_files s !! f with Some d => df_dev d = None | None => True end.
Fixpoint drm_run (s : drm_state) (cs : list drm_call) : Prop :=
  match cs with
  | [] => True
  | c :: cs => match c with DrmInit f _ => closed f s | DrmRelease _ => True end /\ drm_run (drm_do s c) cs
  end.
Definition open_on (dev : nat) (fs : gmap nat drm_file) : Z :=
  Z.of_nat (size (filter (fun kv => df_dev kv.2 = Some dev) fs)).

Lemma open_on_insert dev f d fs :
  open_on dev (<[f := d]> fs) =
    (if bool_decide (df_dev d = Some dev) then 1 else 0) + open_on dev (delete f fs).
Proof.
  unfold open_on. rewrite <- insert_delete_eq. case_bool_decide as H.
  - rewrite map_filter_insert_True by done. rewrite map_size_insert_None; [lia|].
    apply map_lookup_filter_None. left. apply lookup_delete_eq.
  - rewrite map_filter_insert_False by done. by rewrite delete_delete_eq.
Qed.
Lemma open_on_delete dev f fs :
  open_on dev fs = (if bool_decide (fs !! f ≫= df_dev = Some dev) then 1 else 0) + open_on dev (delete f fs).
Proof.
  destruct (fs !! f) as [d|] eqn:E.
  - rewrite <- (insert_id fs f d E) at 1. by rewrite open_on_insert.
  - by rewrite delete_id.
Qed.
(** The count of a device is the number of files open on it. *)
Lemma file_count_exact cs s : (forall dev n, file_count s !! dev = Some n -> n = open_on dev (drm_files s)) ->
  drm_run s cs -> forall dev n, file_count (foldl drm_do s cs) !! dev = Some n ->
  n = open_on dev (drm_files (foldl drm_do s cs)).
Proof.
  revert s. induction cs as [|c cs IH]; intros s Hs Hr; simpl; [exact Hs|]. destruct Hr as [Hc Hr].
  apply (IH (drm_do s c)); [|exact Hr]. clear IH Hr. intros dev n. destruct c as [f dv|f]; simpl.
  - rewrite open_on_insert. simpl. intros Hn. pose proof (open_on_delete dev f (drm_files s)) as Hd.
    unfold closed in Hc. destruct (decide (dv = dev)) as [->|Hne].
    + rewrite lookup_alter_eq in Hn. destruct (file_count s !! dev) as [m|] eqn:Em; simpl in Hn; [|discriminate].
      injection Hn as <-. rewrite (Hs dev m Em), Hd. rewrite (bool_decide_eq_true_2 (Some dev = Some dev)) by done.
      destruct (drm_files s !! f) as [d|]; simpl; [rewrite Hc|]; simpl; lia.
    + rewrite lookup_alter_ne in Hn by done. rewrite (Hs dev n Hn), Hd.
      rewrite (bool_decide_eq_false_2 (Some dv = Some dev)) by congruence.
      destruct (drm_files s !! f) as [d|]; simpl; [rewrite Hc|]; simpl; lia.
  - unfold drm_file_release. destruct f as [f|]; simpl; [|apply Hs].
    destruct (drm_files s !! f) as [d|] eqn:E; simpl; [|apply Hs].
    destruct (df_dev d) as [dv|] eqn:Ed; simpl; [|apply Hs].
    pose proof (open_on_delete dev f (drm_files s)) as Hd. rewrite E in Hd. simpl in Hd. rewrite Ed in Hd.
    rewrite open_on_insert. simpl. destruct (decide (dv = dev)) as [->|Hne].
    + rewrite lookup_alter_eq. destruct (file_count s !! dev) as [m|] eqn:Em; simpl; [|discriminate]. intros [= <-].
      rewrite (Hs dev m Em), Hd. rewrite bool_decide_eq_true_2 by done. lia.
    + rewrite lookup_alter_ne by done. intros Hn. rewrite (Hs dev n Hn), Hd.
      by rewrite (bool_decide_eq_false_2 (Some dv = Some dev)) by congruence.
Qed.

(** ** GEM objects *)
Record drm_gem_object := Gem_ {
  gem_dev : option nat;
  gem_size : Z;
  gem_refcount : Z;
  gem_handle_count : Z;
  gem_handle : Z;
  gem_priv : option Z
}.
#[export] Instance eta_gem : Eta drm_gem_object := fun g =>
  Gem_ (gem_dev g) (gem_size g) (gem_refcount g) (gem_handle_count g) (gem_handle g) (gem_priv g).
Definition drm_gem_object_init (dev : nat) (size : Z) : drm_gem_object := Gem_ (Some dev) size 0 0 0 None.
Definition drm_gem_object_release (g : drm_gem_object) : drm_gem_object :=
  g <| gem_dev := None |> <| gem_size := 0 |> <| gem_handle_count := 0 |>.
Definition drm_gem_object_get (g : drm_gem_object) : drm_gem_object := g <| gem_refcount ::= Z.succ |>.
Definition drm_gem_object_put (g : drm_gem_object) : drm_gem_object := g <| gem_refcount ::= Z.pred |>.
(** A new object has no reference, and dropping one releases nothing. *)
Lemma gem_put_releases_nothing dev size :
  let g := drm_gem_object_put (drm_gem_object_init dev size) in gem_refcount g = -1 /\ gem_dev g = Some dev.
Proof. done. Qed.

(** ** Sharing buffers: attachments and scatter tables
    Blocks of the heap are keys; a [bool] says whether an allocation succeeds;
    [None] is a use of freed memory. *)
Record dma_buf_attachment := Att_ {
  at_dmabuf : option nat;
  at_importer_ops : option nat;
  at_priv : option Z
}.
Record sg_table := Sg_ {
  sg_sgl : nat;
  sg_nents : Z;
  sg_orig_nents : Z
}.
Record dma_heap := DmaHeap_ {
  attachments : gmap nat dma_buf_attachment;
  tables : gmap nat sg_table;
  lists : gset nat
}.
#[export] Instance eta_dma_heap : Eta dma_heap := fun h => DmaHeap_ (attachments h) (tables h) (lists h).
Definition dma_buf_dynamic_attach (mem : bool) (dmabuf importer_ops : option nat) (importer_priv : option Z) (h : dma_heap)
    : option nat * dma_heap :=
  if negb mem then (None, h)
  else let a := fresh (dom (attachments h)) in
       (Some a, h <| attachments ::= <[a := Att_ dmabuf importer_ops importer_priv]> |>).
Definition dma_buf_detach (attach : option nat) (h : dma_heap) : option dma_heap :=
  match attach with
  | None => Some h
  | Some a => match attachments h !! a with
              | None => None
              | Some _ => Some (h <| attachments ::= delete a |>)
              end
  end.
Definition dma_buf_map_attachment (mem mem_sgl : bool) (h : dma_heap) : option nat * dma_heap :=
  if negb mem then (None, h)
  else
    let sg := fresh (dom (tables h)) in
    if negb mem_sgl then (None, h)
    else
      let sgl := fresh (lists h) in
      (Some sg, h <| tables ::= <[sg := Sg_ sgl 1 1]> |> <| lists ::= fun l => {[sgl]} ∪ l |>).
Definition dma_buf_unmap_attachment (sg : option nat) (h : dma_heap) : option dma_heap :=
  match sg with
  | None => Some h
  | Some p => match tables h !! p with
              | None => None
              | Some t => Some (h <| lists ::= fun l => l ∖ {[sg_sgl t]} |> <| tables ::= delete p |>)
              end
  end.
Definition dma_buf_pin : Z := 0.

(** Whatever allocations fail, mapping then unmapping leaves the heap as it
    was, and so do attaching and detaching. *)
Lemma dma_map_unmap m1 m2 h :
  let '(sg, h') := dma_buf_map_attachment m1 m2 h in dma_buf_unmap_attachment sg h' = Some h.
Proof.
  unfold dma_buf_map_attachment. destruct m1, m2; simpl; [|done..].
  rewrite lookup_insert_eq. destruct h as [a t l]. simpl. f_equal.
  change (DmaHeap_ a (delete (fresh (dom t)) (<[fresh (dom t) := Sg_ (fresh l) 1 1]> t)) (({[fresh l]} ∪ l) ∖ {[fresh l]}) = DmaHeap_ a t l).
  pose proof (is_fresh (dom t)) as Ht. pose proof (is_fresh l) as Hl. f_equal.
  - apply delete_insert_id. by apply not_elem_of_dom.
  - set_solver.
Qed.
Lemma dma_attach_detach m buf ops priv h :
  let '(a, h') := dma_buf_dynamic_attach m buf ops priv h in dma_buf_detach a h' = Some h.
Proof.
  unfold dma_buf_dynamic_attach. destruct m; simpl; [|done]. rewrite lookup_insert_eq. destruct h as [a t l]. simpl. f_equal.
  change (DmaHeap_ (delete (fresh (dom a)) (<[fresh (dom a) := Att_ buf ops priv]> a)) t l = DmaHeap_ a t l).
  f_equal. apply delete_insert_id. apply not_elem_of_dom. apply is_fresh.
Qed.

(** One global buffer stands for every descriptor; looking one up clears it. *)
Record dma_buf := Buf_ {
  db_file : option nat;
  db_ops : option nat;
  db_priv : option Z;
  db_attachments : option nat
}.
Definition dma_buf_get (fd : Z) (g_dummy_buf : dma_buf) : dma_buf := Buf_ None None None None.
Definition dma_buf_put (g_dummy_buf : dma_buf) : dma_buf := g_dummy_buf.
Lemma dma_buf_get_forgets fd fd' priv b : db_priv b = Some priv -> dma_buf_get fd b = dma_buf_get fd' (dma_buf_put b) /\ db_priv (dma_buf_get fd b) = None.
Proof. done. Qed.

Definition errno_to_linux (err : Z) : Z := if 0 <=? err then err else - err.
Lemma errno_to_linux_negates : errno_to_linux (- EINVAL) = EINVAL.
Proof. reflexivity. Qed.
