(* ===== verification/Cli.v ===== *)
(** * The command-line tool and the repository's plug-ins put together

    [src/src/kernel/config_manager.cpp] and [src/tools/cli/main.cpp] over the
    plug-in manager of [Modules]; and what loading the plug-ins of the repository
    does to a process.  The text of the configuration is parsed by
    a vendored library; the model starts from the document it yields and writes
    out what its accesses do: an absent member reads as null, and a value of
    another kind throws. *)
From S2P Require Import Prelude SimMem Topology Vfs Modules Plugins.
From stdpp Require Import gmap strings.

#[local] Open Scope Z_scope.

(** ** The configuration *)
Record PluginConfig := PC_ {
  pc_name : string;
  pc_path : string;
  pc_depends : list string
}.
Abbreviation configs := (gmap string PluginConfig).

(** [j[key]]; [None]: the access throws. *)
Definition index (key : string) (j : json) : option json :=
  match j with
  | JNull => Some JNull
  | JObject l => Some (default JNull (Topology.assoc key l))
  | _ => None
  end.
(** What a loop over a value goes through: a value that is no container goes
    through itself. *)
Definition elements (j : json) : list json :=
  match j with
  | JNull => []
  | JArray l => l
  | JObject l => map snd l
  | _ => [j]
  end.
Definition read_config (item : json) : option PluginConfig :=
  name ← index "name" item ≫= get_string;
  path ← index "path" item ≫= get_string;
  deps ← index "depends" item;
  depends ← mapM get_string (elements deps);
  Some (PC_ name path depends).
(** The loop; what was read before an exception stays. *)
Fixpoint read_configs (items : list json) (c : configs) : bool * configs :=
  match items with
  | [] => (true, c)
  | item :: items =>
      match read_config item with
      | None => (false, c)
      | Some p => read_configs items (<[pc_name p := p]> c)
      end
  end.

(** The file: it cannot be opened, does not parse, or holds a document. *)
Inductive config_file := NoFile | NoDocument | Document (j : json).
Inductive load_result := LoadReturns (rc : Z) (c : configs) | LoadThrows (c : configs).
Definition load_from_file (f : config_file) (c : configs) : load_result :=
  match f with
  | NoFile => LoadReturns (-1) c
  | NoDocument => LoadThrows c
  | Document j =>
      match index "plugins" j with
      | None => LoadThrows c
      | Some ps =>
          match read_configs (elements ps) c with
          | (true, c) => LoadReturns 0 c
          | (false, c) => LoadThrows c
          end
      end
  end.

(** ** The tool *)
Section Cli.
  Context {W : Type} (dlopen_mod : string -> @dl_answer W) (exists_ : string -> bool).

  (** A process: the manager's table, the loader's, and the exit code.  An
      exception that nobody catches ends the process. *)
Record cli_state := Cli_ {
    cli_plugins : gmap string (@PluginInfo W);
    cli_loader : @loader W
  }.
Definition cli_start (w : W) : cli_state := Cli_ ∅ (Loader_ ∅ [] w).
Inductive cli_result :=
  | Exits (rc : Z) (st : cli_state)
  | Terminates.

Definition manager_load (path : string) (st : cli_state) : option cli_state :=
    '(_, p, l) ← pm_load_plugin dlopen_mod (exists_ path) path (cli_plugins st) (cli_loader st);
    Some (Cli_ p l).
Definition manager_unload (name : string) (st : cli_state) : cli_state :=
    let '(_, p, l) := pm_unload_plugin name (cli_plugins st) (cli_loader st) in Cli_ p l.
  (** The look-up in the configuration and the load, of [load] and [reload]. *)
Definition load_configured (name : string) (c : configs) (st : cli_state) : cli_result :=
    match c !! name with
    | None => Exits (-1) st
    | Some p => match manager_load (pc_path p) st with Some st => Exits 0 st | None => Terminates end
    end.

  (** [argv] without the name of the program. *)
Definition cli_main (argv : list string) (f : config_file) (w : W) : cli_result :=
    match argv with
    | [] => Exits (-1) (cli_start w)
    | cmd :: args =>
        match load_from_file f ∅ with
        | LoadThrows _ => Terminates
        | LoadReturns _ c =>
            let st := cli_start w in
            if bool_decide (cmd = "list") then Exits 0 st
            else match args with
                 | name :: _ =>
                     if bool_decide (cmd = "load") then load_configured name c st
                     else if bool_decide (cmd = "unload") then Exits 0 (manager_unload name st)
                     else if bool_decide (cmd = "reload") then load_configured name c (manager_unload name st)
                     else Exits (-1) st
                 | [] => Exits (-1) st
                 end
        end
    end.

  (** A process of the tool starts with empty tables, so [unload] changes nothing
      and succeeds whatever it is given, [reload] is [load], and [load]
      initialises a plug-in exactly when its file is there, exports a module and
      the module depends on nothing; it returns 0 for every configured name. *)
Theorem cli_commands f w c (Hload : load_from_file f ∅ = LoadReturns 0 c) :
    (forall name, cli_main ["unload"; name] f w = Exits 0 (cli_start w)) /\
    (forall name, cli_main ["reload"; name] f w = cli_main ["load"; name] f w) /\
    (forall name, c !! name = None -> cli_main ["load"; name] f w = Exits (-1) (cli_start w)) /\
    (forall name p m n, c !! name = Some p -> dlopen_mod (pc_path p) = DlModule m -> m_name m = Some n ->
       exists st, cli_main ["load"; name] f w = Exits 0 st /\
       let runs := exists_ (pc_path p) && bool_decide (default [] (m_depends m) = []) in
       let '(rc, w') := match m_init m with Some init => init w | None => (0, w) end in
       world (cli_loader st) = (if runs then w' else w) /\
       (is_Some (cli_plugins st !! n) <-> runs = true /\ rc = 0) /\
       opens (cli_loader st) = (if runs && (rc =? 0) then [pc_path p] else [])).
  Proof.
    unfold cli_main. rewrite Hload. simpl. split; [done|]. split; [done|].
    split; [by intros name Hn; unfold load_configured; rewrite Hn|].
    intros name p m n Hn Hm Hname. unfold load_configured, manager_load, pm_load_plugin. rewrite Hn. simpl.
    assert (Hnone : is_Some ((∅ : gmap string (@PluginInfo W)) !! n) -> False) by (rewrite lookup_empty; by intros [? [=]]).
    destruct (exists_ (pc_path p)) eqn:He; simpl.
    2: { eexists. split; [done|]. simpl. destruct (m_init m) as [f0|]; [destruct (f0 w) as [rc w']|];
         (split; [done|split; [|done]]; split; [by intros H%Hnone|by intros [? _]]). }
    rewrite Hm, Hname. set (dl_close := dlclose (W := W)).
    assert (Hclose : forall l p', opens (dl_close p' l) = remove_one p' (opens l)) by done.
    assert (Hworld : forall l p', world (dl_close p' l) = world l) by done. clearbody dl_close.
    destruct (m_depends m) as [[|d ds]|]; simpl.
    1,3: destruct (m_init m) as [f0|]; simpl; [destruct (f0 w) as [rc w']; destruct (Z.eqb_spec rc 0) as [->|Hr]; simpl|].
    1,3,4,6: eexists; split; [done|]; simpl; split; [done|]; split; [|done]; rewrite lookup_insert_eq; split; [done|by eexists].
    1,2: eexists; split; [done|]; simpl; rewrite Hworld, Hclose; split; [done|];
         rewrite lookup_delete_eq; rewrite ?(proj2 (Z.eqb_neq _ _) Hr); simpl; rewrite bool_decide_eq_true_2 by done;
         split; [|done]; split; [by intros [? [=]]|by intros [_ ?]].
    rewrite lookup_empty. simpl. eexists. split; [done|]. simpl. rewrite Hworld, Hclose. simpl. rewrite bool_decide_eq_true_2 by done.
    destruct (m_init m) as [f0|]; [destruct (f0 w) as [rc w']|];
      (split; [done|split; [|done]]; split; [by intros H%Hnone|by intros [? _]]).
  Qed.
End Cli.

Module CliSamples.
(** [plugins/plugins.json], and what its paths hold. *)
Definition entry (name path : string) (deps : list string) : json :=
  JObject [("name", JString name); ("path", JString path); ("depends", JArray (map JString deps))].
Definition plugins_json : config_file := Document (JObject [("_note", JString "This file is documentation."); ("plugins", JArray
  [entry "memory" "build/drivers/plugin_sample_memory.so" []; entry "serial" "build/drivers/plugin_sample_serial.so" [];
   entry "gpu_driver" "build/plugins/gpu_driver/gpu_driver_plugin.so" []; entry "iommu" "plugins/plugin_iommu_driver.so" ["pci"]])]).
Definition files_in_plugins : list (string * string) :=
  [("plugins/plugin_iommu_driver.so", "plugin_iommu_driver.so"); ("plugins/plugins.json", "plugins.json");
   ("plugins/plugin_gpu_driver.so", "plugin_gpu_driver.so"); ("plugins/libnet_driver_plugin.so", "libnet_driver_plugin.so");
   ("plugins/plugin_pci_driver.so", "plugin_pci_driver.so"); ("plugins/plugin_sample_serial.so", "plugin_sample_serial.so")].
Definition linker (a : gpu_answers) (path : string) : @dl_answer process :=
  if bool_decide (path = "plugins/plugin_iommu_driver.so") then DlModule iommu_module
  else if bool_decide (path = "plugins/plugin_pci_driver.so") then DlModule pci_module
  else if bool_decide (path = "plugins/libnet_driver_plugin.so") then DlModule net_module
  else if bool_decide (path = "plugins/plugin_gpu_driver.so") then DlModule (gpu_module a)
  else if bool_decide (path = "build/plugins/gpu_driver/gpu_driver_plugin.so") then DlModule (gpu_module a)
  else if bool_decide (path = "build/drivers/plugin_sample_memory.so") then DlModule sample_memory_module
  else if bool_decide (path = "build/drivers/plugin_sample_serial.so") then DlModule sample_serial_module
  else if bool_decide (path = "plugins/plugin_sample_serial.so") then DlModule sample_serial_module
  else DlFails.
Definition nodes (st : @loader process) : list string := list_devices (vfs (world st)).
Definition names_loaded (st : @loader process) : list (string * Z) := (fun nm => (nm.1, pi_ref_count nm.2)) <$> map_to_list (loaded st).
End CliSamples.
Import CliSamples.
#[local] Existing Instance first_min_heap.

(** Loading the directory of the build: the plug-ins whose files have the prefix
    come up and their nodes appear; the network plug-in's file has another
    name and is passed over. *)
Example repository_plugins :
  match load_plugins (linker good_answers) (Some files_in_plugins) (Loader_ ∅ [] process_start) with
  | Some (rc, st) =>
      rc = 0 /\ names_loaded st ≡ₚ [("serial", 0); ("gpu_driver", 0); ("pci_driver", 1); ("iommu_driver", 0)] /\
      nodes st ≡ₚ ["ttyS0"; "gpgpu0"]
  | None => False
  end.
Proof. vm_compute. split; [reflexivity|]. split; apply (bool_decide_unpack _); vm_compute; exact I. Qed.
(** A plug-in that cannot start is left out, and the call succeeds all the same. *)
Example repository_without_gpu :
  match load_plugins (linker bad_doorbell) (Some files_in_plugins) (Loader_ ∅ [] process_start) with
  | Some (rc, st) => rc = 0 /\ nodes st = ["ttyS0"] /\ loaded st !! "gpu_driver" = None
  | None => False
  end.
Proof. vm_compute. repeat split. Qed.
(** Unloading takes the nodes away, in either order of the two that depend on
    each other. *)
Example repository_unloads :
  match load_plugins (linker good_answers) (Some files_in_plugins) (Loader_ ∅ [] process_start) with
  | Some (_, st) =>
      map (fun names => let st := unload_plugins names st in (nodes st, names_loaded st, opens st, live_contexts (world st)))
        [["pci_driver"; "iommu_driver"; "gpu_driver"; "serial"]; ["serial"; "iommu_driver"; "gpu_driver"; "pci_driver"]]
      = [([], [], [], 0); ([], [], [], 0)]
  | None => False
  end.
Proof. vm_compute. reflexivity. Qed.

Definition configured : configs :=
  match load_from_file plugins_json ∅ with LoadReturns _ c => c | LoadThrows c => c end.
Lemma cli_commands_witness :
  (exists st, cli_main (linker good_answers) (fun _ => true) ["load"; "memory"] plugins_json process_start = Exits 0 st /\
     is_Some (cli_plugins st !! "sample")) /\
  (exists st, cli_main (linker good_answers) (fun _ => true) ["load"; "iommu"] plugins_json process_start = Exits 0 st /\
     ~ is_Some (cli_plugins st !! "iommu_driver")).
Proof.
  assert (H : load_from_file plugins_json ∅ = LoadReturns 0 configured) by (vm_compute; reflexivity).
  destruct (cli_commands (linker good_answers) (fun _ => true) plugins_json process_start configured H) as (_ & _ & _ & Hl).
  split.
  - destruct (Hl "memory" (PC_ "memory" "build/drivers/plugin_sample_memory.so" []) sample_memory_module "sample") as (st & Hst & _ & Hp & _);
      [vm_compute; reflexivity..|]. exists st. split; [exact Hst|]. apply Hp. by split.
  - destruct (Hl "iommu" (PC_ "iommu" "plugins/plugin_iommu_driver.so" ["pci"]) iommu_module "iommu_driver") as (st & Hst & _ & Hp & _);
      [vm_compute; reflexivity..|]. exists st. split; [exact Hst|]. intros Hs. apply Hp in Hs as [Hs _].
    vm_compute in Hs. discriminate.
Defined.
(** The exit code does not tell that the plug-in failed to start. *)
Lemma cli_hides_failure :
  match cli_main (linker bad_doorbell) (fun _ => true) ["load"; "gpu_driver"] plugins_json process_start with
  | Exits rc st => rc = 0 /\ cli_plugins st !! "gpu_driver" = None
  | Terminates => False
  end.
Proof. vm_compute. by split. Qed.
(** A plug-in is unloaded by the name its module exports, not by the one it is
    configured under. *)
Lemma unload_by_module_name :
  match cli_main (linker good_answers) (fun _ => true) ["load"; "memory"] plugins_json process_start with
  | Exits _ st => (pm_unload_plugin "memory" (cli_plugins st) (cli_loader st)).1.1 = -1 /\
                  (pm_unload_plugin "sample" (cli_plugins st) (cli_loader st)).1.1 = 0
  | Terminates => False
  end.
Proof. vm_compute. by split. Qed.
